(* ===== verification/_CoqProject ===== *)
-Q . S2P
Prelude.v
Reader.v
Strategies.v
Device.v
Autodetect.v
Timers.v
Facades.v
Ptree.v
Gpio.v
Json.v
AuditLog.v
Wiegand.v
Users.v
Credentials.v
AuthSource.v
Signals.v
Schedules.v
Security.v
Session.v
Store.v
Api.v
ApiSafety.v
Accounts.v
Profiles.v
Zones.v
Resources.v
Estate.v
ResourceSafety.v
AuthFile.v
Doorman.v
Sysfs.v
Libgpiod.v
Pipeline.v
Entrance.v
RplethProtocol.v
Rpleth.v
Alarms.v
Led.v
Tasks.v
Trees.v
Config.v
Modules.v
Remote.v
Sync.v
Services.v
Kernel.v
Replication.v
Queries.v
QuerySafety.v
Updates.v
Notifiers.v
Watchers.v
Mqtt.v
Devices.v
DeviceSafety.v
Smtp.v
Columns.v
Transactions.v
AuditTrail.v
Handlers.v
ServerThreads.v
PifaceApi.v
Tools.v
ModuleLife.v
SideModules.v
