(* ===== verification/Prelude.v ===== *)
(** * A verification of Leosac, the access control software of this repository

    Leosac runs on a small computer next to a door. Badge readers and keypads are
    wired to its GPIO pins; the program reads what they send, decides whether the
    person may enter, and opens the door. Operators manage users, groups,
    schedules, doors and devices through a WebSocket API, and units are configured
    by files, by each other and by remote control. This development models the C++
    under [src/src/] as executable definitions and proves what they do. All paths
    below are under [src/src/]. The files come in the order of their dependencies.

    ** The way of a badge

    - [modules/wiegand/WiegandReaderImpl.cpp] is Reader.v: each interrupt on one of
      two wires adds a bit to a buffer of 128; [handle_bus_msg] is the handler.
    - [modules/wiegand/strategies/] is Strategies.v: the strategies turn bits into
      cards, PIN codes, or both. Their virtual interface is the class
      [WiegandStrategy]; [device] is a reader with its strategy and [device_run]
      the handlers' composition over any sequence of interrupts and idle ticks.
      Device.v proves, against the classes [StrategyLaws] and [TotalStrategy], what
      holds for every strategy, and what the simple, PIN and buffered-PIN ones
      read; Autodetect.v does the AUTODETECT one.
    - [modules/wiegand/wiegand.cpp] and [WiegandConfig.cpp] are Wiegand.v: the module
      builds its readers from the configuration and polls them.
    - [core/credentials/] is Credentials.v and [core/auth/AuthSourceBuilder.cpp]
      AuthSource.v: a reader's message becomes a credential. Signals.v joins it to the
      strategies: every message that a reader sends, in any mode, is understood.
    - [modules/auth/auth-file/] is AuthFile.v: loading the configuration, finding the
      owner, building the access profile, answering, reloading. It uses Users.v
      ([core/auth/User.cpp], [Group.cpp], [UserGroupMembership.cpp],
      [ValidityInfo.cpp], [tools/scrypt/]), Schedules.v ([tools/Schedule.cpp],
      [SingleTimeFrame.cpp], [ScheduleMapping.cpp], [XmlScheduleLoader.cpp]),
      Profiles.v ([core/auth/SimpleAccessProfile.cpp], [ProfileMerger.cpp],
      [AuthTarget.cpp]) and Zones.v ([core/auth/Zone.cpp], [Door.cpp],
      [AccessPoint.cpp]). The audit of a
      decision, when there is a database, is an argument of the instance's handler:
      what it throws comes after the decision. Pipeline.v goes from the interrupts of
      a badge to the answer on the bus.
    - [modules/doorman/] is Doorman.v: what an answer, an exit button, a door contact
      and the periodic update lead to. Entrance.v joins it to the pipeline: from
      the badge to the lock.

    ** The devices

    - [hardware/facades/] is Facades.v: requests to the peer bound to a name, the
      class [Peers], with [io] the monad of code that talks to peers; the bus that
      delivers messages to subscribers is [Bus]. [tools/timeout.hpp] is Timers.v.
    - GPIO pins: Gpio.v is [modules/pifacedigital/] over a [Board], Sysfs.v
      [modules/sysfsgpio/] over [Files], Libgpiod.v [modules/libgpiod/] over [Gpiod].
      Each implements the same interface, [GpioPeer], that its clients use.
    - [modules/led-buzzer/] is Led.v, its state machine written out; [modules/alarms/]
      is Alarms.v.
    - [modules/rpleth/] is RplethProtocol.v (the ring buffer and the packets) and
      Rpleth.v (the clients, their requests, the badges they are sent).
    - Devices.v has the devices in the database, [hardware/Device.cpp] with the types
      derived from it and [hardware/serializers/], and the handlers of
      [modules/led-buzzer/ws/], [modules/pifacedigital/CRUDHandler.cpp] and
      [modules/wiegand/ws/], and the readers the Wiegand module loads from the database with the
      devices they point to; DeviceSafety.v proves what they keep.
    - Forwarding modules: Notifiers.v is [modules/event-publish/], [tcp-notifier/],
      [ws-notifier/] and [lla/]; Watchers.v [monitor/] and [test-and-reset/]; Mqtt.v
      [mqtt/]; Smtp.v [smtp/].

    ** The API

    - [core/UserSecurityContext.cpp], [core/SecurityContext.cpp] and the finders of
      [tools/db/DBService.cpp] are Security.v: what each user may do.
    - [core/auth/Token.cpp], [modules/websock-api/api/APIAuth.cpp] and
      [APISession.cpp] are Session.v: the server is a state, the database and one
      session per connection, and an operation is a function of the monad [api],
      which keeps what was changed when it throws, transactions apart. [Odb] is what
      the code relies on of the database, [OdbLaws] its documented behaviour;
      Store.v is an implementation.
    - [modules/websock-api/WSServer.cpp], [api/CRUDResourceHandler.cpp],
      [MembershipCRUD.cpp], [UserCRUD.cpp], [PasswordChange.cpp] and
      [ExceptionConverter.cpp] are Api.v; [Dispatch.step] is the transition relation
      of the server and [reachable] its closure. ApiSafety.v and Accounts.v prove
      what holds of sessions and accounts; their runs ([ApiSafety.run]) record who was
      identified on each connection, so that the rights of a session are compared with that, and
      not with what the session says.
    - The other resources ([GroupCRUD.cpp], [CredentialCRUD.cpp], [ScheduleCRUD.cpp],
      [DoorCRUD.cpp], [ZoneCRUD.cpp], [AccessPointCRUD.cpp]) with their serializers
      are Resources.v, over the class [Table] of the rows of a type; Estate.v is a
      database in memory with all of them, ResourceSafety.v has the theorems.
    - Searches, the audit log, the log and the overview are Queries.v, with their
      theorems in QuerySafety.v; [core/audit/] is AuditLog.v; [core/update/] with its
      methods is Updates.v.
    - [tools/db/] is Transactions.v: the scopes of transactions, the optional and the
      multiplexed ones, savepoints and the service that loads and stores objects,
      over the class [TransactionalDb]. Columns.v is what the [*ODB.hpp] headers
      there write into columns and read back: hashes of passwords, times, durations
      and event masks.
    - Handlers.v is the tables the server and the modules register their handlers in
      and the dispatch through them. It refines the one of Api.v, where what the modules
      added is told by a specification over their requests, not by the tables. ServerThreads.v is the
      threads: the io_services of the server and of the modules, the registration of
      handlers by the helper threads and the shutdown, as step relations over their
      interleavings. PifaceApi.v is the test of a pin that the piface module offers.
    - AuditTrail.v is what is written into the audit log and when: the callbacks of
      the entries, [AuditFactory.cpp], the entry that wraps each request of
      [WSServer.cpp] and the one of an authentication by [auth-file].

    ** The program

    - [core/kernel.cpp] and [main.cpp] are Kernel.v, [core/module_manager.cpp] is
      Modules.v, [core/Scheduler.cpp], [core/tasks/] and [core/CoreAPI.cpp] are
      Tasks.v: the queue of the main thread and the threads that wait, as a step
      relation over their interleavings.
    - [modules/BaseModule.cpp], [BaseModule.hpp] and [AsioModule.cpp], the life that all
      modules share, are ModuleLife.v: what a module adds is a parameter, and its answers are those
      that Remote.v assumes. SideModules.v has the modules that help testing,
      [modules/stdin-controller/], [instrumentation/] and [bench-toggle/], and the set up of
      the schema of a module in the database, as [modules/auth/auth-db/] does it.
    - [core/config/ConfigManager.cpp] is Config.v, [core/RemoteControl.cpp] and its
      security Remote.v, [RemoteConfigCollector.cpp] and the tasks of a
      synchronisation Sync.v, [modules/replication/] Replication.v.
    - [tools/registry/], [tools/service/], [tools/serializers/] are Services.v.
    - Tools.v is the rest of [tools/]: versions, the log with the sink that writes it
      into the database, files and the watcher of files, scripts, signals and options;
      and [core/netconfig/networkconfig.cpp].
    - Ptree.v, Trees.v and Json.v are the interfaces of property trees and JSON
      values, each with an instance on which the examples run.

    ** Conventions

    A function that can fail returns [outcome]: a value, an exception, or a
    [fault] - a failed assertion, which aborts the program, or a behaviour C++
    leaves undefined. So that code never faults is a theorem and not an
    assumption. Machine integers are [Z], with the conversion written out where
    the code narrows; bytes are [Z] between 0 and 255. Times are [Z]; each place
    where the code reads the clock gets its own value. Objects shared through
    pointers are ids into a store wherever sharing is observed. Locks that only
    serialise calls are left out. [std::set]s are sorted lists or [gset]s,
    [std::map]s are [gmap]s.

    Loops over containers are [foldM]. Fuel is used in these places, with a theorem
    that what is given is enough. The zone validator can follow cycles of the
    database but adds an id to a set at each call: the number of zones plus one
    ([Zones.zone_validation_terminates]). Writing an audit entry writes its parents:
    the number of objects ([AuditTrail.update_terminates]). The card id validator reads a stream: the
    length of the text plus one ([Credentials.card_id_accepted]). The permission
    check calls itself once for some actions: two levels
    ([Security.check_fuel_enough]). The kernel waits for its database a bounded
    time, and at least a second more at each attempt: [Kernel.abort_after] in
    seconds plus two ([Kernel.database_wait_ends]). A Rpleth client's requests take
    at least four bytes each out of its buffer: its length plus one
    ([Rpleth.requests_reassembled]). Taking the escape codes out of a message goes
    through it once: its length ([Tools.LogHelper.syslog_text] says what is left).
    The step relations need no fuel: that the server answers what it was sent is by
    a weight that each step lowers ([ServerThreads.Loops.requests_answered]). Runs of main loops are over a list
    of turns; a run that has used them all ends in [OutOfFuel], which is no fault of the program and
    which no theorem counts as an end.

    Third-party code is a parameter, with the laws it documents where a proof needs
    them and an instance where a theorem assumes them: the JSON library ([Json]),
    Boost's property trees ([PropertyTree], [MutableTree], [NetTree]), its UUIDs
    and its MSM, ODB ([Odb], [Table], [Mappings], [AuditTable], [LogTable],
    [UserLinks], [AlarmOdb], [TransactionalDb], [AuditDb]) and the database server behind it ([DbServer]), the
    LIKE of SQL, libscrypt, the FlagSet template, libgpiod ([Gpiod]), the driver of
    the piface card ([Board]), the files of the kernel ([Files]), the system calls
    ([FileSystem], [Inotify], [Shell], [ErrorText]), the schemas of the database ([SchemaDb]), ZeroMQ sockets
    ([Peers], [Bus], [Clients], [Remotes]; of a ROUTER, that it drops a message with nothing after the identity), shared libraries and their threads
    ([Plugins], [Running], [Machine]), libcurl, the MQTT client, the random bytes of OpenSSL, the date library and
    [localtime].

    ** What the theorems show

    Functional correctness of what is read from the wires, of cards, PIN codes typed slowly or not,
    schedules, profiles and the access decision, up to the lock that a badge opens;
    that pins, doors, sirens and LEDs do what they are told and come back from timed
    commands; that requests cut in pieces are served as if they came whole; round
    trips between reader and credential, packets and bytes, configurations and what
    is saved, sent, set or started from them; invariants of readers, sessions,
    names of groups and devices, zones, clients and sirens; that permissions
    confine users, in their updates of accounts and memberships, that a connection on which nobody was identified gets
    nothing, that lists and texts show what was asked for and no more than may be read, and that
    what a client writes stays inside the literals of a query; that each request
    leaves one final audit entry, the refused ones too; that waiting ends -
    for a database, a task, a broker, a validation, an answer of the API, the end of a module. Theorems of kind error are
    exact descriptions of what the code does where it misbehaves.

    ** What is not modelled

    Sockets, threads, the reactor and the io_service, beyond the interleavings of
    Tasks.v and ServerThreads.v; the formatting of log lines, stack traces and the names of threads; the rows a new
    database is filled with, schema migrations and the code ODB generates; the
    texts an audit entry keeps from before and after a change; when the timers of an [AsioModule] fire. The module
    [auth-db] has no authentication in the sources. *)
From Stdlib Require Import ZArith Lia Ascii String.
From stdpp Require Import base tactics numbers list strings gmap pretty.

Open Scope Z_scope.
#[global] Set Default Goal Selector "!".

(** * Outcomes of C++ code *)

(** What the modelled code can throw; [ModelException] carries the JSON
    pointer and the message of [exception/ModelException.hpp]. *)
Inductive exn :=
  | ModelException (pointer msg : string)
  | LEOSACException (msg : string)
  | ConfigException (msg : string)
  | ModuleException (msg : string)
  | PermissionDenied
  | EntityNotFound
  | StdInvalidArgument
  | StdOutOfRange
  | StdRuntimeError (msg : string)
  | PtreeError (path : string)
  | JsonOutOfRange
  | JsonTypeError
  | JsonParseError
  | InvalidCall
  | MalformedMessage
  | SessionAborted
  | ObjectNotPersistent
  | ObjectChanged
  | UnknownSchema
  | OdbException (what : string)
  | HexDecodeError (what : string)
  | FsException (msg : string)
  | ScriptException (msg : string)
  | SignalException (msg : string).

(** What derives from [odb::exception]. *)
Definition is_odb (e : exn) : bool :=
  match e with ObjectNotPersistent | ObjectChanged | UnknownSchema | OdbException _ => true | _ => false end.

(** Behaviours that are not results: a failed [assert]/[ASSERT_LOG] (abort),
    the operations the C++ standard leaves undefined, waiting for ever, and an
    exception that leaves a thread or a function that must not throw. *)
Inductive fault :=
  | AssertFailed
  | NullDeref
  | BadShift
  | OutOfBounds
  | DivByZero
  | BadFrame
  | InactiveMember
  | Blocked
  | Overflow
  | Uninitialised
  | Terminated
  | OutOfFuel.

Inductive outcome (A : Type) :=
  | Ret (a : A)
  | Throw (e : exn)
  | Fault (f : fault).
Arguments Ret {A} a.
Arguments Throw {A} e.
Arguments Fault {A} f.

#[export] Instance outcome_ret : MRet outcome := fun A => @Ret A.
#[export] Instance outcome_bind : MBind outcome := fun A B k m =>
  match m with
  | Ret a => k a
  | Throw e => Throw e
  | Fault f => Fault f
  end.
#[export] Instance outcome_fmap : FMap outcome := fun A B g m =>
  match m with
  | Ret a => Ret (g a)
  | Throw e => Throw e
  | Fault f => Fault f
  end.

(** [assert(c)] and [ASSERT_LOG(c, _)] of a build with assertions. *)
Definition cassert (c : bool) : outcome unit :=
  if c then Ret tt else Fault AssertFailed.

(** [throw e] unless [c]. *)
Definition enforce (c : bool) (e : exn) : outcome unit :=
  if c then Ret tt else Throw e.

(** Dereferencing a pointer that may be null. *)
Definition deref {A} (o : option A) : outcome A :=
  match o with Some a => Ret a | None => Fault NullDeref end.

Definition is_ret {A} (m : outcome A) : bool :=
  match m with Ret _ => true | _ => false end.

(** A range-based [for] whose body threads a state. *)
Fixpoint foldM {A B} (f : A -> B -> outcome A) (a : A) (l : list B) : outcome A :=
  match l with
  | [] => Ret a
  | b :: l' => a' ← f a b; foldM f a' l'
  end.

(** * Characters: the C locale's <cctype>, and text as lists of characters *)

Definition code (c : ascii) : Z := Z.of_N (N_of_ascii c).
Definition chr (z : Z) : ascii := ascii_of_N (Z.to_N z).

Definition in_range (lo c hi : ascii) : bool := (code lo <=? code c) && (code c <=? code hi).
Definition isdigit (c : ascii) : bool := in_range "0" c "9".
Definition isupper (c : ascii) : bool := in_range "A" c "Z".
Definition islower (c : ascii) : bool := in_range "a" c "z".
Definition isalnum (c : ascii) : bool := isdigit c || isupper c || islower c.
Definition isxdigit (c : ascii) : bool :=
  isdigit c || in_range "a" c "f" || in_range "A" c "F".
Definition isspace (c : ascii) : bool := (code c =? 32) || ((9 <=? code c) && (code c <=? 13)).
Definition isascii (c : ascii) : bool := code c <? 128.
Definition tolower (c : ascii) : ascii := if isupper c then chr (code c + 32) else c.

Definition chars (s : string) : list ascii := list_ascii_of_string s.
Definition text (l : list ascii) : string := string_of_list_ascii l.

(** [std::string::size]. *)
Definition str_size (s : string) : Z := Z.of_nat (length (chars s)).
Definition str_empty (s : string) : bool := match s with EmptyString => true | _ => false end.

(** The value of a hexadecimal digit. *)
Definition xdigit_val (c : ascii) : Z :=
  if isdigit c then code c - 48
  else if in_range "a" c "f" then code c - 87
  else code c - 55.

(** The lower-case digit [std::hex] prints for [0 <= z < 16]. *)
Definition hex_char (z : Z) : ascii := if z <? 10 then chr (z + 48) else chr (z + 87).

(** The decimal text [std::to_string] gives. *)
Definition to_string (z : Z) : string := pretty.pretty z.

(** Numbers in a text: leading spaces, then as many digits as there are. *)
Fixpoint drop_spaces (l : list ascii) : list ascii :=
  match l with c :: l' => if isspace c then drop_spaces l' else l | [] => [] end.
Fixpoint take_digits (l : list ascii) : list ascii :=
  match l with c :: l' => if isdigit c then c :: take_digits l' else [] | [] => [] end.

(** [std::stoi]: what follows the number is ignored. *)
Definition stoi (l : list ascii) : outcome Z :=
  let l := drop_spaces l in
  let '(sign, l) := match l with
    | "-"%char :: l' => (-1, l')
    | "+"%char :: l' => (1, l')
    | _ => (1, l)
    end in
  match take_digits l with
  | [] => Throw StdInvalidArgument
  | ds =>
      let v := sign * foldl (fun a c => 10 * a + (code c - 48)) 0 ds in
      if (- 2 ^ 31 <=? v) && (v <? 2 ^ 31) then Ret v else Throw StdOutOfRange
  end.

(** [boost::replace_all_copy(s, needle, by)], for a needle that is not empty:
    from the left, what is replaced is not searched again. *)
Fixpoint replace_from (skip : nat) (needle by_ l : list ascii) : list ascii :=
  match l, skip with
  | [], _ => []
  | _ :: l', S skip => replace_from skip needle by_ l'
  | c :: l', O =>
      if bool_decide (take (length needle) l = needle) then by_ ++ replace_from (length needle - 1) needle by_ l'
      else c :: replace_from 0 needle by_ l'
  end.
Definition replace_all (needle by_ s : string) : string :=
  text (replace_from 0 (chars needle) (chars by_) (chars s)).

(** * Bytes and bits *)

Definition is_byte (b : Z) : Prop := 0 <= b < 256.
#[export] Instance is_byte_dec b : Decision (is_byte b).
Proof. unfold is_byte. apply _. Defined.

(** The big-endian number a list of bits spells. *)
Fixpoint bits_val (l : list bool) : Z :=
  match l with
  | [] => 0
  | b :: l' => Z.b2z b * 2 ^ Z.of_nat (length l') + bits_val l'
  end.

(** The big-endian number a list of bytes spells. *)
Fixpoint bytes_val (l : list Z) : Z :=
  match l with
  | [] => 0
  | b :: l' => b * 256 ^ Z.of_nat (length l') + bytes_val l'
  end.

(** The bits of a byte, most significant first. *)
Definition byte_bits (b : Z) : list bool :=
  [Z.testbit b 7; Z.testbit b 6; Z.testbit b 5; Z.testbit b 4;
   Z.testbit b 3; Z.testbit b 2; Z.testbit b 1; Z.testbit b 0].

Definition buffer_bits (buf : list Z) : list bool := flat_map byte_bits buf.

(** * The message frames modules exchange *)

(** A part of a [zmqpp::message]: text, a byte-sized enumerator, or an integer
    of the width the sender streamed. *)
Inductive frame :=
  | FStr (s : string)
  | FU8 (z : Z)
  | FInt (z : Z)
  | FInt64 (z : Z)
  | FU64 (z : Z).
Abbreviation message := (list frame).

(** [msg >> x] for each type the code extracts, with the frames left. *)
Definition pop_str (m : message) : outcome (string * message) :=
  match m with FStr s :: m' => Ret (s, m') | _ => Fault BadFrame end.
Definition pop_u8 (m : message) : outcome (Z * message) :=
  match m with FU8 z :: m' => Ret (z, m') | _ => Fault BadFrame end.
Definition pop_int (m : message) : outcome (Z * message) :=
  match m with FInt z :: m' => Ret (z, m') | _ => Fault BadFrame end.
Definition pop_u64 (m : message) : outcome (Z * message) :=
  match m with FU64 z :: m' => Ret (z, m') | _ => Fault BadFrame end.
Definition pop_int64 (m : message) : outcome (Z * message) :=
  match m with FInt64 z :: m' => Ret (z, m') | _ => Fault BadFrame end.

(** * Decidable equality of the shared data *)

#[export] Instance exn_eq_dec : EqDecision exn.
Proof. solve_decision. Defined.
#[export] Instance fault_eq_dec : EqDecision fault.
Proof. solve_decision. Defined.
#[export] Instance frame_eq_dec : EqDecision frame.
Proof. solve_decision. Defined.
#[export] Instance outcome_eq_dec {A} `{EqDecision A} : EqDecision (outcome A).
Proof. solve_decision. Defined.

(** Hints of the development: resolution lemmas, and rewriting lemmas. *)
Create HintDb leosac.
Create Rewrite HintDb leosac.

(** * The outcome monad *)

Lemma bind_Ret {A B} (m : outcome A) (k : A -> outcome B) b :
  mbind k m = Ret b -> exists a, m = Ret a /\ k a = Ret b.
Proof. destruct m; cbn; [eauto | discriminate | discriminate]. Qed.

Lemma bind_Throw {A B} (m : outcome A) (k : A -> outcome B) e :
  mbind k m = Throw e -> m = Throw e \/ exists a, m = Ret a /\ k a = Throw e.
Proof. destruct m; cbn; [eauto | left; congruence | discriminate]. Qed.

Lemma bind_Fault {A B} (m : outcome A) (k : A -> outcome B) f :
  mbind k m = Fault f -> m = Fault f \/ exists a, m = Ret a /\ k a = Fault f.
Proof. destruct m; cbn; [eauto | discriminate | left; congruence]. Qed.

Lemma ret_bind {A B} (a : A) (k : A -> outcome B) : (x ← Ret a; k x) = k a.
Proof. done. Qed.

Lemma bind_assoc {A B C} (m : outcome A) (k : A -> outcome B) (h : B -> outcome C) :
  (y ← (x ← m; k x); h y) = (x ← m; y ← k x; h y).
Proof. by destruct m. Qed.

Lemma cassert_Ret c u : cassert c = Ret u -> c = true.
Proof. by destruct c. Qed.

Lemma enforce_Ret c e u : enforce c e = Ret u -> c = true.
Proof. by destruct c. Qed.

Lemma foldM_app {A B} (f : A -> B -> outcome A) a l1 l2 :
  foldM f a (l1 ++ l2) = (a' ← foldM f a l1; foldM f a' l2).
Proof.
  revert a; induction l1 as [|b l1 IH]; intros a; cbn; [done|].
  destruct (f a b); cbn; auto.
Qed.

(** A loop over the indices of a list, which reads it with [at_]. *)
Lemma foldM_index {A B} (at_ : nat -> outcome B) (f : A -> B -> outcome A) l k a :
  (forall i x, l !! i = Some x -> at_ (k + i)%nat = Ret x) ->
  foldM (fun a i => x ← at_ i; f a x) a (seq k (length l)) = foldM f a l.
Proof.
  revert k a; induction l as [|x l IH]; intros k a Hat; [done|]. cbn.
  pose proof (Hat 0%nat x eq_refl) as H0. rewrite Nat.add_0_r in H0. rewrite H0. cbn.
  destruct (f a x); [|done|done]. cbn. apply (IH (S k)). intros i y Hy.
  replace (S k + i)%nat with (k + S i)%nat by lia. by apply Hat.
Qed.

Lemma foldM_foldl {A B} (f : A -> B -> A) a l : foldM (fun a b => Ret (f a b)) a l = Ret (foldl f a l).
Proof. revert a; induction l as [|b l IH]; intros a; [done|]. apply IH. Qed.

Lemma omap_NoDup_inj {A B} (f : A -> option B) l x y b : NoDup (omap f l) -> In x l -> In y l ->
  f x = Some b -> f y = Some b -> x = y.
Proof.
  induction l as [|a l IH]; [done|]. cbn. intros Hnd Hx Hy Ex Ey.
  assert (Hin : forall z, In z l -> f z = Some b -> b ∈ omap f l).
  { intros z Hz Ez. apply list_elem_of_omap. exists z. by rewrite list_elem_of_In. }
  destruct Hx as [->|Hx], Hy as [->|Hy]; [done| | |].
  - rewrite Ex in Hnd. apply NoDup_cons in Hnd as [[] _]. by apply (Hin y).
  - rewrite Ey in Hnd. apply NoDup_cons in Hnd as [[] _]. by apply (Hin x).
  - apply IH; try done. destruct (f a); [by apply NoDup_cons in Hnd as [_ ?]|done].
Qed.

Lemma foldl_snoc {A} (acc l : list A) : foldl (fun l x => l ++ [x]) acc l = acc ++ l.
Proof.
  revert acc; induction l as [|x l IH]; intros acc; cbn; [by rewrite app_nil_r|].
  rewrite IH. by rewrite <- app_assoc.
Qed.

(** A loop whose body always returns and keeps [P] returns and keeps [P]. *)
Lemma foldM_invariant {A B} (f : A -> B -> outcome A) (P : A -> Prop) (Q : B -> Prop) l :
  (forall a b, P a -> Q b -> exists a', f a b = Ret a' /\ P a') ->
  Forall Q l -> forall a, P a -> exists a', foldM f a l = Ret a' /\ P a'.
Proof.
  intros Hstep; induction 1 as [|b l Hb _ IH]; intros a Ha; cbn; [eauto|].
  destruct (Hstep a b Ha Hb) as (a' & -> & Ha'); cbn; auto.
Qed.

Lemma foldM_preserves {A B} (f : A -> B -> outcome A) (P : A -> Prop) l :
  (forall a b a', P a -> f a b = Ret a' -> P a') ->
  forall a a', P a -> foldM f a l = Ret a' -> P a'.
Proof.
  intros Hstep; induction l as [|b l IH]; cbn; intros a a' Ha H; [congruence|].
  apply bind_Ret in H as (a1 & H1 & H2); eauto.
Qed.

(** Splits a hypothesis [H] on a monadic result into its steps. *)
Ltac bind_inv H :=
  match type of H with
  | mbind _ _ = Ret _ =>
      let a := fresh "a" in let E := fresh "E" in
      apply bind_Ret in H as (a & E & H); cbn beta in H; bind_inv H
  | _ => idtac
  end.

(** Case analysis on the scrutinee of a [match] or [if] in the goal. *)
Ltac case_all := repeat (case_match; cbn in *; simplify_eq; try done).

(** Turns boolean comparisons in the context into propositions. *)
Ltac bool_hyps :=
  repeat match goal with
  | H : (_ && _) = true |- _ => apply andb_true_iff in H as [? ?]
  | H : (_ || _) = false |- _ => apply orb_false_iff in H as [? ?]
  | H : negb _ = true |- _ => apply negb_true_iff in H
  | H : negb _ = false |- _ => apply negb_false_iff in H
  | H : (_ =? _) = true |- _ => apply Z.eqb_eq in H
  | H : (_ =? _) = false |- _ => apply Z.eqb_neq in H
  | H : (_ <? _) = true |- _ => apply Z.ltb_lt in H
  | H : (_ <? _) = false |- _ => apply Z.ltb_ge in H
  | H : (_ <=? _) = true |- _ => apply Z.leb_le in H
  | H : (_ <=? _) = false |- _ => apply Z.leb_gt in H
  | H : bool_decide _ = true |- _ => apply bool_decide_eq_true in H
  | H : bool_decide _ = false |- _ => apply bool_decide_eq_false in H
  | H : String.eqb _ _ = true |- _ => apply String.eqb_eq in H
  | H : String.eqb _ _ = false |- _ => apply String.eqb_neq in H
  end.

(** * Text *)

Lemma chars_text l : chars (text l) = l.
Proof. apply list_ascii_of_string_of_list_ascii. Qed.

Lemma text_chars s : text (chars s) = s.
Proof. apply string_of_list_ascii_of_string. Qed.

#[export] Instance text_inj : Inj (=) (=) text.
Proof. intros l1 l2 H. by rewrite <- (chars_text l1), H, chars_text. Qed.

Lemma code_range c : 0 <= code c < 256.
Proof. unfold code. pose proof (N_ascii_bounded c). lia. Qed.

Lemma code_chr z : is_byte z -> code (chr z) = z.
Proof.
  unfold is_byte, code, chr; intros Hz.
  rewrite N_ascii_embedding by lia. lia.
Qed.

(** * Numbers spelled by bits and bytes *)

Lemma bits_val_app l1 l2 :
  bits_val (l1 ++ l2) = bits_val l1 * 2 ^ Z.of_nat (length l2) + bits_val l2.
Proof.
  induction l1 as [|b l1 IH]; cbn [bits_val app]; [lia|].
  rewrite IH, length_app, Nat2Z.inj_add, Z.pow_add_r by lia. lia.
Qed.

Lemma bits_val_zeros n : bits_val (replicate n false) = 0.
Proof. induction n as [|n IH]; cbn; [done|]. rewrite IH; lia. Qed.

Lemma bits_val_range l : 0 <= bits_val l < 2 ^ Z.of_nat (length l).
Proof.
  induction l as [|b l IH]; cbn [bits_val length]; [cbn; lia|].
  rewrite Nat2Z.inj_succ, Z.pow_succ_r by lia. destruct b; cbn [Z.b2z]; lia.
Qed.

Lemma bytes_val_app l1 l2 :
  bytes_val (l1 ++ l2) = bytes_val l1 * 256 ^ Z.of_nat (length l2) + bytes_val l2.
Proof.
  induction l1 as [|b l1 IH]; cbn [bytes_val app]; [lia|].
  rewrite IH, length_app, Nat2Z.inj_add, Z.pow_add_r by lia. lia.
Qed.

Lemma bytes_val_range l :
  Forall is_byte l -> 0 <= bytes_val l < 256 ^ Z.of_nat (length l).
Proof.
  induction 1 as [|b l Hb _ IH]; cbn [bytes_val length]; [cbn; lia|].
  rewrite Nat2Z.inj_succ, Z.pow_succ_r by lia. unfold is_byte in Hb. nia.
Qed.

(** Checking a predicate on all bytes at once. *)
Lemma forall_bytes (P : Z -> Prop) `{!forall b, Decision (P b)} :
  forallb (fun b => bool_decide (P b)) (seqZ 0 256) = true -> forall b, is_byte b -> P b.
Proof.
  intros Hall b Hb. rewrite forallb_forall in Hall.
  eapply bool_decide_eq_true_1, Hall.
  apply list_elem_of_In, elem_of_seqZ. unfold is_byte in Hb; lia.
Qed.

(** Proves [forall b, is_byte b -> P b], [P] decidable, by evaluation. *)
Ltac by_bytes :=
  match goal with
  | |- forall b, is_byte b -> @?P b => apply (forall_bytes P); vm_compute; reflexivity
  end.

Lemma bits_val_byte_bits : forall b, is_byte b -> bits_val (byte_bits b) = b.
Proof. by_bytes. Qed.

Lemma buffer_bits_val buf :
  Forall is_byte buf -> bits_val (buffer_bits buf) = bytes_val buf.
Proof.
  unfold buffer_bits.
  induction 1 as [|b l Hb _ IH]; cbn [flat_map bytes_val]; [done|].
  rewrite bits_val_app, IH, bits_val_byte_bits by done. f_equal. f_equal.
  assert (Hl : forall k, length (flat_map byte_bits k) = (8 * length k)%nat)
    by (induction k as [|x k IHk]; cbn in *; lia).
  rewrite Hl, Nat2Z.inj_mul, Z.pow_mul_r by lia. reflexivity.
Qed.

Lemma length_buffer_bits buf : length (buffer_bits buf) = (8 * length buf)%nat.
Proof. unfold buffer_bits. induction buf as [|b l IH]; cbn in *; lia. Qed.

Lemma byte_bits_lookup b (k : nat) :
  (k < 8)%nat -> byte_bits b !! k = Some (Z.testbit b (7 - Z.of_nat k)).
Proof. intros Hk. do 8 (destruct k as [|k]; [reflexivity|]). lia. Qed.

Lemma buffer_bits_lookup buf (i : nat) :
  buffer_bits buf !! i =
  (fun b => Z.testbit b (7 - Z.of_nat (i mod 8))) <$> buf !! (i / 8)%nat.
Proof.
  revert i. induction buf as [|b l IH]; intros i; [done|].
  change (buffer_bits (b :: l)) with (byte_bits b ++ buffer_bits l).
  destruct (decide (i < 8)%nat) as [Hi|Hi].
  - rewrite lookup_app_l by done. rewrite byte_bits_lookup by done.
    rewrite Nat.div_small, Nat.mod_small by done. reflexivity.
  - rewrite lookup_app_r by (cbn; lia). cbn [length byte_bits]. rewrite IH.
    destruct (Nat.le_exists_sub 8 i) as (j & -> & _); [lia|].
    rewrite Nat.add_sub.
    replace (j + 8)%nat with (j + 1 * 8)%nat by lia.
    rewrite Nat.div_add, Nat.Div0.mod_add by lia.
    by rewrite Nat.add_1_r.
Qed.

(** Changing one bit of one byte changes that bit of the whole buffer. *)
Lemma buffer_bits_insert buf (i k : nat) b b' x :
  buf !! i = Some b -> (k < 8)%nat -> byte_bits b' = <[k := x]> (byte_bits b) ->
  buffer_bits (<[i := b']> buf) = <[(8 * i + k)%nat := x]> (buffer_bits buf).
Proof.
  intros Hi Hk Hb. revert i Hi. induction buf as [|c l IH]; intros [|i] Hi; [done..| |].
  - injection Hi as ->.
    change (byte_bits b' ++ buffer_bits l = <[(0 + k)%nat := x]> (byte_bits b ++ buffer_bits l)).
    by rewrite Hb, insert_app_l by (cbn; lia).
  - change (byte_bits c ++ buffer_bits (<[i := b']> l) =
            <[(8 * S i + k)%nat := x]> (byte_bits c ++ buffer_bits l)).
    rewrite IH by done.
    replace (8 * S i + k)%nat with (length (byte_bits c) + (8 * i + k))%nat by (cbn; lia).
    by rewrite insert_app_r.
Qed.
