(* ===== verification/Reader.v ===== *)
(** The Wiegand reader device, [src/modules/wiegand/WiegandReaderImpl.cpp]:
    the 128-bit reception buffer filled by GPIO interrupts, and the requests
    that drive the reader's LED and buzzer.

    [reader] is the data part of the C++ object; the strategy it owns is in
    Strategies.v, which calls back into [read_reset], [counter] and [buffer]
    the way the C++ strategies do through their [reader_] pointer. *)
From Stdlib Require Import ZArith Lia Ascii String.
From stdpp Require Import base tactics numbers list strings.
From S2P Require Import Prelude.

Open Scope Z_scope.

Module WiegandReaderImpl.

Record reader := mk_reader {
  name : string;
  topic_high : string;
  topic_low : string;
  buffer : list Z;               (* std::array<uint8_t, 16> *)
  counter : Z;
  green_led : option string;
  buzzer : option string;
}.

(** [if (!x_name.empty()) x_ = std::make_unique<...>(ctx, x_name)]. *)
Definition device_of (device_name : string) : option string :=
  if str_empty device_name then None else Some device_name.

Definition zero_buffer : list Z := replicate 16 0.

Definition make (reader_name data_high_pin data_low_pin green_led_name buzzer_name : string)
  : reader :=
  {| name := reader_name;
     topic_high := "S_INT:" +:+ data_high_pin;
     topic_low := "S_INT:" +:+ data_low_pin;
     buffer := zero_buffer;
     counter := 0;
     green_led := device_of green_led_name;
     buzzer := device_of buzzer_name |}.

Definition set_input (r : reader) (buf : list Z) (c : Z) : reader :=
  {| name := name r; topic_high := topic_high r; topic_low := topic_low r;
     buffer := buf; counter := c; green_led := green_led r; buzzer := buzzer r |}.

Definition read_reset (r : reader) : reader := set_input r zero_buffer 0.

(** [buffer_[i]]: reading outside the array is undefined. *)
Definition buffer_at (r : reader) (i : Z) : outcome Z :=
  if (0 <=? i) && (i <? 16) then
    match buffer r !! Z.to_nat i with Some b => Ret b | None => Fault OutOfBounds end
  else Fault OutOfBounds.

(** [buffer_[i] = v], truncated to [uint8_t]. *)
Definition buffer_set (r : reader) (i v : Z) : list Z :=
  <[Z.to_nat i := v `mod` 256]> (buffer r).

(** [1 << (7 - counter_ % 8)]. *)
Definition bit_mask (c : Z) : Z := Z.shiftl 1 (7 - Z.rem c 8).

Definition handle_bus_msg (r : reader) (msg : string) : outcome reader :=
  if counter r <? 128 then
    let i := Z.quot (counter r) 8 in
    b ← buffer_at r i;
    let buf :=
      if String.eqb msg (topic_high r) then buffer_set r i (Z.lor b (bit_mask (counter r)))
      else if String.eqb msg (topic_low r)
           then buffer_set r i (Z.land b (Z.lnot (bit_mask (counter r))))
           else buffer r in
    Ret (set_input r buf (counter r + 1))
  else Ret (set_input r (buffer r) 0).

(** The reactor delivering bus messages one by one. *)
Definition handle_bus_msgs (r : reader) (msgs : list string) : outcome reader :=
  foldM handle_bus_msg r msgs.

(** The GPIO interrupts of a frame: a 1 raises the high pin's topic. *)
Definition interrupts (r : reader) (bits : list bool) : list string :=
  map (fun b : bool => if b then topic_high r else topic_low r) bits.

(** What [handle_request] asks of the LED and the buzzer facades. *)
Inductive command :=
  | LedForward (msg : message)
  | BuzzerOnFor (duration : Z)
  | BuzzerOn
  | BuzzerOff.

Definition ok_ko (ok : bool) : string := if ok then "OK" else "KO".

(** [handle_request]: the reply sent on [sock_] and the command given to a
    device. [led] is the LED's answer to a forwarded message, [buzz] the
    status the buzzer facade returns. *)
Definition handle_request (led : message -> string) (buzz : command -> bool)
    (r : reader) (msg : message) : outcome (string * option command) :=
  '(str, rest) ← pop_str msg;
  if String.eqb str "GREEN_LED" then
    match green_led r with
    | None => Ret ("KO", None)
    | Some _ =>
        let ans := led rest in
        _ ← cassert (String.eqb ans "OK" || String.eqb ans "KO");
        Ret (ok_ko (String.eqb ans "OK"), Some (LedForward rest))
    end
  else if String.eqb str "BEEP" then
    _ ← cassert (bool_decide (length msg = 2%nat));
    '(duration, _) ← pop_int64 rest;
    match buzzer r with
    | None => Ret ("KO", None)
    | Some _ =>
        _ ← cassert (buzz (BuzzerOnFor duration));
        Ret ("OK", Some (BuzzerOnFor duration))
    end
  else if String.eqb str "BEEP_ON" then
    match buzzer r with
    | None => Ret ("KO", None)
    | Some _ => _ ← cassert (buzz BuzzerOn); Ret ("OK", Some BuzzerOn)
    end
  else if String.eqb str "BEEP_OFF" then
    match buzzer r with
    | None => Ret ("KO", None)
    | Some _ => _ ← cassert (buzz BuzzerOff); Ret ("OK", Some BuzzerOff)
    end
  else Fault AssertFailed.

(** The reception invariant: sixteen bytes, and a counter within them. *)
Record reader_ok (r : reader) : Prop := {
  ok_length : length (buffer r) = 16%nat;
  ok_bytes : Forall is_byte (buffer r);
  ok_counter : 0 <= counter r <= 128;
}.

(** The bits received since the last reset, oldest first. *)
Definition received (r : reader) : list bool :=
  take (Z.to_nat (counter r)) (buffer_bits (buffer r)).

(** The two pins of a reader are distinct GPIOs. *)
Definition distinct_pins (r : reader) : Prop := topic_high r <> topic_low r.

(** Resetting clears the bits beyond the counter as well. *)
Definition clean (r : reader) : Prop :=
  buffer_bits (buffer r) = received r ++ replicate (128 - Z.to_nat (counter r)) false.

(** ** Lemmas *)

Lemma reset_ok r : reader_ok (read_reset r).
Proof. split; cbn; [done| |lia]. by repeat constructor. Qed.

Lemma make_ok n h l g b : reader_ok (make n h l g b).
Proof. split; cbn; [done| |lia]. by repeat constructor. Qed.

Lemma reset_clean r : clean (read_reset r).
Proof. reflexivity. Qed.

Lemma read_reset_received r : received (read_reset r) = [].
Proof. reflexivity. Qed.

Lemma buffer_at_ok r i :
  reader_ok r -> 0 <= i < 16 -> exists b, buffer_at r i = Ret b /\ is_byte b /\
    buffer r !! Z.to_nat i = Some b.
Proof.
  intros Hok Hi. unfold buffer_at.
  destruct (lookup_lt_is_Some_2 (buffer r) (Z.to_nat i)) as [b Hb].
  { rewrite (ok_length _ Hok). lia. }
  exists b. rewrite Hb.
  replace ((0 <=? i) && (i <? 16)) with true by (symmetry; apply andb_true_iff; lia).
  split; [done|]. split; [|done].
  by eapply (Forall_lookup_1 is_byte); [apply ok_bytes|].
Qed.

(** Setting or clearing one bit of a byte, bit by bit. *)
Lemma byte_bits_set b (k : nat) :
  (k < 8)%nat -> is_byte b ->
  byte_bits (Z.lor b (Z.shiftl 1 (7 - Z.of_nat k)) `mod` 256) = <[k := true]> (byte_bits b).
Proof.
  intros Hk. do 8 (destruct k as [|k];
    [revert b; by_bytes|]).
  lia.
Qed.

Lemma byte_bits_clear b (k : nat) :
  (k < 8)%nat -> is_byte b ->
  byte_bits (Z.land b (Z.lnot (Z.shiftl 1 (7 - Z.of_nat k))) `mod` 256) =
  <[k := false]> (byte_bits b).
Proof.
  intros Hk. do 8 (destruct k as [|k];
    [revert b; by_bytes|]).
  lia.
Qed.

(** One interrupt writes one bit. *)
Lemma handle_bus_msg_bit r (x : bool) :
  reader_ok r -> distinct_pins r -> counter r < 128 ->
  exists r', handle_bus_msg r (if x then topic_high r else topic_low r) = Ret r' /\
    r' = set_input r (buffer r') (counter r + 1) /\ reader_ok r' /\
    buffer_bits (buffer r') = <[Z.to_nat (counter r) := x]> (buffer_bits (buffer r)).
Proof.
  intros Hok Hpins Hc. pose proof (ok_counter _ Hok) as Hc0. unfold handle_bus_msg.
  destruct (Z.ltb_spec (counter r) 128); [|lia].
  rewrite Z.quot_div_nonneg by lia.
  set (i := Z.to_nat (counter r `div` 8)). set (k := Z.to_nat (counter r `mod` 8)).
  pose proof (Z.mod_pos_bound (counter r) 8 ltac:(lia)) as Hm.
  pose proof (Z.div_mod (counter r) 8 ltac:(lia)) as Hd.
  assert (Hk : (k < 8)%nat) by (unfold k; lia).
  assert (Hik : Z.to_nat (counter r) = (8 * i + k)%nat) by (unfold i, k; lia).
  destruct (buffer_at_ok r (counter r `div` 8) Hok) as (b & -> & Hb & Hlook).
  { split; [apply Z.div_pos; lia | apply Z.div_lt_upper_bound; lia]. }
  fold i in Hlook. cbn [mbind outcome_bind].
  assert (Hmask : bit_mask (counter r) = Z.shiftl 1 (7 - Z.of_nat k)).
  { unfold bit_mask. rewrite Z.rem_mod_nonneg by lia. unfold k. f_equal; lia. }
  set (b' := if x then Z.lor b (bit_mask (counter r)) else Z.land b (Z.lnot (bit_mask (counter r)))).
  assert (Hbits : byte_bits (b' `mod` 256) = <[k := x]> (byte_bits b)).
  { unfold b'. rewrite Hmask. destruct x; [by apply byte_bits_set | by apply byte_bits_clear]. }
  exists (set_input r (<[i := b' `mod` 256]> (buffer r)) (counter r + 1)).
  split; [|split; [done|split]].
  - unfold b', buffer_set. fold i. destruct x.
    + by rewrite String.eqb_refl.
    + rewrite (proj2 (String.eqb_neq _ _)) by (intros E; by apply Hpins). by rewrite String.eqb_refl.
  - split; cbn; [by rewrite length_insert, (ok_length _ Hok)| |lia].
    apply Forall_insert; [by apply ok_bytes|]. apply Z.mod_pos_bound; lia.
  - cbn. rewrite Hik. by apply buffer_bits_insert with b.
Qed.

Lemma received_snoc r r' x :
  reader_ok r -> counter r < 128 -> counter r' = counter r + 1 ->
  buffer_bits (buffer r') = <[Z.to_nat (counter r) := x]> (buffer_bits (buffer r)) ->
  received r' = received r ++ [x].
Proof.
  intros Hok Hc Hc' Hb. pose proof (ok_counter _ Hok). unfold received.
  rewrite Hc', Hb, Z2Nat.inj_add by lia.
  change (Z.to_nat 1) with 1%nat. rewrite Nat.add_1_r.
  erewrite take_S_r.
  - by rewrite take_insert_ge by lia.
  - apply list_lookup_insert_eq. rewrite length_buffer_bits, (ok_length _ Hok). lia.
Qed.

Lemma clean_snoc r r' x :
  reader_ok r -> clean r -> counter r < 128 -> counter r' = counter r + 1 ->
  buffer_bits (buffer r') = <[Z.to_nat (counter r) := x]> (buffer_bits (buffer r)) ->
  clean r'.
Proof.
  intros Hok Hcl Hc Hc' Hb. pose proof (ok_counter _ Hok). unfold clean.
  rewrite (received_snoc r r' x), Hb, Hcl, Hc' by done.
  assert (Hl : length (received r) = Z.to_nat (counter r)).
  { unfold received. rewrite length_take, length_buffer_bits, (ok_length _ Hok). lia. }
  destruct (128 - Z.to_nat (counter r))%nat as [|n] eqn:En; [lia|].
  replace (128 - Z.to_nat (counter r + 1))%nat with n by lia.
  rewrite <- Hl, <- (Nat.add_0_r (length (received r))), insert_app_r, <- app_assoc.
  reflexivity.
Qed.

(** Reading [r'] keeps the identity and the wiring of [r]. *)
Definition same_wiring (r r' : reader) : Prop := r' = set_input r (buffer r') (counter r').

Lemma set_input_wiring r buf c : same_wiring r (set_input r buf c).
Proof. reflexivity. Qed.

Lemma same_wiring_trans r1 r2 r3 : same_wiring r1 r2 -> same_wiring r2 r3 -> same_wiring r1 r3.
Proof. unfold same_wiring. intros H1 H2. rewrite H2, H1. reflexivity. Qed.

Lemma same_wiring_topics r r' :
  same_wiring r r' -> topic_high r' = topic_high r /\ topic_low r' = topic_low r /\ name r' = name r.
Proof. intros ->. done. Qed.

Lemma handle_bus_msg_safe r msg :
  reader_ok r -> exists r', handle_bus_msg r msg = Ret r' /\ reader_ok r'.
Proof.
  intros Hok. pose proof (ok_counter _ Hok). unfold handle_bus_msg.
  destruct (Z.ltb_spec (counter r) 128) as [Hc|Hc].
  - destruct (buffer_at_ok r (Z.quot (counter r) 8) Hok) as (b & -> & Hb & _).
    { split; [apply Z.quot_pos; lia | apply Z.quot_lt_upper_bound; lia]. }
    cbn. eexists; split; [done|].
    assert (Hset : forall v, length (buffer_set r (Z.quot (counter r) 8) v) = 16%nat /\
                             Forall is_byte (buffer_set r (Z.quot (counter r) 8) v)).
    { intros v. unfold buffer_set. split; [by rewrite length_insert, (ok_length _ Hok)|].
      apply Forall_insert; [by apply ok_bytes|]. apply Z.mod_pos_bound; lia. }
    split; cbn; [| |lia]; repeat case_match; try apply Hset; apply Hok.
  - eexists; split; [done|]. split; cbn; [apply Hok | apply Hok | lia].
Qed.

Lemma receive_frame r bits :
  reader_ok r -> distinct_pins r -> clean r ->
  counter r + Z.of_nat (length bits) <= 128 ->
  exists r', handle_bus_msgs r (interrupts r bits) = Ret r' /\
    reader_ok r' /\ clean r' /\ same_wiring r r' /\
    counter r' = counter r + Z.of_nat (length bits) /\
    received r' = received r ++ bits.
Proof.
  revert r. induction bits as [|x bits IH]; intros r Hok Hp Hcl Hlen; cbn [length] in Hlen.
  - exists r. rewrite app_nil_r. cbn.
    repeat (split; [solve [done | by destruct r | lia]|]). done.
  - destruct (handle_bus_msg_bit r x Hok Hp) as (r1 & H1 & Hw1 & Hok1 & Hb1); [lia|].
    assert (Hc1 : counter r1 = counter r + 1) by (rewrite Hw1; done).
    assert (Ht : interrupts r bits = interrupts r1 bits) by (rewrite Hw1; done).
    cbn. unfold handle_bus_msgs in *. cbn [foldM]. rewrite H1. cbn.
    change (map _ bits) with (interrupts r bits). rewrite Ht.
    destruct (IH r1 Hok1) as (r' & -> & Hok' & Hcl' & Hw' & Hc' & Hr'); try lia.
    + rewrite Hw1. done.
    + by apply (clean_snoc r r1 x); try lia.
    + exists r'. split; [done|]. do 2 (split; [done|]). split.
      { eapply same_wiring_trans; [|exact Hw']. unfold same_wiring. by rewrite Hc1. }
      split; [lia|]. rewrite Hr', (received_snoc r r1 x) by (done || lia).
      by rewrite <- app_assoc.
Qed.

(** ** Properties *)

(** C5: from a clean reader, the interrupts of any frame that fits the 128-bit
    buffer are received without loss or reordering: the bits read back are
    those already received followed by the frame, the counter advances by its
    length, and the unused part of the buffer stays zero. *)
Theorem frame_received r bits :
  reader_ok r -> distinct_pins r -> clean r ->
  counter r + Z.of_nat (length bits) <= 128 ->
  exists r', handle_bus_msgs r (interrupts r bits) = Ret r' /\
    reader_ok r' /\ clean r' /\ same_wiring r r' /\
    counter r' = counter r + Z.of_nat (length bits) /\
    received r' = received r ++ bits.
Proof. apply receive_frame. Qed.

(** C38: whatever messages the bus delivers - a subscription is a prefix match,
    so other devices' topics included - the reader never indexes outside its
    sixteen bytes, always returns, and keeps the reception invariant. *)
Theorem bus_msgs_safe r msgs :
  reader_ok r -> exists r', handle_bus_msgs r msgs = Ret r' /\ reader_ok r'.
Proof.
  intros Hok. apply (foldM_invariant _ reader_ok (fun _ => True)); [|by apply Forall_true|done].
  intros; by apply handle_bus_msg_safe.
Qed.

(** ** Witnesses *)

(** A reader wired like the one of [test/WiegandReader.cpp]. *)
Definition demo_reader : reader := make "WIEGAND_1" "GPIO_HIGH" "GPIO_LOW" "GREEN_LED" "".

Lemma demo_reader_ok : reader_ok demo_reader.
Proof. apply make_ok. Qed.

Lemma demo_reader_pins : distinct_pins demo_reader.
Proof. vm_compute. discriminate. Qed.

Lemma demo_reader_clean : clean demo_reader.
Proof. reflexivity. Qed.

Lemma frame_received_witness :
  exists r', handle_bus_msgs demo_reader (interrupts demo_reader [true; false; true; true]) = Ret r' /\
    counter r' = 4 /\ received r' = [true; false; true; true].
Proof.
  destruct (frame_received demo_reader [true; false; true; true]
    demo_reader_ok demo_reader_pins demo_reader_clean ltac:(cbn; lia))
    as (r' & H & _ & _ & _ & Hc & Hr).
  exists r'. split; [exact H|]. split; [exact Hc | exact Hr].
Defined.

Lemma bus_msgs_safe_witness :
  exists r', handle_bus_msgs demo_reader ["S_INT:GPIO_LOW"; "S_INT:GPIO_LOW2"; ""] = Ret r' /\ reader_ok r'.
Proof. apply bus_msgs_safe. exact demo_reader_ok. Defined.

End WiegandReaderImpl.
