(* ===== verification/Strategies.v ===== *)
(** The reading strategies of a Wiegand reader,
    [src/modules/wiegand/strategies/]: what turns the bits a reader received
    into a card, a PIN, or both.

    The virtual interface [WiegandStrategy] of the C++ is a type class, and
    [device] is a reader together with the strategy it owns; the handler
    [device_timeout] is [WiegandReaderImpl::timeout]. Time points are in
    nanoseconds. A handler reads the clock at the places [site] enumerates;
    the [clock] argument gives an arbitrary reading for each of them. *)
From Stdlib Require Import ZArith Lia Ascii String.
From stdpp Require Import base tactics numbers list strings.
From S2P Require Import Prelude Reader.
Import WiegandReaderImpl.

Open Scope Z_scope.

(** * Clock *)

Inductive site :=
  | PinBuild | PinElapsed | PinUpdate | PinReset
  | CardPinElapsed | CardPinSwitch | CardPinActivity
  | AutoPinRead | AutoCardRead | AutoCheckCard | AutoCheckPin.

Definition clock : Type := site -> Z.

(** [duration_cast<milliseconds>(now - last)]. *)
Definition elapsed_ms (now last : Z) : Z := Z.quot (now - last) 1000000.

(** * The strategy interface *)

Class WiegandStrategy (S : Type) := {
  timeout : clock -> S -> reader -> outcome (S * reader);
  completed : S -> bool;
  signal : clock -> S -> reader -> outcome (S * reader * message);
  reset : clock -> S -> reader -> S * reader;
}.

Class CardReading (S : Type) `{!WiegandStrategy S} := {
  get_card_id : S -> string;
  get_nb_bits : S -> Z;
}.

Class PinReading (S : Type) `{!WiegandStrategy S} := {
  get_pin : S -> string;
}.

(** The source types of [core/auth/Auth.hpp]. *)
Definition SIMPLE_WIEGAND : Z := 1.
Definition WIEGAND_PIN : Z := 2.
Definition WIEGAND_CARD_PIN : Z := 3.
Definition SIMPLE_CSN : Z := 4.

(** ["S_" + reader_->name()]. *)
Definition source_frame (r : reader) : frame := FStr ("S_" +:+ name r).

(** * SimpleWiegandStrategy *)

(** [std::hex << std::setfill('0') << std::setw(2) << static_cast<int>(b)]. *)
Definition hex_byte (b : Z) : list ascii := [hex_char (b `div` 16); hex_char (b `mod` 16)].

Module Simple.

Record t := mk { ready_ : bool; nb_bits_ : Z; card_id_ : string }.

Definition make : t := {| ready_ := false; nb_bits_ := 0; card_id_ := "" |}.

(** The body of the loop over the bytes received, [size] of them. *)
Definition hex_step (r : reader) (size : Z) (card_hex : list ascii) (i : Z)
  : outcome (list ascii) :=
  b ← buffer_at r i;
  Ret (card_hex ++ hex_byte b ++ (if i + 1 <? size then [":"%char] else [])).

Definition timeout (_ : clock) (s : t) (r : reader) : outcome (t * reader) :=
  if counter r =? 0 then Ret (s, r)
  else
    let size := Z.quot (counter r - 1) 8 + 1 in
    card_hex ← foldM (hex_step r size) [] (seqZ 0 size);
    Ret ({| ready_ := true; nb_bits_ := counter r; card_id_ := text card_hex |}, r).

Definition signal (_ : clock) (s : t) (r : reader) : outcome (t * reader * message) :=
  _ ← cassert (ready_ s);
  _ ← cassert (negb (str_empty (card_id_ s)));
  Ret (s, r, [source_frame r; FU8 SIMPLE_WIEGAND; FStr (card_id_ s); FInt (nb_bits_ s)]).

Definition reset (_ : clock) (s : t) (r : reader) : t * reader :=
  ({| ready_ := false; nb_bits_ := 0; card_id_ := "" |}, read_reset r).

End Simple.

#[export] Instance simple_strategy : WiegandStrategy Simple.t := {|
  timeout := Simple.timeout;
  completed := Simple.ready_;
  signal := Simple.signal;
  reset := Simple.reset;
|}.
#[export] Instance simple_card : CardReading Simple.t := {|
  get_card_id := Simple.card_id_;
  get_nb_bits := Simple.nb_bits_;
|}.

(** * WiegandPinNBitsOnly<NbBits> *)

Module PinNBits.

Record t (NbBits : Z) := mk {
  inputs_ : list ascii;
  pin_timeout_ : Z;
  pin_end_key_ : ascii;
  last_update_ : Z;
  ready_ : bool;
}.
Arguments mk {NbBits}. Arguments inputs_ {NbBits}. Arguments pin_timeout_ {NbBits}.
Arguments pin_end_key_ {NbBits}. Arguments last_update_ {NbBits}. Arguments ready_ {NbBits}.

Section strategy.
Context {NbBits : Z}.

Definition make (clk : clock) (pin_timeout : Z) (pin_end_key : ascii) : t NbBits :=
  mk [] pin_timeout pin_end_key (clk PinBuild) false.

(** The loop's value for bit [i] of [input], merged into [n]. *)
Definition key_step (input n i : Z) : Z :=
  let v := Z.testbit input (7 - i) in
  let v := if NbBits =? 8 then negb v else v in
  Z.lor n (Z.shiftl (Z.b2z v) (3 - i)).

Definition extract_from_raw (input : Z) : outcome ascii :=
  let n := foldl (key_step input) 0 (seqZ 0 4) in
  if n =? 10 then Ret "*"%char
  else if n =? 11 then Ret "#"%char
  else match chars (to_string n) with c :: _ => Ret c | [] => Throw StdOutOfRange end.

Definition end_of_input (s : t NbBits) : t NbBits :=
  mk (inputs_ s) (pin_timeout_ s) (pin_end_key_ s) (last_update_ s)
     (bool_decide (inputs_ s <> [])).

Definition reset (clk : clock) (s : t NbBits) (r : reader) : t NbBits * reader :=
  (mk [] (pin_timeout_ s) (pin_end_key_ s) (clk PinReset) false, read_reset r).

Definition touch (s : t NbBits) (now : Z) : t NbBits :=
  mk (inputs_ s) (pin_timeout_ s) (pin_end_key_ s) now (ready_ s).

Definition add_input (s : t NbBits) (c : ascii) : t NbBits :=
  mk (inputs_ s ++ [c]) (pin_timeout_ s) (pin_end_key_ s) (last_update_ s) (ready_ s).

Definition timeout (clk : clock) (s : t NbBits) (r : reader) : outcome (t NbBits * reader) :=
  if counter r =? 0 then
    Ret (if pin_timeout_ s <? elapsed_ms (clk PinElapsed) (last_update_ s)
         then end_of_input s else s, r)
  else if negb (counter r =? NbBits) then Ret (reset clk s r)
  else
    let s := touch s (clk PinUpdate) in
    b ← buffer_at r 0;
    c ← extract_from_raw b;
    Ret (if Ascii.eqb c (pin_end_key_ s) then end_of_input s else add_input s c, read_reset r).

Definition signal (clk : clock) (s : t NbBits) (r : reader)
  : outcome (t NbBits * reader * message) :=
  _ ← cassert (ready_ s);
  _ ← cassert (bool_decide (inputs_ s <> []));
  let m := [source_frame r; FU8 WIEGAND_PIN; FStr (text (inputs_ s))] in
  let '(s, r) := reset clk s r in
  Ret (s, r, m).

End strategy.
End PinNBits.

#[export] Instance pin_nbits_strategy {NbBits} : WiegandStrategy (PinNBits.t NbBits) := {|
  timeout := PinNBits.timeout;
  completed := PinNBits.ready_;
  signal := PinNBits.signal;
  reset := PinNBits.reset;
|}.
#[export] Instance pin_nbits_pin {NbBits} : PinReading (PinNBits.t NbBits) := {|
  get_pin s := text (PinNBits.inputs_ s);
|}.

(** * WiegandPinBuffered *)

Module PinBuffered.

Record t := mk { ready_ : bool; pin_ : string }.

Definition make : t := mk false "".

Definition reset (_ : clock) (s : t) (r : reader) : t * reader := (mk false "", read_reset r).

(** [v << k] on [unsigned int]: defined only for [0 <= k < 32]. *)
Definition shl_u32 (v k : Z) : outcome Z :=
  if (0 <=? k) && (k <? 32) then Ret (Z.shiftl v k `mod` 2 ^ 32) else Fault BadShift.

(** The loop body for bit [i] of the frame. *)
Definition pin_step (r : reader) (n i : Z) : outcome Z :=
  b ← buffer_at r (Z.quot i 8);
  let v := Z.land (Z.shiftr b (7 - Z.rem i 8)) 1 in
  w ← shl_u32 v (15 - (i - 9));
  Ret (Z.lor n w).

Definition timeout (clk : clock) (s : t) (r : reader) : outcome (t * reader) :=
  if counter r =? 0 then Ret (s, r)
  else if negb (counter r =? 26) then Ret (reset clk s r)
  else
    n ← foldM (pin_step r) 0 (seqZ 9 (26 - 9));
    if n =? 65535 then Ret (s, r)
    else Ret (mk true (to_string n), r).

Definition signal (_ : clock) (s : t) (r : reader) : outcome (t * reader * message) :=
  _ ← cassert (ready_ s);
  _ ← cassert (negb (str_empty (pin_ s)));
  Ret (s, r, [source_frame r; FU8 WIEGAND_PIN; FStr (pin_ s)]).

End PinBuffered.

#[export] Instance pin_buffered_strategy : WiegandStrategy PinBuffered.t := {|
  timeout := PinBuffered.timeout;
  completed := PinBuffered.ready_;
  signal := PinBuffered.signal;
  reset := PinBuffered.reset;
|}.
#[export] Instance pin_buffered_pin : PinReading PinBuffered.t := {|
  get_pin := PinBuffered.pin_;
|}.

(** A [std::unique_ptr<PinReading>] holding one of two strategies: virtual
    calls go to the one it holds. *)
Definition on_left {A B} (x : A * reader) : (A + B) * reader := (inl x.1, x.2).
Definition on_right {A B} (x : B * reader) : (A + B) * reader := (inr x.1, x.2).

#[export] Instance sum_strategy {A B} `{WiegandStrategy A, WiegandStrategy B}
  : WiegandStrategy (A + B) := {|
  timeout clk s r :=
    match s with
    | inl a => on_left <$> timeout clk a r
    | inr b => on_right <$> timeout clk b r
    end;
  completed s := match s with inl a => completed a | inr b => completed b end;
  signal clk s r :=
    match s with
    | inl a => '(a, r, m) ← signal clk a r; Ret (inl a, r, m)
    | inr b => '(b, r, m) ← signal clk b r; Ret (inr b, r, m)
    end;
  reset clk s r :=
    match s with
    | inl a => on_left (reset clk a r)
    | inr b => on_right (reset clk b r)
    end;
|}.
#[export] Instance sum_pin {A B} `{PinReading A, PinReading B} : PinReading (A + B) := {|
  get_pin s := match s with inl a => get_pin a | inr b => get_pin b end;
|}.

(** * WiegandCardAndPin *)

Module CardAndPin.

Record t (C P : Type) := mk {
  read_card : C;
  read_pin : P;
  delay_ : Z;
  time_card_read_ : Z;
  reading_card_ : bool;
  ready_ : bool;
}.
Arguments mk {C P}. Arguments read_card {C P}. Arguments read_pin {C P}.
Arguments delay_ {C P}. Arguments time_card_read_ {C P}. Arguments reading_card_ {C P}.
Arguments ready_ {C P}.

Section strategy.
Context {C P : Type} `{CardReading C, PinReading P}.

Definition make (clk : clock) (card : C) (pin : P) (delay : Z) : t C P :=
  mk card pin delay (clk CardPinElapsed) true false.

Definition reset (clk : clock) (s : t C P) (r : reader) : t C P * reader :=
  let '(card, r) := reset clk (read_card s) (read_reset r) in
  let '(pin, r) := reset clk (read_pin s) r in
  (mk card pin (delay_ s) (time_card_read_ s) true false, r).

Definition timeout (clk : clock) (s : t C P) (r : reader) : outcome (t C P * reader) :=
  let elapsed := elapsed_ms (clk CardPinElapsed) (time_card_read_ s) in
  if reading_card_ s then
    '(card, r) ← timeout clk (read_card s) r;
    if completed card
    then Ret (mk card (read_pin s) (delay_ s) (clk CardPinSwitch) false (ready_ s), read_reset r)
    else Ret (mk card (read_pin s) (delay_ s) (time_card_read_ s) true (ready_ s), r)
  else if delay_ s <? elapsed then Ret (reset clk s r)
  else
    let time := if counter r =? 0 then time_card_read_ s else clk CardPinActivity in
    '(pin, r) ← timeout clk (read_pin s) r;
    Ret (mk (read_card s) pin (delay_ s) time false (completed pin || ready_ s), r).

Definition signal (clk : clock) (s : t C P) (r : reader) : outcome (t C P * reader * message) :=
  let m := [source_frame r; FU8 WIEGAND_CARD_PIN; FStr (get_card_id (read_card s));
            FInt (get_nb_bits (read_card s)); FStr (get_pin (read_pin s))] in
  let '(s, r) := reset clk s r in
  Ret (s, r, m).

End strategy.
End CardAndPin.

#[export] Instance card_and_pin_strategy {C P} `{CardReading C, PinReading P}
  : WiegandStrategy (CardAndPin.t C P) := {|
  timeout := CardAndPin.timeout;
  completed := CardAndPin.ready_;
  signal := CardAndPin.signal;
  reset := CardAndPin.reset;
|}.

(** * Autodetect *)

Module Autodetect.

(** What [build_strategy] makes: a 4-bit or an 8-bit PIN strategy. *)
Definition pin_strategy : Type := PinNBits.t 4 + PinNBits.t 8.

Record t := mk {
  read_card_strategy_ : Simple.t;
  read_pin_strategy_ : option pin_strategy;
  delay_ : Z;
  time_card_read_ : Z;
  last_pin_read_ : Z;
  reading_pin_ : bool;
  reading_card_ : bool;
  ready_ : bool;
  pin_key_end_ : ascii;
  nowait_ : bool;
}.

Definition make (clk : clock) (delay : Z) (pin_key_end : ascii) (nowait : bool) : t :=
  {| read_card_strategy_ := Simple.make; read_pin_strategy_ := None; delay_ := delay;
     time_card_read_ := clk AutoCardRead; last_pin_read_ := clk AutoPinRead;
     reading_pin_ := false; reading_card_ := true; ready_ := false;
     pin_key_end_ := pin_key_end; nowait_ := nowait |}.

Definition build_strategy (clk : clock) (s : t) (bits : Z) : outcome (option pin_strategy) :=
  _ ← cassert ((bits =? 4) || (bits =? 8));
  Ret (if bits =? 4 then Some (inl (PinNBits.make clk (delay_ s) (pin_key_end_ s)))
       else if bits =? 8 then Some (inr (PinNBits.make clk (delay_ s) (pin_key_end_ s)))
       else None).

(** The PIN strategy and its flags after it ran. *)
Definition with_pin (s : t) (pin : pin_strategy) (last : Z) (reading ready : bool) : t :=
  {| read_card_strategy_ := read_card_strategy_ s; read_pin_strategy_ := Some pin;
     delay_ := delay_ s; time_card_read_ := time_card_read_ s; last_pin_read_ := last;
     reading_pin_ := reading; reading_card_ := reading_card_ s; ready_ := ready;
     pin_key_end_ := pin_key_end_ s; nowait_ := nowait_ s |}.

Definition with_card (s : t) (card : Simple.t) (time : Z) : t :=
  {| read_card_strategy_ := card; read_pin_strategy_ := read_pin_strategy_ s;
     delay_ := delay_ s; time_card_read_ := time; last_pin_read_ := last_pin_read_ s;
     reading_pin_ := reading_pin_ s; reading_card_ := reading_card_ s; ready_ := ready_ s;
     pin_key_end_ := pin_key_end_ s; nowait_ := nowait_ s |}.

Definition with_ready (s : t) (ready : bool) : t :=
  {| read_card_strategy_ := read_card_strategy_ s; read_pin_strategy_ := read_pin_strategy_ s;
     delay_ := delay_ s; time_card_read_ := time_card_read_ s;
     last_pin_read_ := last_pin_read_ s; reading_pin_ := reading_pin_ s;
     reading_card_ := reading_card_ s; ready_ := ready;
     pin_key_end_ := pin_key_end_ s; nowait_ := nowait_ s |}.

(** The first half of [check_timeout]: a PIN being typed times out. *)
Definition check_pin (clk : clock) (s : t) (r : reader) (elapsed_ms_pin : Z)
  : outcome (t * reader) :=
  if reading_pin_ s && (delay_ s <? elapsed_ms_pin) then
    pin ← deref (read_pin_strategy_ s);
    '(pin, r) ← timeout clk pin r;
    if completed pin
    then Ret (with_pin s pin (last_pin_read_ s) false true, read_reset r)
    else Ret (with_pin s pin (last_pin_read_ s) true (ready_ s), r)
  else Ret (s, r).

Definition check_timeout (clk : clock) (s : t) (r : reader) : outcome (t * reader) :=
  let elapsed := elapsed_ms (clk AutoCheckCard) (time_card_read_ s) in
  let elapsed_ms_pin := elapsed_ms (clk AutoCheckPin) (last_pin_read_ s) in
  '(s, r) ← check_pin clk s r elapsed_ms_pin;
  if ((delay_ s <? elapsed) && (delay_ s <? elapsed_ms_pin)) || nowait_ s then
    if completed (read_card_strategy_ s) && negb (get_nb_bits (read_card_strategy_ s) =? 0)
    then Ret (with_ready s true, r) else Ret (s, r)
  else Ret (s, r).

Definition timeout (clk : clock) (s : t) (r : reader) : outcome (t * reader) :=
  if (counter r =? 4) || (counter r =? 8) then
    pin ← (match read_pin_strategy_ s with
           | None => build_strategy clk s (counter r)
           | Some pin => Ret (Some pin)
           end);
    pin ← deref pin;
    '(pin, r) ← timeout clk pin r;
    if completed pin
    then Ret (with_pin s pin (clk AutoPinRead) false true, read_reset r)
    else Ret (with_pin s pin (clk AutoPinRead) true (ready_ s), r)
  else if negb (counter r =? 0) then
    '(card, r) ← timeout clk (read_card_strategy_ s) r;
    Ret (with_card s card (clk AutoCardRead), if completed card then read_reset r else r)
  else check_timeout clk s r.

(** [reading_pin_] is not among the fields [reset] restores. *)
Definition reset (clk : clock) (s : t) (r : reader) : t * reader :=
  let '(card, r) := reset clk (read_card_strategy_ s) (read_reset r) in
  ({| read_card_strategy_ := card; read_pin_strategy_ := None;
      delay_ := delay_ s; time_card_read_ := time_card_read_ s;
      last_pin_read_ := last_pin_read_ s; reading_pin_ := reading_pin_ s;
      reading_card_ := true; ready_ := false;
      pin_key_end_ := pin_key_end_ s; nowait_ := nowait_ s |}, r).

Definition pin_text (s : t) : string :=
  match read_pin_strategy_ s with Some pin => get_pin pin | None => "" end.

Definition signal (clk : clock) (s : t) (r : reader) : outcome (t * reader * message) :=
  let card := read_card_strategy_ s in
  let with_card := negb (get_nb_bits card =? 0) in
  let with_pin := negb (str_empty (pin_text s)) in
  let m := [source_frame r]
    ++ (if with_card && with_pin then [FU8 WIEGAND_CARD_PIN]
        else if with_card then [FU8 SIMPLE_WIEGAND]
        else if with_pin then [FU8 WIEGAND_PIN] else [])
    ++ (if with_card then [FStr (get_card_id card); FInt (get_nb_bits card)] else [])
    ++ (if with_pin then [FStr (pin_text s)] else []) in
  let '(s, r) := reset clk s r in
  Ret (s, r, m).

End Autodetect.

#[export] Instance autodetect_strategy : WiegandStrategy Autodetect.t := {|
  timeout := Autodetect.timeout;
  completed := Autodetect.ready_;
  signal := Autodetect.signal;
  reset := Autodetect.reset;
|}.

(** * The device: a reader and its strategy *)

Record device (S : Type) := mk_device { rd : reader; strategy : S }.
Arguments mk_device {S}. Arguments rd {S}. Arguments strategy {S}.

(** [WiegandReaderImpl::timeout], with the messages pushed to the bus. *)
Definition device_timeout {S} `{WiegandStrategy S} (clk : clock) (d : device S)
  : outcome (device S * list message) :=
  '(s, r) ← timeout clk (strategy d) (rd d);
  if completed s then
    '(s, r, m) ← signal clk s r;
    let '(s, r) := reset clk s r in
    Ret (mk_device r s, [m])
  else Ret (mk_device r s, []).

(** The module's loop: an interrupt arrives, or 50 ms pass without one. *)
Inductive event :=
  | Interrupt (msg : string)
  | Tick (clk : clock).

Definition device_step {S} `{WiegandStrategy S} (st : device S * list message) (e : event)
  : outcome (device S * list message) :=
  let '(d, out) := st in
  match e with
  | Interrupt msg => r ← handle_bus_msg (rd d) msg; Ret (mk_device r (strategy d), out)
  | Tick clk => '(d, ms) ← device_timeout clk d; Ret (d, out ++ ms)
  end.

Definition device_run {S} `{WiegandStrategy S} (d : device S) (es : list event)
  : outcome (device S * list message) := foldM device_step (d, []) es.

(** * What a strategy promises to the reader *)

(** A strategy looks at the reader's input or clears it, and nothing else;
    [reset] always clears it and leaves nothing to signal. *)
Class StrategyLaws (S : Type) `{!WiegandStrategy S} := {
  reset_not_completed : forall clk s r, completed (reset clk s r).1 = false;
  reset_clears : forall clk s r, (reset clk s r).2 = read_reset r;
  timeout_input : forall clk s r s' r',
    timeout clk s r = Ret (s', r') -> r' = r \/ r' = read_reset r;
  signal_input : forall clk s r s' r' m,
    signal clk s r = Ret (s', r', m) -> r' = r \/ r' = read_reset r;
  signal_source : forall clk s r s' r' m,
    signal clk s r = Ret (s', r', m) -> exists m', m = source_frame r :: m';
}.

(** A strategy with an invariant under which its handlers always return. *)
Class TotalStrategy (S : Type) `{!WiegandStrategy S} := {
  strategy_inv : S -> Prop;
  timeout_total : forall clk s r, strategy_inv s -> reader_ok r ->
    exists s' r', timeout clk s r = Ret (s', r') /\ strategy_inv s';
  signal_total : forall clk s r, strategy_inv s -> completed s = true ->
    exists s' r' m, signal clk s r = Ret (s', r', m) /\ strategy_inv s';
  reset_inv : forall clk s r, strategy_inv s -> strategy_inv (reset clk s r).1;
}.

(** The text the card-reading loop builds. *)
Fixpoint join_hex (bytes : list Z) : list ascii :=
  match bytes with
  | [] => []
  | [b] => hex_byte b
  | b :: bytes => hex_byte b ++ ":"%char :: join_hex bytes
  end.

(** Byte [i] of a frame, its last byte padded with zeros. *)
Definition frame_byte (bits : list bool) (i : nat) : Z :=
  bits_val (take 8 (drop (8 * i) (bits ++ replicate (128 - length bits) false))).

Definition frame_size (bits : list bool) : nat :=
  Z.to_nat (Z.quot (Z.of_nat (length bits) - 1) 8 + 1).

Definition frame_bytes (bits : list bool) : list Z :=
  map (frame_byte bits) (seq 0 (frame_size bits)).

(** The card id a frame is read as. *)
Definition card_text (bits : list bool) : string := text (join_hex (frame_bytes bits)).

(** ** Lemmas on the laws *)

Lemma read_reset_idem r : read_reset (read_reset r) = read_reset r.
Proof. reflexivity. Qed.

Lemma source_frame_reset r : source_frame (read_reset r) = source_frame r.
Proof. reflexivity. Qed.

#[export] Hint Rewrite read_reset_idem source_frame_reset : leosac.

Lemma input_ok r r' : reader_ok r -> r' = r \/ r' = read_reset r -> reader_ok r'.
Proof. intros Hok [->| ->]; [done | apply reset_ok]. Qed.

#[export] Instance simple_laws : StrategyLaws Simple.t.
Proof.
  split; [done|done| | |].
  - intros clk s r s' r' H. cbn in H. unfold Simple.timeout in H.
    case_match; [by simplify_eq; left|]. bind_inv H. by simplify_eq; left.
  - intros clk s r s' r' m H. cbn in H. unfold Simple.signal in H. bind_inv H.
    by simplify_eq; left.
  - intros clk s r s' r' m H. cbn in H. unfold Simple.signal in H. bind_inv H.
    simplify_eq; eauto.
Qed.

#[export] Instance pin_nbits_laws {n} : StrategyLaws (PinNBits.t n).
Proof.
  split; [done|done| | |].
  - intros clk s r s' r' H. cbn in H. unfold PinNBits.timeout in H.
    case_match; [by simplify_eq; left|]. case_match; [by simplify_eq; right|].
    bind_inv H. by simplify_eq; right.
  - intros clk s r s' r' m H. cbn in H. unfold PinNBits.signal in H. bind_inv H. cbn in H.
    by simplify_eq; right.
  - intros clk s r s' r' m H. cbn in H. unfold PinNBits.signal in H. bind_inv H. cbn in H.
    simplify_eq; eauto.
Qed.

#[export] Instance pin_buffered_laws : StrategyLaws PinBuffered.t.
Proof.
  split; [done|done| | |].
  - intros clk s r s' r' H. cbn in H. unfold PinBuffered.timeout in H.
    case_match; [by simplify_eq; left|]. case_match; [by simplify_eq; right|].
    bind_inv H. case_match; by simplify_eq; left.
  - intros clk s r s' r' m H. cbn in H. unfold PinBuffered.signal in H. bind_inv H.
    by simplify_eq; left.
  - intros clk s r s' r' m H. cbn in H. unfold PinBuffered.signal in H. bind_inv H.
    simplify_eq; eauto.
Qed.

#[export] Instance sum_laws {A B} `{StrategyLaws A, StrategyLaws B} : StrategyLaws (A + B).
Proof.
  split.
  - intros clk [a|b] r; cbn; apply reset_not_completed.
  - intros clk [a|b] r; cbn; apply reset_clears.
  - intros clk [a|b] r s' r' Hr; cbn in Hr;
      destruct (timeout clk _ r) as [[x y]| |] eqn:E; cbn in Hr; try discriminate Hr;
      injection Hr as <- <-; exact (timeout_input _ _ _ _ _ E).
  - intros clk [a|b] r s' r' m Hr; cbn in Hr;
      destruct (signal clk _ r) as [[[x y] z]| |] eqn:E; cbn in Hr; try discriminate Hr;
      injection Hr as <- <- <-; exact (signal_input _ _ _ _ _ _ E).
  - intros clk [a|b] r s' r' m Hr; cbn in Hr;
      destruct (signal clk _ r) as [[[x y] z]| |] eqn:E; cbn in Hr; try discriminate Hr;
      injection Hr as <- <- <-; exact (signal_source _ _ _ _ _ _ E).
Qed.

Section card_and_pin_laws.
Context {C P : Type} `{CardReading C, PinReading P, !StrategyLaws C, !StrategyLaws P}.

Lemma card_and_pin_reset clk (s : CardAndPin.t C P) r :
  CardAndPin.reset clk s r =
  (CardAndPin.mk (reset clk (CardAndPin.read_card s) (read_reset r)).1
     (reset clk (CardAndPin.read_pin s) (read_reset r)).1
     (CardAndPin.delay_ s) (CardAndPin.time_card_read_ s) true false, read_reset r).
Proof.
  unfold CardAndPin.reset.
  pose proof (reset_clears clk (CardAndPin.read_card s) (read_reset r)) as E1.
  destruct (reset clk (CardAndPin.read_card s) (read_reset r)) as [c r1]; cbn in *; subst r1.
  rewrite read_reset_idem.
  pose proof (reset_clears clk (CardAndPin.read_pin s) (read_reset r)) as E2.
  destruct (reset clk (CardAndPin.read_pin s) (read_reset r)) as [p r2]; cbn in *; subst r2.
  by rewrite read_reset_idem.
Qed.

#[export] Instance card_and_pin_laws : StrategyLaws (CardAndPin.t C P).
Proof.
  split.
  - intros clk s r. cbn. by rewrite card_and_pin_reset.
  - intros clk s r. cbn. by rewrite card_and_pin_reset.
  - intros clk s r s' r' Hr. cbn in Hr. unfold CardAndPin.timeout in Hr. case_match.
    + bind_inv Hr. destruct a as [c r1]. case_match; simplify_eq; [|exact (timeout_input _ _ _ _ _ E)].
      apply timeout_input in E as [->| ->]; auto.
    + case_match; [rewrite card_and_pin_reset in Hr; simplify_eq; auto|].
      bind_inv Hr. destruct a as [p r1]. simplify_eq. exact (timeout_input _ _ _ _ _ E).
  - intros clk s r s' r' m Hr. cbn in Hr. unfold CardAndPin.signal in Hr.
    rewrite card_and_pin_reset in Hr. simplify_eq; auto.
  - intros clk s r s' r' m Hr. cbn in Hr. unfold CardAndPin.signal in Hr.
    rewrite card_and_pin_reset in Hr. simplify_eq; eauto.
Qed.

End card_and_pin_laws.

Lemma autodetect_reset clk (s : Autodetect.t) r :
  (Autodetect.reset clk s r).2 = read_reset r /\
  Autodetect.ready_ (Autodetect.reset clk s r).1 = false /\
  Autodetect.read_pin_strategy_ (Autodetect.reset clk s r).1 = None /\
  Autodetect.reading_pin_ (Autodetect.reset clk s r).1 = Autodetect.reading_pin_ s.
Proof. done. Qed.

#[export] Instance autodetect_laws : StrategyLaws Autodetect.t.
Proof.
  split; [done|done| | |].
  - intros clk s r s' r' H. cbn in H. unfold Autodetect.timeout in H.
    case_match; [|case_match].
    + bind_inv H. destruct a1 as [p r1]. apply timeout_input in E1.
      case_match; simplify_eq; [|done]. destruct E1 as [->| ->]; auto.
    + bind_inv H. destruct a as [p r1]. apply timeout_input in E.
      simplify_eq. case_match; [|done]. destruct E as [->| ->]; auto.
    + unfold Autodetect.check_timeout, Autodetect.check_pin in H. bind_inv H. destruct a as [s1 r1].
      assert (r' = r1) as -> by (repeat case_match; simplify_eq; done). clear H.
      case_match; [|by simplify_eq; left].
      bind_inv E. destruct a0 as [p r2]. apply timeout_input in E1.
      case_match; simplify_eq; [|done]. destruct E1 as [->| ->]; auto.
  - intros clk s r s' r' m H. cbn in H. unfold Autodetect.signal, Autodetect.reset in H. cbn in H.
    simplify_eq; auto.
  - intros clk s r s' r' m H. cbn in H. unfold Autodetect.signal, Autodetect.reset in H. cbn in H.
    simplify_eq; eauto.
Qed.

(** ** Totality *)

Lemma hex_byte_length b : length (hex_byte b) = 2%nat.
Proof. done. Qed.

(** The loop over the bytes of a frame, from byte [j] on. *)
Lemma hex_loop r (size j : nat) acc :
  reader_ok r -> (j <= size <= 16)%nat ->
  foldM (Simple.hex_step r (Z.of_nat size)) acc (seqZ (Z.of_nat j) (Z.of_nat (size - j))) =
  Ret (acc ++ join_hex (drop j (take size (buffer r)))).
Proof.
  intros Hok. remember (size - j)%nat as k eqn:Ek. revert j acc Ek.
  induction k as [|k IH]; intros j acc Ek Hj.
  - rewrite drop_ge, app_nil_r by (rewrite length_take, (ok_length _ Hok); lia). done.
  - rewrite Nat2Z.inj_succ, seqZ_cons by lia. cbn [foldM].
    destruct (buffer_at_ok r (Z.of_nat j) Hok) as (b & Hb & _ & Hl); [lia|].
    assert (Hs : Simple.hex_step r (Z.of_nat size) acc (Z.of_nat j) =
      Ret (acc ++ hex_byte b ++ (if Z.of_nat j + 1 <? Z.of_nat size then [":"%char] else [])))
      by (unfold Simple.hex_step; by rewrite Hb).
    rewrite Hs. cbn [mbind outcome_bind].
    rewrite Nat2Z.id in Hl.
    replace (Z.succ (Z.of_nat j)) with (Z.of_nat (S j)) by lia.
    replace (Z.pred (Z.succ (Z.of_nat k))) with (Z.of_nat k) by lia.
    rewrite IH by lia.
    rewrite (drop_S (take size (buffer r)) b j) by (by rewrite lookup_take_lt by lia).
    destruct (Z.ltb_spec (Z.of_nat j + 1) (Z.of_nat size)).
    + destruct (drop (S j) (take size (buffer r))) as [|c l] eqn:Ed.
      { apply (f_equal length) in Ed.
        rewrite length_drop, length_take, (ok_length _ Hok) in Ed. cbn in Ed. lia. }
      by rewrite <- !app_assoc.
    + rewrite drop_ge by (rewrite length_take, (ok_length _ Hok); lia).
      by rewrite !app_nil_r.
Qed.

Lemma simple_timeout_eq clk s r :
  reader_ok r -> counter r <> 0 ->
  Simple.timeout clk s r =
  Ret ({| Simple.ready_ := true; Simple.nb_bits_ := counter r;
          Simple.card_id_ :=
            text (join_hex (take (Z.to_nat (Z.quot (counter r - 1) 8 + 1)) (buffer r))) |}, r).
Proof.
  intros Hok Hc. pose proof (ok_counter _ Hok) as Hr. unfold Simple.timeout.
  rewrite (proj2 (Z.eqb_neq _ _)) by done.
  assert (Hq : 0 <= Z.quot (counter r - 1) 8 < 16).
  { split; [apply Z.quot_pos; lia | apply Z.quot_lt_upper_bound; lia]. }
  pose proof (hex_loop r (Z.to_nat (Z.quot (counter r - 1) 8 + 1)) 0 [] Hok ltac:(lia)) as Hl.
  rewrite Nat.sub_0_r, Z2Nat.id in Hl by lia.
  change (Z.of_nat 0) with 0 in Hl. rewrite Hl. done.
Qed.

Lemma join_hex_nonempty l : l <> [] -> join_hex l <> [].
Proof. destruct l as [|b [|c l]]; done. Qed.

Lemma text_nonempty l : l <> [] -> str_empty (text l) = false.
Proof. by destruct l. Qed.

#[export] Instance simple_total : TotalStrategy Simple.t.
Proof.
  refine {| strategy_inv s := Simple.ready_ s = true -> str_empty (Simple.card_id_ s) = false |}.
  - intros clk s r Hs Hok. cbn. destruct (decide (counter r = 0)) as [E|E].
    + unfold Simple.timeout. rewrite E. eauto.
    + rewrite simple_timeout_eq by done. do 2 eexists. split; [done|]. intros _. cbn.
      apply text_nonempty, join_hex_nonempty. intros Hn. apply (f_equal length) in Hn.
      pose proof (ok_counter _ Hok). assert (0 <= Z.quot (counter r - 1) 8) by (apply Z.quot_pos; lia).
      rewrite length_take, (ok_length _ Hok) in Hn. cbn in Hn. lia.
  - intros clk s r Hs Hc. cbn in *. unfold Simple.signal. rewrite Hc, (Hs Hc). cbn. eauto.
  - done.
Defined.
