(* ===== verification/Device.v ===== *)
(** The reader device run by the Wiegand module: the interface theorems that
    hold for every strategy, and what each concrete strategy reads.

    The generic part is proved against [StrategyLaws] and [TotalStrategy]; the
    instances of Strategies.v and of this file discharge them. *)
From Stdlib Require Import ZArith Lia Ascii String.
From stdpp Require Import base tactics numbers list strings pretty.
From S2P Require Import Prelude Reader Strategies.
Import WiegandReaderImpl.

Open Scope Z_scope.

(** * Specifications of what is read *)

(** The frame a [NbBits]-bit keypad sends for key [k]: four bits, preceded in
    8-bit mode by their complement. *)
Definition key_bits (k : Z) : list bool :=
  [Z.testbit k 3; Z.testbit k 2; Z.testbit k 1; Z.testbit k 0].
Definition key_frame (NbBits k : Z) : list bool :=
  if NbBits =? 8 then map negb (key_bits k) ++ key_bits k else key_bits k.

(** The character a key is reported as. *)
Definition key_char (k : Z) : ascii :=
  if k =? 10 then "*"%char else if k =? 11 then "#"%char
  else if k <? 10 then chr (k + 48) else "1"%char.

(** The events of one frame: its interrupts, then a tick. *)
Definition frame_events (r : reader) (bits : list bool) (clk : clock) : list event :=
  map Interrupt (interrupts r bits) ++ [Tick clk].

(** Typing keys one by one, each with the clock of its tick. *)
Definition typing (NbBits : Z) (r : reader) (keys : list (Z * clock)) : list event :=
  concat (map (fun kc => frame_events r (key_frame NbBits kc.1) kc.2) keys).

(** A device between two credentials: wired to two pins, nothing received. *)
Record idle {S} (d : device S) : Prop := {
  idle_ok : reader_ok (rd d);
  idle_pins : distinct_pins (rd d);
  idle_clean : clean (rd d);
  idle_counter : counter (rd d) = 0;
}.

(** * Totality instances *)

Lemma key_step_bound n input a i :
  0 <= a < 16 -> 0 <= i <= 3 -> 0 <= PinNBits.key_step (NbBits := n) input a i < 16.
Proof.
  intros Ha Hi. unfold PinNBits.key_step.
  set (v := if n =? 8 then _ else _). clearbody v.
  assert (Hs : 0 <= Z.shiftl (Z.b2z v) (3 - i) < 2 ^ 4).
  { rewrite Z.shiftl_mul_pow2 by lia.
    assert (1 <= 2 ^ (3 - i) <= 2 ^ 3) by (split; [apply (Z.pow_le_mono_r 2 0); lia | apply Z.pow_le_mono_r; lia]).
    destruct v; cbn [Z.b2z]; lia. }
  split; [apply Z.lor_nonneg; lia|].
  change 16 with (2 ^ 4) in *.
  destruct (decide (Z.lor a (Z.shiftl (Z.b2z v) (3 - i)) = 0)) as [->|]; [lia|].
  apply Z.log2_lt_pow2; [assert (0 <= Z.lor a (Z.shiftl (Z.b2z v) (3 - i))) by (apply Z.lor_nonneg; lia); lia|].
  rewrite Z.log2_lor by lia. apply Z.max_lub_lt.
  - destruct (decide (a = 0)) as [->|]; [cbn; lia|]. apply Z.log2_lt_pow2; lia.
  - destruct (decide (Z.shiftl (Z.b2z v) (3 - i) = 0)) as [->|]; [cbn; lia|].
    apply Z.log2_lt_pow2; lia.
Qed.

(** The character a nibble is turned into, for every nibble. *)
Lemma nibble_char (k : Z) : 0 <= k < 16 ->
  (if k =? 10 then Ret "*"%char else if k =? 11 then Ret "#"%char
   else match chars (to_string k) with c :: _ => Ret c | [] => Throw StdOutOfRange end)
  = Ret (key_char k).
Proof.
  intros Hk. unfold key_char.
  assert (Hc : forallb (fun k => bool_decide
    ((if k =? 10 then Ret "*"%char else if k =? 11 then Ret "#"%char
      else match chars (to_string k) with c :: _ => Ret c | [] => Throw StdOutOfRange end)
     = Ret (if k =? 10 then "*"%char else if k =? 11 then "#"%char
            else if k <? 10 then chr (k + 48) else "1"%char))) (seqZ 0 16) = true)
    by (vm_compute; reflexivity).
  rewrite forallb_forall in Hc. eapply bool_decide_eq_true_1, Hc.
  apply list_elem_of_In, elem_of_seqZ. lia.
Qed.

Definition raw_key (n input : Z) : Z := foldl (PinNBits.key_step (NbBits := n) input) 0 (seqZ 0 4).

Lemma extract_eq n input :
  PinNBits.extract_from_raw (NbBits := n) input = Ret (key_char (raw_key n input)).
Proof.
  unfold PinNBits.extract_from_raw. fold (raw_key n input). apply nibble_char.
  unfold raw_key. cbn [seqZ]. change (seqZ 0 4) with [0; 1; 2; 3]. cbn [foldl].
  repeat apply key_step_bound; lia.
Qed.

#[export] Instance pin_nbits_total {n} : TotalStrategy (PinNBits.t n).
Proof.
  refine {| strategy_inv s := PinNBits.ready_ s = true -> PinNBits.inputs_ s <> [] |}.
  - intros clk s r Hs Hok. cbn. unfold PinNBits.timeout. case_match.
    { do 2 eexists. split; [done|]. case_match; [|done]. cbn. intros Hb. bool_hyps. done. }
    case_match; [do 2 eexists; split; done|].
    destruct (buffer_at_ok r 0 Hok) as (b & -> & _); [lia|].
    cbn [mbind outcome_bind]. rewrite extract_eq. cbn [mbind outcome_bind].
    do 2 eexists. split; [done|]. case_match; cbn.
    + intros Hb. bool_hyps. done.
    + intros _. by destruct (PinNBits.inputs_ s).
  - intros clk s r Hs Hc. cbn in *. unfold PinNBits.signal. rewrite Hc.
    rewrite bool_decide_eq_true_2 by auto. cbn. do 3 eexists. split; [done|]. done.
  - done.
Defined.

Section card_and_pin_total.
Context {C P : Type} `{CardReading C, PinReading P}.
Context `{!StrategyLaws C, !StrategyLaws P, !TotalStrategy C, !TotalStrategy P}.

#[export] Instance card_and_pin_total : TotalStrategy (CardAndPin.t C P).
Proof.
  refine {| strategy_inv s :=
    strategy_inv (CardAndPin.read_card s) /\ strategy_inv (CardAndPin.read_pin s) |}.
  - intros clk s r [Hc Hp] Hok. cbn. unfold CardAndPin.timeout. case_match.
    + destruct (timeout_total clk (CardAndPin.read_card s) r Hc Hok) as (c & r1 & -> & Hc').
      cbn. case_match; eauto.
    + case_match.
      * rewrite card_and_pin_reset. do 2 eexists. split; [done|]. split; cbn; by apply reset_inv.
      * destruct (timeout_total clk (CardAndPin.read_pin s) r Hp Hok) as (p & r1 & -> & Hp').
        cbn. eauto.
  - intros clk s r [Hc Hp] _. cbn. unfold CardAndPin.signal. rewrite card_and_pin_reset.
    do 3 eexists. split; [done|]. split; cbn; by apply reset_inv.
  - intros clk s r [Hc Hp]. cbn. rewrite card_and_pin_reset. split; cbn; by apply reset_inv.
Defined.

End card_and_pin_total.

(** * Runs of a device *)

Section device.
Context {S : Type} `{!WiegandStrategy S}.

Lemma device_run_app (d : device S) es1 es2 :
  device_run d (es1 ++ es2) = (st ← device_run d es1; foldM device_step st es2).
Proof. apply foldM_app. Qed.

(** What was pushed to the bus before does not matter to a run. *)
Lemma device_step_out (d : device S) out e :
  device_step (d, out) e = (fun st => (st.1, out ++ st.2)) <$> device_step (d, []) e.
Proof.
  destruct e as [msg|clk]; cbn.
  - destruct (handle_bus_msg (rd d) msg); cbn; [by rewrite app_nil_r|done..].
  - destruct (device_timeout clk d) as [[d' ms]| |]; done.
Qed.

Lemma device_run_out (d : device S) out es :
  foldM device_step (d, out) es = (fun st => (st.1, out ++ st.2)) <$> device_run d es.
Proof.
  unfold device_run. revert d out. induction es as [|e es IH]; intros d out; cbn [foldM].
  { cbn. by rewrite app_nil_r. }
  rewrite device_step_out. destruct (device_step (d, []) e) as [[d' ms]| |]; cbn; [|done..].
  rewrite IH, (IH d' ms). destruct (foldM device_step (d', []) es) as [[d2 ms2]| |]; cbn; [|done..].
  by rewrite app_assoc.
Qed.

Lemma device_run_seq (d d1 : device S) ms1 es1 es2 :
  device_run d es1 = Ret (d1, ms1) ->
  device_run d (es1 ++ es2) = (fun st => (st.1, ms1 ++ st.2)) <$> device_run d1 es2.
Proof. intros H. by rewrite device_run_app, H, <- device_run_out. Qed.

(** The interrupts of a frame only feed the reader. *)
Lemma device_interrupts (d : device S) msgs :
  device_run d (map Interrupt msgs) =
  (fun r => (mk_device r (strategy d), [])) <$> handle_bus_msgs (rd d) msgs.
Proof.
  unfold device_run, handle_bus_msgs. destruct d as [r s]. revert r.
  induction msgs as [|m msgs IH]; intros r; cbn; [done|].
  destruct (handle_bus_msg r m); cbn; [|done..]. apply IH.
Qed.

(** A whole frame arriving at an idle device reaches the strategy's timeout
    with exactly the frame's bits received. *)
Lemma device_frame (d : device S) bits clk :
  idle d -> (length bits <= 128)%nat ->
  exists r', device_run d (frame_events (rd d) bits clk) =
      ('(d', ms) ← device_timeout clk (mk_device r' (strategy d)); Ret (d', ms)) /\
    reader_ok r' /\ clean r' /\ same_wiring (rd d) r' /\
    counter r' = Z.of_nat (length bits) /\ received r' = bits.
Proof.
  intros Hd Hlen.
  destruct (receive_frame (rd d) bits) as (r' & Hr & Hok & Hcl & Hw & Hc & Hrec).
  { apply Hd. } { apply Hd. } { apply Hd. } { rewrite (idle_counter _ Hd). lia. }
  exists r'. split; [|do 3 (split; [done|])].
  - unfold frame_events. rewrite device_run_app, device_interrupts, Hr. cbn.
    destruct (device_timeout clk _) as [[d' ms]| |]; done.
  - rewrite (idle_counter _ Hd) in Hc. split; [done|].
    rewrite Hrec. unfold received. by rewrite (idle_counter _ Hd).
Qed.

Lemma device_timeout_signal `{!StrategyLaws S} clk (d d' : device S) ms :
  device_timeout clk d = Ret (d', ms) ->
  rd d' = rd d /\ ms = [] \/ rd d' = read_reset (rd d).
Proof.
  unfold device_timeout. intros H. bind_inv H. destruct a as [s r].
  apply timeout_input in E as Hin. case_match.
  - bind_inv H. destruct a as [[s1 r1] m]. apply signal_input in E0 as Hin1.
    destruct (reset clk s1 r1) as [s2 r2] eqn:Er. simplify_eq.
    pose proof (reset_clears clk s1 r1) as Hcl. rewrite Er in Hcl. cbn in *. subst.
    right. destruct Hin as [->| ->], Hin1 as [->| ->]; done.
  - simplify_eq. destruct Hin as [->| ->]; auto.
Qed.

End device.

(** Clearing the input of a wired device makes it idle. *)
Lemma idle_reset {S} r (s : S) : distinct_pins r -> idle (mk_device (read_reset r) s).
Proof. intros Hp. split; [apply reset_ok | done | apply reset_clean | done]. Qed.

Lemma idle_strategy {S T} (d : device S) (s : T) : idle d -> idle (mk_device (rd d) s).
Proof. intros Hd. split; apply Hd. Qed.

(** ** Properties of every strategy *)

(** a tick pushes at most one message; when it does, the message comes from
    this reader, and afterwards the input is cleared and the strategy has
    nothing left to signal, so one credential is never sent twice. *)
Theorem signalled_once {S} `{StrategyLaws S} clk (d d' : device S) ms :
  device_timeout clk d = Ret (d', ms) -> ms <> [] ->
  completed (strategy d') = false /\ rd d' = read_reset (rd d) /\
  exists m, ms = [source_frame (rd d) :: m].
Proof.
  unfold device_timeout. intros Hd Hne. bind_inv Hd. destruct a as [s r].
  apply timeout_input in E as Hin. case_match; [|by simplify_eq].
  bind_inv Hd. destruct a as [[s1 r1] m]. apply signal_input in E0 as Hin1.
  apply signal_source in E0 as (m' & ->).
  destruct (reset clk s1 r1) as [s2 r2] eqn:Er. simplify_eq. cbn.
  pose proof (reset_clears clk s1 r1) as Hcl. pose proof (reset_not_completed clk s1 r1) as Hnc.
  rewrite Er in Hcl, Hnc. cbn in *. subst r2. split; [done|].
  destruct Hin as [->| ->], Hin1 as [->| ->]; eauto.
Qed.

(** a device whose strategy has an invariant under which its handlers
    return never fails, whatever interrupts and ticks arrive in whatever
    order: no assertion aborts, no exception, no undefined operation. *)
Theorem device_never_fails {S} `{StrategyLaws S, !TotalStrategy S} (d : device S) es :
  reader_ok (rd d) -> strategy_inv (strategy d) ->
  exists d' out, device_run d es = Ret (d', out) /\
    reader_ok (rd d') /\ strategy_inv (strategy d').
Proof.
  intros Hok Hinv.
  destruct (foldM_invariant device_step
    (fun st : device S * list message => reader_ok (rd st.1) /\ strategy_inv (strategy st.1))
    (fun _ => True) es) with (a := (d, @nil message)) as ([d' out] & Hrun & Hok' & Hinv').
  - intros [d0 out0] [msg|clk] [Ho Hi] _; cbn in *.
    + destruct (handle_bus_msg_safe (rd d0) msg Ho) as (r' & -> & Hr'). cbn. eauto.
    + unfold device_timeout.
      destruct (timeout_total clk (strategy d0) (rd d0) Hi Ho) as (s & r & Ht & Hs).
      pose proof (input_ok _ _ Ho (timeout_input _ _ _ _ _ Ht)) as Hr.
      rewrite Ht. cbn. case_match; cbn; [|eauto].
      destruct (signal_total clk s r Hs) as (s1 & r1 & m & Hsig & Hs1); [done|].
      rewrite Hsig. cbn.
      pose proof (reset_inv clk s1 r1 Hs1) as Hi2. pose proof (reset_clears clk s1 r1) as Hc2.
      destruct (reset clk s1 r1) as [s2 r2]; cbn in *. subst r2.
      eexists; split; [done|]. split; cbn; [apply reset_ok | done].
  - by apply Forall_true.
  - done.
  - exists d', out. auto.
Qed.

(** * What the concrete strategies read *)

Lemma take_byte buf (i : nat) b :
  buf !! i = Some b -> take 8 (drop (8 * i) (buffer_bits buf)) = byte_bits b.
Proof.
  revert i. induction buf as [|c l IH]; intros [|i] Hi; [done..| |].
  - by injection Hi as ->.
  - replace (8 * S i)%nat with (8 + 8 * i)%nat by lia. by apply IH.
Qed.

(** The bytes of a clean reader's buffer are the frame's, padded with zeros. *)
Lemma buffer_frame_byte r bits (i : nat) b :
  reader_ok r -> clean r -> received r = bits -> buffer r !! i = Some b ->
  b = frame_byte bits i.
Proof.
  intros Hok Hcl Hr Hi. unfold frame_byte.
  assert (Hl : length bits = Z.to_nat (counter r)).
  { rewrite <- Hr. unfold received. pose proof (ok_counter _ Hok).
    rewrite length_take, length_buffer_bits, (ok_length _ Hok). lia. }
  unfold clean in Hcl. rewrite Hr in Hcl. rewrite Hl, <- Hcl, (take_byte _ _ _ Hi).
  symmetry. apply bits_val_byte_bits. eapply (Forall_lookup_1 is_byte); [exact (ok_bytes _ Hok) | exact Hi].
Qed.

Lemma buffer_frame_bytes r bits :
  reader_ok r -> clean r -> received r = bits -> counter r = Z.of_nat (length bits) ->
  (0 < length bits)%nat ->
  take (Z.to_nat (Z.quot (counter r - 1) 8 + 1)) (buffer r) = frame_bytes bits.
Proof.
  intros Hok Hcl Hr Hc Hpos. pose proof (ok_counter _ Hok) as Hrange.
  unfold frame_bytes, frame_size. rewrite Hc. set (n := Z.to_nat _).
  assert (Hq : 0 <= Z.quot (Z.of_nat (length bits) - 1) 8 < 16).
  { split; [apply Z.quot_pos; lia | apply Z.quot_lt_upper_bound; lia]. }
  assert (Hn : (n <= 16)%nat) by (unfold n; lia).
  apply list_eq_same_length with n; [by rewrite length_map, length_seq| |].
  { rewrite length_take, (ok_length _ Hok). lia. }
  intros i x y Hi. rewrite lookup_take_lt by done. intros Hx Hy.
  rewrite list_lookup_fmap in Hy. apply fmap_Some in Hy as (j & Hj & ->).
  apply lookup_seq in Hj as [-> _]. by apply (buffer_frame_byte r).
Qed.

Definition card_message (r : reader) (bits : list bool) : message :=
  [source_frame r; FU8 SIMPLE_WIEGAND; FStr (card_text bits); FInt (Z.of_nat (length bits))].

Lemma simple_timeout_frame clk s r bits :
  reader_ok r -> clean r -> received r = bits -> counter r = Z.of_nat (length bits) ->
  (0 < length bits)%nat ->
  Simple.timeout clk s r =
  Ret ({| Simple.ready_ := true; Simple.nb_bits_ := Z.of_nat (length bits);
          Simple.card_id_ := card_text bits |}, r).
Proof.
  intros Hok Hcl Hr Hc Hpos. rewrite simple_timeout_eq by (done || lia).
  rewrite (buffer_frame_bytes r bits) by done. by rewrite Hc.
Qed.

Lemma frame_bytes_nonempty bits : (0 < length bits)%nat -> frame_bytes bits <> [].
Proof.
  intros Hpos Hn. apply (f_equal length) in Hn. unfold frame_bytes, frame_size in Hn.
  rewrite length_map, length_seq in Hn.
  assert (0 <= Z.quot (Z.of_nat (length bits) - 1) 8) by (apply Z.quot_pos; lia).
  cbn in Hn. lia.
Qed.

Lemma card_text_nonempty bits : (0 < length bits)%nat -> str_empty (card_text bits) = false.
Proof. intros. by apply text_nonempty, join_hex_nonempty, frame_bytes_nonempty. Qed.

Lemma source_frame_wiring r r' : same_wiring r r' -> source_frame r' = source_frame r.
Proof. intros ->. done. Qed.

Lemma frame_events_wiring r r' bits clk :
  same_wiring r r' -> frame_events r' bits clk = frame_events r bits clk.
Proof. intros ->. done. Qed.

Lemma distinct_wiring r r' : same_wiring r r' -> distinct_pins r -> distinct_pins r'.
Proof. intros ->. done. Qed.

Lemma wiring_reset r r' : same_wiring r r' -> read_reset r' = read_reset r.
Proof. intros ->. done. Qed.

Lemma simple_device_card (d : device Simple.t) bits clk :
  idle d -> (0 < length bits <= 128)%nat ->
  exists d', device_run d (frame_events (rd d) bits clk) = Ret (d', [card_message (rd d) bits]) /\
    idle d' /\ rd d' = read_reset (rd d) /\ strategy d' = Simple.make.
Proof.
  intros Hd Hlen.
  destruct (device_frame d bits clk Hd) as (r' & -> & Hok & Hcl & Hw & Hc & Hrec); [lia|].
  unfold device_timeout. cbn [timeout simple_strategy rd strategy].
  rewrite (simple_timeout_frame _ _ _ bits) by (done || lia).
  cbn [mbind outcome_bind completed simple_strategy Simple.ready_ signal].
  unfold Simple.signal. cbn [Simple.ready_ Simple.card_id_ Simple.nb_bits_ cassert].
  rewrite card_text_nonempty by lia. cbn.
  rewrite (source_frame_wiring _ _ Hw), (wiring_reset _ _ Hw).
  eexists; split; [done|]. split; [by apply idle_reset, Hd|]. done.
Qed.

(** a card presented to an idle reader in SIMPLE_WIEGAND mode: for every
    frame of 1 to 128 bits, exactly one message goes to the bus, naming the
    reader and carrying the frame's bytes in hexadecimal, last byte padded
    with zero bits, and the number of bits; the reader is idle again. *)
Theorem simple_reads_card (d : device Simple.t) bits clk :
  idle d -> (0 < length bits <= 128)%nat ->
  exists d', device_run d (frame_events (rd d) bits clk) = Ret (d', [card_message (rd d) bits]) /\
    idle d' /\ rd d' = read_reset (rd d) /\ strategy d' = Simple.make.
Proof. apply simple_device_card. Qed.

(** ** Typing a PIN *)

Lemma key_frame_length n k : n = 4 \/ n = 8 -> Z.of_nat (length (key_frame n k)) = n.
Proof. by intros [->| ->]. Qed.

Lemma frame_byte_key n k : n = 4 \/ n = 8 -> 0 <= k < 16 ->
  key_char (raw_key n (frame_byte (key_frame n k) 0)) = key_char k.
Proof.
  intros Hn Hk. f_equal.
  assert (Hc : forallb (fun k => raw_key 4 (frame_byte (key_frame 4 k) 0) =? k) (seqZ 0 16) = true
    /\ forallb (fun k => raw_key 8 (frame_byte (key_frame 8 k) 0) =? k) (seqZ 0 16) = true)
    by (split; vm_compute; reflexivity).
  destruct Hc as [H4 H8]. rewrite forallb_forall in H4, H8.
  assert (Hin : In k (seqZ 0 16)) by (apply list_elem_of_In, elem_of_seqZ; lia).
  destruct Hn as [->| ->]; apply Z.eqb_eq; auto.
Qed.

(** One key: the strategy's state after the tick that follows its frame. *)
Lemma pin_timeout_key n clk s r k :
  n = 4 \/ n = 8 -> 0 <= k < 16 -> reader_ok r -> clean r ->
  received r = key_frame n k -> counter r = n ->
  PinNBits.timeout (NbBits := n) clk s r =
  Ret (let s := PinNBits.touch s (clk PinUpdate) in
       if Ascii.eqb (key_char k) (PinNBits.pin_end_key_ s)
       then PinNBits.end_of_input s else PinNBits.add_input s (key_char k), read_reset r).
Proof.
  intros Hn Hk Hok Hcl Hrec Hc. unfold PinNBits.timeout.
  rewrite Hc, Z.eqb_refl, (proj2 (Z.eqb_neq _ _)) by (destruct Hn; lia). cbn [negb].
  destruct (buffer_at_ok r 0 Hok) as (b & -> & _ & Hb); [lia|]. cbn [mbind outcome_bind].
  rewrite extract_eq. cbn [mbind outcome_bind].
  rewrite (buffer_frame_byte r (key_frame n k) 0 b) by done.
  by rewrite frame_byte_key.
Qed.

Lemma pin_device_key n (d : device (PinNBits.t n)) k clk :
  n = 4 \/ n = 8 -> 0 <= k < 16 -> idle d ->
  PinNBits.ready_ (strategy d) = false ->
  key_char k <> PinNBits.pin_end_key_ (strategy d) ->
  device_run d (frame_events (rd d) (key_frame n k) clk) =
  Ret (mk_device (read_reset (rd d))
         (PinNBits.add_input (PinNBits.touch (strategy d) (clk PinUpdate)) (key_char k)), []).
Proof.
  intros Hn Hk Hd Hready Hend. pose proof (key_frame_length n k Hn) as Hl.
  destruct (device_frame d (key_frame n k) clk Hd) as (r' & -> & Hok & Hcl & Hw & Hc & Hrec);
    [lia|].
  unfold device_timeout. cbn [timeout pin_nbits_strategy rd strategy].
  rewrite (pin_timeout_key n _ _ _ k) by (done || lia).
  cbn [PinNBits.touch PinNBits.pin_end_key_]. rewrite (proj2 (Ascii.eqb_neq _ _)) by done.
  cbn. rewrite Hready, (wiring_reset _ _ Hw). done.
Qed.

Definition pin_message (r : reader) (pin : list ascii) : message :=
  [source_frame r; FU8 WIEGAND_PIN; FStr (text pin)].

Lemma pin_device_end n (d : device (PinNBits.t n)) k clk :
  n = 4 \/ n = 8 -> 0 <= k < 16 -> idle d ->
  key_char k = PinNBits.pin_end_key_ (strategy d) -> PinNBits.inputs_ (strategy d) <> [] ->
  exists d', device_run d (frame_events (rd d) (key_frame n k) clk) =
    Ret (d', [pin_message (rd d) (PinNBits.inputs_ (strategy d))]) /\
    idle d' /\ rd d' = read_reset (rd d) /\ PinNBits.inputs_ (strategy d') = [] /\
    PinNBits.ready_ (strategy d') = false.
Proof.
  intros Hn Hk Hd Hend Hne. pose proof (key_frame_length n k Hn) as Hl.
  destruct (device_frame d (key_frame n k) clk Hd) as (r' & -> & Hok & Hcl & Hw & Hc & Hrec);
    [lia|].
  unfold device_timeout. cbn [timeout pin_nbits_strategy rd strategy].
  rewrite (pin_timeout_key n _ _ _ k) by (done || lia).
  cbn [PinNBits.touch PinNBits.pin_end_key_]. rewrite (proj2 (Ascii.eqb_eq _ _)) by done.
  cbn. rewrite bool_decide_eq_true_2 by done. cbn. unfold PinNBits.signal. cbn.
  rewrite bool_decide_eq_true_2 by done. cbn.
  rewrite (wiring_reset _ _ Hw).
  eexists; split; [done|]. split; [by apply idle_reset, Hd|]. done.
Qed.

(** Keys that do not end the PIN accumulate, whatever time passes between them. *)
Lemma pin_device_typing n (d : device (PinNBits.t n)) keys :
  n = 4 \/ n = 8 -> idle d -> PinNBits.ready_ (strategy d) = false ->
  Forall (fun kc => 0 <= kc.1 < 16 /\ key_char kc.1 <> PinNBits.pin_end_key_ (strategy d)) keys ->
  exists d', device_run d (typing n (rd d) keys) = Ret (d', []) /\
    idle d' /\ same_wiring (rd d) (rd d') /\ PinNBits.ready_ (strategy d') = false /\
    PinNBits.pin_end_key_ (strategy d') = PinNBits.pin_end_key_ (strategy d) /\
    PinNBits.inputs_ (strategy d') =
      PinNBits.inputs_ (strategy d) ++ map (fun kc => key_char kc.1) keys.
Proof.
  intros Hn. revert d. induction keys as [|[k clk] keys IH]; intros d Hd Hr Hk.
  { exists d. cbn. rewrite app_nil_r.
    split; [done|]. split; [done|]. split; [by destruct d as [[]]|]. done. }
  apply Forall_cons in Hk as [[Hk0 Hend] Hk]. cbn in Hk0, Hend.
  unfold typing. cbn [map concat fst snd].
  pose proof (pin_device_key n d k clk Hn Hk0 Hd Hr Hend) as Hrun.
  set (d1 := mk_device _ _) in Hrun.
  assert (Hd1 : idle d1) by (by apply idle_reset, Hd).
  destruct (IH d1 Hd1) as (d' & Hrun' & Hd' & Hw' & Hr' & He' & Hi'); [done..|].
  rewrite (device_run_seq _ _ _ _ _ Hrun).
  assert (Ht : interrupts (rd d) = interrupts (rd d1)) by done.
  unfold typing, frame_events in *. rewrite Ht. rewrite Hrun'. cbn.
  exists d'. split; [done|]. split; [done|]. split.
  { by eapply same_wiring_trans; [|exact Hw']. }
  split; [done|]. split; [done|]. rewrite Hi'. cbn. by rewrite <- app_assoc.
Qed.

(** a PIN typed on a 4-bit or 8-bit keypad of an idle reader: the keys
    before the end key accumulate in order - 0 to 9 as their digits - nothing
    is sent before the end key, and the end key sends exactly one message with
    the whole PIN and leaves the reader idle and empty. *)
Theorem pin_typed n (d : device (PinNBits.t n)) keys kend clk :
  n = 4 \/ n = 8 -> idle d -> PinNBits.ready_ (strategy d) = false ->
  PinNBits.inputs_ (strategy d) = [] -> keys <> [] ->
  Forall (fun kc => 0 <= kc.1 < 16 /\ key_char kc.1 <> PinNBits.pin_end_key_ (strategy d)) keys ->
  0 <= kend < 16 -> key_char kend = PinNBits.pin_end_key_ (strategy d) ->
  exists d', device_run d (typing n (rd d) keys ++ frame_events (rd d) (key_frame n kend) clk) =
    Ret (d', [pin_message (rd d) (map (fun kc => key_char kc.1) keys)]) /\
    idle d' /\ PinNBits.inputs_ (strategy d') = [].
Proof.
  intros Hn Hd Hr Hi Hne Hk Hkend Hend.
  destruct (pin_device_typing n d keys Hn Hd Hr Hk) as (d1 & Hrun & Hd1 & Hw & Hr1 & He1 & Hi1).
  rewrite Hi in Hi1. cbn in Hi1.
  destruct (pin_device_end n d1 kend clk) as (d' & Hrun' & Hd' & _ & Hi' & _); [done|done|done| | |].
  { by rewrite He1. }
  { rewrite Hi1. by destruct keys. }
  rewrite (device_run_seq _ _ _ _ _ Hrun).
  rewrite <- (frame_events_wiring _ _ _ _ Hw).
  rewrite Hrun', Hi1. exists d'. split; [|done]. cbn. unfold pin_message.
  by rewrite (source_frame_wiring _ _ Hw).
Qed.

(** ** The buffered PIN *)

(** in WIEGAND_PIN_BUFFERED mode the loop that extracts the 16-bit PIN runs
    one step too far: on every 26-bit frame its last step shifts by -1, which
    C++ leaves undefined, so no PIN of the expected length is ever read by
    defined behaviour. *)
Theorem buffered_pin_shifts_by_minus_one clk s r :
  reader_ok r -> counter r = 26 -> PinBuffered.timeout clk s r = Fault BadShift.
Proof.
  intros Hok Hc. unfold PinBuffered.timeout. rewrite Hc. cbn [Z.eqb Pos.eqb negb].
  assert (Hstep : forall n i, 9 <= i <= 24 -> exists n', PinBuffered.pin_step r n i = Ret n').
  { intros n i Hi. unfold PinBuffered.pin_step.
    destruct (buffer_at_ok r (Z.quot i 8) Hok) as (b & -> & _).
    { split; [apply Z.quot_pos; lia | apply Z.quot_lt_upper_bound; lia]. }
    cbn. unfold PinBuffered.shl_u32.
    replace ((0 <=? 15 - (i - 9)) && (15 - (i - 9) <? 32)) with true
      by (symmetry; apply andb_true_iff; lia).
    cbn. eauto. }
  change (seqZ 9 (26 - 9)) with (seqZ 9 16 ++ [25]). rewrite foldM_app.
  destruct (foldM_invariant (PinBuffered.pin_step r) (fun _ => True) (fun i => 9 <= i <= 24)
              (seqZ 9 16)) with (a := 0) as (n & -> & _).
  - intros a i _ Hi. destruct (Hstep a i Hi) as [n' ->]. eauto.
  - apply Forall_forall. intros i Hi%elem_of_seqZ. lia.
  - done.
  - cbn [mbind outcome_bind foldM]. unfold PinBuffered.pin_step.
    destruct (buffer_at_ok r (Z.quot 25 8) Hok) as (b & -> & _); [change (Z.quot 25 8) with 3; lia|]. done.
Qed.

(** ** Witnesses *)

Lemma demo_idle {S} (s : S) : idle (mk_device demo_reader s).
Proof. split; [exact demo_reader_ok | exact demo_reader_pins | exact demo_reader_clean | done]. Qed.

Definition clock_at (t : Z) : clock := fun _ => t.
Definition demo_bits : list bool := replicate 32 true.

(** The frame of [test/WiegandReader.cpp]. *)
Lemma signalled_once_witness :
  let d := mk_device demo_reader (Simple.mk true 32 "ff:ff:ff:ff") in
  exists m, (device_timeout (clock_at 0) d) =
    Ret (mk_device demo_reader Simple.make, [source_frame demo_reader :: m]).
Proof.
  intros d. pose (m := [FU8 SIMPLE_WIEGAND; FStr "ff:ff:ff:ff"; FInt 32]).
  assert (Hrun : device_timeout (clock_at 0) d =
    Ret (mk_device demo_reader Simple.make, [source_frame demo_reader :: m])) by reflexivity.
  destruct (signalled_once (clock_at 0) d _ _ Hrun ltac:(discriminate)) as (_ & _ & m' & Hm).
  exists m'. change (source_frame demo_reader) with (source_frame (rd d)). rewrite <- Hm. exact Hrun.
Defined.

Lemma device_never_fails_witness :
  exists d' out, device_run (mk_device demo_reader Simple.make)
    [Interrupt "S_INT:GPIO_HIGH"; Tick (clock_at 7); Interrupt "noise"; Tick (clock_at 9)] = Ret (d', out) /\
    reader_ok (rd d') /\ strategy_inv (strategy d').
Proof. apply device_never_fails; [exact demo_reader_ok | cbn; discriminate]. Defined.

Lemma simple_reads_card_witness :
  exists d', device_run (mk_device demo_reader Simple.make)
      (frame_events demo_reader demo_bits (clock_at 0)) =
    Ret (d', [[FStr "S_WIEGAND_1"; FU8 1; FStr "ff:ff:ff:ff"; FInt 32]]).
Proof.
  destruct (simple_reads_card (mk_device demo_reader Simple.make) demo_bits (clock_at 0)
    (demo_idle _) ltac:(cbn; lia)) as (d' & H & _).
  exists d'. exact H.
Defined.

(** Keys 1, 2, 3, 4 then [#] on a 4-bit keypad. *)
Lemma pin_typed_witness :
  exists d', device_run (mk_device demo_reader (PinNBits.make (NbBits := 4) (clock_at 0) 2500 "#"))
      (typing 4 demo_reader [(1, clock_at 1); (2, clock_at 2); (3, clock_at 3); (4, clock_at 4)] ++
       frame_events demo_reader (key_frame 4 11) (clock_at 5)) =
    Ret (d', [[FStr "S_WIEGAND_1"; FU8 2; FStr "1234"]]).
Proof.
  destruct (pin_typed 4 (mk_device demo_reader (PinNBits.make (NbBits := 4) (clock_at 0) 2500 "#"))
    [(1, clock_at 1); (2, clock_at 2); (3, clock_at 3); (4, clock_at 4)] 11 (clock_at 5))
    as (d' & H & _).
  - left; reflexivity.
  - apply demo_idle.
  - reflexivity.
  - reflexivity.
  - discriminate.
  - repeat constructor; try (cbn; lia); vm_compute; discriminate.
  - lia.
  - reflexivity.
  - exists d'. exact H.
Defined.

Lemma buffered_pin_witness :
  PinBuffered.timeout (clock_at 0) PinBuffered.make (set_input demo_reader zero_buffer 26) = Fault BadShift.
Proof.
  apply buffered_pin_shifts_by_minus_one; [|reflexivity].
  split; [reflexivity| |cbn; lia]. apply (ok_bytes _ demo_reader_ok).
Defined.
