(* ===== verification/Autodetect.v ===== *)
(** The AUTODETECT mode of a Wiegand reader: what a device running
    [Strategies.Autodetect] sends for a card, for a PIN and for a card followed
    by a PIN, and the state in which it dereferences a null PIN strategy. *)
From Stdlib Require Import ZArith Lia Ascii String.
From stdpp Require Import base tactics numbers list strings.
From S2P Require Import Prelude Reader Strategies Device.
Import WiegandReaderImpl.
Import Strategies.Autodetect(t, pin_strategy, read_card_strategy_, read_pin_strategy_, delay_,
  time_card_read_, last_pin_read_, reading_pin_, reading_card_, ready_, pin_key_end_, nowait_,
  build_strategy, with_pin, with_card, with_ready, check_pin, check_timeout, pin_text).

Open Scope Z_scope.

(** * The PIN strategy an Autodetect strategy holds *)

Definition width (x : pin_strategy) : Z := match x with inl _ => 4 | inr _ => 8 end.
Definition typed (x : pin_strategy) : list ascii :=
  match x with inl a => PinNBits.inputs_ a | inr b => PinNBits.inputs_ b end.
Definition end_key (x : pin_strategy) : ascii :=
  match x with inl a => PinNBits.pin_end_key_ a | inr b => PinNBits.pin_end_key_ b end.

(** [reading_pin_] promises that there is a strategy reading the PIN: what
    [check_timeout] relies on. *)
Definition pin_held (s : t) : Prop := reading_pin_ s = true -> is_Some (read_pin_strategy_ s).

(** The state a PIN is typed in: a strategy of width [n] holding the keys so far. *)
Record typing_pin (n : Z) (pin : list ascii) (s : t) : Prop := {
  tp_reading : reading_pin_ s = true;
  tp_ready : ready_ s = false;
  tp_pin : exists x, read_pin_strategy_ s = Some x /\ width x = n /\ typed x = pin /\
    end_key x = pin_key_end_ s /\ completed x = false;
}.

(** The state before any key: no PIN strategy yet. *)
Record no_pin (s : t) : Prop := {
  np_ready : ready_ s = false;
  np_pin : read_pin_strategy_ s = None;
}.

(** What typing does not change: the card that was read and the configuration. *)
Definition same_card (s s' : t) : Prop :=
  read_card_strategy_ s' = read_card_strategy_ s /\ pin_key_end_ s' = pin_key_end_ s /\
  delay_ s' = delay_ s /\ nowait_ s' = nowait_ s.

(** A key, the clock of its tick, and the idle ticks until the next key. *)
Record press := mk_press { key : Z; pressed_at : clock; pause : list clock }.

(** An idle tick at which a reader that waits for a PIN has not waited longer than its
    delay, since the instant [last] that the check of the timer [p] compares it with. *)
Definition in_time (s : t) (p : site) (last : Z) (clk : clock) : Prop :=
  nowait_ s = false /\ elapsed_ms (clk p) last <= delay_ s.

(** A key of the PIN, other than the end key, followed by a pause within the delay. *)
Definition press_ok (s : t) (k : press) : Prop :=
  0 <= key k < 16 /\ key_char (key k) <> pin_key_end_ s /\
  Forall (in_time s AutoCheckPin (pressed_at k AutoPinRead)) (pause k).

(** Typing at any pace. *)
Definition typing_slowly (n : Z) (r : reader) (keys : list press) : list event :=
  concat (map (fun k => frame_events r (key_frame n (key k)) (pressed_at k) ++ map Tick (pause k)) keys).

(** The two messages that end a credential. *)
Definition card_pin_message (r : reader) (card : Simple.t) (pin : list ascii) : message :=
  [source_frame r; FU8 WIEGAND_CARD_PIN; FStr (Simple.card_id_ card);
   FInt (Simple.nb_bits_ card); FStr (text pin)].

(** ** Lemmas *)

Lemma pin_strategy_key clk x r k :
  0 <= k < 16 -> reader_ok r -> clean r -> received r = key_frame (width x) k ->
  counter r = width x -> completed x = false ->
  exists x', timeout clk x r = Ret (x', read_reset r) /\ width x' = width x /\
    end_key x' = end_key x /\
    typed x' = (if Ascii.eqb (key_char k) (end_key x) then typed x else typed x ++ [key_char k]) /\
    completed x' = (Ascii.eqb (key_char k) (end_key x) && bool_decide (typed x <> [])).
Proof.
  intros Hk Hok Hcl Hrec Hc Hcomp.
  destruct x as [a|b]; cbn [width] in *.
  - change (timeout clk (inl a : pin_strategy) r) with (on_left (B := PinNBits.t 8) <$> PinNBits.timeout clk a r).
    rewrite (pin_timeout_key 4 _ _ _ k) by auto. eexists. split; [done|]. cbn in *.
    repeat case_match; done.
  - change (timeout clk (inr b : pin_strategy) r) with (on_right (A := PinNBits.t 4) <$> PinNBits.timeout clk b r).
    rewrite (pin_timeout_key 8 _ _ _ k) by auto. eexists. split; [done|]. cbn in *.
    repeat case_match; done.
Qed.

(** An idle tick at the PIN strategy. *)
Lemma pin_strategy_idle clk x r :
  counter r = 0 -> typed x = [] -> completed x = false ->
  exists x', timeout clk x r = Ret (x', r) /\ width x' = width x /\ end_key x' = end_key x /\
    typed x' = [] /\ completed x' = false.
Proof.
  intros Hc Ht Hx. destruct x as [a|b]; cbn in *; unfold PinNBits.timeout; rewrite Hc; cbn;
    eexists; (split; [done|]); case_match; cbn; rewrite ?Ht; done.
Qed.

Lemma counter_key r n : n = 4 \/ n = 8 -> counter r = n ->
  (counter r =? 4) || (counter r =? 8) = true.
Proof. by intros [->| ->] ->. Qed.

(** One key before the end key, from the state before any key or while typing. *)
Lemma autodetect_key n (d : device t) pin k clk :
  n = 4 \/ n = 8 -> 0 <= k < 16 -> idle d ->
  (no_pin (strategy d) /\ pin = [] \/ typing_pin n pin (strategy d)) ->
  key_char k <> pin_key_end_ (strategy d) ->
  exists d', device_run d (frame_events (rd d) (key_frame n k) clk) = Ret (d', []) /\
    rd d' = read_reset (rd d) /\ typing_pin n (pin ++ [key_char k]) (strategy d') /\
    same_card (strategy d) (strategy d') /\ last_pin_read_ (strategy d') = clk AutoPinRead.
Proof.
  intros Hn Hk Hd Hs Hend. pose proof (key_frame_length n k Hn) as Hl.
  destruct (device_frame d (key_frame n k) clk Hd) as (r' & -> & Hok & Hcl & Hw & Hc & Hrec); [lia|].
  rewrite Hl in Hc. unfold device_timeout. cbn [rd strategy].
  change (timeout clk (strategy d) r') with (Autodetect.timeout clk (strategy d) r').
  unfold Autodetect.timeout. rewrite (counter_key r' n) by done.
  assert (Hx : exists x, (match read_pin_strategy_ (strategy d) with
      | None => build_strategy clk (strategy d) (counter r') | Some pin => Ret (Some pin) end)
      = Ret (Some x) /\ width x = n /\ typed x = pin /\
      end_key x = pin_key_end_ (strategy d) /\ completed x = false).
  { destruct Hs as [[[Hr Hp] ->]|[_ _ (x & Hp & Hx)]]; rewrite Hp; [|eauto].
    rewrite Hc. destruct Hn as [->| ->]; cbn; eexists; (split; [done|]); done. }
  assert (Hready : ready_ (strategy d) = false) by (destruct Hs as [[[? ?] ?]|[? ? ?]]; done).
  destruct Hx as (x & -> & Hwx & Htx & Hex & Hcx). cbn [mbind outcome_bind deref].
  destruct (pin_strategy_key clk x r' k Hk) as (x' & -> & Hwx' & Hex' & Htx' & Hcx'); [by rewrite ?Hwx..|].
  rewrite Hex, (proj2 (Ascii.eqb_neq _ _)) in Htx', Hcx' by done. rewrite andb_false_l in Hcx'.
  cbn [mbind outcome_bind]. rewrite Hcx'. cbn. rewrite Hready. cbn.
  eexists; split; [done|]. cbn. rewrite (wiring_reset _ _ Hw). split; [done|]. split; [|done].
  split; [done|done|]. exists x'. cbn. by rewrite Hwx', Htx', Hex', Hwx, Htx, Hex.
Qed.

(** An idle tick in time changes nothing: while the reader waits for a first key, and between
    two keys. *)
Lemma autodetect_wait_card (d : device t) clk :
  counter (rd d) = 0 -> ready_ (strategy d) = false -> reading_pin_ (strategy d) = false ->
  in_time (strategy d) AutoCheckCard (time_card_read_ (strategy d)) clk ->
  device_timeout clk d = Ret (d, []).
Proof.
  intros Hc Hr Hp [Hnw Hd]. unfold device_timeout. cbn [timeout autodetect_strategy]. unfold Autodetect.timeout.
  rewrite Hc. cbn [orb negb Z.eqb]. unfold check_timeout, check_pin. rewrite Hp. cbn -[elapsed_ms]. rewrite Hnw, (proj2 (Z.ltb_ge _ _) Hd).
  cbn. rewrite Hr. by destruct d.
Qed.

Lemma autodetect_wait_key n pin (d : device t) clk :
  counter (rd d) = 0 -> typing_pin n pin (strategy d) ->
  in_time (strategy d) AutoCheckPin (last_pin_read_ (strategy d)) clk ->
  device_timeout clk d = Ret (d, []).
Proof.
  intros Hc [Hp Hr _] [Hnw Hd]. unfold device_timeout. cbn [timeout autodetect_strategy]. unfold Autodetect.timeout.
  rewrite Hc. cbn [orb negb Z.eqb]. unfold check_timeout, check_pin. rewrite Hp, (proj2 (Z.ltb_ge _ _) Hd). cbn -[elapsed_ms]. rewrite Hnw.
  destruct (_ <? elapsed_ms (clk AutoCheckCard) _); cbn -[elapsed_ms]; rewrite ?(proj2 (Z.ltb_ge _ _) Hd); cbn; rewrite Hr; by destruct d.
Qed.

Lemma device_waits (d : device t) ts :
  Forall (fun clk => device_timeout clk d = Ret (d, [])) ts -> device_run d (map Tick ts) = Ret (d, []).
Proof.
  unfold device_run. induction 1 as [|clk ts Hd _ IH]; [done|].
  cbn [map foldM device_step]. rewrite Hd. cbn [mbind outcome_bind app]. exact IH.
Qed.

Lemma idle_of_reset (d d' : device t) : idle d -> rd d' = read_reset (rd d) -> idle d'.
Proof. intros Hd Hr. destruct d' as [r s]. cbn in Hr. rewrite Hr. apply idle_reset, Hd. Qed.

Lemma same_card_trans s1 s2 s3 : same_card s1 s2 -> same_card s2 s3 -> same_card s1 s3.
Proof. unfold same_card. intuition congruence. Qed.

Lemma in_time_same s s' p last clk : same_card s s' -> in_time s p last clk -> in_time s' p last clk.
Proof. intros (_ & _ & Hd & Hn) [H1 H2]. split; congruence. Qed.

Lemma press_ok_same s s' k : same_card s s' -> press_ok s k -> press_ok s' k.
Proof.
  intros Hs (Hk & He & Hp). split_and!; [apply Hk..| |].
  - destruct Hs as (_ & -> & _). exact He.
  - eapply Forall_impl; [exact Hp|]. intros clk. by apply in_time_same.
Qed.

(** One key and the pause after it. *)
Lemma autodetect_press n (d : device t) pin k :
  n = 4 \/ n = 8 -> idle d ->
  (no_pin (strategy d) /\ pin = [] \/ typing_pin n pin (strategy d)) -> press_ok (strategy d) k ->
  exists d', device_run d (frame_events (rd d) (key_frame n (key k)) (pressed_at k) ++ map Tick (pause k)) = Ret (d', []) /\
    rd d' = read_reset (rd d) /\ typing_pin n (pin ++ [key_char (key k)]) (strategy d') /\
    same_card (strategy d) (strategy d').
Proof.
  intros Hn Hd Hs (Hk & Hend & Hp).
  destruct (autodetect_key n d pin (key k) (pressed_at k)) as (d' & Hrun & Hr & Ht & Hc & Hl); [done..|].
  exists d'. split_and!; [|done..]. rewrite (device_run_seq _ _ _ _ _ Hrun), device_waits; [done|].
  eapply Forall_impl; [exact Hp|]. intros clk Hclk. eapply autodetect_wait_key; [|exact Ht|].
  - by apply (idle_of_reset d d').
  - rewrite Hl. by eapply in_time_same.
Qed.

Lemma autodetect_typing n (d : device t) keys pin :
  n = 4 \/ n = 8 -> idle d ->
  (no_pin (strategy d) /\ pin = [] \/ typing_pin n pin (strategy d)) -> keys <> [] ->
  Forall (press_ok (strategy d)) keys ->
  exists d', device_run d (typing_slowly n (rd d) keys) = Ret (d', []) /\
    rd d' = read_reset (rd d) /\
    typing_pin n (pin ++ map (fun k => key_char (key k)) keys) (strategy d') /\
    same_card (strategy d) (strategy d').
Proof.
  intros Hn. revert d pin. induction keys as [|k keys IH]; intros d pin Hd Hs Hne Hk; [done|].
  apply Forall_cons in Hk as [Hk0 Hk].
  unfold typing_slowly. cbn [map concat].
  destruct (autodetect_press n d pin k) as (d1 & Hrun & Hr1 & Ht1 & Hc1); [done..|].
  rewrite (device_run_seq _ _ _ _ _ Hrun).
  destruct keys as [|kc keys].
  { cbn. exists d1. done. }
  assert (Hd1 : idle d1) by (by apply (idle_of_reset d d1)).
  destruct (IH d1 (pin ++ [key_char (key k)]) Hd1) as (d' & Hrun' & Hr' & Ht' & Hc').
  { by right. } { done. } { eapply Forall_impl; [exact Hk|]. intros x. by apply press_ok_same. }
  assert (Ht : typing_slowly n (rd d) (kc :: keys) = typing_slowly n (rd d1) (kc :: keys)) by (by rewrite Hr1).
  unfold typing_slowly in Ht, Hrun'. rewrite Ht, Hrun'. cbn. exists d'.
  split; [done|]. split; [by rewrite Hr', Hr1|].
  split; [by rewrite <- app_assoc in Ht'|]. by eapply same_card_trans.
Qed.

(** The end key of a PIN: the message depends on whether a card was read. *)
Lemma autodetect_end n (d : device t) pin k clk :
  n = 4 \/ n = 8 -> 0 <= k < 16 -> idle d -> typing_pin n pin (strategy d) -> pin <> [] ->
  key_char k = pin_key_end_ (strategy d) ->
  exists d', device_run d (frame_events (rd d) (key_frame n k) clk) =
    Ret (d', [if Simple.nb_bits_ (read_card_strategy_ (strategy d)) =? 0
              then pin_message (rd d) pin
              else card_pin_message (rd d) (read_card_strategy_ (strategy d)) pin]) /\
    rd d' = read_reset (rd d) /\ no_pin (strategy d') /\ reading_pin_ (strategy d') = false.
Proof.
  intros Hn Hk Hd [Hs1 Hs2 (x & Hp & Hwx & Htx & Hex & Hcx)] Hne Hend.
  pose proof (key_frame_length n k Hn) as Hl.
  destruct (device_frame d (key_frame n k) clk Hd) as (r' & -> & Hok & Hcl & Hw & Hc & Hrec); [lia|].
  rewrite Hl in Hc. unfold device_timeout. cbn [rd strategy].
  change (timeout clk (strategy d) r') with (Autodetect.timeout clk (strategy d) r').
  unfold Autodetect.timeout. rewrite (counter_key r' n) by done. rewrite Hp.
  cbn [mbind outcome_bind deref].
  destruct (pin_strategy_key clk x r' k Hk) as (x' & -> & Hwx' & Hex' & Htx' & Hcx'); [by rewrite ?Hwx..|].
  rewrite Hex, (proj2 (Ascii.eqb_eq _ _)) in Htx', Hcx' by done.
  rewrite bool_decide_eq_true_2 in Hcx' by (by rewrite Htx). rewrite andb_true_l in Hcx'.
  cbn [mbind outcome_bind]. rewrite Hcx'.
  cbn [mbind outcome_bind completed signal autodetect_strategy ready_ with_pin].
  unfold Autodetect.signal, pin_text. cbn [read_card_strategy_ read_pin_strategy_ with_pin].
  assert (Hpin : get_pin x' = text pin) by (rewrite <- Htx, <- Htx'; by destruct x').
  rewrite Hpin, text_nonempty by done. cbn.
  rewrite (wiring_reset _ _ Hw). rewrite andb_true_r.
  autorewrite with leosac. destruct (_ =? 0); cbn; eexists; (split; [done|]); done.
Qed.

(** A card's frame: the card is kept, nothing is sent yet. *)
Lemma autodetect_card (d : device t) bits clk :
  idle d -> ready_ (strategy d) = false ->
  (0 < length bits <= 128)%nat -> length bits <> 4%nat -> length bits <> 8%nat ->
  device_run d (frame_events (rd d) bits clk) =
  Ret (mk_device (read_reset (rd d))
    (with_card (strategy d)
       {| Simple.ready_ := true; Simple.nb_bits_ := Z.of_nat (length bits);
          Simple.card_id_ := card_text bits |} (clk AutoCardRead)), []).
Proof.
  intros Hd Hr Hlen H4 H8.
  destruct (device_frame d bits clk Hd) as (r' & -> & Hok & Hcl & Hw & Hc & Hrec); [lia|].
  unfold device_timeout. cbn [rd strategy].
  change (timeout clk (strategy d) r') with (Autodetect.timeout clk (strategy d) r').
  unfold Autodetect.timeout. rewrite Hc.
  rewrite !(proj2 (Z.eqb_neq _ _)) by lia. cbn [orb negb].
  change (timeout clk (read_card_strategy_ (strategy d)) r')
    with (Simple.timeout clk (read_card_strategy_ (strategy d)) r').
  rewrite (simple_timeout_frame _ _ _ bits) by (done || lia). cbn. rewrite Hr. cbn.
  by rewrite (wiring_reset _ _ Hw).
Qed.

(** The end key with nothing typed: the PIN strategy stays, waiting. *)
Lemma autodetect_end_empty n (d : device t) k clk :
  n = 4 \/ n = 8 -> 0 <= k < 16 -> idle d -> no_pin (strategy d) ->
  key_char k = pin_key_end_ (strategy d) ->
  exists x, device_run d (frame_events (rd d) (key_frame n k) clk) =
    Ret (mk_device (read_reset (rd d)) (with_pin (strategy d) x (clk AutoPinRead) true false), []) /\
    typed x = [] /\ completed x = false.
Proof.
  intros Hn Hk Hd [Hr Hp] Hend. pose proof (key_frame_length n k Hn) as Hl.
  destruct (device_frame d (key_frame n k) clk Hd) as (r' & -> & Hok & Hcl & Hw & Hc & Hrec); [lia|].
  rewrite Hl in Hc. unfold device_timeout. cbn [rd strategy].
  change (timeout clk (strategy d) r') with (Autodetect.timeout clk (strategy d) r').
  unfold Autodetect.timeout. rewrite (counter_key r' n), Hp by done.
  assert (Hb : exists x, build_strategy clk (strategy d) (counter r') = Ret (Some x) /\
    width x = n /\ typed x = [] /\ end_key x = pin_key_end_ (strategy d) /\ completed x = false).
  { rewrite Hc. destruct Hn as [->| ->]; cbn; eexists; (split; [done|]); done. }
  destruct Hb as (x & -> & Hwx & Htx & Hex & Hcx). cbn [mbind outcome_bind deref].
  destruct (pin_strategy_key clk x r' k Hk) as (x' & -> & Hwx' & Hex' & Htx' & Hcx'); [by rewrite ?Hwx..|].
  rewrite Hex, (proj2 (Ascii.eqb_eq _ _)) in Htx', Hcx' by done.
  rewrite Htx, bool_decide_eq_false_2, andb_false_r in Hcx' by auto.
  cbn [mbind outcome_bind]. rewrite Hcx'. cbn. rewrite Hr. cbn.
  exists x'. split; [by rewrite (wiring_reset _ _ Hw)|]. split; [congruence|done].
Qed.

(** An idle tick when the PIN strategy is gone but [reading_pin_] is not. *)
Lemma autodetect_null clk (d : device t) :
  counter (rd d) = 0 -> reading_pin_ (strategy d) = true ->
  read_pin_strategy_ (strategy d) = None ->
  delay_ (strategy d) < elapsed_ms (clk AutoCheckPin) (last_pin_read_ (strategy d)) ->
  device_timeout clk d = Fault NullDeref.
Proof.
  intros Hc Hrp Hp He. unfold device_timeout. cbn -[elapsed_ms].
  unfold Autodetect.timeout. rewrite Hc. cbn -[elapsed_ms].
  unfold check_timeout, check_pin. rewrite Hrp, Hp, (proj2 (Z.ltb_lt _ _) He). done.
Qed.

(** The idle tick that sends the card while an empty PIN is pending. *)
Lemma autodetect_flush clk (d : device t) x card :
  counter (rd d) = 0 -> reading_pin_ (strategy d) = true -> ready_ (strategy d) = false ->
  read_pin_strategy_ (strategy d) = Some x -> typed x = [] -> completed x = false ->
  read_card_strategy_ (strategy d) = card -> Simple.ready_ card = true ->
  Simple.nb_bits_ card <> 0 ->
  delay_ (strategy d) < elapsed_ms (clk AutoCheckCard) (time_card_read_ (strategy d)) ->
  delay_ (strategy d) < elapsed_ms (clk AutoCheckPin) (last_pin_read_ (strategy d)) ->
  exists d', device_timeout clk d =
    Ret (d', [[source_frame (rd d); FU8 SIMPLE_WIEGAND; FStr (Simple.card_id_ card);
               FInt (Simple.nb_bits_ card)]]) /\
    counter (rd d') = 0 /\ reading_pin_ (strategy d') = true /\
    read_pin_strategy_ (strategy d') = None /\ delay_ (strategy d') = delay_ (strategy d) /\
    last_pin_read_ (strategy d') = last_pin_read_ (strategy d).
Proof.
  intros Hc Hrp Hr Hp Ht Hx Hcard Hcr Hnb He1 He2.
  unfold device_timeout. cbn [timeout completed signal reset autodetect_strategy].
  unfold Autodetect.timeout. rewrite Hc. cbn [orb negb Z.eqb]. unfold check_timeout, check_pin.
  rewrite Hrp, Hp, (proj2 (Z.ltb_lt _ _) He2).
  cbn [mbind outcome_bind deref andb orb].
  destruct (pin_strategy_idle clk x (rd d) Hc Ht Hx) as (x' & -> & _ & _ & Ht' & Hx').
  cbn [mbind outcome_bind]. rewrite Hx'. cbn -[elapsed_ms].
  rewrite (proj2 (Z.ltb_lt _ _) He1), (proj2 (Z.ltb_lt _ _) He2). cbn.
  rewrite Hcard, Hcr, (proj2 (Z.eqb_neq _ _)) by done.
  cbn. unfold pin_text. destruct x' as [a|b]; cbn in Ht'; cbn; rewrite Ht', Hcard; cbn;
    rewrite (proj2 (Z.eqb_neq _ _)) by done; cbn; eauto 10.
Qed.

(** ** Properties *)

(** C8: a card and then a PIN on a reader in AUTODETECT mode, 4-bit or 8-bit keypad alike.
    However many times the reader's timer runs meanwhile, if none of these finds that more
    than the delay has passed since the card, before the first key, or since the last
    key, after it, and the reader is not configured to send a card at once ([nowait]) when the timer does run, one message
    carries the card's id, its number of bits and the PIN, and the reader is idle again with
    no PIN pending. *)
Theorem autodetect_card_then_pin n (d : device t) bits clk0 pause0 keys kend clk1 :
  n = 4 \/ n = 8 -> idle d -> no_pin (strategy d) -> pin_held (strategy d) ->
  (0 < length bits <= 128)%nat -> length bits <> 4%nat -> length bits <> 8%nat ->
  Forall (in_time (strategy d) AutoCheckCard (clk0 AutoCardRead)) pause0 ->
  keys <> [] -> Forall (press_ok (strategy d)) keys ->
  0 <= kend < 16 -> key_char kend = pin_key_end_ (strategy d) ->
  exists d', device_run d (frame_events (rd d) bits clk0 ++ map Tick pause0 ++ typing_slowly n (rd d) keys ++
                          frame_events (rd d) (key_frame n kend) clk1) =
    Ret (d', [[source_frame (rd d); FU8 WIEGAND_CARD_PIN; FStr (card_text bits);
               FInt (Z.of_nat (length bits)); FStr (text (map (fun k => key_char (key k)) keys))]]) /\
    idle d' /\ no_pin (strategy d') /\ pin_held (strategy d').
Proof.
  intros Hn Hd Hnp Hph Hlen H4 H8 Hp0 Hne Hk Hkend Hend.
  pose proof (autodetect_card d bits clk0 Hd (np_ready _ Hnp) Hlen H4 H8) as Hrun0.
  set (d0 := mk_device _ _) in Hrun0.
  assert (Hd0 : idle d0) by (by eapply idle_of_reset).
  rewrite (device_run_seq _ _ _ _ _ Hrun0).
  assert (Hw0 : device_run d0 (map Tick pause0) = Ret (d0, [])).
  { apply device_waits. eapply Forall_impl; [exact Hp0|]. intros clk Hclk.
    apply autodetect_wait_card; [apply Hd0|by destruct Hnp| |exact Hclk]. cbn.
    destruct (reading_pin_ (strategy d)) eqn:E; [|done]. destruct (Hph E) as [x Hx]. destruct Hnp. congruence. }
  rewrite (device_run_seq _ _ _ _ _ Hw0).
  destruct (autodetect_typing n d0 keys [] Hn Hd0) as (d1 & Hrun1 & Hr1 & Ht1 & Hc1 & He1 & _).
  { left. split; [|done]. by destruct Hnp. } { done. } { done. }
  assert (Hd1 : idle d1) by (by eapply idle_of_reset).
  change (typing_slowly n (rd d) keys) with (typing_slowly n (rd d0) keys).
  rewrite (device_run_seq _ _ _ _ _ Hrun1).
  destruct (autodetect_end n d1 _ kend clk1 Hn Hkend Hd1 Ht1) as (d' & Hrun' & Hr' & Hn' & Hh').
  { by destruct keys. } { by rewrite He1. }
  assert (Hw : same_wiring (rd d) (rd d1)) by (rewrite Hr1; done).
  rewrite <- (frame_events_wiring _ _ _ _ Hw), Hrun'.
  exists d'. split.
  - rewrite Hc1. cbn. rewrite (proj2 (Z.eqb_neq _ _)) by lia.
    unfold card_pin_message. by rewrite (source_frame_wiring _ _ Hw).
  - split; [by eapply idle_of_reset|]. split; [done|]. intros H. congruence.
Qed.

(** with [nowait], the first idle tick after a card sends it alone. *)
Theorem autodetect_nowait (d : device t) bits clk0 clk1 :
  idle d -> no_pin (strategy d) -> reading_pin_ (strategy d) = false -> nowait_ (strategy d) = true ->
  (0 < length bits <= 128)%nat -> length bits <> 4%nat -> length bits <> 8%nat ->
  exists d', device_run d (frame_events (rd d) bits clk0 ++ [Tick clk1]) =
    Ret (d', [card_message (rd d) bits]) /\
    idle d' /\ no_pin (strategy d') /\ pin_held (strategy d').
Proof.
  intros Hd Hnp Hrp Hnw Hlen H4 H8.
  rewrite (device_run_seq _ _ _ _ _ (autodetect_card d bits clk0 Hd (np_ready _ Hnp) Hlen H4 H8)).
  unfold device_run, device_timeout. cbn -[elapsed_ms].
  unfold check_timeout, check_pin. cbn -[elapsed_ms]. rewrite Hrp. cbn -[elapsed_ms].
  rewrite Hnw, orb_true_r. cbn. rewrite (proj2 (Z.eqb_neq _ _)) by lia. cbn.
  unfold Autodetect.signal, pin_text. cbn. rewrite (np_pin _ Hnp). cbn.
  rewrite (proj2 (Z.eqb_neq _ _)) by lia. cbn.
  eexists. split; [done|]. split; [by apply idle_reset, Hd|]. split; [done|].
  intros H. cbn in H. congruence.
Qed.

(** a card alone: once the card and the keypad have both been silent for
    longer than the delay, the next idle tick sends exactly the card, provided
    no PIN is being typed. *)
Theorem autodetect_card_alone (d : device t) bits clk0 clk1 :
  idle d -> no_pin (strategy d) -> reading_pin_ (strategy d) = false ->
  (0 < length bits <= 128)%nat -> length bits <> 4%nat -> length bits <> 8%nat ->
  delay_ (strategy d) < elapsed_ms (clk1 AutoCheckCard) (clk0 AutoCardRead) ->
  delay_ (strategy d) < elapsed_ms (clk1 AutoCheckPin) (last_pin_read_ (strategy d)) ->
  exists d', device_run d (frame_events (rd d) bits clk0 ++ [Tick clk1]) =
    Ret (d', [card_message (rd d) bits]) /\
    idle d' /\ no_pin (strategy d') /\ pin_held (strategy d').
Proof.
  intros Hd Hnp Hrp Hlen H4 H8 He1 He2.
  pose proof (autodetect_card d bits clk0 Hd (np_ready _ Hnp) Hlen H4 H8) as Hrun0.
  rewrite (device_run_seq _ _ _ _ _ Hrun0). clear Hrun0.
  unfold device_run, device_timeout. cbn -[elapsed_ms].
  unfold check_timeout, check_pin. cbn -[elapsed_ms]. rewrite Hrp. cbn -[elapsed_ms].
  rewrite (proj2 (Z.ltb_lt _ _) He1), (proj2 (Z.ltb_lt _ _) He2). cbn.
  rewrite (proj2 (Z.eqb_neq _ _)) by lia. cbn.
  unfold Autodetect.signal, pin_text. cbn. rewrite (np_pin _ Hnp). cbn.
  rewrite (proj2 (Z.eqb_neq _ _)) by lia. cbn.
  eexists. split; [done|]. split; [by apply idle_reset, Hd|]. split; [done|].
  intros H. cbn in H. congruence.
Qed.

(** [reset] keeps [reading_pin_] while it drops the PIN strategy. A card
    followed by the end key alone therefore kills the reader: when the delay
    has passed the card is sent, and the idle tick after that calls the null
    PIN strategy. *)
Theorem autodetect_end_key_after_card (d : device t) n bits kend clk0 clk1 clk2 clk3 :
  n = 4 \/ n = 8 -> idle d -> no_pin (strategy d) ->
  (0 < length bits <= 128)%nat -> length bits <> 4%nat -> length bits <> 8%nat ->
  0 <= kend < 16 -> key_char kend = pin_key_end_ (strategy d) ->
  delay_ (strategy d) < elapsed_ms (clk2 AutoCheckCard) (clk0 AutoCardRead) ->
  delay_ (strategy d) < elapsed_ms (clk2 AutoCheckPin) (clk1 AutoPinRead) ->
  delay_ (strategy d) < elapsed_ms (clk3 AutoCheckPin) (clk1 AutoPinRead) ->
  (exists d', device_run d (frame_events (rd d) bits clk0 ++
      frame_events (rd d) (key_frame n kend) clk1 ++ [Tick clk2]) =
    Ret (d', [card_message (rd d) bits])) /\
  device_run d (frame_events (rd d) bits clk0 ++ frame_events (rd d) (key_frame n kend) clk1 ++
    [Tick clk2; Tick clk3]) = Fault NullDeref.
Proof.
  intros Hn Hd Hnp Hlen H4 H8 Hkend Hend He1 He2 He3.
  pose proof (autodetect_card d bits clk0 Hd (np_ready _ Hnp) Hlen H4 H8) as Hrun0.
  set (d0 := mk_device _ _) in Hrun0.
  assert (Hd0 : idle d0) by (by eapply idle_of_reset).
  destruct (autodetect_end_empty n d0 kend clk1 Hn Hkend Hd0) as (x & Hrun1 & Ht & Hx).
  { by destruct Hnp. } { done. }
  set (d1 := mk_device _ _) in Hrun1.
  destruct (autodetect_flush clk2 d1 x (read_card_strategy_ (strategy d0)))
    as (d2 & Hrun2 & Hc2 & Hrp2 & Hp2 & Hde2 & Hl2); [done..|cbn; lia|done|done|].
  assert (Hpre : forall es, device_run d (frame_events (rd d) bits clk0 ++
      frame_events (rd d) (key_frame n kend) clk1 ++ es) = device_run d1 es).
  { intros es. rewrite (device_run_seq _ _ _ _ _ Hrun0).
    change (frame_events (rd d)) with (frame_events (rd d0)).
    rewrite (device_run_seq _ _ _ _ _ Hrun1). by destruct (device_run d1 es) as [[]| |]. }
  rewrite !Hpre. unfold device_run. cbn [foldM device_step]. rewrite Hrun2.
  split; [by exists d2|]. cbn [mbind outcome_bind foldM device_step].
  rewrite autodetect_null; [done..|]. by rewrite Hde2, Hl2.
Qed.

(** ** Witnesses *)

Definition demo_auto : device t := mk_device demo_reader (Autodetect.make (clock_at 0) 2500 "#" false).
Definition ms (n : Z) : clock := clock_at (n * 1000000).

Definition demo_presses : list press :=
  [mk_press 4 (ms 2100) [ms 2150; ms 4500]; mk_press 2 (ms 4550) [ms 4600]].

Lemma autodetect_card_then_pin_witness :
  exists d', device_run demo_auto
      (frame_events demo_reader demo_bits (ms 10) ++ map Tick [ms 60; ms 2050] ++ typing_slowly 8 demo_reader demo_presses ++
       frame_events demo_reader (key_frame 8 11) (ms 7000)) =
    Ret (d', [[FStr "S_WIEGAND_1"; FU8 3; FStr "ff:ff:ff:ff"; FInt 32; FStr "42"]]).
Proof.
  destruct (autodetect_card_then_pin 8 demo_auto demo_bits (ms 10) [ms 60; ms 2050] demo_presses 11 (ms 7000))
    as (d' & H & _).
  - right; reflexivity.
  - apply demo_idle.
  - split; reflexivity.
  - discriminate.
  - cbn; lia.
  - discriminate.
  - discriminate.
  - repeat constructor; vm_compute; discriminate.
  - discriminate.
  - repeat constructor; vm_compute; discriminate.
  - lia.
  - reflexivity.
  - exists d'. exact H.
Defined.

Lemma autodetect_card_alone_witness :
  exists d', device_run demo_auto (frame_events demo_reader demo_bits (ms 10) ++ [Tick (ms 3000)]) =
    Ret (d', [[FStr "S_WIEGAND_1"; FU8 1; FStr "ff:ff:ff:ff"; FInt 32]]).
Proof.
  destruct (autodetect_card_alone demo_auto demo_bits (ms 10) (ms 3000)) as (d' & H & _).
  - apply demo_idle.
  - split; reflexivity.
  - reflexivity.
  - cbn; lia.
  - discriminate.
  - discriminate.
  - reflexivity.
  - reflexivity.
  - exists d'. exact H.
Defined.

Lemma autodetect_end_key_witness :
  device_run demo_auto (frame_events demo_reader demo_bits (ms 10) ++
    frame_events demo_reader (key_frame 4 11) (ms 500) ++ [Tick (ms 4000); Tick (ms 4050)]) =
  Fault NullDeref.
Proof.
  apply (autodetect_end_key_after_card demo_auto 4 demo_bits 11 (ms 10) (ms 500) (ms 4000) (ms 4050)).
  - left; reflexivity.
  - apply demo_idle.
  - split; reflexivity.
  - cbn; lia.
  - discriminate.
  - discriminate.
  - lia.
  - reflexivity.
  - reflexivity.
  - reflexivity.
  - reflexivity.
Defined.
