(* ===== verification/Timers.v ===== *)
(** Time points and the sleep of the modules that run timers:
    [src/tools/timeout.hpp], used by the main loops of
    [src/modules/pifacedigital/] and [src/modules/led-buzzer/].

    A time point is the 64-bit count of nanoseconds of [system_clock]. *)
From Stdlib Require Import ZArith Lia.
From stdpp Require Import base tactics numbers list.
From S2P Require Import Prelude.

Open Scope Z_scope.

(** [time_point::max()]. *)
Definition TIME_MAX : Z := 2 ^ 63 - 1.

(** Milliseconds, in nanoseconds. *)
Definition ms (d : Z) : Z := d * 1000000.

Definition in_int64 (z : Z) : bool := (- 2 ^ 63 <=? z) && (z <? 2 ^ 63).

(** [now + std::chrono::milliseconds(d)]: signed arithmetic, which must not
    overflow. *)
Definition add_ms (now d : Z) : outcome Z :=
  if in_int64 (ms d) && in_int64 (now + ms d) then Ret (now + ms d) else Fault Overflow.

(** The conversion of a 64-bit count to [int]. *)
Definition to_int (z : Z) : Z := (z + 2 ^ 31) `mod` 2 ^ 32 - 2 ^ 31.

(** The loop of [compute_timeout] over the time points. *)
Definition earliest (l : list Z) : Z := foldl (fun tp t => if t <? tp then t else tp) TIME_MAX l.

(** [compute_timeout]: milliseconds to sleep, -1 for ever. *)
Definition compute_timeout (now : Z) (l : list Z) : Z :=
  let tp := earliest l in
  if tp =? TIME_MAX then -1
  else let timeout := to_int (Z.quot (tp - now) 1000000) in
       if timeout <? 0 then 0 else timeout.

(** ** Lemmas *)

Lemma earliest_foldl a l :
  let e := foldl (fun tp t => if t <? tp then t else tp) a l in
  e <= a /\ (forall t, In t l -> e <= t) /\ (e = a \/ In e l).
Proof.
  revert a. induction l as [|x l IH]; intros a; cbn [foldl]; [split; [lia|]; split; [done|by left]|].
  destruct (IH (if x <? a then x else a)) as (H1 & H2 & H3). cbn zeta in *.
  revert H1 H2 H3. generalize (foldl (fun tp t => if t <? tp then t else tp) (if x <? a then x else a) l).
  intros e H1 H2 H3. destruct (Z.ltb_spec x a); (split; [lia|]; split;
    [intros t [<-|Ht]; [lia|by apply H2]|cbn; destruct H3; auto]).
Qed.

Lemma add_ms_Ret now d : 0 <= now < 2 ^ 62 -> 0 <= d < 2 ^ 31 -> add_ms now d = Ret (now + ms d).
Proof.
  intros Hn Hd. unfold add_ms, in_int64, ms.
  rewrite !(proj2 (Z.leb_le _ _)), !(proj2 (Z.ltb_lt _ _)) by lia. done.
Qed.

Lemma to_int_small z : - 2 ^ 31 <= z < 2 ^ 31 -> to_int z = z.
Proof. intros H. unfold to_int. rewrite Z.mod_small by lia. lia. Qed.

(** The milliseconds to a timer that is set fit an [int]. *)
Definition near (now t : Z) : Prop := t < TIME_MAX -> - ms (2 ^ 31) < t - now < ms (2 ^ 31).

(** how long a module that runs timers sleeps: for ever exactly when no
    timer is set; not at all when one is overdue; else less than a millisecond
    short of the earliest timer, and never past it - for timers within 24
    days of the present, the range of the [int] the milliseconds are counted in. *)
Theorem sleep_until_next now l :
  Forall (fun t => t <= TIME_MAX /\ near now t) l ->
  let s := compute_timeout now l in
  (s = -1 /\ Forall (fun t => t = TIME_MAX) l) \/
  exists t, In t l /\ Forall (fun u => t <= u) l /\ t < TIME_MAX /\
    if t <=? now then s = 0 else 0 <= s /\ now + ms s <= t < now + ms s + ms 1.
Proof.
  intros Hall. rewrite List.Forall_forall in Hall.
  destruct (earliest_foldl TIME_MAX l) as (Hm & Hle & Hin). fold (earliest l) in Hm, Hle, Hin.
  cbn zeta. unfold compute_timeout. destruct (Z.eqb_spec (earliest l) TIME_MAX) as [E|E].
  { left. split; [done|]. apply List.Forall_forall. intros t Ht. specialize (Hle t Ht).
    destruct (Hall t Ht). lia. }
  right. destruct Hin as [Hin|Hin]; [done|]. exists (earliest l). split; [done|].
  split; [by apply List.Forall_forall|]. split; [lia|].
  destruct (Hall _ Hin) as [_ Hn]. specialize (Hn ltac:(lia)). revert Hn. generalize (earliest l). clear.
  intros t Hn. unfold ms in *. destruct (Z.leb_spec t now) as [Ht|Ht].
  - assert (- 2 ^ 31 < Z.quot (t - now) 1000000 <= 0).
    { replace (t - now) with (- (now - t)) by lia. rewrite Z.quot_opp_l by lia.
      assert (0 <= Z.quot (now - t) 1000000 < 2 ^ 31)
        by (split; [apply Z.quot_pos; lia|apply Z.quot_lt_upper_bound; lia]). lia. }
    rewrite to_int_small by lia. destruct (Z.ltb_spec (Z.quot (t - now) 1000000) 0); lia.
  - assert (0 <= Z.quot (t - now) 1000000 < 2 ^ 31) by (split; [apply Z.quot_pos; lia|apply Z.quot_lt_upper_bound; lia]).
    rewrite to_int_small by lia. rewrite (proj2 (Z.ltb_ge _ _)) by lia.
    split; [lia|]. rewrite Z.quot_div_nonneg by lia.
    pose proof (Z.div_mod (t - now) 1000000 ltac:(lia)). pose proof (Z.mod_pos_bound (t - now) 1000000 ltac:(lia)). lia.
Qed.

(** a timer more than 24 days overdue - which is what a clock set forward
    leaves, as on a board without a battery that gets the time from the network
    after it started - can make the module sleep for days instead of not at
    all: the count of milliseconds is narrowed to [int]. *)
Theorem overdue_timer_sleeps now t k :
  0 < k < 2 ^ 31 -> now - t = ms (2 ^ 32 - k) -> t < TIME_MAX ->
  compute_timeout now [t] = k.
Proof.
  intros Hk Ht Hmax. unfold compute_timeout, earliest. cbn [foldl]. rewrite (proj2 (Z.ltb_lt _ _)) by lia.
  rewrite (proj2 (Z.eqb_neq _ _)) by lia. unfold ms in Ht.
  replace (t - now) with ((k - 2 ^ 32) * 1000000) by lia. rewrite Z.quot_mul by lia.
  assert (to_int (k - 2 ^ 32) = k) as ->; [|by rewrite (proj2 (Z.ltb_ge _ _)) by lia].
  unfold to_int. replace (k - 2 ^ 32 + 2 ^ 31) with (k + 2 ^ 31 + (-1) * 2 ^ 32) by lia.
  rewrite Z.mod_add, Z.mod_small by lia. lia.
Qed.

(** ** Witnesses *)

Lemma sleep_until_next_witness : compute_timeout 1000000000 [TIME_MAX; 3500000001; 9000000000] = 2500.
Proof.
  destruct (sleep_until_next 1000000000 [TIME_MAX; 3500000001; 9000000000]) as [[_ H]|(t & Ht & _ & Hm & Hs)].
  - repeat constructor; unfold TIME_MAX, ms; lia.
  - inversion H as [|? ? _ H']. inversion H' as [|? ? H'' _]. discriminate H''.
  - reflexivity.
Defined.

(** Started in 1970, set to the end of February. *)
Lemma overdue_timer_witness : compute_timeout (ms (2 ^ 32 - 1000000)) [0] = 1000000.
Proof. apply overdue_timer_sleeps; unfold ms, TIME_MAX; lia. Defined.
