(* ===== verification/Facades.v ===== *)
(** What modules say to each other: the facades of [src/hardware/facades/]
    ([FGPIO.cpp], [FAlarm.cpp], [FWiegandReader.cpp]), which talk to a device
    by request and reply, and the topics of the message bus.

    ZeroMQ is not part of the repository. A request sent to the socket a name
    is bound to changes the state of whoever answers: [Peers] is a parameter of
    the model. What a GPIO promises to its facade is the class [GpioCommands],
    which the piface and sysfs modules implement (Gpio.v, Sysfs.v), and
    [GpioPeer] when it also tells its state. A subscriber gets the messages
    that begin with one of its topics, which is what ZeroMQ documents:
    [BusLaws]. Times are in nanoseconds, durations in milliseconds. *)
From Stdlib Require Import ZArith Lia Ascii String.
From stdpp Require Import base tactics numbers list strings gmap.
From S2P Require Import Prelude.

Open Scope Z_scope.

(** * Requests and replies *)

(** [exchange name m w]: [m] is sent to the peer bound to [name]; the reply, if
    one ever comes. *)
Class Peers (W : Type) := { exchange : string -> message -> W -> W * option message }.

(** Code that talks to peers. *)
Definition io (W A : Type) : Type := W -> W * outcome A.

#[export] Instance io_ret {W} : MRet (io W) := fun A a w => (w, Ret a).
#[export] Instance io_bind {W} : MBind (io W) := fun A B k m w =>
  match m w with
  | (w', Ret a) => k a w'
  | (w', Throw e) => (w', Throw e)
  | (w', Fault f) => (w', Fault f)
  end.

Definition pure {W A} (m : outcome A) : io W A := fun w => (w, m).

(** What the world itself does. *)
Definition act {W A} (f : W -> W * outcome A) : io W A := f.

(** A range-based [for] over code that talks to peers. *)
Fixpoint foldIO {W A B} (f : A -> B -> io W A) (a : A) (l : list B) : io W A :=
  match l with
  | [] => mret a
  | b :: l' => a' ← f a b; foldIO f a' l'
  end.

Section facades.
Context {W : Type} `{Peers W}.

(** [send] and [receive]: without a reply the thread waits for ever. *)
Definition ask (name : string) (m : message) : io W message := fun w =>
  match exchange name m w with
  | (w', Some r) => (w', Ret r)
  | (w', None) => (w', Fault Blocked)
  end.

(** [send], [poll(5000)], the assertion that something came, and [receive]. *)
Definition ask_within (name : string) (m : message) : io W message := fun w =>
  match exchange name m w with
  | (w', Some r) => (w', Ret r)
  | (w', None) => (w', Fault AssertFailed)
  end.

(** [receive(std::string &)]. *)
Definition text_of (m : message) : io W string := '(s, _) ← pure (pop_str m); mret s.

End facades.

(** * FGPIO *)

Module FGPIO.

Record t := mk { gpio_name_ : string; lastupdate_ : Z }.

Definition make (gpio_name : string) : t := mk gpio_name 0.

Section fgpio.
Context {W : Type} `{Peers W}.

(** The body the commands share; [stamp] is the time of the update when the
    GPIO accepts. *)
Definition command (m : message) (stamp : Z) (g : t) : io W (bool * t) :=
  rep ← ask_within (gpio_name_ g) m;
  s ← text_of rep;
  mret (if String.eqb s "OK" then (true, mk (gpio_name_ g) stamp) else (false, g)).

Definition turnOn_for (now duration : Z) (g : t) : io W (bool * t) :=
  command [FStr "ON"; FInt64 duration] (now + duration * 1000000) g.
Definition turnOn (now : Z) (g : t) : io W (bool * t) := command [FStr "ON"] now g.
Definition turnOff (now : Z) (g : t) : io W (bool * t) := command [FStr "OFF"] now g.
Definition toggle (now : Z) (g : t) : io W (bool * t) := command [FStr "TOGGLE"] now g.

Definition isOn (g : t) : io W bool :=
  rep ← ask_within (gpio_name_ g) [FStr "STATE"];
  s ← text_of rep;
  if String.eqb s "ON" then mret true
  else _ ← pure (cassert (String.eqb s "OFF")); mret false.
Definition isOff (g : t) : io W bool := on ← isOn g; mret (negb on).

End fgpio.
End FGPIO.

(** * FAlarm *)

Definition ALARM_FORCED : Z := 1.
Definition STATE_RAISED : Z := 1.
Definition STATE_UNKNOWN : Z := 255.

Module FAlarm.
Section falarm.
Context {W : Type} `{Peers W}.

(** [raise]: the id of the alarm raised, empty when it was not. *)
Definition raise (name : string) (type : Z) (reason : string) : io W string :=
  rep ← ask name [FStr "RAISE"; FU8 type; FStr reason];
  '(r, rep) ← pure (pop_str rep);
  if String.eqb r "OK" && (Z.of_nat (length rep) =? 1) then '(alarm, _) ← pure (pop_str rep); mret alarm
  else mret "".

Definition state (name alarm : string) : io W Z :=
  rep ← ask name [FStr "GET_STATE"; FStr alarm];
  '(r, rep) ← pure (pop_str rep);
  if String.eqb r "OK" && (Z.of_nat (length rep) =? 1) then '(st, _) ← pure (pop_u8 rep); mret st
  else mret STATE_UNKNOWN.

Definition set_state (name alarm : string) (st : Z) : io W bool :=
  rep ← ask name [FStr "SET_STATE"; FStr alarm; FU8 st];
  '(r, _) ← pure (pop_str rep);
  mret (String.eqb r "OK").

Definition disarm (name alarm : string) : io W bool :=
  rep ← ask name [FStr "DISARM"; FStr alarm];
  '(r, _) ← pure (pop_str rep);
  mret (String.eqb r "OK").

End falarm.
End FAlarm.

(** * FWiegandReader *)

Module FWiegandReader.
Section fwiegand.
Context {W : Type} `{Peers W}.

Definition send_to_backend (name : string) (m : message) : io W bool :=
  rep ← ask name m;
  s ← text_of rep;
  _ ← pure (cassert (String.eqb s "OK" || String.eqb s "KO"));
  mret (String.eqb s "OK").

Definition greenLedOn (name : string) : io W bool := send_to_backend name [FStr "GREEN_LED"; FStr "ON"].
Definition greenLedOff (name : string) : io W bool := send_to_backend name [FStr "GREEN_LED"; FStr "OFF"].
Definition greenLedBlink (name : string) (duration speed : Z) : io W bool :=
  send_to_backend name [FStr "GREEN_LED"; FStr "BLINK"; FInt64 duration; FInt64 speed].
Definition beep (name : string) (duration : Z) : io W bool :=
  send_to_backend name [FStr "BEEP"; FInt64 duration].
Definition buzzerOn (name : string) : io W bool := send_to_backend name [FStr "BEEP_ON"].
Definition buzzerOff (name : string) : io W bool := send_to_backend name [FStr "BEEP_OFF"].

End fwiegand.
End FWiegandReader.

(** * The bus *)

(** Whether a socket with these subscriptions gets a message that begins with
    this frame. *)
Class Bus := { delivers : list string -> string -> bool }.
Class BusLaws `{Bus} := {
  delivers_spec ts s : delivers ts s = true <-> exists t, In t ts /\ String.prefix t s = true;
}.

(** A bus, for the examples. *)
#[export] Instance prefix_bus : Bus := {|
  delivers := fun ts s => existsb (fun t => String.prefix t s) ts;
|}.
#[export] Instance prefix_bus_laws : BusLaws.
Proof. split. intros ts s. cbn. rewrite existsb_exists. done. Qed.

Lemma prefix_refl s : String.prefix s s = true.
Proof. induction s as [|c s IH]; [done|]. cbn. by destruct (ascii_dec c c). Qed.

(** * What a GPIO promises *)

(** [pin g w]: the state of the output pin bound to the name [g], if there is
    one. *)
Class GpioCommands (W : Type) `{Peers W} := {
  pin : string -> W -> option bool;
  gpio_on g w b : pin g w = Some b ->
    exists w', exchange g [FStr "ON"] w = (w', Some [FStr "OK"]) /\ pin g w' = Some true /\
      forall h, h <> g -> pin h w' = pin h w;
  gpio_on_for g w b d : pin g w = Some b -> 0 <= d < 2 ^ 31 ->
    exists w', exchange g [FStr "ON"; FInt64 d] w = (w', Some [FStr "OK"]) /\ pin g w' = Some true /\
      forall h, h <> g -> pin h w' = pin h w;
  gpio_off g w b : pin g w = Some b ->
    exists w', exchange g [FStr "OFF"] w = (w', Some [FStr "OK"]) /\ pin g w' = Some false /\
      forall h, h <> g -> pin h w' = pin h w;
  gpio_toggle g w b : pin g w = Some b ->
    exists w', exchange g [FStr "TOGGLE"] w = (w', Some [FStr "OK"]) /\ pin g w' = Some (negb b) /\
      forall h, h <> g -> pin h w' = pin h w;
}.

(** A GPIO that also tells its state. *)
Class GpioPeer (W : Type) `{Peers W} := {
  gpio_commands :: GpioCommands W;
  gpio_state g w b : pin g w = Some b ->
    exists w', exchange g [FStr "STATE"] w = (w', Some [FStr (if b then "ON" else "OFF")]) /\
      forall h, pin h w' = pin h w;
}.

(** The commands of the facade, and what each asks of a pin. *)
Inductive gpio_command := CmdOn | CmdOnFor (d : Z) | CmdOff | CmdToggle.

Definition facade_run {W} `{Peers W} (now : Z) (c : gpio_command) (g : FGPIO.t) : io W (bool * FGPIO.t) :=
  match c with
  | CmdOn => FGPIO.turnOn now g
  | CmdOnFor d => FGPIO.turnOn_for now d g
  | CmdOff => FGPIO.turnOff now g
  | CmdToggle => FGPIO.toggle now g
  end.

Definition spec_run (c : gpio_command) (b : bool) : bool :=
  match c with CmdOn | CmdOnFor _ => true | CmdOff => false | CmdToggle => negb b end.

Definition spec_duration (c : gpio_command) : Prop :=
  match c with CmdOnFor d => 0 <= d < 2 ^ 31 | _ => True end.

(** ** Sockets bound to names *)

(** A module with a list of devices, each bound to its name, and a state [S] they
    share: a request is handled by the device of that name, if there is one. *)
Section bound.
Context {P S R : Type} (name_of : P -> string) (handler : P -> S -> outcome (P * S * R)).

Definition find_bound (name : string) (ps : list P) : option P := List.find (fun p => String.eqb (name_of p) name) ps.

Fixpoint serve_bound (name : string) (ps : list P) (s : S) : outcome (option (list P * S * R)) :=
  match ps with
  | [] => Ret None
  | p :: ps =>
      if String.eqb (name_of p) name then '(p, s, r) ← handler p s; Ret (Some (p :: ps, s, r))
      else
        x ← serve_bound name ps s;
        Ret (match x with Some (ps, s, r) => Some (p :: ps, s, r) | None => None end)
  end.

Lemma find_bound_split g ps p : find_bound g ps = Some p ->
  exists l1 l2, ps = l1 ++ p :: l2 /\ name_of p = g /\ Forall (fun q => name_of q <> g) l1.
Proof.
  induction ps as [|q ps IH]; cbn; [done|]. destruct (String.eqb_spec (name_of q) g) as [E|E].
  - intros [= <-]. by exists [], ps.
  - intros Hf. destruct (IH Hf) as (l1 & l2 & -> & Hn & Hl). exists (q :: l1), l2. split; [done|].
    split; [done|]. by constructor.
Qed.

Lemma find_bound_app g l1 p l2 : Forall (fun q => name_of q <> g) l1 -> name_of p = g ->
  find_bound g (l1 ++ p :: l2) = Some p.
Proof.
  intros Hl Hp. induction Hl as [|q l1 Hq _ IH]; cbn.
  - by rewrite (proj2 (String.eqb_eq _ _)).
  - by rewrite (proj2 (String.eqb_neq _ _)).
Qed.

(** Replacing a device by one of the same name does not change what is found
    under another. *)
Lemma find_bound_ne h l1 p p' l2 : name_of p <> h -> name_of p' = name_of p ->
  find_bound h (l1 ++ p' :: l2) = find_bound h (l1 ++ p :: l2).
Proof.
  intros Hp Hp'. unfold find_bound. induction l1 as [|q l1 IH]; cbn.
  - rewrite Hp'. by rewrite (proj2 (String.eqb_neq _ _)).
  - by rewrite IH.
Qed.

Lemma serve_bound_split l1 p l2 s : Forall (fun q => name_of q <> name_of p) l1 ->
  serve_bound (name_of p) (l1 ++ p :: l2) s = ('(p', s', r) ← handler p s; Ret (Some (l1 ++ p' :: l2, s', r))).
Proof.
  intros Hl. induction Hl as [|q l1 Hq _ IH]; cbn [serve_bound app].
  - by rewrite String.eqb_refl.
  - rewrite (proj2 (String.eqb_neq _ _)) by done. rewrite IH. by destruct (handler p s) as [[[p' s'] r]|e|f].
Qed.
End bound.

(** ** Lemmas *)

Section lemmas.
Context {W : Type}.

Lemma io_bind_ret {A B} (m : io W A) (k : A -> io W B) w w' a :
  m w = (w', Ret a) -> (x ← m; k x) w = k a w'.
Proof. intros E. unfold mbind, io_bind. by rewrite E. Qed.

Lemma pure_bind {A B} (a : A) (k : A -> io W B) w : (x ← pure (Ret a); k x) w = k a w.
Proof. done. Qed.

Lemma foldIO_app {A B} (f : A -> B -> io W A) a l1 l2 w :
  foldIO f a (l1 ++ l2) w = (a' ← foldIO f a l1; foldIO f a' l2) w.
Proof.
  revert a w. induction l1 as [|b l1 IH]; intros a w; [done|]. cbn. unfold mbind, io_bind.
  destruct (f a b w) as [w' [a'|e|x]]; [|done|done]. rewrite IH. done.
Qed.

Context `{!Peers W}.

Lemma fgpio_command (g : FGPIO.t) m stamp w w' :
  exchange (FGPIO.gpio_name_ g) m w = (w', Some [FStr "OK"]) ->
  FGPIO.command m stamp g w = (w', Ret (true, FGPIO.mk (FGPIO.gpio_name_ g) stamp)).
Proof. intros He. unfold FGPIO.command, mbind, io_bind, ask_within. by rewrite He. Qed.

(** The facade on a GPIO that keeps its promises. *)
Lemma fgpio_runs `{!GpioCommands W} now c (g : FGPIO.t) w b : spec_duration c -> pin (FGPIO.gpio_name_ g) w = Some b ->
  exists w' g', facade_run now c g w = (w', Ret (true, g')) /\
    FGPIO.gpio_name_ g' = FGPIO.gpio_name_ g /\
    pin (FGPIO.gpio_name_ g) w' = Some (spec_run c b) /\
    forall h, h <> FGPIO.gpio_name_ g -> pin h w' = pin h w.
Proof.
  intros Hd Hp. unfold facade_run, FGPIO.turnOn, FGPIO.turnOn_for, FGPIO.turnOff, FGPIO.toggle.
  destruct c as [|d| |]; cbn [spec_run];
    [destruct (gpio_on _ _ _ Hp) as (w' & He & Hg & Hh) | destruct (gpio_on_for _ _ _ _ Hp Hd) as (w' & He & Hg & Hh)
    |destruct (gpio_off _ _ _ Hp) as (w' & He & Hg & Hh) | destruct (gpio_toggle _ _ _ Hp) as (w' & He & Hg & Hh)];
    exists w'; eexists; by rewrite (fgpio_command g _ _ _ _ He).
Qed.

Lemma fgpio_state `{!GpioPeer W} (g : FGPIO.t) w b : pin (FGPIO.gpio_name_ g) w = Some b ->
  exists w', FGPIO.isOn g w = (w', Ret b) /\ FGPIO.isOff g w = (w', Ret (negb b)) /\ forall h, pin h w' = pin h w.
Proof.
  intros Hp. destruct (gpio_state _ _ _ Hp) as (w' & He & Hw). exists w'.
  assert (Hon : FGPIO.isOn g w = (w', Ret b)).
  { unfold FGPIO.isOn, mbind, io_bind, ask_within. rewrite He. by destruct b. }
  split; [exact Hon|]. split; [|exact Hw]. unfold FGPIO.isOff. by rewrite (io_bind_ret _ _ _ _ _ Hon).
Qed.

End lemmas.

(** ** Peers for the examples *)

(** Pins that answer as GPIOs, and anything else with ["KO"]. *)
#[export] Instance switchboard : Peers (gmap string bool) := {|
  exchange := fun (g : string) (m : message) (w : gmap string bool) =>
    match (w !! g : option bool), m with
    | Some b, FStr "ON" :: _ => (<[g := true]> w, Some [FStr "OK"])
    | Some b, [FStr "OFF"] => (<[g := false]> w, Some [FStr "OK"])
    | Some b, [FStr "TOGGLE"] => (<[g := negb b]> w, Some [FStr "OK"])
    | Some b, [FStr "STATE"] => (w, Some [FStr (if b then "ON" else "OFF")])
    | _, _ => (w, Some [FStr "KO"])
    end;
|}.

#[export] Instance switchboard_commands : GpioCommands (gmap string bool).
Proof.
  refine {| pin := fun g (w : gmap string bool) => (w !! g : option bool) |}; cbn;
    [intros g w b E|intros g w b d E _|intros g w b E..]; rewrite E; eexists;
    (split; [reflexivity|]); (split; [apply lookup_insert_eq | intros h Hne; by apply lookup_insert_ne]).
Defined.

#[export] Instance switchboard_gpio : GpioPeer (gmap string bool).
Proof.
  refine {| gpio_commands := switchboard_commands |}. cbn. intros g w b E. rewrite E. by eexists.
Defined.

Lemma switchboard_replies name m (w : gmap string bool) :
  exists w' s rest, exchange name m w = (w', Some (FStr s :: rest)).
Proof. cbn. repeat case_match; eauto. Qed.
