(* ===== verification/Ptree.v ===== *)
(** Property trees, [boost::property_tree::ptree]: configuration files as the
    program reads them.

    Boost is not part of the repository: a tree type is a parameter of the
    model, an instance of [PropertyTree], and the [get] family is built on it
    as Boost documents it. [xml] is an instance for one-step paths, on which
    the examples run. *)
From Stdlib Require Import ZArith Lia Ascii String.
From stdpp Require Import base tactics numbers list strings.
From S2P Require Import Prelude.

Open Scope Z_scope.

Class PropertyTree (T : Type) := {
  data : T -> string;
  children : T -> list (string * T);
  get_child_optional : T -> string -> option T;
  (** Translators from the data of a node; [None] is [ptree_bad_data]. *)
  as_int : string -> option Z;
  as_u8 : string -> option Z;
  as_u16 : string -> option Z;
  as_bool : string -> option bool;
  as_char : string -> option ascii;
}.

Section get.
Context {T : Type} `{PropertyTree T}.

(** [get_child(path)]. *)
Definition get_child (t : T) (path : string) : outcome T :=
  match get_child_optional t path with Some c => Ret c | None => Throw (PtreeError path) end.

(** [get<A>(path)] and [get<A>(path, default)], [f] translating the data. *)
Definition get {A} (f : string -> option A) (t : T) (path : string) : outcome A :=
  match get_child_optional t path ≫= (fun c => f (data c)) with
  | Some a => Ret a
  | None => Throw (PtreeError path)
  end.
Definition get_default {A} (f : string -> option A) (t : T) (path : string) (d : A) : A :=
  default d (get_child_optional t path ≫= (fun c => f (data c))).

Definition as_string (s : string) : option string := Some s.
End get.

(** ** A concrete tree *)

Inductive xml := Node (tag_data : string) (kids : list (string * xml)).

Definition xml_data (t : xml) : string := let 'Node d _ := t in d.
Definition xml_kids (t : xml) : list (string * xml) := let 'Node _ l := t in l.

Definition xml_child (t : xml) (path : string) : option xml :=
  snd <$> List.find (fun kv => String.eqb (fst kv) path) (xml_kids t).

(** Decimal digits, with an optional minus sign. *)
Definition digits_val (l : list ascii) : option Z :=
  if forallb isdigit l && negb (bool_decide (l = []))
  then Some (foldl (fun a c => 10 * a + (code c - 48)) 0 l) else None.
Definition int_of (s : string) : option Z :=
  match chars s with
  | "-"%char :: l => Z.opp <$> digits_val l
  | l => digits_val l
  end.
(** An unsigned integer of [w] bits. *)
Definition unsigned_of (w : Z) (s : string) : option Z :=
  match digits_val (chars s) with
  | Some z => if z <? 2 ^ w then Some z else None
  | None => None
  end.
Definition bool_of (s : string) : option bool :=
  if String.eqb s "1" || String.eqb s "true" then Some true
  else if String.eqb s "0" || String.eqb s "false" then Some false else None.
Definition char_of (s : string) : option ascii :=
  match chars s with [c] => Some c | _ => None end.

#[export] Instance xml_tree : PropertyTree xml := {|
  data := xml_data;
  children := xml_kids;
  get_child_optional := xml_child;
  as_int := int_of;
  as_u8 := unsigned_of 8;
  as_u16 := unsigned_of 16;
  as_bool := bool_of;
  as_char := char_of;
|}.

Definition leaf (s : string) : xml := Node s [].
