(* ===== verification/Gpio.v ===== *)
(** The GPIO pins of the piface card, [src/modules/pifacedigital/]
    ([PFDigitalPin.cpp], [PFDigitalModule.cpp]): pins answer the requests of
    other modules, turn themselves off when a timed command ends, and put an
    interrupt on the bus when an input changes.

    The card's driver is not part of the repository: [Board] is what the code
    calls of it, [BoardLaws] what it documents of output pins. [world] is the
    module as its peers see it; it is an instance of [Facades.Peers], and of
    [Facades.GpioPeer]: what the facades rely on is proved of the pins. *)
From Stdlib Require Import ZArith Lia Ascii String.
From stdpp Require Import base tactics numbers list strings.
From S2P Require Import Prelude Timers Facades Ptree.

Open Scope Z_scope.

(** * The card *)

Inductive register := INPUT | OUTPUT.

Class Board (B : Type) := {
  read_bit : Z -> register -> Z -> B -> Z;          (* pin, register, hardware address *)
  write_bit : Z -> Z -> register -> Z -> B -> B;    (* value, then the same *)
  read_reg : Z -> Z -> B -> B * Z;                  (* register, hardware address *)
}.

(** A card has eight output pins, and four cards can be stacked. *)
Definition on_card (no hw : Z) : bool := (0 <=? no) && (no <? 8) && (0 <=? hw) && (hw <? 4).

Class BoardLaws (B : Type) `{Board B} := {
  read_write v no hw b : on_card no hw = true -> v = 0 \/ v = 1 ->
    read_bit no OUTPUT hw (write_bit v no OUTPUT hw b) = v;
  read_write_ne v no hw no' hw' b : on_card no hw = true -> on_card no' hw' = true -> (no', hw') <> (no, hw) ->
    read_bit no' OUTPUT hw' (write_bit v no OUTPUT hw b) = read_bit no' OUTPUT hw' b;
}.

(** * PFDigitalPin *)

Module PFDigitalPin.

Inductive Direction := In | Out.

Record t := mk {
  gpio_no_ : Z;
  name_ : string;
  direction_ : Direction;
  default_value_ : bool;
  next_update_time_ : Z;
  hardware_address_ : Z;
  want_update_ : bool;
}.

Section pin.
Context {B : Type} `{Board B}.

Definition set_timer (time : Z) (want : bool) (p : t) : t :=
  mk (gpio_no_ p) (name_ p) (direction_ p) (default_value_ p) time (hardware_address_ p) want.

(** [read_value]: from the register of the pin's direction. *)
Definition read_value (p : t) (b : B) : bool :=
  negb (read_bit (gpio_no_ p) (match direction_ p with Out => OUTPUT | In => INPUT end)
          (hardware_address_ p) b =? 0).

Definition write (v : Z) (p : t) (b : B) : B := write_bit v (gpio_no_ p) OUTPUT (hardware_address_ p) b.

Definition on_off (b : bool) : string := if b then "ON" else "OFF".

(** The message [publish_state] puts on the bus. *)
Definition state_message (p : t) (b : B) : message := [FStr ("S_" +:+ name_ p); FStr (on_off (read_value p b))].

(** What a command gives: its status, the pin, the card, and what was put on
    the bus. *)
Definition effect : Type := bool * t * B * list message.

Definition switch (v : Z) (p : t) (b : B) : effect :=
  let b := write v p b in (true, p, b, [state_message p b]).

(** [turn_on]; [parts] are the frames of the request after the command, if
    there is a request. *)
Definition turn_on (now : Z) (parts : message) (p : t) (b : B) : outcome effect :=
  match direction_ p with
  | In => Ret (false, p, b, [])
  | Out =>
      p ← match parts with
          | [] => Ret p
          | _ =>
              '(duration, _) ← pop_int64 parts;
              time ← add_ms now duration;
              Ret (set_timer time true p)
          end;
      Ret (switch 1 p b)
  end.

Definition turn_off (p : t) (b : B) : effect :=
  match direction_ p with In => (false, p, b, []) | Out => switch 0 p b end.

Definition toggle (p : t) (b : B) : effect :=
  match direction_ p with
  | In => (false, p, b, [])
  | Out => switch (if read_bit (gpio_no_ p) OUTPUT (hardware_address_ p) b =? 0 then 1 else 0) p b
  end.

(** The constructor drives an output pin to its default value. *)
Definition make (now no : Z) (name : string) (d : Direction) (value : bool) (hw : Z) (b : B) : outcome effect :=
  let p := mk no name d value 0 hw false in
  match d with
  | In => Ret (true, p, b, [])
  | Out => if value then turn_on now [] p b else Ret (turn_off p b)
  end.

(** [handle_message]: the reply, with the effect. *)
Definition handle_message (now : Z) (m : message) (p : t) (b : B) : outcome (effect * message) :=
  '(frame1, rest) ← pop_str m;
  let answer (e : effect) : effect * message := (e, [FStr (if e.1.1.1 then "OK" else "KO")]) in
  if String.eqb frame1 "ON" then e ← turn_on now rest p b; Ret (answer e)
  else if String.eqb frame1 "OFF" then Ret (answer (turn_off p b))
  else if String.eqb frame1 "TOGGLE" then Ret (answer (toggle p b))
  else if String.eqb frame1 "STATE" then Ret ((true, p, b, []), [FStr (on_off (read_value p b))])
  else Ret (answer (false, p, b, [])).

(** [update]: the end of a timed command. *)
Definition update (p : t) (b : B) : effect :=
  let '(ok, p, b, ms) := turn_off p b in (ok, set_timer (next_update_time_ p) false p, b, ms).

Definition next_update (p : t) : Z := if want_update_ p then next_update_time_ p else TIME_MAX.

End pin.
End PFDigitalPin.
Import PFDigitalPin.

(** * PFDigitalModule *)

(** The module: its pins, the card, what it has put on the bus. *)
Record world (B : Type) := mk_world { now_ : Z; gpios_ : list PFDigitalPin.t; board_ : B; bus_ : list message }.
Arguments mk_world {B}. Arguments now_ {B}. Arguments gpios_ {B}. Arguments board_ {B}. Arguments bus_ {B}.

Module PFDigitalModule.
Section module.
Context {B : Type} `{Board B}.

(** The pins' sockets, each bound to its name. *)
Definition request (now : Z) (name : string) (m : message) (ps : list PFDigitalPin.t) (b : B)
  : outcome (option (list PFDigitalPin.t * B * (list message * message))) :=
  serve_bound name_ (fun p b => '((_, p, b, out), rep) ← handle_message now m p b; Ret (p, b, (out, rep))) name ps b.

(** The loop that updates the pins whose time has come; [now i] is the clock
    when pin [i] is looked at. *)
Fixpoint update_pins (now : nat -> Z) (i : nat) (ps : list PFDigitalPin.t) (b : B)
  : list PFDigitalPin.t * B * list message :=
  match ps with
  | [] => ([], b, [])
  | p :: ps =>
      let '(p, b, out) :=
        if next_update p <? now i then let '(_, p, b, out) := PFDigitalPin.update p b in (p, b, out)
        else (p, b, []) in
      let '(ps, b, out') := update_pins now (S i) ps b in
      (p :: ps, b, out ++ out')
  end.

(** How long [run] sleeps. *)
Definition sleep (now : Z) (ps : list PFDigitalPin.t) : Z := compute_timeout now (map next_update ps).

(** The updates of one turn of [run]. *)
Definition update_turn (now : nat -> Z) (w : world B) : world B :=
  let '(ps, b, out) := update_pins now 0 (gpios_ w) (board_ w) in
  mk_world (now_ w) ps b (bus_ w ++ out).

Definition get_input_pin_name (ps : list PFDigitalPin.t) (idx hw : Z) : option string :=
  name_ <$> List.find (fun p => (gpio_no_ p =? idx) &&
    match direction_ p with In => true | Out => false end && (hardware_address_ p =? hw)) ps.

(** The interrupts of one card, from the register captured. *)
Definition card_interrupts (ps : list PFDigitalPin.t) (hwaddr states : Z) : list message :=
  omap (fun i => if Z.testbit states i then None
                 else (fun n => [FStr ("S_INT:" +:+ n)]) <$> get_input_pin_name ps i hwaddr)
       (seqZ 0 8).

(** [handle_interrupt], the file of the interrupt line apart. *)
Definition handle_interrupt (w : world B) : world B :=
  let '(b, out) :=
    foldl (fun acc hwaddr =>
        let '(b, out) := acc in
        let '(b, states) := read_reg 0x11 hwaddr b in
        (b, out ++ card_interrupts (gpios_ w) hwaddr states))
      (board_ w, []) (seqZ 0 4) in
  mk_world (now_ w) (gpios_ w) b (bus_ w ++ out).

(** ** Configuration *)

(** One pin of the configuration: built before its direction is checked. *)
Definition add_pin (no : Z) (name : string) (d : Direction) (value : bool) (hw : Z) (w : world B)
  : outcome (world B) :=
  '(_, p, b, out) ← PFDigitalPin.make (now_ w) no name d value hw (board_ w);
  Ret (mk_world (now_ w) (gpios_ w ++ [p]) b (bus_ w ++ out)).

Definition load_gpio {T} `{PropertyTree T} (w : world B) (node : string * T) : outcome (world B) :=
  let gpio_cfg := node.2 in
  gpio_name ← get as_string gpio_cfg "name";
  gpio_no ← get as_u8 gpio_cfg "no";
  gpio_direction ← get as_string gpio_cfg "direction";
  let gpio_value := get_default as_bool gpio_cfg "value" false in
  let hw_addr := get_default as_u8 gpio_cfg "hardware_address" 0 in
  w ← add_pin gpio_no gpio_name (if String.eqb gpio_direction "in" then In else Out) gpio_value hw_addr w;
  _ ← enforce (String.eqb gpio_direction "in" || String.eqb gpio_direction "out")
        (LEOSACException ("Direction (" +:+ gpio_direction +:+ ") is invalid"));
  Ret w.

Definition process_xml_config {T} `{PropertyTree T} (cfg : T) (w : world B) : outcome (world B) :=
  module_config ← get_child cfg "module_config";
  gpios ← get_child module_config "gpios";
  foldM load_gpio w (children gpios).

(** A row of the database: the [PFGPIO] objects. *)
Record PFGPIO := mk_pfgpio { row_name : string; row_number : Z; row_direction : Direction;
                             row_value : bool; row_hw : Z }.

Definition load_config_from_database (degraded_mode : bool) (rows : list PFGPIO) (w : world B)
  : outcome (world B) :=
  if degraded_mode then Ret w
  else foldM (fun w r =>
      if 255 <? row_number r then Ret w
      else add_pin (row_number r) (row_name r) (row_direction r) (row_value r) (row_hw r) w) w rows.

Definition process_config {T} `{PropertyTree T} (degraded_mode : bool) (rows : list PFGPIO) (cfg : T)
    (w : world B) : outcome (world B) :=
  use_db ← match get_child_optional cfg "module_config" ≫= (fun m => get_child_optional m "use_database") with
           | Some n => Ret (default false (as_bool (data n)))
           | None => Ret false
           end;
  if negb use_db && degraded_mode then
    Throw (LEOSACException "We failed to open piface digital device and wont enable database support. There is nothing to do but exit.")
  else if negb use_db then process_xml_config cfg w
  else load_config_from_database degraded_mode rows w.

End module.
End PFDigitalModule.
Import PFDigitalModule.

#[local] Arguments add_ms : simpl never.
#[local] Arguments ms : simpl never.

(** * The module as its peers see it *)

Section peer.
Context {B : Type} `{Board B}.

(** Without a pin of that name, or when the handler does not return, no reply
    comes. *)
#[export] Instance piface_peers : Peers (world B) := {|
  exchange name m w :=
    match request (now_ w) name m (gpios_ w) (board_ w) with
    | Ret (Some (ps, b, (out, rep))) => (mk_world (now_ w) ps b (bus_ w ++ out), Some rep)
    | _ => (w, None)
    end;
|}.

(** What requests do not change of a pin. *)
Definition wiring (p : PFDigitalPin.t) : string * Z * bool * Z :=
  (name_ p, gpio_no_ p, match direction_ p with Out => true | In => false end, hardware_address_ p).

Definition address (x : string * Z * bool * Z) : option (Z * Z) :=
  let '(_, no, out, hw) := x in if out then Some (no, hw) else None.

(** A sound configuration: every name once, every output of a card once, and
    the clock before the year 2116. *)
Definition sound_wiring (l : list (string * Z * bool * Z)) : bool :=
  bool_decide (NoDup (map (fun x => x.1.1.1) l)) &&
  bool_decide (NoDup (omap address l)) &&
  forallb (fun x => on_card x.1 x.2) (omap address l).
Definition wired (w : world B) : bool :=
  (0 <=? now_ w) && (now_ w <? 2 ^ 62) && sound_wiring (map wiring (gpios_ w)).

Abbreviation find_pin := (find_bound name_).

(** The state of an output pin. *)
Definition piface_pin (g : string) (w : world B) : option bool :=
  if wired w then
    match find_pin g (gpios_ w) with
    | Some p => match direction_ p with Out => Some (read_value p (board_ w)) | In => None end
    | None => None
    end
  else None.

(** ** Lemmas *)

(** The address of another output pin is another address. *)
Lemma other_address l1 p l2 h q :
  sound_wiring (map wiring (l1 ++ p :: l2)) = true -> direction_ p = Out -> name_ p <> h ->
  find_pin h (l1 ++ p :: l2) = Some q -> direction_ q = Out ->
  on_card (gpio_no_ p) (hardware_address_ p) = true /\ on_card (gpio_no_ q) (hardware_address_ q) = true /\
  (gpio_no_ q, hardware_address_ q) <> (gpio_no_ p, hardware_address_ p).
Proof.
  intros Hs Hp Hne Hf Hq. unfold sound_wiring in Hs. bool_hyps.
  match goal with H : forallb _ _ = true |- _ => rewrite forallb_forall in H; rename H into Hon end.
  match goal with H : NoDup (omap _ _) |- _ => rename H into Hnd end. clear H0.
  assert (Ha : forall r, direction_ r = Out -> address (wiring r) = Some (gpio_no_ r, hardware_address_ r))
    by (intros r Hr; cbn; by rewrite Hr).
  apply find_some in Hf as [Hin Hn]. apply String.eqb_eq in Hn.
  assert (Hmem : forall r, List.In r (l1 ++ p :: l2) -> direction_ r = Out ->
    on_card (gpio_no_ r) (hardware_address_ r) = true).
  { intros r Hr Hd. apply (Hon (gpio_no_ r, hardware_address_ r)). apply list_elem_of_In.
    apply list_elem_of_omap. exists (wiring r). split; [|by apply Ha]. apply list_elem_of_In.
    by apply in_map. }
  split; [apply Hmem; [apply in_elt|done]|]. split; [by apply Hmem|].
  intros Heq. rewrite map_app in Hnd. cbn [map] in Hnd. rewrite omap_app in Hnd. cbn [omap list_omap] in Hnd.
  rewrite (Ha p Hp) in Hnd.
  assert (Hin' : forall l, List.In q l -> (gpio_no_ p, hardware_address_ p) ∈ omap address (map wiring l)).
  { intros l Hl. apply list_elem_of_omap. exists (wiring q). split; [apply list_elem_of_In; by apply in_map|].
    by rewrite Ha, Heq by done. }
  apply NoDup_app in Hnd as (_ & Hd & Hnd). apply NoDup_cons in Hnd as [Hnd _].
  apply in_app_or in Hin as [Hin|[->|Hin]]; [|by subst|].
  - apply (Hd _ (Hin' _ Hin)). by constructor.
  - by apply Hnd, Hin'.
Qed.

(** A request that writes [v] to the pin of that name. *)
Lemma exchange_switch `{!BoardLaws B} g w b0 m v :
  piface_pin g w = Some b0 -> v = 0 \/ v = 1 ->
  (forall p, direction_ p = Out -> read_value p (board_ w) = b0 -> exists p', wiring p' = wiring p /\
     handle_message (now_ w) m p (board_ w) = Ret (switch v p' (board_ w), [FStr "OK"])) ->
  exists w', exchange g m w = (w', Some [FStr "OK"]) /\ piface_pin g w' = Some (v =? 1) /\
    forall h, h <> g -> piface_pin h w' = piface_pin h w.
Proof.
  intros Hpin Hv Hm. unfold piface_pin in Hpin. destruct (wired w) eqn:Hw; [|done].
  destruct (find_pin g (gpios_ w)) as [p|] eqn:Hf; [|done]. destruct (direction_ p) eqn:Hd; [done|].
  injection Hpin as Hb0. destruct (Hm p Hd Hb0) as (p' & Hwp & Hh).
  pose proof (find_bound_split _ _ _ _ Hf) as (l1 & l2 & Hps & <- & Hl).
  cbn [exchange piface_peers]. unfold request; rewrite Hps, (serve_bound_split _ _ _ _ _ _ Hl), Hh. unfold switch. cbn [mbind outcome_bind].
  eexists. split; [reflexivity|].
  assert (Hwired : forall out, wired (mk_world (now_ w) (l1 ++ p' :: l2) (write v p' (board_ w)) out) = true).
  { intros out. unfold wired in *. cbn [now_ gpios_]. rewrite Hps, map_app in Hw. cbn [map] in Hw.
    by rewrite map_app; cbn [map]; rewrite Hwp. }
  injection Hwp as Hn Hno Hdir Hhw. assert (Hd' : direction_ p' = Out) by (rewrite Hd in Hdir; by destruct (direction_ p')).
  assert (Hsw : sound_wiring (map wiring (l1 ++ p :: l2)) = true).
  { unfold wired in Hw. rewrite Hps in Hw. by bool_hyps. }
  assert (Hcard : on_card (gpio_no_ p) (hardware_address_ p) = true).
  { unfold sound_wiring in Hsw. bool_hyps. match goal with H : forallb _ _ = true |- _ => rewrite forallb_forall in H;
      apply (H (gpio_no_ p, hardware_address_ p)) end.
    apply list_elem_of_In, list_elem_of_omap. exists (wiring p). split.
    - apply list_elem_of_In, in_map, in_elt.
    - cbn. by rewrite Hd. }
  split.
  - unfold piface_pin. rewrite Hwired. cbn [gpios_ board_]. rewrite find_bound_app; [|done|done]. rewrite Hd'.
    unfold read_value, write. rewrite Hd', Hno, Hhw, read_write by done. destruct Hv as [->| ->]; done.
  - intros h Hh'. unfold piface_pin. rewrite Hwired, Hw. cbn [gpios_ board_].
    rewrite Hps, (find_bound_ne _ h l1 p p' l2) by congruence.
    destruct (find_pin h (l1 ++ p :: l2)) as [q|] eqn:Eq; [|done]. destruct (direction_ q) eqn:Hdq; [done|].
    destruct (other_address l1 p l2 h q Hsw Hd ltac:(congruence) Eq Hdq) as (Hc1 & Hc2 & Hne).
    unfold read_value, write. rewrite Hdq, Hno, Hhw, read_write_ne by done. done.
Qed.

(** A pin keeps every promise of [GpioCommands], and tells its state. *)
#[export] Instance piface_commands `{!BoardLaws B} : GpioCommands (world B).
Proof.
  refine {| pin := piface_pin |}.
  - intros g w b Hp. apply (exchange_switch g w b _ 1 Hp ltac:(by right)).
    intros p Hd _. exists p. split; [done|]. cbn. unfold turn_on. by rewrite Hd.
  - intros g w b d Hp Hr. apply (exchange_switch g w b _ 1 Hp ltac:(by right)).
    intros p Hd _. exists (set_timer (now_ w + ms d) true p). split; [done|]. cbn. unfold turn_on. rewrite Hd. cbn.
    unfold piface_pin, wired in Hp. destruct (_ && _ && _) eqn:Hw; [|done]. bool_hyps. by rewrite add_ms_Ret.
  - intros g w b Hp. apply (exchange_switch g w b _ 0 Hp ltac:(by left)).
    intros p Hd _. exists p. split; [done|]. cbn. unfold turn_off. by rewrite Hd.
  - intros g w b Hp.
    destruct (exchange_switch g w b [FStr "TOGGLE"] (if b then 0 else 1) Hp ltac:(destruct b; auto)) as (w' & He & Hg & Hh).
    + intros p Hd Hb. exists p. split; [done|]. cbn. unfold toggle. rewrite Hd. unfold read_value in Hb.
      rewrite Hd in Hb. destruct (_ =? 0); cbn in Hb; by subst b.
    + exists w'. split; [done|]. split; [|done]. rewrite Hg. by destruct b.
Defined.

#[export] Instance piface_gpio `{!BoardLaws B} : GpioPeer (world B).
Proof.
  refine {| gpio_commands := piface_commands |}. cbn [pin piface_commands].
  intros g w b Hp. unfold piface_pin in Hp. destruct (wired w) eqn:Hw; [|done].
    destruct (find_pin g (gpios_ w)) as [p|] eqn:Hf; [|done]. destruct (direction_ p) eqn:Hd; [done|].
    injection Hp as <-. pose proof (find_bound_split _ _ _ _ Hf) as (l1 & l2 & Hps & <- & Hl).
    cbn [exchange piface_peers]. unfold request; rewrite Hps, (serve_bound_split _ _ _ _ _ _ Hl). cbn. eexists. split; [reflexivity|].
    intros h. unfold piface_pin, wired. cbn. by rewrite Hps.
Defined.

(** ** Properties *)

(** C6: the pins of the piface module implement the GPIOs the facades promise:
    seen as a map from names to states, a facade's command sets the state of its
    own pin as its name says, leaves every other pin alone, and succeeds; asking
    for the state gives it. The path is the whole one: facade, request, handler,
    register of the card, reply. *)
Theorem piface_refines_gpio `{!BoardLaws B} now c g (w : world B) b :
  spec_duration c -> piface_pin (FGPIO.gpio_name_ g) w = Some b ->
  (exists w' g', facade_run now c g w = (w', Ret (true, g')) /\
     FGPIO.gpio_name_ g' = FGPIO.gpio_name_ g /\
     piface_pin (FGPIO.gpio_name_ g) w' = Some (spec_run c b) /\
     forall h, h <> FGPIO.gpio_name_ g -> piface_pin h w' = piface_pin h w) /\
  (exists w', FGPIO.isOn g w = (w', Ret b) /\ FGPIO.isOff g w = (w', Ret (negb b)) /\
     forall h, piface_pin h w' = piface_pin h w).
Proof.
  intros Hd Hp. split; [exact (fgpio_runs now c g w b Hd Hp)|exact (fgpio_state g w b Hp)].
Qed.

(** One turn of the main loop, for one pin alone. *)
Definition pin_turn (now : Z) (p : PFDigitalPin.t) (b : B) : PFDigitalPin.t * B :=
  let '(ps, b, _) := update_pins (fun _ => now) 0 [p] b in (default p (head ps), b).

Definition pin_turns (times : list Z) (p : PFDigitalPin.t) (b : B) : PFDigitalPin.t * B :=
  foldl (fun s now => pin_turn now s.1 s.2) (p, b) times.

Lemma pin_turn_eq now p b :
  pin_turn now p b = if next_update p <? now then let '(_, p, b, _) := PFDigitalPin.update p b in (p, b) else (p, b).
Proof. unfold pin_turn. cbn. destruct (_ <? _); [|done]. by destruct (PFDigitalPin.update p b) as [[[ok q] c] out]. Qed.

Lemma pin_turns_waiting times p b :
  Forall (fun t => t <= next_update p) times -> pin_turns times p b = (p, b).
Proof.
  unfold pin_turns. induction 1 as [|t l Ht _ IH]; [done|]. cbn [foldl fst snd].
  rewrite pin_turn_eq, (proj2 (Z.ltb_ge _ _)) by done. exact IH.
Qed.

(** C27: a pin turned on for a while is turned off when the time is over, and
    stays off. Whatever the turns of the main loop before the deadline, the pin
    is untouched; the first turn after it turns it off and clears the timer, and
    no later turn changes it. *)
Theorem timed_on_ends `{!BoardLaws B} now d p b p' b' out rep before now' after :
  direction_ p = Out -> on_card (gpio_no_ p) (hardware_address_ p) = true ->
  0 <= now < 2 ^ 62 -> 0 <= d < 2 ^ 31 ->
  handle_message now [FStr "ON"; FInt64 d] p b = Ret ((true, p', b', out), rep) ->
  Forall (fun t => t <= now + ms d) before -> now + ms d < now' -> Forall (fun t => t <= TIME_MAX) after ->
  read_value p' b' = true /\ pin_turns before p' b' = (p', b') /\
  exists q c, pin_turns (before ++ now' :: after) p' b' = (q, c) /\ read_value q c = false /\ next_update q = TIME_MAX.
Proof.
  intros Hd Hc Hn Hr Hh Hbef Hnow Haft. cbn in Hh. unfold turn_on in Hh. rewrite Hd in Hh. cbn in Hh.
  rewrite add_ms_Ret in Hh by done.
  cbn in Hh. injection Hh as <- <- _ _. set (p' := set_timer _ true p). set (b' := write 1 p' b).
  assert (Hnext : next_update p' = now + ms d) by done.
  assert (Hw : pin_turns before p' b' = (p', b')) by (apply pin_turns_waiting; by rewrite Hnext).
  split; [unfold read_value, b', write, p'; cbn; rewrite Hd, read_write; auto|]. split; [done|].
  unfold pin_turns in *. rewrite foldl_app, Hw. cbn [foldl fst snd].
  rewrite pin_turn_eq, Hnext, (proj2 (Z.ltb_lt _ _)) by done.
  unfold PFDigitalPin.update, turn_off. cbn [direction_ p' set_timer]. rewrite Hd. unfold switch.
  do 2 eexists. split; [apply pin_turns_waiting; cbn; exact Haft|]. split; [|done].
  unfold read_value, write, set_timer. cbn. rewrite Hd, read_write; auto.
Qed.

(** a command does not end the timer of the one before it: a pin turned on
    for a while and then, before the time is over, turned on for good - or off
    and on again - is still turned off at the first deadline. *)
Theorem stale_timer `{!BoardLaws B} now d p b p1 b1 out1 rep1 now1 p2 b2 out2 rep2 now' :
  direction_ p = Out -> on_card (gpio_no_ p) (hardware_address_ p) = true ->
  0 <= now < 2 ^ 62 -> 0 <= d < 2 ^ 31 ->
  handle_message now [FStr "ON"; FInt64 d] p b = Ret ((true, p1, b1, out1), rep1) ->
  handle_message now1 [FStr "ON"] p1 b1 = Ret ((true, p2, b2, out2), rep2) ->
  now + ms d < now' ->
  read_value p2 b2 = true /\ exists q c, pin_turn now' p2 b2 = (q, c) /\ read_value q c = false.
Proof.
  intros Hd Hc Hn Hr H1 H2 Hnow. cbn in H1. unfold turn_on in H1. rewrite Hd in H1. cbn in H1.
  rewrite add_ms_Ret in H1 by done.
  cbn in H1. injection H1 as <- <- _ _. cbn in H2. unfold turn_on in H2. cbn in H2. rewrite Hd in H2.
  injection H2 as <- <- _ _. split; [unfold read_value, write, set_timer; cbn; rewrite Hd, read_write; auto|].
  rewrite pin_turn_eq. unfold next_update. cbn [want_update_ next_update_time_ set_timer].
  rewrite (proj2 (Z.ltb_lt _ _)) by done. unfold PFDigitalPin.update, turn_off. cbn [direction_ set_timer]. rewrite Hd.
  unfold switch. do 2 eexists. split; [reflexivity|]. unfold read_value, write, set_timer. cbn. rewrite Hd, read_write; auto.
Qed.

(** an input that changes is reported once: for a card whose captured
    register is [states], the messages are exactly one interrupt for each
    configured input pin whose bit is low, in the order of the bits; outputs and
    pins of other cards are never reported. *)
Theorem interrupts_reported ps hwaddr states m :
  List.In m (card_interrupts ps hwaddr states) <->
  exists i n, 0 <= i < 8 /\ Z.testbit states i = false /\ get_input_pin_name ps i hwaddr = Some n /\
    m = [FStr ("S_INT:" +:+ n)].
Proof.
  unfold card_interrupts. rewrite <- list_elem_of_In, list_elem_of_omap. split.
  - intros (i & Hi & Hm). apply elem_of_seqZ in Hi. destruct (Z.testbit states i) eqn:Et; [done|].
    destruct (get_input_pin_name ps i hwaddr) as [n|] eqn:En; [|done]. injection Hm as <-.
    exists i, n. split; [lia|]. done.
  - intros (i & n & Hi & Ht & Hn & ->). exists i. split; [apply elem_of_seqZ; lia|]. by rewrite Ht, Hn.
Qed.

End peer.

(** ** A card, for the examples *)

(** The output latches, and the inputs, of each card. *)
Record latches := mk_latches { outputs : list (Z * Z); inputs : list (Z * Z) }.

#[export] Instance latch_board : Board latches := {|
  read_bit no r hw b :=
    if bool_decide ((no, hw) ∈ match r with OUTPUT => outputs b | INPUT => inputs b end) then 1 else 0;
  write_bit v no r hw b :=
    match r with
    | INPUT => b
    | OUTPUT => mk_latches (if v =? 0 then List.filter (fun x => negb (bool_decide (x = (no, hw)))) (outputs b)
                            else (no, hw) :: outputs b) (inputs b)
    end;
  read_reg _ _ b := (b, 255);
|}.

#[export] Instance latch_board_laws : BoardLaws latches.
Proof.
  split.
  - intros v no hw b _ [->| ->]; cbn.
    + rewrite bool_decide_eq_false_2; [done|]. rewrite list_elem_of_In, filter_In.
      intros [_ Hn]. by rewrite bool_decide_eq_true_2 in Hn.
    + rewrite bool_decide_eq_true_2; [done|]. by constructor.
  - intros v no hw no' hw' b _ _ Hne. cbn.
    assert (Heq : forall P Q : Prop, forall (HP : Decision P) (HQ : Decision Q), (P <-> Q) ->
      (if bool_decide P then 1 else 0) = (if bool_decide Q then 1 else 0)).
    { intros P Q HP HQ Hiff. by rewrite (bool_decide_ext P Q Hiff). }
    destruct (v =? 0); cbn [outputs]; apply Heq; rewrite !list_elem_of_In.
    + rewrite filter_In. rewrite bool_decide_eq_false_2 by done. cbn. tauto.
    + cbn. split; [intros [Hx|]; [by destruct Hne|done]|by right].
Qed.

(** ** Witnesses *)

Definition demo_lock : PFDigitalPin.t := PFDigitalPin.mk 0 "lock" Out false 0 0 false.
Definition demo_led : PFDigitalPin.t := PFDigitalPin.mk 1 "led" Out false 0 0 false.
Definition demo_button : PFDigitalPin.t := PFDigitalPin.mk 0 "button" In false 0 0 false.
Definition demo_world : world latches :=
  mk_world 1000 [demo_led; demo_lock; demo_button] (mk_latches [] []) [].

Lemma piface_refines_gpio_witness :
  exists w' g', FGPIO.turnOn_for 1000 500 (FGPIO.make "lock") demo_world = (w', Ret (true, g')) /\
    piface_pin "lock" w' = Some true /\ piface_pin "led" w' = Some false.
Proof.
  destruct (piface_refines_gpio 1000 (CmdOnFor 500) (FGPIO.make "lock") demo_world false)
    as [(w' & g' & Hrun & _ & Hp & Hh) _].
  - cbn. lia.
  - reflexivity.
  - exists w', g'. split; [exact Hrun|]. split; [exact Hp|]. rewrite Hh; [reflexivity|discriminate].
Defined.

Lemma timed_on_witness :
  exists q c, pin_turns [2000; 500001000; 500001001; 600000000] (set_timer 500001000 true demo_lock)
      (mk_latches [(0, 0)] []) = (q, c) /\ read_value q c = false /\ next_update q = TIME_MAX.
Proof.
  destruct (timed_on_ends (B := latches) 1000 500 demo_lock (mk_latches [] []) (set_timer 500001000 true demo_lock)
    (mk_latches [(0, 0)] []) [[FStr "S_lock"; FStr "ON"]] [FStr "OK"] [2000; 500001000] 500001001 [600000000])
    as (_ & _ & H).
  - reflexivity.
  - reflexivity.
  - lia.
  - lia.
  - reflexivity.
  - repeat constructor; unfold ms; lia.
  - unfold ms; lia.
  - repeat constructor; unfold TIME_MAX; lia.
  - exact H.
Defined.

Lemma stale_timer_witness :
  exists q c, pin_turn 500001001 (set_timer 500001000 true demo_lock) (mk_latches [(0, 0); (0, 0)] []) = (q, c) /\
    read_value q c = false.
Proof.
  destruct (stale_timer (B := latches) 1000 500 demo_lock (mk_latches [] []) (set_timer 500001000 true demo_lock)
    (mk_latches [(0, 0)] []) [[FStr "S_lock"; FStr "ON"]] [FStr "OK"] 2000 (set_timer 500001000 true demo_lock)
    (mk_latches [(0, 0); (0, 0)] []) [[FStr "S_lock"; FStr "ON"]] [FStr "OK"] 500001001) as [_ H].
  - reflexivity.
  - reflexivity.
  - lia.
  - lia.
  - reflexivity.
  - reflexivity.
  - unfold ms; lia.
  - exact H.
Defined.
