(* ===== verification/Json.v ===== *)
(** JSON values and [src/tools/JSONUtils.hpp].

    The JSON library is not part of the repository: a value type is a parameter
    of the model, an instance of [Json]. [json] is an instance, on which the
    examples run. *)
From Stdlib Require Import ZArith Lia Ascii String.
From stdpp Require Import base tactics numbers list strings.
From S2P Require Import Prelude.

Open Scope Z_scope.

Class Json (J : Type) := {
  (** [at(key)]: throws [JsonOutOfRange] for a key that is not there,
      [JsonTypeError] for a value that is no object. *)
  at_ : J -> string -> outcome J;
  (** [find(key)]: [None] is [end()]. *)
  find_ : J -> string -> option J;
  is_null : J -> bool;
  is_string : J -> bool;
  is_array : J -> bool;
  (** [get<T>()]: the text, number or boolean a value holds, or
      [JsonTypeError]; the casts to [T] are written out below. *)
  get_string : J -> outcome string;
  get_number : J -> outcome Z;
  get_bool : J -> outcome bool;
  (** Building a reply. *)
  json_null : J;
  json_number : Z -> J;
  json_bool : bool -> J;
  json_string : string -> J;
  json_object : list (string * J) -> J;
  json_array : list J -> J;
  (** What a range-based [for] meets. *)
  elements : J -> list J;
}.

(** The casts of numbers. *)
Definition as_size_t (z : Z) : Z := z mod 2 ^ 64.
Definition as_unsigned (z : Z) : Z := z mod 2 ^ 32.
Definition as_int32 (z : Z) : Z := (z + 2 ^ 31) mod 2 ^ 32 - 2 ^ 31.

Section get.
Context {J : Type} `{Json J}.

Definition get_size_t (j : J) : outcome Z := z ← get_number j; Ret (as_size_t z).
Definition get_unsigned (j : J) : outcome Z := z ← get_number j; Ret (as_unsigned z).
Definition get_int (j : J) : outcome Z := z ← get_number j; Ret (as_int32 z).

End get.

Module JSONUtil.
Section extract.
Context {J : Type} `{Json J} {A : Type}.

(** [extract_with_default<T>]: the default for a missing key or a null value;
    [json::out_of_range] is caught, any other exception is not. *)
Definition extract_with_default (get : J -> outcome A) (obj : J) (key : string) (default_value : A)
  : outcome A :=
  match at_ obj key with
  | Ret v =>
      if is_null v then Ret default_value
      else match get v with Throw JsonOutOfRange => Ret default_value | r => r end
  | Throw JsonOutOfRange => Ret default_value
  | Throw e => Throw e
  | Fault f => Fault f
  end.
End extract.
End JSONUtil.

(** ** A concrete value type *)

Inductive json :=
  | JNull
  | JBool (b : bool)
  | JNumber (z : Z)
  | JString (s : string)
  | JObject (fields : list (string * json))
  | JArray (l : list json).

Definition json_find (j : json) (key : string) : option json :=
  match j with
  | JObject fields => snd <$> List.find (fun kv => String.eqb (fst kv) key) fields
  | _ => None
  end.

#[export] Instance json_values : Json json := {|
  at_ := fun j key =>
    match j with
    | JObject _ => match json_find j key with Some v => Ret v | None => Throw JsonOutOfRange end
    | _ => Throw JsonTypeError
    end;
  find_ := json_find;
  is_null := fun j => match j with JNull => true | _ => false end;
  is_string := fun j => match j with JString _ => true | _ => false end;
  is_array := fun j => match j with JArray _ => true | _ => false end;
  get_string := fun j => match j with JString s => Ret s | _ => Throw JsonTypeError end;
  get_number := fun j => match j with JNumber z => Ret z | _ => Throw JsonTypeError end;
  get_bool := fun j => match j with JBool b => Ret b | _ => Throw JsonTypeError end;
  json_null := JNull;
  json_number := JNumber;
  json_bool := JBool;
  json_string := JString;
  json_object := JObject;
  json_array := JArray;
  elements := fun j => match j with JArray l => l | JObject fields => map snd fields | JNull => [] | _ => [j] end;
|}.

(** What the library documents of building a value and reading it back. *)
Class JsonLaws (J : Type) `{Json J} := {
  at_object l k : at_ (json_object l) k =
    match List.find (fun kv => String.eqb (fst kv) k) l with Some kv => Ret (snd kv) | None => Throw JsonOutOfRange end;
  null_number z : is_null (json_number z) = false;
  null_string s : is_null (json_string s) = false;
  number_read z : get_number (json_number z) = Ret z;
  string_read s : get_string (json_string s) = Ret s;
  array_elements l : elements (json_array l) = l;
}.

#[export] Instance json_laws : JsonLaws json.
Proof.
  split; try done. intros l k. cbn. unfold json_find. by destruct (List.find _ l).
Qed.
