(* ===== verification/AuditLog.v ===== *)
(** The audit log, [src/core/audit/]: event types, the life of an entry, and
    the sentences written for each kind of event.

    [FlagSet], the set of event types an entry carries, is a library that is
    not part of the repository: a parameter of the model. *)
From Stdlib Require Import ZArith Lia Ascii String.
From stdpp Require Import base tactics numbers list strings.
From S2P Require Import Prelude.

Open Scope Z_scope.

(** * Event types *)

Inductive EventType :=
  | AL_SYSTEM | AL_USER | WSAPI_CALL
  | USER_CREATED | USER_DELETED | USER_EDITED | USER_PASSWORD_CHANGED
  | USER_PASSWORD_CHANGE_FAILURE
  | GROUP_CREATED | GROUP_UPDATED | GROUP_DELETED
  | GROUP_MEMBERSHIP_JOINED | GROUP_MEMBERSHIP_LEFT
  | CREDENTIAL_DELETED | CREDENTIAL_CREATED | CREDENTIAL_UPDATED
  | SCHEDULE_CREATED | SCHEDULE_DELETED | SCHEDULE_UPDATED
  | DOOR_CREATED | DOOR_UPDATED | DOOR_DELETED | MAPPING_MAY_HAVE_CHANGED
  | ACCESS_POINT_CREATED | ACCESS_POINT_UPDATED | ACCESS_POINT_DELETED
  | ZONE_CREATED | ZONE_UPDATED | ZONE_DELETED
  | UPDATE_CREATED | UPDATE_ACKED | UPDATE_CANCELLED
  | DOOR_OPENED | DOOR_OPENED_MANUALLY | DOOR_FORCED | DOOR_FORCED_END
  | AUTH_GRANTED | AUTH_DENIED
  | LAST__.

#[export] Instance EventType_eq_dec : EqDecision EventType.
Proof. solve_decision. Defined.

(** The value of each enumerator, as written. *)
Definition AL_SYSTEM_value : Z := 0x1000.
Definition AL_USER_value : Z := 0x2000.

Definition event_value (e : EventType) : Z :=
  match e with
  | AL_SYSTEM => AL_SYSTEM_value
  | AL_USER => AL_USER_value
  | WSAPI_CALL => Z.land 0x00 AL_SYSTEM_value
  | USER_CREATED => Z.land 0x10 AL_SYSTEM_value
  | USER_DELETED => Z.land 0x11 AL_SYSTEM_value
  | USER_EDITED => Z.land 0x12 AL_SYSTEM_value
  | USER_PASSWORD_CHANGED => Z.land 0x13 AL_SYSTEM_value
  | USER_PASSWORD_CHANGE_FAILURE => Z.land 0x14 AL_SYSTEM_value
  | GROUP_CREATED => Z.land 0x20 AL_SYSTEM_value
  | GROUP_UPDATED => Z.land 0x21 AL_SYSTEM_value
  | GROUP_DELETED => Z.land 0x22 AL_SYSTEM_value
  | GROUP_MEMBERSHIP_JOINED => Z.land 0x23 AL_SYSTEM_value
  | GROUP_MEMBERSHIP_LEFT => Z.land 0x24 AL_SYSTEM_value
  | CREDENTIAL_DELETED => Z.land 0x30 AL_SYSTEM_value
  | CREDENTIAL_CREATED => Z.land 0x31 AL_SYSTEM_value
  | CREDENTIAL_UPDATED => Z.land 0x32 AL_SYSTEM_value
  | SCHEDULE_CREATED => Z.land 0x40 AL_SYSTEM_value
  | SCHEDULE_DELETED => Z.land 0x41 AL_SYSTEM_value
  | SCHEDULE_UPDATED => Z.land 0x42 AL_SYSTEM_value
  | DOOR_CREATED => Z.land 0x50 AL_SYSTEM_value
  | DOOR_UPDATED => Z.land 0x51 AL_SYSTEM_value
  | DOOR_DELETED => Z.land 0x52 AL_SYSTEM_value
  | MAPPING_MAY_HAVE_CHANGED => Z.land 0x53 AL_SYSTEM_value
  | ACCESS_POINT_CREATED => Z.land 0x60 AL_SYSTEM_value
  | ACCESS_POINT_UPDATED => Z.land 0x61 AL_SYSTEM_value
  | ACCESS_POINT_DELETED => Z.land 0x62 AL_SYSTEM_value
  | ZONE_CREATED => Z.land 0x70 AL_SYSTEM_value
  | ZONE_UPDATED => Z.land 0x71 AL_SYSTEM_value
  | ZONE_DELETED => Z.land 0x72 AL_SYSTEM_value
  | UPDATE_CREATED => Z.land 0x80 AL_SYSTEM_value
  | UPDATE_ACKED => Z.land 0x81 AL_SYSTEM_value
  | UPDATE_CANCELLED => Z.land 0x81 AL_SYSTEM_value
  | DOOR_OPENED => Z.land 0x10 AL_USER_value
  | DOOR_OPENED_MANUALLY => Z.land 0x11 AL_USER_value
  | DOOR_FORCED => Z.land 0x12 AL_USER_value
  | DOOR_FORCED_END => Z.land 0x13 AL_USER_value
  | AUTH_GRANTED => Z.land 0x20 AL_USER_value
  | AUTH_DENIED => Z.land 0x21 AL_USER_value
  | LAST__ => 0xffff
  end.

(** [FlagSet<EventType>]: a bit set with a bit for each value of the
    enumeration. *)
Class FlagSet (F : Type) := {
  fs_empty : F;
  fs_add : Z -> F -> F;
  fs_test : F -> Z -> bool;
}.
Class FlagSetLaws (F : Type) `{FlagSet F} := {
  fs_test_empty v : fs_test fs_empty v = false;
  fs_test_add v w s : fs_test (fs_add v s) w = (v =? w) || fs_test s w;
}.

(** * Entries *)

Module AuditEntry.
Section entry.
Context {F : Type} `{FlagSet F}.

(** An entry of the audit tree; [children_] and [parent_] by id. *)
Record t := mk {
  id_ : Z;
  event_mask_ : F;
  author_ : option Z;
  parent_ : option Z;
  children_ : list Z;
  duration_ : Z;
  finalized_ : bool;
}.

Definition event_mask (mask : F) (e : t) : outcome t :=
  _ ← cassert (negb (finalized_ e));
  Ret (mk (id_ e) mask (author_ e) (parent_ e) (children_ e) (duration_ e) (finalized_ e)).

(** [finalize], [elapsed] being what the entry's timer reads; finalizing again
    does nothing. *)
Definition finalize (elapsed : Z) (e : t) : t :=
  if finalized_ e then e
  else mk (id_ e) (event_mask_ e) (author_ e) (parent_ e) (children_ e)
          (duration_ e + elapsed) true.

(** [set_parent]: both entries. *)
Definition set_parent (parent : t) (e : t) : outcome (t * t) :=
  _ ← cassert (negb (id_ e =? 0));
  _ ← cassert (negb (id_ parent =? 0));
  _ ← cassert (bool_decide (parent_ e = None));
  Ret (mk (id_ parent) (event_mask_ parent) (author_ parent) (parent_ parent)
          (children_ parent ++ [id_ e]) (duration_ parent) (finalized_ parent),
       mk (id_ e) (event_mask_ e)
          (match author_ e with Some a => Some a | None => author_ parent end)
          (Some (id_ parent)) (children_ e) (duration_ e) (finalized_ e)).

(** [remove_parent], given the parent entry. *)
Definition remove_parent (parent : t) (e : t) : t * t :=
  match parent_ e with
  | None => (parent, e)
  | Some _ =>
      (mk (id_ parent) (event_mask_ parent) (author_ parent) (parent_ parent)
          (List.filter (fun i => negb (i =? id_ e)) (children_ parent))
          (duration_ parent) (finalized_ parent),
       mk (id_ e) (event_mask_ e) (author_ e) None (children_ e) (duration_ e) (finalized_ e))
  end.

Definition children_count (e : t) : Z := Z.of_nat (length (children_ e)).

End entry.
Arguments t : clear implicits.
End AuditEntry.

(** * Descriptions *)

Section describe.
Context {F : Type} `{FlagSet F}.

(** [operator&] of a mask and an event type. *)
Definition masks (mask : F) (e : EventType) : bool := fs_test mask (event_value e).

Definition mask_of (e : EventType) : F := fs_add (event_value e) fs_empty.

(** The [if]/[else if] chains of the [generate_description] methods:
    [target] is the text [generate_target_description] gives. *)
Fixpoint first_of (mask : F) (cases : list (EventType * string)) : string :=
  match cases with
  | [] => ""
  | (e, sentence) :: cases => if masks mask e then sentence else first_of mask cases
  end.

Definition user_event (mask : F) (target : string) : string :=
  first_of mask [
    (USER_CREATED, "User " +:+ target +:+ " has been created.");
    (USER_EDITED, "User " +:+ target +:+ " has been edited.");
    (USER_DELETED, "User " +:+ target +:+ " has been deleted.")].

Definition group_event (mask : F) (target : string) : string :=
  first_of mask [
    (GROUP_CREATED, "Group " +:+ target +:+ " has been created.");
    (GROUP_UPDATED, "Group " +:+ target +:+ " has been edited.");
    (GROUP_DELETED, "Group " +:+ target +:+ " has been deleted.")].

Definition membership_event (mask : F) (user group : string) : string :=
  first_of mask [
    (GROUP_MEMBERSHIP_JOINED, "User " +:+ user +:+ " has joined the group " +:+ group);
    (GROUP_MEMBERSHIP_LEFT, "User " +:+ user +:+ " has left the group " +:+ group)].

Definition credential_event (mask : F) (target : string) : string :=
  first_of mask [
    (CREDENTIAL_CREATED, "Credential " +:+ target +:+ " has been created.");
    (CREDENTIAL_UPDATED, "Credential " +:+ target +:+ " has been edited.");
    (CREDENTIAL_DELETED, "Credential " +:+ target +:+ " has been deleted.")].

Definition schedule_event (mask : F) (target : string) : string :=
  first_of mask [
    (SCHEDULE_CREATED, "Schedule " +:+ target +:+ " has been created.");
    (SCHEDULE_UPDATED, "Schedule " +:+ target +:+ " has been edited.");
    (SCHEDULE_DELETED, "Schedule " +:+ target +:+ " has been deleted.")].

Definition door_event (mask : F) (target : string) : string :=
  first_of mask [
    (DOOR_CREATED, "Door " +:+ target +:+ " has been created.");
    (DOOR_UPDATED, "Door " +:+ target +:+ " has been edited.");
    (DOOR_DELETED, "Door " +:+ target +:+ " has been deleted.");
    (DOOR_OPENED, "Door " +:+ target +:+ " has been opened.");
    (DOOR_OPENED_MANUALLY, "Door " +:+ target +:+ " has been opened manually (eg. exit button).");
    (DOOR_FORCED, "Door " +:+ target +:+ " has been forced.");
    (DOOR_FORCED_END, "Door " +:+ target +:+ " forcing ended.")].

(** The tests of a zone's events are those of doors. *)
Definition zone_event (mask : F) (target : string) : string :=
  first_of mask [
    (DOOR_CREATED, "Zone " +:+ target +:+ " has been created.");
    (DOOR_UPDATED, "Zone " +:+ target +:+ " has been edited.");
    (DOOR_DELETED, "Zone " +:+ target +:+ " has been deleted.")].

Definition access_point_event (mask : F) (target : string) : string :=
  first_of mask [
    (ACCESS_POINT_CREATED, "AccessPoint " +:+ target +:+ " has been created.");
    (ACCESS_POINT_UPDATED, "AccessPoint " +:+ target +:+ " has been edited.");
    (ACCESS_POINT_DELETED, "AccessPoint " +:+ target +:+ " has been deleted.")].

Definition update_event (mask : F) (target : Z) : string :=
  first_of mask [
    (UPDATE_CREATED, "Update " +:+ to_string target +:+ " has been created.");
    (UPDATE_ACKED, "Update " +:+ to_string target +:+ " has been acknowledged.");
    (UPDATE_CANCELLED, "Update " +:+ to_string target +:+ " has been cancelled.")].

Definition auth_event (mask : F) (credential : string) : string :=
  first_of mask [
    (AUTH_GRANTED, "Access Granted to Credential " +:+ credential +:+ ".");
    (AUTH_DENIED, "Access Denied to Credential " +:+ credential +:+ ".")].

End describe.

(** ** Lemmas *)

(** The group bits are above every number the enumerators combine with them
    by [&]. *)
Lemma event_value_zero e : e ∉ [AL_SYSTEM; AL_USER; LAST__] -> event_value e = 0.
Proof. rewrite !not_elem_of_cons. by destruct e; intuition. Qed.

Lemma mask_of_any {F} `{FlagSetLaws F} e e' :
  e ∉ [AL_SYSTEM; AL_USER; LAST__] -> e' ∉ [AL_SYSTEM; AL_USER; LAST__] ->
  masks (mask_of e) e' = true.
Proof.
  intros H1 H2. unfold masks, mask_of. by rewrite fs_test_add, !event_value_zero.
Qed.

(** ** Properties *)

(** the audit log cannot tell events apart. The enumerators combine their
    number with the group's bit by [&], which gives 0 for every event, so an
    entry recorded for one event tests as every other and is described by the
    first sentence of its kind: a refused access is logged as granted, a member
    who leaves as one who joins, a forced door as one that was created. *)
Theorem audit_events_confused {F} `{FlagSetLaws F} e :
  e ∉ [AL_SYSTEM; AL_USER; LAST__] ->
  let mask : F := mask_of e in
  (forall e', e' ∉ [AL_SYSTEM; AL_USER; LAST__] -> masks mask e' = true) /\
  (forall c, auth_event mask c = "Access Granted to Credential " +:+ c +:+ ".") /\
  (forall u g, membership_event mask u g = "User " +:+ u +:+ " has joined the group " +:+ g) /\
  (forall u, user_event mask u = "User " +:+ u +:+ " has been created.") /\
  (forall d, door_event mask d = "Door " +:+ d +:+ " has been created.").
Proof.
  intros He mask. assert (Hm : forall e', e' ∉ [AL_SYSTEM; AL_USER; LAST__] -> masks mask e' = true)
    by (intros; by apply mask_of_any).
  split; [done|].
  unfold auth_event, membership_event, user_event, door_event, first_of.
  repeat split; intros; by rewrite Hm by (apply (bool_decide_unpack _); by vm_compute).
Qed.

(** ** Witnesses *)

#[export] Instance list_flags : FlagSet (list Z) :=
  {| fs_empty := []; fs_add := cons; fs_test := fun s v => existsb (Z.eqb v) s |}.
#[export] Instance list_flag_laws : FlagSetLaws (list Z).
Proof. split; [done|]. intros v w s. cbn. by rewrite Z.eqb_sym. Qed.

Lemma audit_events_witness :
  auth_event (F := list Z) (mask_of AUTH_DENIED) "door" = "Access Granted to Credential door.".
Proof.
  destruct (audit_events_confused (F := list Z) AUTH_DENIED) as (_ & H & _).
  - apply (bool_decide_unpack _); vm_compute; exact I.
  - exact (H "door").
Defined.
