(* ===== verification/Wiegand.v ===== *)
(** The Wiegand module, [src/modules/wiegand/wiegand.cpp] and
    [WiegandConfig.hpp]: from its configuration to the readers it runs.

    The names of the devices of a configuration are checked against the
    [ConfigChecker] of the core ([src/core/config/ConfigChecker.cpp]). *)
From Stdlib Require Import ZArith Lia Ascii String.
From stdpp Require Import base tactics numbers list strings gmap.
From S2P Require Import Prelude Ptree Reader Strategies Device Autodetect.
Import WiegandReaderImpl.

Open Scope Z_scope.

(** * Devices *)

Inductive DeviceClass :=
  | UNKNOWN | GPIO | RFID_READER | LED | BUZZER | EXTERNAL_MESSAGE | EXTERNAL_SERVER | ALARM.

#[export] Instance DeviceClass_eq_dec : EqDecision DeviceClass.
Proof. solve_decision. Defined.

Module ConfigChecker.

Abbreviation t := (gmap string DeviceClass).

Definition register_object (name : string) (type : DeviceClass) (c : t) : outcome t :=
  _ ← cassert (bool_decide (c !! name = None));
  Ret (<[name := type]> c).

Definition has_name (name : string) (c : t) : bool := bool_decide (is_Some (c !! name)).
Definition has_object (name : string) (type : DeviceClass) (c : t) : bool :=
  bool_decide (c !! name = Some type).
Definition clear (c : t) : t := ∅.

End ConfigChecker.

(** * The configuration of a reader *)

Module WiegandReaderConfig.

(** The devices are pointers that may be null; a device is known by its name. *)
Record t := mk {
  name : string;
  gpio_high_ : option string;
  gpio_low_ : option string;
  green_led_ : option string;
  buzzer_ : option string;
  mode : string;
  pin_timeout : Z;
  pin_key_end : ascii;
  nowait : bool;
}.

Definition make : t := mk "" None None None None "SIMPLE_WIEGAND" 2500 "#" false.

Definition device_name (dev : option string) : string := default "" dev.

Definition valid_operation_modes : list string :=
  ["SIMPLE_WIEGAND"; "WIEGAND_PIN_4BITS"; "WIEGAND_PIN_8BITS"; "WIEGAND_PIN_BUFFERED";
   "WIEGAND_CARD_PIN_4BITS"; "WIEGAND_CARD_PIN_8BITS"; "WIEGAND_CARD_PIN_BUFFERED"; "AUTODETECT"].

(** [validation_callback] after the object was written to the database: the
    name first, in [Hardware::Device::validation_callback]. *)
Definition validate_written (c : t) : outcome unit :=
  _ ← enforce (negb (str_empty (name c)))
        (ModelException "data/attributes/name" "Device name must be non empty");
  enforce (bool_decide (mode c ∈ valid_operation_modes))
    (ModelException "data/attributes/mode" "Invalid wiegand-reader mode.").

End WiegandReaderConfig.

(** * Choosing a strategy *)

(** Any of the strategies [create_strategy] returns. *)
Definition any_strategy : Type :=
  Simple.t + (PinNBits.t 4 + (PinNBits.t 8 + (PinBuffered.t +
    (CardAndPin.t Simple.t (PinNBits.t 4) + (CardAndPin.t Simple.t (PinNBits.t 8) +
      (CardAndPin.t Simple.t PinBuffered.t + Strategies.Autodetect.t)))))).

(** The readers of the module, each with what it pushed to the bus. *)
Abbreviation readers := (list (device any_strategy * list message)).

Section module.
Import WiegandReaderConfig.

Definition create_strategy (clk : clock) (cfg : WiegandReaderConfig.t) : outcome any_strategy :=
  let simple_wiegand := Simple.make in
  let pin_4bits := PinNBits.make (NbBits := 4) clk (pin_timeout cfg) (pin_key_end cfg) in
  let pin_8bits := PinNBits.make (NbBits := 8) clk (pin_timeout cfg) (pin_key_end cfg) in
  let pin_buffered := PinBuffered.make in
  let mode_is m := String.eqb (mode cfg) m in
  if mode_is "SIMPLE_WIEGAND" then Ret (inl simple_wiegand)
  else if mode_is "WIEGAND_PIN_4BITS" then Ret (inr (inl pin_4bits))
  else if mode_is "WIEGAND_PIN_8BITS" then Ret (inr (inr (inl pin_8bits)))
  else if mode_is "WIEGAND_PIN_BUFFERED" then Ret (inr (inr (inr (inl pin_buffered))))
  else if mode_is "WIEGAND_CARD_PIN_4BITS" then
    Ret (inr (inr (inr (inr (inl (CardAndPin.make clk simple_wiegand pin_4bits (pin_timeout cfg)))))))
  else if mode_is "WIEGAND_CARD_PIN_8BITS" then
    Ret (inr (inr (inr (inr (inr (inl (CardAndPin.make clk simple_wiegand pin_8bits (pin_timeout cfg))))))))
  else if mode_is "WIEGAND_CARD_PIN_BUFFERED" then
    Ret (inr (inr (inr (inr (inr (inr (inl
      (CardAndPin.make clk simple_wiegand pin_buffered (pin_timeout cfg)))))))))
  else if mode_is "AUTODETECT" then
    Ret (inr (inr (inr (inr (inr (inr (inr
      (Strategies.Autodetect.make clk (pin_timeout cfg) (pin_key_end cfg) (nowait cfg)))))))))
  else Fault AssertFailed.

(** * Configuration *)

(** [BaseModule::config_check]: a missing object aborts in strict mode only. *)
Definition config_check (strict : bool) (checker : ConfigChecker.t) (name : string)
    (type : DeviceClass) : outcome unit :=
  cassert (ConfigChecker.has_object name type checker || negb strict).

Context {T : Type} `{PropertyTree T}.

Definition load_reader (strict : bool) (checker : ConfigChecker.t) (xml_reader_cfg : T)
  : outcome WiegandReaderConfig.t :=
  high ← get as_string xml_reader_cfg "high";
  low ← get as_string xml_reader_cfg "low";
  let green_led := get_default as_string xml_reader_cfg "green_led" "" in
  let buzzer := get_default as_string xml_reader_cfg "buzzer" "" in
  name_node ← get_child xml_reader_cfg "name";
  let cfg := mk (data name_node) (Some high) (Some low) (Some green_led) (Some buzzer)
    (get_default as_string xml_reader_cfg "mode" "SIMPLE_WIEGAND")
    (get_default as_int xml_reader_cfg "pin_timeout" 2500)
    (get_default as_char xml_reader_cfg "pin_key_end" "#"%char)
    (get_default as_bool xml_reader_cfg "nowait" false) in
  _ ← config_check strict checker low GPIO;
  _ ← config_check strict checker high GPIO;
  _ ← (if str_empty green_led then Ret tt else config_check strict checker green_led LED);
  _ ← (if str_empty buzzer then Ret tt else config_check strict checker buzzer BUZZER);
  Ret cfg.

Definition load_xml_config (strict : bool) (checker : ConfigChecker.t) (module_config : T)
  : outcome (list WiegandReaderConfig.t) :=
  readers ← get_child module_config "readers";
  foldM (fun l node => cfg ← load_reader strict checker node.2; Ret (l ++ [cfg]))
    [] (children readers).

Definition make_reader (cfg : WiegandReaderConfig.t) : reader :=
  WiegandReaderImpl.make (WiegandReaderConfig.name cfg) (device_name (gpio_high_ cfg))
    (device_name (gpio_low_ cfg)) (device_name (green_led_ cfg)) (device_name (buzzer_ cfg)).

Definition add_reader (clk : clock) (st : ConfigChecker.t * readers) (cfg : WiegandReaderConfig.t)
  : outcome (ConfigChecker.t * readers) :=
  let '(checker, rs) := st in
  strategy ← create_strategy clk cfg;
  checker ← ConfigChecker.register_object (WiegandReaderConfig.name cfg) RFID_READER checker;
  Ret (checker, rs ++ [(mk_device (make_reader cfg) strategy, [])]).

(** [process_config]; [db] is what [load_db_config] reads, the enabled readers. *)
Definition process_config (clk : clock) (strict : bool) (db : list WiegandReaderConfig.t)
    (checker : ConfigChecker.t) (config : T) : outcome (ConfigChecker.t * readers) :=
  module_config ← get_child config "module_config";
  cfgs ← (if get_default as_bool module_config "use_database" false then Ret db
          else load_xml_config strict checker module_config);
  foldM (add_reader clk) (checker, []) cfgs.

End module.

(** * The module's loop *)

(** One turn of [run]: a message on the subscription of reader [i], or 50 ms
    without any, on which every reader's [timeout] runs with its own clock. *)
Inductive turn :=
  | BusMessage (i : nat) (msg : string)
  | Quiet (clks : nat -> clock).

(** [for (auto &reader : readers_) reader.timeout();], from reader [i] on. *)
Fixpoint tick_all (clks : nat -> clock) (i : nat) (rs : readers) : outcome readers :=
  match rs with
  | [] => Ret []
  | st :: rs =>
      st ← device_step st (Tick (clks i));
      rs ← tick_all clks (S i) rs;
      Ret (st :: rs)
  end.

Definition module_turn (rs : readers) (t : turn) : outcome readers :=
  match t with
  | BusMessage i msg =>
      match rs !! i with
      | Some st => st ← device_step st (Interrupt msg); Ret (<[i := st]> rs)
      | None => Ret rs
      end
  | Quiet clks => tick_all clks 0 rs
  end.

Definition module_run (rs : readers) (ts : list turn) : outcome readers := foldM module_turn rs ts.

(** What reader [i] sees of a run of the module. *)
Definition view (i : nat) (t : turn) : list event :=
  match t with
  | BusMessage j msg => if decide (i = j) then [Interrupt msg] else []
  | Quiet clks => [Tick (clks i)]
  end.
Definition views (i : nat) (ts : list turn) : list event := flat_map (view i) ts.

(** ** Lemmas *)

Lemma tick_all_lookup clks k rs rs' i st :
  tick_all clks k rs = Ret rs' -> rs !! i = Some st ->
  exists st', rs' !! i = Some st' /\ device_step st (Tick (clks (k + i)%nat)) = Ret st'.
Proof.
  revert k rs' i. induction rs as [|x rs IH]; intros k rs' [|i] Hr Hi; try discriminate Hi.
  - injection Hi as ->. cbn [tick_all] in Hr. bind_inv Hr. injection Hr as <-.
    rewrite Nat.add_0_r. eauto.
  - cbn [tick_all] in Hr. bind_inv Hr. injection Hr as <-. cbn in Hi |- *.
    replace (k + S i)%nat with (S k + i)%nat by lia. eauto.
Qed.

Lemma module_turn_lookup rs t rs' i st :
  module_turn rs t = Ret rs' -> rs !! i = Some st ->
  exists st', rs' !! i = Some st' /\ foldM device_step st (view i t) = Ret st'.
Proof.
  intros Hr Hi. destruct t as [j msg|clks]; cbn [module_turn view] in *.
  - destruct (rs !! j) as [x|] eqn:Hj.
    + bind_inv Hr. injection Hr as <-. case_decide as Hij.
      * subst j. rewrite Hi in Hj. injection Hj as ->.
        exists a. rewrite list_lookup_insert_eq by (by eapply lookup_lt_Some). cbn [foldM].
        rewrite E. done.
      * exists st. by rewrite list_lookup_insert_ne by done.
    + injection Hr as <-. exists st. split; [done|]. case_decide; [congruence|done].
  - destruct (tick_all_lookup _ _ _ _ _ _ Hr Hi) as (st' & ? & E). exists st'. split; [done|].
    cbn [foldM Nat.add] in *. by rewrite E.
Qed.

Lemma create_strategy_modes clk cfg :
  is_ret (create_strategy clk cfg) =
  bool_decide (WiegandReaderConfig.mode cfg ∈ WiegandReaderConfig.valid_operation_modes).
Proof.
  unfold create_strategy, WiegandReaderConfig.valid_operation_modes.
  repeat match goal with |- context [String.eqb ?x ?y] =>
    destruct (String.eqb_spec x y) as [->|]; [reflexivity|] end.
  symmetry. apply bool_decide_eq_false. rewrite !elem_of_cons, elem_of_nil. tauto.
Qed.

(** The readers of [cfgs] appended to [rs], all names registered. *)
Lemma add_readers clk cfgs checker rs :
  Forall (fun c => WiegandReaderConfig.mode c ∈ WiegandReaderConfig.valid_operation_modes) cfgs ->
  NoDup (map WiegandReaderConfig.name cfgs) ->
  Forall (fun c => checker !! WiegandReaderConfig.name c = None) cfgs ->
  exists checker' new, foldM (add_reader clk) (checker, rs) cfgs = Ret (checker', rs ++ new) /\
    map (fun st => (rd st.1, st.2)) new = map (fun c => (make_reader c, [])) cfgs /\
    Forall (fun c => ConfigChecker.has_object (WiegandReaderConfig.name c) RFID_READER checker' = true) cfgs /\
    (forall n, n ∉ map WiegandReaderConfig.name cfgs -> checker' !! n = checker !! n).
Proof.
  revert checker rs. induction cfgs as [|c cfgs IH]; intros checker rs Hm Hnd Hf.
  { exists checker, []. rewrite app_nil_r. done. }
  apply Forall_cons in Hm as [Hmc Hm]. apply Forall_cons in Hf as [Hfc Hf].
  cbn in Hnd. apply NoDup_cons in Hnd as [Hni Hnd].
  assert (Hs : is_ret (create_strategy clk c) = true)
    by (rewrite create_strategy_modes; by apply bool_decide_eq_true).
  destruct (create_strategy clk c) as [strat| |] eqn:Es; try discriminate Hs.
  assert (Hadd : add_reader clk (checker, rs) c =
    Ret (<[WiegandReaderConfig.name c := RFID_READER]> checker,
         rs ++ [(mk_device (make_reader c) strat, [])])).
  { unfold add_reader, ConfigChecker.register_object. rewrite Es. cbn [mbind outcome_bind].
    by rewrite bool_decide_eq_true_2. }
  cbn [foldM]. rewrite Hadd. cbn [mbind outcome_bind].
  destruct (IH (<[WiegandReaderConfig.name c := RFID_READER]> checker)
               (rs ++ [(mk_device (make_reader c) strat, [])]) Hm Hnd)
    as (checker' & new & -> & Hnew & Hreg & Hother).
  { rewrite List.Forall_forall in Hf |- *. intros d Hd. rewrite lookup_insert_ne; [by apply Hf|].
    intros Heq. apply Hni. rewrite Heq. by apply list_elem_of_In, in_map. }
  exists checker', ((mk_device (make_reader c) strat, []) :: new).
  rewrite <- app_assoc. split; [done|]. split; [by cbn; rewrite Hnew|]. split.
  - constructor; [|done]. unfold ConfigChecker.has_object. apply bool_decide_eq_true.
    rewrite Hother by done. by rewrite lookup_insert_eq.
  - intros n Hn. cbn in Hn. rewrite not_elem_of_cons in Hn. destruct Hn as [Hn1 Hn2].
    rewrite Hother by done. by rewrite lookup_insert_ne.
Qed.

(** ** Properties *)

(** a configuration the database accepted can always be run: a strategy is
    created for exactly the modes the validation callback lets through, and
    any other mode - which only an XML configuration can hold - aborts. *)
Theorem validated_mode_runs clk cfg :
  WiegandReaderConfig.name cfg <> "" ->
  (WiegandReaderConfig.validate_written cfg = Ret tt <-> is_ret (create_strategy clk cfg) = true) /\
  (is_ret (create_strategy clk cfg) = false -> create_strategy clk cfg = Fault AssertFailed).
Proof.
  intros Hn. split.
  - rewrite create_strategy_modes. unfold WiegandReaderConfig.validate_written.
    destruct (WiegandReaderConfig.name cfg); [done|]. cbn. by case_bool_decide.
  - unfold create_strategy. repeat (case_match; [done|]). done.
Qed.

(** readers do not interfere: in a run of the whole module each reader goes
    through exactly the states, and pushes exactly the messages, of a run of
    that reader alone on the events it sees. *)
Theorem readers_isolated rs ts rs' i st :
  module_run rs ts = Ret rs' -> rs !! i = Some st ->
  exists st', rs' !! i = Some st' /\ foldM device_step st (views i ts) = Ret st'.
Proof.
  revert rs st. induction ts as [|t ts IH]; cbn; intros rs st Hr Hi.
  - injection Hr as <-. eauto.
  - unfold module_run in Hr. cbn [foldM] in Hr. bind_inv Hr.
    destruct (module_turn_lookup _ _ _ _ _ E Hi) as (st1 & Hi1 & E1).
    destruct (IH _ _ Hr Hi1) as (st' & Hi' & E'). exists st'. split; [done|].
    unfold views. cbn [flat_map]. rewrite foldM_app, E1. exact E'.
Qed.

(** the module builds one reader per configured reader, in order, wired to
    the configured pins and with nothing received or sent, and registers every
    name; it needs valid modes and names that are distinct and not taken,
    for [ConfigChecker] aborts on a name registered twice. *)
Theorem process_config_builds {T} `{PropertyTree T} clk strict db checker (config mc : T) :
  get_child config "module_config" = Ret mc -> get_default as_bool mc "use_database" false = true ->
  Forall (fun c => WiegandReaderConfig.mode c ∈ WiegandReaderConfig.valid_operation_modes) db ->
  NoDup (map WiegandReaderConfig.name db) ->
  Forall (fun c => checker !! WiegandReaderConfig.name c = None) db ->
  exists checker' rs, process_config clk strict db checker config = Ret (checker', rs) /\
    map (fun st => (rd st.1, st.2)) rs = map (fun c => (make_reader c, [])) db /\
    Forall (fun st => reader_ok (rd st.1) /\ clean (rd st.1) /\ counter (rd st.1) = 0) rs /\
    Forall (fun c => ConfigChecker.has_object (WiegandReaderConfig.name c) RFID_READER checker' = true) db.
Proof.
  intros Hmc Hdb Hm Hnd Hf. unfold process_config. rewrite Hmc. cbn [mbind outcome_bind].
  rewrite Hdb. cbn [mbind outcome_bind].
  destruct (add_readers clk db checker [] Hm Hnd Hf) as (checker' & rs & Hrun & Hmap & Hreg & _).
  exists checker', rs. split; [exact Hrun|]. split; [exact Hmap|]. split; [|exact Hreg].
  assert (Hall : Forall (fun x : reader * list message =>
    reader_ok x.1 /\ clean x.1 /\ counter x.1 = 0) (map (fun st => (rd st.1, st.2)) rs)).
  { rewrite Hmap. apply Forall_map, Forall_true. intros c. cbn. split; [apply make_ok|]. split; done. }
  by apply Forall_map in Hall.
Qed.

(** ** Witnesses *)

(** A module with a card reader and a keypad. *)
Definition demo_card_cfg : WiegandReaderConfig.t :=
  WiegandReaderConfig.mk "WIEGAND_1" (Some "GPIO_HIGH") (Some "GPIO_LOW") None None
    "SIMPLE_WIEGAND" 2500 "#" false.
Definition demo_pin_cfg : WiegandReaderConfig.t :=
  WiegandReaderConfig.mk "KEYPAD" (Some "GPIO_A") (Some "GPIO_B") None None
    "WIEGAND_PIN_4BITS" 2500 "#" false.
Definition demo_config : xml := Node "" [("module_config", Node "" [("use_database", leaf "true")])].

Definition demo_readers : readers :=
  match process_config (clock_at 0) false [demo_card_cfg; demo_pin_cfg] ∅ demo_config with
  | Ret (_, rs) => rs
  | _ => []
  end.

Lemma validated_mode_runs_witness :
  is_ret (create_strategy (clock_at 0) demo_pin_cfg) = true.
Proof.
  apply (validated_mode_runs (clock_at 0) demo_pin_cfg); [discriminate | reflexivity].
Defined.

Lemma readers_isolated_witness :
  exists rs' st', module_run demo_readers
      [BusMessage 0 "S_INT:GPIO_HIGH"; BusMessage 1 "S_INT:GPIO_B"; Quiet (fun _ => clock_at 5)] = Ret rs' /\
    rs' !! 0%nat = Some st' /\ st'.2 = [[FStr "S_WIEGAND_1"; FU8 1; FStr "80"; FInt 1]].
Proof.
  eexists. destruct (readers_isolated demo_readers
    [BusMessage 0 "S_INT:GPIO_HIGH"; BusMessage 1 "S_INT:GPIO_B"; Quiet (fun _ => clock_at 5)]
    _ 0 _ ltac:(vm_compute; reflexivity) ltac:(vm_compute; reflexivity)) as (st' & Hi & Hst).
  exists st'. split; [vm_compute; reflexivity|]. split; [exact Hi|].
  vm_compute in Hst. injection Hst as <-. reflexivity.
Defined.

Lemma process_config_witness :
  exists checker' rs, process_config (clock_at 0) true [demo_card_cfg; demo_pin_cfg] ∅ demo_config =
    Ret (checker', rs) /\ map (fun st => name (rd st.1)) rs = ["WIEGAND_1"; "KEYPAD"].
Proof.
  destruct (process_config_builds (clock_at 0) true [demo_card_cfg; demo_pin_cfg] ∅ demo_config
    (Node "" [("use_database", leaf "true")])) as (checker' & rs & Hrun & Hmap & _).
  - reflexivity.
  - reflexivity.
  - repeat constructor; cbn; apply (bool_decide_unpack _); reflexivity.
  - apply (bool_decide_unpack _); reflexivity.
  - repeat constructor.
  - exists checker', rs. split; [exact Hrun|].
    apply (f_equal (map (fun x : reader * list message => name x.1))) in Hmap.
    rewrite !List.map_map in Hmap. exact Hmap.
Defined.
