(* ===== verification/Users.v ===== *)
(** Users, groups and memberships: [src/core/auth/ValidityInfo.cpp],
    [User.cpp], [Group.cpp] and [UserGroupMembership.cpp].

    A group's memberships are a [std::set] ordered by
    [UserGroupMembershipComparator]; it is modelled as a sorted list. *)
From Stdlib Require Import ZArith Lia Ascii String.
From stdpp Require Import base tactics numbers list strings sorting.
From S2P Require Import Prelude.

Open Scope Z_scope.

(** * ValidityInfo *)

Module ValidityInfo.

Record t := mk { start_ : Z; end_ : Z; enabled_ : bool }.

(** [std::chrono::system_clock::time_point]'s range, in nanoseconds. *)
Definition time_point_min : Z := - 2 ^ 63.
Definition time_point_max : Z := 2 ^ 63 - 1.

Definition default : t := mk time_point_min time_point_max true.

Definition is_enabled (v : t) : bool := enabled_ v.
Definition is_in_range (now : Z) (v : t) : bool := (start_ v <=? now) && (now <=? end_ v).
Definition is_valid (now : Z) (v : t) : bool := is_enabled v && is_in_range now v.

Section dates.
(** [strptime(s, "%d/%m/%Y %H:%M")] then [mktime] in the machine's time zone:
    the time point of a date, [None] when the text is not a date. *)
Context (parse_date : string -> option Z).

Definition set_start_date (s : string) (v : t) : outcome t :=
  if str_empty s then Ret (mk time_point_min (end_ v) (enabled_ v))
  else match parse_date s with
       | Some tp => Ret (mk tp (end_ v) (enabled_ v))
       | None => Fault AssertFailed
       end.

Definition set_end_date (s : string) (v : t) : outcome t :=
  if str_empty s then Ret (mk (start_ v) time_point_max (enabled_ v))
  else match parse_date s with
       | Some tp => Ret (mk (start_ v) tp (enabled_ v))
       | None => Fault AssertFailed
       end.

Definition set_enabled (b : bool) (v : t) : t := mk (start_ v) (end_ v) b.
End dates.

End ValidityInfo.

(** * Ranks *)

(** Both enumerations have [int] underneath; the casts the API makes from
    numbers keep a value that is no enumerator, the last constructors. *)
Inductive UserRank := USER | VIEWER | MANAGER | SUPERVISOR | ADMIN | USER_RANK_CAST (v : Z).
Definition user_rank_val (r : UserRank) : Z :=
  match r with
  | USER => 0 | VIEWER => 1 | MANAGER => 2 | SUPERVISOR => 3 | ADMIN => 4
  | USER_RANK_CAST v => v
  end.
Definition user_rank_of (v : Z) : UserRank :=
  if v =? 0 then USER else if v =? 1 then VIEWER else if v =? 2 then MANAGER
  else if v =? 3 then SUPERVISOR else if v =? 4 then ADMIN else USER_RANK_CAST v.

Inductive GroupRank := GMEMBER | GOPERATOR | GADMIN | GROUP_RANK_CAST (v : Z).
Definition group_rank_val (r : GroupRank) : Z :=
  match r with GMEMBER => 0 | GOPERATOR => 1 | GADMIN => 2 | GROUP_RANK_CAST v => v end.
Definition group_rank_of (v : Z) : GroupRank :=
  if v =? 0 then GMEMBER else if v =? 1 then GOPERATOR else if v =? 2 then GADMIN
  else GROUP_RANK_CAST v.

#[export] Instance UserRank_eq_dec : EqDecision UserRank.
Proof. solve_decision. Defined.
#[export] Instance GroupRank_eq_dec : EqDecision GroupRank.
Proof. solve_decision. Defined.

(** * Scrypt: the password hashes, [src/tools/scrypt/Scrypt.cpp] *)

Record ScryptParam := mk_param { N_ : Z; r_ : Z; p_ : Z; len_ : Z }.
Record ScryptResult := mk_result { params : ScryptParam; salt : list Z; hash : list Z }.

Definition scrypt_default : ScryptParam := mk_param 16384 8 1 64.

(** [std::vector<uint8_t>(pw.begin(), pw.end())]. *)
Definition password_bytes (pw : string) : list Z := map code (chars pw).

Module Scrypt.
Section scrypt.
(** [libscrypt_scrypt]: the derived key of a password, a salt and parameters;
    [None] when it returns an error. *)
Context (libscrypt_scrypt : list Z -> list Z -> ScryptParam -> option (list Z)).

Definition Hash (in_ salt : list Z) (param : ScryptParam) : outcome ScryptResult :=
  match libscrypt_scrypt in_ salt param with
  | Some out => Ret (mk_result param salt out)
  | None => Throw (StdRuntimeError "FAILED TO SCRYPT")
  end.

Definition Verify (in_ : list Z) (expected : ScryptResult) : outcome bool :=
  out ← Hash in_ (salt expected) (params expected);
  Ret (bool_decide (hash out = hash expected)).
End scrypt.
End Scrypt.

(** * User *)

Module User.

Record t := mk {
  id_ : Z;
  username_ : string;
  firstname_ : string;
  lastname_ : string;
  email_ : string;
  validity_ : ValidityInfo.t;
  rank_ : UserRank;
  password_ : option ScryptResult;
}.

Definition make (id : Z) : t := mk id "" "" "" "" ValidityInfo.default USER None.

Definition is_valid_username_character (c : ascii) : bool :=
  isascii c && (isalnum c || Ascii.eqb c "." || Ascii.eqb c "_" || Ascii.eqb c "-").

Definition set_username (s : string) (u : t) : outcome t :=
  if forallb is_valid_username_character (chars s)
  then Ret (mk (id_ u) (text (map tolower (chars s))) (firstname_ u) (lastname_ u)
               (email_ u) (validity_ u) (rank_ u) (password_ u))
  else Throw (LEOSACException ("Invalid username: {" +:+ s +:+ "}")).

Definition username (u : t) : outcome string :=
  _ ← cassert (forallb is_valid_username_character (chars (username_ u)));
  Ret (username_ u).

Definition set_names (firstname lastname email : string) (u : t) : t :=
  mk (id_ u) (username_ u) firstname lastname email (validity_ u) (rank_ u) (password_ u).
Definition set_validity (v : ValidityInfo.t) (u : t) : t :=
  mk (id_ u) (username_ u) (firstname_ u) (lastname_ u) (email_ u) v (rank_ u) (password_ u).
Definition set_rank (r : UserRank) (u : t) : t :=
  mk (id_ u) (username_ u) (firstname_ u) (lastname_ u) (email_ u) (validity_ u) r (password_ u).

(** [User::password], [salt] being the bytes [Random::GetBytes(16)] gives, and
    [User::verify_password]. *)
Definition set_password (libscrypt_scrypt : list Z -> list Z -> ScryptParam -> option (list Z))
    (salt : list Z) (pw : string) (u : t) : outcome t :=
  h ← Scrypt.Hash libscrypt_scrypt (password_bytes pw) salt scrypt_default;
  Ret (mk (id_ u) (username_ u) (firstname_ u) (lastname_ u) (email_ u) (validity_ u) (rank_ u)
          (Some h)).
Definition verify_password (libscrypt_scrypt : list Z -> list Z -> ScryptParam -> option (list Z))
    (pw : string) (u : t) : outcome bool :=
  match password_ u with
  | Some h => Scrypt.Verify libscrypt_scrypt (password_bytes pw) h
  | None => Ret false
  end.

Definition is_valid (now : Z) (u : t) : bool := ValidityInfo.is_valid now (validity_ u).

End User.

(** * UserGroupMembership *)

Module UserGroupMembership.

Record t := mk { id_ : Z; user_id : Z; group_id : Z; rank_ : GroupRank }.

(** Lexicographic [<] on [std::pair]. *)
Definition pair_lt (a b : Z * Z) : bool := (a.1 <? b.1) || ((a.1 =? b.1) && (a.2 <? b.2)).

(** [UserGroupMembershipComparator]: when an id is not set yet the comparator
    orders the addresses of its arguments, [addr_lt]. *)
Definition compare (addr_lt : t -> t -> bool) (m1 m2 : t) : bool :=
  if (user_id m1 =? 0) || (group_id m1 =? 0) || (user_id m2 =? 0) || (group_id m2 =? 0)
  then addr_lt m1 m2
  else pair_lt (user_id m1, group_id m1) (user_id m2, group_id m2).

End UserGroupMembership.

(** * Group *)

Module Group.
Import UserGroupMembership(user_id, group_id).

Record t := mk {
  id_ : Z;
  name_ : string;
  description_ : string;
  membership_ : list UserGroupMembership.t;
}.

Definition make (group_name : string) : t := mk 0 group_name "" [].

Definition set_id (new_id : Z) (g : t) : t := mk new_id (name_ g) (description_ g) (membership_ g).

Definition is_name_character (c : ascii) : bool :=
  isalnum c || Ascii.eqb c "_" || Ascii.eqb c "-" || Ascii.eqb c ".".

(** [GroupValidator::validate_name]; the first bad character is in the message. *)
Definition validate_name (name : string) : outcome unit :=
  if (str_size name <? 3) || (50 <? str_size name)
  then Throw (ModelException "data/attributes/name" "Length must be >=3 and <=50.")
  else foldM (fun _ c =>
         if is_name_character c then Ret tt
         else Throw (ModelException "data/attributes/name"
                ("Usage of unauthorized character: " +:+ String c "")))
       tt (chars name).

Definition set_name (name : string) (g : t) : outcome t :=
  _ ← validate_name name;
  Ret (mk (id_ g) name (description_ g) (membership_ g)).

(** [std::set::insert]: an element equivalent to one of the set is not added. *)
Section set.
Context (addr_lt : UserGroupMembership.t -> UserGroupMembership.t -> bool).

Fixpoint set_insert (m : UserGroupMembership.t) (l : list UserGroupMembership.t)
  : list UserGroupMembership.t :=
  match l with
  | [] => [m]
  | x :: l' =>
      if UserGroupMembership.compare addr_lt m x then m :: l
      else if UserGroupMembership.compare addr_lt x m then x :: set_insert m l'
      else l
  end.

(** [Group::member_add]: the group, and the membership object it returns. *)
Definition member_add (uid : Z) (rank : GroupRank) (g : t) : t * UserGroupMembership.t :=
  let ugm := UserGroupMembership.mk 0 uid (id_ g) rank in
  (mk (id_ g) (name_ g) (description_ g) (set_insert ugm (membership_ g)), ugm).
End set.

(** [Group::member_has]: the rank of the first membership of the user. *)
Definition member_has (uid : Z) (g : t) : option GroupRank :=
  UserGroupMembership.rank_ <$> List.find (fun m => user_id m =? uid) (membership_ g).

(** The ids of [Group::members()]: the users, each once, in set order. *)
Definition member_ids (g : t) : list Z := map user_id (membership_ g).

End Group.

(** * Specifications *)

(** A group as the program keeps it: ids set, its own memberships, each user
    once, in increasing order. *)
Record group_ok (g : Group.t) : Prop := {
  group_id_set : Group.id_ g <> 0;
  group_members : Forall (fun m => UserGroupMembership.group_id m = Group.id_ g /\
                          UserGroupMembership.user_id m <> 0) (Group.membership_ g);
  group_sorted : StronglySorted Z.lt (Group.member_ids g);
}.

(** ** Lemmas *)

Lemma isalnum_tolower c : isalnum (tolower c) = isalnum c.
Proof. destruct c as [[] [] [] [] [] [] [] []]; reflexivity. Qed.

Lemma username_char_tolower c :
  User.is_valid_username_character (tolower c) = User.is_valid_username_character c.
Proof. destruct c as [[] [] [] [] [] [] [] []]; reflexivity. Qed.

Lemma tolower_idem c : tolower (tolower c) = tolower c.
Proof. destruct c as [[] [] [] [] [] [] [] []]; reflexivity. Qed.

Lemma forallb_map {A B} (f : B -> bool) (g : A -> B) l :
  forallb f (map g l) = forallb (fun x => f (g x)) l.
Proof. induction l as [|x l IH]; cbn; [done|]. by rewrite IH. Qed.

Lemma forallb_ext {A} (f g : A -> bool) l : (forall x, f x = g x) -> forallb f l = forallb g l.
Proof. intros H. induction l as [|x l IH]; cbn; [done|]. by rewrite H, IH. Qed.

Lemma user_chars_lower s :
  forallb User.is_valid_username_character (map tolower (chars s)) =
  forallb User.is_valid_username_character (chars s).
Proof. rewrite forallb_map. apply forallb_ext, username_char_tolower. Qed.

Lemma map_tolower_idem l : map tolower (map tolower l) = map tolower l.
Proof. induction l as [|c l IH]; cbn; [done|]. by rewrite tolower_idem, IH. Qed.

Lemma compare_ids f m1 m2 :
  UserGroupMembership.user_id m1 <> 0 -> UserGroupMembership.user_id m2 <> 0 ->
  UserGroupMembership.group_id m1 <> 0 ->
  UserGroupMembership.group_id m2 = UserGroupMembership.group_id m1 ->
  UserGroupMembership.compare f m1 m2 =
  (UserGroupMembership.user_id m1 <? UserGroupMembership.user_id m2).
Proof.
  intros H1 H2 H3 H4. unfold UserGroupMembership.compare, UserGroupMembership.pair_lt. cbn.
  rewrite H4, !(proj2 (Z.eqb_neq _ _)) by done. cbn.
  rewrite Z.ltb_irrefl, andb_false_r, orb_false_r. done.
Qed.

Section insert.
Context (f : UserGroupMembership.t -> UserGroupMembership.t -> bool) (gid : Z) (Hgid : gid <> 0).
Local Abbreviation member_of := (fun m => UserGroupMembership.group_id m = gid /\
                          UserGroupMembership.user_id m <> 0).

Lemma set_insert_Forall m l P : P m -> Forall P l -> Forall P (Group.set_insert f m l).
Proof.
  intros Hm. induction 1 as [|x l Hx Hl IH]; cbn; [by constructor|].
  destruct (UserGroupMembership.compare f m x); [by constructor; [|constructor]|].
  destruct (UserGroupMembership.compare f x m); by constructor.
Qed.

(** Inserting into the sorted memberships of one group. *)
Lemma set_insert_sorted m l :
  member_of m -> Forall member_of l ->
  StronglySorted Z.lt (map UserGroupMembership.user_id l) ->
  StronglySorted Z.lt (map UserGroupMembership.user_id (Group.set_insert f m l)).
Proof.
  intros [Hm1 Hm2]. induction l as [|x l IH]; cbn; intros Hl Hs.
  { repeat constructor. }
  apply Forall_cons in Hl as [[Hx1 Hx2] Hl]. apply StronglySorted_inv in Hs as [Hs Hall].
  rewrite (compare_ids f m x), (compare_ids f x m) by congruence. destruct (Z.ltb_spec (UserGroupMembership.user_id m) (UserGroupMembership.user_id x)).
  { cbn. constructor; [by constructor|]. constructor; [done|].
    eapply Forall_impl; [exact Hall|]. intros; cbn in *; lia. }
  destruct (Z.ltb_spec (UserGroupMembership.user_id x) (UserGroupMembership.user_id m)); [|by constructor].
  cbn. constructor; [by apply IH|]. apply Forall_map. apply set_insert_Forall; [done|].
  rewrite Forall_map in Hall. exact Hall.
Qed.

Lemma find_insert m l uid :
  member_of m -> Forall member_of l ->
  StronglySorted Z.lt (map UserGroupMembership.user_id l) ->
  List.find (fun m => UserGroupMembership.user_id m =? uid) (Group.set_insert f m l) =
  match List.find (fun m => UserGroupMembership.user_id m =? uid) l with
  | Some x => Some x
  | None => if UserGroupMembership.user_id m =? uid then Some m else None
  end.
Proof.
  intros [Hm1 Hm2]. induction l as [|x l IH]; cbn; intros Hl Hs; [done|].
  apply Forall_cons in Hl as [[Hx1 Hx2] Hl]. apply StronglySorted_inv in Hs as [Hs Hall].
  rewrite (compare_ids f m x), (compare_ids f x m) by congruence.
  destruct (Z.ltb_spec (UserGroupMembership.user_id m) (UserGroupMembership.user_id x)).
  { cbn. destruct (Z.eqb_spec (UserGroupMembership.user_id m) uid) as [<-|].
    - rewrite (proj2 (Z.eqb_neq _ _)) by lia.
      destruct (List.find _ l) as [y|] eqn:Ef; [|done].
      apply List.find_some in Ef as [Hy Ey]. rewrite Forall_map in Hall.
      rewrite List.Forall_forall in Hall. specialize (Hall y Hy). cbn in Hall. lia.
    - by destruct (UserGroupMembership.user_id x =? uid), (List.find _ l). }
  destruct (Z.ltb_spec (UserGroupMembership.user_id x) (UserGroupMembership.user_id m)); cbn.
  - destruct (UserGroupMembership.user_id x =? uid); [done|]. by apply IH.
  - assert (UserGroupMembership.user_id m = UserGroupMembership.user_id x) as -> by lia.
    destruct (Z.eqb_spec (UserGroupMembership.user_id x) uid); [done|].
    by destruct (List.find _ l).
Qed.

End insert.

(** Who is a member, and with which rank, after one was added. *)
Lemma member_has_add f uid rank (g : Group.t) v :
  group_ok g -> uid <> 0 ->
  Group.member_has v (Group.member_add f uid rank g).1 =
  if v =? uid then Some (default rank (Group.member_has uid g)) else Group.member_has v g.
Proof.
  intros [Hid Hm Hs] Hu. unfold Group.member_add, Group.member_has. cbn [fst Group.membership_].
  rewrite (find_insert f (Group.id_ g) Hid) by done. cbn.
  destruct (Z.eqb_spec v uid) as [->|Hn].
  - rewrite Z.eqb_refl. by destruct (List.find _ _).
  - rewrite (proj2 (Z.eqb_neq _ _)) by done. by destruct (List.find _ _).
Qed.

Lemma validate_name_ok name :
  Group.validate_name name = Ret tt <->
  3 <= str_size name <= 50 /\ forallb Group.is_name_character (chars name) = true.
Proof.
  unfold Group.validate_name. destruct (_ || _) eqn:E.
  { split; [done|]. intros [H _]. apply orb_true_iff in E as [E|E]; bool_hyps; lia. }
  bool_hyps. trans (forallb Group.is_name_character (chars name) = true).
  2: { split; [intros; split; [lia|done]|tauto]. }
  induction (chars name) as [|c l IH]; cbn; [done|].
  destruct (Group.is_name_character c); cbn; [done|]. done.
Qed.

(** ** Properties *)

(** user names are case-insensitive: whatever name a user is given, the
    setter either refuses it or stores its lower-case form, which the getter
    then returns without failing its own check; setting the stored name again
    changes nothing. *)
Theorem username_roundtrip s u :
  if forallb User.is_valid_username_character (chars s) then
    exists u', User.set_username s u = Ret u' /\
      User.username u' = Ret (text (map tolower (chars s))) /\
      User.set_username (text (map tolower (chars s))) u' = Ret u'
  else User.set_username s u = Throw (LEOSACException ("Invalid username: {" +:+ s +:+ "}")).
Proof.
  unfold User.set_username, User.username. destruct (forallb _ (chars s)) eqn:E; [|done].
  eexists. split; [done|]. cbn. rewrite !chars_text, user_chars_lower, E. split; [done|].
  by rewrite map_tolower_idem.
Qed.

(** adding a member keeps the group well-formed - one membership per user,
    in order - and makes the user a member; but a user who is already one
    keeps the rank held before, whatever rank is passed. *)
Theorem member_add_correct f uid rank (g : Group.t) :
  group_ok g -> uid <> 0 ->
  let g' := (Group.member_add f uid rank g).1 in
  group_ok g' /\
  Group.member_has uid g' = Some (default rank (Group.member_has uid g)) /\
  (forall v, v <> uid -> Group.member_has v g' = Group.member_has v g).
Proof.
  intros Hok Hu. cbn zeta. split; [|split].
  - destruct Hok as [Hid Hm Hs].
    assert (Hnew : UserGroupMembership.group_id (UserGroupMembership.mk 0 uid (Group.id_ g) rank) = Group.id_ g /\
      UserGroupMembership.user_id (UserGroupMembership.mk 0 uid (Group.id_ g) rank) <> 0) by done.
    split; cbn; [done|apply (set_insert_Forall _ _ _ _ Hnew Hm)|
                 apply (set_insert_sorted _ _ Hid _ _ Hnew Hm Hs)].
  - by rewrite member_has_add, Z.eqb_refl.
  - intros v Hv. rewrite member_has_add by done. by rewrite (proj2 (Z.eqb_neq _ _)).
Qed.

(** the password a user was given last is accepted, and any other text is
    accepted only if it has the same key under the stored salt and parameters;
    setting a password changes nothing else, and a user who was never given
    one accepts none. *)
Theorem password_roundtrip kdf salt pw u u' :
  User.set_password kdf salt pw u = Ret u' ->
  User.verify_password kdf pw u' = Ret true /\
  (forall pw', User.verify_password kdf pw' u' = Ret true <->
     kdf (password_bytes pw') salt scrypt_default = kdf (password_bytes pw) salt scrypt_default) /\
  (User.id_ u', User.username_ u', User.rank_ u', User.validity_ u') =
  (User.id_ u, User.username_ u, User.rank_ u, User.validity_ u) /\
  (User.password_ u = None -> User.verify_password kdf pw u = Ret false).
Proof.
  unfold User.set_password, User.verify_password, Scrypt.Verify, Scrypt.Hash.
  destruct (kdf (password_bytes pw) salt scrypt_default) as [key|] eqn:Ek; cbn; [|done].
  intros [= <-]. cbn. rewrite Ek. cbn. rewrite bool_decide_eq_true_2 by done.
  repeat split; [|intros E..|by intros ->].
  - destruct (kdf (password_bytes pw') salt scrypt_default) as [k|]; cbn; [|done].
    intros [= H%bool_decide_eq_true]. by subst.
  - rewrite E. cbn. by rewrite bool_decide_eq_true_2.
Qed.

(** ** Witnesses *)

Lemma password_roundtrip_witness :
  exists u', User.set_password (fun pw salt _ => Some (app salt pw)) [1; 2] "secret" (User.make 3) = Ret u' /\
    User.verify_password (fun pw salt _ => Some (app salt pw)) "secret" u' = Ret true.
Proof.
  eexists. split; [reflexivity|].
  eapply (password_roundtrip _ [1; 2] "secret" (User.make 3)); reflexivity.
Defined.

Definition demo_group : Group.t :=
  Group.mk 7 "staff" "" [UserGroupMembership.mk 1 3 7 GMEMBER; UserGroupMembership.mk 2 9 7 GADMIN].

Lemma member_add_witness :
  Group.member_has 9 (Group.member_add (fun _ _ => false) 9 GMEMBER demo_group).1 = Some GADMIN.
Proof.
  assert (Hok : group_ok demo_group).
  { split; [discriminate| |]; repeat constructor; cbn; discriminate || lia. }
  destruct (member_add_correct (fun _ _ => false) 9 GMEMBER demo_group Hok ltac:(discriminate))
    as (_ & H & _). exact H.
Defined.
