(* ===== verification/Credentials.v ===== *)
(** Credentials, [src/core/credentials/]: RFID cards, PIN codes and their
    combination, with the validators of their setters and the conversion of a
    card to the number printed on it.

    A card id is text the [RFIDCardValidator] parses through an
    [std::istringstream]; [stream] models the formatted extraction of a
    character from it. *)
From Stdlib Require Import ZArith Lia Ascii String.
From stdpp Require Import base tactics numbers list strings.
From S2P Require Import Prelude Reader Strategies Users.

Open Scope Z_scope.

(** * Text conversions of the standard library *)

(** [boost::replace_all_copy(s, ":", "")]. *)
Definition drop_colons (l : list ascii) : list ascii :=
  List.filter (fun c => negb (Ascii.eqb c ":")) l.

(** The value of hexadecimal digits, most significant first. *)
Definition hex_val (l : list ascii) : Z := foldl (fun a c => 16 * a + xdigit_val c) 0 l.

Fixpoint take_xdigits (l : list ascii) : list ascii :=
  match l with
  | c :: l' => if isxdigit c then c :: take_xdigits l' else []
  | [] => []
  end.

(** [std::stoull(s, nullptr, 16)]: [strtoull]'s spaces, sign and prefix. *)
Definition stoull16 (s : list ascii) : outcome Z :=
  let l := drop_spaces s in
  let '(neg, l) := match l with
    | "-"%char :: l' => (true, l')
    | "+"%char :: l' => (false, l')
    | _ => (false, l)
    end in
  let l := match l with
    | "0"%char :: x :: d :: l' =>
        if (Ascii.eqb x "x" || Ascii.eqb x "X") && isxdigit d then d :: l' else l
    | _ => l
    end in
  match take_xdigits l with
  | [] => Throw StdInvalidArgument
  | ds =>
      let v := hex_val ds in
      if 2 ^ 64 <=? v then Throw StdOutOfRange
      else Ret (if neg : bool then (- v) `mod` 2 ^ 64 else v)
  end.

(** An [std::istringstream] read character by character, with the character
    the last extraction left in the variable. *)
Record stream := mk_stream { rest : list ascii; good : bool; last : ascii }.

(** [ss >> c]. *)
Definition extract (s : stream) : stream :=
  if good s then
    match drop_spaces (rest s) with
    | x :: l => mk_stream l true x
    | [] => mk_stream [] false (last s)
    end
  else s.

(** * Credential *)

Module Credential.

(** The owner is a pointer to a user, known by its id. *)
Record t := mk {
  id_ : Z;
  owner_ : option Z;
  alias_ : string;
  description_ : string;
  validity_ : ValidityInfo.t;
}.

Definition make : t := mk 0 None "" "" ValidityInfo.default.

Definition validate_alias (alias : string) : outcome unit :=
  if 50 <? str_size alias
  then Throw (ModelException "data/attributes/alias" "Alias must not be longer than 50.")
  else Ret tt.

Definition owner_id (c : t) : Z := match owner_ c with Some u => u | None => 0 end.

Definition set_id (i : Z) (c : t) : t :=
  mk i (owner_ c) (alias_ c) (description_ c) (validity_ c).
Definition set_owner (o : option Z) (c : t) : t :=
  mk (id_ c) o (alias_ c) (description_ c) (validity_ c).
Definition set_alias (a : string) (c : t) : outcome t :=
  _ ← validate_alias a;
  Ret (mk (id_ c) (owner_ c) a (description_ c) (validity_ c)).
Definition set_description (d : string) (c : t) : t :=
  mk (id_ c) (owner_ c) (alias_ c) d (validity_ c).
Definition set_validity (v : ValidityInfo.t) (c : t) : t :=
  mk (id_ c) (owner_ c) (alias_ c) (description_ c) v.

End Credential.

(** * RFIDCard *)

Module RFIDCard.

Record t := mk { cred : Credential.t; card_id_ : string; nb_bits_ : Z }.

Definition default : t := mk Credential.make "" 0.

(** One iteration of the validator's loop: the stream, [fail], and whether the
    loop goes on. *)
Definition validate_step (s : stream) (fail : bool) : stream * bool * bool :=
  let s := mk_stream (rest s) (good s) "000" in
  let check (sf : stream * bool) :=
    let s := extract sf.1 in (s, sf.2 || negb (isxdigit (last s)) || negb (good s)) in
  let '(s, fail) := check (check (s, fail)) in
  let s := extract s in
  if good s then (s, fail || negb (Ascii.eqb (last s) ":"), true) else (s, fail, false).

Fixpoint validate_loop (fuel : nat) (s : stream) (fail : bool) : outcome bool :=
  match fuel with
  | O => Fault OutOfFuel
  | S fuel =>
      let '(s, fail, more) := validate_step s fail in
      if more : bool then validate_loop fuel s fail else Ret fail
  end.

Definition validate_card_id (card_id : string) : outcome unit :=
  fail ← validate_loop (S (length (chars card_id))) (mk_stream (chars card_id) true "000") false;
  enforce (negb fail)
    (ModelException "data/attributes/cardId" "Card id must have aa:bb:cc:11 format.").

Definition validate_nb_bits (nb : Z) : outcome unit :=
  enforce (negb (nb <=? 0))
    (ModelException "data/attributes/nbBits" "The number of bits must be > 0").

Definition set_card_id (id : string) (c : t) : outcome t :=
  _ ← validate_card_id id;
  Ret (mk (cred c) id (nb_bits_ c)).

Definition set_nb_bits (i : Z) (c : t) : outcome t :=
  _ ← validate_nb_bits i;
  Ret (mk (cred c) (card_id_ c) i).

(** [RFIDCard(card_id, nb_bits)]. *)
Definition make (card_id : string) (nb_bits : Z) : outcome t :=
  c ← set_card_id card_id default;
  set_nb_bits nb_bits c.

Definition to_raw_int (c : t) : outcome Z :=
  tmp ← stoull16 (drop_colons (chars (card_id_ c)));
  let trailing_zero := Z.rem (64 - nb_bits_ c) 8 in
  if trailing_zero <? 0 then Fault BadShift else Ret (Z.shiftr tmp trailing_zero).

Definition to_wiegand_26 (c : t) : outcome Z :=
  _ ← cassert (nb_bits_ c =? 26);
  _ ← cassert (str_size (card_id_ c) =? 2 * 4 + 3);
  tmp ← to_raw_int c;
  Ret (Z.land (Z.shiftr tmp 1) 0xFFFF).

Definition to_wiegand_34 (c : t) : outcome Z :=
  _ ← cassert (nb_bits_ c =? 34);
  _ ← cassert (str_size (card_id_ c) =? 2 * 5 + 4);
  tmp ← to_raw_int c;
  Ret (Z.land (Z.shiftr tmp 1) 0xFFFFFF).

Definition to_int (c : t) : outcome Z :=
  if nb_bits_ c =? 26 then to_wiegand_26 c
  else if nb_bits_ c =? 34 then to_wiegand_34 c
  else to_raw_int c.

End RFIDCard.

(** * PinCode *)

Module PinCode.

Record t := mk { cred : Credential.t; pin_code_ : string }.

Definition default : t := mk Credential.make "".

Definition is_pin_character (c : ascii) : bool := in_range "0" c "9".

Definition validate_pin_code (pin : string) : outcome unit :=
  foldM (fun _ c =>
      if is_pin_character c then Ret tt
      else Throw (ModelException "data/attributes/code"
             ("Pin code contains invalid character: " +:+ String c "")))
    tt (chars pin).

Definition set_pin_code (pin : string) (p : t) : outcome t :=
  _ ← validate_pin_code pin;
  Ret (mk (cred p) pin).

End PinCode.

(** * RFIDCardPin, and any credential *)

Module RFIDCardPin.

Record t := mk { cred : Credential.t; card_ : RFIDCard.t; pin_ : PinCode.t }.

(** [RFIDCardPin(card, pin)], both pointers non-null. *)
Definition make (card : RFIDCard.t) (pin : PinCode.t) : t := mk Credential.make card pin.
Definition default : t := make RFIDCard.default PinCode.default.

End RFIDCardPin.

Inductive credential :=
  | Card (c : RFIDCard.t)
  | Pin (p : PinCode.t)
  | CardPin (c : RFIDCardPin.t).

(** The part every credential inherits. *)
Definition base (c : credential) : Credential.t :=
  match c with
  | Card c => RFIDCard.cred c
  | Pin p => PinCode.cred p
  | CardPin c => RFIDCardPin.cred c
  end.

Definition with_base (b : Credential.t) (c : credential) : credential :=
  match c with
  | Card c => Card (RFIDCard.mk b (RFIDCard.card_id_ c) (RFIDCard.nb_bits_ c))
  | Pin p => Pin (PinCode.mk b (PinCode.pin_code_ p))
  | CardPin c => CardPin (RFIDCardPin.mk b (RFIDCardPin.card_ c) (RFIDCardPin.pin_ c))
  end.

(** * Specifications *)

(** The documented format: pairs of hexadecimal digits separated by colons. *)
Fixpoint card_format (l : list ascii) : bool :=
  match l with
  | [a; b] => isxdigit a && isxdigit b
  | a :: b :: c :: l' => isxdigit a && isxdigit b && Ascii.eqb c ":" && card_format l'
  | _ => false
  end.

Definition non_space (c : ascii) : bool := negb (isspace c).

(** ** Lemmas: the card id validator *)

Lemma drop_spaces_filter l :
  List.filter non_space l =
  match drop_spaces l with x :: l' => x :: List.filter non_space l' | [] => [] end.
Proof.
  induction l as [|c l IH]; cbn; [done|]. unfold non_space at 1.
  destruct (isspace c) eqn:E; cbn; [exact IH|]. done.
Qed.

Lemma drop_spaces_length l : (length (drop_spaces l) <= length l)%nat.
Proof. induction l as [|c l IH]; cbn; [done|]. destruct (isspace c); cbn; lia. Qed.

(** Extraction from a good stream, on the characters that are not spaces. *)
Lemma extract_good l c :
  match List.filter non_space l with
  | [] => extract (mk_stream l true c) = mk_stream [] false c
  | x :: f => exists l', extract (mk_stream l true c) = mk_stream l' true x /\
      List.filter non_space l' = f /\ (length l' < length l)%nat
  end.
Proof.
  rewrite drop_spaces_filter. unfold extract. cbn.
  pose proof (drop_spaces_length l) as Hl.
  destruct (drop_spaces l) as [|x l'] eqn:E; [done|].
  exists l'. cbn in Hl. split; [done|]. split; [done|lia].
Qed.

Lemma card_format_induction (P : list ascii -> Prop) :
  P [] -> (forall a, P [a]) -> (forall a b, P [a; b]) ->
  (forall a b c l, P l -> P (a :: b :: c :: l)) -> forall l, P l.
Proof.
  intros H0 H1 H2 H3 l. enough (P l /\ (forall a, P (a :: l)) /\ forall a b, P (a :: b :: l)) by tauto.
  induction l as [|c l (IH1 & IH2 & IH3)]; [auto|]. split; [auto|]. split; auto.
Qed.

Lemma validate_loop_spec fuel l c fail :
  (length l < fuel)%nat ->
  RFIDCard.validate_loop fuel (mk_stream l true c) fail =
  Ret (fail || negb (card_format (List.filter non_space l))).
Proof.
  remember (List.filter non_space l) as f eqn:Ef. revert fuel l c fail Ef.
  induction f as [|a|a b|a b c f IH] using card_format_induction;
    intros fuel l c0 fail Ef Hl; (destruct fuel as [|fuel]; [lia|]); cbn [RFIDCard.validate_loop];
    unfold RFIDCard.validate_step; cbn [rest good fst snd].
  - pose proof (extract_good l "000") as H1. rewrite <- Ef in H1. rewrite H1. cbn -[extract card_format].
    by rewrite !orb_true_r.
  - pose proof (extract_good l "000") as H1. rewrite <- Ef in H1.
    destruct H1 as (l1 & -> & E1 & _).
    pose proof (extract_good l1 a) as H2. rewrite E1 in H2. cbn -[extract card_format]. rewrite H2. cbn -[extract card_format].
    by rewrite !orb_true_r.
  - pose proof (extract_good l "000") as H1. rewrite <- Ef in H1.
    destruct H1 as (l1 & -> & E1 & _).
    pose proof (extract_good l1 a) as H2. rewrite E1 in H2. destruct H2 as (l2 & H2 & E2 & _).
    pose proof (extract_good l2 b) as H3. rewrite E2 in H3. cbn -[extract card_format]. rewrite H2. cbn -[extract card_format]. rewrite H3. cbn -[extract card_format].
    f_equal. cbn. by destruct (isxdigit a), (isxdigit b), fail.
  - pose proof (extract_good l "000") as H1. rewrite <- Ef in H1.
    destruct H1 as (l1 & -> & E1 & L1).
    pose proof (extract_good l1 a) as H2. rewrite E1 in H2. destruct H2 as (l2 & H2 & E2 & L2).
    pose proof (extract_good l2 b) as H3. rewrite E2 in H3. destruct H3 as (l3 & H3 & E3 & L3).
    cbn -[extract card_format]. rewrite H2. cbn -[extract card_format]. rewrite H3. cbn -[extract card_format]. rewrite IH by (done || lia).
    f_equal. change (card_format (a :: b :: c :: f)) with
      (isxdigit a && isxdigit b && Ascii.eqb c ":" && card_format f).
    by destruct (isxdigit a), (isxdigit b), (Ascii.eqb c ":"), (card_format f), fail.
Qed.

(** The validator accepts the documented format, spaces ignored anywhere. *)
Lemma validate_card_id_eq s :
  RFIDCard.validate_card_id s =
  enforce (card_format (List.filter non_space (chars s)))
    (ModelException "data/attributes/cardId" "Card id must have aa:bb:cc:11 format.").
Proof.
  unfold RFIDCard.validate_card_id. rewrite validate_loop_spec by lia. cbn. by rewrite negb_involutive.
Qed.

(** ** Lemmas: numbers in hexadecimal *)

Lemma hex_byte_digits : forall b, is_byte b ->
  forallb isxdigit (hex_byte b) = true /\ forallb non_space (hex_byte b) = true /\
  drop_colons (hex_byte b) = hex_byte b /\ hex_val (hex_byte b) = b.
Proof. by_bytes. Qed.

Lemma filter_all {A} (f : A -> bool) l : forallb f l = true -> List.filter f l = l.
Proof.
  induction l as [|x l IH]; cbn; [done|]. intros H. apply andb_true_iff in H as [-> H].
  by rewrite IH.
Qed.

Lemma drop_colons_app l1 l2 : drop_colons (l1 ++ l2) = drop_colons l1 ++ drop_colons l2.
Proof. apply List.filter_app. Qed.

Lemma drop_colons_join l :
  Forall is_byte l -> drop_colons (join_hex l) = flat_map hex_byte l.
Proof.
  induction 1 as [|b l Hb Hl IH]; [done|].
  destruct (hex_byte_digits b Hb) as (_ & _ & Hd & _). cbn [flat_map].
  destruct l as [|b' l]; [cbn [join_hex]; by rewrite Hd, app_nil_r|].
  change (join_hex (b :: b' :: l)) with (hex_byte b ++ [":"%char] ++ join_hex (b' :: l)).
  rewrite !drop_colons_app, Hd, IH. done.
Qed.

Lemma xdigits_flat l : Forall is_byte l -> forallb isxdigit (flat_map hex_byte l) = true.
Proof.
  induction 1 as [|b l Hb Hl IH]; [done|]. cbn [flat_map].
  rewrite forallb_app, IH, andb_true_r. by apply hex_byte_digits.
Qed.

Lemma hex_val_app l1 l2 :
  hex_val (l1 ++ l2) = hex_val l1 * 16 ^ Z.of_nat (length l2) + hex_val l2.
Proof.
  unfold hex_val. rewrite foldl_app. set (a := foldl _ 0 l1). clearbody a. clear l1.
  revert a. induction l2 as [|c l IH]; intros a; cbn [foldl length]; [lia|].
  rewrite (IH (16 * a + _)), (IH (16 * 0 + _)), Nat2Z.inj_succ, Z.pow_succ_r by lia. lia.
Qed.

Lemma hex_val_flat l : Forall is_byte l -> hex_val (flat_map hex_byte l) = bytes_val l.
Proof.
  induction 1 as [|b l Hb Hl IH]; [done|]. cbn [flat_map bytes_val].
  rewrite hex_val_app, IH. destruct (hex_byte_digits b Hb) as (_ & _ & _ & ->).
  assert (Hlen : forall k, length (flat_map hex_byte k) = (2 * length k)%nat)
    by (induction k as [|x k IHk]; cbn in *; lia).
  rewrite Hlen, Nat2Z.inj_mul, Z.pow_mul_r by lia. done.
Qed.

Lemma take_xdigits_all l : forallb isxdigit l = true -> take_xdigits l = l.
Proof.
  induction l as [|c l IH]; cbn; [done|]. intros H. apply andb_true_iff in H as [-> H].
  by rewrite IH.
Qed.

(** A character that is a hexadecimal digit is nothing else. *)
Lemma xdigit_char c : isxdigit c = true ->
  isspace c = false /\ c <> "-"%char /\ c <> "+"%char /\ c <> "x"%char /\ c <> "X"%char /\ c <> ":"%char.
Proof. destruct c as [[] [] [] [] [] [] [] []]; vm_compute; intros; try discriminate; repeat split; discriminate. Qed.

(** [strtoull] reads plain hexadecimal digits as their value. *)
Lemma stoull16_digits l :
  l <> [] -> forallb isxdigit l = true ->
  stoull16 l = if 2 ^ 64 <=? hex_val l then Throw StdOutOfRange else Ret (hex_val l).
Proof.
  intros Hne Hx. unfold stoull16. destruct l as [|c l]; [done|].
  pose proof Hx as Hx0. cbn [forallb] in Hx. apply andb_true_iff in Hx as [Hc Hl].
  destruct (xdigit_char c Hc) as (Hsp & Hm & Hp & _). cbn [drop_spaces]. rewrite Hsp.
  assert (Hsign : (match c :: l with
      | "-"%char :: l' => (true, l')
      | "+"%char :: l' => (false, l')
      | _ => (false, c :: l)
      end) = (false, c :: l)).
  { clear -Hm Hp. destruct c as [[] [] [] [] [] [] [] []]; done. }
  rewrite Hsign.
  assert (Hpre : (match c :: l with
      | "0"%char :: x :: d :: l' =>
          if (Ascii.eqb x "x" || Ascii.eqb x "X") && isxdigit d then d :: l' else c :: l
      | _ => c :: l
      end) = c :: l).
  { destruct l as [|x [|d l]]; [by destruct c as [[] [] [] [] [] [] [] []]
                               |by destruct c as [[] [] [] [] [] [] [] []]|].
    cbn [forallb] in Hl. apply andb_true_iff in Hl as [Hx Hl].
    destruct (xdigit_char x Hx) as (_ & _ & _ & Hx1 & Hx2 & _).
    rewrite (proj2 (Ascii.eqb_neq x "x")), (proj2 (Ascii.eqb_neq x "X")) by done. cbn [orb andb].
    by destruct c as [[] [] [] [] [] [] [] []]. }
  rewrite Hpre. rewrite take_xdigits_all by done. done.
Qed.

(** ** Lemmas: the card a frame is read as *)

Lemma byte_bits_val l : length l = 8%nat -> byte_bits (bits_val l) = l.
Proof.
  intros H. do 8 (destruct l as [|[] l]; [done| |]; try (cbn in H; lia)).
  all: destruct l; [reflexivity | cbn in H; lia].
Qed.

Lemma frame_padded bits : (length bits <= 128)%nat ->
  length (bits ++ replicate (128 - length bits) false) = 128%nat.
Proof. intros. rewrite length_app, length_replicate. lia. Qed.

Lemma frame_byte_range bits i : (length bits <= 128)%nat -> (i < 16)%nat -> is_byte (frame_byte bits i).
Proof.
  intros Hl Hi. unfold frame_byte, is_byte.
  pose proof (bits_val_range (take 8 (drop (8 * i) (bits ++ replicate (128 - length bits) false)))) as H.
  rewrite length_take, length_drop, frame_padded in H by done.
  replace (8 `min` (128 - 8 * i))%nat with 8%nat in H by lia. exact H.
Qed.

Lemma frame_size_range bits : (0 < length bits <= 128)%nat ->
  (length bits <= 8 * frame_size bits < length bits + 8)%nat /\ (0 < frame_size bits <= 16)%nat.
Proof.
  intros H. unfold frame_size. rewrite Z.quot_div_nonneg by lia.
  pose proof (Z.div_mod (Z.of_nat (length bits) - 1) 8 ltac:(lia)).
  pose proof (Z.mod_pos_bound (Z.of_nat (length bits) - 1) 8 ltac:(lia)). lia.
Qed.

Lemma frame_bytes_bytes bits : (0 < length bits <= 128)%nat -> Forall is_byte (frame_bytes bits).
Proof.
  intros H. unfold frame_bytes. apply Forall_map, Forall_seq. intros j Hj. cbn in Hj |- *.
  apply frame_byte_range; [lia|]. pose proof (frame_size_range bits H). lia.
Qed.

(** The bytes of a frame spell its bits, padded with zeros to whole bytes. *)
Lemma buffer_bits_frame bits : (0 < length bits <= 128)%nat ->
  buffer_bits (frame_bytes bits) =
  bits ++ replicate (8 * frame_size bits - length bits) false.
Proof.
  intros H. pose proof (frame_size_range bits H) as [Hs1 Hs2].
  set (L := bits ++ replicate (128 - length bits) false).
  assert (HL : length L = 128%nat) by (apply frame_padded; lia).
  assert (Hn : forall n, (n <= 16)%nat -> buffer_bits (map (frame_byte bits) (seq 0 n)) = take (8 * n) L).
  { induction n as [|n IH]; intros Hn; [by rewrite take_0|].
    rewrite seq_S, map_app. unfold buffer_bits in *. rewrite flat_map_app, IH by lia. cbn [flat_map map].
    rewrite app_nil_r. unfold frame_byte. fold L. rewrite byte_bits_val by (rewrite length_take, length_drop; lia).
    replace (0 + n)%nat with n by lia. replace (8 * S n)%nat with (8 * n + 8)%nat by lia.
    apply take_take_drop. }
  unfold frame_bytes. rewrite Hn by lia. unfold L.
  rewrite take_app_ge by lia. f_equal. rewrite take_replicate. f_equal. lia.
Qed.

Lemma frame_value bits : (0 < length bits <= 128)%nat ->
  bytes_val (frame_bytes bits) =
  bits_val bits * 2 ^ (8 * Z.of_nat (frame_size bits) - Z.of_nat (length bits)).
Proof.
  intros H. pose proof (frame_size_range bits H) as [Hs1 Hs2].
  rewrite <- buffer_bits_val by (by apply frame_bytes_bytes).
  rewrite buffer_bits_frame, bits_val_app, bits_val_zeros, length_replicate by done.
  rewrite Z.add_0_r. do 2 f_equal. lia.
Qed.

Lemma chars_card_text bits : chars (card_text bits) = join_hex (frame_bytes bits).
Proof. apply chars_text. Qed.

(** [to_raw_int] of the card a frame of at most 64 bits is read as. *)
Lemma raw_int_frame b bits : (0 < length bits <= 64)%nat ->
  RFIDCard.to_raw_int (RFIDCard.mk b (card_text bits) (Z.of_nat (length bits))) = Ret (bits_val bits).
Proof.
  intros H. pose proof (frame_size_range bits ltac:(lia)) as [Hs1 Hs2].
  assert (Hby : Forall is_byte (frame_bytes bits)) by (apply frame_bytes_bytes; lia).
  unfold RFIDCard.to_raw_int. cbn [RFIDCard.card_id_ RFIDCard.nb_bits_].
  rewrite chars_card_text, drop_colons_join by done.
  rewrite stoull16_digits; [|
    |by apply xdigits_flat].
  2: { destruct (frame_bytes bits) as [|x l] eqn:E; [|done].
       apply (f_equal length) in E. unfold frame_bytes in E.
       rewrite length_map, length_seq in E. cbn in E. lia. }
  rewrite hex_val_flat, frame_value by (done || lia).
  set (pad := 8 * Z.of_nat (frame_size bits) - Z.of_nat (length bits)).
  assert (Hpad : Z.rem (64 - Z.of_nat (length bits)) 8 = pad).
  { rewrite Z.rem_mod_nonneg by lia. unfold pad. symmetry.
    apply Z.mod_unique with (q := 8 - Z.of_nat (frame_size bits)); lia. }
  pose proof (bits_val_range bits) as Hb.
  rewrite (proj2 (Z.leb_gt _ _)).
  2: { apply Z.lt_le_trans with (2 ^ Z.of_nat (length bits) * 2 ^ pad).
       - apply Z.mul_lt_mono_pos_r; [apply Z.pow_pos_nonneg; lia|lia].
       - rewrite <- Z.pow_add_r by lia. apply Z.pow_le_mono_r; lia. }
  cbn [mbind outcome_bind]. rewrite Hpad, (proj2 (Z.ltb_ge _ _)) by lia.
  rewrite Z.shiftr_div_pow2, Z.div_mul by lia. done.
Qed.

Lemma non_space_join l : Forall is_byte l -> List.filter non_space (join_hex l) = join_hex l.
Proof.
  intros Hl. apply filter_all. induction Hl as [|b l Hb Hl IH]; [done|].
  destruct (hex_byte_digits b Hb) as (_ & Hs & _).
  destruct l as [|b' l]; [exact Hs|].
  change (join_hex (b :: b' :: l)) with (hex_byte b ++ ":"%char :: join_hex (b' :: l)).
  rewrite forallb_app, Hs. exact IH.
Qed.

Lemma card_format_join b l : Forall is_byte (b :: l) -> card_format (join_hex (b :: l)) = true.
Proof.
  revert b. induction l as [|b' l IH]; intros b Hall; apply Forall_cons in Hall as [Hb Hl];
    pose proof (hex_byte_digits b Hb) as (Hx & _); cbn [hex_byte forallb] in Hx; bool_hyps.
  - cbn [join_hex hex_byte card_format]. rewrite H, H0. done.
  - change (join_hex (b :: b' :: l)) with
      (hex_char (b `div` 16) :: hex_char (b `mod` 16) :: ":"%char :: join_hex (b' :: l)).
    cbn [card_format]. rewrite H, H0. apply IH. done.
Qed.

Lemma validate_card_text bits : (0 < length bits <= 128)%nat ->
  RFIDCard.validate_card_id (card_text bits) = Ret tt.
Proof.
  intros H. pose proof (frame_bytes_bytes bits H) as Hby.
  rewrite validate_card_id_eq, chars_card_text, non_space_join by done.
  destruct (frame_bytes bits) as [|b l] eqn:E.
  - pose proof (frame_size_range bits H). apply (f_equal length) in E. unfold frame_bytes in E.
    rewrite length_map, length_seq in E. cbn in E. lia.
  - by rewrite card_format_join.
Qed.

(** The card object built from a frame. *)
Lemma make_card_text bits : (0 < length bits <= 128)%nat ->
  RFIDCard.make (card_text bits) (Z.of_nat (length bits)) =
  Ret (RFIDCard.mk Credential.make (card_text bits) (Z.of_nat (length bits))).
Proof.
  intros H. unfold RFIDCard.make, RFIDCard.set_card_id. rewrite validate_card_text by done.
  cbn. unfold RFIDCard.set_nb_bits, RFIDCard.validate_nb_bits.
  rewrite (proj2 (Z.leb_gt _ _)) by lia. done.
Qed.

Lemma length_join_hex l : l <> [] -> length (join_hex l) = (3 * length l - 1)%nat.
Proof.
  induction l as [|b [|b' l] IH]; intros Hne; [done|done|].
  change (join_hex (b :: b' :: l)) with (hex_byte b ++ ":"%char :: join_hex (b' :: l)).
  rewrite length_app. cbn [length hex_byte]. rewrite IH by done. cbn [length]. lia.
Qed.

Lemma card_text_size bits : (0 < length bits <= 128)%nat ->
  str_size (card_text bits) = 3 * Z.of_nat (frame_size bits) - 1.
Proof.
  intros H. pose proof (frame_size_range bits H). unfold str_size. rewrite chars_card_text.
  assert (Hl : length (frame_bytes bits) = frame_size bits)
    by (unfold frame_bytes; by rewrite length_map, length_seq).
  rewrite length_join_hex; [lia|]. intros E. rewrite E in Hl. cbn in Hl. lia.
Qed.

(** Dropping the last bit and keeping the [n] before it. *)
Lemma middle_bits l m x : 
  Z.land (Z.shiftr (bits_val (l ++ m ++ [x])) 1) (Z.ones (Z.of_nat (length m))) = bits_val m.
Proof.
  rewrite app_assoc, bits_val_app. cbn [length]. change (2 ^ Z.of_nat 1) with 2.
  rewrite Z.shiftr_div_pow2 by lia. change (2 ^ 1) with 2.
  pose proof (bits_val_range [x]) as Hx. cbn [length] in Hx. change (2 ^ Z.of_nat 1) with 2 in Hx.
  rewrite Z.div_add_l, (Z.div_small (bits_val [x])), Z.add_0_r by lia.
  rewrite Z.land_ones, bits_val_app by lia.
  rewrite Z.add_comm, Z.mod_add by (apply Z.pow_nonzero; lia).
  apply Z.mod_small, bits_val_range.
Qed.

Lemma split_frame (bits : list bool) n : length bits = (9 + n + 1)%nat ->
  exists x, bits = take 9 bits ++ take n (drop 9 bits) ++ [x].
Proof.
  intros H. destruct (drop (9 + n) bits) as [|x l] eqn:E.
  { apply (f_equal length) in E. rewrite length_drop in E. cbn in E. lia. }
  exists x. assert (l = []) as ->.
  { apply (f_equal length) in E. rewrite length_drop in E. destruct l; [done|cbn in E; lia]. }
  rewrite <- E, <- drop_drop, take_drop. by rewrite take_drop.
Qed.

(** ** Properties *)

(** the card id validator terminates on every text, and accepts exactly the
    pairs of hexadecimal digits separated by colons - once all white space,
    wherever it stands, has been dropped, for the stream it parses with skips
    it; anything else is refused with the documented error. *)
Theorem card_id_accepted s :
  RFIDCard.validate_card_id s =
  if card_format (List.filter non_space (chars s)) then Ret tt
  else Throw (ModelException "data/attributes/cardId" "Card id must have aa:bb:cc:11 format.").
Proof. rewrite validate_card_id_eq. by destruct (card_format _). Qed.

(** an id with a space after its first digit passes the validator, but its
    number is that of the first digit alone: [std::stoull] stops at the space. *)
Theorem spaced_card_truncated d l nb :
  isxdigit d = true -> card_format (d :: List.filter non_space l) = true ->
  0 < nb <= 64 -> nb `mod` 8 = 0 ->
  RFIDCard.make (text (d :: " "%char :: l)) nb =
    Ret (RFIDCard.mk Credential.make (text (d :: " "%char :: l)) nb) /\
  RFIDCard.to_raw_int (RFIDCard.mk Credential.make (text (d :: " "%char :: l)) nb) =
    Ret (xdigit_val d).
Proof.
  intros Hd Hf Hnb Hmod. destruct (xdigit_char d Hd) as (Hs & Hm & Hp & _ & _ & Hc).
  split.
  - unfold RFIDCard.make, RFIDCard.set_card_id. rewrite validate_card_id_eq, chars_text.
    cbn [List.filter]. unfold non_space at 1. rewrite Hs. cbn [negb].
    change (non_space " ") with false. cbn iota. rewrite Hf. cbn.
    unfold RFIDCard.set_nb_bits, RFIDCard.validate_nb_bits.
    by rewrite (proj2 (Z.leb_gt _ _)) by lia.
  - unfold RFIDCard.to_raw_int. cbn [RFIDCard.card_id_ RFIDCard.nb_bits_]. rewrite chars_text.
    unfold drop_colons. cbn [List.filter]. rewrite (proj2 (Ascii.eqb_neq _ _)) by done. cbn [negb].
    change (negb (Ascii.eqb " " ":")) with true. cbn iota. fold (drop_colons l).
    assert (Hst : stoull16 (d :: " "%char :: drop_colons l) = Ret (xdigit_val d)).
    { generalize (drop_colons l). intros k. clear -Hd.
      destruct d as [[] [] [] [] [] [] [] []]; try discriminate Hd; try reflexivity.
      by destruct k. }
    rewrite Hst. cbn [mbind outcome_bind]. rewrite Z.rem_mod_nonneg by lia.
    assert ((64 - nb) `mod` 8 = 0) as -> by (rewrite Zminus_mod, Hmod; done).
    cbn. by rewrite Z.shiftr_0_r.
Qed.

(** the number of a card is the number its bits spell: for every frame of 1
    to 64 bits, the text the reader sends builds a card, and [to_raw_int]
    undoes the padding of its last byte. *)
Theorem card_number_of_frame bits : (0 < length bits <= 64)%nat ->
  exists c, RFIDCard.make (card_text bits) (Z.of_nat (length bits)) = Ret c /\
    RFIDCard.to_raw_int c = Ret (bits_val bits) /\ 0 <= bits_val bits < 2 ^ Z.of_nat (length bits).
Proof.
  intros H. rewrite make_card_text by lia. eexists. split; [done|].
  split; [by apply raw_int_frame | apply bits_val_range].
Qed.

(** the printed number of a Wiegand-26 or Wiegand-34 card: the 16 bits, or
    24 bits, that precede the trailing parity bit; the frame needs no other
    check for [to_int] to succeed. *)
Theorem wiegand_card_number bits n :
  (n = 16 \/ n = 24)%nat -> length bits = (9 + n + 1)%nat ->
  exists c, RFIDCard.make (card_text bits) (Z.of_nat (length bits)) = Ret c /\
    RFIDCard.to_int c = Ret (bits_val (take n (drop 9 bits))).
Proof.
  intros Hn Hl. rewrite make_card_text by lia. eexists. split; [done|].
  pose proof (raw_int_frame Credential.make bits ltac:(lia)) as Hraw.
  pose proof (card_text_size bits ltac:(lia)) as Hsz.
  destruct (split_frame bits n Hl) as [x Hx].
  assert (Hlen : length (take n (drop 9 bits)) = n) by (rewrite length_take, length_drop; lia).
  assert (Hmid := middle_bits (take 9 bits) (take n (drop 9 bits)) x). rewrite <- Hx, Hlen in Hmid.
  unfold RFIDCard.to_int, RFIDCard.to_wiegand_26, RFIDCard.to_wiegand_34.
  unfold frame_size in Hsz. rewrite Hl in *.
  destruct Hn as [-> | ->]; cbn [RFIDCard.nb_bits_ RFIDCard.card_id_]; rewrite Hsz, Hraw.
  - trans (Ret (Z.land (Z.shiftr (bits_val bits) 1) 0xFFFF)); [reflexivity | f_equal; exact Hmid].
  - trans (Ret (Z.land (Z.shiftr (bits_val bits) 1) 0xFFFFFF)); [reflexivity | f_equal; exact Hmid].
Qed.

(** a PIN code is accepted exactly when it is made of decimal digits. *)
Theorem pin_code_accepted pin p :
  (forallb PinCode.is_pin_character (chars pin) = true ->
     PinCode.set_pin_code pin p = Ret (PinCode.mk (PinCode.cred p) pin)) /\
  (forallb PinCode.is_pin_character (chars pin) = false ->
     exists msg, PinCode.set_pin_code pin p = Throw (ModelException "data/attributes/code" msg)).
Proof.
  unfold PinCode.set_pin_code, PinCode.validate_pin_code. induction (chars pin) as [|c l IH]; cbn.
  - split; [done|discriminate].
  - destruct (PinCode.is_pin_character c); cbn; [exact IH|]. split; [discriminate|eauto].
Qed.

(** ** Witnesses *)

(** The cards of [test/RFIDCard.cpp]. *)
Definition demo_frame_26 : list bool := take 26 (buffer_bits [0x80; 0x80; 0x41; 0x80]).

Lemma spaced_card_witness :
  RFIDCard.to_raw_int (RFIDCard.mk Credential.make "a a:bb" 16) = Ret 10.
Proof.
  destruct (spaced_card_truncated "a" (chars "a:bb") 16) as [_ H].
  - reflexivity.
  - reflexivity.
  - lia.
  - reflexivity.
  - exact H.
Defined.

Lemma card_number_witness :
  exists c, RFIDCard.make "ff:ff:ff:ff" 32 = Ret c /\ RFIDCard.to_raw_int c = Ret 4294967295.
Proof.
  destruct (card_number_of_frame (replicate 32 true) ltac:(cbn; lia)) as (c & Hc & Hi & _).
  exists c. split; [exact Hc | exact Hi].
Defined.

Lemma wiegand_number_witness :
  exists c, RFIDCard.make "80:80:41:80" 26 = Ret c /\ RFIDCard.to_int c = Ret 131.
Proof.
  destruct (wiegand_card_number demo_frame_26 16 (or_introl eq_refl) eq_refl) as (c & Hc & Hi).
  exists c. split; [exact Hc | exact Hi].
Defined.

Lemma pin_code_witness : PinCode.set_pin_code "1234" PinCode.default = Ret (PinCode.mk Credential.make "1234").
Proof. apply (pin_code_accepted "1234" PinCode.default). reflexivity. Defined.
