(* ===== verification/AuthSource.v ===== *)
(** From the message a reader pushed to a credential,
    [src/core/auth/AuthSourceBuilder.cpp], and the two ends together: the bits
    a card sends and the credential the authentication module gets. *)
From Stdlib Require Import ZArith Lia Ascii String.
From stdpp Require Import base tactics numbers list strings.
From S2P Require Import Prelude Reader Strategies Device Autodetect Users Credentials.
Import WiegandReaderImpl.

Open Scope Z_scope.

Module AuthSourceBuilder.

(** [input.substr(2)] when [input] is longer than two and begins with ["S_"]. *)
Definition extract_source_name (input : string) : option string :=
  match chars input with
  | "S"%char :: "_"%char :: c :: l => Some (text (c :: l))
  | _ => None
  end.

(** [LEOSAC_ENFORCE]. *)
Definition leosac_enforce (c : bool) (msg : string) : outcome unit := enforce c (LEOSACException msg).

(** [assert(msg->remaining() == n)]. *)
Definition remaining (n : nat) (m : message) : outcome unit := cassert (bool_decide (length m = n)).

Definition create_simple_csn (m : message) : outcome credential :=
  _ ← remaining 1 m;
  '(card_id, _) ← pop_str m;
  let raw_csn := drop_colons (chars card_id) in
  let size := Z.of_nat (length raw_csn) in
  _ ← leosac_enforce (size `mod` 2 =? 0) "CSN has invalid length.";
  let bits := size * 8 in
  _ ← cassert (bits <? 2 ^ 31 - 1);
  c ← RFIDCard.make card_id bits;
  Ret (Card c).

Definition create_simple_wiegand (m : message) : outcome credential :=
  _ ← remaining 2 m;
  '(card_id, m) ← pop_str m;
  '(bits, _) ← pop_int m;
  c ← RFIDCard.make card_id bits;
  Ret (Card c).

Definition create_pincode (m : message) : outcome credential :=
  _ ← remaining 1 m;
  '(pin, _) ← pop_str m;
  p ← PinCode.set_pin_code pin PinCode.default;
  Ret (Pin p).

Definition create_wiegand_card_pin (m : message) : outcome credential :=
  _ ← remaining 3 m;
  '(card_id, m) ← pop_str m;
  '(bits, m) ← pop_int m;
  '(pin_code, _) ← pop_str m;
  c ← RFIDCard.make card_id bits;
  p ← PinCode.set_pin_code pin_code PinCode.default;
  Ret (CardPin (RFIDCardPin.make c p)).

Definition create (m : message) : outcome credential :=
  _ ← cassert (bool_decide (2 <= length m)%nat);
  '(source_name, m) ← pop_str m;
  '(type, m) ← pop_u8 m;
  _ ← cassert (bool_decide (is_Some (extract_source_name source_name)));
  if type =? SIMPLE_WIEGAND then create_simple_wiegand m
  else if type =? WIEGAND_PIN then create_pincode m
  else if type =? WIEGAND_CARD_PIN then create_wiegand_card_pin m
  else if type =? SIMPLE_CSN then create_simple_csn m
  else Throw (LEOSACException "Unknown auth source type.").

End AuthSourceBuilder.
Import AuthSourceBuilder.

#[local] Arguments RFIDCard.make : simpl never.
#[local] Arguments PinCode.set_pin_code : simpl never.
#[local] Arguments extract_source_name : simpl never.
#[local] Arguments String.append : simpl never.
#[local] Arguments card_text : simpl never.

(** The card and the PIN objects of a frame and of typed keys. *)
Definition frame_card (bits : list bool) : RFIDCard.t :=
  RFIDCard.mk Credential.make (card_text bits) (Z.of_nat (length bits)).
Definition typed_pin (pin : list ascii) : PinCode.t := PinCode.mk Credential.make (text pin).

(** ** Lemmas *)

Lemma source_name_of r : name r <> "" -> extract_source_name ("S_" +:+ name r) = Some (name r).
Proof.
  intros H. unfold extract_source_name, chars. cbn.
  destruct (name r) as [|c s]; [done|]. cbn. f_equal. exact (text_chars (String c s)).
Qed.

Lemma digits_accepted pin p :
  forallb PinCode.is_pin_character pin = true ->
  PinCode.set_pin_code (text pin) p = Ret (PinCode.mk (PinCode.cred p) (text pin)).
Proof.
  intros H. unfold PinCode.set_pin_code, PinCode.validate_pin_code. rewrite chars_text.
  assert (Hl : foldM (fun (_ : unit) c => if PinCode.is_pin_character c then Ret tt
      else Throw (ModelException "data/attributes/code"
             ("Pin code contains invalid character: " +:+ String c ""))) tt pin = Ret tt).
  { induction pin as [|c l IH]; [done|]. cbn in H |- *. apply andb_true_iff in H as [-> H]. cbn. auto. }
  rewrite Hl. done.
Qed.

Lemma create_card r bits : name r <> "" -> (0 < length bits <= 128)%nat ->
  create (card_message r bits) = Ret (Card (frame_card bits)).
Proof.
  intros Hn Hb. unfold create, card_message, source_frame. cbn.
  rewrite source_name_of by done. cbn. unfold create_simple_wiegand. cbn.
  by rewrite make_card_text.
Qed.

Lemma create_pin r pin : name r <> "" -> forallb PinCode.is_pin_character pin = true ->
  create (pin_message r pin) = Ret (Pin (typed_pin pin)).
Proof.
  intros Hn Hp. unfold create, pin_message, source_frame. cbn.
  rewrite source_name_of by done. cbn. unfold create_pincode. cbn.
  by rewrite digits_accepted.
Qed.

(** A digit key is reported as a character a PIN code accepts. *)
Lemma key_char_digit k : 0 <= k < 10 -> PinCode.is_pin_character (key_char k) = true.
Proof.
  intros H. assert (k = 0 \/ k = 1 \/ k = 2 \/ k = 3 \/ k = 4 \/ k = 5 \/ k = 6 \/ k = 7 \/ k = 8 \/ k = 9)
    as Hk by lia. by repeat destruct Hk as [->|Hk]; subst.
Qed.

Lemma keys_digits (keys : list (Z * clock)) :
  Forall (fun kc => 0 <= kc.1 < 10) keys ->
  forallb PinCode.is_pin_character (map (fun kc => key_char kc.1) keys) = true.
Proof.
  induction 1 as [|kc l H _ IH]; [done|]. cbn. by rewrite key_char_digit.
Qed.

(** ** Properties *)

(** from the wire to the credential: when a card's frame of 1 to 64 bits
    reaches an idle reader in SIMPLE_WIEGAND mode, the one message pushed builds
    a card whose number is the number the bits spell. *)
Theorem frame_to_card (d : device Simple.t) bits clk :
  idle d -> name (rd d) <> "" -> (0 < length bits <= 64)%nat ->
  exists d' m c, device_run d (frame_events (rd d) bits clk) = Ret (d', [m]) /\
    create m = Ret (Card c) /\ RFIDCard.to_raw_int c = Ret (bits_val bits).
Proof.
  intros Hi Hn Hb.
  destruct (simple_device_card d bits clk Hi ltac:(lia)) as (d' & Hrun & _).
  exists d', (card_message (rd d) bits), (frame_card bits). split; [exact Hrun|].
  split; [apply create_card; [done|lia]|]. by apply raw_int_frame.
Qed.

(** a message that is not an authentication request is never turned into a
    credential: an unknown type throws, a source name without the prefix
    ["S_"] aborts. *)
Theorem create_rejects src type m :
  (extract_source_name src = None -> create (FStr src :: FU8 type :: m) = Fault AssertFailed) /\
  (is_Some (extract_source_name src) -> type ∉ [SIMPLE_WIEGAND; WIEGAND_PIN; WIEGAND_CARD_PIN; SIMPLE_CSN] ->
   create (FStr src :: FU8 type :: m) = Throw (LEOSACException "Unknown auth source type.")).
Proof.
  unfold create. split; intros H.
  - cbn. rewrite (bool_decide_eq_true_2 (2 <= _)%nat) by (cbn; lia). cbn.
    rewrite H. done.
  - intros Ht. cbn. rewrite (bool_decide_eq_true_2 (2 <= _)%nat) by (cbn; lia). cbn.
    rewrite bool_decide_eq_true_2 by done. cbn.
    rewrite !not_elem_of_cons in Ht. destruct Ht as (H1 & H2 & H3 & H4 & _).
    by rewrite !(proj2 (Z.eqb_neq _ _)) by done.
Qed.

(** a card serial number of [n] bytes becomes a card of [16 * n] bits, not
    [8 * n]: the builder counts eight bits per hexadecimal digit. *)
Theorem csn_bits_doubled bytes src :
  Forall is_byte bytes -> (0 < length bytes < 1000)%nat -> is_Some (extract_source_name src) ->
  create [FStr src; FU8 SIMPLE_CSN; FStr (text (join_hex bytes))] =
    Ret (Card (RFIDCard.mk Credential.make (text (join_hex bytes)) (16 * Z.of_nat (length bytes)))).
Proof.
  intros Hb Hl Hsrc. unfold create. cbn.
  rewrite bool_decide_eq_true_2 by done. cbn. unfold create_simple_csn. cbn.
  rewrite chars_text, drop_colons_join by done.
  assert (Hlen : length (flat_map hex_byte bytes) = (2 * length bytes)%nat)
    by (clear; induction bytes as [|x k IHk]; cbn in *; lia).
  rewrite Hlen. assert (Z.of_nat (2 * length bytes) `mod` 2 = 0) as ->.
  { rewrite Nat2Z.inj_mul, Z.mul_comm. apply Z_mod_mult. }
  cbn [Z.eqb enforce leosac_enforce mbind outcome_bind].
  rewrite (proj2 (Z.ltb_lt _ _)) by lia. cbn [cassert mbind outcome_bind].
  unfold RFIDCard.make, RFIDCard.set_card_id. rewrite validate_card_id_eq, chars_text, non_space_join by done.
  destruct bytes as [|b l]; [cbn in Hl; lia|]. rewrite card_format_join by done. cbn [enforce mbind outcome_bind].
  unfold RFIDCard.set_nb_bits, RFIDCard.validate_nb_bits.
  rewrite (proj2 (Z.leb_gt _ _)) by (cbn in Hl |- *; lia). cbn [negb enforce mbind outcome_bind].
  by replace (Z.of_nat (2 * length (b :: l)) * 8) with (16 * Z.of_nat (length (b :: l))) by lia.
Qed.

(** ** Witnesses *)

Lemma frame_to_card_witness :
  exists d' m c, device_run (mk_device demo_reader Simple.make)
      (frame_events demo_reader demo_bits (clock_at 0)) = Ret (d', [m]) /\
    create m = Ret (Card c) /\ RFIDCard.to_raw_int c = Ret 4294967295.
Proof.
  apply (frame_to_card (mk_device demo_reader Simple.make) demo_bits (clock_at 0)).
  - apply demo_idle.
  - discriminate.
  - cbn; lia.
Defined.

Lemma create_rejects_witness :
  create [FStr "S_"; FU8 1] = Fault AssertFailed /\
  create [FStr "S_X"; FU8 9] = Throw (LEOSACException "Unknown auth source type.").
Proof.
  split.
  - apply (create_rejects "S_" 1 []). reflexivity.
  - apply (create_rejects "S_X" 9 []); [by eexists | by apply (bool_decide_unpack _)].
Defined.

Lemma csn_bits_witness :
  create [FStr "S_NFC"; FU8 4; FStr "ab:cd"] = Ret (Card (RFIDCard.mk Credential.make "ab:cd" 32)).
Proof.
  apply (csn_bits_doubled [171; 205] "S_NFC").
  - repeat constructor; lia.
  - cbn; lia.
  - by eexists.
Defined.
