(* ===== verification/Signals.v ===== *)
(** What the readers' messages mean to the authentication side: every message
    that a reader of the Wiegand module sends, in whatever mode and whatever the wires
    carry, and the credential that [AuthSourceBuilder] builds from it. The strategies' side is
    [Strategies], the builder's [AuthSource]. *)
From Stdlib Require Import ZArith Lia Ascii String.
From stdpp Require Import base tactics numbers list strings.
From S2P Require Import Prelude Reader Strategies Device Autodetect Wiegand Users Credentials AuthSource.
Import WiegandReaderImpl AuthSourceBuilder.

Open Scope Z_scope.

(** * What is sent *)

(** The id of a card of [n] bits: its bytes, in hexadecimal. *)
Definition card_read (id : string) (n : Z) : Prop :=
  exists bytes, id = text (join_hex bytes) /\ Forall is_byte bytes /\
    0 < n /\ Z.of_nat (length bytes) = Z.quot (n - 1) 8 + 1.

(** The keys of a keypad: the digits, and two that a PIN code does not accept. *)
Definition key_ok (c : ascii) : Prop := PinCode.is_pin_character c = true \/ c = "*"%char \/ c = "#"%char.

Inductive sent (src : frame) : message -> Prop :=
  | sent_card id n : card_read id n -> sent src [src; FU8 SIMPLE_WIEGAND; FStr id; FInt n]
  | sent_pin pin : Forall key_ok pin -> sent src [src; FU8 WIEGAND_PIN; FStr (text pin)]
  | sent_both id n pin : card_read id n -> Forall key_ok pin ->
      sent src [src; FU8 WIEGAND_CARD_PIN; FStr id; FInt n; FStr (text pin)].

(** The credential that a message stands for. *)
Definition card_of (id : string) (n : Z) : RFIDCard.t := RFIDCard.mk Credential.make id n.
Definition meant (m : message) : option credential :=
  match m with
  | [_; FU8 _; FStr id; FInt n] => Some (Card (card_of id n))
  | [_; FU8 _; FStr pin] =>
      if forallb PinCode.is_pin_character (chars pin) then Some (Pin (typed_pin (chars pin))) else None
  | [_; FU8 _; FStr id; FInt n; FStr pin] =>
      if forallb PinCode.is_pin_character (chars pin)
      then Some (CardPin (RFIDCardPin.make (card_of id n) (typed_pin (chars pin)))) else None
  | _ => None
  end.

(** ** The builder's side *)

Lemma card_accepted id n : card_read id n -> RFIDCard.make id n = Ret (card_of id n).
Proof.
  intros (bytes & -> & Hb & Hn & Hl). unfold RFIDCard.make, RFIDCard.set_card_id.
  assert (Hv : RFIDCard.validate_card_id (text (join_hex bytes)) = Ret tt).
  { rewrite validate_card_id_eq, chars_text, non_space_join by done. destruct bytes as [|b l].
    - cbn in Hl. assert (0 <= Z.quot (n - 1) 8) by (apply Z.quot_pos; lia). lia.
    - by rewrite card_format_join. }
  rewrite Hv. cbn. unfold RFIDCard.set_nb_bits, RFIDCard.validate_nb_bits. by rewrite (proj2 (Z.leb_gt _ _)) by lia.
Qed.

Lemma pin_built pin : 
  (forallb PinCode.is_pin_character pin = true /\
   PinCode.set_pin_code (text pin) PinCode.default = Ret (typed_pin pin)) \/
  (forallb PinCode.is_pin_character pin = false /\
   exists what, PinCode.set_pin_code (text pin) PinCode.default = Throw (ModelException "data/attributes/code" what)).
Proof.
  destruct (forallb PinCode.is_pin_character pin) eqn:E; [left|right]; (split; [done|]).
  - by rewrite digits_accepted.
  - apply (pin_code_accepted (text pin) PinCode.default). by rewrite chars_text.
Qed.

(** A message that is sent is built into what it means, or its PIN is refused. *)
Lemma sent_built r m : name r <> "" -> sent (source_frame r) m ->
  match meant m with
  | Some c => create m = Ret c
  | None => exists what, create m = Throw (ModelException "data/attributes/code" what)
  end.
Proof.
  intros Hn Hs. destruct Hs as [id n Hc|pin Hp|id n pin Hc Hp]; cbn [meant]; rewrite ?chars_text;
    unfold create, source_frame; cbn -[RFIDCard.make PinCode.set_pin_code extract_source_name String.append];
    rewrite (source_name_of r Hn); cbn -[RFIDCard.make PinCode.set_pin_code].
  - unfold create_simple_wiegand. cbn -[RFIDCard.make]. by rewrite (card_accepted _ _ Hc).
  - unfold create_pincode. cbn -[PinCode.set_pin_code].
    destruct (pin_built pin) as [[-> ->]|[-> [what ->]]]; [done|by exists what].
  - unfold create_wiegand_card_pin. cbn -[RFIDCard.make PinCode.set_pin_code]. rewrite (card_accepted _ _ Hc).
    cbn -[PinCode.set_pin_code]. destruct (pin_built pin) as [[-> ->]|[-> [what ->]]]; [done|by exists what].
Qed.

(** * The strategies' side *)

(** A strategy that has nothing to say yet, in a state that [says] keeps; when it has, its
    message is one of those, and it is back in such a state. *)
Class Says (S : Type) `{!WiegandStrategy S} := {
  says : S -> Prop;
  says_step : forall clk s r s' r', says s -> reader_ok r -> timeout clk s r = Ret (s', r') ->
    if completed s'
    then forall clk' s2 r2 m, signal clk' s' r' = Ret (s2, r2, m) ->
      sent (source_frame r') m /\ forall clk'' r3, says (reset clk'' s2 r3).1
    else says s';
}.

(** A strategy that reads a PIN: the keys it has, some of them when it is done. *)
Class PinKeys (P : Type) `{PinReading P} := {
  pin_inv : P -> Prop;
  pin_step : forall clk p r p' r', pin_inv p -> reader_ok r -> timeout clk p r = Ret (p', r') -> pin_inv p';
  pin_reset : forall clk p r, pin_inv (reset clk p r).1;
  pin_keys : forall p, pin_inv p -> exists l, get_pin p = text l /\ Forall key_ok l;
  pin_done : forall p, pin_inv p -> completed p = true -> str_empty (get_pin p) = false;
}.

(** ** Cards *)

Definition card_inv (s : Simple.t) : Prop :=
  s = Simple.make \/ Simple.ready_ s = true /\ card_read (Simple.card_id_ s) (Simple.nb_bits_ s).

Lemma card_step clk s r s' r' : card_inv s -> reader_ok r -> Simple.timeout clk s r = Ret (s', r') -> card_inv s'.
Proof.
  intros Hs Hok Ht. destruct (decide (counter r = 0)) as [E|E].
  { unfold Simple.timeout in Ht. rewrite E in Ht. by injection Ht as <- _. }
  rewrite simple_timeout_eq in Ht by done. injection Ht as <- _. right. split; [done|]. cbn.
  pose proof (ok_counter _ Hok) as Hc. eexists. split; [done|].
  assert (Hq : 0 <= Z.quot (counter r - 1) 8 < 16) by (split; [apply Z.quot_pos; lia|apply Z.quot_lt_upper_bound; lia]).
  split; [by apply Forall_take, (ok_bytes _ Hok)|]. split; [lia|]. rewrite length_take, (ok_length _ Hok). lia.
Qed.

#[export] Instance simple_says : Says Simple.t.
Proof.
  refine {| says s := s = Simple.make |}. intros clk s r s' r' Hs Hok Ht.
  destruct (card_step clk s r s' r' (or_introl Hs) Hok Ht) as [-> |[Hr Hc]]; [done|].
  cbn. rewrite Hr. intros clk' s2 r2 m Hm. unfold Simple.signal in Hm. bind_inv Hm. injection Hm as _ _ <-. split; [by constructor|done].
Defined.

(** ** PINs *)

Lemma key_read n b c : PinNBits.extract_from_raw (NbBits := n) b = Ret c -> key_ok c.
Proof.
  unfold PinNBits.extract_from_raw, PinNBits.key_step. change (seqZ 0 4) with [0; 1; 2; 3]. cbn [foldl].
  destruct (n =? 8), (Z.testbit b (7 - 0)), (Z.testbit b (7 - 1)), (Z.testbit b (7 - 2)), (Z.testbit b (7 - 3));
    vm_compute; intros [= <-]; auto.
Qed.

#[export] Instance pin_n_keys n : PinKeys (PinNBits.t n).
Proof.
  refine {| pin_inv p := Forall key_ok (PinNBits.inputs_ p) /\ (PinNBits.ready_ p = true -> PinNBits.inputs_ p <> []) |}.
  - intros clk p r p' r' [Hk Hr] Hok Ht. cbn in Ht. unfold PinNBits.timeout in Ht.
    destruct (counter r =? 0); [|destruct (negb (counter r =? n))].
    + injection Ht as <- _. case_match; [|done]. split; [done|]. cbn. by case_bool_decide.
    + injection Ht as <- _. split; [constructor|done].
    + bind_inv Ht. apply key_read in E0. injection Ht as <- _. case_match.
      * split; [done|]. cbn. by case_bool_decide.
      * split; [by apply Forall_app_2; [|constructor]|]. intros _. cbn. by destruct (PinNBits.inputs_ p).
  - intros clk p r. split; [constructor|done].
  - intros p [Hk _]. by exists (PinNBits.inputs_ p).
  - intros p [_ Hr] Hc. by apply text_nonempty, Hr.
Defined.

#[export] Instance pin_buffered_keys : PinKeys PinBuffered.t.
Proof.
  refine {| pin_inv p := p = PinBuffered.make |}; [|done| |by intros p ->].
  - intros clk p r p' r' -> Hok Ht. cbn in Ht. destruct (decide (counter r = 26)) as [E|E].
    { by rewrite (buffered_pin_shifts_by_minus_one clk _ r Hok E) in Ht. }
    unfold PinBuffered.timeout in Ht. rewrite (proj2 (Z.eqb_neq (counter r) 26) E) in Ht.
    destruct (counter r =? 0); by injection Ht as <- _.
  - intros p ->. by exists [].
Defined.

#[export] Instance sum_keys {A B} `{PinKeys A, PinKeys B} : PinKeys (A + B).
Proof.
  refine {| pin_inv p := match p with inl a => pin_inv a | inr b => pin_inv b end |}.
  - intros clk [a|b] r p' r' Hi Hok Ht; cbn in Ht; destruct (timeout clk _ r) as [[x y]| |] eqn:E; cbn in Ht; try done;
      injection Ht as <- _; exact (pin_step _ _ _ _ _ Hi Hok E).
  - intros clk [a|b] r; cbn; [exact (pin_reset clk a r)|exact (pin_reset clk b r)].
  - intros [a|b] Hp; [exact (pin_keys a Hp)|exact (pin_keys b Hp)].
  - intros [a|b] Hp; [exact (pin_done a Hp)|exact (pin_done b Hp)].
Defined.

#[export] Instance pin_n_says n : Says (PinNBits.t n).
Proof.
  refine {| says p := pin_inv p /\ PinNBits.ready_ p = false |}. intros clk p r p' r' [Hi _] Hok Ht.
  pose proof (pin_step (P := PinNBits.t n) clk p r p' r' Hi Hok Ht) as Hi'. destruct (completed p') eqn:E; [|done].
  intros clk' s2 r2 m Hm. cbn in Hm. unfold PinNBits.signal in Hm. bind_inv Hm. injection Hm as <- <- <-.
  split; [constructor; apply Hi'|]. intros clk'' r3. split; [apply (pin_reset (P := PinNBits.t n))|done].
Defined.

#[export] Instance pin_buffered_says : Says PinBuffered.t.
Proof.
  refine {| says p := p = PinBuffered.make |}. intros clk p r p' r' Hi Hok Ht.
  by rewrite (@pin_step _ _ _ pin_buffered_keys clk p r p' r' Hi Hok Ht).
Defined.

(** ** Both *)

Section both.
Context {P : Type} `{PinKeys P, !StrategyLaws P}.

(** The card and the PIN read so far; the card is there once it is no longer waited for. *)
Definition both_inv (s : CardAndPin.t Simple.t P) : Prop :=
  card_inv (CardAndPin.read_card s) /\ pin_inv (CardAndPin.read_pin s) /\
  (CardAndPin.reading_card_ s = false -> Simple.ready_ (CardAndPin.read_card s) = true).

Lemma both_reset clk s r : both_inv (CardAndPin.reset clk s r).1 /\ CardAndPin.ready_ (CardAndPin.reset clk s r).1 = false.
Proof. rewrite card_and_pin_reset. unfold both_inv. cbn. split_and!; [by left|apply pin_reset|done|done]. Qed.

Lemma both_step clk s r s' r' : both_inv s -> CardAndPin.ready_ s = false -> reader_ok r ->
  CardAndPin.timeout clk s r = Ret (s', r') ->
  both_inv s' /\ (CardAndPin.ready_ s' = true -> CardAndPin.reading_card_ s' = false).
Proof.
  intros (Hc & Hp & Hd) Hr Hok Ht. unfold CardAndPin.timeout in Ht. destruct (CardAndPin.reading_card_ s).
  - bind_inv Ht. destruct a as [c r1]. pose proof (card_step _ _ _ _ _ Hc Hok E) as Hc'.
    destruct (completed c) eqn:Ec; injection Ht as <- _; (split; [by split_and!|]); cbn; [done|congruence].
  - case_match.
    + injection Ht as Ht. pose proof (both_reset clk s r) as Hb. rewrite Ht in Hb. destruct Hb as [Hb Hf]. cbn in *. split; [done|]. congruence.
    + bind_inv Ht. destruct a as [p r1]. pose proof (pin_step _ _ _ _ _ Hp Hok E) as Hp'. injection Ht as <- _. split; [by split_and!|done].
Qed.

Lemma both_says clk s r : both_inv s -> CardAndPin.reading_card_ s = false ->
  forall s2 r2 m, CardAndPin.signal clk s r = Ret (s2, r2, m) -> sent (source_frame r) m.
Proof.
  intros (Hc & Hp & Hd) Hr s2 r2 m Hm. unfold CardAndPin.signal in Hm. destruct (CardAndPin.reset clk s r). injection Hm as _ _ <-.
  destruct (pin_keys _ Hp) as (l & -> & Hl). specialize (Hd Hr). destruct Hc as [E|[_ Hc]]; [by rewrite E in Hd|]. by constructor.
Qed.

#[export] Instance card_and_pin_says : Says (CardAndPin.t Simple.t P).
Proof.
  refine {| says s := both_inv s /\ CardAndPin.ready_ s = false |}. intros clk s r s' r' [Hi Hr] Hok Ht.
  destruct (both_step _ _ _ _ _ Hi Hr Hok Ht) as [Hi' Hr']. destruct (completed s') eqn:E; [|done].
  intros clk' s2 r2 m Hm. split; [exact (both_says _ _ _ Hi' (Hr' E) _ _ _ Hm)|]. intros clk'' r3. apply both_reset.
Defined.
End both.

(** ** Either *)

Section autodetect.
Import Strategies.Autodetect.

Definition auto_inv (s : t) : Prop :=
  card_inv (read_card_strategy_ s) /\ forall p, read_pin_strategy_ s = Some p -> pin_inv p.
(** There is a card or a PIN to send. *)
Definition auto_has (s : t) : Prop :=
  Simple.nb_bits_ (read_card_strategy_ s) <> 0 \/ exists p, read_pin_strategy_ s = Some p /\ str_empty (get_pin p) = false.

Lemma auto_check clk s r elapsed s' r' : auto_inv s -> ready_ s = false -> reader_ok r ->
  check_pin clk s r elapsed = Ret (s', r') -> auto_inv s' /\ (ready_ s' = true -> auto_has s').
Proof.
  intros [Hc Hp] Hr Hok Ht. unfold check_pin in Ht. case_match; [|injection Ht as <- _; split; [by split|congruence]].
  bind_inv Ht. destruct a0 as [p r1]. destruct (read_pin_strategy_ s) as [q|] eqn:Eq; [|done]. injection E as ->.
  pose proof (pin_step _ _ _ _ _ (Hp _ eq_refl) Hok E0) as Hp'.
  destruct (completed p) eqn:Ec; injection Ht as <- _.
  - split; [split; [done|by intros p' [= <-]]|]. intros _. right. exists p. split; [done|by apply pin_done].
  - split; [split; [done|by intros p' [= <-]]|]. cbn. congruence.
Qed.

Lemma auto_step clk s r s' r' : auto_inv s -> ready_ s = false -> reader_ok r -> timeout clk s r = Ret (s', r') ->
  auto_inv s' /\ (ready_ s' = true -> auto_has s').
Proof.
  intros Hi Hr Hok Ht. pose proof Hi as [Hc Hp]. unfold timeout in Ht. destruct (_ || _); [|destruct (negb _)].
  - bind_inv Ht. destruct a1 as [p r1].
    assert (Ha : pin_inv a0).
    { destruct (read_pin_strategy_ s) as [q|] eqn:Eq; [injection E as <-; injection E0 as ->; by apply Hp|].
      unfold build_strategy in E. bind_inv E. injection E as <-.
      repeat case_match; try done; injection E0 as <-; (split; [constructor|done]). }
    pose proof (pin_step _ _ _ _ _ Ha Hok E1) as Hp'. destruct (completed p) eqn:Ec; injection Ht as <- _.
    + split; [split; [done|by intros p' [= <-]]|]. intros _. right. exists p. split; [done|by apply pin_done].
    + split; [split; [done|by intros p' [= <-]]|]. cbn. congruence.
  - bind_inv Ht. destruct a as [c r1]. injection Ht as <- _. split; [split; [by eapply card_step|done]|]. cbn. congruence.
  - unfold check_timeout in Ht. bind_inv Ht. destruct a as [s1 r1].
    destruct (auto_check _ _ _ _ _ _ Hi Hr Hok E) as [Hi1 Hr1].
    destruct (_ || _); [|by injection Ht as <- _]. destruct (_ && _) eqn:Eb; injection Ht as <- _; [|done].
    split; [exact Hi1|]. intros _. left. apply andb_true_iff in Eb as [_ Eb]. by apply negb_true_iff, Z.eqb_neq in Eb.
Qed.

Lemma auto_says clk s r s2 r2 m : auto_inv s -> auto_has s -> signal clk s r = Ret (s2, r2, m) -> sent (source_frame r) m.
Proof.
  intros [Hc Hp] Hh Hm. unfold signal in Hm. cbn [reset Simple.reset] in Hm. injection Hm as _ _ <-.
  assert (Hcard : Simple.nb_bits_ (read_card_strategy_ s) <> 0 ->
    card_read (Simple.card_id_ (read_card_strategy_ s)) (Simple.nb_bits_ (read_card_strategy_ s)))
    by (destruct Hc as [-> |[_ Hc]]; [done|by intros _]).
  assert (Hpin : exists l, pin_text s = text l /\ Forall key_ok l).
  { unfold pin_text. destruct (read_pin_strategy_ s) as [p|]; [by apply pin_keys, Hp|]. by exists []. }
  assert (Hsome : negb (get_nb_bits (read_card_strategy_ s) =? 0) = true \/ negb (str_empty (pin_text s)) = true).
  { destruct Hh as [Hh|(p & Ep & Hh)]; [left; by apply negb_true_iff, Z.eqb_neq|right]. unfold pin_text. by rewrite Ep, Hh. }
  change (get_nb_bits (read_card_strategy_ s)) with (Simple.nb_bits_ (read_card_strategy_ s)) in *.
  change (get_card_id (read_card_strategy_ s)) with (Simple.card_id_ (read_card_strategy_ s)).
  destruct Hpin as (l & Hpt & Hl). rewrite Hpt in *.
  destruct (negb (Simple.nb_bits_ _ =? 0)) eqn:En; [apply negb_true_iff, Z.eqb_neq in En; specialize (Hcard En)|].
  - destruct (negb (str_empty _)); cbn [andb app]; by constructor.
  - destruct Hsome as [?|Hsome]; [done|]. rewrite Hsome. cbn [andb app]. by constructor.
Qed.

#[export] Instance autodetect_says : Says t.
Proof.
  refine {| says s := auto_inv s /\ ready_ s = false |}. intros clk s r s' r' [Hi Hr] Hok Ht.
  destruct (auto_step _ _ _ _ _ Hi Hr Hok Ht) as [Hi' Hr']. destruct (completed s') eqn:E; [|done].
  intros clk' s2 r2 m Hm. split; [exact (auto_says clk' _ _ _ _ _ Hi' (Hr' E) Hm)|]. intros clk'' r3. split; [|done]. split; [by left|done].
Defined.
End autodetect.

#[export] Instance sum_says {A B} `{Says A, Says B} : Says (A + B).
Proof.
  refine {| says s := match s with inl a => says a | inr b => says b end |}.
  intros clk [a|b] r s' r' Hi Hok Ht; cbn in Ht; destruct (timeout clk _ r) as [[x y]| |] eqn:E; cbn in Ht; try done;
    injection Ht as <- <-; pose proof (says_step _ _ _ _ _ Hi Hok E) as Hs; cbn; destruct (completed x); try done;
    intros clk' s2 r2 m Hm; destruct (signal clk' x y) as [[[u v] w]| |] eqn:Es; cbn in Hm; try done;
    injection Hm as <- <- <-; destruct (Hs _ _ _ _ Es) as [Hm Hn]; (split; [exact Hm|]); intros clk'' r3; apply Hn.
Defined.

(** * Runs *)

Section runs.
Context {S : Type} `{StrategyLaws S, !Says S}.

Lemma step_says (d d' : device S) out out' e : reader_ok (rd d) -> says (strategy d) -> device_step (d, out) e = Ret (d', out') ->
  reader_ok (rd d') /\ says (strategy d') /\ name (rd d') = name (rd d) /\
  exists ms, out' = out ++ ms /\ Forall (sent (source_frame (rd d))) ms.
Proof.
  intros Hok Hs Hd. destruct e as [msg|clk]; cbn in Hd.
  - destruct (handle_bus_msg_safe (rd d) msg Hok) as (r & Hr & Hr'). rewrite Hr in Hd. cbn in Hd. injection Hd as <- <-.
    split_and!; [done|done| |by exists []; rewrite app_nil_r]. cbn. unfold handle_bus_msg in Hr.
    destruct (_ <? _); [|by injection Hr as <-]. bind_inv Hr. by injection Hr as <-.
  - unfold device_timeout in Hd. bind_inv Hd. destruct a as [d1 ms]. injection Hd as <- <-.
    bind_inv E. destruct a as [s1 r1]. pose proof (timeout_input _ _ _ _ _ E0) as Hin.
    pose proof (says_step _ _ _ _ _ Hs Hok E0) as Hsay.
    assert (Hok1 : reader_ok r1) by (by eapply input_ok). assert (Hn1 : name r1 = name (rd d)) by (by destruct Hin as [-> | ->]).
    assert (Hsrc : source_frame r1 = source_frame (rd d)) by (unfold source_frame; by rewrite Hn1).
    destruct (completed s1).
    + bind_inv E. destruct a as [[s2 r2] m]. destruct (reset clk s2 r2) as [s3 r3] eqn:Er. injection E as <- <-.
      destruct (Hsay _ _ _ _ E1) as [Hm Hn]. specialize (Hn clk r2). rewrite Er in Hn.
      pose proof (signal_input _ _ _ _ _ _ E1) as Hin2. pose proof (reset_clears clk s2 r2) as Hcl. rewrite Er in Hcl. cbn in *. subst r3.
      split_and!; [apply reset_ok|done|by destruct Hin2 as [-> | ->]|]. exists [m]. split; [done|]. rewrite <- Hsrc. by constructor.
    + injection E as <- <-. split_and!; [done|done|done|by exists []].
Qed.

Lemma run_says (d d' : device S) es out : reader_ok (rd d) -> says (strategy d) -> device_run d es = Ret (d', out) ->
  Forall (sent (source_frame (rd d))) out.
Proof.
  intros Hok Hs Hr. unfold device_run in Hr.
  assert (Hgen : forall es (d1 : device S) out1, reader_ok (rd d1) -> says (strategy d1) -> name (rd d1) = name (rd d) ->
    Forall (sent (source_frame (rd d))) out1 -> foldM device_step (d1, out1) es = Ret (d', out) ->
    Forall (sent (source_frame (rd d))) out).
  { clear Hr. intros l. induction l as [|e l IH]; intros d1 out1 Hok1 Hs1 Hn1 Ho1 Hr; cbn [foldM] in Hr; [by injection Hr as _ <-|].
    bind_inv Hr. destruct a as [d2 out2]. destruct (step_says _ _ _ _ _ Hok1 Hs1 E) as (Hok2 & Hs2 & Hn2 & ms & -> & Hms).
    apply (IH _ _ Hok2 Hs2 ltac:(congruence)) in Hr; [done|]. apply Forall_app. split; [done|].
    unfold source_frame in *. by rewrite Hn1 in Hms. }
  by eapply Hgen.
Qed.
End runs.

(** A device whose strategy is one of two kinds runs as a device of that kind. *)
Definition left_device {A B : Type} (d : device A) : device (A + B) := mk_device (rd d) (inl (strategy d)).
Lemma run_left {A B} `{WiegandStrategy A, WiegandStrategy B} (d : device A) es :
  device_run (left_device (B := B) d) es = (fun st => (left_device st.1, st.2)) <$> device_run d es.
Proof.
  unfold device_run. generalize (@nil message). revert d. induction es as [|e es IH]; intros d out; [done|].
  cbn [foldM]. assert (Hs : device_step (left_device (B := B) d, out) e =
    (fun st => (left_device st.1, st.2)) <$> device_step (d, out) e).
  { destruct e as [msg|clk]; cbn; [by destruct (handle_bus_msg (rd d) msg)|]. unfold device_timeout. cbn.
    destruct (timeout clk (strategy d) (rd d)) as [[s r]| |]; cbn; [|done..].
    destruct (completed s); [|done]. destruct (signal clk s r) as [[[s2 r2] m]| |]; cbn; [|done..].
    by destruct (reset clk s2 r2). }
  rewrite Hs. destruct (device_step (d, out) e) as [[d1 out1]| |]; cbn; [apply IH|done..].
Qed.

Lemma created_says clk cfg s : create_strategy clk cfg = Ret s -> says s.
Proof.
  assert (Hn : forall n t k, pin_inv (PinNBits.make (NbBits := n) clk t k)) by (intros; split; [constructor|done]).
  assert (Hb : forall P `{PinKeys P} (p : P) t, pin_inv p -> both_inv (CardAndPin.make clk Simple.make p t))
    by (intros; split_and!; [by left|done|done]).
  unfold create_strategy. repeat case_match; intros Hs; try done; injection Hs as <-; cbn;
    first [done|split; [apply Hn|done]|split; [apply (Hb _ _ _ _), Hn|done]|split; [by apply (Hb _ _ _ _)|done]|
           split; [split; [by left|done]|done]].
Qed.

(** C36: (roundtrip) whatever the wires of a reader carry and whenever its timer runs, in any of the
    modes, every message the reader sends is a card, a PIN or both, that the authentication side
    builds into the card with that id and number of bits, the PIN code with those keys, or
    both. A PIN in which one of the keys [*] and [#] was typed is no PIN code: that message is refused with an
    exception about the code. A card's frame that reaches a reader in SIMPLE_WIEGAND mode is
    built into the card with the frame's bits. *)
Theorem signals_understood clk cfg strategy r :
  create_strategy clk cfg = Ret strategy -> reader_ok r -> name r <> "" ->
  (forall es d' out, device_run (mk_device r strategy) es = Ret (d', out) ->
     Forall (fun m => sent (source_frame r) m /\
       match meant m with
       | Some c => create m = Ret c
       | None => exists what, create m = Throw (ModelException "data/attributes/code" what)
       end) out) /\
  (forall bits clk', strategy = inl Simple.make -> idle (mk_device r Simple.make) -> (0 < length bits <= 128)%nat ->
     exists d' m, device_run (mk_device r strategy) (frame_events r bits clk') = Ret (d', [m]) /\
       create m = Ret (Card (frame_card bits))).
Proof.
  intros Hs Hok Hn. split.
  - intros es d' out Hr. apply (run_says (mk_device r strategy) d' es out Hok (created_says _ _ _ Hs)) in Hr.
    eapply Forall_impl; [exact Hr|]. intros m Hm. split; [exact Hm|]. by apply (sent_built r).
  - intros bits clk' -> Hi Hb. destruct (simple_reads_card (mk_device r Simple.make) bits clk' Hi Hb) as (d' & Hr & _). cbn [rd] in Hr.
    exists (left_device d'), (card_message r bits). split; [|by apply create_card].
    etransitivity; [exact (run_left (mk_device r Simple.make) _)|]. by rewrite Hr.
Qed.

(** * Witness *)

Module Demo.

(** A reader in AUTODETECT mode: a card, and a PIN with its star key. *)
Definition auto_cfg : WiegandReaderConfig.t :=
  WiegandReaderConfig.mk "WIEGAND_1" (Some "HIGH") (Some "LOW") None None "AUTODETECT" 2500 "#" false.
Definition auto_device : device any_strategy :=
  mk_device demo_reader (inr (inr (inr (inr (inr (inr (inr (Strategies.Autodetect.make (clock_at 0) 2500 "#" false)))))))).
Definition demo_events (k : Z) : list event :=
  frame_events demo_reader demo_bits (ms 10) ++ typing 8 demo_reader [(4, ms 900); (k, ms 1800)] ++
  frame_events demo_reader (key_frame 8 11) (ms 2000).

Lemma sends k pin : (k, pin) = (2, "42") \/ (k, pin) = (10, "4*") -> exists d',
  device_run auto_device (demo_events k) =
  Ret (d', [[FStr "S_WIEGAND_1"; FU8 WIEGAND_CARD_PIN; FStr "ff:ff:ff:ff"; FInt 32; FStr pin]]).
Proof. intros [[= -> ->]|[= -> ->]]; eexists; vm_compute; reflexivity. Qed.

Lemma signals_understood_witness :
  create [FStr "S_WIEGAND_1"; FU8 WIEGAND_CARD_PIN; FStr "ff:ff:ff:ff"; FInt 32; FStr "42"] =
    Ret (CardPin (RFIDCardPin.make (card_of "ff:ff:ff:ff" 32) (typed_pin (chars "42")))) /\
  exists what, create [FStr "S_WIEGAND_1"; FU8 WIEGAND_CARD_PIN; FStr "ff:ff:ff:ff"; FInt 32; FStr "4*"] =
    Throw (ModelException "data/attributes/code" what).
Proof.
  assert (Hok : reader_ok demo_reader) by (apply (idle_ok (mk_device demo_reader Simple.make)), demo_idle).
  destruct (signals_understood (clock_at 0) auto_cfg (strategy auto_device) demo_reader) as [Hall _];
    [reflexivity|exact Hok|discriminate|].
  split.
  - destruct (sends 2 "42" (or_introl eq_refl)) as (d' & Hr). specialize (Hall _ _ _ Hr). apply Forall_cons in Hall as [[_ Hm] _]. exact Hm.
  - destruct (sends 10 "4*" (or_intror eq_refl)) as (d' & Hr). specialize (Hall _ _ _ Hr). apply Forall_cons in Hall as [[_ Hm] _]. exact Hm.
Defined.
End Demo.
