(* ===== verification/Schedules.v ===== *)
(** Schedules, [src/tools/]: time frames of a day, schedules as lists of them,
    their mapping to users, groups, credentials, doors and zones, and the XML
    loader.

    [std::localtime] depends on the machine's time zone: it is a parameter,
    from time points to broken-down times. *)
From Stdlib Require Import ZArith Lia ZifyBool Ascii String.
From stdpp Require Import base tactics numbers list strings gmap.
From S2P Require Import Prelude Ptree Users.

Open Scope Z_scope.

(** The fields of [std::tm] the code reads. *)
Record tm := mk_tm { tm_wday : Z; tm_hour : Z; tm_min : Z }.

(** * SingleTimeFrame *)

Module SingleTimeFrame.

Record t := mk { day : Z; start_hour : Z; start_min : Z; end_hour : Z; end_min : Z }.

Definition default : t := mk 0 0 0 0 0.

Definition is_in_timeframe (now : tm) (f : t) : bool :=
  if negb (day f =? tm_wday now) then false
  else if negb ((start_hour f <? tm_hour now) ||
                ((start_hour f =? tm_hour now) && (start_min f <=? tm_min now))) then false
  else if negb ((tm_hour now <? end_hour f) ||
                ((end_hour f =? tm_hour now) && (tm_min now <=? end_min f))) then false
  else true.

Definition equal (f o : t) : bool :=
  (day f =? day o) && (start_hour f =? start_hour o) && (start_min f =? start_min o) &&
  (end_hour f =? end_hour o) && (end_min f =? end_min o).

(** Lexicographic [<] on the tuple of the fields. *)
Definition fields (f : t) : list Z := [day f; start_hour f; start_min f; end_hour f; end_min f].
Fixpoint lex_lt (l1 l2 : list Z) : bool :=
  match l1, l2 with
  | a :: l1, b :: l2 => (a <? b) || (negb (b <? a) && lex_lt l1 l2)
  | _, _ => false
  end.
Definition less (f o : t) : bool := lex_lt (fields f) (fields o).

End SingleTimeFrame.

#[export] Instance timeframe_eq_dec : EqDecision SingleTimeFrame.t.
Proof. solve_decision. Defined.

(** * Schedule *)

Module Schedule.

Record t := mk {
  name_ : string;
  description_ : string;
  timeframes_ : list SingleTimeFrame.t;
}.

Definition make (sched_name : string) : t := mk sched_name "" [].

Definition is_in_schedule (now : tm) (s : t) : bool :=
  existsb (SingleTimeFrame.is_in_timeframe now) (timeframes_ s).

Definition add_timeframe (f : SingleTimeFrame.t) (s : t) : t :=
  mk (name_ s) (description_ s) (timeframes_ s ++ [f]).
Definition clear_timeframes (s : t) : t := mk (name_ s) (description_ s) [].

(** [ScheduleValidator::validate_name]. *)
Definition validate_name (name : string) : outcome unit :=
  if (str_size name <? 3) || (50 <? str_size name)
  then Throw (ModelException "data/attributes/name" "Length must be >=3 and <=50.")
  else foldM (fun _ c =>
         if Group.is_name_character c then Ret tt
         else Throw (ModelException "data/attributes/name"
                ("Usage of unauthorized character: " +:+ String c "")))
       tt (chars name).

Definition set_name (name : string) (s : t) : outcome t :=
  _ ← validate_name name;
  Ret (mk name (description_ s) (timeframes_ s)).
Definition set_description (d : string) (s : t) : t := mk (name_ s) d (timeframes_ s).

End Schedule.

#[export] Instance schedule_eq_dec : EqDecision Schedule.t.
Proof. solve_decision. Defined.

(** * ScheduleMapping *)

Module ScheduleMapping.

(** Users, groups and credentials are referred to by id, doors and zones by
    the address of an object the mapping does not own. A schedule never
    changes once mappings refer to it. *)
Record t := mk {
  alias_ : string;
  schedule_ : option Schedule.t;
  users_ : list Z;
  groups_ : list Z;
  creds_ : list Z;
  doors_ : list Z;
  zones_ : list Z;
}.

Definition make : t := mk "" None [] [] [] [] [].

Definition has (id : Z) (l : list Z) : bool := existsb (fun i => i =? id) l.
Definition has_user (uid : Z) (m : t) : bool := has uid (users_ m).
Definition has_group (gid : Z) (m : t) : bool := has gid (groups_ m).
Definition has_cred (cid : Z) (m : t) : bool := has cid (creds_ m).
Definition has_door (did : Z) (m : t) : bool := has did (doors_ m).
Definition has_zone (zid : Z) (m : t) : bool := has zid (zones_ m).

(** [has_user_indirect], given the user's id and the ids of the user's groups
    and credentials. *)
Definition has_user_indirect (uid : Z) (groups creds : list Z) (m : t) : bool :=
  has_user uid m || existsb (fun g => has_group g m) groups || existsb (fun c => has_cred c m) creds.

(** [Schedule::add_mapping] makes the mapping point to the schedule. *)
Definition set_schedule (s : Schedule.t) (m : t) : t :=
  mk (alias_ m) (Some s) (users_ m) (groups_ m) (creds_ m) (doors_ m) (zones_ m).

(** The adders assert that the pointer they get is not null. *)
Definition add_user (u : option Z) (m : t) : outcome t :=
  _ ← cassert (bool_decide (is_Some u));
  u ← deref u;
  Ret (mk (alias_ m) (schedule_ m) (users_ m ++ [u]) (groups_ m) (creds_ m) (doors_ m) (zones_ m)).
Definition add_group (g : option Z) (m : t) : outcome t :=
  _ ← cassert (bool_decide (is_Some g));
  g ← deref g;
  Ret (mk (alias_ m) (schedule_ m) (users_ m) (groups_ m ++ [g]) (creds_ m) (doors_ m) (zones_ m)).
Definition add_credential (c : option Z) (m : t) : outcome t :=
  _ ← cassert (bool_decide (is_Some c));
  c ← deref c;
  Ret (mk (alias_ m) (schedule_ m) (users_ m) (groups_ m) (creds_ m ++ [c]) (doors_ m) (zones_ m)).
Definition add_door (d : option Z) (m : t) : outcome t :=
  _ ← cassert (bool_decide (is_Some d));
  d ← deref d;
  Ret (mk (alias_ m) (schedule_ m) (users_ m) (groups_ m) (creds_ m) (doors_ m ++ [d]) (zones_ m)).
Definition add_zone (z : option Z) (m : t) : outcome t :=
  _ ← cassert (bool_decide (is_Some z));
  z ← deref z;
  Ret (mk (alias_ m) (schedule_ m) (users_ m) (groups_ m) (creds_ m) (doors_ m) (zones_ m ++ [z])).

Definition clear_users (m : t) : t :=
  mk (alias_ m) (schedule_ m) [] (groups_ m) (creds_ m) (doors_ m) (zones_ m).
Definition clear_groups (m : t) : t :=
  mk (alias_ m) (schedule_ m) (users_ m) [] (creds_ m) (doors_ m) (zones_ m).
Definition clear_credential (m : t) : t :=
  mk (alias_ m) (schedule_ m) (users_ m) (groups_ m) [] (doors_ m) (zones_ m).
Definition clear_doors (m : t) : t :=
  mk (alias_ m) (schedule_ m) (users_ m) (groups_ m) (creds_ m) [] (zones_ m).
Definition clear_zones (m : t) : t :=
  mk (alias_ m) (schedule_ m) (users_ m) (groups_ m) (creds_ m) (doors_ m) [].

End ScheduleMapping.

(** * XmlScheduleLoader *)

(** [boost::split(out, s, is_any_of(":"))]. *)
Fixpoint split_colon (l : list ascii) : list (list ascii) :=
  match l with
  | [] => [[]]
  | c :: l =>
      if Ascii.eqb c ":" then [] :: split_colon l
      else match split_colon l with
           | w :: ws => (c :: w) :: ws
           | [] => [[c]]
           end
  end.

Module XmlScheduleLoader.

Abbreviation schedules := (gmap string Schedule.t).

Definition week_day_to_int (day : string) : outcome Z :=
  if String.eqb day "sunday" then Ret 0
  else if String.eqb day "monday" then Ret 1
  else if String.eqb day "tuesday" then Ret 2
  else if String.eqb day "wednesday" then Ret 3
  else if String.eqb day "thursday" then Ret 4
  else if String.eqb day "friday" then Ret 5
  else if String.eqb day "saturday" then Ret 6
  else Fault AssertFailed.

(** ["hh:mm"] to two integers. *)
Definition parse_time (s : string) : outcome (Z * Z) :=
  match split_colon (chars s) with
  | [h; m] => h ← stoi h; m ← stoi m; Ret (h, m)
  | _ => Throw (ModuleException "AuthFail schedule building error.")
  end.

Section loader.
Context {T : Type} `{PropertyTree T}.

Definition add_day (sched : Schedule.t) (sched_data : string * T) : outcome Schedule.t :=
  if String.eqb sched_data.1 "name" then Ret sched
  else
    start ← get as_string sched_data.2 "start";
    end_ ← get as_string sched_data.2 "end";
    '(start_hour, start_min) ← parse_time start;
    '(end_hour, end_min) ← parse_time end_;
    day ← week_day_to_int sched_data.1;
    Ret (Schedule.add_timeframe
           (SingleTimeFrame.mk day start_hour start_min end_hour end_min) sched).

Definition extract_one (node : T) (schedules_ : schedules) : outcome schedules :=
  schedule_name ← get as_string node "name";
  sched ← foldM add_day (Schedule.make schedule_name) (children node);
  Ret (<[schedule_name := sched]> schedules_).

(** [load]: [false] as soon as a node is not a schedule, what was read staying
    in the map. *)
Fixpoint load_nodes (nodes : list (string * T)) (schedules_ : schedules)
  : outcome (schedules * bool) :=
  match nodes with
  | [] => Ret (schedules_, true)
  | (node_name, node) :: nodes =>
      if negb (String.eqb node_name "schedule") then Ret (schedules_, false)
      else
        schedules_ ← extract_one node schedules_;
        load_nodes nodes schedules_
  end.

Definition load (schedules_tree : T) (schedules_ : schedules) : outcome (schedules * bool) :=
  _ ← cassert (bool_decide (schedules_ = ∅));
  load_nodes (children schedules_tree) schedules_.

End loader.
End XmlScheduleLoader.

(** * Specifications *)

(** Minutes since midnight. *)
Definition minutes (h m : Z) : Z := 60 * h + m.

Definition day_name (d : Z) : string :=
  nth (Z.to_nat d) ["sunday"; "monday"; "tuesday"; "wednesday"; "thursday"; "friday"; "saturday"] "".

(** A frame as the configuration guide writes them. *)
Definition frame_ok (f : SingleTimeFrame.t) : Prop :=
  0 <= SingleTimeFrame.day f < 7 /\
  0 <= SingleTimeFrame.start_hour f < 24 /\ 0 <= SingleTimeFrame.start_min f < 60 /\
  0 <= SingleTimeFrame.end_hour f < 24 /\ 0 <= SingleTimeFrame.end_min f < 60.

(** The XML of a schedule. *)
Definition time_text (h m : Z) : string := to_string h +:+ ":" +:+ to_string m.
Definition frame_xml (f : SingleTimeFrame.t) : string * xml :=
  (day_name (SingleTimeFrame.day f),
   Node "" [("start", leaf (time_text (SingleTimeFrame.start_hour f) (SingleTimeFrame.start_min f)));
            ("end", leaf (time_text (SingleTimeFrame.end_hour f) (SingleTimeFrame.end_min f)))]).
Definition schedule_xml (s : Schedule.t) : string * xml :=
  ("schedule", Node "" (("name", leaf (Schedule.name_ s)) :: map frame_xml (Schedule.timeframes_ s))).

(** ** Lemmas *)

Lemma forallb_seqZ (P : Z -> bool) n z :
  forallb P (seqZ 0 n) = true -> 0 <= z < n -> P z = true.
Proof.
  intros H Hz. rewrite forallb_forall in H. apply H, list_elem_of_In, elem_of_seqZ. lia.
Qed.

(** The loader reads back every time of day. *)
Lemma parse_time_text h m : 0 <= h < 24 -> 0 <= m < 60 ->
  XmlScheduleLoader.parse_time (time_text h m) = Ret (h, m).
Proof.
  intros Hh Hm.
  assert (Hall : forallb (fun h => forallb (fun m =>
    bool_decide (XmlScheduleLoader.parse_time (time_text h m) = Ret (h, m))) (seqZ 0 60)) (seqZ 0 24) = true)
    by (vm_compute; reflexivity).
  pose proof (forallb_seqZ _ _ _ Hall Hh) as H1. cbn beta in H1.
  exact (bool_decide_eq_true_1 _ (forallb_seqZ _ _ _ H1 Hm)).
Qed.

Lemma week_day_name d : 0 <= d < 7 ->
  XmlScheduleLoader.week_day_to_int (day_name d) = Ret d /\ String.eqb (day_name d) "name" = false.
Proof.
  intros H. assert (Hd : d = 0 \/ d = 1 \/ d = 2 \/ d = 3 \/ d = 4 \/ d = 5 \/ d = 6) by lia.
  by repeat destruct Hd as [->|Hd]; subst.
Qed.

Lemma add_day_xml s f : frame_ok f ->
  XmlScheduleLoader.add_day s (frame_xml f) = Ret (Schedule.add_timeframe f s).
Proof.
  intros (Hd & Hsh & Hsm & Heh & Hem). destruct (week_day_name _ Hd) as [Hw Hn].
  unfold XmlScheduleLoader.add_day. cbn [frame_xml fst snd]. rewrite Hn.
  cbn -[XmlScheduleLoader.parse_time XmlScheduleLoader.week_day_to_int day_name time_text].
  rewrite !parse_time_text by done. cbn -[XmlScheduleLoader.week_day_to_int day_name]. rewrite Hw.
  cbn. by destruct f.
Qed.

Lemma extract_schedule_xml s m :
  Forall frame_ok (Schedule.timeframes_ s) -> Schedule.description_ s = "" ->
  XmlScheduleLoader.extract_one (schedule_xml s).2 m = Ret (<[Schedule.name_ s := s]> m).
Proof.
  intros Hf Hd. unfold XmlScheduleLoader.extract_one, schedule_xml.
  cbn -[XmlScheduleLoader.add_day].
  assert (Hl : forall l acc, Forall frame_ok l ->
    foldM XmlScheduleLoader.add_day acc (map frame_xml l) =
    Ret (Schedule.mk (Schedule.name_ acc) (Schedule.description_ acc) (Schedule.timeframes_ acc ++ l))).
  { induction l as [|f l IH]; intros acc Hfl; cbn -[XmlScheduleLoader.add_day].
    - rewrite app_nil_r. by destruct acc.
    - apply Forall_cons in Hfl as [Hf1 Hfl]. rewrite add_day_xml by done.
      cbn -[XmlScheduleLoader.add_day]. rewrite IH by done. cbn. by rewrite <- app_assoc. }
  assert (Hname : XmlScheduleLoader.add_day (Schedule.make (Schedule.name_ s)) ("name", leaf (Schedule.name_ s))
    = Ret (Schedule.make (Schedule.name_ s))) by done.
  rewrite Hname. cbn -[XmlScheduleLoader.add_day]. rewrite Hl by done. cbn.
  destruct s; cbn in *. by subst.
Qed.

(** ** Properties *)

(** a time frame is the closed interval, in minutes of its day, from its
    start to its end: 08:00-16:30 still contains 16:30:59. *)
Theorem timeframe_minutes now f :
  0 <= tm_min now < 60 -> 0 <= SingleTimeFrame.start_min f < 60 -> 0 <= SingleTimeFrame.end_min f < 60 ->
  SingleTimeFrame.is_in_timeframe now f = true <->
  SingleTimeFrame.day f = tm_wday now /\
  minutes (SingleTimeFrame.start_hour f) (SingleTimeFrame.start_min f)
    <= minutes (tm_hour now) (tm_min now)
    <= minutes (SingleTimeFrame.end_hour f) (SingleTimeFrame.end_min f).
Proof.
  intros H1 H2 H3. unfold SingleTimeFrame.is_in_timeframe, minutes.
  repeat case_match; lia.
Qed.

(** round trip of the XML schedules: whatever schedules are written in the
    documented format, the loader reads back exactly those, a later schedule
    replacing an earlier one of the same name. *)
Theorem schedules_roundtrip l :
  Forall (fun s => Forall frame_ok (Schedule.timeframes_ s) /\ Schedule.description_ s = "") l ->
  XmlScheduleLoader.load (Node "" (map schedule_xml l)) ∅ =
  Ret (foldl (fun m s => <[Schedule.name_ s := s]> m) ∅ l, true).
Proof.
  intros Hl. unfold XmlScheduleLoader.load. rewrite bool_decide_eq_true_2 by done.
  cbn [cassert mbind outcome_bind children xml_tree xml_kids].
  generalize (∅ : XmlScheduleLoader.schedules).
  induction Hl as [|s l [Hf Hd] _ IH]; intros m; [done|].
  cbn [map XmlScheduleLoader.load_nodes]. change (schedule_xml s) with ("schedule", (schedule_xml s).2).
  cbn [negb String.eqb]. change (String.eqb "schedule" "schedule") with true. cbn [negb].
  rewrite extract_schedule_xml by done. cbn [mbind outcome_bind foldl]. apply IH.
Qed.

(** the order of time frames is a strict order that agrees with their
    equality, so a sorted container keeps each frame once. *)
Theorem timeframe_order a b c :
  (SingleTimeFrame.less a b = true -> SingleTimeFrame.less b c = true -> SingleTimeFrame.less a c = true) /\
  (SingleTimeFrame.equal a b = true <-> a = b) /\
  (SingleTimeFrame.equal a b =
   negb (SingleTimeFrame.less a b) && negb (SingleTimeFrame.less b a)).
Proof.
  assert (Htri : forall l1 l2, length l1 = length l2 ->
    negb (SingleTimeFrame.lex_lt l1 l2) && negb (SingleTimeFrame.lex_lt l2 l1) = bool_decide (l1 = l2)).
  { induction l1 as [|x l1 IH]; intros [|y l2] Hl; try done; cbn.
    specialize (IH l2 ltac:(cbn in Hl; lia)).
    destruct (Z.ltb_spec x y), (Z.ltb_spec y x); cbn; try lia.
    - symmetry. apply bool_decide_eq_false. intros [=]. lia.
    - symmetry. apply bool_decide_eq_false. intros [=]. lia.
    - assert (x = y) as -> by lia. rewrite IH. apply bool_decide_ext. split; congruence. }
  assert (Htr : forall l1 l2 l3, SingleTimeFrame.lex_lt l1 l2 = true ->
    SingleTimeFrame.lex_lt l2 l3 = true -> SingleTimeFrame.lex_lt l1 l3 = true).
  { induction l1 as [|x l1 IH]; intros [|y l2] [|z l3]; cbn; try done.
    destruct (Z.ltb_spec x y), (Z.ltb_spec y x), (Z.ltb_spec y z), (Z.ltb_spec z y),
      (Z.ltb_spec x z), (Z.ltb_spec z x); cbn; try done; try lia. apply IH. }
  assert (Heq : SingleTimeFrame.equal a b = true <-> a = b).
  { unfold SingleTimeFrame.equal. destruct a, b; cbn. split.
    - intros H. bool_hyps. by subst.
    - intros [= -> -> -> -> ->]. by rewrite !Z.eqb_refl. }
  split; [apply Htr|]. split; [exact Heq|].
  unfold SingleTimeFrame.less. rewrite Htri by done.
  destruct (SingleTimeFrame.equal a b) eqn:E; symmetry.
  - apply bool_decide_eq_true. f_equal. by apply Heq.
  - apply bool_decide_eq_false. intros Hf. enough (a = b) as Hab by (by apply Heq in Hab).
    destruct a, b. unfold SingleTimeFrame.fields in Hf. cbn in Hf. congruence.
Qed.

(** ** Witnesses *)

Definition demo_frame : SingleTimeFrame.t := SingleTimeFrame.mk 1 8 0 16 30.
Definition demo_schedule : Schedule.t := Schedule.mk "work" "" [demo_frame].

Lemma timeframe_minutes_witness :
  SingleTimeFrame.is_in_timeframe (mk_tm 1 16 30) demo_frame = true.
Proof.
  apply (timeframe_minutes (mk_tm 1 16 30) demo_frame); cbn; try lia.
  split; [reflexivity | unfold minutes; lia].
Defined.

Lemma schedules_roundtrip_witness :
  XmlScheduleLoader.load (Node "" [schedule_xml demo_schedule]) ∅ =
  Ret ({["work" := demo_schedule]}, true).
Proof.
  apply (schedules_roundtrip [demo_schedule]).
  constructor; [|constructor]. split; [|reflexivity].
  constructor; [|constructor]. repeat split; cbn; lia.
Defined.
