(* ===== verification/Security.v ===== *)
(** Permissions: [src/core/SecurityContext.cpp],
    [src/core/UserSecurityContext.cpp], and the finders of
    [src/tools/db/DBService.cpp] they use.

    The database is behind an object-relational mapper that is not part of the
    repository: [Database] is what the code relies on, what [find<T>(id)]
    returns for each type. *)
From Stdlib Require Import ZArith Lia Ascii String.
From stdpp Require Import base tactics numbers list strings.
From S2P Require Import Prelude Users Credentials Schedules.

Open Scope Z_scope.

(** * The database *)

(** A door, as the permission checks see it: the mappings that refer to it. A
    schedule: its mappings. *)
Record Database := {
  find_user : Z -> option User.t;
  find_group : Z -> option Group.t;
  find_membership : Z -> option UserGroupMembership.t;
  find_credential : Z -> option Credential.t;
  find_schedule : Z -> option (list ScheduleMapping.t);
  find_door : Z -> option (list ScheduleMapping.t);
  (** [User::group_memberships()], by group id, and [lazy_credentials()]. *)
  group_memberships : Z -> list Z;
  lazy_credentials : Z -> list Z;
}.

Module DBService.

(** [find_*_by_id(id, THROW_IF_NOT_FOUND)]; without the flag the caller gets
    the pointer, [None] being null. *)
Definition or_throw {A} (o : option A) : outcome A :=
  match o with Some a => Ret a | None => Throw EntityNotFound end.

Definition find_user_by_id (db : Database) (id : Z) : outcome User.t := or_throw (find_user db id).
Definition find_group_by_id (db : Database) (id : Z) : outcome Group.t := or_throw (find_group db id).
Definition find_membership_by_id (db : Database) (id : Z) : outcome UserGroupMembership.t :=
  or_throw (find_membership db id).
Definition find_credential_by_id (db : Database) (id : Z) : outcome Credential.t :=
  or_throw (find_credential db id).
Definition find_schedule_by_id (db : Database) (id : Z) : outcome (list ScheduleMapping.t) :=
  or_throw (find_schedule db id).
Definition find_door_by_id (db : Database) (id : Z) : outcome (list ScheduleMapping.t) :=
  or_throw (find_door db id).

(** [lazy_shared_ptr::load]: a null pointer for a null reference; an object
    that is gone is an exception. *)
Definition load {A} (find : Z -> option A) (id : Z) : outcome (option A) :=
  if id =? 0 then Ret None
  else match find id with Some a => Ret (Some a) | None => Throw ObjectNotPersistent end.

End DBService.

(** * SecurityContext *)

Module SecurityContext.

Inductive Action :=
  | IS_ADMIN | IS_MANAGER
  | USER_CREATE | USER_READ | USER_READ_EMAIL | USER_UPDATE | USER_CHANGE_PASSWORD
  | USER_SEARCH | USER_UPDATE_RANK | USER_MANAGE_VALIDITY | USER_DELETE
  | GROUP_CREATE | GROUP_READ | GROUP_UPDATE | GROUP_DELETE | GROUP_SEARCH
  | GROUP_LIST_MEMBERSHIP | GROUP_MEMBERSHIP_JOINED | GROUP_MEMBERSHIP_LEFT | MEMBERSHIP_READ
  | CREDENTIAL_READ | CREDENTIAL_UPDATE | CREDENTIAL_CREATE | CREDENTIAL_DELETE
  | SCHEDULE_READ | SCHEDULE_UPDATE | SCHEDULE_CREATE | SCHEDULE_DELETE | SCHEDULE_SEARCH
  | DOOR_READ | DOOR_UPDATE | DOOR_CREATE | DOOR_DELETE | DOOR_SEARCH
  | ACCESS_POINT_READ | ACCESS_POINT_CREATE | ACCESS_POINT_UPDATE | ACCESS_POINT_DELETE
  | ACCESS_POINT_SEARCH
  | ZONE_READ | ZONE_UPDATE | ZONE_CREATE | ZONE_DELETE | ZONE_SEARCH
  | SMTP_GETCONFIG | SMTP_SETCONFIG | SMTP_SENDMAIL
  | LOG_READ | AUDIT_READ | AUDIT_READ_FULL | ACCESS_OVERVIEW | RESTART_SERVER
  | HARDWARE_READ | HARDWARE_UPDATE | HARDWARE_CREATE | HARDWARE_DELETE | HARDWARE_SEARCH.

#[global] Instance Action_eq_dec : EqDecision Action.
Proof. solve_decision. Defined.

Record MembershipActionParam := mk_membership {
  membership_id : Z; group_id : Z; user_id : Z; rank : GroupRank }.

(** The union: one constructor per member; [ActionParam{}] sets the first. *)
Inductive ActionParam :=
  | group (group_id : Z)
  | membership (m : MembershipActionParam)
  | user (user_id : Z)
  | cred (credential_id : Z)
  | sched (schedule_id : Z)
  | door (door_id : Z)
  | access_point (ap_id : Z)
  | zone (zone_id : Z)
  | device (device_id : Z).

Definition no_param : ActionParam := group 0.

(** Reading a member that is not the one last written is undefined, except what
    the structures begin with in common: all but that of a device, whose id is a
    UUID, begin with an [unsigned long]. *)
Definition first_id (ap : ActionParam) : outcome Z :=
  match ap with
  | group i | user i | cred i | sched i | door i | access_point i | zone i => Ret i
  | membership m => Ret (membership_id m)
  | device _ => Fault InactiveMember
  end.
Definition as_group : ActionParam -> outcome Z := first_id.
Definition as_user : ActionParam -> outcome Z := first_id.
Definition as_cred : ActionParam -> outcome Z := first_id.
Definition as_sched : ActionParam -> outcome Z := first_id.
Definition as_door : ActionParam -> outcome Z := first_id.
(** The actions on memberships read more of the structure. *)
Definition as_membership (ap : ActionParam) : outcome MembershipActionParam :=
  match ap with membership m => Ret m | _ => Fault InactiveMember end.

(** What a context promises its clients: [check_permission]. *)
Class t (C : Type) := { check_permission_impl : C -> Action -> ActionParam -> outcome bool }.

Section contexts.
Context {C : Type} {ctx : t C}.

Definition check_permission (c : C) (a : Action) (ap : ActionParam) : outcome bool :=
  check_permission_impl c a ap.

Definition enforce_permission (c : C) (a : Action) (ap : ActionParam) : outcome unit :=
  b ← check_permission c a ap;
  if (b : bool) then Ret tt else Throw PermissionDenied.
End contexts.

End SecurityContext.

(** [SystemSecurityContext]: always granted. *)
Inductive SystemSecurityContext := System.
#[export] Instance system_context : SecurityContext.t SystemSecurityContext :=
  {| SecurityContext.check_permission_impl := fun _ _ _ => Ret true |}.

(** * UserSecurityContext *)

Module UserSecurityContext.
Import SecurityContext.
Import DBService.

Record t := mk { dbsrv_ : Database; user_id_ : Z }.

Definition is_admin (c : t) : bool :=
  match find_user (dbsrv_ c) (user_id_ c) with
  | Some u => user_rank_val (User.rank_ u) =? user_rank_val ADMIN
  | None => false
  end.

Definition is_manager (c : t) : bool :=
  match find_user (dbsrv_ c) (user_id_ c) with
  | Some u => user_rank_val MANAGER <=? user_rank_val (User.rank_ u)
  | None => false
  end.

Definition is_self (c : t) (id : Z) : bool := user_id_ c =? id.

Definition self (c : t) : outcome User.t := find_user_by_id (dbsrv_ c) (user_id_ c).

Definition can_read_group (c : t) (gid : Z) : outcome bool :=
  if is_manager c || (gid =? 0) then Ret true
  else
    g ← find_group_by_id (dbsrv_ c) gid;
    Ret (bool_decide (is_Some (Group.member_has (user_id_ c) g))).

Definition can_administrate_group (c : t) (gid : Z) : outcome bool :=
  if is_manager c then Ret true
  else
    g ← find_group_by_id (dbsrv_ c) gid;
    Ret (match Group.member_has (user_id_ c) g with
         | Some rank => group_rank_val rank =? group_rank_val GADMIN
         | None => false
         end).

Definition can_read_user_detail (c : t) (uid : Z) : bool := is_self c uid || is_manager c.
Definition can_update_user (c : t) (uid : Z) : bool := is_self c uid || is_manager c.

Definition can_create_membership (c : t) (map : MembershipActionParam) : outcome bool :=
  if is_manager c then Ret true
  else
    g ← find_group_by_id (dbsrv_ c) (group_id map);
    Ret (match Group.member_has (user_id_ c) g with
         | Some rank =>
             (group_rank_val GOPERATOR <=? group_rank_val rank) &&
             (group_rank_val (SecurityContext.rank map) <=? group_rank_val rank)
         | None => false
         end).

Definition can_delete_membership (c : t) (map : MembershipActionParam) : outcome bool :=
  if is_manager c then Ret true
  else
    m ← find_membership_by_id (dbsrv_ c) (membership_id map);
    g ← load (find_group (dbsrv_ c)) (UserGroupMembership.group_id m);
    target ← load (find_user (dbsrv_ c)) (UserGroupMembership.user_id m);
    target ← deref target;
    if User.id_ target =? user_id_ c then Ret true
    else Ret (match g ≫= Group.member_has (user_id_ c) with
              | Some my_rank =>
                  (group_rank_val GOPERATOR <=? group_rank_val my_rank) &&
                  (group_rank_val (UserGroupMembership.rank_ m) <=? group_rank_val my_rank)
              | None => false
              end).

(** The loop over the mappings of a schedule or of a door; [self()] is
    called, and may throw, for each of them. *)
Fixpoint any_mapping (c : t) (l : list ScheduleMapping.t) : outcome bool :=
  match l with
  | [] => Ret false
  | m :: l =>
      u ← self c;
      if ScheduleMapping.has_user_indirect (User.id_ u)
           (group_memberships (dbsrv_ c) (user_id_ c)) (lazy_credentials (dbsrv_ c) (user_id_ c)) m
      then Ret true else any_mapping c l
  end.

Definition can_read_schedule (c : t) (sid : Z) : outcome bool :=
  if is_manager c || (sid =? 0) then Ret true
  else mappings ← find_schedule_by_id (dbsrv_ c) sid; any_mapping c mappings.

Definition can_read_door (c : t) (did : Z) : outcome bool :=
  if is_manager c || (did =? 0) then Ret true
  else mappings ← find_door_by_id (dbsrv_ c) did; any_mapping c mappings.

Definition can_read_credential (c : t) (cid : Z) : outcome bool :=
  if is_manager c || (cid =? 0) then Ret true
  else
    cr ← find_credential_by_id (dbsrv_ c) cid;
    Ret (is_self c (Credential.owner_id cr)).

Section dispatch.
(** [check_permission] is virtual: what [can_read_membership] calls. *)
Context (check : t -> Action -> ActionParam -> outcome bool).

Definition can_read_membership (c : t) (map : MembershipActionParam) : outcome bool :=
  ugm ← find_membership_by_id (dbsrv_ c) (membership_id map);
  if UserGroupMembership.user_id ugm =? user_id_ c then Ret true
  else check c GROUP_LIST_MEMBERSHIP (group (UserGroupMembership.group_id ugm)).

Definition check_step (c : t) (action : Action) (ap : ActionParam) : outcome bool :=
  if is_admin c then Ret true
  else match action with
  | IS_ADMIN => Ret (is_admin c)
  | IS_MANAGER => Ret (is_manager c)
  | USER_CREATE => Ret (is_manager c)
  | USER_DELETE => Ret (is_admin c)
  | USER_READ => _ ← as_user ap; Ret true
  | USER_READ_EMAIL => u ← as_user ap; Ret (can_read_user_detail c u)
  | USER_UPDATE => u ← as_user ap; Ret (can_update_user c u)
  | USER_UPDATE_RANK | USER_MANAGE_VALIDITY => Ret (is_manager c)
  | USER_CHANGE_PASSWORD =>
      if is_manager c then Ret true else u ← as_user ap; Ret (is_self c u)
  | GROUP_SEARCH | GROUP_CREATE => Ret true
  | GROUP_READ => g ← as_group ap; can_read_group c g
  | GROUP_LIST_MEMBERSHIP | GROUP_DELETE | GROUP_UPDATE =>
      g ← as_group ap; can_administrate_group c g
  | MEMBERSHIP_READ => m ← as_membership ap; can_read_membership c m
  | GROUP_MEMBERSHIP_JOINED => m ← as_membership ap; can_create_membership c m
  | GROUP_MEMBERSHIP_LEFT => m ← as_membership ap; can_delete_membership c m
  | CREDENTIAL_READ => i ← as_cred ap; can_read_credential c i
  | CREDENTIAL_CREATE | CREDENTIAL_UPDATE | CREDENTIAL_DELETE => Ret (is_manager c)
  | SCHEDULE_READ => i ← as_sched ap; can_read_schedule c i
  | SCHEDULE_CREATE | SCHEDULE_UPDATE | SCHEDULE_DELETE => Ret (is_manager c)
  | SCHEDULE_SEARCH => Ret true
  | DOOR_READ => i ← as_door ap; can_read_door c i
  | DOOR_CREATE | DOOR_UPDATE | DOOR_DELETE => Ret (is_manager c)
  | DOOR_SEARCH => Ret true
  | ACCESS_POINT_READ | ACCESS_POINT_CREATE | ACCESS_POINT_UPDATE | ACCESS_POINT_DELETE
  | ACCESS_POINT_SEARCH => Ret (is_manager c)
  | ZONE_READ | ZONE_CREATE | ZONE_UPDATE | ZONE_DELETE | ZONE_SEARCH => Ret (is_manager c)
  | SMTP_GETCONFIG | SMTP_SETCONFIG | SMTP_SENDMAIL => Ret (is_admin c)
  | LOG_READ | AUDIT_READ => Ret (is_manager c)
  | AUDIT_READ_FULL => Ret (is_admin c)
  | ACCESS_OVERVIEW => Ret (is_manager c)
  | RESTART_SERVER => Ret (is_admin c)
  | USER_SEARCH | HARDWARE_READ | HARDWARE_UPDATE | HARDWARE_CREATE | HARDWARE_DELETE
  | HARDWARE_SEARCH => Fault AssertFailed
  end.
End dispatch.

(** The recursion through the virtual call, [n] deep. *)
Fixpoint check_fuel (n : nat) (c : t) (a : Action) (ap : ActionParam) : outcome bool :=
  match n with
  | O => Fault OutOfFuel
  | S n => check_step (check_fuel n) c a ap
  end.

Definition check_permission_impl (c : t) (a : Action) (ap : ActionParam) : outcome bool :=
  check_fuel 2 c a ap.

End UserSecurityContext.

#[export] Instance user_context : SecurityContext.t UserSecurityContext.t :=
  {| SecurityContext.check_permission_impl := UserSecurityContext.check_permission_impl |}.

(** [NullSecurityContext]: no user is logged in. *)
Inductive NullSecurityContext := NoUser.
#[export] Instance null_context : SecurityContext.t NullSecurityContext :=
  {| SecurityContext.check_permission_impl := fun _ _ _ => Ret false |}.

(** * Specifications *)

(** The database in which one user has another rank. *)
Definition with_rank (uid : Z) (r : UserRank) (db : Database) : Database :=
  {| find_user := fun i => if i =? uid then User.set_rank r <$> find_user db i else find_user db i;
     find_group := find_group db;
     find_membership := find_membership db;
     find_credential := find_credential db;
     find_schedule := find_schedule db;
     find_door := find_door db;
     group_memberships := group_memberships db;
     lazy_credentials := lazy_credentials db |}.

Definition as_user_of (uid : Z) (db : Database) : UserSecurityContext.t :=
  UserSecurityContext.mk db uid.

(** The actions [check_permission_impl] has no case for. *)
Definition unhandled : list SecurityContext.Action :=
  [SecurityContext.USER_SEARCH; SecurityContext.HARDWARE_READ; SecurityContext.HARDWARE_UPDATE;
   SecurityContext.HARDWARE_CREATE; SecurityContext.HARDWARE_DELETE;
   SecurityContext.HARDWARE_SEARCH].

(** What a user may do to the memberships of a group: nothing without a rank
    of operator there, and nothing above that rank. *)
Definition outranks (db : Database) (gid uid : Z) (target : Z) : Prop :=
  exists g my_rank, find_group db gid = Some g /\ Group.member_has uid g = Some my_rank /\
    group_rank_val GOPERATOR <= group_rank_val my_rank /\ target <= group_rank_val my_rank.

(** ** Lemmas *)

Module Facts.
Import SecurityContext UserSecurityContext DBService.

(** The virtual call of [can_read_membership] does not come back to it. *)
Lemma check_fuel_enough n c a ap : check_fuel (2 + n) c a ap = check_fuel 2 c a ap.
Proof.
  cbn [check_fuel Nat.add]. unfold check_step at 1 3. destruct (is_admin c) eqn:Ea; [done|].
  by destruct a.
Qed.

Lemma check_unfold c a ap : check_permission_impl c a ap = check_step check_permission_impl c a ap.
Proof. apply (check_fuel_enough 1). Qed.

Lemma admin_manager c : is_admin c = true -> is_manager c = true.
Proof.
  unfold is_admin, is_manager. destruct (find_user _ _); [|done]. cbn. intros H%Z.eqb_eq.
  rewrite H. done.
Qed.

(** A context whose user is ranked higher, all else being equal. *)
Record above (c c' : t) : Prop := {
  above_id : user_id_ c' = user_id_ c;
  above_admin : is_admin c = true -> is_admin c' = true;
  above_manager : is_manager c = true -> is_manager c' = true;
  above_user i : User.id_ <$> find_user (dbsrv_ c') i = User.id_ <$> find_user (dbsrv_ c) i;
  above_group : find_group (dbsrv_ c') = find_group (dbsrv_ c);
  above_membership : find_membership (dbsrv_ c') = find_membership (dbsrv_ c);
  above_credential : find_credential (dbsrv_ c') = find_credential (dbsrv_ c);
  above_schedule : find_schedule (dbsrv_ c') = find_schedule (dbsrv_ c);
  above_door : find_door (dbsrv_ c') = find_door (dbsrv_ c);
  above_groups : group_memberships (dbsrv_ c') = group_memberships (dbsrv_ c);
  above_creds : lazy_credentials (dbsrv_ c') = lazy_credentials (dbsrv_ c);
}.

Lemma with_rank_above db uid r u :
  find_user db uid = Some u ->
  user_rank_val (User.rank_ u) <= user_rank_val r <= user_rank_val ADMIN ->
  above (as_user_of uid db) (as_user_of uid (with_rank uid r db)).
Proof.
  intros Hu Hr. split; cbn; try done; unfold is_admin, is_manager; cbn;
    rewrite ?Z.eqb_refl, ?Hu; cbn in *.
  - intros H. bool_hyps. lia.
  - intros H. bool_hyps. apply Z.leb_le. lia.
  - intros i. destruct (Z.eqb_spec i uid) as [->|]; [|done]. by destruct (find_user db uid).
Qed.

Section monotonic.
Context (c c' : t) (Habove : above c c').

Lemma self_above : User.id_ <$> self c' = User.id_ <$> self c.
Proof.
  pose proof (above_user _ _ Habove (user_id_ c)) as H.
  unfold self, find_user_by_id, or_throw. rewrite (above_id _ _ Habove).
  by destruct (find_user (dbsrv_ c') _), (find_user (dbsrv_ c) _); cbn in *; simplify_eq; congruence.
Qed.

Lemma any_mapping_above l : any_mapping c' l = any_mapping c l.
Proof.
  pose proof self_above as Hs. induction l as [|m l IH]; cbn; [done|].
  destruct (self c), (self c'); cbn in *; try congruence. simplify_eq.
  by rewrite (above_id _ _ Habove), (above_groups _ _ Habove), (above_creds _ _ Habove), IH, Hs.
Qed.

Ltac by_manager :=
  destruct (is_manager c) eqn:Em;
  [rewrite (above_manager _ _ Habove Em); cbn; done|destruct (is_manager c'); [done|]].

Lemma load_user_above i :
  option_map User.id_ <$> load (find_user (dbsrv_ c')) i =
  option_map User.id_ <$> load (find_user (dbsrv_ c)) i.
Proof.
  unfold load. destruct (i =? 0); [done|]. pose proof (above_user _ _ Habove i).
  by destruct (find_user (dbsrv_ c') i), (find_user (dbsrv_ c) i); cbn in *; simplify_eq; try congruence.
Qed.

Lemma can_delete_above map :
  can_delete_membership c map = Ret true -> can_delete_membership c' map = Ret true.
Proof.
  unfold can_delete_membership. by_manager.
  rewrite (above_id _ _ Habove), (above_group _ _ Habove).
  unfold find_membership_by_id. rewrite (above_membership _ _ Habove).
  destruct (or_throw _) as [m| |]; cbn; [|done..].
  destruct (load (find_group _) _) as [g| |]; cbn; [|done..].
  pose proof (load_user_above (UserGroupMembership.user_id m)) as Hl.
  destruct (load (find_user (dbsrv_ c)) _) as [[u|]| |], (load (find_user (dbsrv_ c')) _) as [[u'|]| |];
    cbn in *; try congruence.
  by assert (User.id_ u = User.id_ u') as -> by congruence.
Qed.

Ltac same_db :=
  unfold is_self, find_group_by_id, find_schedule_by_id, find_door_by_id, find_credential_by_id,
    find_membership_by_id;
  rewrite ?(above_id _ _ Habove), ?(above_group _ _ Habove), ?(above_schedule _ _ Habove),
    ?(above_door _ _ Habove), ?(above_credential _ _ Habove), ?(above_membership _ _ Habove).

Lemma can_read_group_above g : can_read_group c g = Ret true -> can_read_group c' g = Ret true.
Proof. unfold can_read_group. by_manager. by same_db. Qed.

Lemma can_administrate_above g :
  can_administrate_group c g = Ret true -> can_administrate_group c' g = Ret true.
Proof. unfold can_administrate_group. by_manager. by same_db. Qed.

Lemma can_create_above m :
  can_create_membership c m = Ret true -> can_create_membership c' m = Ret true.
Proof. unfold can_create_membership. by_manager. by same_db. Qed.

Lemma can_read_credential_above i :
  can_read_credential c i = Ret true -> can_read_credential c' i = Ret true.
Proof. unfold can_read_credential. by_manager. by same_db. Qed.

Lemma can_read_schedule_above i :
  can_read_schedule c i = Ret true -> can_read_schedule c' i = Ret true.
Proof.
  unfold can_read_schedule. by_manager. same_db.
  destruct (i =? 0); cbn; [done|]. destruct (or_throw _); cbn; [|done..]. by rewrite any_mapping_above.
Qed.

Lemma can_read_door_above i : can_read_door c i = Ret true -> can_read_door c' i = Ret true.
Proof.
  unfold can_read_door. by_manager. same_db.
  destruct (i =? 0); cbn; [done|]. destruct (or_throw _); cbn; [|done..]. by rewrite any_mapping_above.
Qed.

Lemma self_or_manager_above i :
  is_self c i || is_manager c = true -> is_self c' i || is_manager c' = true.
Proof.
  unfold is_self. rewrite (above_id _ _ Habove), !orb_true_iff.
  intros [H|H]; [by left|right; by apply (above_manager _ _ Habove)].
Qed.

Hint Resolve can_read_group_above can_administrate_above can_create_above can_delete_above
  can_read_credential_above can_read_schedule_above can_read_door_above : above.

(** Every case keeps a granted permission granted. *)
Lemma check_above n a ap : check_fuel n c a ap = Ret true -> check_fuel n c' a ap = Ret true.
Proof.
  revert a ap. induction n as [|n IH]; intros a ap; [done|]. cbn [check_fuel]. unfold check_step.
  destruct (is_admin c) eqn:Ea; [by rewrite (above_admin _ _ Habove Ea)|].
  destruct (is_admin c'); [done|].
  destruct a; try done; try (intros [= Hm]; by rewrite (above_manager _ _ Habove Hm));
    destruct ap; cbn [as_group as_membership as_user as_cred as_sched as_door first_id mbind outcome_bind];
    try done; try by_manager; eauto with above;
    try (intros [= H]; f_equal; by apply self_or_manager_above); try by same_db.
  - unfold can_read_membership. same_db. destruct (or_throw _); cbn; [|done..].
    destruct (_ =? _); [done|]. apply IH.
Qed.
End monotonic.

(** Non-administrators reach the cases of the switch. *)
Lemma check_case c a ap :
  is_admin c = false -> check_permission_impl c a ap = check_step check_permission_impl c a ap.
Proof. intros _. apply check_unfold. Qed.

(** Outcomes that are no failed assertion. *)
Definition no_abort {A} (m : outcome A) : Prop := m <> Fault AssertFailed.

Lemma no_abort_bind {A B} (m : outcome A) (k : A -> outcome B) :
  no_abort m -> (forall a, no_abort (k a)) -> no_abort (m ≫= k).
Proof. unfold no_abort. intros Hm Hk. destruct m; cbn; [apply Hk|done|congruence]. Qed.

Lemma no_abort_ret {A} (a : A) : no_abort (Ret a).
Proof. done. Qed.
Lemma no_abort_or_throw {A} (o : option A) : no_abort (or_throw o).
Proof. by destruct o. Qed.
Lemma no_abort_load {A} (f : Z -> option A) i : no_abort (load f i).
Proof. unfold load. destruct (i =? 0); [done|]. by destruct (f i). Qed.
Lemma dbload_some {A} (f : Z -> option A) i a : load f i = Ret (Some a) -> f i = Some a.
Proof. unfold load. destruct (i =? 0); [done|]. by destruct (f i); intros [= ->]. Qed.
Lemma no_abort_deref {A} (o : option A) : no_abort (deref o).
Proof. by destruct o. Qed.
Lemma no_abort_if {A} (b : bool) (m n : outcome A) : no_abort m -> no_abort n -> no_abort (if b then m else n).
Proof. by destruct b. Qed.

Hint Resolve no_abort_bind no_abort_ret no_abort_or_throw no_abort_load no_abort_deref no_abort_if : no_abort.

Lemma no_abort_any_mapping c l : no_abort (any_mapping c l).
Proof.
  induction l as [|m l IH]; cbn; [done|]. apply no_abort_bind; [apply no_abort_or_throw|].
  intros; by apply no_abort_if.
Qed.
Hint Resolve no_abort_any_mapping : no_abort.

Ltac no_abort :=
  unfold can_read_group, can_administrate_group, can_create_membership, can_delete_membership,
    can_read_credential, can_read_schedule, can_read_door, can_read_membership,
    find_group_by_id, find_membership_by_id, find_credential_by_id, find_schedule_by_id,
    find_door_by_id;
  repeat first [solve [auto with no_abort] | apply no_abort_if | apply no_abort_bind | match goal with |- forall _, _ => intro end];
  auto with no_abort.

Lemma no_abort_list_membership c g :
  is_admin c = false -> no_abort (check_permission_impl c GROUP_LIST_MEMBERSHIP (group g)).
Proof. intros Ha. rewrite check_unfold. unfold check_step. rewrite Ha. cbn. no_abort. Qed.
Hint Resolve no_abort_list_membership : no_abort.

Lemma check_aborts c a ap :
  is_admin c = false -> (check_permission_impl c a ap = Fault AssertFailed <-> a ∈ unhandled).
Proof.
  intros Ha. rewrite check_unfold. split.
  - intros H. destruct (decide (a ∈ unhandled)) as [|Hn]; [done|]. exfalso. revert H.
    change (no_abort (check_step check_permission_impl c a ap)).
    unfold check_step. rewrite Ha.
    destruct a; try done; try (exfalso; apply Hn; apply (bool_decide_unpack _); by vm_compute);
      destruct ap; cbn [as_group as_membership as_user as_cred as_sched as_door first_id mbind outcome_bind];
      try done; try (by destruct (is_manager c)); no_abort.
  - intros H. unfold check_step. rewrite Ha. unfold unhandled in H.
    rewrite !elem_of_cons in H. by destruct_or! H; subst; [..|apply not_elem_of_nil in H].
Qed.

End Facts.

(** ** Properties *)

(** permissions grow with the rank: what a user may do, the same user with
    a higher rank, up to administrator, may do too, for every action and
    parameter, the database being otherwise the same. *)
Theorem permissions_monotone db uid u r a ap :
  find_user db uid = Some u ->
  user_rank_val (User.rank_ u) <= user_rank_val r <= user_rank_val ADMIN ->
  SecurityContext.check_permission (as_user_of uid db) a ap = Ret true ->
  SecurityContext.check_permission (as_user_of uid (with_rank uid r db)) a ap = Ret true.
Proof. intros Hu Hr. by apply Facts.check_above, (Facts.with_rank_above _ _ _ u). Qed.

(** what the checks on memberships grant a user below manager: to add the one that is
    checked, only as an operator of its group and with a rank not above their own; to remove one,
    only when it is their own or under the same condition. *)
Theorem no_group_escalation db uid m :
  UserSecurityContext.is_manager (as_user_of uid db) = false ->
  (SecurityContext.check_permission (as_user_of uid db) SecurityContext.GROUP_MEMBERSHIP_JOINED
     (SecurityContext.membership m) = Ret true ->
   outranks db (SecurityContext.group_id m) uid (group_rank_val (SecurityContext.rank m))) /\
  (SecurityContext.check_permission (as_user_of uid db) SecurityContext.GROUP_MEMBERSHIP_LEFT
     (SecurityContext.membership m) = Ret true ->
   exists ms, find_membership db (SecurityContext.membership_id m) = Some ms /\
     ((exists u, find_user db (UserGroupMembership.user_id ms) = Some u /\ User.id_ u = uid) \/
      outranks db (UserGroupMembership.group_id ms) uid (group_rank_val (UserGroupMembership.rank_ ms)))).
Proof.
  intros Hm. assert (Ha : UserSecurityContext.is_admin (as_user_of uid db) = false).
  { destruct (UserSecurityContext.is_admin _) eqn:E; [|done].
    apply Facts.admin_manager in E. congruence. }
  unfold SecurityContext.check_permission. cbn [SecurityContext.check_permission_impl user_context].
  split; rewrite Facts.check_unfold; unfold UserSecurityContext.check_step; rewrite Ha;
    cbn [SecurityContext.as_membership mbind outcome_bind].
  - unfold UserSecurityContext.can_create_membership. rewrite Hm.
    unfold DBService.find_group_by_id. cbn [as_user_of UserSecurityContext.dbsrv_ UserSecurityContext.user_id_]. destruct (find_group db _) as [g|] eqn:Eg; cbn; [|done].
    destruct (Group.member_has uid g) as [r|] eqn:Er; [|done].
    intros [= [H1 H2]%andb_true_iff]. apply Z.leb_le in H1, H2. by exists g, r.
  - unfold UserSecurityContext.can_delete_membership. rewrite Hm. cbn.
    unfold DBService.find_membership_by_id. destruct (find_membership db _) as [ms|]; cbn; [|done].
    intros H. exists ms. split; [done|]. revert H.
    destruct (DBService.load (find_group db) _) as [g| |] eqn:Eg; cbn; [|done..].
    destruct (DBService.load (find_user db) _) as [[u|]| |] eqn:Eu; cbn; [|done..].
    apply Facts.dbload_some in Eu. destruct (Z.eqb_spec (User.id_ u) uid); [by left; exists u|].
    destruct g as [g|]; cbn; [|done]. apply Facts.dbload_some in Eg.
    destruct (Group.member_has uid g) as [r|] eqn:Er; [|done].
    intros [= [H1 H2]%andb_true_iff]. apply Z.leb_le in H1, H2. right. by exists g, r.
Qed.

(** the permission check of a user who is not an administrator aborts the
    program exactly on the actions the switch has no case for: searching
    users, and every action on hardware devices. *)
Theorem unhandled_actions_abort db uid a ap :
  UserSecurityContext.is_admin (as_user_of uid db) = false ->
  SecurityContext.check_permission (as_user_of uid db) a ap = Fault AssertFailed <-> a ∈ unhandled.
Proof. apply Facts.check_aborts. Qed.

(** ** Witnesses *)

Definition demo_db : Database :=
  {| find_user := fun i => if (i =? 3) || (i =? 9) then Some (User.make i) else None;
     find_group := fun i => if i =? 7 then Some demo_group else None;
     find_membership := fun i =>
       if i =? 1 then Some (UserGroupMembership.mk 1 3 7 GMEMBER)
       else if i =? 2 then Some (UserGroupMembership.mk 2 9 7 GADMIN) else None;
     find_credential := fun _ => None;
     find_schedule := fun _ => None;
     find_door := fun _ => None;
     group_memberships := fun _ => [7];
     lazy_credentials := fun _ => [] |}.

Lemma permissions_monotone_witness :
  SecurityContext.check_permission (as_user_of 9 (with_rank 9 MANAGER demo_db))
    SecurityContext.GROUP_UPDATE (SecurityContext.group 7) = Ret true.
Proof.
  apply (permissions_monotone demo_db 9 (User.make 9) MANAGER); [reflexivity|cbn; lia|reflexivity].
Defined.

Lemma no_group_escalation_witness : outranks demo_db 7 9 (group_rank_val GADMIN).
Proof.
  apply (no_group_escalation demo_db 9 (SecurityContext.mk_membership 0 7 3 GADMIN)); reflexivity.
Defined.

Lemma unhandled_actions_witness :
  SecurityContext.check_permission (as_user_of 3 demo_db) SecurityContext.HARDWARE_READ
    SecurityContext.no_param = Fault AssertFailed.
Proof.
  apply (unhandled_actions_abort demo_db 3 SecurityContext.HARDWARE_READ SecurityContext.no_param);
    [reflexivity|].
  unfold unhandled. apply list_elem_of_further, list_elem_of_here.
Defined.
