(* ===== verification/Session.v ===== *)
(** Sessions of the WebSocket API: [src/core/auth/Token.cpp],
    [src/modules/websock-api/api/APIAuth.cpp], [api/APISession.cpp], and the
    connections of [WSServer.cpp].

    The server is a state: the database and one [APISession] per connection.
    Operations thread it and keep what they changed when they throw, except
    that a transaction which is left by an exception restores the database. *)
From Stdlib Require Import ZArith Lia Ascii String.
From stdpp Require Import base tactics numbers list strings.
From S2P Require Import Prelude Json Users Credentials Schedules Security AuditLog.

Open Scope Z_scope.

(** * Tokens *)

Module Token.

Record t := mk { token_ : string; owner_ : Z; expiration_ : Z }.

(** Times are seconds of the local clock. *)
Definition expire_in (now seconds : Z) (k : t) : t := mk (token_ k) (owner_ k) (now + seconds).
Definition make (now : Z) (token : string) (owner : Z) : t :=
  expire_in now 0 (mk token owner 0).
Definition is_valid (now : Z) (k : t) : bool := now <=? expiration_ k.

End Token.

(** * The database, with the operations the API changes it by *)

Class Odb (D : Type) := {
  view : D -> Database;
  query_username : D -> string -> option User.t;
  query_token : D -> string -> option Token.t;
  (** [reload] of a token and [update]: exceptions when it is gone. *)
  reload_token : D -> Token.t -> outcome Token.t;
  update_token : Token.t -> D -> outcome D;
  persist_token : Token.t -> D -> outcome D;
  erase_token : string -> D -> outcome D;
  update_user : User.t -> D -> outcome D;
  (** Updating a group persists its new memberships, which get their ids. *)
  update_group : Group.t -> D -> outcome (Group.t * D);
  erase_membership : Z -> D -> outcome D;
  persist_audit : list EventType -> D -> outcome D;
}.

(** What the mapper documents about them. *)
Class OdbLaws (D : Type) `{Odb D} := {
  query_erase_token k d d' i :
    erase_token k d = Ret d' ->
    query_token d' i = if String.eqb i k then None else query_token d i;
  erase_token_missing k d : query_token d k = None -> erase_token k d = Throw ObjectNotPersistent;
  erase_token_present k d t : query_token d k = Some t -> exists d', erase_token k d = Ret d';
  reload_missing d k :
    query_token d (Token.token_ k) = None -> exists e, reload_token d k = Throw e;
  reload_present d k k' : query_token d (Token.token_ k) = Some k' -> reload_token d k = Ret k';
  reload_name d k k' : reload_token d k = Ret k' -> Token.token_ k' = Token.token_ k;
  query_token_name d i k : query_token d i = Some k -> Token.token_ k = i;
  update_token_view k d d' i : update_token k d = Ret d' -> find_user (view d') i = find_user (view d) i;
  find_user_id d i u : find_user (view d) i = Some u -> User.id_ u = i;
  update_token_result k d : (exists d', update_token k d = Ret d') \/ (exists e, update_token k d = Throw e);
  update_user_find u d d' i :
    update_user u d = Ret d' ->
    find_user (view d') i = if i =? User.id_ u then Some u else find_user (view d) i;
  update_user_present u v d :
    find_user (view d) (User.id_ u) = Some v -> exists d', update_user u d = Ret d';
  update_user_tokens u d d' i : update_user u d = Ret d' -> query_token d' i = query_token d i;
  erase_token_users k d d' i : erase_token k d = Ret d' -> find_user (view d') i = find_user (view d) i;
  persist_audit_total (e : list EventType) d : exists d', persist_audit e d = Ret d';
  persist_audit_users e d d' i :
    persist_audit e d = Ret d' -> find_user (view d') i = find_user (view d) i;
  persist_audit_groups e d d' i :
    persist_audit e d = Ret d' -> find_group (view d') i = find_group (view d) i;
  persist_audit_tokens e d d' i : persist_audit e d = Ret d' -> query_token d' i = query_token d i;
  update_group_find g d g' d' :
    update_group g d = Ret (g', d') ->
    find_group (view d') (Group.id_ g) = Some g' /\
    (forall uid, Group.member_has uid g' = Group.member_has uid g);
  update_group_present g h d :
    find_group (view d) (Group.id_ g) = Some h -> exists g' d', update_group g d = Ret (g', d');
}.

(** * The server *)

Inductive AuthStatus := NONE | LOGGED_IN.

#[export] Instance AuthStatus_eq_dec : EqDecision AuthStatus.
Proof. solve_decision. Defined.

(** [security_]: the user of the [UserSecurityContext] a session holds. *)
Record APISession := mk_session {
  auth_status_ : AuthStatus;
  current_auth_token_ : option Token.t;
  security_ : option Z;
}.

Record server (D : Type) := mk_server { db : D; sessions : list (Z * APISession) }.
Arguments mk_server {D} db sessions.
Arguments db {D} s.
Arguments sessions {D} s.

Definition api (D A : Type) : Type := server D -> server D * outcome A.

#[export] Instance api_ret {D} : MRet (api D) := fun A a s => (s, Ret a).
#[export] Instance api_bind {D} : MBind (api D) := fun A B k m s =>
  match m s with
  | (s', Ret a) => k a s'
  | (s', Throw e) => (s', Throw e)
  | (s', Fault f) => (s', Fault f)
  end.

Section api.
Context {D : Type}.

Definition lift {A} (m : outcome A) : api D A := fun s => (s, m).
Definition throw {A} (e : exn) : api D A := lift (Throw e).
Definition get_db : api D D := fun s => (s, Ret (db s)).
Definition set_db (d : D) : api D unit := fun s => (mk_server d (sessions s), Ret tt).
Definition change_db (f : D -> outcome D) : api D unit :=
  fun s => match f (db s) with
           | Ret d => (mk_server d (sessions s), Ret tt)
           | Throw e => (s, Throw e)
           | Fault f => (s, Fault f)
           end.

(** [odb::transaction t(db->begin()); ...; t.commit();]. *)
Definition transaction {A} (m : api D A) : api D A := fun s =>
  match m s with
  | (s', Ret a) => (s', Ret a)
  | (s', r) => (mk_server (db s) (sessions s'), r)
  end.

(** [connection_session_]: the session of a connection. *)
Fixpoint session_of (hdl : Z) (l : list (Z * APISession)) : option APISession :=
  match l with
  | [] => None
  | (h, x) :: l => if h =? hdl then Some x else session_of hdl l
  end.
Fixpoint put_session_in (hdl : Z) (x : APISession) (l : list (Z * APISession)) :
    list (Z * APISession) :=
  match l with
  | [] => []
  | (h, y) :: l => if h =? hdl then (h, x) :: l else (h, y) :: put_session_in hdl x l
  end.

Definition session (hdl : Z) : api D APISession := fun s =>
  (s, match session_of hdl (sessions s) with Some x => Ret x | None => Fault AssertFailed end).
Definition put_session (hdl : Z) (x : APISession) : api D unit := fun s =>
  (mk_server (db s) (put_session_in hdl x (sessions s)), Ret tt).

End api.

(** The clocks a request may read: [system_clock], the check of a token, and
    the start of a new period. *)
Record clock := mk_clock { system_now : Z; valid_now : Z; expire_now : Z }.

Definition token_period : Z := 20 * 60.

(** * APIAuth *)

Module APIAuth.
Section auth.
Context {D : Type} `{Odb D}.
Context (libscrypt_scrypt : list Z -> list Z -> ScryptParam -> option (list Z)).

Definition enforce_user_enabled (now : Z) (u : User.t) : outcome unit :=
  _ ← enforce (ValidityInfo.is_enabled (User.validity_ u))
        (LEOSACException "This user account is disabled.");
  enforce (ValidityInfo.is_in_range now (User.validity_ u))
    (LEOSACException "This user account is not currently active.").

Definition invalidate_token (k : Token.t) : api D unit :=
  transaction (change_db (erase_token (Token.token_ k))).

(** [token->owner()], which the mapper loads with the token. *)
Definition owner (k : Token.t) : api D User.t :=
  d ← get_db;
  lift (deref (find_user (view d) (Token.owner_ k))).

Definition authenticate_token (clk : clock) (token_str : string) : api D (option Token.t) :=
  transaction (
    d ← get_db;
    match query_token d token_str with
    | Some token =>
        if Token.is_valid (valid_now clk) token then
          u ← owner token;
          _ ← lift (enforce_user_enabled (system_now clk) u);
          let token := Token.expire_in (expire_now clk) token_period token in
          _ ← change_db (update_token token);
          mret (Some token)
        else mret None
    | None => mret None
    end).

(** [uuid] is what [gen_uuid()] gives. The mail sent when "admin" logs in is
    left out; the check [username()] makes on the way, after the commit, is not. *)
Definition authenticate_credentials (clk : clock) (uuid : string) (username password : string)
  : api D (option Token.t) :=
  r ← transaction (
    d ← get_db;
    match query_username d (text (map tolower (chars username))) with
    | Some user =>
        ok ← lift (User.verify_password libscrypt_scrypt password user);
        if (ok : bool) then
          _ ← lift (enforce_user_enabled (system_now clk) user);
          let token := Token.expire_in (expire_now clk) token_period
                         (Token.make (expire_now clk) uuid (User.id_ user)) in
          _ ← change_db (persist_token token);
          mret (Some (user, token))
        else mret None
    | None => mret None
    end);
  match r with
  | Some (user, token) => _ ← lift (User.username user); mret (Some token)
  | None => mret None
  end.

End auth.
End APIAuth.

(** * APISession *)

Module APISession.
Section session.
Context {D : Type} `{Odb D} {J : Type} `{Json J}.
Context (libscrypt_scrypt : list Z -> list Z -> ScryptParam -> option (list Z)).

Definition fresh : APISession := mk_session NONE None None.

Definition current_user_id (x : APISession) : Z :=
  match current_auth_token_ x with Some k => Token.owner_ k | None => 0 end.

Definition mark_authenticated (token : Token.t) (x : APISession) : APISession :=
  mk_session LOGGED_IN (Some token) (Some (Token.owner_ token)).
Definition clear_authentication (x : APISession) : APISession := mk_session NONE None None.
(** [abort_session] leaves [security_] as it is. *)
Definition abort_session (x : APISession) : APISession := mk_session NONE None (security_ x).

Definition allowed (cmd : string) (x : APISession) : bool :=
  if String.eqb cmd "get_leosac_version" then true
  else if String.eqb cmd "create_auth_token" || String.eqb cmd "authenticate_with_token"
  then negb (bool_decide (auth_status_ x = LOGGED_IN))
  else bool_decide (auth_status_ x = LOGGED_IN).

(** [security_context()]. *)
Definition check_permission (d : D) (x : APISession) (a : SecurityContext.Action)
    (ap : SecurityContext.ActionParam) : outcome bool :=
  match security_ x with
  | Some uid => SecurityContext.check_permission (as_user_of uid (view d)) a ap
  | None => SecurityContext.check_permission NoUser a ap
  end.

Definition failed_reply : J :=
  json_object [("status", json_number (-1)); ("message", json_string "Invalid credentials")].

Definition create_auth_token (hdl : Z) (clk : clock) (uuid : string) (req : J) : api D J :=
  x ← session hdl;
  _ ← lift (cassert (bool_decide (auth_status_ x = NONE)));
  username ← lift (j ← at_ req "username"; get_string j);
  password ← lift (j ← at_ req "password"; get_string j);
  token ← APIAuth.authenticate_credentials libscrypt_scrypt clk uuid username password;
  match token with
  | Some token =>
      _ ← put_session hdl (mark_authenticated token x);
      mret (json_object [("status", json_number 0);
                         ("user_id", json_number (Token.owner_ token));
                         ("token", json_string (Token.token_ token))])
  | None => mret failed_reply
  end.

Definition authenticate_with_token (hdl : Z) (clk : clock) (req : J) : api D J :=
  x ← session hdl;
  _ ← lift (cassert (bool_decide (auth_status_ x = NONE)));
  token_str ← lift (j ← at_ req "token"; get_string j);
  token ← APIAuth.authenticate_token clk token_str;
  match token with
  | Some token =>
      u ← APIAuth.owner token;
      name ← lift (User.username u);
      _ ← put_session hdl (mark_authenticated token x);
      mret (json_object [("status", json_number 0);
                         ("user_id", json_number (Token.owner_ token));
                         ("username", json_string name)])
  | None => mret failed_reply
  end.

Definition logout (hdl : Z) : api D J :=
  x ← session hdl;
  _ ← lift (cassert (bool_decide (auth_status_ x = LOGGED_IN)));
  _ ← lift (cassert (bool_decide (is_Some (current_auth_token_ x))));
  token ← lift (deref (current_auth_token_ x));
  _ ← APIAuth.invalidate_token token;
  _ ← put_session hdl (clear_authentication x);
  mret json_null.

(** Called before every request but those other modules handle. *)
Definition hook_before_request (hdl : Z) (clk : clock) : api D unit :=
  x ← session hdl;
  match auth_status_ x with
  | NONE => mret tt
  | LOGGED_IN =>
      transaction (
        token ← lift (deref (current_auth_token_ x));
        d ← get_db;
        match reload_token d token with
        | Throw ObjectChanged =>
            _ ← put_session hdl (abort_session x);
            throw SessionAborted
        | Throw e => throw e
        | Fault f => lift (Fault f)
        | Ret token =>
            _ ← put_session hdl (mk_session LOGGED_IN (Some token) (security_ x));
            if Token.is_valid (valid_now clk) token then
              let token := Token.expire_in (expire_now clk) token_period token in
              _ ← put_session hdl (mk_session LOGGED_IN (Some token) (security_ x));
              change_db (update_token token)
            else
              _ ← put_session hdl (abort_session x);
              throw SessionAborted
        end)
  end.

End session.
End APISession.
