(* ===== verification/Store.v ===== *)
(** A database in memory: an instance of [Session.Odb] that satisfies its laws,
    on which the examples about the API run. *)
From Stdlib Require Import ZArith Lia Ascii String.
From stdpp Require Import base tactics numbers list strings gmap.
From S2P Require Import Prelude Json AuditLog Users Credentials Schedules Security Session.

Open Scope Z_scope.

Record store := mk_store {
  users : gmap Z User.t;
  groups : gmap Z Group.t;
  memberships : gmap Z UserGroupMembership.t;
  tokens : gmap string Token.t;
  events : list EventType;
}.

(** A row, which is kept under its own key. *)
Definition row {K A} `{EqDecision K} (key : A -> K) (i : K) (o : option A) : option A :=
  a ← o; if decide (key a = i) then Some a else None.

Definition user_row (d : store) (i : Z) : option User.t := row User.id_ i (users d !! i).
Definition group_row (d : store) (i : Z) : option Group.t := row Group.id_ i (groups d !! i).
Definition token_row (d : store) (i : string) : option Token.t := row Token.token_ i (tokens d !! i).

Definition store_view (d : store) : Database :=
  {| find_user := user_row d;
     find_group := group_row d;
     find_membership := fun i => memberships d !! i;
     find_credential := fun _ => None;
     find_schedule := fun _ => None;
     find_door := fun _ => None;
     group_memberships := fun _ => [];
     lazy_credentials := fun _ => [] |}.

Definition with_users u (d : store) := mk_store u (groups d) (memberships d) (tokens d) (events d).
Definition with_groups g (d : store) := mk_store (users d) g (memberships d) (tokens d) (events d).
Definition with_tokens t (d : store) := mk_store (users d) (groups d) (memberships d) t (events d).

(** Changing a row that must be there. *)
Definition present {A B} (o : option A) (e : exn) (b : B) : outcome B :=
  match o with Some _ => Ret b | None => Throw e end.

#[export] Instance store_odb : Odb store := {|
  view := store_view;
  query_username := fun d name =>
    snd <$> List.find (fun p => String.eqb (User.username_ p.2) name) (map_to_list (users d));
  query_token := token_row;
  reload_token := fun d k =>
    match token_row d (Token.token_ k) with Some k' => Ret k' | None => Throw ObjectChanged end;
  update_token := fun k d =>
    present (token_row d (Token.token_ k)) ObjectChanged (with_tokens (<[Token.token_ k := k]> (tokens d)) d);
  persist_token := fun k d => Ret (with_tokens (<[Token.token_ k := k]> (tokens d)) d);
  erase_token := fun i d =>
    present (token_row d i) ObjectNotPersistent (with_tokens (delete i (tokens d)) d);
  update_user := fun u d =>
    present (user_row d (User.id_ u)) ObjectChanged (with_users (<[User.id_ u := u]> (users d)) d);
  update_group := fun g d =>
    present (group_row d (Group.id_ g)) ObjectChanged
      (g, with_groups (<[Group.id_ g := g]> (groups d)) d);
  erase_membership := fun i d =>
    present (memberships d !! i) ObjectNotPersistent
      (mk_store (users d) (groups d) (delete i (memberships d)) (tokens d) (events d));
  persist_audit := fun es d => Ret (mk_store (users d) (groups d) (memberships d) (tokens d) (events d ++ es));
|}.

Lemma row_key {K A} `{EqDecision K} (key : A -> K) i o a : row key i o = Some a -> key a = i /\ o = Some a.
Proof. unfold row. destruct o as [b|]; cbn; [|done]. case_decide; [|done]. by intros [= ->]. Qed.
Lemma row_self {K A} `{EqDecision K} (key : A -> K) a : row key (key a) (Some a) = Some a.
Proof. unfold row. cbn. by rewrite decide_True. Qed.

#[export] Instance store_laws : OdbLaws store.
Proof.
  split; cbn; unfold present.
  - intros k d d' i. destruct (token_row d k); [|done]. intros [= <-]. unfold token_row at 1. cbn.
    destruct (String.eqb_spec i k) as [->|]; [by rewrite lookup_delete_eq|by rewrite lookup_delete_ne].
  - by intros k d ->.
  - intros k d t ->. eauto.
  - intros d k ->. eauto.
  - by intros d k k' ->.
  - intros d k k'. destruct (token_row d (Token.token_ k)) eqn:E; [|done]. intros [= <-].
    by apply row_key in E as [-> _].
  - intros d i k H. by apply row_key in H as [-> _].
  - intros k d d' i. destruct (token_row _ _); [|done]. by intros [= <-].
  - intros d i u H. by apply row_key in H as [-> _].
  - intros k d. destruct (token_row _ _); eauto.
  - intros u d d' i. destruct (user_row _ _); [|done]. intros [= <-]. unfold user_row at 1. cbn.
    destruct (Z.eqb_spec i (User.id_ u)) as [->|]; [by rewrite lookup_insert_eq, row_self|by rewrite lookup_insert_ne].
  - intros u v d ->. eauto.
  - intros u d d' i. destruct (user_row _ _); [|done]. by intros [= <-].
  - intros k d d' i. destruct (token_row _ _); [|done]. by intros [= <-].
  - eauto.
  - by intros e d d' i [= <-].
  - by intros e d d' i [= <-].
  - by intros e d d' i [= <-].
  - intros g d g' d'. destruct (group_row _ _); [|done]. intros [= <- <-]. split; [|done].
    unfold group_row. cbn. by rewrite lookup_insert_eq, row_self.
  - intros g h d ->. eauto.
Qed.
