(* ===== verification/Api.v ===== *)
(** Requests to the WebSocket API: [src/modules/websock-api/WSServer.cpp],
    [ExceptionConverter.cpp], and under [api/] [MethodHandler.cpp],
    [CRUDResourceHandler.cpp], [MembershipCRUD.cpp], [UserCRUD.cpp] and
    [PasswordChange.cpp]; [src/core/auth/serializers/UserSerializer.cpp].

    What the remaining handlers do once their permissions are checked is a
    parameter. *)
From Stdlib Require Import ZArith Lia Ascii String.
From stdpp Require Import base tactics numbers list strings.
From S2P Require Import Prelude Json AuditLog Users Credentials Schedules Security Session.

Open Scope Z_scope.

(** [boost::algorithm::ends_with]. *)
Definition ends_with (s suffix : string) : bool :=
  let n := length (chars s) in
  let k := length (chars suffix) in
  (k <=? n)%nat && bool_decide (drop (n - k) (chars s) = chars suffix).
(** The text without its last [k] characters. *)
Definition strip (s : string) (k : nat) : string :=
  text (take (length (chars s) - k) (chars s)).

Abbreviation permission := (SecurityContext.Action * SecurityContext.ActionParam)%type.

Section api.
Context {D : Type} `{Odb D} {J : Type} `{Json J}.

(** * Permission checks of the handlers *)

(** [ICRUDResourceHandler::enforce_permission] and the loop of
    [MethodHandler::process]. *)
Fixpoint enforce_permission (hdl : Z) (permissions : list permission) : api D unit :=
  match permissions with
  | [] => mret tt
  | (a, ap) :: permissions =>
      x ← session hdl;
      d ← get_db;
      b ← lift (APISession.check_permission d x a ap);
      if (b : bool) then enforce_permission hdl permissions else throw PermissionDenied
  end.

Record method := {
  method_permission : J -> outcome (list permission);
  process_impl : J -> api D J;
}.

Definition process_method (m : method) (hdl : Z) (content : J) : api D J :=
  perms ← lift (method_permission m content);
  _ ← enforce_permission hdl perms;
  process_impl m content.

Inductive Verb := READ | CREATE | UPDATE | DELETE.

Record crud := {
  crud_permission : Verb -> J -> outcome (list permission);
  read_impl : J -> api D J;
  create_impl : J -> api D J;
  update_impl : J -> api D J;
  delete_impl : J -> api D J;
}.

Definition verb_from_request_type (req : string) : outcome Verb :=
  if ends_with req ".read" then Ret READ
  else if ends_with req ".create" then Ret CREATE
  else if ends_with req ".update" then Ret UPDATE
  else if ends_with req ".delete" then Ret DELETE
  else Fault AssertFailed.

Definition process_crud (c : crud) (hdl : Z) (type : string) (content : J) : api D J :=
  verb ← lift (verb_from_request_type type);
  perms ← lift (crud_permission c verb content);
  _ ← enforce_permission hdl perms;
  match verb with
  | READ => read_impl c content
  | CREATE => create_impl c content
  | UPDATE => update_impl c content
  | DELETE => delete_impl c content
  end.

(** * Memberships *)

End api.
Arguments method : clear implicits.
Arguments crud : clear implicits.

Module MembershipCRUD.
Section membership.
Context {D : Type} `{Odb D} {J : Type} `{Json J}.
Context (addr_lt : UserGroupMembership.t -> UserGroupMembership.t -> bool).
(** The time a membership was made at, as a [time_t]. *)
Context (timestamp : UserGroupMembership.t -> Z).

Definition serialize (m : UserGroupMembership.t) : J :=
  let ref id type := json_object [("data", json_object [("id", json_number id);
                                                        ("type", json_string type)])] in
  json_object [
    ("id", json_number (UserGroupMembership.id_ m));
    ("type", json_string "user-group-membership");
    ("attributes", json_object [
       ("rank", json_number (as_int32 (group_rank_val (UserGroupMembership.rank_ m))));
       ("timestamp", json_number (timestamp m))]);
    ("relationships", json_object [
       ("user", ref (UserGroupMembership.user_id m) "user");
       ("group", ref (UserGroupMembership.group_id m) "group")])].

(** [Audit::Factory::UserGroupMembershipEvent], then its mask. *)
Definition audit (group : option Group.t) (user : option User.t) (e : EventType) : api D unit :=
  g ← lift (_ ← cassert (bool_decide (is_Some group)); deref group);
  _ ← lift (cassert (negb (Group.id_ g =? 0)));
  u ← lift (_ ← cassert (bool_decide (is_Some user)); deref user);
  _ ← lift (cassert (negb (User.id_ u =? 0)));
  change_db (persist_audit [e]).

Definition create (req : J) : api D J :=
  transaction (
    attributes ← lift (at_ req "attributes");
    gid ← lift (j ← at_ attributes "group_id"; get_size_t j);
    uid ← lift (j ← at_ attributes "user_id"; get_size_t j);
    rank ← lift (j ← at_ attributes "rank"; z ← get_size_t j; Ret (group_rank_of (as_int32 z)));
    d ← get_db;
    group ← lift (DBService.find_group_by_id (view d) gid);
    user ← lift (DBService.find_user_by_id (view d) uid);
    _ ← audit (Some group) (Some user) GROUP_MEMBERSHIP_JOINED;
    match Group.member_has (User.id_ user) group with
    | Some _ =>
        name ← lift (User.username user);
        throw (LEOSACException ("User " +:+ name +:+ " is already in group " +:+ Group.name_ group))
    | None =>
        let '(group, ugm) := Group.member_add addr_lt (User.id_ user) rank group in
        d ← get_db;
        '(group, d) ← lift (update_group group d);
        _ ← set_db d;
        (** [membership] is the object the group holds, with its new id. *)
        m ← lift (deref (List.find (fun m => UserGroupMembership.user_id m =?
                                             UserGroupMembership.user_id ugm)
                                   (Group.membership_ group)));
        mret (json_object [("data", serialize m)])
    end).

Definition read (req : J) : api D J :=
  transaction (
    mid ← lift (j ← at_ req "membership_id"; get_size_t j);
    d ← get_db;
    m ← lift (DBService.find_membership_by_id (view d) mid);
    mret (json_object [("data", serialize m)])).

Definition update (_ : J) : api D J := throw (LEOSACException "Not implemented.").

Definition delete (req : J) : api D J :=
  transaction (
    mid ← lift (j ← at_ req "membership_id"; get_size_t j);
    d ← get_db;
    m ← lift (DBService.find_membership_by_id (view d) mid);
    group ← lift (DBService.load (find_group (view d)) (UserGroupMembership.group_id m));
    user ← lift (DBService.load (find_user (view d)) (UserGroupMembership.user_id m));
    _ ← audit group user GROUP_MEMBERSHIP_LEFT;
    _ ← change_db (erase_membership mid);
    mret json_null).

Definition permissions (verb : Verb) (req : J) : outcome (list permission) :=
  mid ← JSONUtil.extract_with_default get_unsigned req "membership_id" 0;
  uid ← JSONUtil.extract_with_default get_unsigned req "user_id" 0;
  gid ← JSONUtil.extract_with_default get_unsigned req "group_id" 0;
  rank ← JSONUtil.extract_with_default get_unsigned req "rank" 0;
  let map := SecurityContext.membership
    (SecurityContext.mk_membership mid gid uid (group_rank_of (as_int32 rank))) in
  Ret (match verb with
       | READ => [(SecurityContext.MEMBERSHIP_READ, map)]
       | CREATE => [(SecurityContext.GROUP_MEMBERSHIP_JOINED, map)]
       | DELETE => [(SecurityContext.GROUP_MEMBERSHIP_LEFT, map)]
       | UPDATE => []
       end).

Definition handler : crud D J := {|
  crud_permission := permissions;
  read_impl := read;
  create_impl := create;
  update_impl := update;
  delete_impl := delete;
|}.

End membership.
End MembershipCRUD.

(** * Users *)

Module UserCRUD.
Section user.
Context {D : Type} `{Odb D} {J : Type} `{Json J}.
Context (libscrypt_scrypt : list Z -> list Z -> ScryptParam -> option (list Z)).
(** The time point a text denotes, when [date::parse] leaves the stream good. *)
Context (parse_date : string -> option Z).

(** [JSONUtil::extract_with_default] for a time point. *)
Definition extract_time (obj : J) (key : string) (tp : Z) : outcome Z :=
  date_str ← JSONUtil.extract_with_default get_string obj key "";
  if str_empty date_str then Ret tp
  else _ ← cassert (bool_decide (is_Some (parse_date date_str))); deref (parse_date date_str).

Definition extract_validity_with_default (obj : J) (base_key : string) (def : ValidityInfo.t)
  : outcome ValidityInfo.t :=
  enabled ← JSONUtil.extract_with_default get_bool obj (base_key +:+ "-enabled")
              (ValidityInfo.is_enabled def);
  start ← extract_time obj (base_key +:+ "-start") (ValidityInfo.start_ def);
  end_ ← extract_time obj (base_key +:+ "-end") (ValidityInfo.end_ def);
  Ret (ValidityInfo.mk start end_ enabled).

(** [UserJSONSerializer::unserialize]; [check] is the security context, [salt]
    the random bytes a new password gets. *)
Definition unserialize (check : SecurityContext.Action -> SecurityContext.ActionParam -> outcome bool)
    (salt : list Z) (out : User.t) (in_ : J) : outcome User.t :=
  firstname ← JSONUtil.extract_with_default get_string in_ "firstname" (User.firstname_ out);
  lastname ← JSONUtil.extract_with_default get_string in_ "lastname" (User.lastname_ out);
  email ← JSONUtil.extract_with_default get_string in_ "email" (User.email_ out);
  let out := User.set_names firstname lastname email out in
  out ← match find_ in_ "password" with
        | Some pw =>
            if is_string pw then pw ← get_string pw; User.set_password libscrypt_scrypt salt pw out
            else Ret out
        | None => Ret out
        end;
  can_rank ← check SecurityContext.USER_UPDATE_RANK (SecurityContext.user (User.id_ out));
  out ← (if (can_rank : bool) then
           r ← JSONUtil.extract_with_default get_int in_ "rank" (user_rank_val (User.rank_ out));
           Ret (User.set_rank (user_rank_of r) out)
         else Ret out);
  can_validity ← check SecurityContext.USER_MANAGE_VALIDITY (SecurityContext.user (User.id_ out));
  if (can_validity : bool) then
    let validity_default := ValidityInfo.set_enabled
          (ValidityInfo.is_enabled (User.validity_ out)) ValidityInfo.default in
    v ← extract_validity_with_default in_ "validity" validity_default;
    Ret (User.set_validity v out)
  else Ret out.

(** [security_context().is_self(id)]. *)
Definition is_self (x : APISession) (id : Z) : bool := default 0 (security_ x) =? id.

(** [update_impl]; of the texts the audit entry keeps, only the checks made
    while writing them are kept here. *)
Definition update (hdl : Z) (salt : list Z) (req : J) : api D J :=
  transaction (
    uid ← lift (j ← at_ req "user_id"; get_size_t j);
    attributes ← lift (at_ req "attributes");
    d ← get_db;
    user ← lift (DBService.find_user_by_id (view d) uid);
    _ ← lift (cassert (negb (User.id_ user =? 0)));
    _ ← change_db (persist_audit [USER_EDITED]);
    _ ← lift (User.username user);
    x ← session hdl;
    d ← get_db;
    user' ← lift (unserialize (APISession.check_permission d x) salt user attributes);
    if ValidityInfo.is_enabled (User.validity_ user) &&
       negb (ValidityInfo.is_enabled (User.validity_ user')) && is_self x (User.id_ user')
    then throw (LEOSACException "You cannot disable your own user account.")
    else
      _ ← change_db (update_user user');
      _ ← lift (User.username user');
      mret json_null).

Definition permissions (verb : Verb) (req : J) : outcome (list permission) :=
  uid ← match (j ← at_ req "user_id"; get_size_t j) with
        | Throw JsonOutOfRange => Ret 0
        | r => r
        end;
  let uap := SecurityContext.user uid in
  Ret (match verb with
       | READ => [(SecurityContext.USER_READ, uap)]
       | CREATE => [(SecurityContext.USER_CREATE, uap)]
       | UPDATE => [(SecurityContext.USER_UPDATE, uap)]
       | DELETE => [(SecurityContext.USER_DELETE, uap)]
       end).

Definition delete (_ : J) : api D J := throw (LEOSACException "Not implemented.").

(** The handler; reading and creating users are parameters. *)
Definition handler (read create : J -> api D J) (hdl : Z) (salt : list Z) : crud D J := {|
  crud_permission := permissions;
  read_impl := read;
  create_impl := create;
  update_impl := update hdl salt;
  delete_impl := delete;
|}.

End user.
End UserCRUD.

(** * Sessions of other connections *)

Module WSServer.
Section sessions.
Context {D : Type} `{Odb D}.

Definition on_open (hdl : Z) (s : server D) : server D :=
  match session_of hdl (sessions s) with
  | Some _ => s
  | None => mk_server (db s) (sessions s ++ [(hdl, APISession.fresh)])
  end.
Definition on_close (hdl : Z) (s : server D) : server D :=
  mk_server (db s) (List.filter (fun p => negb (p.1 =? hdl)) (sessions s)).

Definition concerned (uid exception : Z) (p : Z * APISession) : bool :=
  (APISession.current_user_id p.2 =? uid) && negb (p.1 =? exception).

Definition clear_session (uid exception : Z) (p : Z * APISession) : Z * APISession :=
  if concerned uid exception p then (p.1, APISession.abort_session p.2) else p.

Definition tokens_to_remove (uid exception : Z) (l : list (Z * APISession)) : list string :=
  omap (fun p => if concerned uid exception p then Token.token_ <$> current_auth_token_ p.2 else None) l.

Fixpoint erase_tokens (l : list string) : api D unit :=
  match l with
  | [] => mret tt
  | k :: l => _ ← change_db (erase_token k); erase_tokens l
  end.

(** [clear_user_sessions]; the messages that tell the clients are left out. *)
Definition clear_user_sessions (uid exception : Z) : api D unit := fun s =>
  erase_tokens (tokens_to_remove uid exception (sessions s))
    (mk_server (db s) (map (clear_session uid exception) (sessions s))).

End sessions.
End WSServer.

(** * Changing a password *)

Module PasswordChange.
Section password.
Context {D : Type} `{Odb D} {J : Type} `{Json J}.
Context (libscrypt_scrypt : list Z -> list Z -> ScryptParam -> option (list Z)).

Definition required_permission (req : J) : outcome (list permission) :=
  uid ← (j ← at_ req "user_id"; get_size_t j);
  Ret [(SecurityContext.USER_CHANGE_PASSWORD, SecurityContext.user uid)].

(** The check of the current password, for one's own. *)
Definition current_password_ok (hdl uid : Z) (user : User.t) (req : J) : api D bool :=
  x ← session hdl;
  if uid =? APISession.current_user_id x then
    current_password ← lift (j ← at_ req "current_password"; get_string j);
    lift (User.verify_password libscrypt_scrypt current_password user)
  else mret true.

(** [process_impl]: the failure is recorded, and committed, before the
    exception. *)
Definition process (hdl : Z) (salt : list Z) (req : J) : api D J :=
  ok ← transaction (
    uid ← lift (j ← at_ req "user_id"; get_size_t j);
    new_password ← lift (j ← at_ req "new_password"; get_string j);
    d ← get_db;
    match find_user (view d) uid with
    | None => throw EntityNotFound
    | Some user =>
        _ ← lift (cassert (negb (User.id_ user =? 0)));
        ok ← current_password_ok hdl uid user req;
        if (ok : bool) then
          user ← lift (User.set_password libscrypt_scrypt salt new_password user);
          _ ← WSServer.clear_user_sessions (User.id_ user) hdl;
          _ ← change_db (persist_audit [USER_EDITED; USER_PASSWORD_CHANGED]);
          _ ← change_db (update_user user);
          mret true
        else
          _ ← change_db (persist_audit [USER_PASSWORD_CHANGE_FAILURE]);
          mret false
    end);
  if (ok : bool) then mret json_null else throw PermissionDenied.

Definition handler (hdl : Z) (salt : list Z) : method D J := {|
  method_permission := required_permission;
  process_impl := process hdl salt;
|}.

End password.
End PasswordChange.

(** * Dispatch *)

(** The handlers that are not modelled, and the replies with no state behind. *)
Record others (D J : Type) := mk_others {
  asio_handler : string -> option (Z -> J -> api D (option J));
  method_impl : string -> Z -> J -> api D J;
  read_user : J -> api D J;
  create_user : J -> api D J;
  other_crud : string -> option (Z -> crud D J);
  version_reply : J;
  overview_reply : J;
}.
Arguments asio_handler {D J}.
Arguments method_impl {D J}.
Arguments read_user {D J}.
Arguments create_user {D J}.
Arguments other_crud {D J}.
Arguments version_reply {D J}.
Arguments overview_reply {D J}.

(** What a request draws from outside: the clocks, a fresh token, random bytes. *)
Record entropy := mk_entropy { clk : clock; uuid : string; salt_bytes : list Z }.

Module Dispatch.
Section dispatch.
Context {D : Type} `{Odb D} {J : Type} `{Json J}.
Context (libscrypt_scrypt : list Z -> list Z -> ScryptParam -> option (list Z)).
Context (parse_date : string -> option Z).
Context (addr_lt : UserGroupMembership.t -> UserGroupMembership.t -> bool).
Context (timestamp : UserGroupMembership.t -> Z).
Context (ext : others D J).

(** The methods of [individual_handlers_] with the action each requires. *)
Definition method_action (type : string) : option SecurityContext.Action :=
  if String.eqb type "audit.get" then Some SecurityContext.AUDIT_READ
  else if String.eqb type "get_logs" then Some SecurityContext.LOG_READ
  else if String.eqb type "search.group_name" then Some SecurityContext.GROUP_SEARCH
  else if String.eqb type "search.door_alias" then Some SecurityContext.DOOR_SEARCH
  else if String.eqb type "search.access_point_alias" then Some SecurityContext.ACCESS_POINT_SEARCH
  else if String.eqb type "search.schedule_name" then Some SecurityContext.SCHEDULE_SEARCH
  else if String.eqb type "search.zone_alias" then Some SecurityContext.ZONE_SEARCH
  else if String.eqb type "search.user_username" then Some SecurityContext.USER_SEARCH
  else if String.eqb type "search.credential_alias" then Some SecurityContext.DOOR_SEARCH
  else if String.eqb type "search.hardware_name" then Some SecurityContext.HARDWARE_SEARCH
  else if String.eqb type "access_overview" then Some SecurityContext.ACCESS_OVERVIEW
  else if String.eqb type "check_update" then Some SecurityContext.IS_MANAGER
  else if String.eqb type "create_update" then Some SecurityContext.IS_MANAGER
  else if String.eqb type "ack_update" then Some SecurityContext.IS_MANAGER
  else if String.eqb type "cancel_update" then Some SecurityContext.IS_MANAGER
  else if String.eqb type "get_update_history" then Some SecurityContext.IS_MANAGER
  else if String.eqb type "get_pending_update" then Some SecurityContext.IS_MANAGER
  else if String.eqb type "get_update" then Some SecurityContext.IS_MANAGER
  else if String.eqb type "restart" then Some SecurityContext.RESTART_SERVER
  else None.

Definition individual_handler (hdl : Z) (e : entropy) (type : string) : option (method D J) :=
  if String.eqb type "password_change"
  then Some (PasswordChange.handler libscrypt_scrypt hdl (salt_bytes e))
  else match method_action type with
       | Some a => Some {| method_permission := fun _ => Ret [(a, SecurityContext.no_param)];
                           process_impl := method_impl ext type hdl |}
       | None => None
       end.

(** [handlers_]: the methods of the session. *)
Definition session_handler (hdl : Z) (e : entropy) (type : string) : option (J -> api D J) :=
  if String.eqb type "get_leosac_version" then Some (fun _ => mret (version_reply ext))
  else if String.eqb type "create_auth_token"
  then Some (APISession.create_auth_token libscrypt_scrypt hdl (clk e) (uuid e))
  else if String.eqb type "authenticate_with_token"
  then Some (APISession.authenticate_with_token hdl (clk e))
  else if String.eqb type "logout" then Some (fun _ => APISession.logout hdl)
  else if String.eqb type "system_overview" then Some (fun _ => mret (overview_reply ext))
  else None.

(** [crud_handlers_]: the four verbs of each resource. *)
Definition resource_of (type : string) : option string :=
  if ends_with type ".read" then Some (strip type 5)
  else if ends_with type ".update" then Some (strip type 7)
  else if ends_with type ".create" then Some (strip type 7)
  else if ends_with type ".delete" then Some (strip type 7)
  else None.

Definition crud_handler (hdl : Z) (e : entropy) (type : string) : option (crud D J) :=
  match resource_of type with
  | None => None
  | Some resource =>
      if String.eqb resource "user"
      then Some (UserCRUD.handler libscrypt_scrypt parse_date (read_user ext) (create_user ext)
                   hdl (salt_bytes e))
      else if String.eqb resource "user-group-membership"
      then Some (MembershipCRUD.handler addr_lt timestamp)
      else match other_crud ext resource with Some c => Some (c hdl) | None => None end
  end.

Definition dispatch_request (hdl : Z) (e : entropy) (type : string) (content : J)
  : api D (option J) :=
  match asio_handler ext type with
  | Some h => h hdl content
  | None =>
      _ ← APISession.hook_before_request hdl (clk e);
      match individual_handler hdl e type with
      | Some m => r ← process_method m hdl content; mret (Some r)
      | None =>
          match session_handler hdl e type with
          | Some h =>
              x ← session hdl;
              if APISession.allowed type x then r ← h content; mret (Some r)
              else throw PermissionDenied
          | None =>
              match crud_handler hdl e type with
              | Some c => r ← process_crud c hdl type content; mret (Some r)
              | None => throw InvalidCall
              end
          end
      end
  end.

(** [ExceptionConverter::convert_impl]: the status codes of [APIStatusCode]. *)
Definition status_code (ex : exn) : Z :=
  match ex with
  | InvalidCall => 0x05
  | PermissionDenied => 0x02
  | MalformedMessage => 0x04
  | SessionAborted => 0x07
  | EntityNotFound => 0x08
  | ModelException _ _ => 0x0B
  | ObjectNotPersistent | ObjectChanged | UnknownSchema | OdbException _ => 0x09
  | _ => 0x01
  end.

Inductive response :=
  | Success (content : J)
  | NoResponse
  | Failure (status : Z).

(** [handle_request]: every exception becomes a response; an abort does not. *)
Definition handle_request (hdl : Z) (e : entropy) (type : string) (content : J)
  : api D response := fun s =>
  match dispatch_request hdl e type content s with
  | (s', Ret (Some j)) => (s', Ret (Success j))
  | (s', Ret None) => (s', Ret NoResponse)
  | (s', Throw ex) => (s', Ret (Failure (status_code ex)))
  | (s', Fault f) => (s', Fault f)
  end.

(** [parse_request]: of what [at] and the conversions to text throw, only
    [json::out_of_range] is turned into [MalformedMessage]. *)
Definition parse_request (req : J) : outcome (string * string * J) :=
  match (uuid ← (j ← at_ req "uuid"; get_string j);
         type ← (j ← at_ req "type"; get_string j);
         content ← at_ req "content";
         Ret (uuid, type, content)) with
  | Throw JsonOutOfRange => Throw MalformedMessage
  | r => r
  end.

(** [on_message], for a payload [json::parse] gave [parsed] for: of what is
    thrown before the request is handled, [std::invalid_argument] and
    [MalformedMessage] are answered and the rest leaves the handler. The audit
    entry that is written before and after, and never read back by a handler,
    is [AuditTrail.WSServerAudit.on_message]. *)
Definition on_message (hdl : Z) (e : entropy) (parsed : outcome J) : api D response := fun s =>
  match session_of hdl (sessions s) with
  | None => (s, Fault AssertFailed)
  | Some _ =>
      match (req ← parsed; parse_request req) with
      | Ret (_, type, content) => handle_request hdl e type content s
      | Throw StdInvalidArgument | Throw MalformedMessage => (s, Ret (Failure 0x04))
      | Throw ex => (s, Throw ex)
      | Fault f => (s, Fault f)
      end
  end.

(** * The server as a transition system *)

(** What happens to the server: a connection opens, closes, or sends a
    message. *)
Inductive event :=
  | Open (hdl : Z)
  | Close (hdl : Z)
  | Message (hdl : Z) (e : entropy) (type : string) (content : J).

Inductive step : server D -> event -> server D -> Prop :=
  | step_open s hdl : step s (Open hdl) (WSServer.on_open hdl s)
  | step_close s hdl : step s (Close hdl) (WSServer.on_close hdl s)
  | step_message s hdl e type content s' r :
      session_of hdl (sessions s) <> None ->
      handle_request hdl e type content s = (s', Ret r) ->
      step s (Message hdl e type content) s'.

Inductive reachable (d : D) : server D -> Prop :=
  | reach_start : reachable d (mk_server d [])
  | reach_step s ev s' : reachable d s -> step s ev s' -> reachable d s'.

End dispatch.
End Dispatch.
