(* ===== verification/ApiSafety.v ===== *)
(** What the WebSocket API guarantees of sessions and permissions, and where it
    does not. Theorems about [Session] and [Api]; those about the accounts a
    request changes are in Accounts.v. *)
From Stdlib Require Import ZArith Lia Ascii String.
From stdpp Require Import base tactics numbers list strings.
From S2P Require Import Prelude Json AuditLog Users Credentials Schedules Security Session Store Api.

Open Scope Z_scope.

(** * Equations of the monad *)

Section equations.
Context {D : Type} {A B : Type}.
Implicit Types (s : server D).

Lemma lift_bind (m : outcome A) (k : A -> api D B) s :
  (lift m ≫= k) s = match m with Ret a => k a s | Throw e => (s, Throw e) | Fault f => (s, Fault f) end.
Proof. by destruct m. Qed.
Lemma get_db_bind (k : D -> api D B) s : (get_db ≫= k) s = k (db s) s.
Proof. done. Qed.
Lemma session_bind hdl (k : APISession -> api D B) s x :
  session_of hdl (sessions s) = Some x -> (session hdl ≫= k) s = k x s.
Proof. unfold session, mbind, api_bind. cbn. by intros ->. Qed.
Lemma change_db_bind f (k : unit -> api D B) s d :
  f (db s) = Ret d -> (change_db f ≫= k) s = k tt (mk_server d (sessions s)).
Proof. unfold change_db, mbind, api_bind. by intros ->. Qed.
Lemma put_session_bind hdl x (k : unit -> api D B) s :
  (put_session hdl x ≫= k) s = k tt (mk_server (db s) (put_session_in hdl x (sessions s))).
Proof. done. Qed.
Lemma bind_at (m : api D A) (k : A -> api D B) s s' a : m s = (s', Ret a) -> (m ≫= k) s = k a s'.
Proof. unfold mbind, api_bind. by intros ->. Qed.
Lemma bind_throw (m : api D A) (k : A -> api D B) s s' e : m s = (s', Throw e) -> (m ≫= k) s = (s', Throw e).
Proof. unfold mbind, api_bind. by intros ->. Qed.
Lemma bind_fault (m : api D A) (k : A -> api D B) s s' f : m s = (s', Fault f) -> (m ≫= k) s = (s', Fault f).
Proof. unfold mbind, api_bind. by intros ->. Qed.

(** Reading a successful computation back. *)
Lemma bind_inv_ret (m : api D A) (k : A -> api D B) s s' b :
  (m ≫= k) s = (s', Ret b) -> exists a s1, m s = (s1, Ret a) /\ k a s1 = (s', Ret b).
Proof.
  unfold mbind, api_bind. destruct (m s) as [s1 [a| |]]; intros H; [by exists a, s1|congruence..].
Qed.
Lemma transaction_inv_ret (m : api D A) s s' a : transaction m s = (s', Ret a) -> m s = (s', Ret a).
Proof. unfold transaction. destruct (m s) as [s1 [b| |]]; congruence. Qed.
Lemma change_db_inv f s s' u :
  change_db f s = (s', Ret u) -> exists d, f (db s) = Ret d /\ s' = mk_server d (sessions s).
Proof. unfold change_db. destruct (f (db s)) as [d| |]; intros [= <- <-]. by exists d. Qed.
Lemma lift_inv (m : outcome A) s s' a : lift m s = (s', Ret a) -> s' = s /\ m = Ret a.
Proof. unfold lift. by intros [= <- ->]. Qed.
End equations.

Lemma session_inv {D} hdl (s s' : server D) x :
  session hdl s = (s', Ret x) -> s' = s /\ session_of hdl (sessions s) = Some x.
Proof. unfold session. by destruct (session_of _ _); intros [= <- <-]. Qed.

Lemma session_put hdl x l y :
  session_of hdl l = Some y -> session_of hdl (put_session_in hdl x l) = Some x.
Proof.
  induction l as [|[h z] l IH]; cbn; [done|].
  destruct (Z.eqb_spec h hdl) as [->|Hn]; cbn.
  - by rewrite Z.eqb_refl.
  - rewrite (proj2 (Z.eqb_neq _ _)) by done. exact IH.
Qed.
Lemma put_put hdl x y l : put_session_in hdl x (put_session_in hdl y l) = put_session_in hdl x l.
Proof.
  induction l as [|[h z] l IH]; cbn; [done|].
  destruct (Z.eqb_spec h hdl) as [->|Hn]; cbn; [by rewrite Z.eqb_refl|].
  rewrite (proj2 (Z.eqb_neq _ _)) by done. by rewrite IH.
Qed.

(** * The session invariant *)

(** A session is logged in exactly when it holds a token, and then it has the
    permissions of a user. *)
Definition session_ok (x : APISession) : Prop :=
  match auth_status_ x with
  | LOGGED_IN => is_Some (current_auth_token_ x) /\ is_Some (security_ x)
  | NONE => current_auth_token_ x = None
  end.

(** A property of each session, by its connection. *)
Abbreviation property := (Z -> APISession -> Prop).
Definition sessions_in (Q : property) (l : list (Z * APISession)) : Prop := Forall (fun p => Q p.1 p.2) l.

Lemma session_of_in Q hdl l x : sessions_in Q l -> session_of hdl l = Some x -> Q hdl x.
Proof.
  induction 1 as [|[h y] l Hy Hl IH]; cbn; [done|].
  destruct (Z.eqb_spec h hdl) as [->|]; [by intros [= <-]|exact IH].
Qed.
Lemma put_session_in_in Q hdl x l : Q hdl x -> sessions_in Q l -> sessions_in Q (put_session_in hdl x l).
Proof.
  intros Hx. induction 1 as [|[h y] l Hy Hl IH]; cbn; [constructor|].
  destruct (Z.eqb_spec h hdl) as [->|]; by constructor.
Qed.

(** Computations that keep such a property, whatever they return. *)
Definition keeps (Q : property) {D A} (m : api D A) : Prop :=
  forall s, sessions_in Q (sessions s) -> sessions_in Q (sessions (m s).1).

(** Computations that leave the sessions alone. *)
Definition leaves {D A} (m : api D A) : Prop := forall s, sessions (m s).1 = sessions s.

Lemma keeps_leaves Q {D A} (m : api D A) : leaves m -> keeps Q m.
Proof. intros Hm s Hs. by rewrite Hm. Qed.

Lemma leaves_bind {D A B} (m : api D A) (k : A -> api D B) : leaves m -> (forall a, leaves (k a)) -> leaves (m ≫= k).
Proof.
  intros Hm Hk s. unfold mbind, api_bind. specialize (Hm s). destruct (m s) as [s1 [a| |]]; [|done..]. cbn in Hm.
  by rewrite Hk.
Qed.
Lemma leaves_lift {D A} (m : outcome A) : leaves (D := D) (lift m).
Proof. by intros s. Qed.
Lemma leaves_ret {D A} (a : A) : leaves (D := D) (mret a).
Proof. by intros s. Qed.
Lemma leaves_get_db {D} : leaves (@get_db D).
Proof. by intros s. Qed.
Lemma leaves_change_db {D} f : leaves (@change_db D f).
Proof. intros s. unfold change_db. by destruct (f (db s)). Qed.
Lemma leaves_session {D} hdl : leaves (@session D hdl).
Proof. intros s. unfold session. by destruct (session_of _ _). Qed.
Lemma leaves_transaction {D A} (m : api D A) : leaves m -> leaves (transaction m).
Proof. intros Hm s. unfold transaction. specialize (Hm s). by destruct (m s) as [s' []]. Qed.

Create HintDb leaves.
#[export] Hint Resolve leaves_lift leaves_ret leaves_get_db leaves_change_db leaves_session : leaves.

Ltac leaves :=
  repeat first [
    solve [auto with leaves]
  | apply leaves_transaction
  | apply leaves_bind
  | match goal with
    | |- forall _, _ => intro
    | |- leaves (match ?x with _ => _ end) => destruct x
    end ].

(** The properties that hold of a new session, and that neither its end nor a renewed token
    changes. *)
Record closed (Q : property) : Prop := {
  closed_fresh h : Q h APISession.fresh;
  closed_abort h x : Q h x -> Q h (APISession.abort_session x);
  closed_token h x k k' : Q h x -> auth_status_ x = LOGGED_IN -> current_auth_token_ x = Some k ->
    Q h (mk_session LOGGED_IN (Some k') (security_ x));
}.

Section keeps.
Context (Q : property) {D : Type} {A B : Type}.
Abbreviation keeps := (keeps Q).

Lemma keeps_lift (m : outcome A) : keeps (lift (D := D) m).
Proof. by intros s. Qed.
Lemma keeps_ret (a : A) : keeps (mret a : api D A).
Proof. by intros s. Qed.
Lemma keeps_throw e : keeps (throw (D := D) (A := A) e).
Proof. by intros s. Qed.
Lemma keeps_get_db : keeps (@get_db D).
Proof. by intros s. Qed.
Lemma keeps_set_db d : keeps (@set_db D d).
Proof. by intros s. Qed.
Lemma keeps_change_db f : keeps (@change_db D f).
Proof. intros s Hs. unfold change_db. by destruct (f (db s)). Qed.
Lemma keeps_put_session hdl x : Q hdl x -> keeps (@put_session D hdl x).
Proof. intros Hx s Hs. by apply put_session_in_in. Qed.
Lemma keeps_bind (m : api D A) (k : A -> api D B) : keeps m -> (forall a, keeps (k a)) -> keeps (m ≫= k).
Proof.
  intros Hm Hk s Hs. unfold mbind, api_bind. specialize (Hm s Hs).
  destruct (m s) as [s' [a| |]]; [by apply Hk|done..].
Qed.
(** A session just read has the property. *)
Lemma keeps_session hdl (k : APISession -> api D B) :
  (forall x, Q hdl x -> keeps (k x)) -> keeps (session hdl ≫= k).
Proof.
  intros Hk s Hs. unfold mbind, api_bind, session.
  destruct (session_of hdl (sessions s)) as [x|] eqn:Hx; [|done].
  by apply Hk; [apply (session_of_in _ _ _ _ Hs Hx)|].
Qed.
Lemma keeps_transaction (m : api D A) : keeps m -> keeps (transaction m).
Proof. intros Hm s Hs. unfold transaction. specialize (Hm s Hs). by destruct (m s) as [s' []]. Qed.
Lemma keeps_if (b : bool) (m n : api D A) : keeps m -> keeps n -> keeps (if b then m else n).
Proof. by destruct b. Qed.
End keeps.

Create HintDb keeps.
#[export] Hint Resolve keeps_lift keeps_ret keeps_throw keeps_get_db keeps_set_db keeps_change_db
  keeps_transaction : keeps.

Ltac keeps :=
  repeat first [
    solve [auto with keeps]
  | apply keeps_if
  | apply keeps_transaction
  | apply keeps_bind
  | match goal with
    | |- forall _, _ => intro
    | |- keeps _ (match ?x with _ => _ end) => destruct x
    end ].

Section invariant.
Context {D : Type} `{OdbLaws D} {J : Type} `{Json J}.
Context (kdf : list Z -> list Z -> ScryptParam -> option (list Z)).
Context (parse_date : string -> option Z).
Context (addr_lt : UserGroupMembership.t -> UserGroupMembership.t -> bool).
Context (timestamp : UserGroupMembership.t -> Z).

Section any.
Context (Q : property) (HQ : closed Q).
Abbreviation keeps := (keeps Q).

Lemma keeps_session_read hdl : keeps (session (D := D) hdl).
Proof. intros s Hs. unfold session. by destruct (session_of _ _). Qed.
Hint Resolve keeps_session_read : keeps.

Lemma keeps_logout hdl : keeps (APISession.logout (D := D) (J := J) hdl).
Proof.
  assert (keeps (put_session (D := D) hdl APISession.fresh)) by apply keeps_put_session, (closed_fresh _ HQ).
  unfold APISession.logout, APIAuth.invalidate_token, APISession.clear_authentication. fold APISession.fresh. keeps.
Qed.

Lemma keeps_hook hdl clk : keeps (APISession.hook_before_request (D := D) hdl clk).
Proof.
  unfold APISession.hook_before_request. apply keeps_session. intros x Hx.
  destruct (auth_status_ x) eqn:Ea; [keeps|]. apply keeps_transaction.
  destruct (current_auth_token_ x) as [k|] eqn:Ek; [|by intros s].
  pose proof (closed_abort _ HQ _ _ Hx) as Hab.
  assert (Hok : forall t, keeps (put_session (D := D) hdl (mk_session LOGGED_IN (Some t) (security_ x))))
    by (intros t; by eapply keeps_put_session, closed_token).
  unfold deref. intros s Hss. rewrite lift_bind, get_db_bind. cbn [fst].
  assert (Habort : keeps (_ ← put_session (D := D) hdl (APISession.abort_session x); throw (D := D) (A := unit) SessionAborted))
    by (apply keeps_bind; [by apply keeps_put_session|by keeps]).
  destruct (reload_token (db s) k) as [k'|e|f] eqn:Er; [|destruct e; first [by apply Habort|done]|done].
  clear Er. revert s Hss. apply keeps_bind; [apply Hok|intros _]. apply keeps_if; [|exact Habort].
  apply keeps_bind; [apply Hok|intros _; by keeps].
Qed.

Lemma keeps_enforce hdl perms : keeps (enforce_permission (D := D) hdl perms).
Proof. induction perms as [|[a ap] perms IH]; cbn; keeps. Qed.
Hint Resolve keeps_enforce : keeps.

Lemma keeps_method (m : method D J) hdl content :
  (forall j, keeps (process_impl m j)) -> keeps (process_method m hdl content).
Proof. intros Hm. unfold process_method. keeps. Qed.

Lemma keeps_crud (c : crud D J) hdl type content :
  (forall j, keeps (read_impl c j)) -> (forall j, keeps (create_impl c j)) ->
  (forall j, keeps (update_impl c j)) -> (forall j, keeps (delete_impl c j)) ->
  keeps (process_crud c hdl type content).
Proof. intros. unfold process_crud. keeps. Qed.

Lemma keeps_audit g u e : keeps (MembershipCRUD.audit (D := D) g u e).
Proof. unfold MembershipCRUD.audit. keeps. Qed.
Hint Resolve keeps_audit : keeps.

Lemma keeps_membership type hdl (content : J) :
  keeps (process_crud (D := D) (MembershipCRUD.handler addr_lt timestamp) hdl type content).
Proof.
  apply keeps_crud; cbn; intros j.
  - unfold MembershipCRUD.read. keeps.
  - unfold MembershipCRUD.create. keeps.
  - unfold MembershipCRUD.update. keeps.
  - unfold MembershipCRUD.delete. keeps.
Qed.

Lemma keeps_user_update hdl salt (req : J) :
  keeps (UserCRUD.update (D := D) kdf parse_date hdl salt req).
Proof. unfold UserCRUD.update. keeps. Qed.

Lemma clear_sessions_in uid exc l : sessions_in Q l -> sessions_in Q (map (WSServer.clear_session uid exc) l).
Proof.
  intros Hl. apply Forall_map. eapply Forall_impl; [exact Hl|]. intros [h x] Hx. cbn.
  unfold WSServer.clear_session. destruct (WSServer.concerned _ _ _); [by apply (closed_abort _ HQ)|done].
Qed.

Lemma keeps_erase_tokens l : keeps (WSServer.erase_tokens (D := D) l).
Proof. induction l; cbn; keeps. Qed.

Lemma keeps_clear_user_sessions uid exc : keeps (WSServer.clear_user_sessions (D := D) uid exc).
Proof.
  intros s Hs. unfold WSServer.clear_user_sessions. apply keeps_erase_tokens.
  by apply clear_sessions_in.
Qed.
Hint Resolve keeps_clear_user_sessions : keeps.

Lemma keeps_password_change hdl salt (req : J) :
  keeps (PasswordChange.process (D := D) kdf hdl salt req).
Proof. unfold PasswordChange.process, PasswordChange.current_password_ok. keeps. Qed.

End any.

(** The handlers that are not modelled do not touch the sessions. *)
Record others_ok (ext : others D J) : Prop := {
  asio_ok type h hdl j : asio_handler ext type = Some h -> leaves (h hdl j);
  method_ok type hdl j : leaves (method_impl ext type hdl j);
  read_user_ok j : leaves (read_user ext j);
  create_user_ok j : leaves (create_user ext j);
  crud_ok type c hdl : other_crud ext type = Some c ->
    (forall j, leaves (read_impl (c hdl) j)) /\ (forall j, leaves (create_impl (c hdl) j)) /\
    (forall j, leaves (update_impl (c hdl) j)) /\ (forall j, leaves (delete_impl (c hdl) j));
}.

Context (ext : others D J) (Hext : others_ok ext).

(** The user that a request to log in is about, when what it presents is right: the account of the
    name, with its password, or the owner of a token that is valid; the account is
    enabled and in its period. *)
Definition usable (now : Z) (u : User.t) : bool :=
  ValidityInfo.is_enabled (User.validity_ u) && ValidityInfo.is_in_range now (User.validity_ u).
Definition identified (e : entropy) (type : string) (content : J) (d : D) : option Z :=
  if String.eqb type "create_auth_token" then
    match (j ← at_ content "username"; get_string j), (j ← at_ content "password"; get_string j) with
    | Ret name, Ret password =>
        u ← query_username d (text (map tolower (chars name)));
        if bool_decide (User.verify_password kdf password u = Ret true) && usable (system_now (clk e)) u
        then Some (User.id_ u) else None
    | _, _ => None
    end
  else if String.eqb type "authenticate_with_token" then
    match (j ← at_ content "token"; get_string j) with
    | Ret t =>
        k ← query_token d t;
        u ← find_user (view d) (Token.owner_ k);
        if Token.is_valid (valid_now (clk e)) k && usable (system_now (clk e)) u then Some (Token.owner_ k) else None
    | _ => None
    end
  else None.

Lemma usable_enforced now u r : APIAuth.enforce_user_enabled now u = Ret r -> usable now u = true.
Proof. unfold APIAuth.enforce_user_enabled, usable. destruct (ValidityInfo.is_enabled _); [|done]. cbn. by destruct (ValidityInfo.is_in_range _ _). Qed.

(** What a login leads to: an unchanged set of sessions, or the one of a token of the user that
    was identified. *)
Definition logs_in (s : server D) (hdl : Z) (x : APISession) (e : entropy) (type : string) (content : J)
    (s' : server D) (r : outcome J) : Prop :=
  sessions s' = sessions s /\ (forall j, r = Ret j -> j = APISession.failed_reply) \/
  exists k, sessions s' = put_session_in hdl (APISession.mark_authenticated k x) (sessions s) /\
    identified e type content (db s) = Some (Token.owner_ k).

Lemma leaves_credentials ck uuid name pw : leaves (APIAuth.authenticate_credentials (D := D) kdf ck uuid name pw).
Proof. unfold APIAuth.authenticate_credentials. leaves. Qed.
Lemma leaves_token ck t : leaves (APIAuth.authenticate_token (D := D) ck t).
Proof. unfold APIAuth.authenticate_token, APIAuth.owner. leaves. Qed.

Lemma credentials_identified ck uuid name pw s s' k :
  APIAuth.authenticate_credentials kdf ck uuid name pw s = (s', Ret (Some k)) ->
  exists u, query_username (db s) (text (map tolower (chars name))) = Some u /\
    User.verify_password kdf pw u = Ret true /\ usable (system_now ck) u = true /\ Token.owner_ k = User.id_ u.
Proof.
  intros Hr. apply bind_inv_ret in Hr as (r & s1 & Ht & Hk). apply transaction_inv_ret in Ht.
  rewrite get_db_bind in Ht. destruct (query_username _ _) as [u|]; [|by injection Ht as <- <-].
  apply bind_inv_ret in Ht as (ok & s2 & Hok & Ht). apply lift_inv in Hok as [-> Hok].
  destruct ok; [|by injection Ht as <- <-].
  apply bind_inv_ret in Ht as (v & s3 & Hen & Ht). apply lift_inv in Hen as [-> Hen].
  apply bind_inv_ret in Ht as (w & s4 & _ & Ht). injection Ht as <- <-.
  apply bind_inv_ret in Hk as (nm & s5 & _ & Hk). injection Hk as <- <-.
  exists u. split_and!; [done|done| |done]. by eapply usable_enforced.
Qed.

Lemma token_identified ck t s s' k :
  APIAuth.authenticate_token ck t s = (s', Ret (Some k)) ->
  exists k0 u, query_token (db s) t = Some k0 /\ find_user (view (db s)) (Token.owner_ k0) = Some u /\
    Token.is_valid (valid_now ck) k0 = true /\ usable (system_now ck) u = true /\ Token.owner_ k = Token.owner_ k0.
Proof.
  intros Hr. apply transaction_inv_ret in Hr. rewrite get_db_bind in Hr.
  destruct (query_token (db s) t) as [k0|]; [|done].
  destruct (Token.is_valid _ k0) eqn:Ev; [|done].
  apply bind_inv_ret in Hr as (u & s1 & Ho & Hr). unfold APIAuth.owner in Ho. rewrite get_db_bind in Ho.
  apply lift_inv in Ho as [-> Ho]. unfold deref in Ho. destruct (find_user _ _) as [u'|] eqn:Eu; [|done]. injection Ho as ->.
  apply bind_inv_ret in Hr as (v & s2 & Hen & Hr). apply lift_inv in Hen as [-> Hen].
  apply bind_inv_ret in Hr as (w & s3 & _ & Hr). injection Hr as _ <-.
  exists k0, u. split_and!; try done. by eapply usable_enforced.
Qed.

Lemma login_sessions hdl e type h content s x s' r :
  type = "create_auth_token" \/ type = "authenticate_with_token" ->
  Dispatch.session_handler kdf ext hdl e type = Some h -> session_of hdl (sessions s) = Some x ->
  auth_status_ x = NONE -> h content s = (s', r) -> logs_in s hdl x e type content s' r.
Proof.
  intros Ht Hh Hx Ha. unfold logs_in. destruct Ht as [-> | ->]; injection Hh as <-.
  - unfold APISession.create_auth_token. rewrite (session_bind _ _ _ _ Hx), Ha, lift_bind. cbn [bool_decide decide decide_rel cassert].
    unfold identified. cbn [String.eqb Ascii.eqb Bool.eqb].
    rewrite lift_bind. destruct (j ← at_ content "username"; get_string j) as [name|ex|f]; [|intros [= <- <-]; by left..].
    rewrite lift_bind. destruct (j ← at_ content "password"; get_string j) as [pw|ex|f]; [|intros [= <- <-]; by left..].
    pose proof (leaves_credentials (clk e) (uuid e) name pw s) as Hl.
    destruct (APIAuth.authenticate_credentials kdf (clk e) (uuid e) name pw s) as [s1 [[k|]|ex|f]] eqn:Ec; cbn in Hl.
    + rewrite (bind_at _ _ _ _ _ Ec), put_session_bind. intros [= <- <-]. right. exists k. cbn. rewrite Hl. split; [done|].
      apply credentials_identified in Ec as (u & -> & Hv & Hu & Ho). cbn. rewrite Hu, bool_decide_eq_true_2 by done. cbn. by rewrite Ho.
    + rewrite (bind_at _ _ _ _ _ Ec). intros [= <- <-]. left. split; [done|]. by intros j [= <-].
    + rewrite (bind_throw _ _ _ _ _ Ec). intros [= <- <-]. by left.
    + rewrite (bind_fault _ _ _ _ _ Ec). intros [= <- <-]. by left.
  - unfold APISession.authenticate_with_token. rewrite (session_bind _ _ _ _ Hx), Ha, lift_bind. cbn [bool_decide decide decide_rel cassert].
    unfold identified. cbn [String.eqb Ascii.eqb Bool.eqb].
    rewrite lift_bind. destruct (j ← at_ content "token"; get_string j) as [t|ex|f]; [|intros [= <- <-]; by left..].
    pose proof (leaves_token (clk e) t s) as Hl.
    destruct (APIAuth.authenticate_token (clk e) t s) as [s1 [[k|]|ex|f]] eqn:Ec; cbn in Hl.
    + rewrite (bind_at _ _ _ _ _ Ec). unfold APIAuth.owner. unfold mbind at 1, api_bind at 1. rewrite get_db_bind.
      unfold lift at 1. destruct (deref _) as [u|ex|f] eqn:Ed; [|intros [= <- <-]; by left..].
      rewrite lift_bind. destruct (User.username u) as [nm|ex|f]; [|intros [= <- <-]; by left..].
      rewrite put_session_bind. intros [= <- <-]. right. exists k. cbn. rewrite Hl. split; [done|].
      apply token_identified in Ec as (k0 & u0 & -> & Hu & Hv & Hen & Ho). cbn. rewrite Hu. cbn. rewrite Hv, Hen. cbn. by rewrite Ho.
    + rewrite (bind_at _ _ _ _ _ Ec). intros [= <- <-]. left. split; [done|]. by intros j [= <-].
    + rewrite (bind_throw _ _ _ _ _ Ec). intros [= <- <-]. by left.
    + rewrite (bind_fault _ _ _ _ _ Ec). intros [= <- <-]. by left.
Qed.

(** What the hook leaves of a session that is logged in still is. *)
Lemma hook_logged_in s hdl ck x s1 : session_of hdl (sessions s) = Some x -> auth_status_ x = LOGGED_IN ->
  APISession.hook_before_request hdl ck s = (s1, Ret tt) ->
  exists x1, session_of hdl (sessions s1) = Some x1 /\ auth_status_ x1 = LOGGED_IN.
Proof.
  intros Hx Ha. unfold APISession.hook_before_request. rewrite (session_bind _ _ _ _ Hx), Ha. intros Hr.
  apply transaction_inv_ret in Hr. destruct (current_auth_token_ x) as [k|]; [|done]. unfold deref in Hr.
  rewrite lift_bind, get_db_bind in Hr. destruct (reload_token (db s) k) as [k'|ex|f]; [|by destruct ex|done].
  rewrite put_session_bind in Hr. destruct (Token.is_valid _ _); [|done]. rewrite put_session_bind in Hr.
  apply change_db_inv in Hr as (d & _ & ->). cbn. eexists.
  split; [rewrite put_put; by apply (session_put _ _ _ x)|reflexivity].
Qed.

Section any.
Context (Q : property) (HQ : closed Q).
Abbreviation keeps := (keeps Q).

Lemma keeps_individual hdl e type m content :
  Dispatch.individual_handler kdf ext hdl e type = Some m -> keeps (process_method m hdl content).
Proof.
  unfold Dispatch.individual_handler. case_match; intros Hm.
  - injection Hm as <-. apply keeps_method. intros j. by apply keeps_password_change.
  - destruct (Dispatch.method_action type); [|done]. injection Hm as <-.
    apply keeps_method. intros j. apply keeps_leaves, (method_ok _ Hext).
Qed.

Lemma keeps_session_handler hdl e type h content :
  type <> "create_auth_token" -> type <> "authenticate_with_token" ->
  Dispatch.session_handler kdf ext hdl e type = Some h -> keeps (h content).
Proof.
  intros Hc Ht. unfold Dispatch.session_handler.
  rewrite (proj2 (String.eqb_neq _ _) Hc), (proj2 (String.eqb_neq _ _) Ht).
  repeat case_match; intros Hh; simplify_eq; first [by apply keeps_logout|apply keeps_ret].
Qed.

Lemma keeps_crud_handler hdl e type c content :
  Dispatch.crud_handler kdf parse_date addr_lt timestamp ext hdl e type = Some c ->
  keeps (process_crud c hdl type content).
Proof.
  unfold Dispatch.crud_handler. destruct (Dispatch.resource_of type); [|done].
  case_match; [intros Hc; simplify_eq|case_match; [intros Hc; simplify_eq; apply keeps_membership|]].
  - apply keeps_crud; cbn; intros j.
    + by apply keeps_leaves, (read_user_ok _ Hext).
    + by apply keeps_leaves, (create_user_ok _ Hext).
    + apply keeps_user_update.
    + unfold UserCRUD.delete. keeps.
  - destruct (other_crud ext s) as [c'|] eqn:Ec; [|done]. intros Hc; simplify_eq.
    destruct (crud_ok _ Hext _ _ hdl Ec) as (K1 & K2 & K3 & K4). apply keeps_crud; intros j; by apply keeps_leaves.
Qed.

(** A request keeps such a property, when it holds of the session that a login makes. *)
Lemma dispatch_in hdl e type content s : sessions_in Q (sessions s) ->
  (forall x k, session_of hdl (sessions s) = Some x -> auth_status_ x = NONE ->
     identified e type content (db s) = Some (Token.owner_ k) -> Q hdl (APISession.mark_authenticated k x)) ->
  sessions_in Q (sessions (Dispatch.dispatch_request kdf parse_date addr_lt timestamp ext hdl e type content s).1).
Proof.
  intros Hs Hlogin. unfold Dispatch.dispatch_request.
  destruct (asio_handler ext type) as [h|] eqn:Ea; [by rewrite (asio_ok _ Hext _ _ _ _ Ea)|].
  pose proof (keeps_hook Q HQ hdl (clk e) s Hs) as Hs1. unfold mbind, api_bind.
  destruct (APISession.hook_before_request hdl (clk e) s) as [s1 [[]|ex|f]] eqn:Eh; cbn in Hs1; [|done..].
  destruct (Dispatch.individual_handler _ _ _ _ _) as [m|] eqn:Em.
  { pose proof (keeps_individual _ _ _ _ content Em s1 Hs1) as Hk. by destruct (process_method _ _ _ s1) as [s2 []]. }
  destruct (Dispatch.session_handler _ _ _ _ _) as [h|] eqn:Es.
  - destruct (session hdl s1) as [s2 [x1|ex|f]] eqn:Ex.
    2,3: assert (s2 = s1) as -> by (unfold session in Ex; by injection Ex); done.
    apply session_inv in Ex as [-> Hx1]. destruct (APISession.allowed type x1) eqn:Eal; [|done].
    destruct (decide (type = "create_auth_token" \/ type = "authenticate_with_token")) as [Ht|Ht].
    + assert (Hn1 : auth_status_ x1 = NONE).
      { revert Eal. destruct Ht as [-> | ->]; unfold APISession.allowed; cbn; by destruct (auth_status_ x1). }
      assert (s1 = s) as ->.
      { destruct (session_of hdl (sessions s)) as [x|] eqn:Ex.
        - destruct (auth_status_ x) eqn:Ea0.
          + unfold APISession.hook_before_request in Eh. rewrite (session_bind _ _ _ _ Ex), Ea0 in Eh. by injection Eh as <-.
          + destruct (hook_logged_in _ _ _ _ _ Ex Ea0 Eh) as (y & Hy & Hly). rewrite Hx1 in Hy. injection Hy as <-. congruence.
        - unfold APISession.hook_before_request, session, mbind, api_bind in Eh. by rewrite Ex in Eh. }
      destruct (h content s) as [s2 r] eqn:Eh2. pose proof (login_sessions _ _ _ _ _ _ _ _ _ Ht Es Hx1 Hn1 Eh2) as Hl.
      assert (Hin : sessions_in Q (sessions s2)).
      { destruct Hl as [[-> _]|(k & -> & Hi)]; [done|]. apply put_session_in_in; [by apply Hlogin|done]. }
      by destruct r.
    + pose proof (keeps_session_handler hdl e type h content) as Hk.
      specialize (Hk ltac:(tauto) ltac:(tauto) Es s1 Hs1). by destruct (h content s1) as [s2 []].
  - destruct (Dispatch.crud_handler _ _ _ _ _ _ _ _) as [c|] eqn:Ec; [|done].
    pose proof (keeps_crud_handler _ _ _ _ content Ec s1 Hs1) as Hk. by destruct (process_crud _ _ _ _ s1) as [s2 []].
Qed.
End any.

Lemma handle_request_sessions hdl e type content s :
  sessions (Dispatch.handle_request kdf parse_date addr_lt timestamp ext hdl e type content s).1 =
  sessions (Dispatch.dispatch_request kdf parse_date addr_lt timestamp ext hdl e type content s).1.
Proof.
  unfold Dispatch.handle_request.
  by destruct (Dispatch.dispatch_request _ _ _ _ _ _ _ _ _ s) as [s' [[]| |]].
Qed.

(** ** Histories *)

(** The users identified on each connection since it opened. *)
Definition users_after (d : D) (ev : Dispatch.event) (l : list (Z * Z)) : list (Z * Z) :=
  match ev with
  | Dispatch.Open _ => l
  | Dispatch.Close hdl => List.filter (fun p => negb (p.1 =? hdl)) l
  | Dispatch.Message hdl e type content =>
      match identified e type content d with Some uid => (hdl, uid) :: l | None => l end
  end.

(** The runs of the server, with them. *)
Inductive run (d : D) : list (Z * Z) -> server D -> Prop :=
  | run_start : run d [] (mk_server d [])
  | run_step l s ev s' : run d l s -> Dispatch.step kdf parse_date addr_lt timestamp ext s ev s' ->
      run d (users_after (db s) ev l) s'.

Lemma run_reachable d l s : run d l s -> Dispatch.reachable kdf parse_date addr_lt timestamp ext d s.
Proof. induction 1; econstructor; eauto. Qed.
Lemma reachable_run d s : Dispatch.reachable kdf parse_date addr_lt timestamp ext d s -> exists l, run d l s.
Proof. induction 1 as [|s ev s' _ [l IH] Hs]; eexists; econstructor; eauto. Qed.

(** A session is well-formed and has the rights of a user identified on its connection, or of
    nobody. *)
Definition session_in (l : list (Z * Z)) (hdl : Z) (x : APISession) : Prop :=
  session_ok x /\ forall uid, security_ x = Some uid -> In (hdl, uid) l.

Lemma session_in_closed l : closed (session_in l).
Proof.
  split.
  - by split.
  - intros h x [_ Hx]. by split.
  - intros h x k k' [Hok Hx] Ha _. split; [|done]. unfold session_ok in Hok. rewrite Ha in Hok. split; cbn; [eauto|apply Hok].
Qed.

Lemma session_in_weaken l l' h x : (forall uid, In (h, uid) l -> In (h, uid) l') -> session_in l h x -> session_in l' h x.
Proof. intros Hl [Hok Hx]. split; [done|]. intros uid Hu. auto. Qed.

Lemma run_sessions d l s : run d l s -> sessions_in (session_in l) (sessions s).
Proof.
  induction 1 as [|l s ev s' Hr IH Hstep]; [constructor|].
  destruct Hstep as [s hdl|s hdl|s hdl e type content s' r _ Hh]; cbn [users_after].
  - unfold WSServer.on_open. destruct (session_of _ _); [done|]. cbn.
    apply Forall_app. split; [done|]. constructor; [|done]. by apply (closed_fresh _ (session_in_closed l)).
  - cbn. apply Forall_forall. intros p Hp. apply list_elem_of_In, List.filter_In in Hp as [Hp Hne].
    unfold sessions_in in IH. rewrite Forall_forall in IH. eapply session_in_weaken; [|by apply IH, list_elem_of_In].
    intros uid Hu. apply List.filter_In. by split.
  - pose proof (handle_request_sessions hdl e type content s) as Hs. rewrite Hh in Hs. cbn in Hs. rewrite Hs.
    set (l' := match identified e type content (db s) with Some uid => (hdl, uid) :: l | None => l end).
    assert (Hl : forall h uid, In (h, uid) l -> In (h, uid) l').
    { intros h uid. unfold l'. destruct (identified _ _ _ _); [by right|done]. }
    apply (dispatch_in _ (session_in_closed l')).
    + eapply Forall_impl; [exact IH|]. intros p Hp. eapply session_in_weaken; [|exact Hp]. auto.
    + intros x k _ _ Hi. split; [split; cbn; eauto|]. intros uid [= <-]. unfold l'. rewrite Hi. by left.
Qed.

Lemma run_ok d l s hdl x : run d l s -> session_of hdl (sessions s) = Some x -> session_in l hdl x.
Proof. intros Hr Hx. exact (session_of_in _ _ _ _ (run_sessions _ _ _ Hr) Hx). Qed.

(** * What the hook does *)

Lemma hook_cases s hdl ck x :
  session_of hdl (sessions s) = Some x -> session_ok x ->
  (exists s1 x1, APISession.hook_before_request hdl ck s = (s1, Ret tt) /\
     session_of hdl (sessions s1) = Some x1 /\ session_ok x1 /\
     auth_status_ x1 = auth_status_ x /\ security_ x1 = security_ x /\
     option_map Token.token_ (current_auth_token_ x1) = option_map Token.token_ (current_auth_token_ x) /\
     forall i, find_user (view (db s1)) i = find_user (view (db s)) i) \/
  (exists s1 e, APISession.hook_before_request hdl ck s = (s1, Throw e)).
Proof.
  intros Hx Hok. unfold APISession.hook_before_request. rewrite (session_bind _ _ _ _ Hx).
  destruct (auth_status_ x) eqn:Ea; [left; by exists s, x|].
  unfold session_ok in Hok. rewrite Ea in Hok. destruct Hok as ([k Hk] & Hsec).
  unfold transaction. rewrite Hk. unfold deref. rewrite lift_bind, get_db_bind.
  destruct (query_token (db s) (Token.token_ k)) as [k'|] eqn:Eq.
  - rewrite (reload_present _ _ _ Eq). pose proof (reload_name _ _ _ (reload_present _ _ _ Eq)) as Hn.
    rewrite put_session_bind. destruct (Token.is_valid _ _); [|right; by eauto].
    rewrite put_session_bind. unfold change_db. cbn [db sessions].
    destruct (update_token_result (Token.expire_in (expire_now ck) token_period k') (db s)) as [[d' E]|[e E]];
      rewrite E; [left|right; by eauto].
    eexists _, _. split; [done|]. cbn [db sessions]. rewrite put_put.
    split; [by apply (session_put _ _ _ x)|].
    split; [split; cbn; eauto|].
    cbn. rewrite Hn. repeat split; [done..|]. intros i. by apply (update_token_view _ _ _ _ E).
  - destruct (reload_missing _ _ Eq) as [e E]. rewrite E. right.
    destruct e; by eauto.
Qed.

(** A session that is not logged in passes the hook unchanged. *)
Lemma hook_none s hdl ck x :
  session_of hdl (sessions s) = Some x -> auth_status_ x = NONE ->
  APISession.hook_before_request hdl ck s = (s, Ret tt).
Proof.
  intros Hx Ha. unfold APISession.hook_before_request. by rewrite (session_bind _ _ _ _ Hx), Ha.
Qed.

(** An expired token aborts the session, which keeps its permissions. *)
Lemma hook_expired s hdl ck k k' uid :
  session_of hdl (sessions s) = Some (mk_session LOGGED_IN (Some k) (Some uid)) ->
  query_token (db s) (Token.token_ k) = Some k' -> Token.is_valid (valid_now ck) k' = false ->
  APISession.hook_before_request hdl ck s =
  (mk_server (db s) (put_session_in hdl (mk_session NONE None (Some uid)) (sessions s)), Throw SessionAborted).
Proof.
  intros Hx Hq Hv. unfold APISession.hook_before_request. rewrite (session_bind _ _ _ _ Hx). cbn [auth_status_].
  unfold transaction. cbn [current_auth_token_]. unfold deref. rewrite lift_bind, get_db_bind.
  rewrite (reload_present _ _ _ Hq), put_session_bind, Hv, put_session_bind.
  unfold throw, lift. cbn [db sessions security_]. by rewrite put_put.
Qed.

(** Enforcing permissions against the session's context. *)
Lemma enforce_granted s hdl x a ap perms :
  session_of hdl (sessions s) = Some x ->
  APISession.check_permission (db s) x a ap = Ret true ->
  enforce_permission hdl ((a, ap) :: perms) s = enforce_permission hdl perms s.
Proof.
  intros Hx Hc. cbn [enforce_permission].
  by rewrite (session_bind _ _ _ _ Hx), get_db_bind, Hc, lift_bind.
Qed.
Lemma enforce_denied s hdl x a ap perms :
  session_of hdl (sessions s) = Some x ->
  APISession.check_permission (db s) x a ap = Ret false ->
  enforce_permission hdl ((a, ap) :: perms) s = (s, Throw PermissionDenied).
Proof.
  intros Hx Hc. cbn [enforce_permission].
  by rewrite (session_bind _ _ _ _ Hx), get_db_bind, Hc, lift_bind.
Qed.

Abbreviation handle := (Dispatch.handle_request kdf parse_date addr_lt timestamp ext).

(** A request for a method of the table, once the hook has let it pass. *)
Lemma handle_method s s1 hdl e type content a :
  asio_handler ext type = None -> Dispatch.method_action type = Some a -> type <> "password_change" ->
  APISession.hook_before_request hdl (clk e) s = (s1, Ret tt) ->
  handle hdl e type content s =
  match (_ ← enforce_permission hdl [(a, SecurityContext.no_param)];
         method_impl ext type hdl content) s1 with
  | (s', Ret j) => (s', Ret (Dispatch.Success j))
  | (s', Throw ex) => (s', Ret (Dispatch.Failure (Dispatch.status_code ex)))
  | (s', Fault f) => (s', Fault f)
  end.
Proof.
  intros Hasio Ha Hpw Hh. unfold Dispatch.handle_request, Dispatch.dispatch_request. rewrite Hasio.
  rewrite (bind_at _ _ _ _ _ Hh). unfold Dispatch.individual_handler.
  rewrite (proj2 (String.eqb_neq _ _)) by done. rewrite Ha.
  unfold process_method. cbn [method_permission process_impl]. unfold mbind at 1, api_bind at 1.
  rewrite lift_bind. by destruct ((enforce_permission _ _ ≫= _) s1) as [s' []].
Qed.

Lemma logout_run s hdl x k :
  session_of hdl (sessions s) = Some x -> auth_status_ x = LOGGED_IN -> current_auth_token_ x = Some k ->
  (exists s', APISession.logout (J := J) hdl s = (s', Ret json_null) /\
     session_of hdl (sessions s') = Some APISession.fresh /\
     query_token (db s') (Token.token_ k) = None) \/
  (exists s' ex, APISession.logout (J := J) hdl s = (s', Throw ex)).
Proof.
  intros Hx Ha Hk. unfold APISession.logout. rewrite (session_bind _ _ _ _ Hx), Ha, Hk.
  rewrite bool_decide_eq_true_2 by done. unfold cassert. rewrite lift_bind.
  rewrite bool_decide_eq_true_2 by eauto. rewrite lift_bind. unfold deref. rewrite lift_bind.
  unfold APIAuth.invalidate_token, transaction, change_db.
  destruct (query_token (db s) (Token.token_ k)) as [t|] eqn:Eq.
  - destruct (erase_token_present _ _ _ Eq) as [d' Ed]. left. eexists. split.
    { erewrite bind_at by (rewrite Ed; reflexivity). by rewrite put_session_bind. }
    cbn. split; [by apply (session_put _ _ _ x)|].
    by rewrite (query_erase_token _ _ _ _ Ed), String.eqb_refl.
  - right. do 2 eexists. apply bind_throw. by rewrite (erase_token_missing _ _ Eq).
Qed.

Lemma login_succeeds s hdl e type content x s' j :
  type = "create_auth_token" \/ type = "authenticate_with_token" -> asio_handler ext type = None ->
  session_of hdl (sessions s) = Some x -> handle hdl e type content s = (s', Ret (Dispatch.Success j)) ->
  j = APISession.failed_reply /\ sessions s' = sessions s \/
  exists k uid, identified e type content (db s) = Some uid /\ Token.owner_ k = uid /\
    session_of hdl (sessions s') = Some (mk_session LOGGED_IN (Some k) (Some uid)).
Proof.
  intros Ht Hasio Hx Hh. destruct (auth_status_ x) eqn:Ea.
  - destruct (Dispatch.session_handler kdf ext hdl e type) as [h|] eqn:Es; [|by destruct Ht as [-> | ->]].
    assert (Hm : Dispatch.individual_handler kdf ext hdl e type = None) by (by destruct Ht as [-> | ->]).
    unfold Dispatch.handle_request, Dispatch.dispatch_request in Hh.
    rewrite Hasio, (bind_at _ _ _ _ _ (hook_none _ _ (clk e) _ Hx Ea)), Hm, Es in Hh.
    rewrite (session_bind _ _ _ _ Hx) in Hh.
    assert (Hal : APISession.allowed type x = true) by (unfold APISession.allowed; rewrite Ea; by destruct Ht as [-> | ->]).
    rewrite Hal in Hh. unfold mbind, api_bind in Hh. destruct (h content s) as [s1 [j1|ex|f]] eqn:Eh; [|done..].
    injection Hh as <- <-. destruct (login_sessions _ _ _ _ _ _ _ _ _ Ht Es Hx Ea Eh) as [[Hs Hj]|(k & Hs & Hi)].
    + left. split; [by apply Hj|done].
    + right. exists k, (Token.owner_ k). split_and!; [done|done|]. rewrite Hs. by apply (session_put _ _ _ x).
  - exfalso. unfold Dispatch.handle_request, Dispatch.dispatch_request in Hh. rewrite Hasio in Hh. unfold mbind, api_bind in Hh.
    destruct (APISession.hook_before_request hdl (clk e) s) as [s1 [[]|ex|f]] eqn:Eh; [|done..].
    destruct (hook_logged_in _ _ _ _ _ Hx Ea Eh) as (y & Hy & Hly).
    assert (Hm : Dispatch.individual_handler kdf ext hdl e type = None) by (by destruct Ht as [-> | ->]).
    rewrite Hm in Hh. destruct (Dispatch.session_handler kdf ext hdl e type) as [h|]; [|by destruct Ht as [-> | ->]].
    unfold session in Hh. rewrite Hy in Hh.
    assert (Hal : APISession.allowed type y = false) by (unfold APISession.allowed; rewrite Hly; by destruct Ht as [-> | ->]).
    by rewrite Hal in Hh.
Qed.

(** * Properties of sessions *)

(** C3: whatever connections, disconnections and requests the server has seen,
    every session is logged in exactly when it holds a token; it has then the rights of
    a user, and the rights it has, logged in or not, are those of a user who was
    identified on that connection since it opened, by the password of the account or by a
    valid token of theirs. A request to log in that succeeds leaves a session with a token
    and the rights of its owner, who is the user it identified. Logging out never aborts,
    whatever happened to the token meanwhile: when it succeeds the session holds nothing
    any more and the token is gone from the database. *)
Theorem sessions_consistent d l s hdl e content x :
  run d l s -> session_of hdl (sessions s) = Some x ->
  (session_ok x /\ forall uid, security_ x = Some uid -> In (hdl, uid) l) /\
  (forall type s' j, type = "create_auth_token" \/ type = "authenticate_with_token" -> asio_handler ext type = None ->
     handle hdl e type content s = (s', Ret (Dispatch.Success j)) ->
     j = APISession.failed_reply /\ sessions s' = sessions s \/
     exists k uid, identified e type content (db s) = Some uid /\ Token.owner_ k = uid /\
       session_of hdl (sessions s') = Some (mk_session LOGGED_IN (Some k) (Some uid))) /\
  (asio_handler ext "logout" = None ->
   exists s' r, handle hdl e "logout" content s = (s', Ret r) /\
    match r with
    | Dispatch.Success _ =>
        exists k, current_auth_token_ x = Some k /\
          session_of hdl (sessions s') = Some APISession.fresh /\
          query_token (db s') (Token.token_ k) = None
    | Dispatch.NoResponse => False
    | Dispatch.Failure _ => True
    end).
Proof.
  intros Hr Hx. pose proof (run_ok _ _ _ _ _ Hr Hx) as Hin. split; [exact Hin|]. destruct Hin as [Hok _].
  split; [intros type s' j Ht Hasio Hh; by eapply login_succeeds|]. intros Hasio.
  unfold Dispatch.handle_request, Dispatch.dispatch_request. rewrite Hasio.
  destruct (hook_cases s hdl (clk e) x Hx Hok)
    as [(s1 & x1 & Hh & Hx1 & Hok1 & Ha & _ & Htok & _)|(s1 & ex & Hh)].
  2: { rewrite (bind_throw _ _ _ _ _ Hh). by eexists _, (Dispatch.Failure _). }
  rewrite (bind_at _ _ _ _ _ Hh).
  change (Dispatch.individual_handler kdf ext hdl e "logout") with (@None (method D J)).
  change (Dispatch.session_handler kdf ext hdl e "logout")
    with (Some (fun _ : J => APISession.logout (D := D) (J := J) hdl)).
  cbn iota. rewrite (session_bind _ _ _ _ Hx1). unfold APISession.allowed. cbn [String.eqb Ascii.eqb Bool.eqb orb].
  unfold session_ok in Hok1. destruct (auth_status_ x1) eqn:Ea1.
  { by eexists _, (Dispatch.Failure _). }
  destruct Hok1 as ([k1 Hk1] & Hs1). rewrite Hk1 in Htok.
  destruct (current_auth_token_ x) as [k|] eqn:Ek; cbn in Htok; [|done]. injection Htok as Hname.
  cbn iota. rewrite bool_decide_eq_true_2 by done.
  destruct (logout_run s1 hdl x1 k1 Hx1 Ea1 Hk1) as [(s' & Hl & Hs' & Hq)|(s' & ex & Hl)].
  - rewrite (bind_at _ _ _ _ _ Hl). eexists s', (Dispatch.Success _). split; [done|].
    exists k. by rewrite <- Hname.
  - rewrite (bind_throw _ _ _ _ _ Hl). by eexists _, (Dispatch.Failure _).
Qed.

(** a session that ends on its own keeps its rights. When a logged-in
    session's token has expired, its next request is answered that the session
    is aborted; but the request after that is checked, again, with the
    permissions of the user it had: a method that user may call is run, without
    a token and for as long as the connection lasts. *)
Theorem aborted_session_keeps_rights s hdl e type content k k' uid :
  session_of hdl (sessions s) = Some (mk_session LOGGED_IN (Some k) (Some uid)) ->
  query_token (db s) (Token.token_ k) = Some k' -> Token.is_valid (valid_now (clk e)) k' = false ->
  asio_handler ext type = None ->
  exists s1, handle hdl e type content s = (s1, Ret (Dispatch.Failure 0x07)) /\
    session_of hdl (sessions s1) = Some (mk_session NONE None (Some uid)) /\ db s1 = db s /\
    forall e2 type2 content2 a s2 j,
      asio_handler ext type2 = None -> Dispatch.method_action type2 = Some a ->
      SecurityContext.check_permission (as_user_of uid (view (db s))) a SecurityContext.no_param = Ret true ->
      method_impl ext type2 hdl content2 s1 = (s2, Ret j) ->
      handle hdl e2 type2 content2 s1 = (s2, Ret (Dispatch.Success j)).
Proof.
  intros Hx Hq Hv Hasio. eexists. split.
  { unfold Dispatch.handle_request, Dispatch.dispatch_request. rewrite Hasio.
    by rewrite (bind_throw _ _ _ _ _ (hook_expired _ _ _ _ _ _ Hx Hq Hv)). }
  split; [by apply (session_put _ _ _ _ Hx)|]. split; [done|].
  intros e2 type2 content2 a s2 j Hasio2 Ha Hc Hm.
  set (s1 := mk_server _ _) in *.
  assert (Hx1 : session_of hdl (sessions s1) = Some (mk_session NONE None (Some uid)))
    by (apply (session_put _ _ _ _ Hx)).
  rewrite (handle_method s1 s1 hdl e2 type2 content2 a); [|done|done| |by apply (hook_none _ _ _ _ Hx1)].
  - erewrite bind_at; [|by erewrite (enforce_granted _ _ _ _ _ _ Hx1); [reflexivity|exact Hc]].
    by rewrite Hm.
  - intros ->. vm_compute in Ha. discriminate.
Qed.

(** What a connection without rights may ask for. *)
Definition open_to_all : list string := ["get_leosac_version"; "create_auth_token"; "authenticate_with_token"].

Lemma enforce_nobody s hdl p ps : session_of hdl (sessions s) = Some APISession.fresh ->
  enforce_permission hdl (p :: ps) s = (s, Throw PermissionDenied).
Proof. intros Hx. destruct p as [a ap]. by apply (enforce_denied _ _ _ _ _ _ Hx). Qed.

Lemma method_nobody s hdl e type m content :
  session_of hdl (sessions s) = Some APISession.fresh -> Dispatch.individual_handler kdf ext hdl e type = Some m ->
  exists r, process_method m hdl content s = (s, r) /\ (forall j, r <> Ret j) /\
    (forall p ps, method_permission m content = Ret (p :: ps) -> r = Throw PermissionDenied).
Proof.
  intros Hx Hm. unfold process_method. rewrite lift_bind.
  assert (Hne : method_permission m content <> Ret []).
  { revert Hm. unfold Dispatch.individual_handler. case_match.
    - intros [= <-]. cbn. unfold PasswordChange.required_permission. by destruct (j ← at_ content "user_id"; get_size_t j).
    - destruct (Dispatch.method_action type); [by intros [= <-]|done]. }
  destruct (method_permission m content) as [[|p ps]|ex|f]; [done|..|eexists; by split_and!|eexists; by split_and!].
  rewrite (bind_throw _ _ _ _ _ (enforce_nobody _ _ _ _ Hx)). eexists. by split_and!.
Qed.

Lemma verb_of_resource type res : Dispatch.resource_of type = Some res -> exists verb, verb_from_request_type type = Ret verb.
Proof.
  unfold Dispatch.resource_of, verb_from_request_type.
  destruct (ends_with type ".read"), (ends_with type ".create"), (ends_with type ".update"), (ends_with type ".delete"); eauto; done.
Qed.

Lemma crud_nobody s hdl e type c content :
  session_of hdl (sessions s) = Some APISession.fresh ->
  Dispatch.crud_handler kdf parse_date addr_lt timestamp ext hdl e type = Some c ->
  (forall res o verb, Dispatch.resource_of type = Some res -> other_crud ext res = Some o ->
     crud_permission (o hdl) verb content <> Ret []) ->
  exists r, process_crud c hdl type content s = (s, r) /\ (forall j, r <> Ret j) /\
    (forall verb p ps, verb_from_request_type type = Ret verb -> crud_permission c verb content = Ret (p :: ps) ->
       r = Throw PermissionDenied).
Proof.
  intros Hx Hc Hne. unfold Dispatch.crud_handler in Hc. destruct (Dispatch.resource_of type) as [res|] eqn:Er; [|done].
  destruct (verb_of_resource _ _ Er) as [verb Hv]. unfold process_crud. rewrite Hv, lift_bind, lift_bind.
  destruct (crud_permission c verb content) as [[|p ps]|ex|f] eqn:Ep.
  - rewrite (bind_at _ _ s s tt) by done.
    assert (Hu : exists r, match verb with
        | READ => read_impl c content | CREATE => create_impl c content
        | UPDATE => update_impl c content | DELETE => delete_impl c content end s = (s, r) /\ forall j, r <> Ret j).
    { revert Hc. case_match; [intros [= <-]|case_match; [intros [= <-]|]].
      - exfalso. cbn in Ep. unfold UserCRUD.permissions in Ep.
        destruct (match (j ← at_ content "user_id"; get_size_t j) with Throw JsonOutOfRange => _ | _ => _ end); cbn in Ep; [|done..].
        by destruct verb.
      - cbn in Ep. unfold MembershipCRUD.permissions in Ep.
        repeat (match type of Ep with context [mbind _ ?o] => destruct o; cbn [mbind outcome_bind] in Ep; [|done..] end).
        destruct verb; try done. eexists. by split.
      - destruct (other_crud ext res) as [o|] eqn:Eo; [|done]. intros [= <-]. by destruct (Hne _ _ verb eq_refl Eo). }
    destruct Hu as (r & -> & Hr). exists r. split_and!; [done|done|]. intros v p ps [= <-]. congruence.
  - rewrite (bind_throw _ _ _ _ _ (enforce_nobody _ _ _ _ Hx)). eexists. by split_and!.
  - eexists. split_and!; [done|done|]. intros v p ps [= <-]. congruence.
  - eexists. split_and!; [done|done|]. intros v p ps [= <-]. congruence.
Qed.

(** C17: on a connection on which nobody was identified since it opened, nothing but the version
    of the program and the two requests to log in is served, of what the server itself
    serves: whatever else is asked for, no handler runs to its end and the server is as
    before; when a permission is required, and for the other methods of a session, the answer is
    that it is denied. This is of handlers that require a permission, as all resources but the
    update of a membership do, which is not implemented; handlers that other modules registered by a
    method's name check for themselves. *)
Theorem anonymous_denied d l s hdl e type content x :
  run d l s -> session_of hdl (sessions s) = Some x -> (forall uid, ~ In (hdl, uid) l) ->
  asio_handler ext type = None ->
  (forall res o verb, Dispatch.resource_of type = Some res -> other_crud ext res = Some o ->
     crud_permission (o hdl) verb content <> Ret []) ->
  ~ In type open_to_all ->
  exists r, handle hdl e type content s = (s, r) /\ (forall j, r <> Ret (Dispatch.Success j)) /\ r <> Ret Dispatch.NoResponse /\
    (forall m p ps, Dispatch.individual_handler kdf ext hdl e type = Some m ->
       method_permission m content = Ret (p :: ps) -> r = Ret (Dispatch.Failure 0x02)) /\
    (Dispatch.individual_handler kdf ext hdl e type = None ->
     (is_Some (Dispatch.session_handler kdf ext hdl e type) -> r = Ret (Dispatch.Failure 0x02)) /\
     forall c verb p ps, Dispatch.session_handler kdf ext hdl e type = None ->
       Dispatch.crud_handler kdf parse_date addr_lt timestamp ext hdl e type = Some c ->
       verb_from_request_type type = Ret verb -> crud_permission c verb content = Ret (p :: ps) ->
       r = Ret (Dispatch.Failure 0x02)).
Proof.
  intros Hr Hx Hl Hasio Hperm Ht. destruct (run_ok _ _ _ _ _ Hr Hx) as [Hok Hin].
  assert (Hf : x = APISession.fresh).
  { destruct x as [st tok [uid|]]; [by destruct (Hl uid); apply Hin|]. unfold session_ok in Hok. cbn in Hok.
    destruct st; [by subst|]. by destruct Hok as [_ [? ?]]. }
  subst x. unfold Dispatch.handle_request, Dispatch.dispatch_request. rewrite Hasio.
  rewrite (bind_at _ _ _ _ _ (hook_none _ _ (clk e) _ Hx eq_refl)).
  destruct (Dispatch.individual_handler kdf ext hdl e type) as [m|] eqn:Em.
  { destruct (method_nobody _ _ _ _ _ content Hx Em) as (r & Hm & Hne & Hden). unfold mbind, api_bind. rewrite Hm.
    destruct r as [j|ex|f]; [by destruct (Hne j)|..]; eexists; (split_and!; [done|done|done|..|done]).
    - intros m' p ps [= <-] Hp. by injection (Hden _ _ Hp) as ->.
    - intros m' p ps [= <-] Hp. by specialize (Hden _ _ Hp). }
  destruct (Dispatch.session_handler kdf ext hdl e type) as [h|] eqn:Es.
  { rewrite (session_bind _ _ _ _ Hx).
    assert (Hal : APISession.allowed type APISession.fresh = false).
    { unfold APISession.allowed. cbn. cbn in Ht.
      rewrite !(proj2 (String.eqb_neq _ _)) by (intros ->; apply Ht; auto). done. }
    rewrite Hal. eexists. by split_and!. }
  destruct (Dispatch.crud_handler _ _ _ _ _ _ _ _) as [c|] eqn:Ec.
  - destruct (crud_nobody _ _ _ _ _ content Hx Ec Hperm) as (r & Hm & Hne & Hden). unfold mbind, api_bind. rewrite Hm.
    destruct r as [j|ex|f]; [by destruct (Hne j)|..]; eexists; (split_and!; [done|done|done|done|]); intros _;
      (split; [by intros [? ?]|]); intros c' verb p ps _ [= <-] Hv Hp.
    + by injection (Hden _ _ _ Hv Hp) as ->.
    + by specialize (Hden _ _ _ Hv Hp).
  - eexists. split_and!; [done|done|done|done|]. intros _. split; [by intros [? ?]|done].
Qed.

(** any user who is no administrator can stop the server: a request to
    search users, or hardware, checks an action the permission check has no
    case for, which aborts the program. *)
Theorem user_search_aborts s s1 hdl e type content x uid :
  type = "search.user_username" \/ type = "search.hardware_name" ->
  asio_handler ext type = None ->
  APISession.hook_before_request hdl (clk e) s = (s1, Ret tt) ->
  session_of hdl (sessions s1) = Some x -> security_ x = Some uid ->
  UserSecurityContext.is_admin (as_user_of uid (view (db s1))) = false ->
  handle hdl e type content s = (s1, Fault AssertFailed).
Proof.
  intros Htype Hasio Hh Hx Hsec Hadm.
  assert (exists a, Dispatch.method_action type = Some a /\ a ∈ unhandled) as (a & Ha & Hun).
  { destruct Htype as [-> | ->]; eexists; (split; [reflexivity|]);
      apply (bool_decide_unpack _); by vm_compute. }
  assert (type <> "password_change") by (by destruct Htype; subst).
  rewrite (handle_method s s1 hdl e type content a) by done.
  erewrite bind_fault; [reflexivity|]. cbn [enforce_permission].
  rewrite (session_bind _ _ _ _ Hx), get_db_bind. unfold APISession.check_permission. rewrite Hsec.
  change (SecurityContext.check_permission (as_user_of uid (view (db s1))) a SecurityContext.no_param)
    with (UserSecurityContext.check_permission_impl (as_user_of uid (view (db s1))) a SecurityContext.no_param).
  rewrite (proj2 (Facts.check_aborts _ _ _ Hadm) Hun). by rewrite lift_bind.
Qed.
End invariant.

(** * Witnesses *)

(** A key derivation, and a server with an administrator, two users and two
    groups. *)
Definition demo_kdf (pw salt : list Z) (_ : ScryptParam) : option (list Z) := Some (salt ++ pw).

Definition demo_account (id : Z) (name : string) (rank : UserRank) (pw : string) : User.t :=
  User.mk id name "" "" "" ValidityInfo.default rank
    (Some (mk_result scrypt_default [5] ([5] ++ password_bytes pw))).

Definition demo_board : Group.t := Group.mk 8 "board" "" [].

Definition demo_store : store :=
  mk_store {[ 1 := demo_account 1 "admin" ADMIN "root"; 3 := demo_account 3 "bob" USER "secret";
              9 := demo_account 9 "eve" USER "evil" ]}
           {[ 7 := demo_group; 8 := demo_board ]} ∅ ∅ [].

Definition demo_ext : others store json := {|
  asio_handler := fun _ => None;
  method_impl := fun _ _ _ => mret JNull;
  read_user := fun _ => mret JNull;
  create_user := fun _ => mret JNull;
  other_crud := fun _ => None;
  version_reply := JNull;
  overview_reply := JNull;
|}.

Lemma demo_ext_ok : others_ok demo_ext.
Proof. split; cbn; try done; intros; apply leaves_ret. Qed.

Definition demo_clock : clock := mk_clock 0 0 0.
Definition demo_entropy (token : string) : entropy := mk_entropy demo_clock token [6].
Definition no_date (_ : string) : option Z := None.
Definition no_address (_ _ : UserGroupMembership.t) : bool := false.
Definition no_time (_ : UserGroupMembership.t) : Z := 0.

Abbreviation demo_handle := (Dispatch.handle_request demo_kdf no_date no_address no_time demo_ext).

Definition login (name pw : string) : json := JObject [("username", JString name); ("password", JString pw)].

(** Connection 1, logged in as an ordinary user, then as the administrator. *)
Definition open_server : server store := WSServer.on_open 1 (mk_server demo_store []).
Definition bob_server : server store :=
  (demo_handle 1 (demo_entropy "t1") "create_auth_token" (login "bob" "secret") open_server).1.
Definition admin_server : server store :=
  (demo_handle 1 (demo_entropy "t1") "create_auth_token" (login "admin" "root") open_server).1.

Definition bob_token : Token.t := Token.mk "t1" 3 1200.
Definition admin_token : Token.t := Token.mk "t1" 1 1200.

Lemma bob_session : session_of 1 (sessions bob_server) = Some (mk_session LOGGED_IN (Some bob_token) (Some 3)).
Proof. vm_compute. reflexivity. Qed.
Lemma admin_session : session_of 1 (sessions admin_server) = Some (mk_session LOGGED_IN (Some admin_token) (Some 1)).
Proof. vm_compute. reflexivity. Qed.

Lemma bob_reachable : Dispatch.reachable demo_kdf no_date no_address no_time demo_ext demo_store bob_server.
Proof.
  eapply Dispatch.reach_step with (s := open_server)
    (ev := Dispatch.Message 1 (demo_entropy "t1") "create_auth_token" (login "bob" "secret")).
  - eapply Dispatch.reach_step; [apply Dispatch.reach_start|apply Dispatch.step_open].
  - eapply Dispatch.step_message; [discriminate|].
    apply injective_projections; [reflexivity|]. cbn [fst snd]. vm_compute. reflexivity.
Qed.

Lemma bob_run : run demo_kdf no_date no_address no_time demo_ext demo_store [(1, 3)] bob_server.
Proof.
  change [(1, 3)] with (users_after demo_kdf (db open_server)
    (Dispatch.Message 1 (demo_entropy "t1") "create_auth_token" (login "bob" "secret")) []).
  eapply run_step with (s := open_server).
  - change (@nil (Z * Z)) with (users_after (J := json) demo_kdf demo_store (Dispatch.Open 1) []) at 1.
    eapply (run_step _ _ _ _ _ _ [] (mk_server demo_store [])); [constructor|apply Dispatch.step_open].
  - eapply Dispatch.step_message; [discriminate|].
    apply injective_projections; [reflexivity|]. cbn [fst snd]. vm_compute. reflexivity.
Qed.

Lemma sessions_consistent_witness : In (1, 3) [(1, 3)] /\
  exists s' r, demo_handle 1 (demo_entropy "t2") "logout" JNull bob_server = (s', Ret r).
Proof.
  destruct (sessions_consistent demo_kdf no_date no_address no_time demo_ext demo_ext_ok demo_store [(1, 3)] bob_server 1
    (demo_entropy "t2") JNull _ bob_run bob_session) as ([_ Hin] & _ & Hlog).
  split; [exact (Hin 3 eq_refl)|]. destruct (Hlog eq_refl) as (s' & r & Hr & _). exists s', r. exact Hr.
Defined.

(** An hour later the administrator's token has expired: the server can still
    be restarted. *)
Definition later : entropy := mk_entropy (mk_clock 3600 3600 3600) "t2" [].

Lemma aborted_session_witness :
  exists s1 s2, demo_handle 1 later "get_logs" JNull admin_server = (s1, Ret (Dispatch.Failure 0x07)) /\
    demo_handle 1 later "restart" JNull s1 = (s2, Ret (Dispatch.Success JNull)).
Proof.
  destruct (aborted_session_keeps_rights demo_kdf no_date no_address no_time demo_ext admin_server 1 later
    "get_logs" JNull admin_token admin_token 1 admin_session) as (s1 & H1 & _ & _ & H2);
    [vm_compute; reflexivity..|].
  exists s1, s1. split; [exact H1|].
  apply (H2 later "restart" JNull SecurityContext.RESTART_SERVER);
    [reflexivity|reflexivity|vm_compute; reflexivity|reflexivity].
Defined.

Lemma open_run : run demo_kdf no_date no_address no_time demo_ext demo_store [] open_server.
Proof.
  change (@nil (Z * Z)) with (users_after (J := json) demo_kdf demo_store (Dispatch.Open 1) []).
  eapply (run_step _ _ _ _ _ _ [] (mk_server demo_store [])); [constructor|apply Dispatch.step_open].
Qed.

Lemma anonymous_denied_witness :
  demo_handle 1 later "restart" JNull open_server = (open_server, Ret (Dispatch.Failure 0x02)).
Proof.
  destruct (anonymous_denied demo_kdf no_date no_address no_time demo_ext demo_ext_ok demo_store [] open_server 1 later "restart" JNull
    APISession.fresh open_run) as (r & Hh & _ & _ & Hm & _).
  - reflexivity.
  - intros uid [].
  - reflexivity.
  - intros res o verb _ Ho. discriminate Ho.
  - cbn. intuition discriminate.
  - rewrite Hh. f_equal. eapply Hm; reflexivity.
Defined.

Lemma user_search_witness :
  exists s1, demo_handle 1 (demo_entropy "t2") "search.user_username" JNull bob_server = (s1, Fault AssertFailed).
Proof.
  eexists. eapply (user_search_aborts demo_kdf no_date no_address no_time demo_ext bob_server
    (APISession.hook_before_request (D := store) 1 demo_clock bob_server).1 1 (demo_entropy "t2") _ JNull
    (mk_session LOGGED_IN (Some bob_token) (Some 3)) 3);
    [left; reflexivity|reflexivity|vm_compute; reflexivity..].
Defined.
