(* ===== verification/Accounts.v ===== *)
(** Who can change which account through the API: the handlers of memberships,
    users and passwords. Theorems about [Api]. *)
From Stdlib Require Import ZArith Lia Ascii String.
From stdpp Require Import base tactics numbers list strings.
From S2P Require Import Prelude Json AuditLog Users Credentials Schedules Security Session Store Api ApiSafety.

Open Scope Z_scope.

(** Reading a successful request back, step by step. *)
Tactic Notation "api_inv" hyp(H) "as" ident(a) ident(E) :=
  let s1 := fresh "s" in
  apply bind_inv_ret in H as (a & s1 & E & H);
  let d := fresh "d" in
  lazymatch type of E with
  | get_db _ = _ => unfold get_db in E; injection E as <- <-
  | lift _ _ = _ => apply lift_inv in E as [-> E]
  | session _ _ = _ => apply session_inv in E as [-> E]
  | change_db _ _ = _ => apply change_db_inv in E as (d & E & ->)
  | _ => idtac
  end.

Section accounts.
Context {D : Type} `{OdbLaws D} {J : Type} `{Json J}.
Context (kdf : list Z -> list Z -> ScryptParam -> option (list Z)).
Context (parse_date : string -> option Z).
Context (addr_lt : UserGroupMembership.t -> UserGroupMembership.t -> bool).
Context (timestamp : UserGroupMembership.t -> Z).

(** * Users *)

(** What only a manager may change of a user, and who the user is. *)
Definition frame (u : User.t) := (User.id_ u, User.username_ u, User.rank_ u, User.validity_ u).

Lemma set_password_inv salt p u u' :
  User.set_password kdf salt p u = Ret u' ->
  frame u' = frame u /\
  exists key, kdf (password_bytes p) salt scrypt_default = Some key /\
    User.password_ u' = Some (mk_result scrypt_default salt key).
Proof.
  unfold User.set_password, Scrypt.Hash. destruct (kdf _ _ _) as [key|]; cbn; [|done].
  intros [= <-]. split; [done|]. by exists key.
Qed.

Lemma unserialize_frame check salt out (in_ : J) u :
  UserCRUD.unserialize kdf parse_date check salt out in_ = Ret u ->
  check SecurityContext.USER_UPDATE_RANK (SecurityContext.user (User.id_ out)) = Ret false ->
  check SecurityContext.USER_MANAGE_VALIDITY (SecurityContext.user (User.id_ out)) = Ret false ->
  frame u = frame out /\
  (forall pw p, find_ in_ "password" = Some pw -> is_string pw = true -> get_string pw = Ret p ->
   exists key, kdf (password_bytes p) salt scrypt_default = Some key /\
     User.password_ u = Some (mk_result scrypt_default salt key)).
Proof.
  unfold UserCRUD.unserialize. intros Hu Hr Hv.
  bind_inv Hu. cbn zeta in Hu. bind_inv Hu.
  set (out' := User.set_names a a0 a1 out) in *.
  assert (Hf : frame a2 = frame out /\ (forall pw p, find_ in_ "password" = Some pw ->
    is_string pw = true -> get_string pw = Ret p ->
    exists key, kdf (password_bytes p) salt scrypt_default = Some key /\
      User.password_ a2 = Some (mk_result scrypt_default salt key))).
  { destruct (find_ in_ "password") as [pw|]; [|injection E2 as <-; by split].
    destruct (is_string pw) eqn:Es; [|injection E2 as <-; split; [done|congruence]].
    destruct (get_string pw) as [p| |] eqn:Eg; cbn in E2; [|done..].
    apply set_password_inv in E2 as [Hf Hk]. split; [done|]. intros pw' p' Hpw' _ Hg. simplify_eq. rewrite Eg in Hg. by simplify_eq. }
  destruct Hf as [Hf Hpw]. assert (Hid : User.id_ a2 = User.id_ out) by (unfold frame in Hf; congruence).
  rewrite Hid, Hr in E3. injection E3 as <-. injection E4 as <-.
  rewrite Hid, Hv in E5. injection E5 as <-. by injection Hu as <-.
Qed.

(** A user who is not a manager, against the actions on users. *)
Lemma update_checks db uid i :
  UserSecurityContext.is_manager (as_user_of uid db) = false ->
  SecurityContext.check_permission (as_user_of uid db) SecurityContext.USER_UPDATE_RANK (SecurityContext.user i) = Ret false /\
  SecurityContext.check_permission (as_user_of uid db) SecurityContext.USER_MANAGE_VALIDITY (SecurityContext.user i) = Ret false /\
  SecurityContext.check_permission (as_user_of uid db) SecurityContext.USER_UPDATE (SecurityContext.user i) = Ret (uid =? i).
Proof.
  intros Hm. assert (Ha : UserSecurityContext.is_admin (as_user_of uid db) = false).
  { destruct (UserSecurityContext.is_admin _) eqn:E; [|done]. apply Facts.admin_manager in E. congruence. }
  unfold SecurityContext.check_permission. cbn [SecurityContext.check_permission_impl user_context].
  repeat split; rewrite Facts.check_unfold; unfold UserSecurityContext.check_step; rewrite Ha, ?Hm; [done..|].
  cbn. unfold UserSecurityContext.can_update_user. by rewrite Hm, orb_false_r.
Qed.

Lemma is_manager_ext db1 db2 uid :
  find_user db1 uid = find_user db2 uid ->
  UserSecurityContext.is_manager (as_user_of uid db1) = UserSecurityContext.is_manager (as_user_of uid db2).
Proof. unfold UserSecurityContext.is_manager. cbn. by intros ->. Qed.

(** What a successful update by such a user did. *)
Lemma user_update_run read create s hdl salt x uid (req : J) s' j :
  session_of hdl (sessions s) = Some x -> security_ x = Some uid ->
  UserSecurityContext.is_manager (as_user_of uid (view (db s))) = false ->
  process_crud (UserCRUD.handler kdf parse_date read create hdl salt) hdl "user.update" req s = (s', Ret j) ->
  exists u u', find_user (view (db s)) uid = Some u /\ frame u' = frame u /\
    (forall i, find_user (view (db s')) i = if i =? uid then Some u' else find_user (view (db s)) i) /\
    sessions s' = sessions s /\
    (forall attrs pw p, at_ req "attributes" = Ret attrs -> find_ attrs "password" = Some pw ->
     is_string pw = true -> get_string pw = Ret p ->
     exists key, kdf (password_bytes p) salt scrypt_default = Some key /\
       User.password_ u' = Some (mk_result scrypt_default salt key)).
Proof.
  intros Hx Hsec Hm Hrun. unfold process_crud in Hrun.
  change (verb_from_request_type "user.update") with (Ret UPDATE) in Hrun. rewrite lift_bind in Hrun.
  cbn [crud_permission UserCRUD.handler update_impl] in Hrun.
  api_inv Hrun as perms Hperms. api_inv Hrun as t Henf.
  unfold UserCRUD.permissions in Hperms. apply bind_Ret in Hperms as (pid & Hpid & [= <-]).
  destruct (update_checks (view (db s)) uid pid Hm) as (_ & _ & Hcu).
  assert (Hchk : forall a ap, APISession.check_permission (db s) x a ap =
    SecurityContext.check_permission (as_user_of uid (view (db s))) a ap)
    by (intros; unfold APISession.check_permission; by rewrite Hsec).
  destruct (Z.eqb_spec uid pid) as [<-|Hne].
  2: { rewrite (enforce_denied s hdl x _ _ _ Hx) in Henf by (rewrite Hchk, Hcu; reflexivity). discriminate. }
  rewrite (enforce_granted s hdl x _ _ _ Hx) in Henf by (rewrite Hchk, Hcu; reflexivity).
  cbn [enforce_permission] in Henf. injection Henf as <- _.
  apply transaction_inv_ret in Hrun. api_inv Hrun as rid Hrid. rewrite Hrid in Hpid. injection Hpid as ->.
  api_inv Hrun as attrs Hattrs. api_inv Hrun as d0 Hd0. api_inv Hrun as u Hu. api_inv Hrun as t1 Ht1.
  api_inv Hrun as t2 Haudit. api_inv Hrun as name Hname. api_inv Hrun as y Hy.
  api_inv Hrun as d2 Hd2. api_inv Hrun as u' Hu'. cbn [db sessions] in *.
  rewrite Hx in Hy. injection Hy as <-.
  assert (Hsame : forall i, find_user (view d) i = find_user (view (db s)) i)
    by (intros; by apply (persist_audit_users _ _ _ _ Haudit)).
  apply unserialize_frame in Hu' as [Hf Hpw].
  2,3: unfold APISession.check_permission; rewrite Hsec; apply update_checks;
    by rewrite (is_manager_ext _ _ _ (Hsame uid)).
  unfold DBService.find_user_by_id in Hu. destruct (find_user (view (db s)) uid) as [v|] eqn:Ev; [|done].
  cbn in Hu. injection Hu as ->.
  destruct (_ && _ && _); [done|].
  api_inv Hrun as t3 Hup. api_inv Hrun as n2 Hn2. injection Hrun as <- <-. cbn [db sessions].
  assert (Hid : User.id_ u' = uid).
  { rewrite (f_equal (fun f => f.1.1.1) Hf : User.id_ u' = User.id_ u). by apply (find_user_id _ _ _ Ev). }
  exists u, u'. split; [done|]. split; [done|]. split.
  - intros i. by rewrite (update_user_find _ _ _ _ Hup), Hid, Hsame.
  - split; [done|]. intros attrs' pw p Ha. rewrite Hattrs in Ha. injection Ha as <-. apply Hpw.
Qed.

(** C16: a user below manager can only edit their own account, and there only
    their names, address and password: whatever the request holds, the rank,
    the validity and the user name stay, and so does every other account. *)
Theorem user_update_confined read create s hdl salt x uid (req : J) s' j :
  session_of hdl (sessions s) = Some x -> security_ x = Some uid ->
  UserSecurityContext.is_manager (as_user_of uid (view (db s))) = false ->
  process_crud (UserCRUD.handler kdf parse_date read create hdl salt) hdl "user.update" req s = (s', Ret j) ->
  exists u u', find_user (view (db s)) uid = Some u /\ frame u' = frame u /\
    (forall i, find_user (view (db s')) i = if i =? uid then Some u' else find_user (view (db s)) i) /\
    sessions s' = sessions s.
Proof.
  intros Hx Hsec Hm Hrun.
  destruct (user_update_run _ _ _ _ _ _ _ _ _ _ Hx Hsec Hm Hrun) as (u & u' & Hu & Hf & Hfind & Hs & _).
  by exists u, u'.
Qed.

(** the current password is not always asked for: an edit of one's own
    account whose attributes hold a new password sets it, without the current
    one and without ending the user's other sessions, which [password_change]
    requires and does. *)
Theorem own_password_unchecked read create s hdl salt x uid (req : J) s' j attrs pw p :
  session_of hdl (sessions s) = Some x -> security_ x = Some uid ->
  UserSecurityContext.is_manager (as_user_of uid (view (db s))) = false ->
  at_ req "attributes" = Ret attrs -> find_ attrs "password" = Some pw -> is_string pw = true ->
  get_string pw = Ret p ->
  process_crud (UserCRUD.handler kdf parse_date read create hdl salt) hdl "user.update" req s = (s', Ret j) ->
  sessions s' = sessions s /\
  exists u', find_user (view (db s')) uid = Some u' /\ User.verify_password kdf p u' = Ret true.
Proof.
  intros Hx Hsec Hm Ha Hpw Hs Hp Hrun.
  destruct (user_update_run _ _ _ _ _ _ _ _ _ _ Hx Hsec Hm Hrun) as (u & u' & Hu & Hf & Hfind & Hse & Hk).
  split; [done|]. exists u'. rewrite Hfind, Z.eqb_refl. split; [done|].
  destruct (Hk attrs pw p Ha Hpw Hs Hp) as (key & Hkey & Hpass).
  unfold User.verify_password, Scrypt.Verify, Scrypt.Hash. rewrite Hpass. cbn. rewrite Hkey. cbn.
  by rewrite bool_decide_eq_true_2.
Qed.

(** * Memberships *)

(** Adding to a group one operates is granted. *)
Lemma join_granted db uid m g r :
  find_group db (SecurityContext.group_id m) = Some g -> Group.member_has uid g = Some r ->
  group_rank_val GOPERATOR <= group_rank_val r -> group_rank_val (SecurityContext.rank m) <= group_rank_val r ->
  SecurityContext.check_permission (as_user_of uid db) SecurityContext.GROUP_MEMBERSHIP_JOINED
    (SecurityContext.membership m) = Ret true.
Proof.
  intros Hg Hr H1' H2'. unfold SecurityContext.check_permission.
  cbn [SecurityContext.check_permission_impl user_context]. rewrite Facts.check_unfold.
  unfold UserSecurityContext.check_step. destruct (UserSecurityContext.is_admin _); [done|].
  cbn. unfold UserSecurityContext.can_create_membership. destruct (UserSecurityContext.is_manager _); [done|].
  unfold DBService.find_group_by_id. cbn [as_user_of UserSecurityContext.dbsrv_ UserSecurityContext.user_id_].
  rewrite Hg. cbn. rewrite Hr. f_equal. apply andb_true_iff. by rewrite !Z.leb_le.
Qed.

Lemma find_member uid g r :
  Group.member_has uid g = Some r ->
  exists m, List.find (fun m => UserGroupMembership.user_id m =? uid) (Group.membership_ g) = Some m.
Proof. unfold Group.member_has. destruct (List.find _ _) as [m|]; [by exists m|done]. Qed.

(** What a membership's removal or creation that went through was checked for. *)
Lemma membership_checked verb type s s' hdl x uid content (j : J) :
  session_of hdl (sessions s) = Some x -> security_ x = Some uid -> verb_from_request_type type = Ret verb ->
  process_crud (MembershipCRUD.handler addr_lt timestamp) hdl type content s = (s', Ret j) ->
  exists mid uid' gid rank,
    JSONUtil.extract_with_default get_unsigned content "membership_id" 0 = Ret mid /\
    JSONUtil.extract_with_default get_unsigned content "group_id" 0 = Ret gid /\
    JSONUtil.extract_with_default get_unsigned content "rank" 0 = Ret rank /\
    let m := SecurityContext.membership (SecurityContext.mk_membership mid gid uid' (group_rank_of (as_int32 rank))) in
    let allowed a := SecurityContext.check_permission (as_user_of uid (view (db s))) a m = Ret true in
    match verb with
    | CREATE => allowed SecurityContext.GROUP_MEMBERSHIP_JOINED /\ MembershipCRUD.create addr_lt timestamp content s = (s', Ret j)
    | DELETE => allowed SecurityContext.GROUP_MEMBERSHIP_LEFT /\ MembershipCRUD.delete content s = (s', Ret j)
    | _ => True
    end.
Proof using Type.
  intros Hx Hsec Hv Hr. unfold process_crud in Hr. rewrite Hv, lift_bind in Hr.
  api_inv Hr as perms Hp. cbn [crud_permission MembershipCRUD.handler] in Hp. unfold MembershipCRUD.permissions in Hp.
  apply bind_Ret in Hp as (mid & Hmid & Hp). apply bind_Ret in Hp as (uid' & _ & Hp).
  apply bind_Ret in Hp as (gid & Hgid & Hp). apply bind_Ret in Hp as (rank & Hrank & [= <-]).
  exists mid, uid', gid, rank. split_and!; [done..|].
  assert (Henf : forall a ap u s1, enforce_permission hdl [(a, ap)] s = (s1, Ret u) ->
    s1 = s /\ SecurityContext.check_permission (as_user_of uid (view (db s))) a ap = Ret true).
  { intros a ap u s1. cbn [enforce_permission]. rewrite (session_bind _ _ _ _ Hx), get_db_bind.
    unfold APISession.check_permission. rewrite Hsec. destruct (SecurityContext.check_permission _ a ap) as [[]| |]; [|done..].
    rewrite lift_bind. by intros [= <-]. }
  destruct verb; [done|..]; [| done|]; api_inv Hr as u Hu; apply Henf in Hu as [-> Hc]; by split.
Qed.

(** The permission's reading of an id or a rank and the handler's. *)
Lemma unsigned_small (obj : J) key jm i : at_ obj key = Ret jm -> is_null jm = false -> get_number jm = Ret i -> 0 <= i < 2 ^ 32 ->
  JSONUtil.extract_with_default get_unsigned obj key 0 = Ret i /\ (j ← at_ obj key; get_size_t j) = Ret i.
Proof using Type.
  intros Ha Hn Hg Hi. unfold JSONUtil.extract_with_default, get_unsigned, get_size_t, as_unsigned, as_size_t.
  rewrite Ha, Hn. cbn [mbind outcome_bind]. rewrite Hg. cbn [mbind outcome_bind]. split; f_equal; apply Z.mod_small; lia.
Qed.

(** C33: a user below manager who has a membership removed, whose id fits 32 bits, had their own removed, or one of a
    group they are an operator of, of a rank not above theirs: that row is erased, and nothing
    else but the audit changes. A user below manager who has a member added is an operator of the group that the request
    names beside its attributes, with a rank not below the one named there. What is added is what the
    attributes name; when these name the same group and rank, the new member
    has that rank in that group and the other members have theirs as before. *)
Theorem membership_changes_confined s s' hdl x uid content (j : J) :
  session_of hdl (sessions s) = Some x -> security_ x = Some uid ->
  UserSecurityContext.is_manager (as_user_of uid (view (db s))) = false ->
  (forall jm mid, at_ content "membership_id" = Ret jm -> is_null jm = false -> get_number jm = Ret mid -> 0 <= mid < 2 ^ 32 ->
     process_crud (MembershipCRUD.handler addr_lt timestamp) hdl "user-group-membership.delete" content s = (s', Ret j) ->
     exists ms, find_membership (view (db s)) mid = Some ms /\
       ((exists u, find_user (view (db s)) (UserGroupMembership.user_id ms) = Some u /\ User.id_ u = uid) \/
        outranks (view (db s)) (UserGroupMembership.group_id ms) uid (group_rank_val (UserGroupMembership.rank_ ms))) /\
       sessions s' = sessions s /\
       exists d, persist_audit [GROUP_MEMBERSHIP_LEFT] (db s) = Ret d /\ erase_membership mid d = Ret (db s')) /\
  (process_crud (MembershipCRUD.handler addr_lt timestamp) hdl "user-group-membership.create" content s = (s', Ret j) ->
   exists gid rank,
     JSONUtil.extract_with_default get_unsigned content "group_id" 0 = Ret gid /\
     JSONUtil.extract_with_default get_unsigned content "rank" 0 = Ret rank /\
     outranks (view (db s)) gid uid (group_rank_val (group_rank_of (as_int32 rank))) /\
     forall attrs u, at_ content "attributes" = Ret attrs -> (j ← at_ attrs "user_id"; get_size_t j) = Ret u -> u <> 0 ->
       (j ← at_ attrs "group_id"; get_size_t j) = Ret gid -> (j ← at_ attrs "rank"; get_size_t j) = Ret rank ->
       (forall g, find_group (view (db s)) gid = Some g -> group_ok g /\ Group.id_ g = gid) ->
       exists g g', find_group (view (db s)) gid = Some g /\ find_group (view (db s')) gid = Some g' /\
         forall v, Group.member_has v g' = if v =? u then Some (group_rank_of (as_int32 rank)) else Group.member_has v g).
Proof.
  intros Hx Hsec Hm. split.
  - intros jm mid Ha Hn Hg Hi Hr. destruct (unsigned_small _ _ _ _ Ha Hn Hg Hi) as [Hperm Hget].
    destruct (membership_checked DELETE "user-group-membership.delete" _ _ _ _ _ _ _ Hx Hsec eq_refl Hr) as (mid' & uid' & gid & rank & Hmid & _ & _ & Hc & Hd).
    rewrite Hperm in Hmid. injection Hmid as <-. apply (proj2 (no_group_escalation _ _ _ Hm)) in Hc as (ms & Hms & Ho). cbn in Hms.
    exists ms. split; [done|]. split; [exact Ho|]. unfold MembershipCRUD.delete in Hd. apply transaction_inv_ret in Hd.
    rewrite Hget, lift_bind, get_db_bind in Hd. unfold DBService.find_membership_by_id in Hd. rewrite Hms in Hd. cbn [DBService.or_throw] in Hd.
    rewrite lift_bind in Hd. api_inv Hd as g Hg'. api_inv Hd as u Hu. api_inv Hd as t Ht.
    unfold MembershipCRUD.audit in Ht. api_inv Ht as g1 Hg1. api_inv Ht as t1 Ht1. api_inv Ht as u1 Hu1. api_inv Ht as t2 Ht2.
    apply change_db_inv in Ht as (d & Hd1 & ->). api_inv Hd as d2 Hd2.
    injection Hd as <- _. cbn in *. eauto.
  - intros Hr. destruct (membership_checked CREATE "user-group-membership.create" _ _ _ _ _ _ _ Hx Hsec eq_refl Hr) as (mid' & uid' & gid & rank & _ & Hgid & Hrank & Hc & Hd).
    exists gid, rank. split_and!; [done|done|by apply (proj1 (no_group_escalation _ _ _ Hm)) in Hc|].
    intros attrs u Ha Hu Hnz Hg Hrk Hok. unfold MembershipCRUD.create in Hd. apply transaction_inv_ret in Hd.
    assert (Hrk' : (j ← at_ attrs "rank"; z ← get_size_t j; Ret (group_rank_of (as_int32 z))) = Ret (group_rank_of (as_int32 rank)))
      by (rewrite <- bind_assoc, Hrk; done).
    rewrite Ha, lift_bind, Hg, lift_bind, Hu, lift_bind, Hrk', lift_bind, get_db_bind in Hd.
    unfold DBService.find_group_by_id, DBService.find_user_by_id in Hd.
    destruct (find_group (view (db s)) gid) as [g|] eqn:Eg; [|done]. destruct (find_user (view (db s)) u) as [t|] eqn:Et; [|done].
    cbn [DBService.or_throw] in Hd. rewrite !lift_bind in Hd. pose proof (find_user_id _ _ _ Et) as Hid. destruct (Hok g eq_refl) as [Hgok Hgi].
    api_inv Hd as q Hq. rewrite Hid in Hd. destruct (Group.member_has u g) eqn:Eh.
    { api_inv Hd as nm Hnm. done. }
    destruct (Group.member_add addr_lt u (group_rank_of (as_int32 rank)) g) as [g2 ugm] eqn:Ea.
    api_inv Hd as d1 Hd1. api_inv Hd as gd Hgd. destruct gd as [g3 d3]. destruct (update_group_find _ _ _ _ Hgd) as [Hf Hh].
    exists g, g3. split; [done|]. split.
    + api_inv Hd as t4 Ht4. injection Ht4 as <- _. api_inv Hd as m Hmem. injection Hd as <- _. cbn [db].
      assert (Hg2 : Group.id_ g2 = gid) by (unfold Group.member_add in Ea; by injection Ea as <- _).
      by rewrite <- Hg2.
    + intros v. rewrite Hh. pose proof (member_has_add addr_lt u (group_rank_of (as_int32 rank)) g v Hgok Hnz) as Hadd.
      rewrite Ea, Eh in Hadd. exact Hadd.
Qed.

(** the permission to add a member is checked for another group than the
    one changed. The check reads the group and the rank beside [attributes],
    the handler inside it: an operator of any group adds anyone, themselves
    included, to any other group and with any rank, administrator included. *)
Theorem membership_check_bypassed s hdl x uid content attrs mid uid' gid1 g1 r gid2 g2 u2 target z :
  session_of hdl (sessions s) = Some x -> security_ x = Some uid ->
  JSONUtil.extract_with_default get_unsigned content "membership_id" 0 = Ret mid ->
  JSONUtil.extract_with_default get_unsigned content "user_id" 0 = Ret uid' ->
  JSONUtil.extract_with_default get_unsigned content "group_id" 0 = Ret gid1 ->
  JSONUtil.extract_with_default get_unsigned content "rank" 0 = Ret 0 ->
  find_group (view (db s)) gid1 = Some g1 -> Group.member_has uid g1 = Some r ->
  group_rank_val GOPERATOR <= group_rank_val r ->
  at_ content "attributes" = Ret attrs ->
  (j ← at_ attrs "group_id"; get_size_t j) = Ret gid2 ->
  (j ← at_ attrs "user_id"; get_size_t j) = Ret u2 ->
  (j ← at_ attrs "rank"; get_size_t j) = Ret z ->
  find_group (view (db s)) gid2 = Some g2 -> group_ok g2 -> Group.id_ g2 = gid2 ->
  find_user (view (db s)) u2 = Some target -> u2 <> 0 -> Group.member_has u2 g2 = None ->
  exists s' j g2',
    process_crud (MembershipCRUD.handler addr_lt timestamp) hdl "user-group-membership.create" content s = (s', Ret j) /\
    find_group (view (db s')) gid2 = Some g2' /\
    Group.member_has u2 g2' = Some (group_rank_of (as_int32 z)).
Proof.
  intros Hx Hsec Hmid Huid Hgid1 Hrank Hg1 Hr Hop Hattrs Hgid2 Hu2 Hz Hg2 Hok Hgid Ht Hnz Hno.
  unfold process_crud. change (verb_from_request_type "user-group-membership.create") with (Ret CREATE).
  rewrite lift_bind. cbn [crud_permission MembershipCRUD.handler create_impl].
  unfold MembershipCRUD.permissions. rewrite Hmid, Huid, Hgid1, Hrank. cbn [mbind outcome_bind]. rewrite lift_bind.
  erewrite bind_at.
  2: { rewrite (enforce_granted s hdl x _ _ _ Hx); [reflexivity|].
       unfold APISession.check_permission. rewrite Hsec.
       apply (join_granted _ _ (SecurityContext.mk_membership mid gid1 uid' (group_rank_of (as_int32 0)))
                g1 r Hg1 Hr Hop).
       by apply (Z.le_trans _ (group_rank_val GOPERATOR)). }
  pose proof (find_user_id _ _ _ Ht) as Htid.
  assert (Hz' : (j ← at_ attrs "rank"; z ← get_size_t j; Ret (group_rank_of (as_int32 z))) =
                Ret (group_rank_of (as_int32 z))) by (rewrite <- bind_assoc, Hz; done).
  destruct (persist_audit_total [GROUP_MEMBERSHIP_JOINED] (db s)) as [d1 Hd1].
  pose proof (persist_audit_groups _ _ _ gid2 Hd1) as Hg2'. rewrite Hg2 in Hg2'.
  set (rank := group_rank_of (as_int32 z)) in *.
  pose proof (member_has_add addr_lt u2 rank g2 u2 Hok Hnz) as Hadd. rewrite Z.eqb_refl, Hno in Hadd.
  unfold MembershipCRUD.create, transaction.
  rewrite Hattrs, lift_bind, Hgid2, lift_bind, Hu2, lift_bind, Hz', lift_bind, get_db_bind.
  unfold DBService.find_group_by_id, DBService.find_user_by_id.
  rewrite Hg2, Ht. cbn [DBService.or_throw]. rewrite !lift_bind.
  assert (Haud : MembershipCRUD.audit (Some g2) (Some target) GROUP_MEMBERSHIP_JOINED s =
                 (mk_server d1 (sessions s), Ret tt)).
  { unfold MembershipCRUD.audit. rewrite !bool_decide_eq_true_2 by eauto. cbn [cassert mbind outcome_bind deref].
    rewrite lift_bind. rewrite (proj2 (Z.eqb_neq _ _)) by apply Hok. rewrite lift_bind, lift_bind.
    rewrite Htid, (proj2 (Z.eqb_neq _ _)) by done. rewrite lift_bind. unfold change_db. by rewrite Hd1. }
  rewrite (bind_at _ _ _ _ _ Haud), Htid, Hno.
  destruct (Group.member_add addr_lt u2 rank g2) as [g3 ugm] eqn:Eadd.
  assert (Hugm : UserGroupMembership.user_id ugm = u2) by (unfold Group.member_add in Eadd; by simplify_eq).
  assert (Hg3 : Group.id_ g3 = gid2) by (unfold Group.member_add in Eadd; by simplify_eq).
  rewrite get_db_bind. cbn [db].
  destruct (update_group_present g3 g2 d1) as (g4 & d2 & Hup); [by rewrite Hg3|].
  destruct (update_group_find _ _ _ _ Hup) as [Hfind Hhas].
  cbn in Hadd. rewrite <- (Hhas u2) in Hadd. rewrite Hup, lift_bind.
  destruct (find_member _ _ _ Hadd) as [m Hm]. rewrite Hugm.
  erewrite bind_at by reflexivity. rewrite Hm. cbn [deref]. rewrite lift_bind.
  eexists _, _, g4. split; [reflexivity|]. by rewrite <- Hg3.
Qed.

(** * Passwords *)

(** Erasing tokens succeeds exactly when they are distinct and all there. *)
Definition erasable (d : D) (l : list string) : Prop :=
  NoDup l /\ Forall (fun k => is_Some (query_token d k)) l.

Lemma erase_tokens_run l s :
  exists s', sessions s' = sessions s /\
    (forall i, find_user (view (db s')) i = find_user (view (db s)) i) /\
    ((WSServer.erase_tokens l s = (s', Ret tt) /\ erasable (db s) l /\
      forall k, query_token (db s') k = if bool_decide (k ∈ l) then None else query_token (db s) k) \/
     (WSServer.erase_tokens l s = (s', Throw ObjectNotPersistent) /\ ~ erasable (db s) l)).
Proof.
  revert s. induction l as [|k l IH]; intros s; cbn [WSServer.erase_tokens].
  { exists s. split; [done|]. split; [done|]. left. by repeat split; try constructor. }
  destruct (query_token (db s) k) as [t|] eqn:Ek.
  2: { exists s. split; [done|]. split; [done|]. right. split.
       - apply bind_throw. unfold change_db. by rewrite (erase_token_missing _ _ Ek).
       - intros [_ Hall]. apply Forall_cons in Hall as [[t Ht] _]. congruence. }
  destruct (erase_token_present _ _ _ Ek) as [d1 Hd1]. rewrite (change_db_bind _ _ _ _ Hd1).
  pose proof (fun i => query_erase_token _ _ _ i Hd1) as Hq.
  destruct (IH (mk_server d1 (sessions s))) as (s' & Hs & Hu & [(Hr & [Hnd Hall] & Htok)|(Hr & Hn)]);
    cbn [db sessions] in *; exists s'; (split; [done|]); split.
  1,3: intros i; rewrite Hu; by apply (erase_token_users _ _ _ _ Hd1).
  - left. split; [done|]. split; [split|].
    + constructor; [|done]. intros Hin. rewrite Forall_forall in Hall. destruct (Hall _ Hin) as [? E].
      by rewrite Hq, String.eqb_refl in E.
    + constructor; [by rewrite Ek|]. eapply Forall_impl; [exact Hall|]. intros i [t' Ht']. rewrite Hq in Ht'.
      destruct (String.eqb i k); [done|]. by rewrite Ht'.
    + intros i. rewrite Htok, Hq. destruct (String.eqb_spec i k) as [->|Hne].
      * rewrite (bool_decide_eq_true_2 (k ∈ k :: l)) by constructor. by case_bool_decide.
      * rewrite (bool_decide_ext (i ∈ l) (i ∈ k :: l)); [done|]. rewrite elem_of_cons. split; [by right|by intros [->|?]].
  - right. split; [done|]. intros [Hnd Hall]. apply Hn. apply NoDup_cons in Hnd as [Hni Hnd].
    apply Forall_cons in Hall as [_ Hall]. split; [done|]. rewrite Forall_forall in *. intros i Hi.
    rewrite Hq. destruct (String.eqb_spec i k) as [->|]; [done|]. by apply Hall.
Qed.

Lemma transaction_bind_ext {A B} (m n : api D A) (k : A -> api D B) s :
  m s = n s -> (transaction m ≫= k) s = (transaction n ≫= k) s.
Proof. unfold mbind, api_bind, transaction. by intros ->. Qed.

(** The session that asked is not closed. *)
Lemma session_of_clear uid hdl l x :
  session_of hdl l = Some x -> session_of hdl (map (WSServer.clear_session uid hdl) l) = Some x.
Proof.
  induction l as [|[h y] l IH]; cbn; [done|]. unfold WSServer.clear_session at 1, WSServer.concerned.
  destruct (Z.eqb_spec h hdl) as [->|Hn]; cbn.
  - rewrite Z.eqb_refl, andb_false_r. cbn. by rewrite Z.eqb_refl.
  - intros Hl. rewrite (proj2 (Z.eqb_neq _ _) Hn), andb_true_r.
    destruct (_ =? uid); cbn; rewrite (proj2 (Z.eqb_neq _ _) Hn); by apply IH.
Qed.

(** ** The other sessions of a user *)

(** The connection [p] is not [hdl] and its session holds a token of the user. *)
Definition other_session (uid hdl : Z) (p : Z * APISession) : Prop :=
  p.1 <> hdl /\ exists k, current_auth_token_ p.2 = Some k /\ Token.owner_ k = uid.
#[export] Instance other_session_dec uid hdl p : Decision (other_session uid hdl p).
Proof using Type.
  unfold other_session. destruct (current_auth_token_ p.2) as [k|].
  - destruct (decide (p.1 <> hdl /\ Token.owner_ k = uid)); [left|right]; naive_solver.
  - right. naive_solver.
Defined.

(** The tokens they hold. *)
Definition other_tokens (uid hdl : Z) (l : list (Z * APISession)) : list string :=
  omap (fun p => if decide (other_session uid hdl p) then Token.token_ <$> current_auth_token_ p.2 else None) l.

(** They are closed: no longer logged in, with no token. Any other session is as it was. *)
Definition others_closed (uid hdl : Z) (l l' : list (Z * APISession)) : Prop :=
  Forall2 (fun p p' => p'.1 = p.1 /\
    if decide (other_session uid hdl p) then auth_status_ p'.2 = NONE /\ current_auth_token_ p'.2 = None
    else p' = p) l l'.

Lemma concerned_other uid hdl p : uid <> 0 -> WSServer.concerned uid hdl p = bool_decide (other_session uid hdl p).
Proof using Type.
  intros Hnz. apply Bool.eq_iff_eq_true. unfold WSServer.concerned, APISession.current_user_id, other_session.
  rewrite bool_decide_eq_true, andb_true_iff, negb_true_iff, Z.eqb_eq, Z.eqb_neq.
  destruct (current_auth_token_ p.2) as [k|]; naive_solver.
Qed.

Lemma removed_others uid hdl l : uid <> 0 -> WSServer.tokens_to_remove uid hdl l = other_tokens uid hdl l.
Proof using Type.
  intros Hnz. unfold WSServer.tokens_to_remove, other_tokens. induction l as [|p l IH]; [done|]. cbn.
  rewrite concerned_other by done. rewrite IH. case_bool_decide; by case_decide.
Qed.

Lemma cleared_others uid hdl l : uid <> 0 -> others_closed uid hdl l (map (WSServer.clear_session uid hdl) l).
Proof using Type.
  intros Hnz. induction l as [|p l IH]; [constructor|]. constructor; [|done]. unfold WSServer.clear_session.
  rewrite concerned_other by done. case_bool_decide; by case_decide.
Qed.

Section change.
Context (s : server D) (hdl : Z) (salt : list Z) (x : APISession) (u : User.t) (req : J).
Context (np : string) (uid : Z) (key : list Z).
Context (Hx : session_of hdl (sessions s) = Some x).
Context (Hu : find_user (view (db s)) uid = Some u) (Hnz : uid <> 0).
Context (Huid : (j ← at_ req "user_id"; get_size_t j) = Ret uid).
Context (Hnp : (j ← at_ req "new_password"; get_string j) = Ret np).
Context (Hkey : kdf (password_bytes np) salt scrypt_default = Some key).

(** The request may change the password: it gives the current one, or is about another user. *)
Definition confirmed (ok : bool) : Prop :=
  if APISession.current_user_id x =? uid then
    exists cp, (j ← at_ req "current_password"; get_string j) = Ret cp /\ User.verify_password kdf cp u = Ret ok
  else ok = true.

Lemma password_change_run (ok : bool) :
  confirmed ok ->
  PasswordChange.process kdf hdl salt req s =
  (done ← transaction (
     if ok then
       user ← lift (User.set_password kdf salt np u);
       _ ← WSServer.clear_user_sessions (User.id_ user) hdl;
       _ ← change_db (persist_audit [USER_EDITED; USER_PASSWORD_CHANGED]);
       _ ← change_db (update_user user);
       mret true
     else _ ← change_db (persist_audit [USER_PASSWORD_CHANGE_FAILURE]); mret false);
   if (done : bool) then mret json_null else throw PermissionDenied) s.
Proof.
  intros Hok. pose proof (find_user_id _ _ _ Hu) as Hid. unfold PasswordChange.process.
  apply transaction_bind_ext. rewrite Huid, lift_bind, Hnp, lift_bind, get_db_bind, Hu.
  rewrite Hid, (proj2 (Z.eqb_neq _ _)) by done. cbn [negb cassert]. rewrite lift_bind.
  erewrite bind_at; [reflexivity|]. unfold PasswordChange.current_password_ok.
  rewrite (session_bind _ _ _ _ Hx), Z.eqb_sym. revert Hok. unfold confirmed.
  destruct (_ =? uid); [|by intros ->]. intros (cp & -> & Hok). by rewrite lift_bind, Hok.
Qed.

Lemma set_new_password : exists u', User.set_password kdf salt np u = Ret u' /\ frame u' = frame u /\
  User.verify_password kdf np u' = Ret true.
Proof.
  unfold User.set_password, Scrypt.Hash. rewrite Hkey. cbn. eexists. split; [done|]. split; [done|].
  unfold User.verify_password, Scrypt.Verify, Scrypt.Hash. cbn. rewrite Hkey. cbn.
  by rewrite bool_decide_eq_true_2.
Qed.

(** C26: changing a password. The request for one's own gives the current password; when that is
    wrong it is refused, every account and session being untouched. With the right one, and for the
    password of another user whoever may ask for it, the new password is accepted
    afterwards and the rest of the account is as before; every other connection whose session holds a token
    of the user is logged out and without a token, and these tokens are gone from the database; every
    other session, the one that asked and those of other users, and every other token are as they
    were. This is when the tokens of the other sessions are distinct and still there. *)
Theorem password_change_correct ok :
  confirmed ok -> erasable (db s) (other_tokens uid hdl (sessions s)) ->
  if ok then
    exists s' u', PasswordChange.process kdf hdl salt req s = (s', Ret json_null) /\
      find_user (view (db s')) uid = Some u' /\ User.verify_password kdf np u' = Ret true /\
      frame u' = frame u /\
      others_closed uid hdl (sessions s) (sessions s') /\ session_of hdl (sessions s') = Some x /\
      forall k, query_token (db s') k =
        if bool_decide (k ∈ other_tokens uid hdl (sessions s)) then None else query_token (db s) k
  else
    exists s', PasswordChange.process kdf hdl salt req s = (s', Throw PermissionDenied) /\
      sessions s' = sessions s /\ (forall i, find_user (view (db s')) i = find_user (view (db s)) i).
Proof.
  intros Hok Her. rewrite (password_change_run ok Hok).
  pose proof (find_user_id _ _ _ Hu) as Hid. destruct ok.
  - destruct set_new_password as (u' & Hset & Hf & Hv).
    assert (Hid' : User.id_ u' = uid) by (rewrite <- Hid; exact (f_equal (fun f => f.1.1.1) Hf)).
    destruct (erase_tokens_run (WSServer.tokens_to_remove uid hdl (sessions s))
      (mk_server (db s) (map (WSServer.clear_session uid hdl) (sessions s))))
      as (s1 & Hs1 & Hu1 & [(Hr & _ & Htok)|[_ Hn]]); cbn [db sessions] in *;
      [|by rewrite removed_others in Hn].
    destruct (persist_audit_total [USER_EDITED; USER_PASSWORD_CHANGED] (db s1)) as [d2 Hd2].
    destruct (update_user_present u' u d2) as [d3 Hd3].
    { rewrite Hid', (persist_audit_users _ _ _ _ Hd2), Hu1. exact Hu. }
    exists (mk_server d3 (sessions s1)), u'. cbn [db sessions]. split_and!; [| |done|done|..].
    + rewrite (bind_at _ _ s (mk_server d3 (sessions s1)) true); [reflexivity|]. unfold transaction. rewrite Hset, lift_bind.
      erewrite bind_at by (unfold WSServer.clear_user_sessions; rewrite Hid'; exact Hr).
      rewrite (change_db_bind _ _ s1 _ Hd2).
      by rewrite (change_db_bind (update_user u') _ (mk_server d2 (sessions s1)) d3 Hd3).
    + by rewrite (update_user_find _ _ _ _ Hd3), Hid', Z.eqb_refl.
    + rewrite Hs1. by apply cleared_others.
    + rewrite Hs1. by apply session_of_clear.
    + intros k. by rewrite (update_user_tokens _ _ _ _ Hd3), (persist_audit_tokens _ _ _ _ Hd2), Htok, removed_others.
  - destruct (persist_audit_total [USER_PASSWORD_CHANGE_FAILURE] (db s)) as [d1 Hd1].
    exists (mk_server d1 (sessions s)). split; [|split; [done|]].
    + rewrite (bind_at _ _ s (mk_server d1 (sessions s)) false); [reflexivity|].
      unfold transaction. by rewrite (change_db_bind _ _ _ _ Hd1).
    + intros i. by apply (persist_audit_users _ _ _ _ Hd1).
Qed.

(** two connections that logged in with the same token - as the API offers
    - keep their user from changing the password: the token is erased twice,
    the second time fails, and the database is restored; the password stays,
    although every other session was closed. *)
Theorem shared_token_blocks_change :
  confirmed true -> ~ NoDup (WSServer.tokens_to_remove uid hdl (sessions s)) ->
  exists s', PasswordChange.process kdf hdl salt req s = (s', Throw ObjectNotPersistent) /\
    db s' = db s /\ sessions s' = map (WSServer.clear_session uid hdl) (sessions s).
Proof.
  intros Hok Hdup. rewrite (password_change_run true Hok).
  pose proof (find_user_id _ _ _ Hu) as Hid. destruct set_new_password as (u' & Hset & Hf & Hv).
  assert (Hid' : User.id_ u' = uid) by (rewrite <- Hid; exact (f_equal (fun f => f.1.1.1) Hf)).
  destruct (erase_tokens_run (WSServer.tokens_to_remove uid hdl (sessions s))
    (mk_server (db s) (map (WSServer.clear_session uid hdl) (sessions s))))
    as (s1 & Hs1 & Hu1 & [(_ & [Hnd _] & _)|[Hr _]]); [done|]. cbn [db sessions] in *.
  exists (mk_server (db s) (sessions s1)). split; [|done].
  apply bind_throw. unfold transaction. rewrite Hset, lift_bind.
  rewrite (bind_throw _ _ _ s1 ObjectNotPersistent); [done|].
  unfold WSServer.clear_user_sessions. rewrite Hid'. exact Hr.
Qed.
End change.
End accounts.

(** * Witnesses *)

Abbreviation demo_users := (UserCRUD.handler (D := store) (J := json) demo_kdf no_date (fun _ => mret JNull)
  (fun _ => mret JNull) 1 [6]).

(** Bob asks for a rank and a new password at once. *)
Definition bob_edit : json :=
  JObject [("user_id", JNumber 3);
           ("attributes", JObject [("rank", JNumber 4); ("password", JString "new")])].
Definition bob_edited : server store := (process_crud demo_users 1 "user.update" bob_edit bob_server).1.

Lemma bob_edit_runs : process_crud demo_users 1 "user.update" bob_edit bob_server = (bob_edited, Ret JNull).
Proof. apply injective_projections; [reflexivity|]. vm_compute. reflexivity. Qed.

Lemma user_update_witness :
  exists u', find_user (view (db bob_edited)) 3 = Some u' /\ User.rank_ u' = USER.
Proof.
  destruct (user_update_confined demo_kdf no_date (fun _ => mret JNull) (fun _ => mret JNull) bob_server 1 [6]
    _ 3 bob_edit bob_edited JNull bob_session) as (u & u' & Hu & Hf & Hfind & _);
    [reflexivity|vm_compute; reflexivity|exact bob_edit_runs|].
  exists u'. split; [exact (Hfind 3)|].
  transitivity (User.rank_ u); [exact (f_equal (fun f => f.1.2) Hf)|].
  vm_compute in Hu. injection Hu as <-. reflexivity.
Defined.

Lemma own_password_witness :
  exists u', find_user (view (db bob_edited)) 3 = Some u' /\ User.verify_password demo_kdf "new" u' = Ret true.
Proof.
  destruct (own_password_unchecked demo_kdf no_date (fun _ => mret JNull) (fun _ => mret JNull) bob_server 1 [6]
    _ 3 bob_edit bob_edited JNull (JObject [("rank", JNumber 4); ("password", JString "new")])
    (JString "new") "new" bob_session) as (_ & H);
    [reflexivity|vm_compute; reflexivity|reflexivity..|exact bob_edit_runs|exact H].
Defined.

(** Eve, administrator of the group 7, joins the board as its administrator. *)
Definition eve_server : server store :=
  (demo_handle 1 (demo_entropy "t1") "create_auth_token" (login "eve" "evil") open_server).1.
Definition eve_join : json :=
  JObject [("group_id", JNumber 7);
           ("attributes", JObject [("group_id", JNumber 8); ("user_id", JNumber 9); ("rank", JNumber 2)])].

Lemma eve_session :
  session_of 1 (sessions eve_server) = Some (mk_session LOGGED_IN (Some (Token.mk "t1" 9 1200)) (Some 9)).
Proof. vm_compute. reflexivity. Qed.

Lemma membership_bypass_witness :
  exists s' j g, process_crud (MembershipCRUD.handler no_address no_time) 1 "user-group-membership.create"
      eve_join eve_server = (s', Ret j) /\
    find_group (view (db s')) 8 = Some g /\ Group.member_has 9 g = Some GADMIN.
Proof.
  apply (membership_check_bypassed no_address no_time eve_server 1 _ 9 eve_join
    (JObject [("group_id", JNumber 8); ("user_id", JNumber 9); ("rank", JNumber 2)])
    0 0 7 demo_group GADMIN 8 demo_board 9 (demo_account 9 "eve" USER "evil") 2 eve_session);
    try (vm_compute; reflexivity); try discriminate.
  split; [discriminate|constructor|constructor].
Defined.

(** She adds the administrator to her group as an operator. *)
Definition eve_adds : json :=
  JObject [("group_id", JNumber 7); ("rank", JNumber 1);
           ("attributes", JObject [("group_id", JNumber 7); ("user_id", JNumber 1); ("rank", JNumber 1)])].
Definition eve_added : server store * outcome json :=
  process_crud (MembershipCRUD.handler no_address no_time) 1 "user-group-membership.create" eve_adds eve_server.
Definition eve_reply : json := match eve_added.2 with Ret j => j | _ => JNull end.

Lemma demo_group_ok : group_ok demo_group.
Proof. split; [discriminate| |]; repeat constructor; cbn; discriminate || lia. Qed.

Lemma membership_changes_witness :
  outranks (view (db eve_server)) 7 9 1 /\
  exists g', find_group (view (db eve_added.1)) 7 = Some g' /\ Group.member_has 1 g' = Some GOPERATOR.
Proof.
  destruct (membership_changes_confined no_address no_time eve_server eve_added.1 1 _ 9 eve_adds eve_reply eve_session eq_refl)
    as [_ Hadd]; [vm_compute; reflexivity|].
  destruct Hadd as (gid & rank & Hg & Hr & Ho & Heff); [vm_compute; reflexivity|].
  vm_compute in Hg, Hr. injection Hg as <-. injection Hr as <-. split; [exact Ho|].
  destruct (Heff (JObject [("group_id", JNumber 7); ("user_id", JNumber 1); ("rank", JNumber 1)]) 1) as (g & g' & _ & Hg' & Hm);
    [reflexivity|reflexivity|discriminate|reflexivity|reflexivity| |exists g'; split; [exact Hg'|exact (Hm 1)]].
  intros g Hg. vm_compute in Hg. injection Hg as <-. split; [exact demo_group_ok|reflexivity].
Defined.

(** Bob changes his password, a second connection being logged in with another
    token, or with the same one. *)
Definition bob_twice (token2 : string) : server store :=
  mk_server (with_tokens {[ "t1" := bob_token; token2 := Token.mk token2 3 1200 ]} demo_store)
    [(1, mk_session LOGGED_IN (Some bob_token) (Some 3));
     (2, mk_session LOGGED_IN (Some (Token.mk token2 3 1200)) (Some 3));
     (4, mk_session LOGGED_IN (Some (Token.mk "t2" 3 1200)) (Some 3))].
Definition bob_password : json :=
  JObject [("user_id", JNumber 3); ("new_password", JString "new"); ("current_password", JString "secret")].

Definition bob_and_another : server store :=
  mk_server (with_tokens {[ "t1" := bob_token; "t2" := Token.mk "t2" 3 1200; "t3" := Token.mk "t3" 1 1200 ]} demo_store)
    [(1, mk_session LOGGED_IN (Some bob_token) (Some 3));
     (2, mk_session LOGGED_IN (Some (Token.mk "t2" 3 1200)) (Some 3));
     (5, mk_session LOGGED_IN (Some (Token.mk "t3" 1 1200)) (Some 1))].

Lemma password_change_witness :
  exists s' u', PasswordChange.process demo_kdf 1 [6] bob_password bob_and_another = (s', Ret JNull) /\
    find_user (view (db s')) 3 = Some u' /\ User.verify_password demo_kdf "new" u' = Ret true.
Proof.
  destruct (password_change_correct demo_kdf bob_and_another
    1 [6] (mk_session LOGGED_IN (Some bob_token) (Some 3)) (demo_account 3 "bob" USER "secret") bob_password
    "new" 3 ([6] ++ password_bytes "new") eq_refl) with (ok := true)
    as (s' & u' & Hr & Hu & Hv & _);
    [vm_compute; reflexivity|discriminate|reflexivity..| | |exists s', u'; exact (conj Hr (conj Hu Hv))].
  - exists "secret". split; reflexivity.
  - split.
    + vm_compute. apply NoDup_singleton.
    + vm_compute. constructor; [eexists; reflexivity|constructor].
Defined.

Lemma shared_token_witness :
  exists s', PasswordChange.process demo_kdf 1 [6] bob_password (bob_twice "t2") = (s', Throw ObjectNotPersistent) /\
    db s' = db (bob_twice "t2").
Proof.
  destruct (shared_token_blocks_change demo_kdf (bob_twice "t2") 1 [6]
    (mk_session LOGGED_IN (Some bob_token) (Some 3)) (demo_account 3 "bob" USER "secret") bob_password
    "new" 3 ([6] ++ password_bytes "new") eq_refl) as (s' & Hr & Hd & _);
    [vm_compute; reflexivity|discriminate|reflexivity..|exists "secret"; split; reflexivity| |exists s'; exact (conj Hr Hd)].
  intros Hnd. vm_compute in Hnd. apply NoDup_cons in Hnd as [Hnd _]. apply Hnd. constructor.
Defined.
