(* ===== verification/Profiles.v ===== *)
(** Access profiles, [src/core/auth/SimpleAccessProfile.cpp],
    [ProfileMerger.cpp] and the authorisation target of [AuthTarget.cpp]. *)
From Stdlib Require Import ZArith Lia Ascii String.
From stdpp Require Import base tactics numbers list strings gmap.
From S2P Require Import Prelude Ptree Users Schedules.

Open Scope Z_scope.

(** [enum class AccessStatus]. *)
Definition GRANTED : Z := 1.
Definition DENIED : Z := 2.

(** * AuthTarget *)

Module AuthTarget.

(** A door to authorise against. The GPIOs and the alarm are devices the
    target owns, known by name. Durations are in milliseconds. *)
Record t := mk {
  name_ : string;
  always_open_ : list Schedule.t;
  always_close_ : list Schedule.t;
  gpio_ : option string;
  exitreq_gpio_ : option string;
  exitreq_duration_ : Z;
  contact_gpio_ : option string;
  contact_duration_ : Z;
  alarm_ : option string;
}.

Definition make (target_name : string) : t := mk target_name [] [] None None 0 None 15000 None.

Definition add_always_open_sched (s : Schedule.t) (a : t) : t :=
  mk (name_ a) (always_open_ a ++ [s]) (always_close_ a) (gpio_ a) (exitreq_gpio_ a)
     (exitreq_duration_ a) (contact_gpio_ a) (contact_duration_ a) (alarm_ a).
Definition add_always_close_sched (s : Schedule.t) (a : t) : t :=
  mk (name_ a) (always_open_ a) (always_close_ a ++ [s]) (gpio_ a) (exitreq_gpio_ a)
     (exitreq_duration_ a) (contact_gpio_ a) (contact_duration_ a) (alarm_ a).

Definition is_always_open (now : tm) (a : t) : bool :=
  existsb (Schedule.is_in_schedule now) (always_open_ a).
Definition is_always_closed (now : tm) (a : t) : bool :=
  existsb (Schedule.is_in_schedule now) (always_close_ a).

(** What [resetToExpectedState] asks of the door's GPIO. *)
Inductive command := TurnOn | TurnOff.

(** [resetToExpectedState]: [is_on] and [is_off] are what [FGPIO::isOn] and
    [FGPIO::isOff] answer. The GPIO is dereferenced without a check. *)
Definition resetToExpectedState (now : tm) (is_on is_off : bool) (a : t)
  : outcome (option command) :=
  if is_always_open now a && is_always_closed now a then Ret None
  else
    on ← (if is_always_open now a then (_ ← deref (gpio_ a); Ret (negb is_on)) else Ret false);
    if on : bool then Ret (Some TurnOn)
    else
      off ← (if is_always_closed now a then (_ ← deref (gpio_ a); Ret (negb is_off)) else Ret false);
      Ret (if off : bool then Some TurnOff else None).

End AuthTarget.

(** * SimpleAccessProfile *)

Module SimpleAccessProfile.

(** Schedules by target name, and the schedules of every target. *)
Record t := mk { schedules_ : gmap string (list Schedule.t); default_schedule_ : list Schedule.t }.

Definition make : t := mk ∅ [].

(** [schedules_[name]]: the vector of a missing key is empty, and is added. *)
Definition at_target (name : string) (m : gmap string (list Schedule.t)) : list Schedule.t :=
  default [] (m !! name).

(** [isAccessGranted], with the profile after the call: looking a target up
    adds its key. A null target is [None]. *)
Definition isAccessGranted (now : tm) (target : option string) (p : t) : bool * t :=
  if existsb (Schedule.is_in_schedule now) (default_schedule_ p) then (true, p)
  else match target with
       | None => (false, p)
       | Some name =>
           let scheds := at_target name (schedules_ p) in
           (existsb (Schedule.is_in_schedule now) scheds,
            mk (<[name := scheds]> (schedules_ p)) (default_schedule_ p))
       end.

Definition addAccessSchedule (target : option string) (s : Schedule.t) (p : t) : t :=
  match target with
  | Some name => mk (<[name := at_target name (schedules_ p) ++ [s]]> (schedules_ p)) (default_schedule_ p)
  | None => mk (schedules_ p) (default_schedule_ p ++ [s])
  end.

Definition schedule_count (p : t) : Z :=
  Z.of_nat (length (default_schedule_ p)) + Z.of_nat (size (schedules_ p)).

End SimpleAccessProfile.

(** * ProfileMerger *)

Module ProfileMerger.
Import SimpleAccessProfile.

Definition add_all (target : option string) (scheds : list Schedule.t) (result : t) : t :=
  foldl (fun p s => addAccessSchedule target s p) result scheds.

(** One entry of [schedules()], target by target. *)
Definition add_target (result : t) (entry : string * list Schedule.t) : t :=
  add_all (Some entry.1) entry.2 result.

Definition merge (p1 p2 : t) : t :=
  let result := add_all None (default_schedule_ p2) (add_all None (default_schedule_ p1) make) in
  let result := foldl add_target result (map_to_list (schedules_ p1)) in
  foldl add_target result (map_to_list (schedules_ p2)).

End ProfileMerger.

(** * Specifications *)

(** The schedules of a profile that apply to a target. *)
Definition applicable (target : option string) (p : SimpleAccessProfile.t) : list Schedule.t :=
  SimpleAccessProfile.default_schedule_ p ++
  match target with
  | Some name => SimpleAccessProfile.at_target name (SimpleAccessProfile.schedules_ p)
  | None => []
  end.

Definition granted (now : tm) (target : option string) (p : SimpleAccessProfile.t) : bool :=
  (SimpleAccessProfile.isAccessGranted now target p).1.

(** ** Lemmas *)

Lemma granted_applicable now target p :
  granted now target p = existsb (Schedule.is_in_schedule now) (applicable target p).
Proof.
  unfold granted, applicable, SimpleAccessProfile.isAccessGranted. rewrite existsb_app.
  destruct (existsb _ (SimpleAccessProfile.default_schedule_ p)); cbn; [done|].
  by destruct target.
Qed.

(** Adding to target [t] changes what applies to [t], and to every target when
    [t] is the default one. *)
Lemma applicable_add target t s p :
  applicable target (SimpleAccessProfile.addAccessSchedule t s p) ≡ₚ
  applicable target p ++ (if decide (t = None \/ t = target) then [s] else []).
Proof.
  unfold applicable, SimpleAccessProfile.addAccessSchedule, SimpleAccessProfile.at_target.
  destruct t as [name|]; cbn.
  - destruct (decide (Some name = None \/ Some name = target)) as [[?| <-]|Hn]; [done| |].
    + rewrite lookup_insert_eq. cbn. by rewrite app_assoc.
    + rewrite app_nil_r. destruct target as [n|]; [|done].
      rewrite lookup_insert_ne; [done|]. intros ->. tauto.
  - rewrite decide_True by auto. rewrite <- app_assoc, (Permutation_app_comm [s]). by rewrite app_assoc.
Qed.

Lemma applicable_add_all target t l p :
  applicable target (ProfileMerger.add_all t l p) ≡ₚ
  applicable target p ++ (if decide (t = None \/ t = target) then l else []).
Proof.
  unfold ProfileMerger.add_all. revert p. induction l as [|s l IH]; intros p; cbn.
  - by destruct (decide _); rewrite app_nil_r.
  - rewrite IH, applicable_add. destruct (decide _); [|by rewrite !app_nil_r].
    by rewrite <- app_assoc.
Qed.

Lemma applicable_add_targets target l p :
  NoDup l.*1 ->
  applicable target (foldl ProfileMerger.add_target p l) ≡ₚ
  applicable target p ++
  match target with Some n => default [] (list_to_map (M := gmap string _) l !! n) | None => [] end.
Proof.
  revert p. induction l as [|[k v] l IH]; intros p Hnd; cbn -[ProfileMerger.add_target].
  - destruct target; [rewrite lookup_empty|]; by rewrite app_nil_r.
  - apply NoDup_cons in Hnd as [Hk Hnd]. rewrite IH by done.
    unfold ProfileMerger.add_target. cbn [fst snd]. rewrite applicable_add_all. destruct target as [n|].
    + destruct (decide (k = n)) as [->|Hne].
      * rewrite decide_True by auto. rewrite lookup_insert_eq, not_elem_of_list_to_map_1 by done. cbn.
        by rewrite app_nil_r.
      * rewrite decide_False by (intros [?|[=]]; done). rewrite lookup_insert_ne by done.
        by rewrite app_nil_r.
    + rewrite decide_False by (intros [?|?]; done). by rewrite !app_nil_r.
Qed.

Lemma applicable_merge target p1 p2 :
  applicable target (ProfileMerger.merge p1 p2) ≡ₚ applicable target p1 ++ applicable target p2.
Proof.
  unfold ProfileMerger.merge. rewrite !applicable_add_targets by apply NoDup_fst_map_to_list.
  rewrite !applicable_add_all, !decide_True, !list_to_map_to_list by auto.
  set (d1 := SimpleAccessProfile.default_schedule_ p1).
  set (d2 := SimpleAccessProfile.default_schedule_ p2).
  unfold applicable at 1 2 3. cbn. fold d1 d2.
  destruct target as [n|]; cbn; [|by rewrite !app_nil_r].
  unfold SimpleAccessProfile.at_target.
  rewrite lookup_empty. cbn. rewrite <- !app_assoc. f_equiv.
  rewrite !app_assoc. f_equiv. apply Permutation_app_comm.
Qed.

#[export] Instance existsb_perm {A} (f : A -> bool) : Proper ((≡ₚ) ==> (=)) (existsb f).
Proof.
  intros l1 l2. induction 1 as [|x l1 l2 _ IH|x y l|l1 l2 l3 _ IH1 _ IH2]; cbn; [done|by rewrite IH| |].
  - by destruct (f x), (f y).
  - by rewrite IH1.
Qed.

Lemma granted_merge now target p1 p2 :
  granted now target (ProfileMerger.merge p1 p2) = granted now target p1 || granted now target p2.
Proof. by rewrite !granted_applicable, applicable_merge, existsb_app. Qed.

(** A profile without any schedule counts none. *)
Lemma count_zero p : SimpleAccessProfile.schedule_count p = 0 -> forall target, applicable target p = [].
Proof.
  unfold SimpleAccessProfile.schedule_count, applicable. intros H target.
  destruct (SimpleAccessProfile.default_schedule_ p) eqn:Ed; [|cbn in H; lia].
  assert (Hs : size (SimpleAccessProfile.schedules_ p) = 0%nat) by (cbn in H; lia).
  apply map_size_empty_inv in Hs. unfold SimpleAccessProfile.at_target. rewrite Hs.
  destruct target; [by rewrite lookup_empty | done].
Qed.

(** ** Properties *)

(** merging profiles adds permissions and never removes any: the merged
    profile grants access to a target at a time exactly when one of the two
    does. *)
Theorem merge_grants_either now target p1 p2 :
  (SimpleAccessProfile.isAccessGranted now target (ProfileMerger.merge p1 p2)).1 =
  (SimpleAccessProfile.isAccessGranted now target p1).1 ||
  (SimpleAccessProfile.isAccessGranted now target p2).1.
Proof. apply granted_merge. Qed.

(** asking a profile for access is not a read-only operation - the target's
    name enters the map of schedules - but no later decision, for whatever time
    and target, depends on it. *)
Theorem asking_changes_no_decision now target p now' target' :
  let p' := (SimpleAccessProfile.isAccessGranted now target p).2 in
  (SimpleAccessProfile.isAccessGranted now' target' p').1 =
  (SimpleAccessProfile.isAccessGranted now' target' p).1 /\
  SimpleAccessProfile.schedule_count p <= SimpleAccessProfile.schedule_count p'
    <= SimpleAccessProfile.schedule_count p + 1.
Proof.
  cbn zeta. destruct (SimpleAccessProfile.isAccessGranted now target p) as [g p'] eqn:E. cbn [snd].
  unfold SimpleAccessProfile.isAccessGranted in E.
  destruct (existsb _ _); [injection E as _ <-; split; [done|lia]|].
  destruct target as [n|]; [|injection E as _ <-; split; [done|lia]].
  injection E as _ <-. split.
  - change (granted now' target' (SimpleAccessProfile.mk
      (<[n:=SimpleAccessProfile.at_target n (SimpleAccessProfile.schedules_ p)]> (SimpleAccessProfile.schedules_ p))
      (SimpleAccessProfile.default_schedule_ p)) = granted now' target' p).
    rewrite !granted_applicable. f_equal. unfold applicable. cbn. f_equal.
    destruct target' as [n'|]; [|done]. unfold SimpleAccessProfile.at_target.
    destruct (decide (n = n')) as [->|]; [by rewrite lookup_insert_eq | by rewrite lookup_insert_ne].
  - unfold SimpleAccessProfile.schedule_count. cbn. rewrite map_size_insert.
    destruct (_ !! n); cbn; lia.
Qed.

(** the door is driven to the state its permanent schedules ask for: with a
    GPIO, it is turned on when it must be open and is not on, turned off when
    it must be closed and is not off, and left alone in every other case,
    conflicting schedules included; without a GPIO a door with such a schedule
    dereferences a null pointer. *)
Theorem reset_to_expected_state now is_on is_off a :
  let opened := AuthTarget.is_always_open now a in
  let closed := AuthTarget.is_always_closed now a in
  AuthTarget.resetToExpectedState now is_on is_off a =
  match opened, closed, AuthTarget.gpio_ a with
  | true, true, _ | false, false, _ => Ret None
  | _, _, None => Fault NullDeref
  | true, false, Some _ => Ret (if is_on then None else Some AuthTarget.TurnOn)
  | false, true, Some _ => Ret (if is_off then None else Some AuthTarget.TurnOff)
  end.
Proof.
  unfold AuthTarget.resetToExpectedState. cbn zeta.
  destruct (AuthTarget.is_always_open now a), (AuthTarget.is_always_closed now a),
    (AuthTarget.gpio_ a), is_on, is_off; reflexivity.
Qed.
