(* ===== verification/Zones.v ===== *)
(** Zones, doors and access points, [src/core/auth/Zone.cpp], [Door.cpp] and
    [AccessPoint.cpp].

    Zones live in the database: [db] maps the id of a zone to the object a lazy
    pointer loads, [parents_] being the inverse of [children_] that ODB keeps.
    The validator recurses over the children with the set of the ids met so
    far; its model has fuel, and [zone_validation_terminates] bounds it. *)
From Stdlib Require Import ZArith Lia Ascii String Relations.
From stdpp Require Import base tactics numbers list strings gmap sets relations.
From S2P Require Import Prelude.

Open Scope Z_scope.

(** * Zone *)

Module Zone.

Definition PHYSICAL : Z := 0.
Definition LOGICAL : Z := 1.

Record t := mk {
  id_ : Z;
  alias_ : string;
  description_ : string;
  type_ : Z;
  children_ : list Z;
  doors_ : list Z;
  parents_ : list Z;
}.

Definition make : t := mk 0 "" "" LOGICAL [] [] [].

Definition set_alias (a : string) (z : t) : t :=
  mk (id_ z) a (description_ z) (type_ z) (children_ z) (doors_ z) (parents_ z).
Definition set_description (d : string) (z : t) : t :=
  mk (id_ z) (alias_ z) d (type_ z) (children_ z) (doors_ z) (parents_ z).
Definition set_type (k : Z) (z : t) : t :=
  mk (id_ z) (alias_ z) (description_ z) k (children_ z) (doors_ z) (parents_ z).
Definition add_door (d : Z) (z : t) : t :=
  mk (id_ z) (alias_ z) (description_ z) (type_ z) (children_ z) (doors_ z ++ [d]) (parents_ z).
Definition add_child (c : Z) (z : t) : t :=
  mk (id_ z) (alias_ z) (description_ z) (type_ z) (children_ z ++ [c]) (doors_ z) (parents_ z).
Definition clear_doors (z : t) : t :=
  mk (id_ z) (alias_ z) (description_ z) (type_ z) (children_ z) [] (parents_ z).
Definition clear_children (z : t) : t :=
  mk (id_ z) (alias_ z) (description_ z) (type_ z) [] (doors_ z) (parents_ z).

End Zone.

#[export] Instance zone_eq_dec : EqDecision Zone.t.
Proof. solve_decision. Defined.

Module ZoneValidator.
Import Zone.

Definition cycle_error : exn := ModelException "" "There cannot be cycle in parent/child relationship.".

(** [insert_enforce_unique]. *)
Definition insert_enforce_unique (ids : gset Z) (id : Z) : outcome (gset Z) :=
  if decide (id ∈ ids) then Throw cycle_error else Ret ({[id]} ∪ ids).

Definition validate_type (value : Z) : outcome unit :=
  if (value =? PHYSICAL) || (value =? LOGICAL) then Ret tt
  else Throw (ModelException "data/attributes/type" "Invalid zone type.").

Section db.
Context (db : gmap Z Zone.t).

(** [lazy.load()] and the assertion that follows it. *)
Definition load (id : Z) : outcome Zone.t :=
  match db !! id with Some z => Ret z | None => Fault AssertFailed end.

Definition physical_parents (z : Zone.t) : outcome Z :=
  foldM (fun n p => parent ← load p; Ret (if type_ parent =? PHYSICAL then n + 1 else n))
    0 (parents_ z).

(** What [validate] checks of one zone. *)
Definition check_zone (z : Zone.t) : outcome unit :=
  _ ← validate_type (type_ z);
  n ← physical_parents z;
  if (type_ z =? PHYSICAL) && (1 <? n) then
    Throw (ModelException "" "A physical zone cannot have more than one physical parent.")
  else if (type_ z =? LOGICAL) && negb (n =? 0) then
    Throw (ModelException "" "A logical zone cannot have physical zone as a parent")
  else Ret tt.

Fixpoint validate (fuel : nat) (z : Zone.t) (zone_ids : gset Z) : outcome (gset Z) :=
  match fuel with
  | O => Fault OutOfFuel
  | S fuel =>
      zone_ids ← insert_enforce_unique zone_ids (id_ z);
      _ ← check_zone z;
      foldM (fun zone_ids c => child ← load c; validate fuel child zone_ids) zone_ids (children_ z)
  end.

(** [Zone::validation_callback] after a write; every zone of the database is
    loaded at most once, so that many steps are enough. *)
Definition validation_callback (z : Zone.t) : outcome unit :=
  _ ← validate (S (size db)) z ∅;
  Ret tt.

End db.
End ZoneValidator.

(** * Doors and their access points *)

Module Access.

Record door := mk_door { alias_ : string; desc_ : string; access_point_ : option Z }.
Record access_point := mk_ap { ap_alias_ : string; controller_module_ : string; door_ : option Z }.

(** The objects, by address. *)
Record store := mk_store { doors : gmap Z door; points : gmap Z access_point }.

(** [Door::access_point(ptr)]: the new access point is made to point back. *)
Definition set_access_point (d : Z) (ptr : option Z) (s : store) : outcome store :=
  door ← deref (doors s !! d);
  let doors' := <[d := mk_door (alias_ door) (desc_ door) ptr]> (doors s) in
  match ptr with
  | None => Ret (mk_store doors' (points s))
  | Some a =>
      ap ← deref (points s !! a);
      Ret (mk_store doors' (<[a := mk_ap (ap_alias_ ap) (controller_module_ ap) (Some d)]> (points s)))
  end.

(** [AccessPoint::door_id] and [Door::access_point_id], 0 for none; an address
    stands for the object's id. *)
Definition door_id (a : Z) (s : store) : outcome Z :=
  ap ← deref (points s !! a);
  Ret (match door_ ap with
       | Some d => if bool_decide (is_Some (doors s !! d)) then d else 0
       | None => 0
       end).
Definition access_point_id (d : Z) (s : store) : outcome Z :=
  door ← deref (doors s !! d);
  Ret (default 0 (access_point_ door)).

End Access.

(** * Specifications *)

Section graph.
Context (db : gmap Z Zone.t).

(** [b] is a child of [a]. *)
Definition child (a b : Z) : Prop := exists z, db !! a = Some z /\ b ∈ Zone.children_ z.

(** Lazy pointers load zones of the database, under their own ids. *)
Definition db_ok : Prop :=
  forall i z, db !! i = Some z -> Zone.id_ z = i /\
    (forall c, c ∈ Zone.children_ z -> is_Some (db !! c)) /\
    (forall p, p ∈ Zone.parents_ z -> is_Some (db !! p)).

(** The rules on a zone's parents. *)
Definition physical (p : Z) : bool :=
  match db !! p with Some z => Zone.type_ z =? Zone.PHYSICAL | None => false end.
Definition parents_allowed (z : Zone.t) : Prop :=
  let n := length (List.filter physical (Zone.parents_ z)) in
  (Zone.type_ z = Zone.PHYSICAL /\ (n <= 1)%nat) \/ (Zone.type_ z = Zone.LOGICAL /\ n = 0%nat).

End graph.

(** ** Lemmas *)

Section lemmas.
Context (db : gmap Z Zone.t) (Hdb : db_ok db).
Import ZoneValidator.

Lemma load_some c z : db !! c = Some z -> load db c = Ret z.
Proof using Type. unfold load. by intros ->. Qed.

Lemma physical_parents_count z :
  (forall p, p ∈ Zone.parents_ z -> is_Some (db !! p)) ->
  physical_parents db z = Ret (Z.of_nat (length (List.filter (physical db) (Zone.parents_ z)))).
Proof using Type.
  intros Hp. unfold physical_parents.
  assert (Hl : forall l n, (forall p, p ∈ l -> is_Some (db !! p)) ->
    foldM (fun n p => parent ← load db p; Ret (if Zone.type_ parent =? Zone.PHYSICAL then n + 1 else n)) n l =
    Ret (n + Z.of_nat (length (List.filter (physical db) l)))).
  { induction l as [|p l IH]; intros n Hl; cbn [foldM List.filter]; [f_equal; cbn; lia|].
    destruct (Hl p ltac:(by constructor)) as [zp Hz].
    unfold physical at 1. rewrite (load_some p zp Hz), Hz. cbn [mbind outcome_bind].
    rewrite IH by (intros; apply Hl; by constructor).
    f_equal. destruct (_ =? _); cbn [length]; lia. }
  by rewrite Hl.
Qed.

Lemma check_zone_spec z :
  (forall p, p ∈ Zone.parents_ z -> is_Some (db !! p)) ->
  (check_zone db z = Ret tt <-> parents_allowed db z) /\ (forall f, check_zone db z <> Fault f).
Proof using Type.
  intros Hp. unfold check_zone, parents_allowed, validate_type.
  rewrite physical_parents_count by done. generalize (length (List.filter (physical db) (Zone.parents_ z))).
  intros n. unfold Zone.PHYSICAL, Zone.LOGICAL.
  destruct (Z.eqb_spec (Zone.type_ z) 0) as [E|E]; cbn.
  - rewrite E. destruct (Z.ltb_spec 1 (Z.of_nat n)); cbn;
      (split; [split; intros; try discriminate; try done; lia | done]).
  - destruct (Z.eqb_spec (Zone.type_ z) 1) as [E'|E']; cbn.
    + rewrite E'. destruct (Z.eqb_spec (Z.of_nat n) 0); cbn;
        (split; [split; intros; try discriminate; try done; lia | done]).
    + split; [split; intros; try discriminate; lia | done].
Qed.

Lemma insert_unique_Ret ids id ids' :
  insert_enforce_unique ids id = Ret ids' <-> id ∉ ids /\ ids' = {[id]} ∪ ids.
Proof using Type.
  unfold insert_enforce_unique. case_decide; split; try done.
  - tauto.
  - by intros [= <-].
  - by intros [_ ->].
Qed.

(** What a validated zone guarantees of every zone below it. *)
Definition validated (vis vis' : gset Z) (y : Z) : Prop :=
  y ∉ vis /\ y ∈ vis' /\ (exists zy, db !! y = Some zy /\ parents_allowed db zy) /\
  ~ tc (child db) y y.

(** The children loop: every child is validated against what was visited before. *)
Lemma children_loop fuel l vis vis' :
  (forall z vis vis', db !! Zone.id_ z = Some z -> validate db fuel z vis = Ret vis' ->
     vis ⊆ vis' /\ forall y, rtc (child db) (Zone.id_ z) y -> validated vis vis' y) ->
  (forall c, c ∈ l -> is_Some (db !! c)) ->
  foldM (fun ids c => child ← load db c; validate db fuel child ids) vis l = Ret vis' ->
  vis ⊆ vis' /\ (forall c y, c ∈ l -> rtc (child db) c y -> validated vis vis' y) /\
  (forall l1 a l2 b l3 y, l = l1 ++ a :: l2 ++ b :: l3 ->
     rtc (child db) a y -> rtc (child db) b y -> False).
Proof.
  intros IH. revert vis. induction l as [|c l IHl]; intros vis Hex H; cbn [foldM] in H.
  - injection H as <-. split; [done|]. split; [intros c y Hc; by apply elem_of_nil in Hc|].
    intros l1 a l2 b l3 y Hl. by destruct l1.
  - apply bind_Ret in H as (vis1 & Hc & H). apply bind_Ret in Hc as (zc & Hload & Hc).
    unfold load in Hload. destruct (db !! c) as [z|] eqn:Ez; [|done]. injection Hload as <-.
    destruct (Hdb c z Ez) as [Hid _].
    assert (Ez' : db !! Zone.id_ z = Some z) by (rewrite Hid; done).
    destruct (IH z vis vis1 Ez' Hc) as [Hsub1 Hv1]. rewrite Hid in Hv1.
    destruct (IHl vis1) as (Hsub2 & Hv2 & Hsep); [intros; apply Hex; by constructor|done|].
    split; [set_solver|]. split.
    + intros c' y Hc' Hy. apply elem_of_cons in Hc' as [->|Hc'].
      * destruct (Hv1 y Hy) as (? & ? & ? & ?). repeat split; [done|set_solver|done|done].
      * destruct (Hv2 c' y Hc' Hy) as (? & ? & ? & ?). repeat split; [set_solver|done|done|done].
    + intros [|x l1] a l2 b l3 y Hl Ha Hb; injection Hl as -> Hl.
      * destruct (Hv1 y Ha) as (_ & Hin & _). subst l.
        destruct (Hv2 b y ltac:(set_solver) Hb) as (Hout & _). done.
      * by eapply Hsep.
Qed.

Lemma validate_sound fuel z vis vis' :
  db !! Zone.id_ z = Some z -> validate db fuel z vis = Ret vis' ->
  vis ⊆ vis' /\ forall y, rtc (child db) (Zone.id_ z) y -> validated vis vis' y.
Proof.
  revert z vis vis'. induction fuel as [|fuel IH]; intros z vis vis' Hz H; [done|].
  cbn [validate] in H. apply bind_Ret in H as (vis0 & Hins & H). apply bind_Ret in H as ([] & Hck & H).
  apply insert_unique_Ret in Hins as [Hnew ->].
  destruct (Hdb _ _ Hz) as (_ & Hch & Hpa).
  destruct (children_loop fuel _ _ _ IH Hch H) as (Hsub & Hv & _).
  split; [set_solver|]. intros y Hy. apply rtc_inv in Hy as [<-|(c & Hc & Hy)].
  - split; [done|]. split; [set_solver|]. split.
    { exists z. split; [done|]. by apply check_zone_spec. }
    intros Ht.
    inversion Ht as [? ? Hzz | ? c ? Hzc Hcz]; subst.
    + destruct Hzz as (z' & Hz' & Hin). assert (z' = z) as -> by congruence.
      destruct (Hv _ _ Hin (rtc_refl _ _)) as (Hout & _). set_solver.
    + destruct Hzc as (z' & Hz' & Hin). assert (z' = z) as -> by congruence.
      destruct (Hv _ _ Hin (tc_rtc _ _ Hcz)) as (Hout & _). set_solver.
  - destruct Hc as (z' & Hz' & Hin). assert (z' = z) as -> by congruence.
    destruct (Hv _ _ Hin Hy) as (? & ? & ? & ?). repeat split; [set_solver|done|done|done].
Qed.

(** Enough fuel: each call adds a zone of the database to the visited set. *)
Lemma validate_fuel fuel z vis :
  db !! Zone.id_ z = Some z -> vis ⊆ dom db -> (size db < fuel + size vis)%nat ->
  forall f, validate db fuel z vis <> Fault f /\
  (forall vis', validate db fuel z vis = Ret vis' -> vis' ⊆ dom db /\ (size vis < size vis')%nat).
Proof.
  revert z vis. induction fuel as [|fuel IH]; intros z vis Hz Hvis Hfuel f.
  { exfalso. apply subseteq_size in Hvis. rewrite size_dom in Hvis. lia. }
  cbn [validate]. unfold insert_enforce_unique. case_decide as Hin; [done|].
  cbn [mbind outcome_bind]. destruct (Hdb _ _ Hz) as (_ & Hch & Hpa).
  destruct (check_zone db z) as [[]|e|f'] eqn:Eck; cbn [mbind outcome_bind]; [|done|].
  2: { by destruct (check_zone_spec z Hpa) as [_ Hnf]; destruct (Hnf f'). }
  assert (Hloop : forall l vis0, (forall c, c ∈ l -> is_Some (db !! c)) -> vis0 ⊆ dom db ->
    (size db < fuel + size vis0)%nat ->
    foldM (fun ids c => child ← load db c; validate db fuel child ids) vis0 l <> Fault f /\
    (forall vis', foldM (fun ids c => child ← load db c; validate db fuel child ids) vis0 l = Ret vis' ->
       vis' ⊆ dom db /\ (size vis0 <= size vis')%nat)).
  { induction l as [|c l IHl]; intros vis0 Hex H0 Hf0; cbn [foldM].
    - split; [done|]. by intros vis' [= <-].
    - destruct (Hex c ltac:(by constructor)) as [zc Hzc]. rewrite (load_some c zc Hzc).
      cbn [mbind outcome_bind]. destruct (Hdb _ _ Hzc) as [Hid _].
      assert (Hzc' : db !! Zone.id_ zc = Some zc) by (rewrite Hid; done).
      destruct (IH zc vis0 Hzc' H0 Hf0 f) as [Hnf Hret].
      destruct (validate db fuel zc vis0) as [vis1|e|f'] eqn:E1; cbn [mbind outcome_bind].
      + destruct (Hret vis1 eq_refl) as [Hs1 Hlt].
        destruct (IHl vis1) as [H1 H2]; [intros; apply Hex; by constructor|done|lia|].
        split; [exact H1|]. intros vis' Hv. destruct (H2 vis' Hv). split; [done|lia].
      + done.
      + split; [congruence|done]. }
  assert (Hd : Zone.id_ z ∈ dom db) by (apply elem_of_dom; eauto).
  assert (Hsz : size ({[Zone.id_ z]} ∪ vis) = S (size vis))
    by (rewrite size_union, size_singleton by set_solver; lia).
  destruct (Hloop (Zone.children_ z) ({[Zone.id_ z]} ∪ vis) Hch ltac:(set_solver) ltac:(lia)) as [H1 H2].
  split; [exact H1|]. intros vis' Hv. destruct (H2 vis' Hv). split; [done|lia].
Qed.

End lemmas.

(** ** Properties *)

(** C37: validating a zone always ends, by accepting it or by throwing, however
    the zones are linked: a database with cycles included. *)
Theorem zone_validation_terminates db z :
  db_ok db -> db !! Zone.id_ z = Some z ->
  ZoneValidator.validation_callback db z = Ret tt \/
  exists e, ZoneValidator.validation_callback db z = Throw e.
Proof.
  intros Hdb Hz. unfold ZoneValidator.validation_callback.
  pose proof (validate_fuel db Hdb (S (size db)) z ∅ Hz ltac:(set_solver) ltac:(rewrite size_empty; lia)) as H.
  destruct (ZoneValidator.validate db (S (size db)) z ∅) as [v|e|f] eqn:E; cbn; [by left|by right; eauto|].
  by destruct (H f).
Qed.

(** C15: a zone that passes validation is the root of a sound hierarchy: no zone
    reachable from it is part of a cycle, a physical one has at most one
    physical parent, a logical one none. *)
Theorem validated_hierarchy_sound db z :
  db_ok db -> db !! Zone.id_ z = Some z -> ZoneValidator.validation_callback db z = Ret tt ->
  forall y, rtc (child db) (Zone.id_ z) y ->
    ~ tc (child db) y y /\ exists zy, db !! y = Some zy /\ parents_allowed db zy.
Proof.
  intros Hdb Hz H y Hy. apply bind_Ret in H as (vis & Hv & _).
  destruct (validate_sound db Hdb _ _ _ _ Hz Hv) as [_ Hall].
  by destruct (Hall y Hy) as (_ & _ & ? & ?).
Qed.

(** the validator refuses more than cycles: a zone two of whose children
    share a descendant never passes, although several logical parents are
    allowed by the documentation of [IZone] and no cycle exists. *)
Theorem shared_descendant_rejected db z l1 a l2 b l3 y :
  db_ok db -> db !! Zone.id_ z = Some z -> Zone.children_ z = l1 ++ a :: l2 ++ b :: l3 ->
  rtc (child db) a y -> rtc (child db) b y ->
  exists e, ZoneValidator.validation_callback db z = Throw e.
Proof.
  intros Hdb Hz Hch Ha Hb. unfold ZoneValidator.validation_callback.
  pose proof (validate_fuel db Hdb (S (size db)) z ∅ Hz ltac:(set_solver) ltac:(rewrite size_empty; lia)) as Hf.
  destruct (ZoneValidator.validate db (S (size db)) z ∅) as [v|e|f] eqn:E; cbn [mbind outcome_bind];
    [|eauto|by destruct (Hf f)].
  exfalso. cbn [ZoneValidator.validate] in E. apply bind_Ret in E as (vis0 & _ & E).
  apply bind_Ret in E as ([] & _ & E). destruct (Hdb _ _ Hz) as (_ & Hex & _).
  destruct (children_loop db Hdb (size db) _ _ _
    (fun z0 v0 v1 H1 H2 => validate_sound db Hdb _ _ _ _ H1 H2) Hex E) as (_ & _ & Hsep).
  exact (Hsep _ _ _ _ _ _ Hch Ha Hb).
Qed.

(** giving a door an access point links the two both ways; but the access
    point the door had before is not told, and still names the door. *)
Theorem access_point_links d a s dr ap :
  Access.doors s !! d = Some dr -> Access.points s !! a = Some ap ->
  exists s', Access.set_access_point d (Some a) s = Ret s' /\
    Access.access_point_id d s' = Ret a /\ Access.door_id a s' = Ret d /\
    (forall a0 ap0, a0 <> a -> Access.access_point_ dr = Some a0 -> Access.points s !! a0 = Some ap0 ->
       Access.door_ ap0 = Some d -> Access.door_id a0 s' = Ret d).
Proof.
  intros Hd Ha. unfold Access.set_access_point. rewrite Hd, Ha. cbn. eexists. split; [done|].
  unfold Access.access_point_id, Access.door_id. cbn. rewrite !lookup_insert_eq. cbn.
  rewrite lookup_insert_eq. split; [done|]. split; [done|].
  intros a0 ap0 Hne _ H0 Hdoor. rewrite lookup_insert_ne, H0 by done. cbn. rewrite Hdoor.
  by rewrite lookup_insert_eq.
Qed.

(** ** Witnesses *)

(** A logical root, two logical children, and a grandchild both share. *)
Definition demo_zone (i : Z) (children parents : list Z) : Zone.t :=
  Zone.mk i "" "" Zone.LOGICAL children [] parents.
Definition demo_tree : gmap Z Zone.t :=
  {[1 := demo_zone 1 [2; 3] []; 2 := demo_zone 2 [] [1]; 3 := demo_zone 3 [] [1]]}.
Definition demo_diamond : gmap Z Zone.t :=
  {[1 := demo_zone 1 [2; 3] []; 2 := demo_zone 2 [4] [1]; 3 := demo_zone 3 [4] [1];
    4 := demo_zone 4 [] [2; 3]]}.

(** [db_ok] as a computation. *)
Definition db_okb (db : gmap Z Zone.t) : bool :=
  forallb (fun iz : Z * Zone.t => bool_decide (Zone.id_ iz.2 = iz.1) &&
      forallb (fun c => bool_decide (is_Some (db !! c))) (Zone.children_ iz.2) &&
      forallb (fun c => bool_decide (is_Some (db !! c))) (Zone.parents_ iz.2)) (map_to_list db).

Lemma db_okb_ok db : db_okb db = true -> db_ok db.
Proof.
  unfold db_okb. rewrite forallb_forall. intros H i z Hz.
  specialize (H (i, z) ltac:(by apply list_elem_of_In, elem_of_map_to_list)). cbn in H. bool_hyps.
  rewrite !forallb_forall in *. split; [done|].
  split; intros c Hc; apply list_elem_of_In in Hc; eapply bool_decide_eq_true_1; eauto.
Qed.

Lemma zone_terminates_witness :
  ZoneValidator.validation_callback demo_diamond (demo_zone 1 [2; 3] []) = Ret tt \/
  exists e, ZoneValidator.validation_callback demo_diamond (demo_zone 1 [2; 3] []) = Throw e.
Proof.
  apply zone_validation_terminates; [apply db_okb_ok; reflexivity | reflexivity].
Defined.

Lemma hierarchy_sound_witness : ~ tc (child demo_tree) 3 3.
Proof.
  apply (validated_hierarchy_sound demo_tree (demo_zone 1 [2; 3] [])).
  - apply db_okb_ok; reflexivity.
  - reflexivity.
  - vm_compute. reflexivity.
  - apply rtc_once. exists (demo_zone 1 [2; 3] []). split; [reflexivity | repeat constructor].
Defined.

Lemma shared_descendant_witness :
  exists e, ZoneValidator.validation_callback demo_diamond (demo_zone 1 [2; 3] []) = Throw e.
Proof.
  apply (shared_descendant_rejected demo_diamond (demo_zone 1 [2; 3] []) [] 2 [] 3 [] 4).
  - apply db_okb_ok; reflexivity.
  - reflexivity.
  - reflexivity.
  - apply rtc_once. exists (demo_zone 2 [4] [1]). split; [reflexivity | repeat constructor].
  - apply rtc_once. exists (demo_zone 3 [4] [1]). split; [reflexivity | repeat constructor].
Defined.

Lemma access_point_links_witness :
  let s := Access.mk_store {[1 := Access.mk_door "d" "" (Some 5)]}
    {[5 := Access.mk_ap "old" "m" (Some 1); 6 := Access.mk_ap "new" "m" None]} in
  exists s', Access.set_access_point 1 (Some 6) s = Ret s' /\ Access.door_id 6 s' = Ret 1 /\
    Access.door_id 5 s' = Ret 1.
Proof.
  intros s. destruct (access_point_links 1 6 s (Access.mk_door "d" "" (Some 5)) (Access.mk_ap "new" "m" None))
    as (s' & H & _ & H6 & Hold); [reflexivity|reflexivity|].
  exists s'. split; [exact H|]. split; [exact H6|].
  apply (Hold 5 (Access.mk_ap "old" "m" (Some 1))); [discriminate|reflexivity|reflexivity|reflexivity].
Defined.
