(* ===== verification/Resources.v ===== *)
(** The resources of the WebSocket API: groups, credentials, schedules, doors,
    zones and access points. The handlers under [src/modules/websock-api/api/]
    ([GroupCRUD.cpp], [CredentialCRUD.cpp], [ScheduleCRUD.cpp], [DoorCRUD.cpp],
    [ZoneCRUD.cpp], [AccessPointCRUD.cpp]) and the serializers under
    [src/core/auth/serializers/], [src/core/credentials/serializers/] and
    [src/tools/serializers/].

    The rows of a type are behind the object-relational mapper: [Table]. The texts
    an audit entry keeps of an object are left out. *)
From Stdlib Require Import ZArith Lia Ascii String.
From stdpp Require Import base tactics numbers list strings sorting.
From S2P Require Import Prelude Json AuditLog Users Credentials Schedules Security Session Api Zones.

Open Scope Z_scope.

(** * Tables *)

(** [query<E>()], [find], [persist], which gives the row its id, [update] and
    [erase]. A callback of the row may throw when it is written. *)
Class Table (D E : Type) := {
  row_id : E -> Z;
  rows : D -> list E;
  find_row : Z -> D -> option E;
  persist_row : E -> D -> outcome (E * D);
  update_row : E -> D -> outcome D;
  erase_row : Z -> D -> outcome D;
}.

Class TableLaws (D E : Type) `{Odb D, Table D E} := {
  find_rows (d : D) (e : E) : List.In e (rows d) <-> find_row (row_id e) d = Some e;
  find_id (d : D) (e : E) i : find_row i d = Some e -> row_id e = i;
  find_zero (d : D) : find_row (E := E) 0 d = None;
  persist_find (e e' : E) (d d' : D) i : persist_row e d = Ret (e', d') ->
    find_row (row_id e') d = None /\ row_id e' <> 0 /\
    find_row i d' = if i =? row_id e' then Some e' else find_row i d;
  update_find (e : E) (d d' : D) i : update_row e d = Ret d' ->
    find_row i d' = if i =? row_id e then Some e else find_row i d;
  erase_find (d d' : D) i j : erase_row i d = Ret d' -> find_row j d' = if j =? i then None else find_row j d;
  audit_find es (d d' : D) i : persist_audit es d = Ret d' -> find_row i d' = find_row i d;
}.

(** * What the handlers share *)

Section shared.
Context {D : Type} `{Odb D} {J : Type} `{Json J}.

Fixpoint mapA {A B} (f : A -> api D B) (l : list A) : api D (list B) :=
  match l with
  | [] => mret []
  | a :: l => b ← f a; bs ← mapA f l; mret (b :: bs)
  end.

Definition change_row {A} (f : D -> outcome (A * D)) : api D A :=
  d ← get_db; '(a, d) ← lift (f d); _ ← set_db d; mret a.

(** [security_context().check_permission(a, ap)]. *)
Definition permitted (hdl : Z) (a : SecurityContext.Action) (ap : SecurityContext.ActionParam) : api D bool :=
  x ← session hdl; d ← get_db; lift (APISession.check_permission d x a ap).

Definition id_of (key : string) (req : J) : outcome Z := j ← at_ req key; get_size_t j.

(** [required_permission]: the action of the verb, on the id of the request, 0
    when there is none. *)
Definition crud_permissions (key : string) (param : Z -> SecurityContext.ActionParam) (r c u d : SecurityContext.Action)
    (verb : Verb) (req : J) : outcome (list permission) :=
  id ← match id_of key req with Throw JsonOutOfRange => Ret 0 | x => x end;
  Ret [(match verb with READ => r | CREATE => c | UPDATE => u | DELETE => d end, param id)].

(** [Audit::Factory::*Event] of a row, then its mask and [finalize]. *)
Definition audit_row (id : Z) (e : EventType) : api D unit :=
  _ ← lift (cassert (negb (id =? 0)));
  change_db (persist_audit [e]).

Definition reference (id : Z) (type : string) : J := json_object [("id", json_number id); ("type", json_string type)].
Definition data_reply (data : J) : J := json_object [("data", data)].

Section row.
Context {E : Type} `{Table D E}.

Definition get_row (id : Z) : api D E := d ← get_db; lift (DBService.or_throw (find_row id d)).

(** The rows of a listing: those that may be read. *)
Fixpoint readable (hdl : Z) (a : SecurityContext.Action) (param : Z -> SecurityContext.ActionParam)
    (serialize : E -> api D J) (l : list E) : api D (list J) :=
  match l with
  | [] => mret []
  | e :: l =>
      ok ← permitted hdl a (param (row_id e));
      if (ok : bool) then j ← serialize e; js ← readable hdl a param serialize l; mret (j :: js)
      else readable hdl a param serialize l
  end.

(** [read_impl]: one row, or all that may be read. *)
Definition read_rows (hdl : Z) (key : string) (a : SecurityContext.Action) (param : Z -> SecurityContext.ActionParam)
    (serialize : E -> api D J) (req : J) : api D J :=
  transaction (
    id ← lift (id_of key req);
    if negb (id =? 0) then
      e ← get_row id; j ← serialize e; mret (data_reply j)
    else
      d ← get_db; js ← readable hdl a param serialize (rows d); mret (data_reply (json_array js))).

End row.
End shared.

(** * Doors *)

(** A door, with the id of its access point, 0 for none. *)
Module DoorRow.
Record t := mk { id_ : Z; alias_ : string; desc_ : string; access_point_id : Z }.
Definition make : t := mk 0 "" "" 0.
End DoorRow.

Module AccessPointRow.
Record t := mk { id_ : Z; alias_ : string; desc_ : string; controller_module_ : string; door_id : Z }.
End AccessPointRow.

Module DoorCRUD.
Section door.
Context {D : Type} `{Odb D, Table D DoorRow.t, Table D AccessPointRow.t} {J : Type} `{Json J}.

Definition serialize (door : DoorRow.t) : J :=
  json_object ([("id", json_number (DoorRow.id_ door)); ("type", json_string "door");
    ("attributes", json_object [("alias", json_string (DoorRow.alias_ door));
                                ("description", json_string (DoorRow.desc_ door))])] ++
    (if DoorRow.access_point_id door =? 0 then []
     else [("relationships", json_object [("access-point",
             data_reply (reference (DoorRow.access_point_id door) "access-point"))])])).

Definition unserialize (out : DoorRow.t) (in_ : J) (d : D) : outcome DoorRow.t :=
  alias ← JSONUtil.extract_with_default get_string in_ "alias" (DoorRow.alias_ out);
  desc ← JSONUtil.extract_with_default get_string in_ "description" (DoorRow.desc_ out);
  let current_ap_id := DoorRow.access_point_id out in
  new_ap_id ← JSONUtil.extract_with_default get_size_t in_ "access_point_id" current_ap_id;
  if new_ap_id =? current_ap_id then Ret (DoorRow.mk (DoorRow.id_ out) alias desc current_ap_id)
  else if new_ap_id =? 0 then Ret (DoorRow.mk (DoorRow.id_ out) alias desc 0)
  else match find_row new_ap_id d with
       | Some ap => Ret (DoorRow.mk (DoorRow.id_ out) alias desc (AccessPointRow.id_ ap))
       | None => Throw ObjectNotPersistent
       end.

Definition enforce_ap_not_already_referenced (apid : Z) : api D unit :=
  if apid =? 0 then mret tt
  else
    d ← get_db;
    match List.find (fun r => DoorRow.access_point_id r =? apid) (rows d) with
    | Some door => throw (LEOSACException ("The AccessPoint with id " +:+ to_string apid +:+
                     " is already referenced by door with id " +:+ to_string (DoorRow.id_ door) +:+ "."))
    | None => mret tt
    end.

Definition create (req : J) : api D J :=
  transaction (
    attributes ← lift (at_ req "attributes");
    d ← get_db;
    new_door ← lift (unserialize DoorRow.make attributes d);
    _ ← enforce_ap_not_already_referenced (DoorRow.access_point_id new_door);
    new_door ← change_row (persist_row new_door);
    _ ← audit_row (row_id new_door) DOOR_CREATED;
    mret (data_reply (serialize new_door))).

Definition read (hdl : Z) : J -> api D J :=
  read_rows hdl "door_id" SecurityContext.DOOR_READ SecurityContext.door (fun door => mret (serialize door)).

Definition update (req : J) : api D J :=
  transaction (
    did ← lift (id_of "door_id" req);
    door ← get_row did;
    _ ← audit_row (row_id door) DOOR_UPDATED;
    attributes ← lift (at_ req "attributes");
    d ← get_db;
    door ← lift (unserialize door attributes d);
    _ ← enforce_ap_not_already_referenced (DoorRow.access_point_id door);
    _ ← change_db (update_row door);
    mret (data_reply (serialize door))).

Definition delete (req : J) : api D J :=
  did ← lift (id_of "door_id" req);
  transaction (
    door ← get_row did;
    _ ← audit_row (row_id (door : DoorRow.t)) DOOR_DELETED;
    _ ← change_db (erase_row (E := DoorRow.t) (row_id door));
    mret json_null).

Definition handler (hdl : Z) : crud D J := {|
  crud_permission := crud_permissions "door_id" SecurityContext.door SecurityContext.DOOR_READ
    SecurityContext.DOOR_CREATE SecurityContext.DOOR_UPDATE SecurityContext.DOOR_DELETE;
  read_impl := read hdl; create_impl := create; update_impl := update; delete_impl := delete;
|}.

End door.
End DoorCRUD.

(** * Zones *)

Module ZoneCRUD.
Section zone.
Context {D : Type} `{Odb D, Table D Zone.t} {J : Type} `{Json J}.

Definition serialize (zone : Zone.t) : J :=
  json_object [("id", json_number (Zone.id_ zone)); ("type", json_string "zone");
    ("attributes", json_object [("alias", json_string (Zone.alias_ zone));
       ("description", json_string (Zone.description_ zone)); ("type", json_number (Zone.type_ zone))]);
    ("relationships", json_object [
       ("children", data_reply (json_array (map (fun i => reference i "zone") (Zone.children_ zone))));
       ("doors", data_reply (json_array (map (fun i => reference i "door") (Zone.doors_ zone))))])].

(** The doors and the children are references, that are not loaded. *)
Definition unserialize (out : Zone.t) (in_ : J) : outcome Zone.t :=
  alias ← JSONUtil.extract_with_default get_string in_ "alias" (Zone.alias_ out);
  desc ← JSONUtil.extract_with_default get_string in_ "description" (Zone.description_ out);
  type ← JSONUtil.extract_with_default get_int in_ "type" Zone.LOGICAL;
  let out := Zone.set_type type (Zone.set_description desc (Zone.set_alias alias out)) in
  doors_ids ← at_ in_ "doors";
  out ← foldM (fun z j => i ← get_size_t j; Ret (Zone.add_door i z)) (Zone.clear_doors out) (elements doors_ids);
  children_ids ← at_ in_ "children";
  foldM (fun z j => i ← get_size_t j; Ret (Zone.add_child i z)) (Zone.clear_children out) (elements children_ids).

Definition create (req : J) : api D J :=
  transaction (
    attributes ← lift (at_ req "attributes");
    new_zone ← lift (unserialize Zone.make attributes);
    new_zone ← change_row (persist_row new_zone);
    _ ← audit_row (row_id new_zone) ZONE_CREATED;
    mret (data_reply (serialize new_zone))).

Definition read (hdl : Z) : J -> api D J :=
  read_rows hdl "zone_id" SecurityContext.ZONE_READ SecurityContext.zone (fun zone => mret (serialize zone)).

Definition update (req : J) : api D J :=
  transaction (
    zid ← lift (id_of "zone_id" req);
    zone ← get_row zid;
    _ ← audit_row (row_id zone) ZONE_UPDATED;
    attributes ← lift (at_ req "attributes");
    zone ← lift (unserialize zone attributes);
    _ ← change_db (update_row zone);
    mret (data_reply (serialize zone))).

Definition delete (req : J) : api D J :=
  did ← lift (id_of "zone_id" req);
  transaction (
    zone ← get_row did;
    _ ← audit_row (row_id (zone : Zone.t)) ZONE_DELETED;
    _ ← change_db (erase_row (E := Zone.t) (row_id zone));
    mret json_null).

Definition handler (hdl : Z) : crud D J := {|
  crud_permission := crud_permissions "zone_id" SecurityContext.zone SecurityContext.ZONE_READ
    SecurityContext.ZONE_CREATE SecurityContext.ZONE_UPDATE SecurityContext.ZONE_DELETE;
  read_impl := read hdl; create_impl := create; update_impl := update; delete_impl := delete;
|}.

End zone.
End ZoneCRUD.

(** * Access points *)

(** What a module that controls access points offers: [AccessPointBackend]. *)
Record backend (D J : Type) := mk_backend {
  backend_create : J -> api D J;
  backend_update : J -> AccessPointRow.t -> api D J;
  backend_erase : J -> AccessPointRow.t -> api D J;
}.
Arguments backend_create {D J}. Arguments backend_update {D J}. Arguments backend_erase {D J}.

Module AccessPointCRUD.
Section access_point.
Context {D : Type} `{Odb D, Table D AccessPointRow.t} {J : Type} `{Json J}.
(** [AccessPointService]: the backends, and the serializer of an access point. *)
Context (get_backend : string -> option (backend D J)) (service_serialize : AccessPointRow.t -> api D J).

Definition serialize (ap : AccessPointRow.t) : J :=
  json_object ([("id", json_number (AccessPointRow.id_ ap)); ("type", json_string "access-point");
    ("attributes", json_object [("alias", json_string (AccessPointRow.alias_ ap));
       ("description", json_string (AccessPointRow.desc_ ap));
       ("controller-module", json_string (AccessPointRow.controller_module_ ap))])] ++
    (if AccessPointRow.door_id ap =? 0 then []
     else [("relationships", json_object [("door", data_reply (reference (AccessPointRow.door_id ap) "door"))])])).

Definition unserialize (out : AccessPointRow.t) (in_ : J) : outcome AccessPointRow.t :=
  alias ← JSONUtil.extract_with_default get_string in_ "alias" (AccessPointRow.alias_ out);
  desc ← JSONUtil.extract_with_default get_string in_ "description" (AccessPointRow.desc_ out);
  Ret (AccessPointRow.mk (AccessPointRow.id_ out) alias desc (AccessPointRow.controller_module_ out) (AccessPointRow.door_id out)).

Definition no_backend (m : string) : exn :=
  LEOSACException ("Cannot find an AccessPointBackend corresponding to controller-module " +:+ m).

Definition create (req : J) : api D J :=
  controller_module ← lift (a ← at_ req "attributes"; m ← at_ a "controller-module"; get_string m);
  match get_backend controller_module with
  | Some b => backend_create b req
  | None => throw (no_backend controller_module)
  end.

Definition read (hdl : Z) : J -> api D J :=
  read_rows hdl "access_point_id" SecurityContext.ACCESS_POINT_READ SecurityContext.access_point service_serialize.

(** The access point, and the backend of its module. *)
Definition forward (f : backend D J -> J -> AccessPointRow.t -> api D J) (req : J) : api D J :=
  ap_id ← lift (id_of "access_point_id" req);
  ap ← get_row ap_id;
  match get_backend (AccessPointRow.controller_module_ ap) with
  | Some b => f b req ap
  | None => throw (no_backend (AccessPointRow.controller_module_ ap))
  end.
Definition update : J -> api D J := forward backend_update.
Definition delete : J -> api D J := forward backend_erase.

Definition handler (hdl : Z) : crud D J := {|
  crud_permission := crud_permissions "access_point_id" SecurityContext.access_point SecurityContext.ACCESS_POINT_READ
    SecurityContext.ACCESS_POINT_CREATE SecurityContext.ACCESS_POINT_UPDATE SecurityContext.ACCESS_POINT_DELETE;
  read_impl := read hdl; create_impl := create; update_impl := update; delete_impl := delete;
|}.

End access_point.
End AccessPointCRUD.

(** * Groups *)

(** What the mapper gives besides the rows: the ids of the schedules of the
    mappings a group or a credential appears in, and version counters. *)
Class Mappings (D : Type) := {
  group_schedules : Z -> D -> list Z;
  credential_schedules : Z -> D -> list Z;
  credential_version : Z -> D -> Z;
  schedule_version : Z -> D -> Z;
}.

(** A [std::set] of ids, and an array that starts as [null]. *)
Definition id_set (l : list Z) : list Z := merge_sort Z.le (remove_dups l).
Definition array_or_null {J} `{Json J} (l : list J) : J := match l with [] => json_null | _ => json_array l end.

Module GroupCRUD.
Section group.
Context {D : Type} `{Odb D, !Table D Group.t, !Mappings D} {J : Type} `{Json J}.
Context (addr_lt : UserGroupMembership.t -> UserGroupMembership.t -> bool).

(** The memberships that may be read. Of the parameter, only [membership_id] is set. *)
Fixpoint readable_memberships (hdl : Z) (l : list UserGroupMembership.t) : api D (list J) :=
  match l with
  | [] => mret []
  | m :: l =>
      let id := UserGroupMembership.id_ m in
      ok ← permitted hdl SecurityContext.MEMBERSHIP_READ
             (SecurityContext.membership (SecurityContext.mk_membership id 0 0 GMEMBER));
      js ← readable_memberships hdl l;
      mret (if (ok : bool) then reference id "user-group-membership" :: js else js)
  end.

Definition serialize (hdl : Z) (group : Group.t) : api D J :=
  memberships ← readable_memberships hdl (Group.membership_ group);
  d ← get_db;
  let schedules := map (fun id => reference id "schedule") (id_set (group_schedules (Group.id_ group) d)) in
  mret (json_object [("id", json_number (Group.id_ group)); ("type", json_string "group");
    ("attributes", json_object [("name", json_string (Group.name_ group));
                                ("description", json_string (Group.description_ group))]);
    ("relationships", json_object [("memberships", data_reply (array_or_null memberships));
                                   ("schedules", data_reply (array_or_null schedules))])]).

Definition unserialize (out : Group.t) (in_ : J) : outcome Group.t :=
  name ← JSONUtil.extract_with_default get_string in_ "name" (Group.name_ out);
  out ← Group.set_name name out;
  desc ← JSONUtil.extract_with_default get_string in_ "description" (Group.description_ out);
  Ret (Group.mk (Group.id_ out) (Group.name_ out) desc (Group.membership_ out)).

(** [query_one], which asserts that there is at most one; the session makes two
    pointers to the same row equal, and a new group has no row. *)
Definition validate_and_unique (grp : Group.t) : api D unit :=
  _ ← lift (Group.validate_name (Group.name_ grp));
  d ← get_db;
  match List.filter (fun g => String.eqb (Group.name_ g) (Group.name_ grp)) (rows d) with
  | [] => mret tt
  | [g] => if Group.id_ g =? Group.id_ grp then mret tt
           else throw (ModelException "data/attributes/name" ("A group named " +:+ Group.name_ grp +:+ " already exists."))
  | _ => lift (Fault AssertFailed)
  end.

(** [current_user()] of the session. *)
Definition current_user (hdl : Z) : api D (option User.t) :=
  x ← session hdl; d ← get_db; mret (find_user (view d) (APISession.current_user_id x)).

Definition create (hdl : Z) (req : J) : api D J :=
  transaction (
    attributes ← lift (at_ req "attributes");
    new_group ← lift (unserialize (Group.make "") attributes);
    _ ← validate_and_unique new_group;
    new_group ← change_row (persist_row new_group);
    _ ← audit_row (Group.id_ new_group) GROUP_CREATED;
    user ← current_user hdl;
    _ ← MembershipCRUD.audit (Some new_group) user GROUP_MEMBERSHIP_JOINED;
    user ← lift (deref user);
    let '(new_group, _) := Group.member_add addr_lt (User.id_ user) GADMIN new_group in
    new_group ← change_row (update_group new_group);
    j ← serialize hdl new_group;
    mret (data_reply j)).

Definition read (hdl : Z) : J -> api D J :=
  read_rows hdl "group_id" SecurityContext.GROUP_READ SecurityContext.group (serialize hdl).

Definition update (hdl : Z) (req : J) : api D J :=
  transaction (
    gid ← lift (id_of "group_id" req);
    grp ← get_row gid;
    _ ← audit_row (Group.id_ grp) GROUP_UPDATED;
    attributes ← lift (at_ req "attributes");
    grp ← lift (unserialize grp attributes);
    _ ← validate_and_unique grp;
    grp ← change_row (update_group grp);
    j ← serialize hdl grp;
    mret (data_reply j)).

Definition delete (req : J) : api D J :=
  gid ← lift (id_of "group_id" req);
  transaction (
    group ← get_row gid;
    _ ← audit_row (Group.id_ group) GROUP_DELETED;
    _ ← change_db (erase_row (E := Group.t) (Group.id_ group));
    mret json_null).

Definition handler (hdl : Z) : crud D J := {|
  crud_permission := crud_permissions "group_id" SecurityContext.group SecurityContext.GROUP_READ
    SecurityContext.GROUP_CREATE SecurityContext.GROUP_UPDATE SecurityContext.GROUP_DELETE;
  read_impl := read hdl; create_impl := create hdl; update_impl := update hdl; delete_impl := delete;
|}.

End group.
End GroupCRUD.

(** * Credentials *)

Module CredentialCRUD.
Section credential.
Context {D : Type} `{Odb D, !Table D credential, !Mappings D} {J : Type} `{Json J}.
(** Dates as text. *)
Context (parse_date : string -> option Z) (format_date : Z -> string).

(** [CredentialJSONSerializer], with the type and the attributes of the kind. *)
Definition serialize_base (in_ : Credential.t) (type : string) (more : list (string * J)) (d : D) : J :=
  let schedules := map (fun id => reference id "schedule") (id_set (credential_schedules (Credential.id_ in_) d)) in
  json_object [("id", json_number (Credential.id_ in_)); ("type", json_string type);
    ("attributes", json_object ([
       ("version", json_number (credential_version (Credential.id_ in_) d));
       ("alias", json_string (Credential.alias_ in_)); ("description", json_string (Credential.description_ in_));
       ("validity-enabled", json_bool (ValidityInfo.is_enabled (Credential.validity_ in_)));
       ("validity-start", json_string (format_date (ValidityInfo.start_ (Credential.validity_ in_))));
       ("validity-end", json_string (format_date (ValidityInfo.end_ (Credential.validity_ in_))))] ++ more));
    ("relationships", json_object (
       (if Credential.owner_id in_ =? 0 then []
        else [("owner", data_reply (reference (Credential.owner_id in_) "user"))]) ++
       [("schedules", data_reply (array_or_null schedules))]))].

(** [PolymorphicCredentialJSONSerializer]: the helper visits cards and PIN codes
    only. *)
Definition serialize (cred : credential) : api D J :=
  d ← get_db;
  match cred with
  | Card c => mret (serialize_base (base cred) "rfid-card"
                [("nb-bits", json_number (RFIDCard.nb_bits_ c)); ("card-id", json_string (RFIDCard.card_id_ c))] d)
  | Pin p => mret (serialize_base (base cred) "pin-code" [("code", json_string (PinCode.pin_code_ p))] d)
  | CardPin _ => lift (Fault AssertFailed)
  end.

Definition unserialize_base (out : Credential.t) (in_ : J) : outcome Credential.t :=
  alias ← JSONUtil.extract_with_default get_string in_ "alias" (Credential.alias_ out);
  out ← Credential.set_alias alias out;
  desc ← JSONUtil.extract_with_default get_string in_ "description" (Credential.description_ out);
  let out := Credential.set_description desc out in
  let validity_default := ValidityInfo.set_enabled (ValidityInfo.is_enabled (Credential.validity_ out)) ValidityInfo.default in
  v ← UserCRUD.extract_validity_with_default parse_date in_ "validity" validity_default;
  let out := Credential.set_validity v out in
  new_owner_id ← JSONUtil.extract_with_default get_size_t in_ "owner_id" (Credential.owner_id out);
  if new_owner_id =? Credential.owner_id out then Ret out
  else Ret (Credential.set_owner (if new_owner_id =? 0 then None else Some new_owner_id) out).

Definition unserialize (out : credential) (in_ : J) : outcome credential :=
  match out with
  | Card c =>
      b ← unserialize_base (RFIDCard.cred c) in_;
      let c := RFIDCard.mk b (RFIDCard.card_id_ c) (RFIDCard.nb_bits_ c) in
      id ← JSONUtil.extract_with_default get_string in_ "card-id" (RFIDCard.card_id_ c);
      c ← RFIDCard.set_card_id id c;
      nb ← JSONUtil.extract_with_default get_int in_ "nb-bits" (RFIDCard.nb_bits_ c);
      c ← RFIDCard.set_nb_bits nb c;
      Ret (Card c)
  | Pin p =>
      b ← unserialize_base (PinCode.cred p) in_;
      code ← JSONUtil.extract_with_default get_string in_ "code" (PinCode.pin_code_ p);
      p ← PinCode.set_pin_code code (PinCode.mk b (PinCode.pin_code_ p));
      Ret (Pin p)
  | CardPin _ => Fault AssertFailed
  end.

Definition create (req : J) : api D J :=
  transaction (
    type ← lift (j ← at_ req "credential-type"; get_string j);
    new_cred ← (if String.eqb type "rfid-card" then mret (Card RFIDCard.default)
                else if String.eqb type "pin-code" then mret (Pin PinCode.default)
                else throw (LEOSACException ("Credential {" +:+ type +:+ "} are not supported.")));
    attributes ← lift (at_ req "attributes");
    new_cred ← lift (unserialize new_cred attributes);
    new_cred ← change_row (persist_row new_cred);
    _ ← audit_row (row_id new_cred) CREDENTIAL_CREATED;
    j ← serialize new_cred;
    mret (data_reply j)).

Definition read (hdl : Z) : J -> api D J :=
  read_rows hdl "credential_id" SecurityContext.CREDENTIAL_READ SecurityContext.cred serialize.

(** The reply to an update is empty. *)
Definition update (req : J) : api D J :=
  cid ← lift (id_of "credential_id" req);
  transaction (
    cred ← get_row cid;
    _ ← audit_row (row_id cred) CREDENTIAL_UPDATED;
    _ ← serialize cred;
    attributes ← lift (at_ req "attributes");
    cred ← lift (unserialize cred attributes);
    _ ← change_db (update_row cred);
    mret json_null).

Definition delete (req : J) : api D J :=
  cid ← lift (id_of "credential_id" req);
  transaction (
    if negb (cid =? 0) then
      cred ← get_row cid;
      _ ← audit_row (row_id cred) CREDENTIAL_DELETED;
      _ ← serialize cred;
      _ ← change_db (erase_row (E := credential) (row_id cred));
      mret json_null
    else mret json_null).

(** The parameter is built as that of a group. *)
Definition handler (hdl : Z) : crud D J := {|
  crud_permission := crud_permissions "credential_id" SecurityContext.group SecurityContext.CREDENTIAL_READ
    SecurityContext.CREDENTIAL_CREATE SecurityContext.CREDENTIAL_UPDATE SecurityContext.CREDENTIAL_DELETE;
  read_impl := read hdl; create_impl := create; update_impl := update; delete_impl := delete;
|}.

End credential.
End CredentialCRUD.

(** * Schedules *)

Module MappingRow.
Record t := mk { id_ : Z; mapping_ : ScheduleMapping.t; version_ : Z }.
End MappingRow.

Module ScheduleRow.
Record t := mk { id_ : Z; sched_ : Schedule.t; mappings_ : list MappingRow.t }.
Definition make : t := mk 0 (Schedule.make "") [].
Definition set_sched (s : Schedule.t) (r : t) : t := mk (id_ r) s (mappings_ r).
Definition set_mappings (l : list MappingRow.t) (r : t) : t := mk (id_ r) (sched_ r) l.
End ScheduleRow.

(** [token_compress_on]: adjacent separators are one. *)
Fixpoint compress_colons (l : list ascii) : list ascii :=
  match l with
  | c :: l' =>
      match l' with
      | c' :: _ => if Ascii.eqb c ":" && Ascii.eqb c' ":" then compress_colons l' else c :: compress_colons l'
      | [] => l
      end
  | [] => []
  end.

Module ScheduleJSON.
Section json.
Context {J : Type} `{Json J}.

Definition timeframe_json (tf_pos : Z) (tf : SingleTimeFrame.t) : J :=
  json_object [("id", json_number tf_pos);
    ("start-time", json_string (to_string (SingleTimeFrame.start_hour tf) +:+ ":" +:+ to_string (SingleTimeFrame.start_min tf)));
    ("end-time", json_string (to_string (SingleTimeFrame.end_hour tf) +:+ ":" +:+ to_string (SingleTimeFrame.end_min tf)));
    ("day", json_number (SingleTimeFrame.day tf))].

Definition attributes (version : Z) (s : Schedule.t) : J :=
  json_object [("version", json_number version); ("name", json_string (Schedule.name_ s));
    ("description", json_string (Schedule.description_ s));
    ("timeframes", json_array (zip_with timeframe_json (seqZ 0 (Z.of_nat (length (Schedule.timeframes_ s)))) (Schedule.timeframes_ s)))].

Definition serialize (version : Z) (in_ : ScheduleRow.t) : J :=
  json_object [("id", json_number (ScheduleRow.id_ in_)); ("type", json_string "schedule");
    ("attributes", attributes version (ScheduleRow.sched_ in_));
    ("relationships", json_object [("mapping", data_reply (json_array
       (map (fun m => reference (MappingRow.id_ m) "schedule-mapping") (ScheduleRow.mappings_ in_))))])].

(** ["hh:mm"]. *)
Definition parse_time (tm : string) : outcome (Z * Z) :=
  match split_colon (compress_colons (chars tm)) with
  | [h; m] => h ← stoi h; m ← stoi m; Ret (h, m)
  | _ => Throw (LEOSACException ("Timeframe start or end time is invalid: " +:+ tm))
  end.

Definition add_timeframe (s : Schedule.t) (tf_json : J) : outcome Schedule.t :=
  start ← (j ← at_ tf_json "start-time"; t ← get_string j; parse_time t);
  end_ ← (j ← at_ tf_json "end-time"; t ← get_string j; parse_time t);
  day ← (j ← at_ tf_json "day"; get_int j);
  Ret (Schedule.add_timeframe (SingleTimeFrame.mk day start.1 start.2 end_.1 end_.2) s).

Definition unserialize (out : Schedule.t) (in_ : J) : outcome Schedule.t :=
  name ← JSONUtil.extract_with_default get_string in_ "name" (Schedule.name_ out);
  out ← Schedule.set_name name out;
  desc ← JSONUtil.extract_with_default get_string in_ "description" (Schedule.description_ out);
  let out := Schedule.set_description desc out in
  timeframes ← at_ in_ "timeframes";
  foldM add_timeframe (Schedule.clear_timeframes out) (elements timeframes).

End json.
End ScheduleJSON.


(** * Mappings of schedules *)

Module ScheduleMappingJSON.
Section mapping.
Context {D : Type} `{Odb D, !Table D credential} {J : Type} `{Json J}.

Definition type_name (cred : credential) : outcome string :=
  match cred with
  | Card _ => Ret "rfid-card"
  | Pin _ => Ret "pin-code"
  | CardPin _ => Fault AssertFailed
  end.

Definition credential_reference (id : Z) : api D J :=
  d ← get_db;
  match find_row id d with
  | Some cred => type ← lift (type_name cred); mret (reference id type)
  | None => throw ObjectNotPersistent
  end.

Definition serialize (in_ : MappingRow.t) : api D J :=
  let m := MappingRow.mapping_ in_ in
  creds ← mapA credential_reference (ScheduleMapping.creds_ m);
  let refs type l := data_reply (json_array (map (fun i => reference i type) l)) in
  mret (json_object [("id", json_number (MappingRow.id_ in_)); ("type", json_string "schedule-mapping");
    ("attributes", json_object [("alias", json_string (ScheduleMapping.alias_ m));
                                ("version", json_number (MappingRow.version_ in_))]);
    ("relationships", json_object [
       ("users", refs "user" (ScheduleMapping.users_ m)); ("groups", refs "group" (ScheduleMapping.groups_ m));
       ("credentials", data_reply (json_array creds));
       ("doors", refs "door" (ScheduleMapping.doors_ m)); ("zones", refs "zone" (ScheduleMapping.zones_ m))])]).

(** The ids of a key, each added to the mapping as a reference that is not loaded. *)
Definition add_all (in_ : J) (key : string) (clear : ScheduleMapping.t -> ScheduleMapping.t)
    (add : option Z -> ScheduleMapping.t -> outcome ScheduleMapping.t) (m : ScheduleMapping.t) : outcome ScheduleMapping.t :=
  ids ← at_ in_ key;
  foldM (fun m j => i ← get_size_t j; add (Some i) m) (clear m) (elements ids).

Definition unserialize (out : ScheduleMapping.t) (in_ : J) : outcome ScheduleMapping.t :=
  alias ← JSONUtil.extract_with_default get_string in_ "alias" (ScheduleMapping.alias_ out);
  let out := ScheduleMapping.mk alias (ScheduleMapping.schedule_ out) (ScheduleMapping.users_ out)
    (ScheduleMapping.groups_ out) (ScheduleMapping.creds_ out) (ScheduleMapping.doors_ out) (ScheduleMapping.zones_ out) in
  out ← add_all in_ "groups" ScheduleMapping.clear_groups ScheduleMapping.add_group out;
  out ← add_all in_ "users" ScheduleMapping.clear_users ScheduleMapping.add_user out;
  out ← add_all in_ "credentials" ScheduleMapping.clear_credential ScheduleMapping.add_credential out;
  out ← add_all in_ "doors" ScheduleMapping.clear_doors ScheduleMapping.add_door out;
  add_all in_ "zones" ScheduleMapping.clear_zones ScheduleMapping.add_zone out.

End mapping.
End ScheduleMappingJSON.

Module ScheduleCRUD.
Section schedule.
Context {D : Type} `{Odb D, !Table D credential, !Table D DoorRow.t, !Table D MappingRow.t, !Table D ScheduleRow.t, !Mappings D}.
Context {J : Type} `{Json J}.

Definition serialize (d : D) (r : ScheduleRow.t) : J := ScheduleJSON.serialize (schedule_version (ScheduleRow.id_ r) d) r.

Definition create (req : J) : api D J :=
  transaction (
    attributes ← lift (at_ req "attributes");
    s ← lift (ScheduleJSON.unserialize (Schedule.make "") attributes);
    schedule ← change_row (persist_row (ScheduleRow.set_sched s ScheduleRow.make));
    _ ← audit_row (row_id schedule) SCHEDULE_CREATED;
    d ← get_db;
    mret (data_reply (serialize d schedule))).

Definition include_schedule_mapping_infos (schedule : ScheduleRow.t) : api D (list J) :=
  mapA ScheduleMappingJSON.serialize (ScheduleRow.mappings_ schedule).

Definition full_reply (data : J) (included : list J) : J :=
  json_object [("data", data); ("included", json_array included)].

(** Every schedule is listed, whatever the user may read. *)
Definition read (req : J) : api D J :=
  transaction (
    sid ← lift (id_of "schedule_id" req);
    if negb (sid =? 0) then
      schedule ← get_row sid;
      infos ← include_schedule_mapping_infos schedule;
      d ← get_db;
      mret (full_reply (serialize d schedule) infos)
    else
      d ← get_db;
      infos ← mapA include_schedule_mapping_infos (rows d);
      mret (full_reply (json_array (map (serialize d) (rows d))) (concat infos))).

(** The door learns that its mapping may have changed. *)
Definition notify_door (id : Z) : api D unit :=
  d ← get_db;
  match find_row (E := DoorRow.t) id d with
  | Some door => audit_row (DoorRow.id_ door) MAPPING_MAY_HAVE_CHANGED
  | None => throw ObjectNotPersistent
  end.

Definition drop_mapping (m : MappingRow.t) : api D unit :=
  _ ← mapA notify_door (ScheduleMapping.doors_ (MappingRow.mapping_ m));
  change_db (erase_row (E := MappingRow.t) (MappingRow.id_ m)).

(** [persist], then [add_mapping], which makes the mapping point to the schedule. *)
Definition new_mapping (s : Schedule.t) (json_mapping : J) : api D MappingRow.t :=
  m ← lift (ScheduleMappingJSON.unserialize ScheduleMapping.make json_mapping);
  row ← change_row (persist_row (MappingRow.mk 0 m 0));
  mret (MappingRow.mk (MappingRow.id_ row) (ScheduleMapping.set_schedule s (MappingRow.mapping_ row)) (MappingRow.version_ row)).

Definition update (req : J) : api D J :=
  transaction (
    sid ← lift (id_of "schedule_id" req);
    schedule ← get_row sid;
    _ ← audit_row (ScheduleRow.id_ schedule) SCHEDULE_UPDATED;
    attributes ← lift (at_ req "attributes");
    s ← lift (ScheduleJSON.unserialize (ScheduleRow.sched_ schedule) attributes);
    let schedule := ScheduleRow.set_sched s schedule in
    _ ← mapA drop_mapping (ScheduleRow.mappings_ schedule);
    mappings ← lift (at_ req "mapping");
    ms ← mapA (new_mapping s) (elements mappings);
    let schedule := ScheduleRow.set_mappings ms schedule in
    infos ← include_schedule_mapping_infos schedule;
    _ ← change_db (update_row schedule);
    d ← get_db;
    mret (full_reply (serialize d schedule) infos)).

Definition delete (req : J) : api D J :=
  sid ← lift (id_of "schedule_id" req);
  transaction (
    if negb (sid =? 0) then
      schedule ← get_row sid;
      _ ← audit_row (row_id schedule) SCHEDULE_DELETED;
      _ ← mapA (fun m => change_db (erase_row (E := MappingRow.t) (MappingRow.id_ m))) (ScheduleRow.mappings_ schedule);
      _ ← change_db (erase_row (E := ScheduleRow.t) (ScheduleRow.id_ schedule));
      mret json_null
    else mret json_null).

Definition handler : crud D J := {|
  crud_permission := crud_permissions "schedule_id" SecurityContext.sched SecurityContext.SCHEDULE_READ
    SecurityContext.SCHEDULE_CREATE SecurityContext.SCHEDULE_UPDATE SecurityContext.SCHEDULE_DELETE;
  read_impl := read; create_impl := create; update_impl := update; delete_impl := delete;
|}.

End schedule.
End ScheduleCRUD.
