(* ===== verification/Estate.v ===== *)
(** A database in memory with every resource of the API: an instance of
    [Session.Odb] and of [Resources.Table] for each type of rows, that satisfies
    their laws, on which the examples about resources run. *)
From Stdlib Require Import ZArith Lia Ascii String.
From stdpp Require Import base tactics numbers list strings gmap.
From S2P Require Import Prelude Json AuditLog Users Credentials Schedules Security Session Store Zones Resources.

Open Scope Z_scope.

(** * A table in a map *)

(** An id no row has. *)
Definition fresh_key {E} (m : gmap Z E) : Z := 1 + map_fold (fun k _ r => Z.max k r) 0 m.

Lemma fresh_key_spec {E} (m : gmap Z E) : m !! fresh_key m = None /\ fresh_key m <> 0.
Proof.
  assert (Hm : 0 <= map_fold (fun k (_ : E) r => Z.max k r) 0 m /\
    forall i, is_Some (m !! i) -> i <= map_fold (fun k (_ : E) r => Z.max k r) 0 m).
  { apply (map_fold_weak_ind (fun r m => 0 <= r /\ forall i, is_Some (m !! i) -> i <= r)).
    - split; [done|]. intros i Hi. rewrite lookup_empty in Hi. by destruct Hi.
    - intros k e m' r Hk [Hr Hi]. split; [lia|]. intros i. rewrite lookup_insert_is_Some. intros [->|[_ Hs]]; [lia|].
      specialize (Hi i Hs). lia. }
  destruct Hm as [H0 Hi]. unfold fresh_key. split; [|lia].
  destruct (m !! _) eqn:E1; [|done]. specialize (Hi _ (mk_is_Some _ _ E1)). lia.
Qed.

Section table.
Context {D E : Type} (key : E -> Z) (rekey : Z -> E -> E) (get : D -> gmap Z E) (put : gmap Z E -> D -> D).

Definition keyed (i : Z) (d : D) : option E := if i =? 0 then None else row key i (get d !! i).

Definition map_table : Table D E := {|
  row_id := key;
  rows := fun d => omap (fun p : Z * E => keyed p.1 d) (map_to_list (get d));
  find_row := keyed;
  persist_row := fun e d => let e := rekey (fresh_key (get d)) e in Ret (e, put (<[key e := e]> (get d)) d);
  update_row := fun e d => present (keyed (key e) d) ObjectChanged (put (<[key e := e]> (get d)) d);
  erase_row := fun i d => present (keyed i d) ObjectNotPersistent (put (delete i (get d)) d);
|}.

Context `{Odb D} (rekey_key : forall i e, key (rekey i e) = i) (get_put : forall m d, get (put m d) = m).
Context (audit_get : forall es d d', persist_audit es d = Ret d' -> get d' = get d).

Lemma keyed_put (e : E) (d : D) i : key e <> 0 ->
  keyed i (put (<[key e := e]> (get d)) d) = if i =? key e then Some e else keyed i d.
Proof using get_put.
  intros He. unfold keyed. rewrite get_put. destruct (Z.eqb_spec i (key e)) as [->|Hn].
  - by rewrite (proj2 (Z.eqb_neq _ _)), lookup_insert_eq, row_self.
  - by rewrite lookup_insert_ne.
Qed.
Lemma keyed_some i (d : D) e : keyed i d = Some e -> key e = i /\ get d !! i = Some e /\ i <> 0.
Proof. unfold keyed. destruct (Z.eqb_spec i 0); [done|]. intros Hr. by apply row_key in Hr as [-> ->]. Qed.

Lemma map_table_laws : @TableLaws D E _ map_table.
Proof using rekey_key get_put audit_get.
  split; cbn [rows find_row row_id persist_row update_row erase_row map_table].
  - intros d e. rewrite <- list_elem_of_In, list_elem_of_omap. split.
    + intros ([i e'] & Hin & Hk). cbn in Hk. by destruct (keyed_some _ _ _ Hk) as (-> & _ & _).
    + intros Hk. exists (key e, e). split; [|done]. apply elem_of_map_to_list. by apply keyed_some in Hk as (_ & ? & _).
  - intros d e i Hk. by apply keyed_some in Hk as (? & _ & _).
  - done.
  - intros e e' d d' i [= <- <-]. destruct (fresh_key_spec (get d)) as [Hf Hnz]. rewrite rekey_key.
    split; [|split; [done|]].
    + unfold keyed. by rewrite (proj2 (Z.eqb_neq _ _)), Hf.
    + pose proof (keyed_put (rekey (fresh_key (get d)) e) d i) as Hp. rewrite rekey_key in Hp. by apply Hp.
  - intros e d d' i. unfold present. destruct (keyed (key e) d) eqn:Ek; [|done]. intros [= <-].
    apply keyed_put. by apply keyed_some in Ek as (_ & _ & ?).
  - intros d d' i j. unfold present. destruct (keyed i d) eqn:Ek; [|done]. intros [= <-]. unfold keyed.
    rewrite get_put. destruct (Z.eqb_spec j i) as [->|Hn]; [rewrite lookup_delete_eq|by rewrite lookup_delete_ne].
    by destruct (_ =? _).
  - intros es d d' i Ha. unfold keyed. by rewrite (audit_get _ _ _ Ha).
Qed.

(** A query gives each row once. *)
Lemma map_table_once (d : D) : NoDup (map key (omap (fun p : Z * E => keyed p.1 d) (map_to_list (get d)))).
Proof.
  pose proof (NoDup_fst_map_to_list (get d)) as Hnd. revert Hnd.
  induction (map_to_list (get d)) as [|[i x] l IH]; intros Hnd; [constructor|]. cbn [fmap list_fmap] in Hnd.
  apply NoDup_cons in Hnd as [Hi Hnd]. cbn [omap list_omap]. cbn. specialize (IH Hnd).
  destruct (keyed i d) as [y|] eqn:Ey; [|done]. apply NoDup_cons. split; [|done].
  intros Hn. apply Hi. apply list_elem_of_In, in_map_iff in Hn as (z & Hz & Hin).
  apply list_elem_of_In, list_elem_of_omap in Hin as ([k w] & Hw & Ek). cbn in Ek.
  apply keyed_some in Ey as (Hy & _). apply keyed_some in Ek as (Hk & _). assert (k = i) as -> by congruence.
  by apply (list_elem_of_fmap_2 fst l (i, w)).
Qed.
End table.

(** * The database *)

Record estate := mk_estate {
  core : store;
  door_rows : gmap Z DoorRow.t;
  point_rows : gmap Z AccessPointRow.t;
  zone_rows : gmap Z Zone.t;
  credential_rows : gmap Z credential;
  mapping_rows : gmap Z MappingRow.t;
  schedule_rows : gmap Z ScheduleRow.t;
}.

Definition with_core c (d : estate) := mk_estate c (door_rows d) (point_rows d) (zone_rows d) (credential_rows d) (mapping_rows d) (schedule_rows d).
Definition with_doors m (d : estate) := mk_estate (core d) m (point_rows d) (zone_rows d) (credential_rows d) (mapping_rows d) (schedule_rows d).
Definition with_points m (d : estate) := mk_estate (core d) (door_rows d) m (zone_rows d) (credential_rows d) (mapping_rows d) (schedule_rows d).
Definition with_zones m (d : estate) := mk_estate (core d) (door_rows d) (point_rows d) m (credential_rows d) (mapping_rows d) (schedule_rows d).
Definition with_credentials m (d : estate) := mk_estate (core d) (door_rows d) (point_rows d) (zone_rows d) m (mapping_rows d) (schedule_rows d).
Definition with_mappings m (d : estate) := mk_estate (core d) (door_rows d) (point_rows d) (zone_rows d) (credential_rows d) m (schedule_rows d).
Definition with_schedules m (d : estate) := mk_estate (core d) (door_rows d) (point_rows d) (zone_rows d) (credential_rows d) (mapping_rows d) m.

Definition on_core (f : store -> outcome store) (d : estate) : outcome estate := c ← f (core d); Ret (with_core c d).

Definition all_mappings (d : estate) : list ScheduleMapping.t :=
  map MappingRow.mapping_ (concat (map (fun p => ScheduleRow.mappings_ p.2) (map_to_list (schedule_rows d)))).

Definition estate_view (d : estate) : Database :=
  let v := store_view (core d) in
  {| find_user := find_user v;
     find_group := find_group v;
     find_membership := find_membership v;
     find_credential := fun i => base <$> (credential_rows d !! i);
     find_schedule := fun i => map MappingRow.mapping_ ∘ ScheduleRow.mappings_ <$> (schedule_rows d !! i);
     find_door := fun i => _ ← door_rows d !! i; Some (List.filter (ScheduleMapping.has_door i) (all_mappings d));
     group_memberships := fun u =>
       (fun p => p.1) <$> filter (fun p => is_Some (Group.member_has u p.2)) (map_to_list (groups (core d)));
     lazy_credentials := fun u =>
       (fun p => p.1) <$> filter (fun p => Credential.owner_id (base p.2) = u) (map_to_list (credential_rows d)) |}.

#[export] Instance estate_odb : Odb estate := {|
  view := estate_view;
  query_username := fun d => query_username (core d);
  query_token := fun d => query_token (core d);
  reload_token := fun d => reload_token (core d);
  update_token := fun k => on_core (update_token k);
  persist_token := fun k => on_core (persist_token k);
  erase_token := fun k => on_core (erase_token k);
  update_user := fun u => on_core (update_user u);
  update_group := fun g d =>
    if Group.id_ g =? 0 then Throw ObjectChanged else '(g, c) ← update_group g (core d); Ret (g, with_core c d);
  erase_membership := fun i => on_core (erase_membership i);
  persist_audit := fun es => on_core (persist_audit es);
|}.

Definition with_group_id (i : Z) (g : Group.t) : Group.t := Group.mk i (Group.name_ g) (Group.description_ g) (Group.membership_ g).
Definition with_zone_id (i : Z) (z : Zone.t) : Zone.t :=
  Zone.mk i (Zone.alias_ z) (Zone.description_ z) (Zone.type_ z) (Zone.children_ z) (Zone.doors_ z) (Zone.parents_ z).
Definition credential_id (c : credential) : Z := Credential.id_ (base c).
Definition with_credential_id (i : Z) (c : credential) : credential := with_base (Credential.set_id i (base c)) c.

#[export] Instance door_table : Table estate DoorRow.t :=
  map_table DoorRow.id_ (fun i r => DoorRow.mk i (DoorRow.alias_ r) (DoorRow.desc_ r) (DoorRow.access_point_id r)) door_rows with_doors.
#[export] Instance point_table : Table estate AccessPointRow.t :=
  map_table AccessPointRow.id_ (fun i r => AccessPointRow.mk i (AccessPointRow.alias_ r) (AccessPointRow.desc_ r)
    (AccessPointRow.controller_module_ r) (AccessPointRow.door_id r)) point_rows with_points.
#[export] Instance zone_table : Table estate Zone.t := map_table Zone.id_ with_zone_id zone_rows with_zones.
#[export] Instance credential_table : Table estate credential :=
  map_table credential_id with_credential_id credential_rows with_credentials.
#[export] Instance mapping_table : Table estate MappingRow.t :=
  map_table MappingRow.id_ (fun i r => MappingRow.mk i (MappingRow.mapping_ r) 1) mapping_rows with_mappings.
#[export] Instance schedule_table : Table estate ScheduleRow.t :=
  map_table ScheduleRow.id_ (fun i r => ScheduleRow.mk i (ScheduleRow.sched_ r) (ScheduleRow.mappings_ r)) schedule_rows with_schedules.
#[export] Instance group_table : Table estate Group.t :=
  map_table Group.id_ with_group_id (fun d => groups (core d)) (fun m d => with_core (with_groups m (core d)) d).

#[export] Instance estate_mappings : Mappings estate := {|
  group_schedules := fun g d =>
    omap (fun p => if existsb (fun m => ScheduleMapping.has_group g (MappingRow.mapping_ m)) (ScheduleRow.mappings_ p.2)
                   then Some p.1 else None) (map_to_list (schedule_rows d));
  credential_schedules := fun c d =>
    omap (fun p => if existsb (fun m => ScheduleMapping.has_cred c (MappingRow.mapping_ m)) (ScheduleRow.mappings_ p.2)
                   then Some p.1 else None) (map_to_list (schedule_rows d));
  credential_version := fun _ _ => 1;
  schedule_version := fun _ _ => 1;
|}.

Lemma estate_audit {A} (get : estate -> A) :
  (forall c d, groups c = groups (core d) -> get (with_core c d) = get d) ->
  forall es d d', persist_audit es d = Ret d' -> get d' = get d.
Proof. intros Hg es d d' [= <-]. by apply Hg. Qed.

#[export] Instance door_laws : TableLaws estate DoorRow.t.
Proof. apply map_table_laws; [done..|]. by apply estate_audit. Qed.
#[export] Instance point_laws : TableLaws estate AccessPointRow.t.
Proof. apply map_table_laws; [done..|]. by apply estate_audit. Qed.
#[export] Instance zone_laws : TableLaws estate Zone.t.
Proof. apply map_table_laws; [done..|]. by apply estate_audit. Qed.
#[export] Instance credential_laws : TableLaws estate credential.
Proof. apply map_table_laws; [by intros i []|done|]. by apply estate_audit. Qed.
#[export] Instance group_laws : TableLaws estate Group.t.
Proof. apply map_table_laws; [done..|]. by apply estate_audit. Qed.

(** * One more table *)

(** A database with the rows of a module besides its own. *)
Section extended.
Context {D X : Type} `{Odb D}.
Definition on_base (f : D -> outcome D) (d : D * X) : outcome (D * X) := e ← f d.1; Ret (e, d.2).

#[export] Instance extended_odb : Odb (D * X) := {|
  view := fun d => view d.1;
  query_username := fun d => query_username d.1;
  query_token := fun d => query_token d.1;
  reload_token := fun d => reload_token d.1;
  update_token := fun k => on_base (update_token k);
  persist_token := fun k => on_base (persist_token k);
  erase_token := fun k => on_base (erase_token k);
  update_user := fun u => on_base (update_user u);
  update_group := fun g d => '(g, e) ← update_group g d.1; Ret (g, (e, d.2));
  erase_membership := fun i => on_base (erase_membership i);
  persist_audit := fun es => on_base (persist_audit es);
|}.

Lemma extended_audit es (d d' : D * X) : persist_audit es d = Ret d' -> d'.2 = d.2.
Proof. intros Ha. by apply bind_Ret in Ha as (e & _ & [= <-]). Qed.
End extended.
