(* ===== verification/ResourceSafety.v ===== *)
(** What the resource handlers of the WebSocket API guarantee: who is shown
    what, that a request that fails changes nothing, that names of groups stay
    unique; and where they do not. Theorems about [Resources]. *)
From Stdlib Require Import ZArith Lia Ascii String.
From stdpp Require Import base tactics numbers list strings gmap.
From S2P Require Import Prelude Json AuditLog Users Credentials Schedules Security Session Store Api ApiSafety Accounts Zones Resources Estate.

Open Scope Z_scope.

Definition granted (r : outcome bool) : bool := match r with Ret true => true | _ => false end.

Lemma granted_true r : granted r = true <-> r = Ret true.
Proof. by destruct r as [[]| |]. Qed.

Lemma audit_row_run {D} `{Odb D} id e s d :
  id <> 0 -> persist_audit [e] (db s) = Ret d -> audit_row id e s = (mk_server d (sessions s), Ret tt).
Proof.
  intros Hid Ha. unfold audit_row. rewrite (proj2 (Z.eqb_neq _ _)) by done. cbn [negb cassert].
  rewrite lift_bind. unfold change_db. by rewrite Ha.
Qed.

(** * Reading *)

Section reads.
Context {D : Type} `{Odb D} {J : Type} `{Json J}.

(** Code that changes nothing. *)
Definition reader {A} (m : api D A) : Prop := forall s, (m s).1 = s.

Lemma reader_lift {A} (m : outcome A) : reader (lift m).
Proof. done. Qed.
Lemma reader_ret {A} (a : A) : reader (mret a : api D A).
Proof. done. Qed.
Lemma reader_get_db : reader (@get_db D).
Proof. done. Qed.
Lemma reader_session hdl : reader (@session D hdl).
Proof. done. Qed.
Lemma reader_bind {A B} (m : api D A) (k : A -> api D B) : reader m -> (forall a, reader (k a)) -> reader (m ≫= k).
Proof.
  intros Hm Hk s. unfold mbind, api_bind. specialize (Hm s). destruct (m s) as [s1 [a| |]]; cbn in *; subst; auto. apply Hk.
Qed.
Lemma reader_run {A} (m : api D A) s s' r : reader m -> m s = (s', r) -> s' = s /\ m s = (s, r).
Proof. intros Hm E. specialize (Hm s). rewrite E in Hm |- *. cbn in Hm. by subst. Qed.

Lemma reader_permitted hdl a ap : reader (permitted (D := D) hdl a ap).
Proof. unfold permitted. repeat first [apply reader_bind|done|intros ?]. Qed.

Lemma permitted_inv hdl a ap s s' b :
  permitted (D := D) hdl a ap s = (s', Ret b) ->
  s' = s /\ exists x, session_of hdl (sessions s) = Some x /\ APISession.check_permission (db s) x a ap = Ret b.
Proof.
  intros Hr. unfold permitted in Hr. api_inv Hr as x Hx. api_inv Hr as d Hd. apply lift_inv in Hr as [-> Hr]. eauto.
Qed.

Lemma enforce_one_inv hdl a ap s s' u :
  enforce_permission (D := D) hdl [(a, ap)] s = (s', Ret u) ->
  s' = s /\ exists x, session_of hdl (sessions s) = Some x /\ APISession.check_permission (db s) x a ap = Ret true.
Proof.
  cbn [enforce_permission]. intros Hr. api_inv Hr as x Hx. api_inv Hr as d Hd. api_inv Hr as b Hb.
  destruct b; [|done]. injection Hr as <-. eauto.
Qed.

Section rows.
Context {E : Type} `{!Table D E, !TableLaws D E}.
Context (hdl : Z) (a : SecurityContext.Action) (param : Z -> SecurityContext.ActionParam) (ser : E -> api D J).
Context (Hser : forall e, reader (ser e)).

(** The answers a session may get about the id [i]: the row with that id, when it may read it; for no id (0),
    all the rows it may read. *)
Definition shows (s : server D) (x : APISession) (i : Z) (data : J) : Prop :=
  (i <> 0 /\ exists e, In e (rows (db s)) /\ row_id e = i /\
     granted (APISession.check_permission (db s) x a (param i)) = true /\ ser e s = (s, Ret data)) \/
  (i = 0 /\ exists js, data = json_array js /\
     Forall2 (fun e j => ser e s = (s, Ret j))
       (List.filter (fun e => granted (APISession.check_permission (db s) x a (param (row_id e)))) (rows (db s))) js).

Lemma reader_readable l : reader (readable hdl a param ser l).
Proof using Hser.
  induction l as [|e l IH]; cbn [readable]; [done|]. apply reader_bind; [apply reader_permitted|]. intros []; [|done].
  apply reader_bind; [apply Hser|]. intros. by apply reader_bind.
Qed.
Lemma reader_get_row i : reader (get_row (D := D) (E := E) i).
Proof. done. Qed.

Lemma readable_run s x l s' js :
  session_of hdl (sessions s) = Some x -> readable hdl a param ser l s = (s', Ret js) ->
  s' = s /\ Forall2 (fun e j => ser e s = (s, Ret j))
    (List.filter (fun e => granted (APISession.check_permission (db s) x a (param (row_id e)))) l) js.
Proof.
  intros Hx. revert s' js. induction l as [|e l IH]; intros s' js; cbn [readable List.filter].
  - intros [= <- <-]. by split; [|constructor].
  - intros Hr. api_inv Hr as ok Hok. apply permitted_inv in Hok as (-> & y & Hy & Hc). rewrite Hx in Hy. injection Hy as <-.
    rewrite Hc. destruct ok; cbn [granted].
    + api_inv Hr as j Hj. apply (reader_run _ _ _ _ (Hser e)) in Hj as [-> Hj].
      api_inv Hr as js' Hjs. apply IH in Hjs as [-> Hjs]. injection Hr as <- <-. split; [done|]. by constructor.
    + by apply IH.
Qed.

(** The id that a request has under [key]. *)
Definition asks (key : string) (content : J) (i : Z) : Prop := (j ← at_ content key; get_size_t j) = Ret i.

(** A handler whose [read_impl] lists rows that way shows what may be read. *)
Definition reads_permitted (key : string) (c : crud D J) : Prop :=
  forall s s' type content j, ends_with type ".read" = true -> process_crud c hdl type content s = (s', Ret j) ->
  s' = s /\ exists x i data, session_of hdl (sessions s) = Some x /\ asks key content i /\
    j = data_reply data /\ shows s x i data.

Lemma reads_permitted_by (c : crud D J) key r param' :
  read_impl c = read_rows hdl key a param ser ->
  (forall verb req, crud_permission c verb req = crud_permissions key param' a r.1.1 r.1.2 r.2 verb req) ->
  (forall d x i, APISession.check_permission d x a (param' i) = APISession.check_permission d x a (param i)) ->
  reads_permitted key c.
Proof.
  intros Hread Hperm Hpar s s' type content j Htype Hr. unfold process_crud in Hr.
  unfold verb_from_request_type in Hr. rewrite Htype, lift_bind, Hperm, Hread in Hr.
  api_inv Hr as perms Hperms. unfold crud_permissions, read_rows in *.
  apply bind_Ret in Hperms as (pid & Hpid & [= <-]).
  api_inv Hr as u Hu. apply enforce_one_inv in Hu as (-> & x & Hx & Hc). rewrite Hpar in Hc.
  apply transaction_inv_ret in Hr. api_inv Hr as id Hid. rewrite Hid in Hpid. injection Hpid as ->.
  destruct (negb (pid =? 0)) eqn:E0; [apply negb_true_iff, Z.eqb_neq in E0|apply negb_false_iff, Z.eqb_eq in E0].
  - api_inv Hr as e He. unfold get_row in He. api_inv He as d Hd. apply lift_inv in He as [-> He].
    destruct (find_row pid (db s)) as [e'|] eqn:Ee; [|done]. injection He as ->.
    api_inv Hr as data Hj. apply (reader_run _ _ _ _ (Hser e)) in Hj as [-> Hj]. injection Hr as <- <-.
    split; [done|]. exists x, pid, data. split; [done|]. split; [exact Hid|]. split; [done|]. left. split; [lia|]. exists e.
    pose proof (find_id _ _ _ Ee) as Hid'. subst pid. split_and!; [by apply find_rows|done|by rewrite Hc|done].
  - api_inv Hr as d Hd. api_inv Hr as js Hjs. apply (readable_run _ _ _ _ _ Hx) in Hjs as [-> Hjs].
    injection Hr as <- <-. split; [done|]. exists x, pid, (json_array js). split; [done|]. split; [exact Hid|]. split; [done|]. right. split; [done|]. by exists js.
Qed.

End rows.
End reads.

Section listings.
Context {D : Type} `{Odb D} {J : Type} `{Json J}.
Context `{!Table D Zone.t, !Table D DoorRow.t, !Table D AccessPointRow.t, !Table D Group.t, !Table D credential, !Mappings D}.
Context `{!TableLaws D Zone.t, !TableLaws D DoorRow.t, !TableLaws D AccessPointRow.t, !TableLaws D Group.t, !TableLaws D credential}.

Lemma reader_current_user hdl : reader (GroupCRUD.current_user (D := D) hdl).
Proof. apply reader_bind; [done|]. by intros x. Qed.
Lemma reader_memberships hdl l : reader (GroupCRUD.readable_memberships (D := D) (J := J) hdl l).
Proof.
  induction l as [|m l IH]; cbn [GroupCRUD.readable_memberships]; [done|].
  apply reader_bind; [apply reader_permitted|intros ok]. by apply reader_bind.
Qed.
Lemma reader_group hdl g : reader (GroupCRUD.serialize (D := D) (J := J) hdl g).
Proof. apply reader_bind; [apply reader_memberships|done]. Qed.
Lemma reader_credential fmt c : reader (CredentialCRUD.serialize (D := D) (J := J) fmt c).
Proof. apply reader_bind; [done|]. intros d. by destruct c. Qed.

(** C22: (safety) A request to read groups, credentials, doors, zones or access points
    changes nothing. When it has an id other than 0, its answer holds the row with that
    id, which the session may read; when the id is 0, all the rows the session may read
    and no other. *)
Theorem listing_respects_permissions hdl addr_lt parse_date fmt backends service :
  (forall ap, reader (service ap)) ->
  reads_permitted hdl SecurityContext.GROUP_READ SecurityContext.group (GroupCRUD.serialize hdl) "group_id"
    (GroupCRUD.handler (J := J) addr_lt hdl) /\
  reads_permitted hdl SecurityContext.CREDENTIAL_READ SecurityContext.cred (CredentialCRUD.serialize fmt) "credential_id"
    (CredentialCRUD.handler (J := J) parse_date fmt hdl) /\
  reads_permitted hdl SecurityContext.DOOR_READ SecurityContext.door (fun e => mret (DoorCRUD.serialize e)) "door_id"
    (DoorCRUD.handler (J := J) hdl) /\
  reads_permitted hdl SecurityContext.ZONE_READ SecurityContext.zone (fun e => mret (ZoneCRUD.serialize e)) "zone_id"
    (ZoneCRUD.handler (J := J) hdl) /\
  reads_permitted hdl SecurityContext.ACCESS_POINT_READ SecurityContext.access_point service "access_point_id"
    (AccessPointCRUD.handler (J := J) backends service hdl).
Proof.
  intros Hs. refine (conj _ (conj _ (conj _ (conj _ _)))).
  - by refine (reads_permitted_by _ _ _ _ (reader_group hdl) _ "group_id" (_, _, _) SecurityContext.group _ _ _).
  - by refine (reads_permitted_by _ _ _ _ (reader_credential fmt) _ "credential_id" (_, _, _) SecurityContext.group _ _ _).
  - by refine (reads_permitted_by _ _ _ _ (fun e => reader_ret _) _ "door_id" (_, _, _) SecurityContext.door _ _ _).
  - by refine (reads_permitted_by _ _ _ _ (fun e => reader_ret _) _ "zone_id" (_, _, _) SecurityContext.zone _ _ _).
  - by refine (reads_permitted_by _ _ _ _ Hs _ "access_point_id" (_, _, _) SecurityContext.access_point _ _ _).
Qed.

End listings.

(** * Failures *)

Section failures.
Context {D : Type} `{Odb D} {J : Type} `{Json J}.

(** Either it succeeds, or the database is as before. *)
Definition all_or_nothing {A} (m : api D A) : Prop :=
  forall s s' r, m s = (s', r) -> (exists a, r = Ret a) \/ db s' = db s.

Lemma atomic_transaction {A} (m : api D A) : all_or_nothing (transaction m).
Proof. intros s s' r. unfold transaction. destruct (m s) as [s1 [a| |]]; intros [= <- <-]; eauto. Qed.
Lemma atomic_bind {A B} (m : api D A) (k : A -> api D B) :
  reader m -> (forall a, all_or_nothing (k a)) -> all_or_nothing (m ≫= k).
Proof.
  intros Hm Hk s s' r. unfold mbind, api_bind. specialize (Hm s). destruct (m s) as [s1 [a|e|f]]; cbn in Hm; subst s1.
  - apply Hk.
  - intros [= <- <-]. by right.
  - intros [= <- <-]. by right.
Qed.
Lemma reader_enforce hdl perms : reader (enforce_permission (D := D) hdl perms).
Proof.
  induction perms as [|[a ap] perms IH]; cbn [enforce_permission]; [done|].
  repeat (apply reader_bind; [done|intros ?]). by case_match.
Qed.
Lemma atomic_crud (c : crud D J) hdl type content :
  (forall j, all_or_nothing (read_impl c j)) -> (forall j, all_or_nothing (create_impl c j)) ->
  (forall j, all_or_nothing (update_impl c j)) -> (forall j, all_or_nothing (delete_impl c j)) ->
  all_or_nothing (process_crud c hdl type content).
Proof.
  intros. do 2 (apply atomic_bind; [done|intros ?]). apply atomic_bind; [apply reader_enforce|intros ?]. by case_match.
Qed.

Context `{!Table D Zone.t, !Table D DoorRow.t, !Table D AccessPointRow.t, !Table D Group.t, !Table D credential}.
Context `{!Table D MappingRow.t, !Table D ScheduleRow.t, !Mappings D}.

(** (safety) A request on groups, credentials, schedules, doors or zones that ends
    with an exception or an assertion that fails, at whatever step, leaves the
    database as it was. *)
Theorem failed_requests_change_nothing addr_lt parse_date fmt hdl type (content : J) :
  all_or_nothing (process_crud (GroupCRUD.handler addr_lt hdl) hdl type content) /\
  all_or_nothing (process_crud (CredentialCRUD.handler parse_date fmt hdl) hdl type content) /\
  all_or_nothing (process_crud (ScheduleCRUD.handler (D := D)) hdl type content) /\
  all_or_nothing (process_crud (DoorCRUD.handler (D := D) hdl) hdl type content) /\
  all_or_nothing (process_crud (ZoneCRUD.handler (D := D) hdl) hdl type content).
Proof.
  refine (conj _ (conj _ (conj _ (conj _ _)))); apply atomic_crud; intros j;
    repeat first [apply atomic_transaction | apply atomic_bind; [done|intros ?]].
Qed.
End failures.

(** * Doors *)

Section doors.
Context {D : Type} `{Odb D, !Table D DoorRow.t, !TableLaws D DoorRow.t, !Table D AccessPointRow.t} {J : Type} `{Json J}.
Context (door_id : forall r : DoorRow.t, row_id r = DoorRow.id_ r).

(** (error) A door that has an access point cannot be updated and keep it: the
    check that no door refers to the access point yet finds the door itself,
    and the update fails. *)
Theorem door_update_refused s (req attributes : J) door door' d1 :
  id_of "door_id" req = Ret (DoorRow.id_ door) -> DoorRow.id_ door <> 0 ->
  find_row (DoorRow.id_ door) (db s) = Some door -> DoorRow.access_point_id door <> 0 ->
  persist_audit [DOOR_UPDATED] (db s) = Ret d1 ->
  at_ req "attributes" = Ret attributes -> DoorCRUD.unserialize door attributes d1 = Ret door' ->
  DoorRow.access_point_id door' = DoorRow.access_point_id door ->
  exists msg, DoorCRUD.update req s = (s, Throw (LEOSACException msg)).
Proof.
  intros Hid Hnz Hfind Hap Haudit Hattr Hun Hsame.
  assert (Hrow : find_row (DoorRow.id_ door) d1 = Some door) by (by rewrite (audit_find _ _ _ _ Haudit)).
  destruct (List.find (fun r => DoorRow.access_point_id r =? DoorRow.access_point_id door) (rows d1)) as [other|] eqn:Eo.
  2: { assert (Hin : In door (rows d1)) by (apply find_rows; by rewrite door_id).
       pose proof (List.find_none _ _ Eo door Hin) as Hn. cbn in Hn. by rewrite Z.eqb_refl in Hn. }
  unfold DoorCRUD.update, transaction. rewrite Hid, lift_bind.
  rewrite (bind_at (get_row (DoorRow.id_ door)) _ s s door) by (unfold get_row; by rewrite get_db_bind, Hfind).
  rewrite door_id, (bind_at _ _ _ _ _ (audit_row_run _ _ _ _ Hnz Haudit)).
  rewrite Hattr, lift_bind, get_db_bind. cbn [db]. rewrite Hun, lift_bind.
  assert (exists msg, DoorCRUD.enforce_ap_not_already_referenced (DoorRow.access_point_id door') (mk_server d1 (sessions s)) =
    (mk_server d1 (sessions s), Throw (LEOSACException msg))) as [msg Hmsg].
  { unfold DoorCRUD.enforce_ap_not_already_referenced. rewrite Hsame, (proj2 (Z.eqb_neq _ _)) by done.
    rewrite get_db_bind. cbn [db]. rewrite Eo. by eexists. }
  exists msg. rewrite (bind_throw _ _ _ _ _ Hmsg). by destruct s.
Qed.
End doors.

(** * Names of groups *)

(** What the mapper documents of the rows of groups. *)
Class GroupRows (D : Type) `{Odb D, !Table D Group.t} := {
  group_key (g : Group.t) : row_id g = Group.id_ g;
  persist_group_name (g g' : Group.t) (d d' : D) : persist_row g d = Ret (g', d') -> Group.name_ g' = Group.name_ g;
  update_group_row (g g' : Group.t) (d d' : D) : update_group g d = Ret (g', d') ->
    Group.name_ g' = Group.name_ g /\
    forall i, find_row i d' = if i =? Group.id_ g then Some g' else find_row (E := Group.t) i d;
}.

Section names.
Context {D : Type} `{Odb D, !Table D Group.t, !TableLaws D Group.t, !GroupRows D, !Mappings D} {J : Type} `{Json J}.

Definition unique_names (d : D) : Prop :=
  forall i j (g h : Group.t), find_row i d = Some g -> find_row j d = Some h -> Group.name_ g = Group.name_ h -> i = j.

Lemma unique_same (d d' : D) : (forall i, find_row (E := Group.t) i d' = find_row i d) -> unique_names d -> unique_names d'.
Proof. intros Hs Hu i j g h. rewrite !Hs. apply Hu. Qed.
Lemma unique_audit es (d d' : D) : persist_audit es d = Ret d' -> unique_names d -> unique_names d'.
Proof. intros Ha. apply unique_same. intros i. by apply (audit_find _ _ _ _ Ha). Qed.

(** No other group than [k] has the name. *)
Definition name_free (name : string) (k : Z) (d : D) : Prop :=
  forall j (h : Group.t), find_row j d = Some h -> Group.name_ h = name -> j = k.

Lemma unique_put k (g : Group.t) (d d' : D) :
  (forall i, find_row i d' = if i =? k then Some g else find_row i d) ->
  name_free (Group.name_ g) k d -> unique_names d -> unique_names d'.
Proof.
  intros Hrow Hfree Hu i j a b. rewrite !Hrow.
  destruct (Z.eqb_spec i k) as [->|Hi], (Z.eqb_spec j k) as [->|Hj]; intros; simplify_eq; try done.
  - symmetry. by eapply Hfree.
  - by eapply Hfree.
  - by eapply Hu.
Qed.

Lemma validate_unique grp s s' u :
  GroupCRUD.validate_and_unique (D := D) grp s = (s', Ret u) ->
  s' = s /\ forall j (h : Group.t), find_row j (db s) = Some h -> Group.name_ h = Group.name_ grp -> j = Group.id_ grp.
Proof.
  unfold GroupCRUD.validate_and_unique. intros Hr. api_inv Hr as v Hv. api_inv Hr as d Hd.
  assert (Hin : forall j (h : Group.t), find_row j (db s) = Some h -> Group.name_ h = Group.name_ grp ->
    In h (List.filter (fun g => String.eqb (Group.name_ g) (Group.name_ grp)) (rows (db s))) /\ j = Group.id_ h).
  { intros j h Hh Hn. pose proof (find_id _ _ _ Hh) as Hj. rewrite <- group_key, Hj. split; [|done].
    apply filter_In. split; [apply find_rows; by rewrite Hj|by apply String.eqb_eq]. }
  destruct (List.filter _ _) as [|g [|g' l]].
  - injection Hr as <- _. split; [done|]. intros j h Hh Hn. by destruct (Hin j h Hh Hn).
  - destruct (Z.eqb_spec (Group.id_ g) (Group.id_ grp)) as [He|]; [|done]. injection Hr as <- _. split; [done|].
    intros j h Hh Hn. destruct (Hin j h Hh Hn) as [[->|[]] ->]. done.
  - done.
Qed.

Lemma unserialize_group_id (g g' : Group.t) (in_ : J) :
  GroupCRUD.unserialize g in_ = Ret g' -> Group.id_ g' = Group.id_ g.
Proof.
  unfold GroupCRUD.unserialize. intros Hu. bind_inv Hu. injection Hu as <-. cbn.
  unfold Group.set_name in E0. bind_inv E0. by injection E0 as <-.
Qed.

Lemma change_row_inv {A} (f : D -> outcome (A * D)) s s' a :
  change_row f s = (s', Ret a) -> exists d, f (db s) = Ret (a, d) /\ s' = mk_server d (sessions s).
Proof.
  unfold change_row. intros Hr. api_inv Hr as d Hd. api_inv Hr as p Hp. destruct p as [b d']. injection Hr as <- <-. eauto.
Qed.
Lemma audit_row_inv id e s s' u :
  audit_row (D := D) id e s = (s', Ret u) -> exists d, persist_audit [e] (db s) = Ret d /\ s' = mk_server d (sessions s).
Proof. unfold audit_row. intros Hr. api_inv Hr as t Ht. by apply change_db_inv in Hr. Qed.

Lemma membership_audit_inv g u e s s' v :
  MembershipCRUD.audit (D := D) g u e s = (s', Ret v) -> exists d, persist_audit [e] (db s) = Ret d /\ s' = mk_server d (sessions s).
Proof.
  unfold MembershipCRUD.audit. intros Hr. api_inv Hr as a Ha. api_inv Hr as b Hb. api_inv Hr as c Hc. api_inv Hr as t Ht.
  by apply change_db_inv in Hr.
Qed.

Lemma unique_update (g g' : Group.t) (d d' : D) :
  update_group g d = Ret (g', d') -> name_free (Group.name_ g) (Group.id_ g) d -> unique_names d -> unique_names d'.
Proof. intros Hup Hfree. apply update_group_row in Hup as [Hn Hrow]. apply (unique_put _ _ _ _ Hrow). by rewrite Hn. Qed.
Lemma name_free_row k (g : Group.t) (d : D) : unique_names d -> find_row k d = Some g -> name_free (Group.name_ g) k d.
Proof. intros Hu Hg j h Hh Hn. by eapply Hu. Qed.

(** Keeps the names unique when it succeeds. *)
Definition keeps_names {A} (m : api D A) : Prop :=
  forall s s' a, m s = (s', Ret a) -> unique_names (db s) -> unique_names (db s').

Lemma create_keeps_names addr_lt hdl (req : J) : keeps_names (GroupCRUD.create addr_lt hdl req).
Proof.
  intros s s' j Hr Hu. apply transaction_inv_ret in Hr. api_inv Hr as attrs Ha. api_inv Hr as g Hg. api_inv Hr as v Hv.
  apply validate_unique in Hv as [-> Hfree]. apply unserialize_group_id in Hg.
  api_inv Hr as g1 H1. apply change_row_inv in H1 as (d1 & H1 & ->). pose proof (persist_group_name _ _ _ _ H1) as Hn1.
  assert (Hrow : forall i, find_row i d1 = if i =? row_id g1 then Some g1 else find_row i (db s))
    by (intros i; by apply (persist_find _ _ _ _ i H1)).
  assert (Hu1 : unique_names d1).
  { apply (unique_put _ _ _ _ Hrow); [|done]. intros k h Hh Hn. exfalso.
    rewrite (Hfree k h Hh) in Hh by congruence. rewrite Hg in Hh. cbn in Hh. by rewrite find_zero in Hh. }
  api_inv Hr as t2 H2. apply audit_row_inv in H2 as (d2 & H2 & ->). cbn [db sessions] in *.
  api_inv Hr as u Huser. apply (reader_run _ _ _ _ (reader_current_user hdl)) in Huser as [-> _].
  api_inv Hr as t3 H3. apply membership_audit_inv in H3 as (d3 & H3 & ->). api_inv Hr as w Hw. cbn [db sessions] in *.
  destruct (Group.member_add _ _ _ _) as [g2 ugm] eqn:Eadd.
  assert (Hg2 : Group.id_ g2 = row_id g1 /\ Group.name_ g2 = Group.name_ g1)
    by (rewrite group_key; unfold Group.member_add in Eadd; by injection Eadd as <- _).
  destruct Hg2 as [Hid2 Hn2].
  api_inv Hr as g3 H4. apply change_row_inv in H4 as (d4 & H4 & ->).
  api_inv Hr as k Hk. apply (reader_run _ _ _ _ (reader_group hdl g3)) in Hk as [-> _]. injection Hr as <- _. cbn [db] in *.
  assert (Hu3 : unique_names d3) by (eapply unique_audit, unique_audit; eassumption).
  apply (unique_update _ _ _ _ H4); [|done]. rewrite Hn2, Hid2. apply name_free_row; [done|].
  rewrite (audit_find _ _ _ _ H3), (audit_find _ _ _ _ H2), Hrow. by rewrite Z.eqb_refl.
Qed.

Lemma update_keeps_names hdl (req : J) : keeps_names (GroupCRUD.update hdl req).
Proof.
  intros s s' j Hr Hu. apply transaction_inv_ret in Hr. api_inv Hr as gid Hid. api_inv Hr as g Hg.
  apply (reader_run _ _ _ _ (reader_get_row gid)) in Hg as [-> _].
  api_inv Hr as t H1. apply audit_row_inv in H1 as (d1 & H1 & ->). api_inv Hr as attrs Ha. api_inv Hr as g' Hg'.
  api_inv Hr as v Hv. apply validate_unique in Hv as [-> Hfree]. cbn [db sessions] in *.
  api_inv Hr as g3 H4. apply change_row_inv in H4 as (d4 & H4 & ->).
  api_inv Hr as k Hk. apply (reader_run _ _ _ _ (reader_group hdl g3)) in Hk as [-> _]. injection Hr as <- _. cbn [db] in *.
  apply (unique_update _ _ _ _ H4); [exact Hfree|by apply (unique_audit _ _ _ H1)].
Qed.

Lemma delete_keeps_names (req : J) : keeps_names (GroupCRUD.delete (D := D) req).
Proof.
  intros s s' j Hr Hu. unfold GroupCRUD.delete in Hr. api_inv Hr as gid Hid. apply transaction_inv_ret in Hr. api_inv Hr as g Hg.
  apply (reader_run _ _ _ _ (reader_get_row gid)) in Hg as [-> _].
  api_inv Hr as t H1. apply audit_row_inv in H1 as (d1 & H1 & ->). api_inv Hr as t2 H2. injection Hr as <- _. cbn [db] in *.
  apply (unique_audit _ _ _ H1) in Hu. intros i k a b. rewrite !(erase_find _ _ _ _ H2).
  do 2 (case_match; [done|]). apply Hu.
Qed.

Lemma read_keeps_names hdl (req : J) : keeps_names (GroupCRUD.read (D := D) hdl req).
Proof.
  intros s s' j Hr. apply transaction_inv_ret in Hr. api_inv Hr as id Hid. destruct (negb _).
  - api_inv Hr as g Hg. apply (reader_run _ _ _ _ (reader_get_row id)) in Hg as [-> _].
    api_inv Hr as k Hk. apply (reader_run _ _ _ _ (reader_group hdl g)) in Hk as [-> _]. by injection Hr as <- _.
  - api_inv Hr as d Hd. api_inv Hr as js Hjs.
    pose proof (reader_readable hdl SecurityContext.GROUP_READ SecurityContext.group _ (reader_group hdl) (rows (db s))) as Hrd.
    apply (reader_run _ _ _ _ Hrd) in Hjs as [-> _]. by injection Hr as <- _.
Qed.

(** C25: (invariant) Whatever a request on groups does, however it ends, no two groups
    have the same name afterwards when none had before. *)
Theorem group_names_unique addr_lt hdl type (content : J) s s' r :
  process_crud (GroupCRUD.handler addr_lt hdl) hdl type content s = (s', r) ->
  unique_names (db s) -> unique_names (db s').
Proof.
  intros Hr Hu. pose proof (atomic_crud (GroupCRUD.handler addr_lt hdl) hdl type content) as Hat.
  destruct (Hat (fun j => atomic_transaction _) (fun j => atomic_transaction _) (fun j => atomic_transaction _)
    (fun j => atomic_bind _ _ (reader_lift _) (fun _ => atomic_transaction _)) _ _ _ Hr) as [[j ->]| ->]; [|done].
  unfold process_crud in Hr. api_inv Hr as verb Hv. api_inv Hr as perms Hp. api_inv Hr as t Ht.
  apply (reader_run _ _ _ _ (reader_enforce hdl perms)) in Ht as [-> _]. destruct verb; cbn in Hr.
  - by apply read_keeps_names in Hr; auto.
  - by apply create_keeps_names in Hr; auto.
  - by apply update_keeps_names in Hr; auto.
  - by apply delete_keeps_names in Hr; auto.
Qed.
End names.

(** * Schedules *)

Section schedule_reads.
Context {D : Type} `{Odb D} {J : Type} `{Json J}.
Context `{!Table D credential, !Table D DoorRow.t, !Table D MappingRow.t, !Table D ScheduleRow.t, !Mappings D}.

Lemma mapA_total {A B} (f : A -> api D B) l s :
  (forall a, In a l -> exists b, f a s = (s, Ret b)) -> exists bs, mapA f l s = (s, Ret bs).
Proof.
  induction l as [|a l IH]; intros Hf; cbn [mapA]; [by exists []|].
  destruct (Hf a (or_introl eq_refl)) as [b Hb], IH as [bs Hbs]; [intros x Hx; apply Hf; by right|].
  exists (b :: bs). rewrite (bind_at _ _ _ _ _ Hb), (bind_at _ _ _ _ _ Hbs). done.
Qed.

(** The credentials a schedule's mappings name are there, as cards or PINs. *)
Definition mappings_loadable (d : D) : Prop :=
  forall r m i, In r (rows (E := ScheduleRow.t) d) -> In m (ScheduleRow.mappings_ r) ->
  In i (ScheduleMapping.creds_ (MappingRow.mapping_ m)) ->
  exists c t, find_row (E := credential) i d = Some c /\ ScheduleMappingJSON.type_name c = Ret t.

Lemma read_permission key param r c u d (req : J) id :
  id_of key req = Ret id -> crud_permissions key param r c u d READ req = Ret [(r, param id)].
Proof. unfold crud_permissions. by intros ->. Qed.

Lemma infos_total s r : mappings_loadable (db s) -> In r (rows (db s)) ->
  exists js, ScheduleCRUD.include_schedule_mapping_infos (J := J) r s = (s, Ret js).
Proof.
  intros Hl Hr. apply mapA_total. intros m Hm.
  assert (exists js, mapA (ScheduleMappingJSON.credential_reference (J := J)) (ScheduleMapping.creds_ (MappingRow.mapping_ m)) s =
    (s, Ret js)) as [js Hjs].
  { apply mapA_total. intros i Hi. destruct (Hl r m i Hr Hm Hi) as (c & t & Hc & Ht).
    unfold ScheduleMappingJSON.credential_reference. rewrite get_db_bind, Hc, Ht, lift_bind. by eexists. }
  unfold ScheduleMappingJSON.serialize. rewrite (bind_at _ _ _ _ _ Hjs). by eexists.
Qed.

(** (error) The list of the schedules shows a logged-in user those the user may
    not read, which a request for them alone refuses. *)
Theorem schedule_list_unfiltered s hdl x uid r (one all : J) :
  session_of hdl (sessions s) = Some x -> security_ x = Some uid -> mappings_loadable (db s) ->
  In r (rows (db s)) -> APISession.check_permission (db s) x SecurityContext.SCHEDULE_READ (SecurityContext.sched (row_id r)) = Ret false ->
  id_of "schedule_id" one = Ret (row_id r) -> id_of "schedule_id" all = Ret 0 ->
  process_crud ScheduleCRUD.handler hdl "schedule.read" one s = (s, Throw PermissionDenied) /\
  exists js infos, process_crud ScheduleCRUD.handler hdl "schedule.read" all s =
    (s, Ret (ScheduleCRUD.full_reply (json_array js) infos)) /\ In (ScheduleCRUD.serialize (db s) r) js.
Proof.
  intros Hx Hsec Hload Hr Hno Hone Hall. unfold process_crud.
  change (verb_from_request_type "schedule.read") with (Ret READ). rewrite !lift_bind. cbn [crud_permission ScheduleCRUD.handler read_impl].
  rewrite (read_permission _ _ _ _ _ _ _ _ Hone), (read_permission _ _ _ _ _ _ _ _ Hall). split.
  - cbn [enforce_permission]. erewrite bind_throw; [reflexivity|].
    rewrite (session_bind _ _ _ _ Hx), get_db_bind, Hno, lift_bind. reflexivity.
  - erewrite bind_at.
    2: { cbn [enforce_permission]. rewrite (session_bind _ _ _ _ Hx), get_db_bind. unfold APISession.check_permission. rewrite Hsec.
      assert (Hok : SecurityContext.check_permission (as_user_of uid (view (db s))) SecurityContext.SCHEDULE_READ (SecurityContext.sched 0) = Ret true).
      { unfold SecurityContext.check_permission. cbn [SecurityContext.check_permission_impl user_context]. rewrite Facts.check_unfold.
        unfold UserSecurityContext.check_step. destruct (UserSecurityContext.is_admin _); [done|]. cbn.
        unfold UserSecurityContext.can_read_schedule. by rewrite orb_true_r. }
      rewrite Hok, lift_bind. reflexivity. }
    destruct (mapA_total (ScheduleCRUD.include_schedule_mapping_infos (J := J)) (rows (db s)) s) as [infos Hinfos].
    { intros r' Hr'. by apply infos_total. }
    exists (map (ScheduleCRUD.serialize (db s)) (rows (db s))), (concat infos). split; [|by apply in_map].
    unfold ScheduleCRUD.read, transaction. rewrite Hall, lift_bind. cbn [negb Z.eqb]. rewrite get_db_bind.
    by rewrite (bind_at _ _ _ _ _ Hinfos).
Qed.
End schedule_reads.

Section schedule_json.
Context {J : Type} `{JsonLaws J}.

Lemma parse_time_json h m : 0 <= h < 24 -> 0 <= m < 60 -> ScheduleJSON.parse_time (time_text h m) = Ret (h, m).
Proof.
  intros Hh Hm.
  assert (Hall : forallb (fun h => forallb (fun m =>
    bool_decide (ScheduleJSON.parse_time (time_text h m) = Ret (h, m))) (seqZ 0 60)) (seqZ 0 24) = true)
    by (vm_compute; reflexivity).
  pose proof (forallb_seqZ _ _ _ Hall Hh) as H1. cbn beta in H1.
  exact (bool_decide_eq_true_1 _ (forallb_seqZ _ _ _ H1 Hm)).
Qed.

Lemma int32_small z : - 2 ^ 31 <= z < 2 ^ 31 -> as_int32 z = z.
Proof. intros Hz. unfold as_int32. rewrite Z.mod_small by lia. lia. Qed.

Lemma add_timeframe_json i f s : frame_ok f ->
  ScheduleJSON.add_timeframe s (ScheduleJSON.timeframe_json i f) = Ret (Schedule.add_timeframe f s).
Proof.
  intros (Hd & Hsh & Hsm & Heh & Hem). unfold ScheduleJSON.add_timeframe, ScheduleJSON.timeframe_json.
  rewrite !at_object. cbn -[ScheduleJSON.parse_time to_string]. rewrite !string_read.
  cbn -[ScheduleJSON.parse_time to_string].
  change (to_string ?h +:+ ":" +:+ to_string ?m) with (time_text h m).
  rewrite !parse_time_json by done. cbn. unfold get_int. rewrite number_read. cbn.
  rewrite int32_small by lia. by destruct f.
Qed.
Lemma add_timeframes_json l i s : Forall frame_ok l ->
  foldM ScheduleJSON.add_timeframe s (zip_with ScheduleJSON.timeframe_json (seqZ i (Z.of_nat (length l))) l) =
  Ret (Schedule.mk (Schedule.name_ s) (Schedule.description_ s) (Schedule.timeframes_ s ++ l)).
Proof.
  revert i s. induction l as [|f l IH]; intros i s Hl.
  - cbn. by rewrite app_nil_r; destruct s.
  - inversion Hl; subst. cbn [length]. rewrite Nat2Z.inj_succ, seqZ_cons by lia. cbn [zip_with foldM].
    rewrite add_timeframe_json by done. replace (Z.pred (Z.succ (Z.of_nat (length l)))) with (Z.of_nat (length l)) by lia.
    cbn [mbind outcome_bind]. rewrite IH by done. cbn. by rewrite <- app_assoc.
Qed.

Lemma text_attribute l key s d :
  List.find (fun kv => String.eqb kv.1 key) l = Some (key, json_string s) ->
  JSONUtil.extract_with_default get_string (json_object l) key d = Ret s.
Proof.
  intros Hf. unfold JSONUtil.extract_with_default. rewrite at_object, Hf. cbn [snd]. by rewrite null_string, string_read.
Qed.

(** (roundtrip) The attributes the API gives of a schedule with a valid name,
    sent back, make the same schedule, whatever the schedule they are put in
    held. *)
Theorem schedule_json_roundtrip version s out :
  Schedule.validate_name (Schedule.name_ s) = Ret tt -> Forall frame_ok (Schedule.timeframes_ s) ->
  ScheduleJSON.unserialize out (ScheduleJSON.attributes (J := J) version s) = Ret s.
Proof.
  intros Hname Hf. unfold ScheduleJSON.unserialize, ScheduleJSON.attributes.
  rewrite (text_attribute _ _ (Schedule.name_ s)) by done. cbn [mbind outcome_bind]. unfold Schedule.set_name. rewrite Hname.
  cbn [mbind outcome_bind]. rewrite (text_attribute _ _ (Schedule.description_ s)) by done. cbn [mbind outcome_bind].
  rewrite at_object. cbn [List.find fst snd String.eqb Ascii.eqb Bool.eqb]. cbn [mbind outcome_bind].
  rewrite array_elements, add_timeframes_json by done. by destruct s.
Qed.
End schedule_json.

(** * Credentials *)

Section credential_dates.
Context {J : Type} `{Json J}.

Lemma extract_time_missing parse_date (in_ : J) key tp :
  at_ in_ key = Throw JsonOutOfRange -> UserCRUD.extract_time parse_date in_ key tp = Ret tp.
Proof. unfold UserCRUD.extract_time, JSONUtil.extract_with_default. by intros ->. Qed.

(** (error) An update of a credential that gives no validity dates loses the dates
    the credential had, and the default range takes their place. *)
Theorem credential_update_loses_dates parse_date out out' (in_ : J) :
  at_ in_ "validity-start" = Throw JsonOutOfRange -> at_ in_ "validity-end" = Throw JsonOutOfRange ->
  CredentialCRUD.unserialize_base parse_date out in_ = Ret out' ->
  ValidityInfo.start_ (Credential.validity_ out') = ValidityInfo.time_point_min /\
  ValidityInfo.end_ (Credential.validity_ out') = ValidityInfo.time_point_max.
Proof.
  intros Hs He Hu. unfold CredentialCRUD.unserialize_base in Hu. bind_inv Hu. cbn zeta in Hu. bind_inv Hu.
  unfold UserCRUD.extract_validity_with_default in E2. bind_inv E2. injection E2 as <-.
  rewrite (extract_time_missing parse_date in_ ("validity" +:+ "-start") _ Hs) in E5.
  rewrite (extract_time_missing parse_date in_ ("validity" +:+ "-end") _ He) in E6.
  injection E5 as <-. injection E6 as <-. case_match; by injection Hu as <-.
Qed.
End credential_dates.

(** * Witnesses *)

#[export] Instance estate_groups : GroupRows estate.
Proof.
  split; [done|by intros g g' d d' [= <- _]|]. intros g g' d d'. cbn. unfold present, keyed.
  destruct (Z.eqb_spec (Group.id_ g) 0) as [|Hnz]; [done|]. destruct (group_row _ _) eqn:Er; [|done]. intros [= <- <-].
  split; [done|]. intros i. destruct (Z.eqb_spec i (Group.id_ g)) as [->|Hn].
  - rewrite (proj2 (Z.eqb_neq _ _)) by done. cbn. by rewrite lookup_insert_eq, row_self.
  - cbn. by rewrite lookup_insert_ne.
Qed.

(** Two doors, of which bob may read the first, and two schedules, of which bob
    may read the first as well. *)
Definition demo_door : DoorRow.t := DoorRow.mk 5 "front" "" 2.
Definition demo_door2 : DoorRow.t := DoorRow.mk 6 "vault" "" 0.
Definition demo_mapping : MappingRow.t := MappingRow.mk 1 (ScheduleMapping.mk "" None [3] [] [4] [5] []) 1.
Definition demo_row : ScheduleRow.t := ScheduleRow.mk 1 demo_schedule [demo_mapping].
Definition demo_row2 : ScheduleRow.t := ScheduleRow.mk 2 (Schedule.mk "night" "" []) [].
Definition demo_card : credential := Card (RFIDCard.mk (Credential.mk 4 (Some 3) "card" "" (ValidityInfo.mk 5 9 true)) "aa:bb:cc:dd" 32).

Definition demo_estate : estate :=
  mk_estate demo_store {[ 5 := demo_door; 6 := demo_door2 ]} {[ 2 := AccessPointRow.mk 2 "ap" "" "wiegand" 5 ]} ∅
    {[ 4 := demo_card ]} {[ 1 := demo_mapping ]} {[ 1 := demo_row; 2 := demo_row2 ]}.

Definition bob_here : server estate := mk_server demo_estate [(1, mk_session LOGGED_IN (Some bob_token) (Some 3))].
Definition admin_here : server estate := mk_server demo_estate [(1, mk_session LOGGED_IN (Some admin_token) (Some 1))].

Definition with_id (key : string) (i : Z) : json := JObject [(key, JNumber i)].

Lemma listing_respects_witness :
  process_crud (DoorCRUD.handler 1) 1 "door.read" (with_id "door_id" 0) bob_here =
    (bob_here, Ret (data_reply (json_array [DoorCRUD.serialize demo_door]))) /\
  reads_permitted (J := json) 1 SecurityContext.DOOR_READ SecurityContext.door (fun e => mret (DoorCRUD.serialize e)) "door_id"
    (DoorCRUD.handler (D := estate) 1).
Proof.
  split; [vm_compute; reflexivity|].
  apply (listing_respects_permissions (D := estate) (J := json) 1 no_address no_date (fun _ => "") (fun _ => None)
    (fun ap => mret (AccessPointCRUD.serialize ap)) (fun ap => reader_ret _)).
Defined.

Definition edit_front : json := JObject [("door_id", JNumber 5); ("attributes", JObject [("alias", JString "main")])].

Lemma door_key (r : DoorRow.t) : row_id (D := estate) r = DoorRow.id_ r.
Proof. done. Qed.

Lemma door_update_witness : exists msg, DoorCRUD.update edit_front admin_here = (admin_here, Throw (LEOSACException msg)).
Proof.
  eapply (door_update_refused (D := estate) door_key admin_here edit_front _ demo_door (DoorRow.mk 5 "main" "" 2));
    first [done|vm_compute; reflexivity].
Defined.

Lemma demo_names : unique_names demo_estate.
Proof.
  intros i j g h Hg Hh. apply keyed_some in Hg as (_ & Hg & _). apply keyed_some in Hh as (_ & Hh & _). cbn in Hg, Hh.
  rewrite lookup_insert_Some, lookup_singleton_Some in Hg, Hh.
  destruct Hg as [[<- <-]|[_ [<- <-]]], Hh as [[<- <-]|[_ [<- <-]]]; done.
Qed.

Definition new_group (name : string) : json := JObject [("attributes", JObject [("name", JString name)])].
Abbreviation group_request name := (process_crud (GroupCRUD.handler no_address 1) 1 "group.create" (new_group name)).

Lemma group_names_witness :
  (group_request "board" bob_here).2 = Throw (ModelException "data/attributes/name" "A group named board already exists.") /\
  (exists j, (group_request "guests" admin_here).2 = Ret j) /\
  unique_names (db (group_request "guests" admin_here).1).
Proof.
  split; [vm_compute; reflexivity|]. split; [eexists; vm_compute; reflexivity|].
  exact (group_names_unique (D := estate) no_address 1 "group.create" (new_group "guests") admin_here
    (group_request "guests" admin_here).1 (group_request "guests" admin_here).2 (surjective_pairing _) demo_names).
Defined.

Lemma demo_schedules : rows (db bob_here) = [demo_row2; demo_row].
Proof. vm_compute. reflexivity. Qed.

Lemma schedule_list_witness :
  process_crud ScheduleCRUD.handler 1 "schedule.read" (with_id "schedule_id" 2) bob_here = (bob_here, Throw PermissionDenied) /\
  exists js infos, process_crud ScheduleCRUD.handler 1 "schedule.read" (with_id "schedule_id" 0) bob_here =
    (bob_here, Ret (ScheduleCRUD.full_reply (json_array js) infos)) /\ In (ScheduleCRUD.serialize demo_estate demo_row2) js.
Proof.
  apply (schedule_list_unfiltered (D := estate) bob_here 1 (mk_session LOGGED_IN (Some bob_token) (Some 3)) 3 demo_row2);
    try first [done|vm_compute; reflexivity].
  - intros r m i Hr Hm Hi. rewrite demo_schedules in Hr.
    destruct Hr as [<-|[<-|[]]]; [done|]. destruct Hm as [<-|[]]. destruct Hi as [<-|[]].
    exists demo_card, "rfid-card". by split.
  - rewrite demo_schedules. by left.
Defined.

Lemma schedule_json_witness :
  ScheduleJSON.unserialize (Schedule.make "old") (ScheduleJSON.attributes (J := json) 1 demo_schedule) = Ret demo_schedule.
Proof. apply (schedule_json_roundtrip (J := json)); [reflexivity|]. by repeat constructor. Defined.

Lemma credential_dates_witness :
  exists out', CredentialCRUD.unserialize_base no_date (base demo_card) (JObject [("alias", JString "mine")]) = Ret out' /\
  ValidityInfo.start_ (Credential.validity_ (base demo_card)) = 5 /\
  ValidityInfo.start_ (Credential.validity_ out') = ValidityInfo.time_point_min /\
  ValidityInfo.end_ (Credential.validity_ out') = ValidityInfo.time_point_max.
Proof.
  eexists. split; [vm_compute; reflexivity|]. split; [reflexivity|].
  eapply (credential_update_loses_dates (J := json) no_date (base demo_card) _ (JObject [("alias", JString "mine")]));
    vm_compute; reflexivity.
Defined.
