(* ===== verification/AuthFile.v ===== *)
(** The file authentication module, [src/modules/auth/auth-file/]: loading the
    configuration ([FileAuthSourceMapper.cpp]), mapping a credential to its
    owner, building the access profile, and answering an authentication
    request ([AuthFileInstance.cpp]).

    Shared objects are a store: users by id, groups by name, credentials by
    value, with the id of their owner. The doors and zones of a schedule
    mapping are weak pointers; [heap] holds the objects still alive, so
    [lock] is a lookup in it. Parameters: the property tree, the parsing of a
    date, the local time and, where there is a database, the audit of a decision
    ([handle_auth_with]; [AuditTrail.AuthFileAudit] is what the code audits with). *)
From Stdlib Require Import ZArith Lia Ascii String.
From stdpp Require Import base tactics numbers list strings gmap.
From S2P Require Import Prelude Ptree Reader Strategies Users Credentials AuthSource Schedules Profiles Zones.

Open Scope Z_scope.

(** [XmlNodeNameEnforcer::operator()]. *)
Definition xmlnne (expected actual : string) : outcome unit :=
  enforce (String.eqb actual expected)
    (ConfigException ("Invalid configuration file content. Expected xml tag " +:+ expected)).

(** * The objects weak pointers refer to *)

Record heap := mk_heap {
  next : Z;
  live_doors : gmap Z string;            (* the alias of each live door *)
  live_zones : gmap Z Zone.t;
}.

Definition empty_heap : heap := mk_heap 1 ∅ ∅.

Definition new_door (alias : string) (h : heap) : Z * heap :=
  (next h, mk_heap (next h + 1) (<[next h := alias]> (live_doors h)) (live_zones h)).
Definition new_zone (z : Zone.t) (h : heap) : Z * heap :=
  (next h, mk_heap (next h + 1) (live_doors h) (<[next h := z]> (live_zones h))).
(** The only shared pointer to the object goes out of scope. *)
Definition release_door (a : Z) (h : heap) : heap :=
  mk_heap (next h) (delete a (live_doors h)) (live_zones h).
Definition release_zone (a : Z) (h : heap) : heap :=
  mk_heap (next h) (live_doors h) (delete a (live_zones h)).

(** * FileAuthSourceMapper *)

Module Mapper.

Record t := mk {
  user_objs : gmap Z User.t;
  users_ : gmap string Z;
  groups_ : gmap string Group.t;
  rfid_cards_ : gmap string RFIDCard.t;
  pin_codes_ : gmap string PinCode.t;
  rfid_cards_pin : gmap (string * string) RFIDCardPin.t;
  id_to_cred_ : gmap string credential;
  xml_schedules_ : XmlScheduleLoader.schedules;
  mappings_ : list ScheduleMapping.t;
  heap_ : heap;
}.

Definition empty : t := mk ∅ ∅ ∅ ∅ ∅ ∅ ∅ ∅ [] empty_heap.

Section mapper.
Context (parse_date : string -> option Z) (localtime : Z -> tm).
Context (addr_lt : UserGroupMembership.t -> UserGroupMembership.t -> bool).
Context {T : Type} `{PropertyTree T}.

(** [users_[name]]: a null pointer when the name is unknown. *)
Definition user_of (name : string) (m : t) : option Z := users_ m !! name.

Definition extract_credentials_validity (node : T) : outcome ValidityInfo.t :=
  v ← ValidityInfo.set_start_date parse_date (get_default as_string node "validity_start" "") ValidityInfo.default;
  v ← ValidityInfo.set_end_date parse_date (get_default as_string node "validity_end" "") v;
  Ret (ValidityInfo.set_enabled (get_default as_bool node "enabled" true) v).

(** ** Users *)

Definition add_user (user_id : Z) (username : string) (u : User.t) (m : t) : t :=
  mk (<[user_id := u]> (user_objs m)) (<[username := user_id]> (users_ m)) (groups_ m) (rfid_cards_ m)
     (pin_codes_ m) (rfid_cards_pin m) (id_to_cred_ m) (xml_schedules_ m) (mappings_ m) (heap_ m).

Definition load_user (st : t * Z) (entry : string * T) : outcome (t * Z) :=
  let '(m, user_id) := st in
  let '(node_name, node) := entry in
  _ ← xmlnne "user" node_name;
  username ← get as_string node "name";
  let firstname := get_default as_string node "firstname" "" in
  let lastname := get_default as_string node "lastname" "" in
  let email := get_default as_string node "email" "" in
  _ ← enforce (negb (String.eqb username "UNKNOWN_USER"))
        (ConfigException "'UNKNOWN_USER' is a reserved name. Do not use.");
  u ← User.set_username username (User.make user_id);
  v ← extract_credentials_validity node;
  let u := User.set_validity v (User.set_names firstname lastname email u) in
  Ret (add_user user_id username u m, user_id + 1).

Definition load_users (users : T) (m : t) : outcome t :=
  '(m, _) ← foldM load_user (m, 1) (children users);
  Ret m.

(** ** Groups *)

Definition set_group (name : string) (g : Group.t) (m : t) : t :=
  mk (user_objs m) (users_ m) (<[name := g]> (groups_ m)) (rfid_cards_ m)
     (pin_codes_ m) (rfid_cards_pin m) (id_to_cred_ m) (xml_schedules_ m) (mappings_ m) (heap_ m).

Definition add_member (m : t) (g : Group.t) (membership : string * T) : outcome Group.t :=
  if negb (String.eqb membership.1 "user") then Ret g
  else match user_of (data membership.2) m with
       | None => Throw (ConfigException ("Unknown user " +:+ data membership.2))
       | Some uid => Ret (Group.member_add addr_lt uid GMEMBER g).1
       end.

Definition load_group (st : t * Z) (group_info : string * T) : outcome (t * Z) :=
  let '(m, group_id) := st in
  let '(node_name, node) := group_info in
  group_name ← get as_string node "group";
  _ ← xmlnne "map" node_name;
  let grp := Group.set_id group_id (Group.make group_name) in
  grp ← foldM (add_member m) grp (children node);
  Ret (set_group group_name grp m, group_id + 1).

Definition load_groups (group_mapping : T) (m : t) : outcome t :=
  '(m, _) ← foldM load_group (m, 1) (children group_mapping);
  Ret m.

(** [Group::members()]: the users alive, each once. *)
Definition members (m : t) (g : Group.t) : list User.t :=
  omap (fun uid => user_objs m !! uid) (remove_dups (Group.member_ids g)).

Definition get_user_groups (m : t) (u : User.t) : outcome (list Group.t) :=
  foldM (fun grps (kg : string * Group.t) =>
      found ← foldM (fun (found : bool) user =>
                if found then Ret true
                else n1 ← User.username user; n2 ← User.username u; Ret (String.eqb n1 n2))
              false (members m kg.2);
      Ret (if found : bool then grps ++ [kg.2] else grps))
    [] (map_to_list (groups_ m)).

(** ** Credentials *)

(** The maps a credential is found in: by what the reader sends, and by alias
    unless it has none ([add_cred_to_id_map]). *)
Definition store_credential (c : credential) (m : t) : t :=
  let alias := Credential.alias_ (base c) in
  mk (user_objs m) (users_ m) (groups_ m)
    (match c with Card k => <[RFIDCard.card_id_ k := k]> (rfid_cards_ m) | _ => rfid_cards_ m end)
    (match c with Pin p => <[PinCode.pin_code_ p := p]> (pin_codes_ m) | _ => pin_codes_ m end)
    (match c with
     | CardPin cp => <[(RFIDCard.card_id_ (RFIDCardPin.card_ cp), PinCode.pin_code_ (RFIDCardPin.pin_ cp)) := cp]>
                       (rfid_cards_pin m)
     | _ => rfid_cards_pin m
     end)
    (if str_empty alias then id_to_cred_ m else <[alias := c]> (id_to_cred_ m))
    (xml_schedules_ m) (mappings_ m) (heap_ m).

(** The credential object a node describes, before its common fields are set,
    with the child node that describes it and the next id. *)
Definition read_credential (node : T) (cred_id : Z) : outcome (credential * T * Z) :=
  match get_child_optional node "WiegandCard" with
  | Some child =>
      card_id ← get as_string child "card_id";
      bits ← get as_int child "bits";
      c ← RFIDCard.make card_id bits;
      Ret (Card c, child, cred_id)
  | None =>
      match get_child_optional node "PINCode" with
      | Some child =>
          pin ← get as_string child "pin";
          p ← PinCode.set_pin_code pin PinCode.default;
          Ret (Pin p, child, cred_id)
      | None =>
          match get_child_optional node "WiegandCardPin" with
          | Some child =>
              card_id ← get as_string child "card_id";
              pin ← get as_string child "pin";
              bits ← get as_int child "bits";
              c ← RFIDCard.make card_id bits;
              let c := RFIDCard.mk (Credential.set_id cred_id (RFIDCard.cred c))
                         (RFIDCard.card_id_ c) (RFIDCard.nb_bits_ c) in
              p ← PinCode.set_pin_code pin PinCode.default;
              let p := PinCode.mk (Credential.set_id (cred_id + 1) (PinCode.cred p)) (PinCode.pin_code_ p) in
              Ret (CardPin (RFIDCardPin.make c p), child, cred_id + 2)
          | None => Fault AssertFailed
          end
      end
  end.

Definition load_credential (st : t * Z) (mapping : string * T) : outcome (t * Z) :=
  let '(m, cred_id) := st in
  let '(node_name, node) := mapping in
  _ ← xmlnne "map" node_name;
  user_id ← get as_string node "user";
  match user_of user_id m with
  | None => Throw (ConfigException ("Credentials defined for undefined user " +:+ user_id))
  | Some uid =>
      '(c, child, cred_id) ← read_credential node cred_id;
      let b := Credential.set_id cred_id (base c) in
      v ← extract_credentials_validity child;
      let b := Credential.set_owner (Some uid) (Credential.set_validity v b) in
      b ← Credential.set_alias (get_default as_string child "id" "") b;
      Ret (store_credential (with_base b c) m, cred_id + 1)
  end.

Definition load_credentials (credentials : T) (m : t) : outcome t :=
  '(m, _) ← foldM load_credential (m, 1) (children credentials);
  Ret m.

(** ** Schedules and their mapping *)

Definition load_schedules (schedules : T) (m : t) : outcome t :=
  '(s, ret) ← XmlScheduleLoader.load schedules (xml_schedules_ m);
  _ ← cassert ret;
  Ret (mk (user_objs m) (users_ m) (groups_ m) (rfid_cards_ m) (pin_codes_ m) (rfid_cards_pin m)
          (id_to_cred_ m) s (mappings_ m) (heap_ m)).

Definition find_cred_by_alias (alias : string) (m : t) : option credential := id_to_cred_ m !! alias.

(** The values of the children of [node] with this name. *)
Definition values (name : string) (node : T) : list string :=
  map (fun kv => data kv.2) (List.filter (fun kv : string * T => String.eqb kv.1 name) (children node)).

(** The [ScheduleMapping] made for one schedule of a mapping entry. The door
    and the zone are released at the end of the blocks that make them. *)
Definition map_schedule (node : T) (m : t) (schedule_name : string) : outcome t :=
  let target_door := get_default as_string node "door" "" in
  let target_zone := get_default as_string node "zone" "" in
  match xml_schedules_ m !! schedule_name with
  | None => Throw StdOutOfRange
  | Some sched =>
      let sm := ScheduleMapping.set_schedule sched ScheduleMapping.make in
      '(sm, h) ← (if str_empty target_door then Ret (sm, heap_ m)
                  else let '(a, h) := new_door target_door (heap_ m) in
                       sm ← ScheduleMapping.add_door (Some a) sm;
                       Ret (sm, release_door a h));
      '(sm, h) ← (if str_empty target_zone then Ret (sm, h)
                  else let '(a, h) := new_zone (Zone.set_alias target_zone Zone.make) h in
                       sm ← ScheduleMapping.add_zone (Some a) sm;
                       Ret (sm, release_zone a h));
      sm ← foldM (fun sm name => ScheduleMapping.add_user (user_of name m) sm) sm (values "user" node);
      sm ← foldM (fun sm name => ScheduleMapping.add_group (Group.id_ <$> groups_ m !! name) sm)
             sm (values "group" node);
      sm ← foldM (fun sm name =>
               ScheduleMapping.add_credential
                 ((fun c => Credential.id_ (base c)) <$> find_cred_by_alias name m) sm)
             sm (values "credential" node);
      Ret (mk (user_objs m) (users_ m) (groups_ m) (rfid_cards_ m) (pin_codes_ m) (rfid_cards_pin m)
              (id_to_cred_ m) (xml_schedules_ m) (mappings_ m ++ [sm]) h)
  end.

Definition map_entry (m : t) (mapping_entry : string * T) : outcome t :=
  let '(node_name, node) := mapping_entry in
  _ ← xmlnne "map" node_name;
  foldM (map_schedule node) m (values "schedule" node).

Definition map_schedules (schedules_mapping : T) (m : t) : outcome t :=
  foldM map_entry m (children schedules_mapping).

(** ** The constructor *)

(** One optional section of the file. *)
Definition load_section (name : string) (f : T -> t -> outcome t) (root : T) (m : t) : outcome t :=
  match get_child_optional root name with Some tree => f tree m | None => Ret m end.

Definition load_all (tree : T) : outcome t :=
  root ← get_child tree "root";
  m ← load_section "users" load_users root empty;
  m ← load_section "group_mapping" load_groups root m;
  m ← load_section "credentials" load_credentials root m;
  m ← load_section "schedules" load_schedules root m;
  load_section "schedules_mapping" map_schedules root m.

(** [FileAuthSourceMapper(auth_file)], on the tree read from the file; every
    exception is nested in a [ModuleException]. *)
Definition make (tree : T) : outcome t :=
  match load_all tree with
  | Throw _ => Throw (ModuleException "AuthFile cannot load configuration")
  | r => r
  end.

(** ** From a credential to a profile *)

(** [visit]: a credential the file knows is replaced by the file's. *)
Definition mapToUser (m : t) (c : credential) : credential :=
  match c with
  | Card k => match rfid_cards_ m !! RFIDCard.card_id_ k with Some k' => Card k' | None => c end
  | Pin p => match pin_codes_ m !! PinCode.pin_code_ p with Some p' => Pin p' | None => c end
  | CardPin cp =>
      match rfid_cards_pin m !! (RFIDCard.card_id_ (RFIDCardPin.card_ cp),
                                 PinCode.pin_code_ (RFIDCardPin.pin_ cp)) with
      | Some cp' => CardPin cp'
      | None => c
      end
  end.

Definition no_door : exn := LEOSACException "Cannot get Door from mapping".
Definition no_zone : exn := LEOSACException "Cannot get Zone from mapping".
Definition no_zone_door : exn := LEOSACException "Cannot get Door from Zone".

Definition add_schedule_from_mapping_to_profile (h : heap) (profile : SimpleAccessProfile.t)
    (mapping : ScheduleMapping.t) : outcome SimpleAccessProfile.t :=
  match ScheduleMapping.schedule_ mapping with
  | None => Throw (LEOSACException "Cannot retrieve schedule from mapping")
  | Some schedule =>
      if negb (bool_decide (ScheduleMapping.doors_ mapping = [])) then
        foldM (fun p d =>
            match live_doors h !! d with
            | None => Throw no_door
            | Some alias => Ret (SimpleAccessProfile.addAccessSchedule (Some alias) schedule p)
            end) profile (ScheduleMapping.doors_ mapping)
      else if negb (bool_decide (ScheduleMapping.zones_ mapping = [])) then
        foldM (fun p z =>
            match live_zones h !! z with
            | None => Throw no_zone
            | Some zone =>
                foldM (fun p d =>
                    match live_doors h !! d with
                    | None => Throw no_zone_door
                    | Some alias => Ret (SimpleAccessProfile.addAccessSchedule (Some alias) schedule p)
                    end) p (Zone.doors_ zone)
            end) profile (ScheduleMapping.zones_ mapping)
      else Ret (SimpleAccessProfile.addAccessSchedule None schedule profile)
  end.

(** The body [build_user_profile], [build_group_profile] and
    [build_cred_profile] share. *)
Definition build_profile (has : ScheduleMapping.t -> bool) (m : t) : outcome SimpleAccessProfile.t :=
  foldM (fun profile mapping =>
      if has mapping then add_schedule_from_mapping_to_profile (heap_ m) profile mapping
      else Ret profile)
    SimpleAccessProfile.make (mappings_ m).

Definition build_user_profile (u : User.t) (m : t) := build_profile (ScheduleMapping.has_user (User.id_ u)) m.
Definition build_group_profile (g : Group.t) (m : t) := build_profile (ScheduleMapping.has_group (Group.id_ g)) m.
Definition build_cred_profile (c : credential) (m : t) :=
  build_profile (ScheduleMapping.has_cred (Credential.id_ (base c))) m.

Definition merge_profiles (profiles : list SimpleAccessProfile.t) : option SimpleAccessProfile.t :=
  let result := foldl ProfileMerger.merge SimpleAccessProfile.make profiles in
  if SimpleAccessProfile.schedule_count result =? 0 then None else Some result.

Definition owner_of (m : t) (c : credential) : outcome (option User.t) :=
  match Credential.owner_ (base c) with
  | None => Ret None
  | Some uid => u ← deref (user_objs m !! uid); Ret (Some u)
  end.

Definition buildProfile (now_cred now_owner : Z) (m : t) (cred : credential)
  : outcome (option SimpleAccessProfile.t) :=
  cred_owner ← owner_of m cred;
  if negb (ValidityInfo.is_valid now_cred (Credential.validity_ (base cred))) then Ret None
  else if match cred_owner with Some u => negb (User.is_valid now_owner u) | None => false end then Ret None
  else
    profiles ← match cred_owner with
               | None => Ret []
               | Some u =>
                   p ← build_user_profile u m;
                   grps ← get_user_groups m u;
                   foldM (fun ps g => p ← build_group_profile g m; Ret (ps ++ [p])) [p] grps
               end;
    p ← build_cred_profile cred m;
    Ret (merge_profiles (profiles ++ [p])).

End mapper.
End Mapper.

(** * AuthFileInstance *)

Module AuthFileInstance.

Record t := mk { mapper_ : Mapper.t; name_ : string; target_name_ : string }.

Record AuthResult := mk_result {
  success : bool;
  profile : option SimpleAccessProfile.t;
  user : option User.t;
}.
Definition failed : AuthResult := mk_result false None None.

(** [PolymorphicCredentialJSONStringSerializer::serialize], called to log the
    credential: its visitor knows cards and PIN codes, and
    [BaseVisitor::cannot_visit] asserts for anything else. *)
Definition serialize (c : credential) : outcome unit :=
  match c with
  | Card _ | Pin _ => Ret tt
  | CardPin _ => Fault AssertFailed
  end.

Section instance.
Context (localtime : Z -> tm).

(** The clock when the credential's validity is checked, when the owner's is,
    and when the profile is asked. *)
Record times := mk_times { now_cred : Z; now_owner : Z; now_access : Z }.

(** [try]-block of [handle_auth]. The result is that of a server without a
    database: with one an audit follows ([AuditTrail.AuthFileAudit]). *)
Definition authenticate (now : times) (i : t) (msg : message) : outcome AuthResult :=
  auth_source ← AuthSourceBuilder.create msg;
  let auth_source := Mapper.mapToUser (mapper_ i) auth_source in
  _ ← serialize auth_source;
  profile ← Mapper.buildProfile (now_cred now) (now_owner now) (mapper_ i) auth_source;
  match profile with
  | None => Ret failed
  | Some p =>
      let target := if str_empty (target_name_ i) then None else Some (target_name_ i) in
      let '(ok, p) := SimpleAccessProfile.isAccessGranted (localtime (now_access now)) target p in
      owner ← Mapper.owner_of (mapper_ i) auth_source;
      Ret (mk_result ok (Some p) owner)
  end.

(** [handle_auth]: every exception is caught, and denies access. *)
Definition handle_auth (now : times) (i : t) (msg : message) : outcome AuthResult :=
  match authenticate now i msg with
  | Throw _ => Ret failed
  | r => r
  end.

(** [handle_auth] with a database: the audit of the decision, [record], comes last in the [try] block, when the
    result is set. What it throws is caught and leaves the result; a failed assertion ends the
    program. [AuditTrail.AuthFileAudit] says what it does. *)
Definition handle_auth_with (record : option (credential -> bool -> outcome unit)) (now : times) (i : t) (msg : message)
  : outcome AuthResult :=
  match authenticate now i msg with
  | Ret res =>
      match record with
      | None => Ret res
      | Some record =>
          match (auth_source ← AuthSourceBuilder.create msg; record (Mapper.mapToUser (mapper_ i) auth_source) (success res)) with
          | Fault f => Fault f
          | _ => Ret res
          end
      end
  | Throw _ => Ret failed
  | Fault f => Fault f
  end.

(** What [handle_bus_msg] does with a message: a result for the bus, or, for
    the kernel's SIGHUP, a reload of the configuration. *)
Inductive reaction := Answer (m : message) | Reload | Ignore.

Definition handle_kernel_message (msg : message) : outcome (option reaction) :=
  '(tmp, rest) ← pop_str msg;
  if String.eqb tmp "KERNEL" then
    '(tmp, _) ← pop_str rest;
    Ret (Some (if String.eqb tmp "SIGHUP" then Reload else Ignore))
  else Ret None.

Definition handle_bus_msg (now : times) (i : t) (msg : message) : outcome reaction :=
  k ← handle_kernel_message msg;
  match k with
  | Some r => Ret r
  | None =>
      res ← handle_auth now i msg;
      _ ← match user res with Some u => (_ ← User.username u; Ret tt) | None => Ret tt end;
      Ret (Answer [FStr ("S_" +:+ name_ i); FU8 (if success res then GRANTED else DENIED)])
  end.

(** The same, with the database's audit or without. *)
Definition handle_bus_msg_with (record : option (credential -> bool -> outcome unit)) (now : times) (i : t) (msg : message)
  : outcome reaction :=
  k ← handle_kernel_message msg;
  match k with
  | Some r => Ret r
  | None =>
      res ← handle_auth_with record now i msg;
      _ ← match user res with Some u => (_ ← User.username u; Ret tt) | None => Ret tt end;
      Ret (Answer [FStr ("S_" +:+ name_ i); FU8 (if success res then GRANTED else DENIED)])
  end.

(** The task [reload_auth_config] enqueues, on the tree of the file as it is
    then: a failure keeps the mapper in place. *)
Definition reload {T} `{PropertyTree T} (parse_date : string -> option Z)
    (addr_lt : UserGroupMembership.t -> UserGroupMembership.t -> bool) (tree : T) (i : t) : outcome (t * bool) :=
  match Mapper.make parse_date addr_lt tree with
  | Ret m => Ret (mk m (name_ i) (target_name_ i), true)
  | Throw _ => Ret (i, false)
  | Fault f => Fault f
  end.

End instance.
End AuthFileInstance.

(** * Specifications *)

Import AuthFileInstance Mapper.

(** The targets a mapping opens: [None] stands for every door; no value when a
    door or a zone it refers to is gone. *)
Definition targets_of (h : heap) (sm : ScheduleMapping.t) : option (list (option string)) :=
  let door (d : Z) : option (option string) := Some <$> live_doors h !! d in
  if bool_decide (ScheduleMapping.doors_ sm = []) then
    if bool_decide (ScheduleMapping.zones_ sm = []) then Some [None]
    else mjoin <$> mapM (fun z => zone ← live_zones h !! z; mapM door (Zone.doors_ zone))
                      (ScheduleMapping.zones_ sm)
  else mapM door (ScheduleMapping.doors_ sm).

Definition covers (target : option string) (ts : list (option string)) : bool :=
  existsb (fun t => bool_decide (t = None \/ t = target)) ts.

(** The mapping lets someone through the target now. *)
Definition opens (h : heap) (now : tm) (target : option string) (sm : ScheduleMapping.t) : bool :=
  match ScheduleMapping.schedule_ sm, targets_of h sm with
  | Some s, Some ts => Schedule.is_in_schedule now s && covers target ts
  | _, _ => false
  end.

(** The mapping can be turned into permissions. *)
Definition resolves (h : heap) (sm : ScheduleMapping.t) : bool :=
  match ScheduleMapping.schedule_ sm, targets_of h sm with Some _, Some _ => true | _, _ => false end.

(** The groups one of whose members has the user's name. *)
Definition in_group (m : t) (u : User.t) (g : Group.t) : bool :=
  existsb (fun v => String.eqb (User.username_ v) (User.username_ u)) (members m g).
Definition groups_of (m : t) (u : User.t) : list Group.t :=
  List.filter (in_group m u) (map snd (map_to_list (groups_ m))).

(** The mapping concerns the credential: by its owner, by a group of its
    owner, or by the credential itself. *)
Definition concerns (m : t) (owner : option User.t) (c : credential) (sm : ScheduleMapping.t) : bool :=
  match owner with
  | Some u => ScheduleMapping.has_user (User.id_ u) sm ||
              existsb (fun g => ScheduleMapping.has_group (Group.id_ g) sm) (groups_of m u)
  | None => false
  end || ScheduleMapping.has_cred (Credential.id_ (base c)) sm.

Definition username_ok (u : User.t) : bool :=
  forallb User.is_valid_username_character (chars (User.username_ u)).

(** What loading a file establishes. *)
Record mapper_ok (m : t) : Prop := {
  mo_doors : live_doors (heap_ m) = ∅;
  mo_zones : live_zones (heap_ m) = ∅;
  mo_users : forall i u, user_objs m !! i = Some u -> User.id_ u = i /\ username_ok u = true;
  mo_names : forall n i, users_ m !! n = Some i -> is_Some (user_objs m !! i);
  mo_cards : forall k c, rfid_cards_ m !! k = Some c ->
    exists u, Credential.owner_ (RFIDCard.cred c) = Some u /\ is_Some (user_objs m !! u);
  mo_pins : forall k c, pin_codes_ m !! k = Some c ->
    exists u, Credential.owner_ (PinCode.cred c) = Some u /\ is_Some (user_objs m !! u);
  mo_schedules : Forall (fun sm => is_Some (ScheduleMapping.schedule_ sm)) (mappings_ m);
}.

(** ** Lemmas: from mappings to decisions *)

Lemma granted_add now target t s p :
  granted now target (SimpleAccessProfile.addAccessSchedule t s p) =
  granted now target p || (Schedule.is_in_schedule now s && bool_decide (t = None \/ t = target)).
Proof.
  rewrite !granted_applicable, applicable_add, existsb_app.
  destruct (decide _); [rewrite bool_decide_eq_true_2 by done | rewrite bool_decide_eq_false_2 by done];
    cbn [existsb]; by destruct (Schedule.is_in_schedule now s), (existsb _ (applicable target p)).
Qed.

Lemma granted_add_targets now target s ts p :
  granted now target (foldl (fun p t => SimpleAccessProfile.addAccessSchedule t s p) p ts) =
  granted now target p || (Schedule.is_in_schedule now s && covers target ts).
Proof.
  revert p. induction ts as [|t ts IH]; intros p; cbn [foldl].
  - cbn. by rewrite andb_false_r, orb_false_r.
  - rewrite IH, granted_add. cbn [covers existsb].
    destruct (granted now target p), (Schedule.is_in_schedule now s), (bool_decide _); done.
Qed.

(** A loop that adds a schedule to each door it can reach. *)
Lemma add_doors h s e l p :
  foldM (fun p d => match live_doors h !! d with
                    | None => Throw e
                    | Some alias => Ret (SimpleAccessProfile.addAccessSchedule (Some alias) s p)
                    end) p l =
  match mapM (fun d => Some <$> live_doors h !! d) l with
  | Some ts => Ret (foldl (fun p t => SimpleAccessProfile.addAccessSchedule t s p) p ts)
  | None => Throw e
  end.
Proof.
  revert p. induction l as [|d l IH]; intros p; [done|]. cbn [foldM].
  destruct (live_doors h !! d) as [a|] eqn:E; cbn [mapM mbind outcome_bind]; rewrite E; cbn; [|done].
  rewrite IH. by destruct (mapM _ l).
Qed.

Lemma mapM_option_cons {A B} (f : A -> option B) x l :
  mapM f (x :: l) =
  match f x with Some y => match mapM f l with Some k => Some (y :: k) | None => None end | None => None end.
Proof. cbn. destruct (f x); cbn; [|done]. by destruct (mapM f l). Qed.

(** A loop that adds a schedule to each door of each zone it can reach. *)
Lemma add_zones h s l p :
  let door (d : Z) : option (option string) := Some <$> live_doors h !! d in
  let loop := foldM (fun p z =>
            match live_zones h !! z with
            | None => Throw no_zone
            | Some zone =>
                foldM (fun p d =>
                    match live_doors h !! d with
                    | None => Throw no_zone_door
                    | Some alias => Ret (SimpleAccessProfile.addAccessSchedule (Some alias) s p)
                    end) p (Zone.doors_ zone)
            end) p l in
  match mjoin <$> mapM (fun z => zone ← live_zones h !! z; mapM door (Zone.doors_ zone)) l with
  | Some ts => loop = Ret (foldl (fun p t => SimpleAccessProfile.addAccessSchedule t s p) p ts)
  | None => exists e, loop = Throw e
  end.
Proof.
  cbn zeta. revert p. induction l as [|z l IH]; intros p; [done|]. cbn [foldM]. rewrite mapM_option_cons.
  destruct (live_zones h !! z) as [zone|]; cbn [mbind outcome_bind option_bind]; [|cbn; by eauto].
  rewrite add_doors. destruct (mapM _ (Zone.doors_ zone)) as [ts|]; [|cbn; by eauto].
  cbn [mbind outcome_bind].
  specialize (IH (foldl (fun p t => SimpleAccessProfile.addAccessSchedule t s p) p ts)).
  destruct (mapM _ l) as [tss|]; cbn [fmap option_fmap option_map] in *; [|done].
  change (mjoin (ts :: tss)) with (ts ++ mjoin tss). by rewrite foldl_app.
Qed.

Lemma add_schedule_spec h p sm :
  match ScheduleMapping.schedule_ sm, targets_of h sm with
  | Some s, Some ts => add_schedule_from_mapping_to_profile h p sm =
      Ret (foldl (fun p t => SimpleAccessProfile.addAccessSchedule t s p) p ts)
  | _, _ => exists e, add_schedule_from_mapping_to_profile h p sm = Throw e
  end.
Proof.
  unfold add_schedule_from_mapping_to_profile, targets_of.
  destruct (ScheduleMapping.schedule_ sm) as [s|]; [|eauto].
  destruct (bool_decide (ScheduleMapping.doors_ sm = [])); cbn [negb].
  2: { rewrite add_doors. destruct (mapM _ _); eauto. }
  destruct (bool_decide (ScheduleMapping.zones_ sm = [])); cbn [negb]; [done|].
  apply add_zones.
Qed.

Lemma add_resolves h p sm : resolves h sm = true ->
  exists p', add_schedule_from_mapping_to_profile h p sm = Ret p' /\
    forall now target, granted now target p' = granted now target p || opens h now target sm.
Proof.
  unfold resolves, opens. pose proof (add_schedule_spec h p sm) as H.
  destruct (ScheduleMapping.schedule_ sm) as [s|]; [|done].
  destruct (targets_of h sm) as [ts|]; [|done]. intros _. eexists. split; [exact H|].
  intros. apply granted_add_targets.
Qed.

Lemma add_fails h p sm : resolves h sm = false ->
  exists e, add_schedule_from_mapping_to_profile h p sm = Throw e.
Proof.
  unfold resolves. pose proof (add_schedule_spec h p sm) as H.
  destruct (ScheduleMapping.schedule_ sm); [destruct (targets_of h sm)|]; done.
Qed.

Lemma granted_make now target : granted now target SimpleAccessProfile.make = false.
Proof. by rewrite granted_applicable, count_zero. Qed.

(** What a profile built from the mappings [has] selects grants. *)
Definition selects (m : t) (has : ScheduleMapping.t -> bool) (p : SimpleAccessProfile.t) : Prop :=
  forall now target, granted now target p =
    existsb (fun sm => has sm && opens (heap_ m) now target sm) (mappings_ m).

(** A selected mapping refers to a door or a zone that is gone. *)
Definition blocked (m : t) (has : ScheduleMapping.t -> bool) : Prop :=
  exists sm, In sm (mappings_ m) /\ has sm = true /\ resolves (heap_ m) sm = false.

Lemma blocked_orb m f g :
  blocked m (fun sm => f sm || g sm) <-> blocked m f \/ blocked m g.
Proof.
  unfold blocked. split.
  - intros (sm & Hin & Ho & Hr). apply orb_true_iff in Ho as [?|?]; [left|right]; eauto.
  - intros [(sm & ? & H & ?)|(sm & ? & H & ?)]; exists sm; rewrite H; split; auto using orb_true_r.
Qed.

(** The loop of [build_profile] over some of the mappings. *)
Lemma build_loop (has : ScheduleMapping.t -> bool) h l p0 :
  let loop := foldM (fun profile mapping =>
      if has mapping then add_schedule_from_mapping_to_profile h profile mapping else Ret profile) p0 l in
  ((exists sm, In sm l /\ has sm = true /\ resolves h sm = false) /\ exists e, loop = Throw e) \/
  (~ (exists sm, In sm l /\ has sm = true /\ resolves h sm = false) /\
   exists p, loop = Ret p /\ forall now target,
     granted now target p = granted now target p0 || existsb (fun sm => has sm && opens h now target sm) l).
Proof.
  cbn zeta. revert p0. induction l as [|sm l IH]; intros p0; cbn [foldM].
  - right. split; [by intros (? & [] & _)|]. exists p0. split; [done|]. intros. cbn. by rewrite orb_false_r.
  - destruct (has sm) eqn:Eh; [destruct (resolves h sm) eqn:Er|].
    + destruct (add_resolves _ p0 _ Er) as (p1 & -> & Hg). rewrite ret_bind.
      destruct (IH p1) as [[(x & ? & ? & ?) He]|[Hn (p & Hp & Hgp)]].
      * left. split; [|done]. exists x. split; [by right|done].
      * right. split.
        { intros (x & [->|Hin] & ? & ?); [congruence|]. apply Hn. eauto. }
        exists p. split; [done|]. intros. cbn [existsb]. by rewrite Hgp, Hg, Eh, orb_assoc.
    + destruct (add_fails _ p0 _ Er) as (e & ->). left. split; [|cbn; eauto].
      exists sm. split; [by left|done].
    + rewrite ret_bind. destruct (IH p0) as [[(x & ? & ? & ?) He]|[Hn (p & Hp & Hgp)]].
      * left. split; [|done]. exists x. split; [by right|done].
      * right. split.
        { intros (x & [->|Hin] & ? & ?); [congruence|]. apply Hn. eauto. }
        exists p. split; [done|]. intros. cbn [existsb]. by rewrite Hgp, Eh.
Qed.

Lemma build_profile_spec has m :
  (blocked m has /\ exists e, build_profile has m = Throw e) \/
  (~ blocked m has /\ exists p, build_profile has m = Ret p /\ selects m has p).
Proof.
  destruct (build_loop has (heap_ m) (mappings_ m) SimpleAccessProfile.make)
    as [[Hb He]|[Hb (p & Hp & Hg)]]; [by left|right].
  split; [exact Hb|]. exists p. split; [exact Hp|]. intros now target. by rewrite Hg, granted_make.
Qed.

Lemma granted_merge_all now target ps p0 :
  granted now target (foldl ProfileMerger.merge p0 ps) =
  granted now target p0 || existsb (granted now target) ps.
Proof.
  revert p0. induction ps as [|p ps IH]; intros p0; cbn [foldl existsb]; [by rewrite orb_false_r|].
  by rewrite IH, granted_merge, orb_assoc.
Qed.

Definition granted_opt (now : tm) (target : option string) (p : option SimpleAccessProfile.t) : bool :=
  match p with Some p => granted now target p | None => false end.

Lemma merge_profiles_granted now target ps :
  granted_opt now target (merge_profiles ps) = existsb (granted now target) ps.
Proof.
  unfold merge_profiles, granted_opt.
  pose proof (granted_merge_all now target ps SimpleAccessProfile.make) as H.
  rewrite granted_make in H. cbn [orb] in H.
  destruct (Z.eqb_spec (SimpleAccessProfile.schedule_count (foldl ProfileMerger.merge SimpleAccessProfile.make ps)) 0)
    as [E|E]; [|exact H].
  rewrite granted_applicable, (count_zero _ E) in H. exact H.
Qed.

Lemma get_user_groups_spec m u :
  username_ok u = true -> (forall i v, user_objs m !! i = Some v -> username_ok v = true) ->
  get_user_groups m u = Ret (groups_of m u).
Proof.
  intros Hu Hall.
  assert (Hname : forall v, username_ok v = true -> User.username v = Ret (User.username_ v))
    by (intros v Hv; unfold User.username; unfold username_ok in Hv; by rewrite Hv).
  assert (Hmem : forall g, Forall (fun v => username_ok v = true) (members m g)).
  { intros g. apply Forall_forall. intros v Hv. unfold members in Hv.
    apply list_elem_of_omap in Hv as (i & _ & Hi). by eapply Hall. }
  assert (Hfind : forall l b, Forall (fun v => username_ok v = true) l ->
    foldM (fun (found : bool) user =>
        if found then Ret true
        else n1 ← User.username user; n2 ← User.username u; Ret (String.eqb n1 n2)) b l =
    Ret (b || existsb (fun v => String.eqb (User.username_ v) (User.username_ u)) l)).
  { induction l as [|v l IH]; intros b Hl; cbn [foldM existsb]; [by rewrite orb_false_r|].
    apply Forall_cons in Hl as [Hv Hl]. destruct b; [by rewrite ret_bind, IH|].
    assert (Hb : (n1 ← User.username v; n2 ← User.username u; Ret (String.eqb n1 n2)) =
      Ret (String.eqb (User.username_ v) (User.username_ u))) by (by rewrite (Hname v Hv), (Hname u Hu)).
    by rewrite Hb, ret_bind, IH. }
  unfold get_user_groups, groups_of.
  assert (Hl : forall l acc, foldM (fun grps (kg : string * Group.t) =>
      found ← foldM (fun (found : bool) user =>
                if found then Ret true
                else n1 ← User.username user; n2 ← User.username u; Ret (String.eqb n1 n2))
              false (members m kg.2);
      Ret (if found : bool then grps ++ [kg.2] else grps)) acc l =
    Ret (acc ++ List.filter (in_group m u) (map snd l))).
  { induction l as [|[k g] l IH]; intros acc; cbn [foldM map snd List.filter]; [by rewrite app_nil_r|].
    rewrite (Hfind _ _ (Hmem _)), !ret_bind. cbn [orb]. rewrite IH. fold (in_group m u g).
    destruct (in_group m u g); [by rewrite <- app_assoc | done]. }
  apply Hl.
Qed.

(** A credential whose owner is a user of the store. *)
Definition owner_known (m : t) (c : credential) (owner : option User.t) : Prop :=
  owner_of m c = Ret owner /\
  (forall u, owner = Some u -> username_ok u = true) /\
  (forall i v, user_objs m !! i = Some v -> username_ok v = true).

Lemma existsb_orb_and {A} (f1 f2 h : A -> bool) l :
  existsb (fun x => (f1 x || f2 x) && h x) l = existsb (fun x => f1 x && h x) l || existsb (fun x => f2 x && h x) l.
Proof.
  induction l as [|x l IH]; cbn [existsb]; [done|]. rewrite IH.
  generalize (existsb (fun x => f1 x && h x) l), (existsb (fun x => f2 x && h x) l).
  intros [] []; by destruct (f1 x), (f2 x), (h x).
Qed.

Definition has_some_group (gs : list Group.t) (sm : ScheduleMapping.t) : bool :=
  existsb (fun g => ScheduleMapping.has_group (Group.id_ g) sm) gs.

(** The group profiles, one per group. *)
Lemma group_profiles m gs ps :
  let loop := foldM (fun ps g => p ← build_group_profile g m; Ret (ps ++ [p])) ps gs in
  (blocked m (has_some_group gs) /\ exists e, loop = Throw e) \/
  (~ blocked m (has_some_group gs) /\ exists qs, loop = Ret (ps ++ qs) /\
    forall now target, existsb (granted now target) qs =
      existsb (fun sm => has_some_group gs sm && opens (heap_ m) now target sm) (mappings_ m)).
Proof.
  cbn zeta. revert ps. induction gs as [|g gs IH]; intros ps; cbn [foldM].
  - right. split; [intros (? & _ & H & _); discriminate H|]. exists []. rewrite app_nil_r. split; [done|].
    intros. cbn. symmetry. apply not_true_is_false. intros H. apply existsb_exists in H as (? & _ & H). discriminate H.
  - unfold has_some_group. cbn [existsb].
    setoid_rewrite (blocked_orb m (ScheduleMapping.has_group (Group.id_ g)) (has_some_group gs)).
    destruct (build_profile_spec (ScheduleMapping.has_group (Group.id_ g)) m)
      as [[Hb (e & He)]|[Hb (p & Hp & Hs)]]; fold (build_group_profile g m) in *.
    + left. rewrite He. cbn. eauto.
    + rewrite Hp, !ret_bind. destruct (IH (ps ++ [p])) as [[Hb' (e & He)]|[Hb' (qs & Hq & Hg)]].
      * left. rewrite He. eauto.
      * right. split; [tauto|]. exists (p :: qs). rewrite Hq, <- app_assoc. split; [done|].
        intros. cbn [existsb]. rewrite (Hs now target), Hg. symmetry. apply existsb_orb_and.
Qed.

(** The whole of [buildProfile], for credentials and owners that are valid. *)
Lemma buildProfile_spec m c owner tc to :
  owner_known m c owner ->
  ValidityInfo.is_valid tc (Credential.validity_ (base c)) = true ->
  (forall u, owner = Some u -> User.is_valid to u = true) ->
  (blocked m (concerns m owner c) /\ exists e, buildProfile tc to m c = Throw e) \/
  (~ blocked m (concerns m owner c) /\ exists p, buildProfile tc to m c = Ret p /\
     forall now target, granted_opt now target p =
       existsb (fun sm => concerns m owner c sm && opens (heap_ m) now target sm) (mappings_ m)).
Proof.
  intros (Ho & Hu & Hall) Hvc Hvo. unfold buildProfile. rewrite Ho, ret_bind, Hvc. cbn [negb].
  unfold concerns. rewrite blocked_orb. unfold build_cred_profile.
  destruct owner as [u|]; [rewrite (Hvo u eq_refl); cbn [negb]|].
  - rewrite blocked_orb. unfold build_user_profile.
    destruct (build_profile_spec (ScheduleMapping.has_user (User.id_ u)) m)
      as [[Hb (e & ->)]|[Hb (p1 & -> & Hs1)]]; [left; cbn; eauto|].
    rewrite ret_bind, get_user_groups_spec, ret_bind by eauto.
    destruct (group_profiles m (groups_of m u) [p1]) as [[Hb2 (e & ->)]|[Hb2 (qs & -> & Hs2)]];
      [left; cbn; eauto|]. rewrite ret_bind.
    destruct (build_profile_spec (ScheduleMapping.has_cred (Credential.id_ (base c))) m)
      as [[Hb3 (e & ->)]|[Hb3 (p3 & -> & Hs3)]]; [left; cbn; eauto|].
    right. split; [unfold has_some_group in Hb2; tauto|]. rewrite ret_bind. eexists. split; [done|].
    intros. rewrite merge_profiles_granted, !existsb_app. cbn [existsb].
    rewrite (Hs1 now target), Hs2, (Hs3 now target), !orb_false_r.
    rewrite !existsb_orb_and. done.
  - rewrite ret_bind.
    destruct (build_profile_spec (ScheduleMapping.has_cred (Credential.id_ (base c))) m)
      as [[Hb3 (e & ->)]|[Hb3 (p3 & -> & Hs3)]]; [left; cbn; eauto|].
    right. split; [intros [(? & _ & ? & _)|?]; done|]. rewrite ret_bind. eexists. split; [done|].
    intros. rewrite merge_profiles_granted. cbn [existsb app]. by rewrite (Hs3 now target), orb_false_r.
Qed.

(** ** Lemmas: what loading establishes *)

Section load.
Context (parse_date : string -> option Z).
Context (addr_lt : UserGroupMembership.t -> UserGroupMembership.t -> bool).
Context {T : Type} `{PropertyTree T}.

Lemma mapper_ok_empty : mapper_ok Mapper.empty.
Proof. split; try done; intros *; rewrite lookup_empty; done. Qed.

(** Operations that leave users, credentials, mappings and the heap alone. *)
Lemma mapper_ok_frame m m' :
  mapper_ok m -> user_objs m' = user_objs m -> users_ m' = users_ m ->
  rfid_cards_ m' = rfid_cards_ m -> pin_codes_ m' = pin_codes_ m ->
  mappings_ m' = mappings_ m -> heap_ m' = heap_ m -> mapper_ok m'.
Proof. intros [? ? ? ? ? ? ?] E1 E2 E3 E4 E5 E6. by split; rewrite ?E1, ?E2, ?E3, ?E4, ?E5, ?E6. Qed.

Lemma is_Some_insert {A} (m : gmap Z A) i j x : is_Some (m !! j) -> is_Some (<[i := x]> m !! j).
Proof. intros Hj. destruct (decide (i = j)) as [->|]; [by rewrite lookup_insert_eq | by rewrite lookup_insert_ne]. Qed.

Lemma username_set s u u' : User.set_username s u = Ret u' ->
  User.id_ u' = User.id_ u /\ username_ok u' = true.
Proof.
  unfold User.set_username. destruct (forallb _ _) eqn:E; [|done]. intros [= <-]. split; [done|].
  unfold username_ok. cbn [User.username_]. by rewrite chars_text, user_chars_lower.
Qed.

Lemma load_user_ok m i e m' i' :
  mapper_ok m -> load_user parse_date (m, i) e = Ret (m', i') -> mapper_ok m'.
Proof.
  intros [Hd Hz Hu Hn Hc Hp Hs] Hr. destruct e as [nm node]. unfold load_user in Hr. bind_inv Hr.
  injection Hr as <- <-. apply username_set in E2 as [Hid Hok].
  split; cbn; [done|done| | | | |done].
  - intros j u. destruct (decide (i = j)) as [->|Hne].
    + rewrite lookup_insert_eq. intros [= <-]. by split.
    + rewrite lookup_insert_ne by done. apply Hu.
  - intros n j. destruct (decide (a0 = n)) as [->|Hne].
    + rewrite lookup_insert_eq. intros [= <-]. rewrite lookup_insert_eq. eauto.
    + rewrite lookup_insert_ne by done. intros. apply is_Some_insert. eauto.
  - intros k c Hk. destruct (Hc k c Hk) as (u & ? & ?). exists u. split; [done|]. by apply is_Some_insert.
  - intros k c Hk. destruct (Hp k c Hk) as (u & ? & ?). exists u. split; [done|]. by apply is_Some_insert.
Qed.

Lemma load_group_ok m i e m' i' :
  mapper_ok m -> load_group addr_lt (m, i) e = Ret (m', i') -> mapper_ok m'.
Proof.
  intros Hm Hr. destruct e as [nm node]. unfold load_group in Hr. bind_inv Hr.
  injection Hr as <- <-. by eapply mapper_ok_frame.
Qed.

Lemma load_credential_ok m i e m' i' :
  mapper_ok m -> load_credential parse_date (m, i) e = Ret (m', i') -> mapper_ok m'.
Proof.
  intros [Hd Hz Hu Hn Hc Hp Hs] Hr. destruct e as [nm node]. unfold load_credential in Hr.
  bind_inv Hr. destruct (user_of a0 m) as [uid|] eqn:Euser; [|done].
  bind_inv Hr. destruct a1 as [[c child] cid]. bind_inv Hr. injection Hr as <- <-.
  assert (Hown : Credential.owner_ a2 = Some uid).
  { unfold Credential.set_alias in E3. bind_inv E3. by injection E3 as <-. }
  assert (Huser : is_Some (user_objs m !! uid)) by (by eapply Hn).
  split; cbn; [done|done|done|done| | |done].
  - intros k c0. destruct c as [c|p|cp]; cbn; [|apply Hc|apply Hc].
    destruct (decide (RFIDCard.card_id_ c = k)) as [->|Hne].
    + rewrite lookup_insert_eq. intros [= <-]. cbn. eauto.
    + rewrite lookup_insert_ne by done. apply Hc.
  - intros k c0. destruct c as [c|p|cp]; cbn; [apply Hp| |apply Hp].
    destruct (decide (PinCode.pin_code_ p = k)) as [->|Hne].
    + rewrite lookup_insert_eq. intros [= <-]. cbn. eauto.
    + rewrite lookup_insert_ne by done. apply Hp.
Qed.

Lemma load_schedules_ok s m m' : mapper_ok m -> load_schedules s m = Ret m' -> mapper_ok m'.
Proof.
  intros Hm Hr. unfold load_schedules in Hr. bind_inv Hr. destruct a as [ss ret]. bind_inv Hr.
  injection Hr as <-. by eapply mapper_ok_frame.
Qed.

(** The adders keep the schedule a mapping points to. *)
Lemma adders_schedule o sm sm' :
  ScheduleMapping.add_user o sm = Ret sm' \/ ScheduleMapping.add_group o sm = Ret sm' \/
  ScheduleMapping.add_credential o sm = Ret sm' \/ ScheduleMapping.add_door o sm = Ret sm' \/
  ScheduleMapping.add_zone o sm = Ret sm' ->
  ScheduleMapping.schedule_ sm' = ScheduleMapping.schedule_ sm.
Proof. destruct o; cbn; intros Hr; repeat (destruct Hr as [Hr|Hr]); by simplify_eq. Qed.

Lemma map_schedule_ok node m n m' : mapper_ok m -> map_schedule node m n = Ret m' -> mapper_ok m'.
Proof.
  intros [Hd Hz Hu Hn Hc Hp Hs] Hr. unfold map_schedule in Hr.
  destruct (xml_schedules_ m !! n) as [sched|]; [|done].
  apply bind_Ret in Hr as ([sm1 h1] & E1 & Hr). apply bind_Ret in Hr as ([sm2 h2] & E2 & Hr).
  apply bind_Ret in Hr as (sm3 & E3 & Hr). apply bind_Ret in Hr as (sm4 & E4 & Hr).
  apply bind_Ret in Hr as (sm5 & E5 & Hr). injection Hr as <-.
  assert (H1 : is_Some (ScheduleMapping.schedule_ sm1) /\ live_doors h1 = ∅ /\ live_zones h1 = ∅).
  { destruct (str_empty (get_default as_string node "door" "")); [injection E1 as <- <-; cbn; eauto|]. unfold new_door in E1. bind_inv E1.
    injection E1 as <- <-. erewrite adders_schedule by eauto. cbn. split; [eauto|].
    rewrite Hd. by rewrite delete_insert_id by apply lookup_empty. }
  destruct H1 as (Hs1 & Hd1 & Hz1).
  assert (H2 : is_Some (ScheduleMapping.schedule_ sm2) /\ live_doors h2 = ∅ /\ live_zones h2 = ∅).
  { destruct (str_empty (get_default as_string node "zone" "")); [injection E2 as <- <-; eauto|]. unfold new_zone in E2. bind_inv E2.
    injection E2 as <- <-. erewrite adders_schedule by eauto. cbn. split; [done|]. split; [done|].
    rewrite Hz1. by rewrite delete_insert_id by apply lookup_empty. }
  destruct H2 as (Hs2 & Hd2 & Hz2).
  assert (Hs3 : is_Some (ScheduleMapping.schedule_ sm3)).
  { revert E3. apply (foldM_preserves _ (fun sm => is_Some (ScheduleMapping.schedule_ sm))); [|done].
    intros x y x' Hx Hy. erewrite adders_schedule; eauto. }
  assert (Hs4 : is_Some (ScheduleMapping.schedule_ sm4)).
  { revert E4. apply (foldM_preserves _ (fun sm => is_Some (ScheduleMapping.schedule_ sm))); [|done].
    intros x y x' Hx Hy. erewrite adders_schedule; eauto. }
  assert (Hs5 : is_Some (ScheduleMapping.schedule_ sm5)).
  { revert E5. apply (foldM_preserves _ (fun sm => is_Some (ScheduleMapping.schedule_ sm))); [|done].
    intros x y x' Hx Hy. erewrite adders_schedule; eauto. }
  split; cbn; try done. apply Forall_app. split; [done|]. by constructor.
Qed.

Lemma load_loop_ok (f : Mapper.t * Z -> string * T -> outcome (Mapper.t * Z)) m i l m' i' :
  (forall m i e m' i', mapper_ok m -> f (m, i) e = Ret (m', i') -> mapper_ok m') ->
  mapper_ok m -> foldM f (m, i) l = Ret (m', i') -> mapper_ok m'.
Proof.
  intros Hstep Hm Hr.
  apply (foldM_preserves f (fun st => mapper_ok st.1) l) in Hr; [exact Hr| |exact Hm].
  intros [m1 i1] e [m2 i2] Hm1 Hf. by eapply Hstep.
Qed.

Lemma load_section_ok name f root m m' :
  (forall t m m', mapper_ok m -> f t m = Ret m' -> mapper_ok m') ->
  mapper_ok m -> load_section name f root m = Ret m' -> mapper_ok m'.
Proof.
  intros Hf Hm. unfold load_section. destruct (get_child_optional root name); [by apply Hf|].
  by intros [= <-].
Qed.

Lemma loaded_ok tree m : Mapper.make parse_date addr_lt tree = Ret m -> mapper_ok m.
Proof.
  unfold Mapper.make. destruct (load_all parse_date addr_lt tree) as [m0|e|f] eqn:E; try done. intros [= <-].
  unfold load_all in E. bind_inv E.
  assert (H0 : mapper_ok a0).
  { eapply load_section_ok; [|exact mapper_ok_empty|exact E1]. intros t m1 m2 Hm Hr. unfold load_users in Hr.
    apply bind_Ret in Hr as ([m3 i3] & Hr & Heq). cbn in Heq. injection Heq as <-.
    eapply load_loop_ok; [|exact Hm|exact Hr]. intros. by eapply load_user_ok. }
  assert (H1 : mapper_ok a1).
  { eapply load_section_ok; [|exact H0|exact E2]. intros t m1 m2 Hm Hr. unfold load_groups in Hr.
    apply bind_Ret in Hr as ([m3 i3] & Hr & Heq). cbn in Heq. injection Heq as <-.
    eapply load_loop_ok; [|exact Hm|exact Hr]. intros. by eapply load_group_ok. }
  assert (H2 : mapper_ok a2).
  { eapply load_section_ok; [|exact H1|exact E3]. intros t m1 m2 Hm Hr. unfold load_credentials in Hr.
    apply bind_Ret in Hr as ([m3 i3] & Hr & Heq). cbn in Heq. injection Heq as <-.
    eapply load_loop_ok; [|exact Hm|exact Hr]. intros. by eapply load_credential_ok. }
  assert (H3 : mapper_ok a3).
  { eapply load_section_ok; [|exact H2|exact E4]. intros. by eapply load_schedules_ok. }
  eapply load_section_ok; [|exact H3|exact E]. intros t m1 m2 Hm Hr. unfold map_schedules in Hr.
  revert Hr. apply (foldM_preserves _ mapper_ok); [|exact Hm]. intros m3 [nm node] m4 Hm3 Hr. unfold map_entry in Hr.
  bind_inv Hr. revert Hr. apply (foldM_preserves _ mapper_ok); [|exact Hm3]. intros. by eapply map_schedule_ok.
Qed.

End load.

(** ** Lemmas: a request *)

(** A credential built from a message has no owner yet. *)
Lemma create_fresh msg c : AuthSourceBuilder.create msg = Ret c -> Credential.owner_ (base c) = None.
Proof.
  assert (Hmake : forall id nb k, RFIDCard.make id nb = Ret k -> Credential.owner_ (RFIDCard.cred k) = None).
  { intros id nb k Hr. unfold RFIDCard.make, RFIDCard.set_card_id, RFIDCard.set_nb_bits in Hr.
    apply bind_Ret in Hr as (k1 & H1 & H2). bind_inv H1. injection H1 as <-. bind_inv H2. by injection H2 as <-. }
  intros Hr. unfold AuthSourceBuilder.create in Hr. apply bind_Ret in Hr as (_ & _ & Hr).
  apply bind_Ret in Hr as ([src m1] & _ & Hr). apply bind_Ret in Hr as ([ty m2] & _ & Hr).
  apply bind_Ret in Hr as (_ & _ & Hr).
  destruct (ty =? SIMPLE_WIEGAND).
  { apply bind_Ret in Hr as (_ & _ & Hr). apply bind_Ret in Hr as ([? m3] & _ & Hr).
    apply bind_Ret in Hr as ([? m4] & _ & Hr). apply bind_Ret in Hr as (k & Hk & Hr).
    injection Hr as <-. by eapply Hmake. }
  destruct (ty =? WIEGAND_PIN).
  { apply bind_Ret in Hr as (_ & _ & Hr). apply bind_Ret in Hr as ([? m3] & _ & Hr).
    apply bind_Ret in Hr as (p & Hp & Hr). injection Hr as <-.
    unfold PinCode.set_pin_code in Hp. apply bind_Ret in Hp as (_ & _ & Hp). by injection Hp as <-. }
  destruct (ty =? WIEGAND_CARD_PIN).
  { apply bind_Ret in Hr as (_ & _ & Hr). apply bind_Ret in Hr as ([? m3] & _ & Hr).
    apply bind_Ret in Hr as ([? m4] & _ & Hr). apply bind_Ret in Hr as ([? m5] & _ & Hr).
    apply bind_Ret in Hr as (k & Hk & Hr). apply bind_Ret in Hr as (p & Hp & Hr). by injection Hr as <-. }
  destruct (ty =? SIMPLE_CSN); [|done].
  apply bind_Ret in Hr as (_ & _ & Hr). apply bind_Ret in Hr as ([? m3] & _ & Hr).
  apply bind_Ret in Hr as (_ & _ & Hr). apply bind_Ret in Hr as (_ & _ & Hr).
  apply bind_Ret in Hr as (k & Hk & Hr). injection Hr as <-. by eapply Hmake.
Qed.

(** The owner of a credential after mapping. *)
Lemma mapped_owner m c :
  mapper_ok m -> Credential.owner_ (base c) = None -> (forall cp, c <> CardPin cp) ->
  exists owner, owner_known m (mapToUser m c) owner /\ serialize (mapToUser m c) = Ret tt.
Proof.
  intros Hm Hfresh Hnp.
  assert (Hall : forall i v, user_objs m !! i = Some v -> username_ok v = true)
    by (intros i v Hi; by eapply mo_users in Hi as [_ ?]).
  assert (Hkn : forall c', (exists u, Credential.owner_ (base c') = Some u /\ is_Some (user_objs m !! u)) \/
    Credential.owner_ (base c') = None -> exists owner, owner_known m c' owner).
  { intros c' [(u & Hu & [v Hv])|Hn].
    - exists (Some v). split; [by unfold owner_of; rewrite Hu, Hv|]. split; [|done].
      intros ? [= <-]. by eapply Hall.
    - exists None. split; [by unfold owner_of; rewrite Hn|]. by split. }
  destruct c as [k|p|cp]; cbn [mapToUser]; [| |by destruct (Hnp cp)].
  - destruct (rfid_cards_ m !! _) as [k'|] eqn:Ek; (edestruct Hkn as [o Ho]; [|by exists o]).
    + left. by eapply mo_cards.
    + by right.
  - destruct (pin_codes_ m !! _) as [p'|] eqn:Ep; (edestruct Hkn as [o Ho]; [|by exists o]).
    + left. by eapply mo_pins.
    + by right.
Qed.

(** In a loaded mapper no door and no zone is alive. *)
Lemma loaded_targets m sm : mapper_ok m ->
  (resolves (heap_ m) sm = true -> ScheduleMapping.doors_ sm = [] /\ ScheduleMapping.zones_ sm = []) /\
  (ScheduleMapping.doors_ sm = [] -> ScheduleMapping.zones_ sm = [] -> targets_of (heap_ m) sm = Some [None]).
Proof.
  intros Hm. unfold resolves, targets_of. rewrite (mo_doors _ Hm), (mo_zones _ Hm). split.
  - destruct (ScheduleMapping.schedule_ sm); [|done].
    destruct (ScheduleMapping.doors_ sm) as [|d l].
    + destruct (ScheduleMapping.zones_ sm) as [|z l]; [done|].
      rewrite bool_decide_eq_true_2, bool_decide_eq_false_2, mapM_option_cons by done. cbn.
      rewrite lookup_empty. done.
    + rewrite bool_decide_eq_false_2, mapM_option_cons by done. cbn. rewrite lookup_empty. done.
  - intros -> ->. done.
Qed.

Lemma loaded_opens m sm now target s : mapper_ok m ->
  ScheduleMapping.schedule_ sm = Some s -> ScheduleMapping.doors_ sm = [] -> ScheduleMapping.zones_ sm = [] ->
  opens (heap_ m) now target sm = Schedule.is_in_schedule now s.
Proof.
  intros Hm Hs Hd Hz. unfold opens. rewrite Hs. destruct (loaded_targets m sm Hm) as [_ ->]; [|done|done].
  unfold covers. cbn [existsb]. rewrite bool_decide_eq_true_2 by auto. by rewrite andb_true_r.
Qed.

Lemma serialize_mapped m cp : serialize (mapToUser m (CardPin cp)) = Fault AssertFailed.
Proof. cbn. by destruct (rfid_cards_pin m !! _). Qed.

Section request.
Context (localtime : Z -> tm) (parse_date : string -> option Z).
Context (addr_lt : UserGroupMembership.t -> UserGroupMembership.t -> bool).
Context {T : Type} `{PropertyTree T}.

(** What a loaded mapper answers, in terms of its mappings. *)
Lemma handle_auth_decision now i msg c :
  mapper_ok (mapper_ i) -> AuthSourceBuilder.create msg = Ret c -> (forall cp, c <> CardPin cp) ->
  let m := mapper_ i in
  let c' := mapToUser m c in
  exists owner res, owner_known m c' owner /\ handle_auth localtime now i msg = Ret res /\
    (user res <> None -> user res = owner) /\
    (success res = true <->
      ValidityInfo.is_valid (now_cred now) (Credential.validity_ (base c')) = true /\
      (forall u, owner = Some u -> User.is_valid (now_owner now) u = true) /\
      ~ blocked m (concerns m owner c') /\
      existsb (fun sm => concerns m owner c' sm &&
        opens (heap_ m) (localtime (now_access now))
          (if str_empty (target_name_ i) then None else Some (target_name_ i)) sm) (mappings_ m) = true).
Proof.
  intros Hm Hc Hnp m c'. pose proof (create_fresh msg c Hc) as Hfresh.
  destruct (mapped_owner m c Hm Hfresh Hnp) as (owner & Hown & Hser). fold c' in Hown, Hser.
  exists owner. destruct Hown as (Ho & Hu & Hall).
  unfold handle_auth, authenticate. rewrite Hc, ret_bind. fold m. fold c'. rewrite Hser, ret_bind.
  destruct (ValidityInfo.is_valid (now_cred now) (Credential.validity_ (base c'))) eqn:Ev.
  2: { exists failed. split; [by split|]. unfold buildProfile. rewrite Ho, ret_bind, Ev. cbn.
       split; [done|]. split; [done|]. split; [done|]. by intros [? _]. }
  destruct (match owner with Some u => negb (User.is_valid (now_owner now) u) | None => false end) eqn:Eo.
  { exists failed. split; [by split|]. unfold buildProfile. rewrite Ho, ret_bind, Ev. cbn [negb]. rewrite Eo.
    split; [done|]. split; [done|]. split; [done|]. intros (_ & Hv & _). destruct owner as [u|]; [|done].
    by rewrite (Hv u eq_refl) in Eo. }
  assert (Hvo : forall u, owner = Some u -> User.is_valid (now_owner now) u = true).
  { intros u ->. by apply negb_false_iff. }
  destruct (buildProfile_spec m c' owner (now_cred now) (now_owner now) (conj Ho (conj Hu Hall)) Ev Hvo)
    as [[Hb (e & ->)]|[Hb (p & -> & Hg)]].
  { exists failed. split; [by split|]. cbn. split; [done|]. split; [done|]. split; [done|]. tauto. }
  rewrite ret_bind. set (target := if str_empty (target_name_ i) then None else Some (target_name_ i)).
  specialize (Hg (localtime (now_access now)) target). destruct p as [p|]; cbn [granted_opt] in Hg.
  - unfold granted in Hg. destruct (SimpleAccessProfile.isAccessGranted _ target p) as [ok p'].
    cbn [fst] in Hg. rewrite Ho. cbn. eexists. split; [by split|]. split; [done|]. split; [done|].
    cbn [success]. rewrite Hg. tauto.
  - exists failed. split; [by split|]. split; [done|]. split; [done|]. split; [done|].
    intros (_ & _ & _ & Hx). rewrite <- Hg in Hx. done.
Qed.

(** In a loaded mapper, what the profile grants, in terms of the file. *)
Lemma allowed_iff m (f : ScheduleMapping.t -> bool) now target : mapper_ok m ->
  ~ blocked m f /\
  existsb (fun sm => f sm && opens (heap_ m) (localtime now) target sm) (mappings_ m) = true <->
  ((forall sm, In sm (mappings_ m) -> f sm = true ->
      ScheduleMapping.doors_ sm = [] /\ ScheduleMapping.zones_ sm = []) /\
   exists sm s, In sm (mappings_ m) /\ f sm = true /\ ScheduleMapping.schedule_ sm = Some s /\
     Schedule.is_in_schedule (localtime now) s = true).
Proof.
  intros Hm.
  assert (Hsched : forall sm, In sm (mappings_ m) -> is_Some (ScheduleMapping.schedule_ sm)).
  { apply List.Forall_forall. apply (mo_schedules _ Hm). }
  assert (Hblk : ~ blocked m f <-> forall sm, In sm (mappings_ m) -> f sm = true ->
      ScheduleMapping.doors_ sm = [] /\ ScheduleMapping.zones_ sm = []).
  { split.
    - intros Hb sm Hin Hcon. apply (loaded_targets m sm Hm).
      destruct (resolves (heap_ m) sm) eqn:Er; [done|]. destruct Hb. by exists sm.
    - intros Hall (sm & Hin & Hcon & Hres). destruct (Hall sm Hin Hcon) as [Hd Hz].
      destruct (loaded_targets m sm Hm) as [_ Ht]. unfold resolves in Hres. rewrite Ht in Hres by done.
      by destruct (Hsched sm Hin) as [s Hs]; rewrite Hs in Hres. }
  rewrite Hblk. split; intros (Hall & Hex); (split; [done|]).
  - apply existsb_exists in Hex as (sm & Hin & Hx). apply andb_true_iff in Hx as [Hcon Hop].
    destruct (Hsched sm Hin) as [s Hs]. destruct (Hall sm Hin Hcon) as [Hd Hz].
    rewrite (loaded_opens m sm _ _ s) in Hop by done. eauto 10.
  - destruct Hex as (sm & s & Hin & Hcon & Hs & Hin'). apply existsb_exists. exists sm. split; [done|].
    destruct (Hall sm Hin Hcon) as [Hd Hz]. rewrite (loaded_opens m sm _ _ s) by done. by rewrite Hcon, Hin'.
Qed.

(** ** Properties *)

(** C1: who is let in. With a configuration that loaded, a card or a PIN code is
    granted access exactly when it is valid, its owner if any is valid, some
    mapping that concerns it - through its owner, a group of the owner, or the
    credential itself - has a schedule containing the present, and none of the
    mappings that concern it names a door or a zone: a single one that does
    makes every request fail. *)
Theorem access_decision tree now i msg c :
  Mapper.make parse_date addr_lt tree = Ret (mapper_ i) ->
  AuthSourceBuilder.create msg = Ret c -> (forall cp, c <> CardPin cp) ->
  let m := mapper_ i in
  let c' := mapToUser m c in
  exists owner res, owner_of m c' = Ret owner /\ handle_auth localtime now i msg = Ret res /\
    (success res = true <->
      ValidityInfo.is_valid (now_cred now) (Credential.validity_ (base c')) = true /\
      (forall u, owner = Some u -> User.is_valid (now_owner now) u = true) /\
      (forall sm, In sm (mappings_ m) -> concerns m owner c' sm = true ->
         ScheduleMapping.doors_ sm = [] /\ ScheduleMapping.zones_ sm = []) /\
      exists sm s, In sm (mappings_ m) /\ concerns m owner c' sm = true /\
        ScheduleMapping.schedule_ sm = Some s /\
        Schedule.is_in_schedule (localtime (now_access now)) s = true).
Proof.
  intros Hmake Hc Hnp m c'. apply loaded_ok in Hmake as Hm.
  destruct (handle_auth_decision now i msg c Hm Hc Hnp) as (owner & res & (Ho & _) & Hr & _ & Hiff).
  exists owner, res. split; [exact Ho|]. split; [exact Hr|]. rewrite Hiff. fold m. fold c'.
  by rewrite (allowed_iff m (concerns m owner c') (now_access now)) by done.
Qed.

(** a mapping that names a door - the documented way to give access to one
    door - denies access to everyone it concerns, always: the [Door] object it
    refers to is destroyed when loading ends, so building the profile throws. *)
Theorem door_mapping_denies tree now i msg c sm owner :
  Mapper.make parse_date addr_lt tree = Ret (mapper_ i) ->
  AuthSourceBuilder.create msg = Ret c -> (forall cp, c <> CardPin cp) ->
  let m := mapper_ i in
  owner_of m (mapToUser m c) = Ret owner -> In sm (mappings_ m) ->
  concerns m owner (mapToUser m c) sm = true -> ScheduleMapping.doors_ sm <> [] ->
  exists res, handle_auth localtime now i msg = Ret res /\ success res = false.
Proof.
  intros Hmake Hc Hnp m Ho Hin Hcon Hd. apply loaded_ok in Hmake as Hm.
  destruct (handle_auth_decision now i msg c Hm Hc Hnp) as (owner' & res & (Ho' & _) & Hr & _ & Hiff).
  fold m in Ho', Hiff. assert (owner' = owner) as -> by congruence.
  exists res. split; [exact Hr|]. apply not_true_is_false. intros Hs. apply Hiff in Hs as (_ & _ & Hb & _).
  apply Hb. exists sm. split; [done|]. split; [done|].
  destruct (resolves (heap_ m) sm) eqn:Er; [|done].
  destruct (loaded_targets m sm Hm) as [Hl _]. by destruct (Hl Er) as [? _].
Qed.

(** a card presented together with a PIN code is never answered: logging
    the credential asserts, whatever the configuration, because the JSON
    serializer cannot visit an [RFIDCardPin]. *)
Theorem card_and_pin_aborts now i msg cp :
  AuthSourceBuilder.create msg = Ret (CardPin cp) ->
  handle_auth localtime now i msg = Fault AssertFailed.
Proof.
  intros Hc. unfold handle_auth, authenticate. rewrite Hc, ret_bind.
  by rewrite serialize_mapped.
Qed.

(** Without a database nothing is recorded. *)
Lemma handle_auth_unrecorded now i msg : handle_auth_with localtime None now i msg = handle_auth localtime now i msg.
Proof using Type. unfold handle_auth_with, handle_auth. by destruct (authenticate localtime now i msg). Qed.

(** Recording decides nothing: the result is that of a server without a database, or the program ends. *)
Lemma handle_auth_recorded record now i msg :
  handle_auth_with localtime record now i msg = handle_auth localtime now i msg \/
  exists f, handle_auth_with localtime record now i msg = Fault f.
Proof using Type.
  unfold handle_auth_with, handle_auth. destruct (authenticate localtime now i msg); [|by left..].
  destruct record; [|by left]. destruct (_ ≫= _); [by left..|right; eauto].
Qed.

Lemma handle_auth_no_fault record now i msg c :
  AuthSourceBuilder.create msg = Ret c -> (forall f c b g, record = Some f -> f c b <> Fault g) ->
  handle_auth_with localtime record now i msg = handle_auth localtime now i msg.
Proof using Type.
  intros Hc Hrec. unfold handle_auth_with, handle_auth. destruct (authenticate localtime now i msg); [|done..].
  destruct record as [f|]; [|done]. rewrite Hc. cbn. by destruct (f _ _) eqn:E; [..|destruct (Hrec _ _ _ _ eq_refl E)].
Qed.

(** C31: the instance fails safe, with a database's audit of the decision, whatever that does, and without.
    When the request fails with an exception before it is decided - a malformed
    credential, a profile that cannot be built - the answer on the bus is a denial
    in the instance's name. An answer that grants access is that of a request that was decided so: the
    audit, that comes after the decision, can only end the program, and what it throws leaves the
    decision as it is. A card or PIN request is always answered unless an assertion fails in the audit. *)
Theorem failures_deny tree now i msg src rest record :
  Mapper.make parse_date addr_lt tree = Ret (mapper_ i) ->
  msg = FStr src :: rest -> src <> "KERNEL" ->
  (forall e, authenticate localtime now i msg = Throw e ->
     handle_bus_msg_with localtime record now i msg = Ret (Answer [FStr ("S_" +:+ name_ i); FU8 DENIED])) /\
  (forall out, handle_bus_msg_with localtime record now i msg = Ret out ->
     out = Answer [FStr ("S_" +:+ name_ i); FU8 DENIED] \/
     out = Answer [FStr ("S_" +:+ name_ i); FU8 GRANTED] /\
       exists res, authenticate localtime now i msg = Ret res /\ success res = true) /\
  (forall c, AuthSourceBuilder.create msg = Ret c -> (forall cp, c <> CardPin cp) ->
     (forall f c b g, record = Some f -> f c b <> Fault g) ->
     exists status, handle_bus_msg_with localtime record now i msg = Ret (Answer [FStr ("S_" +:+ name_ i); FU8 status]) /\
       (status = GRANTED \/ status = DENIED)).
Proof.
  intros Hmake -> Hk. apply loaded_ok in Hmake as Hm.
  assert (Hkm : handle_kernel_message (FStr src :: rest) = Ret None).
  { unfold handle_kernel_message. cbn [pop_str]. rewrite ret_bind. by rewrite (proj2 (String.eqb_neq _ _)). }
  split; [|split].
  - intros e He. unfold handle_bus_msg_with, handle_auth_with. rewrite Hkm, ret_bind, He. reflexivity.
  - intros out. unfold handle_bus_msg_with. rewrite Hkm, ret_bind.
    destruct (handle_auth_recorded record now i (FStr src :: rest)) as [-> |[f ->]]; [|done]. unfold handle_auth.
    destruct (authenticate localtime now i (FStr src :: rest)) as [res|e|f]; cbn; [|intros [= <-]; by left|done].
    destruct (match user res with Some _ => _ | None => _ end); [|done..]. intros [= <-].
    destruct (success res) eqn:Es; [right; eauto|by left].
  - intros c Hc Hnp Hrec.
    destruct (handle_auth_decision now i (FStr src :: rest) c Hm Hc Hnp)
      as (owner & res & (_ & Hu & _) & Hr & Husr & _).
    unfold handle_bus_msg_with. rewrite Hkm, ret_bind, (handle_auth_no_fault _ _ _ _ _ Hc Hrec), Hr, ret_bind.
    destruct (user res) as [u|] eqn:Eu.
    + assert (Hown : owner = Some u) by (rewrite <- Husr; done). specialize (Hu u Hown).
      unfold User.username. unfold username_ok in Hu. rewrite Hu. cbn.
      eexists. split; [done|]. destruct (success res); auto.
    + cbn. eexists. split; [done|]. destruct (success res); auto.
Qed.

(** two users of the file whose names differ only by case share their
    groups: user names are folded to lower case, and group membership is
    decided by name. *)
Theorem homonyms_share_groups m u v :
  User.username_ u = User.username_ v ->
  get_user_groups m u = get_user_groups m v /\ groups_of m u = groups_of m v.
Proof.
  intros Hn. split.
  - unfold get_user_groups, User.username. by rewrite Hn.
  - unfold groups_of, in_group. by rewrite Hn.
Qed.

(** reloading the configuration is atomic: the file either loads in full
    and replaces the mapper, or the mapper in place is kept untouched. *)
Theorem reload_atomic (tree : T) i i' ok :
  AuthFileInstance.reload parse_date addr_lt tree i = Ret (i', ok) ->
  (ok = false /\ i' = i) \/
  (ok = true /\ Mapper.make parse_date addr_lt tree = Ret (mapper_ i') /\
   name_ i' = name_ i /\ target_name_ i' = target_name_ i).
Proof.
  unfold AuthFileInstance.reload. destruct (Mapper.make parse_date addr_lt tree) as [m|e|f]; [| |done];
    intros [= <- <-]; [right|left]; done.
Qed.

End request.

(** ** Witnesses *)

(** Two users whose names differ by case, a group, a card, and a schedule the
    group has; and the same file with a mapping restricted to a door. *)
Definition demo_user (n : string) : string * xml := ("user", Node "" [("name", leaf n)]).
Definition demo_card (owner id : string) : string * xml :=
  ("map", Node "" [("user", leaf owner);
                   ("WiegandCard", Node "" [("card_id", leaf id); ("bits", leaf "32")])]).
Definition demo_file (door : list (string * xml)) : xml :=
  Node "" [("root", Node "" [
    ("users", Node "" [demo_user "Bob"; demo_user "bob"]);
    ("group_mapping", Node "" [("map", Node "" [("group", leaf "staff"); ("user", leaf "Bob")])]);
    ("credentials", Node "" [demo_card "bob" "aa:bb:cc:dd"]);
    ("schedules", Node "" [schedule_xml demo_schedule]);
    ("schedules_mapping", Node "" [("map", Node "" (door ++
        [("schedule", leaf "work"); ("group", leaf "staff")]))])])].

Definition no_dates : string -> option Z := fun _ => None.
Definition no_order : UserGroupMembership.t -> UserGroupMembership.t -> bool := fun _ _ => false.
Definition demo_mapper (door : list (string * xml)) : Mapper.t :=
  match Mapper.make no_dates no_order (demo_file door) with Ret m => m | _ => Mapper.empty end.
Definition demo_instance (door : list (string * xml)) : AuthFileInstance.t :=
  AuthFileInstance.mk (demo_mapper door) "AUTH" "doorA".

(** Monday noon, and a card read by a reader. *)
Definition monday_noon : Z -> tm := fun _ => mk_tm 1 12 0.
Definition demo_times : times := mk_times 0 0 0.
Definition demo_request : message := [FStr "S_READER"; FU8 1; FStr "aa:bb:cc:dd"; FInt 32].
Definition demo_cred : credential := Card (RFIDCard.mk Credential.make "aa:bb:cc:dd" 32).

Lemma access_decision_witness :
  exists res, handle_auth monday_noon demo_times (demo_instance []) demo_request = Ret res /\
    success res = true.
Proof.
  destruct (access_decision monday_noon no_dates no_order (demo_file []) demo_times (demo_instance [])
    demo_request demo_cred) as (owner & res & Ho & Hr & Hiff).
  - vm_compute. reflexivity.
  - reflexivity.
  - discriminate.
  - exists res. split; [exact Hr|]. apply Hiff. vm_compute in Ho. injection Ho as <-.
    split; [reflexivity|]. split; [intros u [= <-]; reflexivity|]. split.
    + intros sm [<-|[]] _. split; reflexivity.
    + eexists _, demo_schedule. split; [left; reflexivity|]. repeat split.
Defined.

Lemma door_mapping_witness :
  exists res, handle_auth monday_noon demo_times (demo_instance [("door", leaf "doorA")]) demo_request = Ret res /\
    success res = false.
Proof.
  pose (m := demo_mapper [("door", leaf "doorA")]).
  destruct (mappings_ m) as [|sm l] eqn:Em; [vm_compute in Em; discriminate|].
  destruct (owner_of m (mapToUser m demo_cred)) as [o|e|f] eqn:Eo; [|vm_compute in Eo; discriminate..].
  apply (door_mapping_denies monday_noon no_dates no_order (demo_file [("door", leaf "doorA")]) demo_times
    (demo_instance [("door", leaf "doorA")]) demo_request demo_cred sm o).
  - vm_compute. reflexivity.
  - reflexivity.
  - discriminate.
  - exact Eo.
  - change (In sm (mappings_ m)). rewrite Em. left. reflexivity.
  - vm_compute in Em. injection Em as <- <-. vm_compute in Eo. injection Eo as <-. reflexivity.
  - vm_compute in Em. injection Em as <- <-. discriminate.
Defined.

Lemma card_and_pin_witness :
  handle_auth monday_noon demo_times (demo_instance [])
    [FStr "S_READER"; FU8 3; FStr "aa:bb:cc:dd"; FInt 32; FStr "1234"] = Fault AssertFailed.
Proof.
  apply (card_and_pin_aborts monday_noon demo_times (demo_instance [])
    [FStr "S_READER"; FU8 3; FStr "aa:bb:cc:dd"; FInt 32; FStr "1234"]
    (RFIDCardPin.make (RFIDCard.mk Credential.make "aa:bb:cc:dd" 32) (PinCode.mk Credential.make "1234"))).
  reflexivity.
Defined.

(** A malformed PIN, and an audit that throws. *)
Lemma failures_deny_witness :
  handle_bus_msg_with monday_noon (Some (fun _ _ => Throw (OdbException "locked"))) demo_times (demo_instance [])
    [FStr "S_READER"; FU8 2; FStr "12ab"] = Ret (Answer [FStr "S_AUTH"; FU8 DENIED]).
Proof.
  eapply (failures_deny monday_noon no_dates no_order (demo_file []) demo_times (demo_instance [])
    [FStr "S_READER"; FU8 2; FStr "12ab"] "S_READER" [FU8 2; FStr "12ab"]).
  - vm_compute. reflexivity.
  - reflexivity.
  - discriminate.
  - reflexivity.
Defined.

Lemma homonyms_witness :
  exists u v, user_objs (demo_mapper []) !! 1 = Some u /\ user_objs (demo_mapper []) !! 2 = Some v /\
    get_user_groups (demo_mapper []) u = get_user_groups (demo_mapper []) v.
Proof.
  do 2 eexists. split; [vm_compute; reflexivity|]. split; [vm_compute; reflexivity|].
  apply homonyms_share_groups. reflexivity.
Defined.

Lemma reload_atomic_witness :
  exists i', AuthFileInstance.reload no_dates no_order (Node "" []) (demo_instance []) = Ret (i', false) /\
    i' = demo_instance [].
Proof.
  assert (Hr : AuthFileInstance.reload no_dates no_order (Node "" []) (demo_instance []) =
    Ret (demo_instance [], false)) by (cbn; reflexivity).
  exists (demo_instance []). split; [exact Hr|].
  destruct (reload_atomic no_dates no_order (Node "" []) (demo_instance []) (demo_instance []) false Hr)
    as [[_ H]|[H _]]; [exact H | discriminate H].
Defined.
