(* ===== verification/Doorman.v ===== *)
(** The doorman module, [src/modules/doorman/]: what happens at a door when the
    authentication modules answer ([DoormanInstance.cpp]), when somebody presses
    the exit button or the door's contact changes ([DoormanDoor.cpp]), and every
    two seconds ([DoormanModule.cpp]).

    Commands go to GPIOs and alarms by request and reply: the code runs in
    [Facades.io], over any [Peers]. A door is a target of the module, with the
    facade of its GPIO; doormen share the targets, by their position. *)
From Stdlib Require Import ZArith Lia Ascii String.
From stdpp Require Import base tactics numbers list strings gmap.
From S2P Require Import Prelude Timers Facades Ptree Wiegand Users Schedules Profiles.

Open Scope Z_scope.

(** * Targets *)

(** An [AuthTarget] and the last update of the GPIO facade it owns. *)
Record target := mk_target { auth : AuthTarget.t; lastupdate : Z }.

Section targets.
Context {W : Type} `{Peers W}.

(** A call on the GPIO of the door, which may have none. *)
Definition on_gpio {A} (f : FGPIO.t -> io W (A * FGPIO.t)) (t : target) : io W (A * target) :=
  g ← pure (deref (AuthTarget.gpio_ (auth t)));
  '(a, g) ← f (FGPIO.mk g (lastupdate t));
  mret (a, mk_target (auth t) (FGPIO.lastupdate_ g)).

Definition ask_gpio (f : FGPIO.t -> io W bool) (t : target) : io W bool :=
  g ← pure (deref (AuthTarget.gpio_ (auth t)));
  f (FGPIO.mk g (lastupdate t)).

(** [AuthTarget::resetToExpectedState]; [stamp] is the time the facade reads. *)
Definition resetToExpectedState (now : tm) (stamp : Z) (t : target) : io W target :=
  if AuthTarget.is_always_open now (auth t) && AuthTarget.is_always_closed now (auth t) then mret t
  else
    on ← (if AuthTarget.is_always_open now (auth t) then b ← ask_gpio FGPIO.isOn t; mret (negb b) else mret false);
    if (on : bool) then '(_, t) ← on_gpio (FGPIO.turnOn stamp) t; mret t
    else
      off ← (if AuthTarget.is_always_closed now (auth t) then b ← ask_gpio FGPIO.isOff t; mret (negb b) else mret false);
      if (off : bool) then '(_, t) ← on_gpio (FGPIO.turnOff stamp) t; mret t else mret t.

End targets.

(** * DoormanDoor *)

Module DoormanDoor.

Record t := mk {
  door_ : nat;                     (* the position of the target *)
  topic_exitreq_ : string;
  topic_contact_ : string;
  contact_triggered_ : bool;
  contact_lastupdate_ : Z;
  alarm_forced_ : string;
}.

Definition topic (gpio : option string) : string :=
  match gpio with Some g => "S_INT:" +:+ g | None => "" end.

Definition make (i : nat) (a : AuthTarget.t) : t :=
  mk i (topic (AuthTarget.exitreq_gpio_ a)) (topic (AuthTarget.contact_gpio_ a)) false 0 "".

Definition set_contact (triggered : bool) (at_ : Z) (d : t) : t :=
  mk (door_ d) (topic_exitreq_ d) (topic_contact_ d) triggered at_ (alarm_forced_ d).
Definition set_alarm_forced (alarm : string) (d : t) : t :=
  mk (door_ d) (topic_exitreq_ d) (topic_contact_ d) (contact_triggered_ d) (contact_lastupdate_ d) alarm.

(** The topics the door's socket subscribes to. *)
Definition topics (a : AuthTarget.t) : list string :=
  match AuthTarget.exitreq_gpio_ a with Some g => ["S_INT:" +:+ g] | None => [] end ++
  match AuthTarget.contact_gpio_ a with Some g => ["S_INT:" +:+ g] | None => [] end.

Section door.
Context {W : Type} `{Peers W}.

Definition handle_bus_msg (now : Z) (msg : string) (tgt : target) (d : t) : io W (target * t) :=
  if String.eqb msg (topic_exitreq_ d) then
    match AuthTarget.gpio_ (auth tgt) with
    | Some _ =>
        '(_, tgt) ← on_gpio (FGPIO.turnOn_for now (AuthTarget.exitreq_duration_ (auth tgt))) tgt;
        mret (tgt, d)
    | None => mret (tgt, d)
    end
  else if String.eqb msg (topic_contact_ d) then
    mret (tgt, set_contact (negb (contact_triggered_ d)) now d)
  else mret (tgt, d).

End door.
End DoormanDoor.

(** * DoormanInstance *)

Record DoormanAction := mk_action { target_ : string; on_ : Z; cmd_ : list string }.

Module DoormanInstance.

Record t := mk {
  name_ : string;
  auth_contexts : list string;
  actions_ : list DoormanAction;
  doors_ : list DoormanDoor.t;
}.

(** The topics of the bus the instance subscribes to. *)
Definition topics (i : t) : list string := map (fun c => "S_" +:+ c) (auth_contexts i).

Definition make (name : string) (auth_contexts : list string) (actions : list DoormanAction)
    (module_doors : list target) : t :=
  mk name auth_contexts actions (imap (fun i t => DoormanDoor.make i (auth t)) module_doors).

(** The target whose GPIO has this name. *)
Fixpoint find_target (name : string) (ts : list target) (ds : list DoormanDoor.t)
  : outcome (option AuthTarget.t) :=
  match ds with
  | [] => Ret None
  | d :: ds =>
      t ← deref (ts !! DoormanDoor.door_ d);
      g ← deref (AuthTarget.gpio_ (auth t));
      if String.eqb g name then Ret (Some (auth t)) else find_target name ts ds
  end.

(** A frame of a command: an integer when it reads as one. *)
Definition frame_of (s : string) : frame :=
  match stoi (chars s) with Ret v => FInt64 v | _ => FStr s end.

Section instance.
Context (localtime : Z -> tm).

(** [now] gives the two readings of the clock, for the closed and for the open
    schedules. *)
Definition ignore_action (now : Z * Z) (ts : list target) (i : t) (action : DoormanAction) (status : Z)
  : outcome bool :=
  if negb (on_ action =? status) then Ret true
  else
    tgt ← find_target (target_ action) ts (doors_ i);
    Ret (match tgt with
         | Some a => AuthTarget.is_always_closed (localtime now.1) a || AuthTarget.is_always_open (localtime now.2) a
         | None => false
         end).

Context {W : Type} `{Peers W}.

Definition command_send_recv (name : string) (m : message) : io W unit :=
  response ← ask name m;
  _ ← text_of response;
  mret tt.

(** The loop over the actions; [now k] are the clocks of the [k]-th. *)
Fixpoint run_actions (now : nat -> Z * Z) (k : nat) (ts : list target) (i : t) (status : Z)
    (actions : list DoormanAction) : io W unit :=
  match actions with
  | [] => mret tt
  | a :: actions =>
      ignored ← pure (ignore_action (now k) ts i a status);
      _ ← (if (ignored : bool) then mret tt
           else command_send_recv (target_ a) (map frame_of (cmd_ a)));
      run_actions now (S k) ts i status actions
  end.

Definition handle_bus_msg (now : nat -> Z * Z) (ts : list target) (i : t) (bus_msg : message) : io W unit :=
  _ ← pure (cassert (bool_decide (2 <= length bus_msg)%nat));
  '(_, m) ← pure (pop_str bus_msg);
  '(access_status, _) ← pure (pop_u8 m);
  run_actions now 0 ts i access_status (actions_ i).

End instance.
End DoormanInstance.

(** * DoormanModule *)

Module DoormanModule.

Record t := mk { doors_ : list target; doormen_ : list DoormanInstance.t }.

Section module.
Context (localtime : Z -> tm).

Definition too_long : string := "Door forced (opened too long).".
Definition unexpected : string := "Door forced (unexpected opening).".

Section run.
Context {W : Type} `{Peers W}.

(** The part of [update] about a door's alarm. *)
Definition update_alarm (now : Z) (tgt : target) (d : DoormanDoor.t) : io W DoormanDoor.t :=
  match AuthTarget.alarm_ (auth tgt) with
  | None => mret d
  | Some alarm =>
      if str_empty (DoormanDoor.alarm_forced_ d) && DoormanDoor.contact_triggered_ d then
        if now <=? DoormanDoor.contact_lastupdate_ d + ms (AuthTarget.contact_duration_ (auth tgt)) then
          a ← FAlarm.raise alarm ALARM_FORCED too_long;
          mret (DoormanDoor.set_alarm_forced a d)
        else if bool_decide (is_Some (AuthTarget.gpio_ (auth tgt))) &&
                (lastupdate tgt + ms (AuthTarget.contact_duration_ (auth tgt)) <? now) then
          a ← FAlarm.raise alarm ALARM_FORCED unexpected;
          mret (DoormanDoor.set_alarm_forced a d)
        else mret d
      else if negb (str_empty (DoormanDoor.alarm_forced_ d)) && negb (DoormanDoor.contact_triggered_ d) then
        st ← FAlarm.state alarm (DoormanDoor.alarm_forced_ d);
        _ ← (if st =? STATE_RAISED then _ ← FAlarm.disarm alarm (DoormanDoor.alarm_forced_ d); mret tt
             else mret tt);
        mret (DoormanDoor.set_alarm_forced "" d)
      else mret d
  end.

(** The doors of one doorman, with the targets all of them share. *)
Fixpoint update_doors (now stamp : Z) (ts : list target) (ds : list DoormanDoor.t)
  : io W (list target * list DoormanDoor.t) :=
  match ds with
  | [] => mret (ts, [])
  | d :: ds =>
      tgt ← pure (deref (ts !! DoormanDoor.door_ d));
      d ← update_alarm now tgt d;
      tgt ← resetToExpectedState (localtime now) stamp tgt;
      '(ts, ds) ← update_doors now stamp (<[DoormanDoor.door_ d := tgt]> ts) ds;
      mret (ts, d :: ds)
  end.

Fixpoint update_doormen (now stamp : Z) (ts : list target) (is_ : list DoormanInstance.t)
  : io W (list target * list DoormanInstance.t) :=
  match is_ with
  | [] => mret (ts, [])
  | i :: is_ =>
      '(ts, ds) ← update_doors now stamp ts (DoormanInstance.doors_ i);
      '(ts, is_) ← update_doormen now stamp ts is_;
      mret (ts, DoormanInstance.mk (DoormanInstance.name_ i) (DoormanInstance.auth_contexts i)
                  (DoormanInstance.actions_ i) ds :: is_)
  end.

Definition update (now stamp : Z) (m : t) : io W t :=
  '(ts, is_) ← update_doormen now stamp (doors_ m) (doormen_ m);
  mret (mk ts is_).

End run.

(** ** Configuration *)

Context {T : Type} `{PropertyTree T}.

(** The schedules of a section, added one by one; the status [load] returns is
    ignored. *)
Definition load_schedules (section : option T) : outcome (list Schedule.t) :=
  match section with
  | None => Ret []
  | Some tree => '(s, _) ← XmlScheduleLoader.load tree ∅; Ret (map snd (map_to_list s))
  end.

(** [get_child_optional("on.schedules")]. *)
Definition nested (node : T) (outer inner : string) : option T :=
  get_child_optional node outer ≫= (fun n => get_child_optional n inner).

(** A GPIO and a duration in milliseconds. *)
Definition timed_gpio (section : option T) (duration : Z) : outcome (option string * Z) :=
  match section with
  | None => Ret (None, duration)
  | Some n =>
      g ← get as_string n "gpio";
      d ← get as_u16 n "duration";
      Ret (Some g, d)
  end.

Definition process_door (door_cfg : T) : outcome target :=
  name ← get as_string door_cfg "name";
  gpio ← get as_string door_cfg "gpio";
  open_scheds ← load_schedules (nested door_cfg "on" "schedules");
  close_scheds ← load_schedules (nested door_cfg "off" "schedules");
  let a := AuthTarget.make name in
  '(exitreq, exitreq_duration) ← timed_gpio (get_child_optional door_cfg "exitreq") (AuthTarget.exitreq_duration_ a);
  '(contact, contact_duration) ← timed_gpio (get_child_optional door_cfg "contact") (AuthTarget.contact_duration_ a);
  let alarm := get_default as_string door_cfg "alarm" "" in
  Ret (mk_target (AuthTarget.mk name open_scheds close_scheds (Some gpio) exitreq exitreq_duration contact
         contact_duration (if str_empty alarm then None else Some alarm)) 0).

Definition process_doors_config (doors_cfg : T) : outcome (list target) :=
  foldM (fun ts (node : string * T) => t ← process_door node.2; Ret (ts ++ [t])) [] (children doors_cfg).

Definition process_action (strict : bool) (checker : ConfigChecker.t) (cfg_action : T) : outcome DoormanAction :=
  on_status ← get as_string cfg_action "on";
  tgt ← get as_string cfg_action "target";
  _ ← cassert (ConfigChecker.has_name tgt checker || negb strict);
  cmd ← get_child cfg_action "cmd";
  Ret (mk_action tgt (if String.eqb on_status "GRANTED" then GRANTED else DENIED)
         (map (fun c : string * T => data c.2) (children cmd))).

Definition process_instance (strict : bool) (checker : ConfigChecker.t) (ts : list target) (cfg_doorman : T)
  : outcome DoormanInstance.t :=
  name ← get_child cfg_doorman "name";
  contexts ← get_child cfg_doorman "auth_contexts";
  auth_ctx_names ← foldM (fun l (n : string * T) => c ← get as_string n.2 "name"; Ret (l ++ [c])) []
                     (children contexts);
  actions ← get_child cfg_doorman "actions";
  actions ← foldM (fun l (n : string * T) => a ← process_action strict checker n.2; Ret (l ++ [a])) []
              (children actions);
  Ret (DoormanInstance.make (data name) auth_ctx_names actions ts).

Definition process_config (strict : bool) (checker : ConfigChecker.t) (cfg : T) : outcome t :=
  module_config ← get_child cfg "module_config";
  ts ← match get_child_optional module_config "doors" with
       | Some doors_cfg => process_doors_config doors_cfg
       | None => Ret []
       end;
  instances ← get_child module_config "instances";
  is_ ← foldM (fun l (n : string * T) => i ← process_instance strict checker ts n.2; Ret (l ++ [i])) []
          (children instances);
  Ret (mk ts is_).

(** The constructor: a mistake in the tree is nested in a [ConfigException]. *)
Definition make (strict : bool) (checker : ConfigChecker.t) (cfg : T) : outcome t :=
  match process_config strict checker cfg with
  | Throw (PtreeError _) => Throw (ConfigException "Doorman module configuration is invalid")
  | r => r
  end.

End module.
End DoormanModule.

(** * Specifications *)

(** Every door has a GPIO, and a doorman has one [DoormanDoor] per target, in
    order. *)
Definition target_ok (t : target) : Prop := is_Some (AuthTarget.gpio_ (auth t)).
Definition instance_ok (n : nat) (i : DoormanInstance.t) : Prop :=
  map DoormanDoor.door_ (DoormanInstance.doors_ i) = seq 0 n.
Record module_ok (m : DoormanModule.t) : Prop := {
  mo_targets : Forall target_ok (DoormanModule.doors_ m);
  mo_instances : Forall (instance_ok (length (DoormanModule.doors_ m))) (DoormanModule.doormen_ m);
}.

Section spec.
Context (localtime : Z -> tm).

(** The door of this GPIO is kept open or closed by its schedules. *)
Definition permanent (now : Z * Z) (ts : list target) (gpio : string) : bool :=
  match List.find (fun t => bool_decide (AuthTarget.gpio_ (auth t) = Some gpio)) ts with
  | Some t => AuthTarget.is_always_closed (localtime now.1) (auth t) ||
              AuthTarget.is_always_open (localtime now.2) (auth t)
  | None => false
  end.

Definition applies (now : Z * Z) (ts : list target) (status : Z) (a : DoormanAction) : bool :=
  (on_ a =? status) && negb (permanent now ts (target_ a)).

Definition request_of (a : DoormanAction) : string * message :=
  (target_ a, map DoormanInstance.frame_of (cmd_ a)).

(** The commands an answer leads to, in the order of the configuration. *)
Fixpoint commands (now : nat -> Z * Z) (k : nat) (ts : list target) (status : Z) (actions : list DoormanAction)
  : list (string * message) :=
  match actions with
  | [] => []
  | a :: actions => (if applies (now k) ts status a then [request_of a] else []) ++
                    commands now (S k) ts status actions
  end.

(** What a door's schedules ask of its GPIO. *)
Definition expected (now : tm) (a : AuthTarget.t) (b : bool) : bool :=
  match AuthTarget.is_always_open now a, AuthTarget.is_always_closed now a with
  | true, false => true
  | false, true => false
  | _, _ => b
  end.

End spec.

(** Sending commands one after the other. *)
Definition send_all {W} `{Peers W} (cs : list (string * message)) (w : W) : W :=
  foldl (fun w c => (exchange c.1 c.2 w).1) w cs.

(** ** Lemmas *)

Section lemmas.
Context (localtime : Z -> tm).

Lemma find_target_eq name ts ds k :
  map DoormanDoor.door_ ds = seq k (length ts - k) -> Forall target_ok ts ->
  DoormanInstance.find_target name ts ds =
  Ret (auth <$> List.find (fun t => bool_decide (AuthTarget.gpio_ (auth t) = Some name)) (drop k ts)).
Proof.
  revert k. induction ds as [|d ds IH]; intros k Hd Hok; cbn [DoormanInstance.find_target map] in *.
  - assert (length ts - k = 0)%nat by (destruct (length ts - k)%nat; [done|discriminate]).
    by rewrite drop_ge by lia.
  - destruct (length ts - k)%nat as [|n] eqn:En; [discriminate|]. cbn [seq] in Hd. injection Hd as Hk Hd.
    destruct (lookup_lt_is_Some_2 ts k ltac:(lia)) as [t Ht].
    rewrite Hk, Ht. cbn [deref mbind outcome_bind]. pose proof (Forall_lookup_1 _ _ _ _ Hok Ht) as [g Hg].
    rewrite (drop_S _ _ _ Ht). cbn [List.find]. rewrite Hg. cbn [deref mbind outcome_bind].
    destruct (String.eqb_spec g name) as [->|Hne].
    + by rewrite bool_decide_eq_true_2.
    + rewrite bool_decide_eq_false_2 by congruence. apply (IH (S k)); [|done].
      by replace (length ts - S k)%nat with n by lia.
Qed.

Lemma ignore_action_eq now ts i a status :
  instance_ok (length ts) i -> Forall target_ok ts ->
  DoormanInstance.ignore_action localtime now ts i a status = Ret (negb (applies localtime now ts status a)).
Proof.
  intros Hi Hok. unfold DoormanInstance.ignore_action, applies. destruct (on_ a =? status); [|done]. cbn [negb andb].
  rewrite (find_target_eq _ _ _ 0); [|by rewrite Nat.sub_0_r|done]. cbn [mbind outcome_bind drop].
  rewrite negb_involutive. unfold permanent. by destruct (List.find _ _).
Qed.

Context {W : Type} `{Peers W}.

Lemma command_sent name m (w w' : W) s rest : exchange name m w = (w', Some (FStr s :: rest)) ->
  DoormanInstance.command_send_recv name m w = (w', Ret tt).
Proof. intros He. unfold DoormanInstance.command_send_recv, mbind, io_bind, ask. by rewrite He. Qed.

Lemma run_actions_eq now k ts i status actions (w : W) :
  instance_ok (length ts) i -> Forall target_ok ts ->
  (forall name m w, exists w' s rest, exchange name m w = (w', Some (FStr s :: rest))) ->
  DoormanInstance.run_actions localtime now k ts i status actions w =
  (send_all (commands localtime now k ts status actions) w, Ret tt).
Proof.
  intros Hi Hok Hreply. revert k w. induction actions as [|a actions IH]; intros k w; [done|].
  cbn [DoormanInstance.run_actions commands]. rewrite ignore_action_eq by done.
  unfold pure at 1. erewrite io_bind_ret by reflexivity.
  destruct (applies localtime (now k) ts status a); cbn [negb app].
  - destruct (Hreply (target_ a) (map DoormanInstance.frame_of (cmd_ a)) w) as (w' & s & rest & He).
    erewrite io_bind_ret by (by eapply command_sent). rewrite IH. unfold send_all. cbn [foldl request_of fst snd].
    by rewrite He.
  - erewrite io_bind_ret by reflexivity. by rewrite IH.
Qed.

Context `{!GpioPeer W}.

Lemma target_eta t : mk_target (auth t) (lastupdate t) = t.
Proof. by destruct t. Qed.

Lemma ask_gpio_eq g (f : FGPIO.t -> io W bool) t w : AuthTarget.gpio_ (auth t) = Some g ->
  ask_gpio f t w = f (FGPIO.mk g (lastupdate t)) w.
Proof. intros Hg. unfold ask_gpio. by rewrite Hg. Qed.

(** A command to the door's GPIO. *)
Lemma on_gpio_command g m stamp t (w w' : W) :
  AuthTarget.gpio_ (auth t) = Some g -> exchange g m w = (w', Some [FStr "OK"]) ->
  on_gpio (FGPIO.command m stamp) t w = (w', Ret (true, mk_target (auth t) stamp)).
Proof.
  intros Hg He. unfold on_gpio. rewrite Hg. unfold pure at 1. erewrite io_bind_ret by reflexivity.
  erewrite io_bind_ret by (apply (fgpio_command (FGPIO.mk g (lastupdate t))); exact He). done.
Qed.

Lemma reset_runs now stamp t g (w : W) b : AuthTarget.gpio_ (auth t) = Some g -> pin g w = Some b ->
  exists w' t', resetToExpectedState now stamp t w = (w', Ret t') /\ auth t' = auth t /\
    pin g w' = Some (expected now (auth t) b) /\ forall h, h <> g -> pin h w' = pin h w.
Proof.
  intros Hg Hp. unfold resetToExpectedState, expected.
  destruct (fgpio_state (FGPIO.mk g (lastupdate t)) w b Hp) as (w1 & Hon & Hoff & Hs1).
  assert (Hp1 : pin g w1 = Some b) by (by rewrite Hs1).
  destruct (AuthTarget.is_always_open now (auth t)), (AuthTarget.is_always_closed now (auth t)); cbn [andb].
  - exists w, t. done.
  - rewrite (io_bind_ret _ _ w w1 (negb b)) by (by rewrite (io_bind_ret _ _ w w1 b) by by rewrite (ask_gpio_eq g)).
    destruct b; cbn [negb].
    + erewrite io_bind_ret by reflexivity. exists w1, t. split; [done|]. split; [done|]. split; [done|]. intros; by rewrite Hs1.
    + destruct (gpio_on _ _ _ Hp1) as (w2 & He & Hp2 & Hh).
      erewrite io_bind_ret by (by apply (on_gpio_command g)).
      do 2 eexists. split; [reflexivity|]. split; [done|]. split; [done|]. intros h Hne. by rewrite Hh, Hs1.
  - rewrite (io_bind_ret _ _ w w false) by done.
    rewrite (io_bind_ret _ _ w w1 b)
      by (rewrite (io_bind_ret _ _ w w1 (negb b)) by (by rewrite (ask_gpio_eq g)); by rewrite negb_involutive).
    destruct b.
    + destruct (gpio_off _ _ _ Hp1) as (w2 & He & Hp2 & Hh).
      erewrite io_bind_ret by (by apply (on_gpio_command g)).
      do 2 eexists. split; [reflexivity|]. split; [done|]. split; [done|]. intros h Hne. by rewrite Hh, Hs1.
    + exists w1, t. split; [done|]. split; [done|]. split; [done|]. intros; by rewrite Hs1.
  - rewrite !(io_bind_ret _ _ w w false) by done. by exists w, t.
Qed.

End lemmas.

(** * Properties of the module *)

Section update.
Context (localtime : Z -> tm) {W : Type} `{Peers W, !GpioPeer W}.

Definition gpio_of (t : target) : option string := AuthTarget.gpio_ (auth t).

(** The alarm a target has answers, and leaves the doors' GPIOs alone. *)
Definition alarm_sound (ts : list target) (a : string) : Prop :=
  let quiet (w w' : W) := forall t g, t ∈ ts -> gpio_of t = Some g -> pin g w' = pin g w in
  (forall ty reason w, exists w' x, FAlarm.raise a ty reason w = (w', Ret x) /\ quiet w w') /\
  (forall x w, exists w' st, FAlarm.state a x w = (w', Ret st) /\ quiet w w') /\
  (forall x w, exists w' ok, FAlarm.disarm a x w = (w', Ret ok) /\ quiet w w').

(** What the module is deployed with: doors on distinct GPIOs, each an output
    pin somewhere, and alarms that answer. *)
Record deployed (ts : list target) (w : W) : Prop := {
  dp_targets : Forall target_ok ts;
  dp_distinct : NoDup (map gpio_of ts);
  dp_pins : forall t g, t ∈ ts -> gpio_of t = Some g -> is_Some (pin g w);
  dp_alarms : forall t a, t ∈ ts -> AuthTarget.alarm_ (auth t) = Some a -> alarm_sound ts a;
}.

Lemma update_alarm_runs now ts t d w : t ∈ ts ->
  (forall a, AuthTarget.alarm_ (auth t) = Some a -> alarm_sound ts a) ->
  exists w' d', DoormanModule.update_alarm now t d w = (w', Ret d') /\
    DoormanDoor.door_ d' = DoormanDoor.door_ d /\
    forall u g, u ∈ ts -> gpio_of u = Some g -> pin g w' = pin g w.
Proof.
  intros Ht Ha. unfold DoormanModule.update_alarm. destruct (AuthTarget.alarm_ (auth t)) as [a|] eqn:Ea; [|by exists w, d].
  destruct (Ha a eq_refl) as (Hraise & Hstate & Hdis).
  destruct (_ && _).
  - destruct (_ <=? _).
    + destruct (Hraise ALARM_FORCED DoormanModule.too_long w) as (w' & x & Hr & Hq).
      rewrite (io_bind_ret _ _ _ _ _ Hr). by exists w', (DoormanDoor.set_alarm_forced x d).
    + destruct (_ && _); [|by exists w, d].
      destruct (Hraise ALARM_FORCED DoormanModule.unexpected w) as (w' & x & Hr & Hq).
      rewrite (io_bind_ret _ _ _ _ _ Hr). by exists w', (DoormanDoor.set_alarm_forced x d).
  - destruct (_ && _); [|by exists w, d].
    destruct (Hstate (DoormanDoor.alarm_forced_ d) w) as (w' & st & Hr & Hq). rewrite (io_bind_ret _ _ _ _ _ Hr).
    destruct (_ =? _).
    + destruct (Hdis (DoormanDoor.alarm_forced_ d) w') as (w2 & ok & Hr2 & Hq2).
      rewrite (io_bind_ret _ _ w' w2 tt) by (by rewrite (io_bind_ret _ _ _ _ _ Hr2)).
      exists w2, (DoormanDoor.set_alarm_forced "" d). split; [done|]. split; [done|].
      intros u g Hu Hg. by rewrite (Hq2 u g), (Hq u g).
    + rewrite (io_bind_ret _ _ w' w' tt) by done. by exists w', (DoormanDoor.set_alarm_forced "" d).
Qed.

(** Only the facades of the targets change. *)
Definition same_auth (ts ts' : list target) : Prop := map auth ts' = map auth ts.

Lemma same_auth_gpio ts ts' : same_auth ts ts' -> map gpio_of ts' = map gpio_of ts.
Proof.
  intros Hs. change gpio_of with (fun t => AuthTarget.gpio_ (auth t)).
  rewrite <- !(map_map auth AuthTarget.gpio_). by rewrite Hs.
Qed.

Lemma same_auth_in ts ts' t' : same_auth ts ts' -> t' ∈ ts' -> exists t, t ∈ ts /\ auth t = auth t'.
Proof.
  intros Hs Hin. apply (list_elem_of_fmap_2 auth) in Hin.
  change (auth <$> ts') with (map auth ts') in Hin. rewrite Hs in Hin.
  apply list_elem_of_fmap in Hin as (t & -> & Ht). by exists t.
Qed.

Lemma deployed_same ts ts' w w' : deployed ts w -> same_auth ts ts' ->
  (forall t g, t ∈ ts -> gpio_of t = Some g -> is_Some (pin g w')) -> deployed ts' w'.
Proof.
  intros [H1 H2 H3 H4] Hs Hp. split.
  - apply Forall_forall. intros t' Ht'. destruct (same_auth_in _ _ _ Hs Ht') as (t & Ht & Ha).
    unfold target_ok. rewrite <- Ha. by apply (proj1 (Forall_forall _ _) H1).
  - by rewrite (same_auth_gpio _ _ Hs).
  - intros t' g Ht' Hg. destruct (same_auth_in _ _ _ Hs Ht') as (t & Ht & Ha). apply (Hp t g Ht).
    unfold gpio_of. by rewrite Ha.
  - intros t' a Ht' Hal. destruct (same_auth_in _ _ _ Hs Ht') as (t & Ht & Ha). rewrite <- Ha in Hal.
    destruct (H4 t a Ht Hal) as (Hq1 & Hq2 & Hq3).
    assert (Hq : forall w w' : W, (forall t g, t ∈ ts -> gpio_of t = Some g -> pin g w' = pin g w) ->
      forall t g, t ∈ ts' -> gpio_of t = Some g -> pin g w' = pin g w).
    { intros v v' Hv u g Hu Hg. destruct (same_auth_in _ _ _ Hs Hu) as (u0 & Hu0 & Hau). apply (Hv u0 g Hu0).
      unfold gpio_of. by rewrite Hau. }
    split; [|split]; intros.
    + destruct (Hq1 ty reason w0) as (v & x & ? & ?). exists v, x. eauto.
    + destruct (Hq2 x w0) as (v & st & ? & ?). exists v, st. eauto.
    + destruct (Hq3 x w0) as (v & ok & ? & ?). exists v, ok. eauto.
Qed.

Lemma expected_idem now a b : expected now a (expected now a b) = expected now a b.
Proof. unfold expected. by destruct (AuthTarget.is_always_open now a), (AuthTarget.is_always_closed now a). Qed.

(** From door [k] on, every GPIO is put in the state expected. *)
Lemma update_doors_runs now stamp ts ds k w :
  map DoormanDoor.door_ ds = seq k (length ts - k) -> deployed ts w ->
  exists w' ts' ds', DoormanModule.update_doors localtime now stamp ts ds w = (w', Ret (ts', ds')) /\
    same_auth ts ts' /\ map DoormanDoor.door_ ds' = map DoormanDoor.door_ ds /\
    forall i t g b, ts !! i = Some t -> gpio_of t = Some g -> pin g w = Some b ->
      pin g w' = Some (if (k <=? i)%nat then expected (localtime now) (auth t) b else b).
Proof.
  revert k ts w. induction ds as [|d ds IH]; intros k ts w Hd Hdep; cbn [DoormanModule.update_doors].
  { exists w, ts, []. split; [done|]. split; [done|]. split; [done|]. intros i t g b Hi Hg Hp.
    assert (length ts - k = 0)%nat by (cbn in Hd; destruct (length ts - k)%nat; [done|discriminate]).
    apply lookup_lt_Some in Hi. by rewrite (proj2 (Nat.leb_gt _ _)) by lia. }
  destruct (length ts - k)%nat as [|n] eqn:En; [discriminate|]. cbn [map seq] in Hd. injection Hd as Hk Hd.
  destruct (lookup_lt_is_Some_2 ts k ltac:(lia)) as [t Ht].
  pose proof (list_elem_of_lookup_2 _ _ _ Ht) as Hin.
  pose proof (Forall_lookup_1 _ _ _ _ (dp_targets _ _ Hdep) Ht) as [g Hg].
  destruct (dp_pins _ _ Hdep t g Hin Hg) as [b Hb].
  rewrite Hk, Ht. unfold pure at 1. cbn [deref]. erewrite io_bind_ret by reflexivity.
  destruct (update_alarm_runs now ts t d w Hin (fun a => dp_alarms _ _ Hdep t a Hin)) as (w1 & d1 & Hr1 & Hd1 & Hq1).
  rewrite (io_bind_ret _ _ _ _ _ Hr1).
  destruct (reset_runs (localtime now) stamp t g w1 b Hg) as (w2 & t2 & Hr2 & Ha2 & Hp2 & Hh2); [by rewrite (Hq1 t g)|].
  rewrite (io_bind_ret _ _ _ _ _ Hr2).
  assert (Hsame : same_auth ts (<[k := t2]> ts)).
  { unfold same_auth. change (map auth) with (fmap (M := list) auth). rewrite list_fmap_insert, Ha2.
    apply list_insert_id. by rewrite list_lookup_fmap, Ht. }
  assert (Hother : forall i u h, ts !! i = Some u -> gpio_of u = Some h -> i <> k -> pin h w2 = pin h w).
  { intros i u h Hi Hu Hne. rewrite Hh2; [by apply (Hq1 u h); [by eapply list_elem_of_lookup_2|]|].
    intros ->. apply Hne. eapply NoDup_lookup; [apply (dp_distinct _ _ Hdep)| |].
    - change (map gpio_of) with (fmap (M := list) gpio_of). rewrite list_lookup_fmap, Hi. exact (f_equal Some Hu).
    - change (map gpio_of) with (fmap (M := list) gpio_of). rewrite list_lookup_fmap, Ht. exact (f_equal Some Hg). }
  assert (Hpins2 : forall u h, u ∈ ts -> gpio_of u = Some h -> is_Some (pin h w2)).
  { intros u h Hu Hgu. destruct (String.eqb_spec h g) as [->|Hne]; [by rewrite Hp2|].
    rewrite Hh2 by done. rewrite (Hq1 u h Hu Hgu). by apply (dp_pins _ _ Hdep u h). }
  destruct (IH (S k) (<[k := t2]> ts) w2) as (w' & ts' & ds' & Hr & Hs & Hdd & Hpin).
  { rewrite length_insert. by replace (length ts - S k)%nat with n by lia. }
  { by apply (deployed_same ts _ w). }
  rewrite Hd1, Hk, (io_bind_ret _ _ _ _ _ Hr). exists w', ts', (d1 :: ds'). split; [done|].
  split; [unfold same_auth in *; congruence|]. split; [cbn; congruence|].
  intros i u h b' Hi Hgu Hpu. destruct (decide (i = k)) as [->|Hne].
  - assert (u = t) as -> by congruence. assert (h = g) as -> by (unfold gpio_of in *; congruence).
    assert (b' = b) as -> by congruence.
    rewrite (Hpin k t2 g (expected (localtime now) (auth t) b)).
    + rewrite Nat.leb_refl. by rewrite (proj2 (Nat.leb_gt _ _)) by lia.
    + apply list_lookup_insert_eq. by eapply lookup_lt_Some.
    + unfold gpio_of. by rewrite Ha2.
    + done.
  - rewrite (Hpin i u h b'); [|by rewrite list_lookup_insert_ne|done|by rewrite (Hother i u h)].
    by replace (S k <=? i)%nat with (k <=? i)%nat by (destruct (Nat.leb_spec k i), (Nat.leb_spec (S k) i); lia || done).
Qed.

(** Every doorman puts every door in the state expected. *)
Lemma update_doormen_runs now stamp ts is_ w :
  Forall (instance_ok (length ts)) is_ -> deployed ts w ->
  exists w' ts' is', DoormanModule.update_doormen localtime now stamp ts is_ w = (w', Ret (ts', is')) /\
    same_auth ts ts' /\ Forall2 (fun i i' => map DoormanDoor.door_ (DoormanInstance.doors_ i') =
                                             map DoormanDoor.door_ (DoormanInstance.doors_ i)) is_ is' /\
    forall i t g b, ts !! i = Some t -> gpio_of t = Some g -> pin g w = Some b ->
      pin g w' = Some (match is_ with [] => b | _ :: _ => expected (localtime now) (auth t) b end).
Proof.
  revert ts w. induction is_ as [|i is_ IH]; intros ts w Hok Hdep; cbn [DoormanModule.update_doormen].
  { exists w, ts, []. repeat split; [constructor|]. intros i t g b _ _ Hp. done. }
  apply Forall_cons in Hok as [Hi Hok].
  destruct (update_doors_runs now stamp ts (DoormanInstance.doors_ i) 0 w) as (w1 & ts1 & ds1 & Hr1 & Hs1 & Hd1 & Hp1);
    [by rewrite Nat.sub_0_r|done|].
  rewrite (io_bind_ret _ _ _ _ _ Hr1).
  assert (Hlen : length ts1 = length ts) by (rewrite <- (length_map auth ts1), Hs1; apply length_map).
  destruct (IH ts1 w1) as (w2 & ts2 & is2 & Hr2 & Hs2 & Hd2 & Hp2).
  { by rewrite Hlen. }
  { apply (deployed_same ts _ w); [done..|]. intros t g Ht Hg.
    apply list_elem_of_lookup in Ht as [j Hj]. destruct (dp_pins _ _ Hdep t g) as [b Hb]; [by eapply list_elem_of_lookup_2|done|].
    by rewrite (Hp1 j t g b). }
  rewrite (io_bind_ret _ _ _ _ _ Hr2). do 3 eexists. split; [reflexivity|].
  split; [unfold same_auth in *; congruence|]. split; [by constructor|].
  intros j t g b Hj Hg Hp. specialize (Hp1 j t g b Hj Hg Hp). cbn [Nat.leb] in Hp1.
  assert (Ha : (auth <$> ts1) !! j = Some (auth t)).
  { change (auth <$> ts1) with (map auth ts1). rewrite Hs1. change (map auth ts) with (auth <$> ts).
    by rewrite list_lookup_fmap, Hj. }
  rewrite list_lookup_fmap in Ha. destruct (ts1 !! j) as [t1|] eqn:Ht1; [|done]. injection Ha as Ha.
  rewrite (Hp2 j t1 g _ Ht1 ltac:(unfold gpio_of in *; congruence) Hp1), Ha. destruct is_; [done|].
  by rewrite expected_idem.
Qed.

(** C4: (refinement) The schedules of a door are enforced. Whatever answers as
    a GPIO should, one [update] of a well-formed module with at least one doorman
    succeeds and leaves the pin of each door in the state its schedules ask for:
    on when only an always-open schedule is active, off when only an
    always-closed one is, untouched otherwise. The module stays well formed, with
    the same targets, and can be updated again. *)
Theorem schedules_enforced now stamp m w :
  module_ok m -> deployed (DoormanModule.doors_ m) w -> DoormanModule.doormen_ m <> [] ->
  exists w' m', DoormanModule.update localtime now stamp m w = (w', Ret m') /\
    module_ok m' /\ deployed (DoormanModule.doors_ m') w' /\
    map auth (DoormanModule.doors_ m') = map auth (DoormanModule.doors_ m) /\
    forall t g b, t ∈ DoormanModule.doors_ m -> gpio_of t = Some g -> pin g w = Some b ->
      pin g w' = Some (expected (localtime now) (auth t) b).
Proof.
  intros [Hok Hi] Hdep Hne. destruct m as [ts is_]. cbn [DoormanModule.doors_ DoormanModule.doormen_] in *.
  destruct (update_doormen_runs now stamp ts is_ w Hi Hdep) as (w' & ts' & is' & Hr & Hs & Hd & Hp).
  assert (Hpin : forall t g b, t ∈ ts -> gpio_of t = Some g -> pin g w = Some b ->
    pin g w' = Some (expected (localtime now) (auth t) b)).
  { intros t g b Ht Hg Hb. apply list_elem_of_lookup in Ht as [j Hj]. rewrite (Hp j t g b) by done. by destruct is_. }
  assert (Hdep' : deployed ts' w').
  { apply (deployed_same ts _ w); [done..|]. intros t g Ht Hg. destruct (dp_pins _ _ Hdep t g Ht Hg) as [b Hb].
    by rewrite (Hpin t g b). }
  exists w', (DoormanModule.mk ts' is'). unfold DoormanModule.update. cbn [DoormanModule.doors_ DoormanModule.doormen_].
  rewrite (io_bind_ret _ _ _ _ _ Hr). split; [done|]. split; [|done].
  assert (Hlen : length ts' = length ts) by (rewrite <- (length_map auth ts'), Hs; apply length_map).
  split; cbn [DoormanModule.doors_ DoormanModule.doormen_]; [apply (dp_targets _ _ Hdep')|]. rewrite Hlen.
  clear -Hd Hi. induction Hd as [|i i' is_ is' Hx Hd IH]; [done|]. apply Forall_cons in Hi as [Hi His].
  constructor; [unfold instance_ok in *; congruence|auto].
Qed.

End update.

(** * A doorman *)

Section doorman.
Context (localtime : Z -> tm) {W : Type} `{Peers W}.

(** C9: (refinement) A doorman does what it is configured to. When an
    authentication module publishes its answer, the doorman of a well-formed
    module sends exactly the commands [commands] lists: those of the actions for
    this answer, in the order of the configuration, to the device each names, and
    none for a door its schedules keep open or closed. *)
Theorem doorman_obeys now m i src status (w : W) :
  module_ok m -> i ∈ DoormanModule.doormen_ m ->
  (forall name m w, exists w' s rest, exchange name m w = (w', Some (FStr s :: rest))) ->
  DoormanInstance.handle_bus_msg localtime now (DoormanModule.doors_ m) i [FStr src; FU8 status] w =
  (send_all (commands localtime now 0 (DoormanModule.doors_ m) status (DoormanInstance.actions_ i)) w, Ret tt).
Proof.
  intros [Hok Hi] Hin Hreply. pose proof (proj1 (Forall_forall _ _) Hi i Hin) as Hii.
  unfold DoormanInstance.handle_bus_msg. unfold pure, cassert. cbn -[DoormanInstance.run_actions].
  erewrite !io_bind_ret by reflexivity. by apply run_actions_eq.
Qed.

Context `{!Bus, !BusLaws}.

(** (error) A doorman also answers for contexts it was not given. It hears
    the answers of every context whose name one of its own begins: configured for
    ["A"], it acts on the answers of ["A2"]. *)
Theorem doorman_overhears (i : DoormanInstance.t) ctx :
  delivers (DoormanInstance.topics i) ("S_" +:+ ctx) = true <->
  exists c, In c (DoormanInstance.auth_contexts i) /\ String.prefix c ctx = true.
Proof.
  rewrite delivers_spec. unfold DoormanInstance.topics. split.
  - intros (t & Hin & Hp). apply in_map_iff in Hin as (c & <- & Hc). exists c. split; [done|].
    cbn in Hp. exact Hp.
  - intros (c & Hc & Hp). exists ("S_" +:+ c). split; [by apply (in_map (fun c => "S_" +:+ c))|]. exact Hp.
Qed.

(** (error) The alarm for a door left open goes off the moment the door is
    opened, and never once it has been open too long. After the contact of a
    closed door opens at [opened], an update within the contact's duration raises
    the alarm; a later one says nothing of the kind. *)
Theorem opened_too_long_inverted opened now tgt d alarm (w : W) :
  AuthTarget.alarm_ (auth tgt) = Some alarm ->
  DoormanDoor.contact_triggered_ d = false -> DoormanDoor.alarm_forced_ d = "" ->
  DoormanDoor.topic_contact_ d <> DoormanDoor.topic_exitreq_ d ->
  exists d', DoormanDoor.handle_bus_msg opened (DoormanDoor.topic_contact_ d) tgt d w = (w, Ret (tgt, d')) /\
    let limit := opened + ms (AuthTarget.contact_duration_ (auth tgt)) in
    (now <= limit -> DoormanModule.update_alarm now tgt d' w =
       (a ← FAlarm.raise alarm ALARM_FORCED DoormanModule.too_long; mret (DoormanDoor.set_alarm_forced a d')) w) /\
    (limit < now -> now <= lastupdate tgt + ms (AuthTarget.contact_duration_ (auth tgt)) ->
       DoormanModule.update_alarm now tgt d' w = (w, Ret d')).
Proof.
  intros Ha Ht Hf Hne. exists (DoormanDoor.set_contact true opened d). unfold DoormanDoor.handle_bus_msg.
  rewrite (proj2 (String.eqb_neq _ _) Hne), String.eqb_refl, Ht. split; [done|]. cbn zeta.
  unfold DoormanModule.update_alarm. rewrite Ha. cbn [DoormanDoor.set_contact DoormanDoor.alarm_forced_
    DoormanDoor.contact_triggered_ DoormanDoor.contact_lastupdate_]. rewrite Hf. cbn [str_empty andb].
  split.
  - intros Hle. by rewrite (proj2 (Z.leb_le _ _) Hle).
  - intros Hlt Hle. rewrite (proj2 (Z.leb_gt _ _)) by lia. rewrite (proj2 (Z.ltb_ge _ _)) by lia.
    by rewrite andb_false_r.
Qed.

End doorman.

(** * Configuration *)

Section config.
Context {T : Type} `{PropertyTree T}.

Lemma instance_make_ok name ctxs actions ts :
  instance_ok (length ts) (DoormanInstance.make name ctxs actions ts).
Proof.
  unfold instance_ok, DoormanInstance.make. cbn [DoormanInstance.doors_].
  change (map DoormanDoor.door_) with (fmap (M := list) DoormanDoor.door_).
  rewrite fmap_imap. rewrite <- (length_fmap auth ts) at 1.
  apply list_eq. intros k. rewrite list_lookup_imap. cbn. destruct (ts !! k) as [t|] eqn:Ek.
  - apply lookup_lt_Some in Ek as Hk. rewrite lookup_seq_lt by (by rewrite length_fmap). done.
  - apply lookup_ge_None in Ek as Hk. by rewrite lookup_seq_ge by (by rewrite length_fmap).
Qed.

Lemma process_door_ok (door_cfg : T) t : DoormanModule.process_door door_cfg = Ret t -> target_ok t.
Proof.
  unfold DoormanModule.process_door. intros E. repeat (apply bind_Ret in E as (? & ? & E)).
  case_match. apply bind_Ret in E as (? & ? & E). case_match. injection E as <-. by eexists.
Qed.

Lemma process_doors_ok (doors_cfg : T) ts :
  DoormanModule.process_doors_config doors_cfg = Ret ts -> Forall target_ok ts.
Proof.
  apply (foldM_preserves _ (Forall target_ok)); [|done]. intros l n l' Hl E.
  apply bind_Ret in E as (t & Ht & E). injection E as <-. apply Forall_app. split; [done|].
  repeat constructor. by eapply process_door_ok.
Qed.

(** C39: (type) A module read from a configuration is well formed: every door
    has a GPIO, and every doorman has one entry per door, in order. *)
Theorem module_well_formed strict checker (cfg : T) m :
  DoormanModule.make strict checker cfg = Ret m -> module_ok m.
Proof.
  intros E. assert (DoormanModule.process_config strict checker cfg = Ret m) as E'.
  { unfold DoormanModule.make in E. by repeat case_match. }
  clear E. unfold DoormanModule.process_config in E'.
  apply bind_Ret in E' as (mc & _ & E'). apply bind_Ret in E' as (ts & Hts & E').
  apply bind_Ret in E' as (insts & _ & E'). apply bind_Ret in E' as (is_ & His & E'). injection E' as <-.
  split; cbn [DoormanModule.doors_ DoormanModule.doormen_].
  - case_match; [by eapply process_doors_ok|]. by simplify_eq.
  - revert His. apply foldM_preserves; [|done]. intros l n l' Hl E.
    apply bind_Ret in E as (i & Hi & E). injection E as <-. apply Forall_app. split; [done|].
    repeat constructor. unfold DoormanModule.process_instance in Hi. repeat (apply bind_Ret in Hi as (? & ? & Hi)).
    injection Hi as <-. apply instance_make_ok.
Qed.

End config.

(** * Examples *)

(** A front door open on Mondays, with an alarm, and a doorman for it. *)
Definition demo_cfg : xml :=
  Node "" [("module_config", Node "" [
    ("doors", Node "" [("door", Node "" [
      ("name", leaf "front"); ("gpio", leaf "lock"); ("alarm", leaf "siren");
      ("contact", Node "" [("gpio", leaf "contact"); ("duration", leaf "15000")]);
      ("on", Node "" [("schedules", Node "" [("schedule", Node "" [
        ("name", leaf "mondays");
        ("monday", Node "" [("start", leaf "8:00"); ("end", leaf "18:00")])])])])])]);
    ("instances", Node "" [("instance", Node "" [
      ("name", leaf "doorman");
      ("auth_contexts", Node "" [("auth_context", Node "" [("name", leaf "A")])]);
      ("actions", Node "" [
        ("action", Node "" [("on", leaf "GRANTED"); ("target", leaf "lock");
                            ("cmd", Node "" [("frame", leaf "ON"); ("frame", leaf "3000")])]);
        ("action", Node "" [("on", leaf "DENIED"); ("target", leaf "buzzer");
                            ("cmd", Node "" [("frame", leaf "ON")])])])])])])].

Definition monday_at (hour : Z) : Z -> tm := fun _ => mk_tm 1 hour 0.
Definition demo_module : DoormanModule.t :=
  match DoormanModule.make (T := xml) false ∅ demo_cfg with Ret m => m | _ => DoormanModule.mk [] [] end.
Definition demo_pins : gmap string bool := {[ "lock" := false; "buzzer" := false ]}.

Lemma demo_module_ok : module_ok demo_module.
Proof. split; vm_compute; repeat constructor. by eexists. Qed.

(** Whoever answers ["KO"] is a sound alarm. *)
Lemma siren_sound (ts : list target) name : alarm_sound (W := gmap string bool) ts name.
Proof.
  split; [|split]; intros; do 2 eexists; (split; [|by intros]);
    cbv [FAlarm.raise FAlarm.state FAlarm.disarm ask mbind io_bind exchange switchboard pure];
    by destruct (w !! name).
Qed.

Lemma demo_deployed : deployed (W := gmap string bool) (DoormanModule.doors_ demo_module) demo_pins.
Proof.
  assert (Hd : exists t, DoormanModule.doors_ demo_module = [t] /\ gpio_of t = Some "lock") by (vm_compute; eauto).
  destruct Hd as (t & -> & Ht). split.
  - repeat constructor. by exists "lock".
  - cbn. rewrite Ht. apply NoDup_singleton.
  - intros u g Hu Hg. apply list_elem_of_singleton in Hu as ->. rewrite Ht in Hg. injection Hg as <-. by exists false.
  - intros u a _ _. apply siren_sound.
Qed.

(** ** Witnesses *)

Lemma schedules_enforced_witness :
  exists w' m', DoormanModule.update (monday_at 12) 0 0 demo_module demo_pins = (w', Ret m') /\
    pin "lock" w' = Some true.
Proof.
  assert (Hd : exists t, DoormanModule.doors_ demo_module = [t] /\ gpio_of t = Some "lock" /\
    expected (monday_at 12 0) (auth t) false = true) by (vm_compute; eauto).
  destruct (schedules_enforced (monday_at 12) 0 0 demo_module demo_pins demo_module_ok demo_deployed)
    as (w' & m' & Hr & _ & _ & _ & Hp); [discriminate|].
  exists w', m'. split; [exact Hr|]. destruct Hd as (t & Ht & Hg & He).
  transitivity (Some (expected (monday_at 12 0) (auth t) false)); [|by rewrite He].
  apply Hp; [rewrite Ht; constructor|exact Hg|reflexivity].
Defined.

Definition demo_doorman : DoormanInstance.t := default (DoormanInstance.make "" [] [] []) (DoormanModule.doormen_ demo_module !! 0%nat).

Lemma doorman_obeys_witness :
  (commands (monday_at 7) (fun _ => (0, 0)) 0 (DoormanModule.doors_ demo_module) GRANTED
     (DoormanInstance.actions_ demo_doorman) = [("lock", [FStr "ON"; FInt64 3000])]) /\
  (commands (monday_at 9) (fun _ => (0, 0)) 0 (DoormanModule.doors_ demo_module) GRANTED
     (DoormanInstance.actions_ demo_doorman) = []) /\
  DoormanInstance.handle_bus_msg (monday_at 7) (fun _ => (0, 0)) (DoormanModule.doors_ demo_module) demo_doorman
    [FStr "S_A"; FU8 GRANTED] demo_pins = (<[ "lock" := true ]> demo_pins, Ret tt).
Proof.
  split; [reflexivity|]. split; [reflexivity|].
  rewrite (doorman_obeys (monday_at 7) (fun _ => (0, 0)) demo_module demo_doorman "S_A" GRANTED demo_pins demo_module_ok).
  - reflexivity.
  - left.
  - apply switchboard_replies.
Defined.

Lemma doorman_overhears_witness : delivers (DoormanInstance.topics demo_doorman) "S_A2" = true.
Proof. apply (doorman_overhears demo_doorman "A2"). exists "A". split; [by left|reflexivity]. Defined.

Lemma opened_too_long_witness :
  let tgt := default (mk_target (AuthTarget.make "") 0) (DoormanModule.doors_ demo_module !! 0%nat) in
  exists d', DoormanDoor.handle_bus_msg 1000 "S_INT:contact" tgt (DoormanDoor.make 0 (auth tgt)) demo_pins =
      (demo_pins, Ret (tgt, d')) /\
    DoormanModule.update_alarm 1001 tgt d' demo_pins =
      (a ← FAlarm.raise "siren" ALARM_FORCED DoormanModule.too_long; mret (DoormanDoor.set_alarm_forced a d')) demo_pins.
Proof.
  intros tgt. destruct (opened_too_long_inverted 1000 1001 tgt (DoormanDoor.make 0 (auth tgt)) "siren" demo_pins)
    as (d' & Hr & Hin & _); try reflexivity; [discriminate|].
  exists d'. split; [exact Hr|]. apply Hin. vm_compute. discriminate.
Defined.

Lemma module_well_formed_witness : module_ok demo_module.
Proof. apply (module_well_formed false (∅ : ConfigChecker.t) demo_cfg). reflexivity. Defined.
