(* ===== verification/Sysfs.v ===== *)
(** GPIOs that are files under [/sys], [src/modules/sysfsgpio/]
    ([SysFsGpioConfig.cpp], [SysFSGPIOPin.cpp], [SysFsGpioModule.cpp]), with the
    reading and writing of these files in [src/tools/unixfs.hpp].

    The kernel's files are a parameter: [Files] is opening, reading and writing a
    file, and [GpioFiles] what the kernel documents of the [value] file of an
    output line. The module, seen by its peers, is an instance of
    [Facades.GpioCommands]; it is not one of [Facades.GpioPeer]. *)
From Stdlib Require Import ZArith Lia Ascii String.
From stdpp Require Import base tactics numbers list strings gmap pretty.
From S2P Require Import Prelude Timers Facades Ptree Wiegand Schedules Profiles Doorman.

Open Scope Z_scope.

(** * Files *)

(** A whole text written to a file, and the text of a file; [None] when it cannot
    be opened. *)
Class Files (S : Type) := {
  write_file : string -> string -> S -> option S;
  read_file : string -> S -> option string;
}.

(** [line path s]: the level of the output line whose [value] file is [path]. *)
Class GpioFiles (S : Type) `{Files S} := {
  line : string -> S -> option bool;
  write_line path b v s : line path s = Some b ->
    exists s', write_file path (if v : bool then "1" else "0") s = Some s' /\ line path s' = Some v /\
      forall q, q <> path -> line q s' = line q s;
  read_line path b s : line path s = Some b ->
    read_file path s = Some (String (if b then "1" else "0") (String "010" ""));
}.

Module UnixFs.
Section files.
Context {S : Type} `{Files S}.

(** [writeSysFsValue], of a text or of a number's digits. *)
Definition writeSysFsValue (path val : string) (s : S) : outcome S :=
  match write_file path val s with Some s' => Ret s' | None => Throw (LEOSACException ("Fs::could not open " +:+ path +:+ "'")) end.

(** [file >> val] for an [int]: nothing is stored when the file holds only
    spaces, 0 when what follows is not a number, and the nearest [int] when it is
    too large. *)
Definition extract_int (l : list ascii) : outcome Z :=
  match drop_spaces l with
  | [] => Fault Uninitialised
  | c :: l' =>
      let '(sign, ds) := if Ascii.eqb c "-" then (-1, l') else if Ascii.eqb c "+" then (1, l') else (1, c :: l') in
      let v := sign * foldl (fun a d => 10 * a + (code d - 48)) 0 (take_digits ds) in
      Ret (Z.max (- 2 ^ 31) (Z.min v (2 ^ 31 - 1)))
  end.

Definition readSysFsValue_int (path : string) (s : S) : outcome Z :=
  match read_file path s with Some t => extract_int (chars t) | None => Throw (LEOSACException ("Fs::could not open '" +:+ path +:+ "'")) end.

(** For a [bool], what is not zero is [true]. *)
Definition readSysFsValue_bool (path : string) (s : S) : outcome bool :=
  v ← readSysFsValue_int path s; Ret (negb (v =? 0)).

End files.
End UnixFs.
Import UnixFs.

(** * SysFsGpioConfig *)

Module SysFsGpioConfig.

Record t := mk {
  cfg_export_path_ : string;
  cfg_unexport_path_ : string;
  cfg_value_path_ : string;
  cfg_edge_path_ : string;
  cfg_direction_path_ : string;
  default_aliases_ : string;
  pin_aliases_ : gmap Z string;
}.

(** The body the three paths of a pin share. *)
Definition pin_path (pattern : string) (c : t) (pin_no : Z) : string :=
  match pin_aliases_ c !! pin_no with
  | Some alias => replace_all "__PLACEHOLDER__" alias pattern
  | None => replace_all "__PLACEHOLDER__" (replace_all "__NO__" (to_string pin_no) (default_aliases_ c)) pattern
  end.

Definition value_path (c : t) : Z -> string := pin_path (cfg_value_path_ c) c.
Definition edge_path (c : t) : Z -> string := pin_path (cfg_edge_path_ c) c.
Definition direction_path (c : t) : Z -> string := pin_path (cfg_direction_path_ c) c.

Section config.
Context {T : Type} `{PropertyTree T}.

(** [PropertyTreeExtractor::get]: a mistake is a [ConfigException] that
    names the key. *)
Definition extract (cfg : T) (key : string) : outcome string :=
  match get as_string cfg key with
  | Ret s => Ret s
  | _ => Throw (ConfigException ("SysFsGpio: " +:+ key))
  end.

Definition add_alias (acc : string * gmap Z string) (alias : string * T) : outcome (string * gmap Z string) :=
  if String.eqb alias.1 "default" then Ret (data alias.2, acc.2)
  else pin_no ← stoi (chars alias.1); Ret (acc.1, <[pin_no := data alias.2]> acc.2).

Definition make (cfg : T) : outcome t :=
  export ← extract cfg "export_path";
  unexport ← extract cfg "unexport_path";
  value ← extract cfg "value_path";
  edge ← extract cfg "edge_path";
  direction ← extract cfg "direction_path";
  aliases_cfg ← get_child cfg "aliases";
  '(default_aliases, aliases) ← foldM add_alias ("", ∅) (children aliases_cfg);
  Ret (mk export unexport value edge direction default_aliases aliases).

End config.
End SysFsGpioConfig.
Import SysFsGpioConfig.

(** * SysFsGpioPin *)

Module SysFsGpioPin.

Inductive Direction := In | Out.
Inductive InterruptMode := NoInterrupt | Rising | Falling | Both.
#[export] Instance direction_eq_dec : EqDecision Direction.
Proof. solve_decision. Defined.

Record t := mk {
  gpio_no_ : Z;
  name_ : string;
  direction_ : Direction;
  initial_value_ : bool;
  next_update_time_ : Z;
}.

Definition set_timer (time : Z) (p : t) : t :=
  mk (gpio_no_ p) (name_ p) (direction_ p) (initial_value_ p) time.

Section pin.
Context {S : Type} `{Files S} (cfg : SysFsGpioConfig.t).

Definition path (p : t) : string := value_path cfg (gpio_no_ p).

Definition read_value (p : t) (s : S) : outcome bool := readSysFsValue_bool (path p) s.

(** [turn_on]; [parts] are the frames left of the request, if there is one. *)
Definition turn_on (now : Z) (parts : message) (p : t) (s : S) : outcome (t * S) :=
  p ← (if Z.of_nat (length parts) =? 1 then
         '(duration, _) ← pop_int64 parts;
         time ← add_ms now duration;
         Ret (set_timer time p)
       else Ret p);
  s ← writeSysFsValue (path p) "1" s;
  Ret (p, s).

Definition turn_off (p : t) (s : S) : outcome S := writeSysFsValue (path p) "0" s.

Definition toggle (p : t) (s : S) : outcome S :=
  v ← readSysFsValue_int (path p) s;
  writeSysFsValue (path p) (if v =? 1 then "0" else "1") s.

Definition set_direction (no : Z) (dir : Direction) (s : S) : outcome S :=
  writeSysFsValue (direction_path cfg no) (match dir with In => "in" | Out => "out" end) s.

Definition set_interrupt (no : Z) (mode : InterruptMode) (s : S) : outcome S :=
  writeSysFsValue (edge_path cfg no)
    (match mode with NoInterrupt => "none" | Both => "both" | Falling => "falling" | Rising => "rising" end) s.

(** An output pin is driven to its initial value by the constructor and again by
    the destructor. *)
Definition drive_initial (now : Z) (p : t) (s : S) : outcome S :=
  match direction_ p with
  | In => Ret s
  | Out => if initial_value_ p then '(_, s) ← turn_on now [] p s; Ret s else turn_off p s
  end.

(** The constructor, which keeps the file of the value open. *)
Definition make (now : Z) (name : string) (no : Z) (dir : Direction) (mode : InterruptMode) (initial : bool) (s : S)
  : outcome (t * S) :=
  let p := mk no name dir initial TIME_MAX in
  s ← set_direction no dir s;
  s ← set_interrupt no mode s;
  s ← drive_initial now p s;
  _ ← cassert (bool_decide (is_Some (read_file (path p) s)));
  Ret (p, s).

(** What the destructor leaves of the files: exceptions are caught, twice. *)
Definition swallow (s : S) (r : outcome S) : outcome S := match r with Throw _ => Ret s | r => r end.
Definition destroy (now : Z) (p : t) (s : S) : outcome S :=
  s ← swallow s (drive_initial now p s);
  swallow s (writeSysFsValue (cfg_unexport_path_ cfg) (to_string (gpio_no_ p)) s).

Definition on_off (b : bool) : string := if b then "ON" else "OFF".

(** [handle_message]: the reply, sent first, and then what is put on the bus,
    which has to read the value back. *)
Definition handle_message (now : Z) (m : message) (p : t) (s : S) : outcome (t * S * (message * outcome message)) :=
  '(frame1, rest) ← pop_str m;
  '(ok, p, s) ← (if String.eqb frame1 "ON" then '(p, s) ← turn_on now rest p s; Ret (true, p, s)
                 else if String.eqb frame1 "OFF" then s ← turn_off p s; Ret (true, p, s)
                 else if String.eqb frame1 "TOGGLE" then s ← toggle p s; Ret (true, p, s)
                 else Ret (false, p, s));
  Ret (p, s, ([FStr (if ok : bool then "OK" else "KO")],
              v ← read_value p s; Ret [FStr ("S_" +:+ name_ p); FStr (on_off v)])).

(** The message of [handle_interrupt], once the interrupt is flushed. *)
Definition interrupt_message (p : t) : message := [FStr ("S_INT:" +:+ name_ p)].

Definition update (p : t) (s : S) : outcome (t * S) :=
  s ← turn_off p s; Ret (set_timer TIME_MAX p, s).

End pin.
End SysFsGpioPin.
Import SysFsGpioPin.

(** * SysFsGpioModule *)

(** The module; it stops running when an exception leaves its main loop. *)
Record sysfs_world (S : Type) := mk_sysfs {
  clock : Z; general_cfg_ : SysFsGpioConfig.t; gpios_ : list SysFsGpioPin.t; files : S; bus : list message; running : bool }.
Arguments mk_sysfs {S}. Arguments clock {S}. Arguments general_cfg_ {S}. Arguments gpios_ {S}.
Arguments files {S}. Arguments bus {S}. Arguments running {S}.

Module SysFsGpioModule.
Section module.
Context {S : Type} `{Files S}.

Definition stop (w : sysfs_world S) : sysfs_world S :=
  mk_sysfs (clock w) (general_cfg_ w) (gpios_ w) (files w) (bus w) false.

Definition set_state (ps : list SysFsGpioPin.t) (s : S) (w : sysfs_world S) : sysfs_world S :=
  mk_sysfs (clock w) (general_cfg_ w) ps s (bus w) (running w).

Definition publish_on_bus (m : message) (w : sysfs_world S) : sysfs_world S :=
  mk_sysfs (clock w) (general_cfg_ w) (gpios_ w) (files w) (bus w ++ [m]) (running w).

#[export] Instance sysfs_peers : Peers (sysfs_world S) := {|
  exchange name m w :=
    if negb (running w) then (w, None)
    else match serve_bound name_ (handle_message (general_cfg_ w) (clock w) m) name (gpios_ w) (files w) with
         | Ret None => (w, None)
         | Ret (Some (ps, s, (rep, Ret out))) => (publish_on_bus out (set_state ps s w), Some rep)
         | Ret (Some (ps, s, (rep, _))) => (stop (set_state ps s w), Some rep)
         | _ => (stop w, None)
         end;
|}.

(** The updates of one turn of [run]; [now i] is the clock when pin [i] is looked
    at. *)
Fixpoint update_pins (cfg : SysFsGpioConfig.t) (now : nat -> Z) (i : nat) (ps : list SysFsGpioPin.t) (s : S)
  : outcome (list SysFsGpioPin.t * S) :=
  match ps with
  | [] => Ret ([], s)
  | p :: ps =>
      '(p, s) ← (if next_update_time_ p <? now i then update cfg p s else Ret (p, s));
      '(ps, s) ← update_pins cfg now (i + 1) ps s;
      Ret (p :: ps, s)
  end.

Definition sleep (now : Z) (w : sysfs_world S) : Z := compute_timeout now (map next_update_time_ (gpios_ w)).

Definition update_turn (now : nat -> Z) (w : sysfs_world S) : sysfs_world S :=
  match update_pins (general_cfg_ w) now 0 (gpios_ w) (files w) with
  | Ret (ps, s) => set_state ps s w
  | _ => stop w
  end.

(** ** Configuration *)

Definition gpio_interrupt_from_string (str : string) : InterruptMode :=
  if String.eqb str "none" then NoInterrupt
  else if String.eqb str "both" then Both
  else if String.eqb str "falling" then Falling
  else if String.eqb str "rising" then Rising
  else NoInterrupt.

Definition export_gpio (cfg : SysFsGpioConfig.t) (no : Z) (s : S) : outcome S :=
  writeSysFsValue (cfg_export_path_ cfg) (to_string no) s.

Section config.
Context {T : Type} `{PropertyTree T}.

(** The checker, the pins and the files. *)
Definition loading : Type := ConfigChecker.t * list SysFsGpioPin.t * S.

Definition load_gpio (now : Z) (cfg : SysFsGpioConfig.t) (acc : loading) (node : string * T) : outcome loading :=
  let '(checker, ps, s) := acc in
  let gpio_cfg := node.2 in
  name ← get_child gpio_cfg "name";
  no ← get_child gpio_cfg "no";
  gpio_no ← stoi (chars (data no));
  direction ← get_child gpio_cfg "direction";
  let interrupt := get_default as_string gpio_cfg "interrupt_mode" "none" in
  let initial := get_default as_bool gpio_cfg "value" false in
  s ← export_gpio cfg gpio_no s;
  '(p, s) ← SysFsGpioPin.make cfg now (data name) gpio_no (if String.eqb (data direction) "in" then In else Out)
              (gpio_interrupt_from_string interrupt) initial s;
  checker ← ConfigChecker.register_object (data name) GPIO checker;
  Ret (checker, ps ++ [p], s).

Definition process_config (now : Z) (checker : ConfigChecker.t) (cfg : T) (s : S)
  : outcome (ConfigChecker.t * sysfs_world S) :=
  module_config ← get_child cfg "module_config";
  general ← SysFsGpioConfig.make module_config;
  gpios ← get_child module_config "gpios";
  '(checker, ps, s) ← foldM (load_gpio now general) (checker, [], s) (children gpios);
  Ret (checker, mk_sysfs now general ps s [] true).

End config.

(** The destructor of the module. *)
Definition destroy_all (now : Z) (w : sysfs_world S) : outcome S :=
  foldM (fun s p => destroy (general_cfg_ w) now p s) (files w) (gpios_ w).

End module.
End SysFsGpioModule.
Import SysFsGpioModule.

(** * The module as its peers see it *)

Section peer.
Context {S : Type} `{GpioFiles S}.

(** The file of an output. *)
Definition output_path (cfg : SysFsGpioConfig.t) (p : SysFsGpioPin.t) : option string :=
  match direction_ p with Out => Some (path cfg p) | In => None end.

(** What requests do not change of a pin. *)
Definition wiring (p : SysFsGpioPin.t) : string * Z * Direction := (name_ p, gpio_no_ p, direction_ p).

Lemma output_path_wiring cfg p p' : wiring p' = wiring p -> output_path cfg p' = output_path cfg p.
Proof. intros [= _ Hno Hd]. unfold output_path, path. by rewrite Hno, Hd. Qed.

(** A module that runs, with no two outputs on the same file. *)
Definition wired (w : sysfs_world S) : bool :=
  running w && (0 <=? clock w) && (clock w <? 2 ^ 62) &&
  bool_decide (NoDup (omap (output_path (general_cfg_ w)) (gpios_ w))).

(** The level of the output pin of that name. *)
Definition sysfs_pin (g : string) (w : sysfs_world S) : option bool :=
  if wired w then
    match find_bound name_ g (gpios_ w) with
    | Some p => match direction_ p with Out => line (path (general_cfg_ w) p) (files w) | In => None end
    | None => None
    end
  else None.

Lemma read_int_line cfg p b s : line (path cfg p) s = Some b ->
  readSysFsValue_int (path cfg p) s = Ret (if b then 1 else 0).
Proof. intros Hl. unfold readSysFsValue_int. rewrite (read_line _ _ _ Hl). by destruct b. Qed.

Lemma read_value_line cfg p b s : line (path cfg p) s = Some b -> read_value cfg p s = Ret b.
Proof. intros Hl. unfold read_value, readSysFsValue_bool. rewrite (read_int_line _ _ _ _ Hl). by destruct b. Qed.

Lemma write_value_line cfg p b v s : line (path cfg p) s = Some b ->
  exists s', writeSysFsValue (path cfg p) (if v : bool then "1" else "0") s = Ret s' /\ line (path cfg p) s' = Some v /\
    forall q, q <> path cfg p -> line q s' = line q s.
Proof.
  intros Hl. destruct (write_line _ _ v _ Hl) as (s' & Hw & Hv & Hq). exists s'. unfold writeSysFsValue. by rewrite Hw.
Qed.

(** Two outputs of a wired module are on different files. *)
Lemma same_path cfg ps p q : NoDup (omap (output_path cfg) ps) -> List.In p ps -> List.In q ps ->
  direction_ p = Out -> direction_ q = Out -> path cfg q = path cfg p -> q = p.
Proof.
  intros Hnd Hp Hq Hdp Hdq E. apply (omap_NoDup_inj (output_path cfg) ps q p (path cfg p)); try done;
    unfold output_path; by rewrite ?Hdp, ?Hdq, ?E.
Qed.

(** What a request that writes [v] to an output does: [f] is its effect on the
    pin. *)
Definition writes (w : sysfs_world S) (m : message) (b v : bool) (f : SysFsGpioPin.t -> SysFsGpioPin.t) : Prop :=
  forall p, wiring (f p) = wiring p /\
  (direction_ p = Out -> line (path (general_cfg_ w) p) (files w) = Some b ->
   handle_message (general_cfg_ w) (clock w) m p (files w) =
     (s ← writeSysFsValue (path (general_cfg_ w) p) (if v then "1" else "0") (files w);
      Ret (f p, s, ([FStr "OK"], x ← read_value (general_cfg_ w) (f p) s; Ret [FStr ("S_" +:+ name_ (f p)); FStr (on_off x)])))).

Lemma exchange_at g w b v f m : sysfs_pin g w = Some b -> writes w m b v f ->
  exists l1 p l2 s' out,
    gpios_ w = l1 ++ p :: l2 /\ name_ p = g /\ direction_ p = Out /\ Forall (fun q => name_ q <> g) l1 /\
    exchange g m w = (publish_on_bus out (set_state (l1 ++ f p :: l2) s' w), Some [FStr "OK"]) /\
    line (path (general_cfg_ w) p) s' = Some v /\
    forall q, q <> path (general_cfg_ w) p -> line q s' = line q (files w).
Proof.
  intros Hpin Hm. unfold sysfs_pin in Hpin. destruct (wired w) eqn:Hw; [|done].
  destruct (find_bound name_ g (gpios_ w)) as [p|] eqn:Hf; [|done]. destruct (direction_ p) eqn:Hd; [done|].
  destruct (Hm p) as [Hwp Hh]. specialize (Hh Hd Hpin).
  destruct (find_bound_split _ _ _ _ Hf) as (l1 & l2 & Hps & <- & Hl).
  destruct (write_value_line (general_cfg_ w) p b v (files w) Hpin) as (s' & Hwr & Hlv & Hlq).
  unfold wired in Hw. bool_hyps. pose proof Hwp as [= _ Hno _].
  exists l1, p, l2, s'. cbn [exchange sysfs_peers]. match goal with E : running w = true |- _ => rewrite E end. cbn [negb].
  rewrite Hps, (serve_bound_split _ _ _ _ _ _ Hl), Hh, Hwr. cbn [mbind outcome_bind].
  rewrite (read_value_line _ _ v) by (unfold path; by rewrite Hno). cbn [mbind outcome_bind]. by eexists.
Qed.

Lemma exchange_writes g w b v f m : sysfs_pin g w = Some b -> writes w m b v f ->
  exists w', exchange g m w = (w', Some [FStr "OK"]) /\ sysfs_pin g w' = Some v /\
    forall h, h <> g -> sysfs_pin h w' = sysfs_pin h w.
Proof.
  intros Hpin Hm. destruct (exchange_at _ _ _ _ _ _ Hpin Hm) as (l1 & p & l2 & s' & out & Hps & <- & Hd & Hl & He & Hlv & Hlq).
  destruct (Hm p) as [Hwp _]. pose proof Hwp as [= Hn Hno Hdir]. eexists. split; [exact He|].
  unfold sysfs_pin in Hpin. destruct (wired w) eqn:Hw; [|done]. clear Hpin. set (w' := publish_on_bus _ _).
  assert (Hww : wired w' = true).
  { unfold wired in *. cbn [w' publish_on_bus set_state running clock gpios_ general_cfg_] in *.
    rewrite Hps, omap_app in Hw. rewrite omap_app. cbn [omap list_omap] in *.
    by rewrite (output_path_wiring _ p (f p)) by done. }
  unfold sysfs_pin. rewrite Hww, Hw. cbn [w' publish_on_bus set_state gpios_ general_cfg_ files]. split.
  - rewrite find_bound_app by done. rewrite Hdir, Hd. unfold path. by rewrite Hno.
  - intros h Hne. rewrite Hps, (find_bound_ne _ h l1 p (f p) l2) by congruence.
    destruct (find_bound name_ h (l1 ++ p :: l2)) as [q|] eqn:Eq; [|done]. destruct (direction_ q) eqn:Hdq; [done|].
    unfold wired in Hw. bool_hyps. apply find_some in Eq as [Hin Hnq%String.eqb_eq]. apply Hlq. intros E.
    apply Hne. rewrite <- Hnq. f_equal.
    apply (same_path (general_cfg_ w) (gpios_ w)); try done; rewrite Hps; [by apply in_elt|done].
Qed.

Lemma on_writes w b : writes w [FStr "ON"] b true (fun p => p).
Proof.
  intros p. split; [done|]. intros Hd Hl. unfold handle_message, turn_on. cbn. change (Z.of_nat 0 =? 1) with false. cbn.
  by destruct (writeSysFsValue _ _ _).
Qed.

Lemma on_for_writes w b d : 0 <= clock w < 2 ^ 62 -> 0 <= d < 2 ^ 31 ->
  writes w [FStr "ON"; FInt64 d] b true (set_timer (clock w + ms d)).
Proof.
  intros Hc Hd p. split; [done|]. intros Hdir Hl. unfold handle_message, turn_on. cbn -[add_ms ms].
  change (Z.of_nat 1 =? 1) with true. cbn -[add_ms ms]. rewrite add_ms_Ret by done.
  cbn -[ms]. by destruct (writeSysFsValue _ _ _).
Qed.

Lemma sysfs_pin_clock g w b : sysfs_pin g w = Some b -> 0 <= clock w < 2 ^ 62.
Proof. unfold sysfs_pin, wired. destruct (_ && _ && _ && _) eqn:Hw; [|done]. intros _. by bool_hyps. Qed.

(** The pins keep the promises of [GpioCommands]. *)
#[export] Instance sysfs_gpio : GpioCommands (sysfs_world S).
Proof.
  refine {| pin := sysfs_pin |}.
  - intros g w b Hp. by eapply exchange_writes, on_writes.
  - intros g w b d Hp Hr. eapply exchange_writes, on_for_writes; try done; by eapply sysfs_pin_clock.
  - intros g w b Hp. apply (exchange_writes g w b false (fun p => p) _ Hp). intros p. split; [done|]. intros Hd Hl.
    unfold handle_message, turn_off. cbn. by destruct (writeSysFsValue _ _ _).
  - intros g w b Hp. apply (exchange_writes g w b (negb b) (fun p => p) _ Hp). intros p. split; [done|]. intros Hd Hl.
    unfold handle_message, toggle. cbn. rewrite (read_int_line _ _ _ _ Hl). cbn [mbind outcome_bind].
    destruct b; cbn; by destruct (writeSysFsValue _ _ _).
Defined.

(** ** Properties *)

(** (refinement) The pins of the sysfs module obey the facades: a command sets
    the level of its own line as its name says, leaves every other line alone, and
    succeeds. *)
Theorem sysfs_refines_gpio now c g (w : sysfs_world S) b :
  spec_duration c -> sysfs_pin (FGPIO.gpio_name_ g) w = Some b ->
  exists w' g', facade_run now c g w = (w', Ret (true, g')) /\ FGPIO.gpio_name_ g' = FGPIO.gpio_name_ g /\
    sysfs_pin (FGPIO.gpio_name_ g) w' = Some (spec_run c b) /\
    forall h, h <> FGPIO.gpio_name_ g -> sysfs_pin h w' = sysfs_pin h w.
Proof. intros Hd Hp. exact (fgpio_runs now c g w b Hd Hp). Qed.

Lemma state_refused g w b : sysfs_pin g w = Some b ->
  exists w', exchange g [FStr "STATE"] w = (w', Some [FStr "KO"]).
Proof.
  intros Hpin. unfold sysfs_pin in Hpin. destruct (wired w) eqn:Hw; [|done].
  destruct (find_bound name_ g (gpios_ w)) as [p|] eqn:Hf; [|done]. destruct (direction_ p) eqn:Hd; [done|].
  destruct (find_bound_split _ _ _ _ Hf) as (l1 & l2 & Hps & <- & Hl).
  unfold wired in Hw. bool_hyps. cbn [exchange sysfs_peers]. match goal with E : running w = true |- _ => rewrite E end.
  rewrite Hps, (serve_bound_split _ _ _ _ _ _ Hl). cbn. rewrite (read_value_line _ _ b) by done. by eexists.
Qed.

(** (error) The sysfs module does not know the request the facades ask the
    state of a GPIO with: whoever asks aborts. So does the doorman module, at the
    first update at which a schedule of a door with such a GPIO is active. *)
Theorem sysfs_state_aborts now stamp t g (w : sysfs_world S) b :
  AuthTarget.gpio_ (auth t) = Some g -> sysfs_pin g w = Some b ->
  snd (FGPIO.isOn (FGPIO.make g) w) = Fault AssertFailed /\
  (AuthTarget.is_always_open now (auth t) <> AuthTarget.is_always_closed now (auth t) ->
   snd (resetToExpectedState now stamp t w) = Fault AssertFailed).
Proof.
  intros Hg Hp. destruct (state_refused _ _ _ Hp) as (w' & He).
  assert (Hon : forall u, FGPIO.isOn (FGPIO.mk g u) w = (w', Fault AssertFailed)).
  { intros u. unfold FGPIO.isOn, mbind, io_bind, ask_within. cbn [FGPIO.gpio_name_]. by rewrite He. }
  split; [unfold FGPIO.make; by rewrite Hon|]. intros Hne. unfold resetToExpectedState.
  assert (Hask : ask_gpio FGPIO.isOn t w = (w', Fault AssertFailed)).
  { rewrite (ask_gpio_eq g) by done. apply Hon. }
  assert (Hask' : ask_gpio FGPIO.isOff t w = (w', Fault AssertFailed)).
  { rewrite (ask_gpio_eq g) by done. unfold FGPIO.isOff, mbind, io_bind. by rewrite Hon. }
  destruct (AuthTarget.is_always_open _ _), (AuthTarget.is_always_closed _ _); try done; cbn [andb];
    unfold mret, io_ret, mbind, io_bind; by rewrite ?Hask, ?Hask'.
Qed.

(** *** Timers *)

(** Only outputs that exist have a timer running. *)
Definition settled (cfg : SysFsGpioConfig.t) (s : S) (p : SysFsGpioPin.t) : Prop :=
  match direction_ p with Out => is_Some (line (path cfg p) s) | In => next_update_time_ p = TIME_MAX end.

Definition due (t : Z) (p : SysFsGpioPin.t) : bool := next_update_time_ p <? t.
Definition after (t : Z) (p : SysFsGpioPin.t) : SysFsGpioPin.t := if due t p then set_timer TIME_MAX p else p.

Lemma wiring_after t p : wiring (after t p) = wiring p.
Proof. unfold after. by destruct (due t p). Qed.

Lemma update_pins_runs cfg t i ps s : t <= TIME_MAX -> Forall (settled cfg s) ps ->
  exists s', update_pins cfg (fun _ => t) i ps s = Ret (map (after t) ps, s') /\
    forall q, line q s' = if existsb (fun p => due t p && String.eqb (path cfg p) q) ps then Some false else line q s.
Proof.
  intros Ht. revert i s. induction ps as [|p ps IH]; intros i s Hall; [by exists s|].
  inversion_clear Hall as [|? ? Hp Hps]. cbn [update_pins map existsb]. unfold after at 1. fold (due t p).
  destruct (due t p) eqn:Hdue; cbn [mbind outcome_bind andb orb].
  - assert (Hd : direction_ p = Out).
    { unfold settled in Hp. unfold due in Hdue. apply Z.ltb_lt in Hdue. destruct (direction_ p); [lia|done]. }
    unfold settled in Hp. rewrite Hd in Hp. destruct Hp as [b Hb].
    destruct (write_value_line cfg p b false s Hb) as (s1 & Hw & Hl1 & Hq1).
    unfold update, turn_off. rewrite Hw. cbn [mbind outcome_bind].
    assert (Hsome : forall q, is_Some (line q s) -> is_Some (line q s1)).
    { intros q Hq. destruct (String.eqb_spec q (path cfg p)) as [->|Hne]; [by eexists|by rewrite Hq1]. }
    destruct (IH (i + 1)%nat s1) as (s' & Hr & Hl).
    { eapply Forall_impl; [exact Hps|]. intros q. unfold settled. destruct (direction_ q); [done|apply Hsome]. }
    exists s'. rewrite Hr. split; [done|]. intros q. rewrite Hl. destruct (existsb _ ps) eqn:Ee; [by rewrite orb_true_r|].
    rewrite orb_false_r. destruct (String.eqb_spec (path cfg p) q) as [<-|Hne]; [done|]. apply Hq1. congruence.
  - destruct (IH (i + 1)%nat s Hps) as (s' & Hr & Hl). exists s'. by rewrite Hr.
Qed.

Definition turn (w : sysfs_world S) (t : Z) : sysfs_world S := update_turn (fun _ => t) w.

(** A wired module whose pins are settled, and an output with its level and
    timer. *)
Definition holds (g : string) (b : bool) (time : Z) (w : sysfs_world S) : Prop :=
  Forall (settled (general_cfg_ w) (files w)) (gpios_ w) /\ sysfs_pin g w = Some b /\
  next_update_time_ <$> find_bound name_ g (gpios_ w) = Some time.

Lemma find_bound_after g t ps :
  find_bound name_ g (map (after t) ps) = after t <$> find_bound name_ g ps.
Proof.
  induction ps as [|p ps IH]; [done|]. cbn. pose proof (wiring_after t p) as [= Hn _ _]. rewrite Hn.
  destruct (String.eqb _ _); [done|exact IH].
Qed.

Lemma omap_after cfg t ps : omap (output_path cfg) (map (after t) ps) = omap (output_path cfg) ps.
Proof.
  induction ps as [|q l IH]; [done|]. cbn. rewrite (output_path_wiring cfg q) by apply wiring_after. by rewrite IH.
Qed.

Lemma turn_holds g b time w t : t <= TIME_MAX -> holds g b time w ->
  holds g (if time <? t then false else b) (if time <? t then TIME_MAX else time) (turn w t).
Proof.
  intros Ht (Hset & Hpin & Htime). destruct (update_pins_runs (general_cfg_ w) t 0 (gpios_ w) (files w) Ht Hset) as (s' & Hr & Hl).
  unfold turn, update_turn. rewrite Hr. unfold holds, sysfs_pin in *. destruct (wired w) eqn:Hw; [|done].
  assert (wired (set_state (map (after t) (gpios_ w)) s' w) = true) as ->
    by (unfold wired in *; cbn [set_state running clock gpios_ general_cfg_]; by rewrite omap_after).
  cbn [set_state gpios_ general_cfg_ files]. rewrite find_bound_after.
  destruct (find_bound name_ g (gpios_ w)) as [p|] eqn:Hf; [|done]. cbn [fmap option_fmap option_map] in *.
  injection Htime as Htime. pose proof (wiring_after t p) as [= Hn Hno Hdir]. rewrite Hdir.
  destruct (direction_ p) eqn:Hd; [done|].
  assert (Hpath : path (general_cfg_ w) (after t p) = path (general_cfg_ w) p) by (unfold path; by rewrite Hno). rewrite Hpath.
  split; [|split].
  - apply Forall_map. eapply Forall_impl; [exact Hset|]. intros q Hq. unfold settled in *.
    pose proof (wiring_after t q) as [= _ Hno' Hdir']. rewrite Hdir'. unfold path. rewrite Hno'. fold (path (general_cfg_ w) q).
    destruct (direction_ q); [unfold after; by destruct (due t q)|].
    rewrite Hl. destruct (existsb _ _); [by eexists|done].
  - pose proof Hf as [Hin _]%find_some. rewrite Hl. destruct (existsb _ _) eqn:Ee.
    + apply existsb_exists in Ee as (q & Hq & Hb). bool_hyps.
      assert (Hdq : direction_ q = Out).
      { rewrite List.Forall_forall in Hset. specialize (Hset q Hq). unfold settled in Hset. unfold due in *.
        destruct (direction_ q); [lia|done]. }
      assert (q = p) as -> by (unfold wired in Hw; bool_hyps; by apply (same_path (general_cfg_ w) (gpios_ w))).
      unfold due in *. by rewrite Htime, (proj2 (Z.ltb_lt _ _)) in * by lia.
    + destruct (time <? t) eqn:Et; [|done]. exfalso. rewrite <- not_true_iff_false in Ee. apply Ee.
      apply existsb_exists. exists p. split; [done|]. unfold due. by rewrite Htime, Et, String.eqb_refl.
  - unfold after, due. rewrite Htime. destruct (time <? t); [done|]. cbn. by rewrite Htime.
Qed.

Definition turns (times : list Z) (w : sysfs_world S) : sysfs_world S := foldl turn w times.

Lemma turns_wait g b time times w : Forall (fun t => t <= time) times -> time <= TIME_MAX -> holds g b time w ->
  holds g b time (turns times w).
Proof.
  unfold turns. intros Hall Htime. revert w. induction Hall as [|t l Ht _ IH]; intros w Hw; [done|]. cbn [foldl].
  apply IH. pose proof (turn_holds g b time w t ltac:(lia) Hw) as H1. by rewrite (proj2 (Z.ltb_ge _ _)) in H1 by lia.
Qed.

(** (liveness) An output turned on for a while ends turned off, whatever the
    other pins do. In a module whose pins are settled, the output's timer is the
    time of the request plus its duration: as long as the turns of the main loop
    come before, the line stays on; after the first that comes later it is off,
    and the later turns leave it off. *)
Theorem sysfs_timed_on_ends g d b w w1 rep before t later :
  Forall (settled (general_cfg_ w) (files w)) (gpios_ w) -> sysfs_pin g w = Some b -> 0 <= d < 2 ^ 31 ->
  exchange g [FStr "ON"; FInt64 d] w = (w1, Some rep) ->
  Forall (fun u => u <= clock w + ms d) before -> clock w + ms d < t <= TIME_MAX -> Forall (fun u => u <= TIME_MAX) later ->
  sysfs_pin g (turns before w1) = Some true /\ sysfs_pin g (turns (before ++ t :: later) w1) = Some false.
Proof.
  intros Hset Hpin Hd He Hbefore Ht Hlater.
  assert (Hw1 : holds g true (clock w + ms d) w1).
  { pose proof (sysfs_pin_clock _ _ _ Hpin) as Hc. pose proof (on_for_writes w b d Hc Hd) as Hwr.
    destruct (exchange_writes _ _ _ _ _ _ Hpin Hwr) as (w' & He' & Hp' & _). rewrite He in He'. injection He' as <- _.
    destruct (exchange_at _ _ _ _ _ _ Hpin Hwr) as (l1 & p & l2 & s' & out & Hps & <- & Hdir & Hl & He' & Hlv & Hlq).
    rewrite He in He'. injection He' as -> _. split; [|split; [exact Hp'|]]; cbn [publish_on_bus set_state gpios_ files general_cfg_].
    - rewrite Hps in Hset. apply Forall_app in Hset as [H1 [H2 H3]%Forall_cons].
      assert (Hkeep : forall q, settled (general_cfg_ w) (files w) q -> settled (general_cfg_ w) s' q).
      { intros q. unfold settled. destruct (direction_ q); [done|]. intros Hq.
        destruct (String.eqb_spec (path (general_cfg_ w) q) (path (general_cfg_ w) p)) as [->|Hne]; [by eexists|by rewrite Hlq]. }
      apply Forall_app. split; [exact (Forall_impl _ _ _ H1 Hkeep)|]. constructor; [|exact (Forall_impl _ _ _ H3 Hkeep)].
      unfold settled. cbn. rewrite Hdir. by exists true.
    - by rewrite find_bound_app. }
  assert (Hb : holds g true (clock w + ms d) (turns before w1)) by (apply turns_wait; [done|lia|done]).
  split; [apply Hb|]. pose proof (turn_holds _ _ _ _ t ltac:(lia) Hb) as Hoff. rewrite (proj2 (Z.ltb_lt _ _)) in Hoff by lia.
  assert (Hend : holds g false TIME_MAX (turns (before ++ t :: later) w1)).
  { unfold turns. rewrite foldl_app. cbn [foldl]. by apply turns_wait. }
  apply Hend.
Qed.

End peer.

(** ** Configuration *)

Section configured.
Context {S : Type} `{Files S} {T : Type} `{PropertyTree T}.

(** What is true of the pins read so far. *)
Definition registered (checker0 : ConfigChecker.t) (acc : ConfigChecker.t * list SysFsGpioPin.t * S) : Prop :=
  let '(checker, ps, _) := acc in
  NoDup (map name_ ps) /\
  (forall n, is_Some (checker !! n) -> is_Some (checker0 !! n) \/ List.In n (map name_ ps)) /\
  Forall (fun p => checker !! name_ p = Some GPIO /\ checker0 !! name_ p = None /\ next_update_time_ p = TIME_MAX) ps /\
  checker0 ⊆ checker.

Lemma load_gpio_registered now cfg checker0 acc (node : string * T) acc' : registered checker0 acc ->
  load_gpio now cfg acc node = Ret acc' -> registered checker0 acc'.
Proof.
  destruct acc as [[checker ps] s]. intros (Hnd & Hdom & Hall & Hsub) E. unfold load_gpio in E.
  apply bind_Ret in E as (name & _ & E). apply bind_Ret in E as (no & _ & E). apply bind_Ret in E as (gpio_no & _ & E).
  apply bind_Ret in E as (direction & _ & E). cbn zeta in E. apply bind_Ret in E as (s1 & _ & E).
  apply bind_Ret in E as ([p s2] & Hp & E). apply bind_Ret in E as (checker' & Hr & E). injection E as <-.
  assert (Hpn : name_ p = data name /\ next_update_time_ p = TIME_MAX).
  { unfold make in Hp. apply bind_Ret in Hp as (? & _ & Hp). apply bind_Ret in Hp as (? & _ & Hp).
    apply bind_Ret in Hp as (? & _ & Hp). apply bind_Ret in Hp as (? & _ & Hp). by injection Hp as <- _. }
  destruct Hpn as [Hn Ht]. unfold ConfigChecker.register_object in Hr.
  apply bind_Ret in Hr as (u & Hc%cassert_Ret & Hr). injection Hr as <-. apply bool_decide_eq_true in Hc.
  unfold registered. rewrite map_app. cbn [map]. rewrite Hn. split; [|split; [|split]].
  - apply NoDup_app. split; [done|]. split; [|by repeat constructor; apply not_elem_of_nil].
    intros n Hin. rewrite list_elem_of_singleton. intros ->. apply list_elem_of_In, in_map_iff in Hin as (q & Hq & Hin).
    rewrite List.Forall_forall in Hall. destruct (Hall q Hin) as [Hl _]. rewrite Hq in Hl. congruence.
  - intros n Hsome. destruct (decide (n = data name)) as [->|Hne]; [right; apply in_app_iff; right; by left|].
    rewrite lookup_insert_ne in Hsome by done. destruct (Hdom n Hsome) as [|Hin]; [by left|right; apply in_app_iff; by left].
  - apply Forall_app. split.
    + eapply Forall_impl; [exact Hall|]. intros q (H1 & H2 & H3). split; [|done].
      rewrite lookup_insert_ne; [done|]. intros E. rewrite E in Hc. congruence.
    + repeat constructor; rewrite ?Hn; [apply lookup_insert_eq| |done].
      destruct (checker0 !! data name) as [c|] eqn:E; [|done]. pose proof (lookup_weaken _ _ _ _ E Hsub). congruence.
  - etrans; [exact Hsub|by apply insert_subseteq].
Qed.

(** (type) The pins of a module read from a configuration have names of their
    own, none of them taken before, each registered as a GPIO; no timer runs. *)
Theorem sysfs_configured now checker (cfg : T) (s : S) checker' w :
  process_config now checker cfg s = Ret (checker', w) ->
  running w = true /\ NoDup (map name_ (gpios_ w)) /\ checker ⊆ checker' /\
  Forall (fun p => checker' !! name_ p = Some GPIO /\ checker !! name_ p = None /\ next_update_time_ p = TIME_MAX) (gpios_ w).
Proof.
  intros E. unfold process_config in E. apply bind_Ret in E as (mc & _ & E). apply bind_Ret in E as (general & _ & E).
  apply bind_Ret in E as (gpios & _ & E). apply bind_Ret in E as ([[checker1 ps] s1] & Hf & E). injection E as <- <-.
  assert (Hreg : registered checker (checker1, ps, s1)).
  { eapply (foldM_preserves (load_gpio now general) (registered checker)); [| |exact Hf].
    - intros acc n acc' Ha Hl. exact (load_gpio_registered _ _ _ _ _ _ Ha Hl).
    - split; [constructor|]. split; [by left|]. by split. }
  destruct Hreg as (H1 & _ & H3 & H4). done.
Qed.

End configured.

(** ** Files for the examples *)

(** Any file can be written; a line ends with a newline. *)
Definition tree_of_files : Type := gmap string string.

Definition newline : string := String "010" "".

#[export] Instance text_files : Files tree_of_files := {|
  write_file path t (s : gmap string string) := Some (<[path := t +:+ newline]> s);
  read_file path (s : gmap string string) := s !! path;
|}.

Definition level_of (t : string) : option bool :=
  if String.eqb t ("1" +:+ newline) then Some true else if String.eqb t ("0" +:+ newline) then Some false else None.

#[export] Instance text_lines : GpioFiles tree_of_files.
Proof.
  refine {| line path (s : gmap string string) := (s !! path) ≫= level_of |}.
  - intros path b v s _. eexists. split; [reflexivity|]. split.
    + rewrite lookup_insert_eq. by destruct v.
    + intros q Hq. by rewrite lookup_insert_ne.
  - intros path b s. cbn. destruct (s !! path) as [t|]; [|done]. cbn. unfold level_of.
    destruct (String.eqb_spec t ("1" +:+ newline)) as [->|_]; [by intros [= <-]|].
    destruct (String.eqb_spec t ("0" +:+ newline)) as [->|_]; [by intros [= <-]|done].
Defined.

Definition demo_paths : SysFsGpioConfig.t :=
  SysFsGpioConfig.mk "export" "unexport" "gpio/__PLACEHOLDER__/value" "gpio/__PLACEHOLDER__/edge"
    "gpio/__PLACEHOLDER__/direction" "gpio__NO__" {[ 7 := "lock7" ]}.
Definition demo_files : tree_of_files :=
  {[ "gpio/lock7/value" := "0" +:+ newline; "gpio/gpio12/value" := "1" +:+ newline ]}.
Definition demo_sysfs : sysfs_world tree_of_files :=
  mk_sysfs 1000 demo_paths [mk 12 "led" Out false TIME_MAX; mk 7 "lock" Out false TIME_MAX; mk 3 "button" In false TIME_MAX]
    demo_files [] true.

Example demo_paths_used : value_path demo_paths 7 = "gpio/lock7/value" /\ value_path demo_paths 12 = "gpio/gpio12/value".
Proof. by vm_compute. Qed.

Lemma sysfs_refines_witness :
  exists w' g', FGPIO.toggle 1000 (FGPIO.make "led") demo_sysfs = (w', Ret (true, g')) /\
    sysfs_pin "led" w' = Some false /\ sysfs_pin "lock" w' = Some false.
Proof.
  destruct (sysfs_refines_gpio 1000 CmdToggle (FGPIO.make "led") demo_sysfs true) as (w' & g' & Hr & _ & Hp & Hh).
  - exact I.
  - vm_compute. reflexivity.
  - exists w', g'. split; [exact Hr|]. split; [exact Hp|]. rewrite Hh; [vm_compute; reflexivity|discriminate].
Defined.

(** A door on the "lock", open on Mondays during [demo_schedule]. *)
Definition demo_door : target :=
  mk_target (AuthTarget.mk "front" [demo_schedule] [] (Some "lock") None 0 None 15000 None) 0.

Lemma sysfs_state_witness :
  snd (resetToExpectedState (mk_tm 1 9 0) 0 demo_door demo_sysfs) = Fault AssertFailed.
Proof.
  destruct (sysfs_state_aborts (mk_tm 1 9 0) 0 demo_door "lock" demo_sysfs false) as [_ H].
  - reflexivity.
  - vm_compute. reflexivity.
  - apply H. vm_compute. discriminate.
Defined.

Lemma sysfs_timed_on_witness :
  exists w1, exchange "lock" [FStr "ON"; FInt64 500] demo_sysfs = (w1, Some [FStr "OK"]) /\
    sysfs_pin "lock" (turns [2000; 500001000] w1) = Some true /\
    sysfs_pin "lock" (turns ([2000; 500001000] ++ 500001001 :: [600000000]) w1) = Some false.
Proof.
  eexists. split; [vm_compute; reflexivity|].
  eapply (sysfs_timed_on_ends "lock" 500 false demo_sysfs).
  - repeat constructor; vm_compute; eauto.
  - vm_compute. reflexivity.
  - lia.
  - vm_compute. reflexivity.
  - repeat constructor; unfold ms; cbn; lia.
  - unfold ms, TIME_MAX. cbn. lia.
  - repeat constructor; unfold TIME_MAX; lia.
Defined.

Definition demo_sysfs_config : xml :=
  Node "" [("module_config", Node "" [
    ("export_path", leaf "export"); ("unexport_path", leaf "unexport");
    ("value_path", leaf "gpio/__PLACEHOLDER__/value"); ("edge_path", leaf "gpio/__PLACEHOLDER__/edge");
    ("direction_path", leaf "gpio/__PLACEHOLDER__/direction");
    ("aliases", Node "" [("default", leaf "gpio__NO__"); ("7", leaf "lock7")]);
    ("gpios", Node "" [
      ("gpio", Node "" [("name", leaf "led"); ("no", leaf "12"); ("direction", leaf "out"); ("value", leaf "true")]);
      ("gpio", Node "" [("name", leaf "button"); ("no", leaf "12"); ("direction", leaf "in"); ("interrupt_mode", leaf "rising")])])])].

Lemma sysfs_configured_witness : exists checker w,
  process_config 0 (∅ : ConfigChecker.t) demo_sysfs_config (∅ : tree_of_files) = Ret (checker, w) /\
  NoDup (map name_ (gpios_ w)) /\ map name_ (gpios_ w) = ["led"; "button"].
Proof.
  do 2 eexists. split; [vm_compute; reflexivity|]. split; [|reflexivity].
  eapply (sysfs_configured (S := tree_of_files) 0 (∅ : ConfigChecker.t) demo_sysfs_config ∅). vm_compute. reflexivity.
Defined.
