(* ===== verification/Libgpiod.v ===== *)
(** GPIOs that are lines of libgpiod, [src/modules/libgpiod/]
    ([LibgpiodConfig.cpp], [LibgpiodPin.cpp], [LibgpiodModule.cpp]).

    libgpiod is not part of the repository: [Gpiod] is what the code calls of it,
    [GpiodLaws] what it documents - what a line is requested for, that a line is
    requested once, and that setting a value returns 0. The code expects 1, and
    requests lines twice. *)
From Stdlib Require Import ZArith Lia Ascii String.
From stdpp Require Import base tactics numbers list strings gmap.
From S2P Require Import Prelude Timers Facades Ptree Wiegand.

Open Scope Z_scope.

(** * libgpiod *)

(** A line: the chip it is looked up on, and its offset. *)
Abbreviation key := (string * Z)%type.

Inductive edges := BothEdges | FallingEdges | RisingEdges.

(** Every function that can fail returns a negative number when it does. *)
Class Gpiod (L : Type) := {
  chip_open_lookup : string -> L -> bool;
  chip_get_line : key -> L -> bool;
  request_input : key -> string -> L -> L * Z;
  request_output : key -> string -> Z -> L -> L * Z;
  request_edges : edges -> key -> string -> L -> L * Z;
  line_set_value : key -> Z -> L -> L * Z;
  line_get_value : key -> L -> Z;
  event_get_fd : key -> L -> Z;
}.

(** What a line is requested for. *)
Inductive use := Free | AsInput | AsOutput (level : bool) | AsEvents.

Class GpiodLaws (L : Type) `{Gpiod L} := {
  line_use : key -> L -> use;
  input_free k c l : line_use k l = Free -> exists l', request_input k c l = (l', 0) /\ line_use k l' = AsInput;
  output_free k c v l : line_use k l = Free ->
    exists l', request_output k c v l = (l', 0) /\ line_use k l' = AsOutput (negb (v =? 0));
  edges_busy e k c l : line_use k l <> Free -> request_edges e k c l = (l, -1);
  set_value_output k v b l : line_use k l = AsOutput b ->
    exists l', line_set_value k v l = (l', 0) /\ line_use k l' = AsOutput (negb (v =? 0)) /\
      forall k', k' <> k -> line_use k' l' = line_use k' l;
  get_value_output k b l : line_use k l = AsOutput b -> line_get_value k l = if b then 1 else 0;
  get_fd_events k l : line_use k l <> AsEvents -> event_get_fd k l = -1;
}.

(** * LibgpiodPin *)

Module LibgpiodPin.

Inductive Direction := In | Out.
Inductive InterruptMode := NoInterrupt | Rising | Falling | Both.

(** The constructor's arguments, and the timer. *)
Record t := mk {
  name_ : string;
  gpio_device_ : string;
  gpio_offset_ : Z;
  direction_ : Direction;
  initial_value_ : bool;
  next_update_time_ : Z;
}.

Definition set_timer (time : Z) (p : t) : t :=
  mk (name_ p) (gpio_device_ p) (gpio_offset_ p) (direction_ p) (initial_value_ p) time.

Definition gpiod_line (p : t) : key := (gpio_device_ p, gpio_offset_ p).

Section pin.
Context {L : Type} `{Gpiod L}.

(** [set_direction]: what the library returns is not looked at. *)
Definition set_direction (consumer : string) (dir : Direction) (p : t) (l : L) : L :=
  match dir with
  | In => (request_input (gpiod_line p) consumer l).1
  | Out => (request_output (gpiod_line p) consumer (if initial_value_ p then 1 else 0) l).1
  end.

Definition set_interrupt (consumer : string) (mode : InterruptMode) (p : t) (l : L) : outcome L :=
  let '(l, ret) :=
    match mode with
    | NoInterrupt => (l, 0)
    | Both => request_edges BothEdges (gpiod_line p) consumer l
    | Falling => request_edges FallingEdges (gpiod_line p) consumer l
    | Rising => request_edges RisingEdges (gpiod_line p) consumer l
    end in
  _ ← cassert (0 <=? ret); Ret l.

Definition make (consumer name device : string) (offset : Z) (dir : Direction) (mode : InterruptMode) (initial : bool)
    (l : L) : outcome (t * L) :=
  let p := mk name device offset dir initial TIME_MAX in
  _ ← cassert (chip_open_lookup device l);
  _ ← cassert (chip_get_line (gpiod_line p) l);
  let l := set_direction consumer dir p l in
  l ← set_interrupt consumer mode p l;
  Ret (p, l).

(** [register_sockets]: the descriptor of an input's events is polled. *)
Definition register_sockets (p : t) (l : L) : outcome unit :=
  match direction_ p with
  | In => cassert (0 <=? event_get_fd (gpiod_line p) l)
  | Out => Ret tt
  end.

Definition read_value (p : t) (l : L) : outcome bool :=
  let ret := line_get_value (gpiod_line p) l in
  _ ← cassert (0 <=? ret); Ret (ret =? 1).

(** [turn_on]; [parts] are the frames left of the request. *)
Definition turn_on (now : Z) (parts : message) (p : t) (l : L) : outcome (bool * t * L) :=
  p ← (if Z.of_nat (length parts) =? 1 then
         '(duration, _) ← pop_int64 parts;
         time ← add_ms now duration;
         Ret (set_timer time p)
       else Ret p);
  let '(l, ret) := line_set_value (gpiod_line p) 1 l in
  Ret (ret =? 1, p, l).

Definition turn_off (p : t) (l : L) : bool * L :=
  let '(l, ret) := line_set_value (gpiod_line p) 0 l in (ret =? 1, l).

Definition toggle (p : t) (l : L) : outcome (bool * L) :=
  v ← read_value p l;
  let '(l, ret) := line_set_value (gpiod_line p) (if (v : bool) then 1 else 0) l in
  _ ← cassert (0 <=? ret); Ret (ret =? 1, l).

Definition on_off (b : bool) : string := if b then "ON" else "OFF".

(** [handle_message]: the reply, and what is then put on the bus. *)
Definition handle_message (now : Z) (m : message) (p : t) (l : L) : outcome (t * L * (message * outcome message)) :=
  '(frame1, rest) ← pop_str m;
  '(ok, p, l) ← (if String.eqb frame1 "ON" then turn_on now rest p l
                 else if String.eqb frame1 "OFF" then let '(ok, l) := turn_off p l in Ret (ok, p, l)
                 else if String.eqb frame1 "TOGGLE" then '(ok, l) ← toggle p l; Ret (ok, p, l)
                 else Ret (false, p, l));
  Ret (p, l, ([FStr (if ok : bool then "OK" else "KO")],
              v ← read_value p l; Ret [FStr ("S_" +:+ name_ p); FStr (on_off v)])).

Definition interrupt_message (p : t) : message := [FStr ("S_INT:" +:+ name_ p)].

Definition update (p : t) (l : L) : t * L := let '(_, l) := turn_off p l in (set_timer TIME_MAX p, l).

End pin.
End LibgpiodPin.
Import LibgpiodPin.

(** * LibgpiodModule *)

Record gpiod_world (L : Type) := mk_gpiod {
  clock : Z; gpios_ : list LibgpiodPin.t; lines : L; bus : list message; running : bool }.
Arguments mk_gpiod {L}. Arguments clock {L}. Arguments gpios_ {L}. Arguments lines {L}. Arguments bus {L}. Arguments running {L}.

Module LibgpiodModule.
Section module.
Context {L : Type} `{Gpiod L}.

(** A failed assertion ends the program. *)
#[export] Instance gpiod_peers : Peers (gpiod_world L) := {|
  exchange name m w :=
    let stopped ps l := mk_gpiod (clock w) ps l (bus w) false in
    if negb (running w) then (w, None)
    else match serve_bound name_ (handle_message (clock w) m) name (gpios_ w) (lines w) with
         | Ret None => (w, None)
         | Ret (Some (ps, l, (rep, Ret out))) => (mk_gpiod (clock w) ps l (bus w ++ [out]) true, Some rep)
         | Ret (Some (ps, l, (rep, _))) => (stopped ps l, Some rep)
         | _ => (stopped (gpios_ w) (lines w), None)
         end;
|}.

Fixpoint update_pins (now : nat -> Z) (i : nat) (ps : list LibgpiodPin.t) (l : L) : list LibgpiodPin.t * L :=
  match ps with
  | [] => ([], l)
  | p :: ps =>
      let '(p, l) := if next_update_time_ p <? now i then update p l else (p, l) in
      let '(ps, l) := update_pins now (i + 1) ps l in
      (p :: ps, l)
  end.

Definition sleep (now : Z) (w : gpiod_world L) : Z := compute_timeout now (map next_update_time_ (gpios_ w)).

Definition update_turn (now : nat -> Z) (w : gpiod_world L) : gpiod_world L :=
  let '(ps, l) := update_pins now 0 (gpios_ w) (lines w) in mk_gpiod (clock w) ps l (bus w) (running w).

(** ** Configuration *)

Definition gpio_interrupt_from_string (str : string) : InterruptMode :=
  if String.eqb str "none" then NoInterrupt
  else if String.eqb str "both" then Both
  else if String.eqb str "falling" then Falling
  else if String.eqb str "rising" then Rising
  else NoInterrupt.

Section config.
Context {T : Type} `{PropertyTree T}.

Definition load_gpio (consumer : string) (acc : ConfigChecker.t * list LibgpiodPin.t * L) (node : string * T)
  : outcome (ConfigChecker.t * list LibgpiodPin.t * L) :=
  let '(checker, ps, l) := acc in
  let gpio_cfg := node.2 in
  name ← get_child gpio_cfg "name";
  let device := get_default as_string gpio_cfg "device" "leosac" in
  offset ← get_child gpio_cfg "offset";
  gpio_offset ← stoi (chars (data offset));
  direction ← get_child gpio_cfg "direction";
  let interrupt := get_default as_string gpio_cfg "interrupt_mode" "none" in
  let initial := get_default as_bool gpio_cfg "value" false in
  '(p, l) ← LibgpiodPin.make consumer (data name) device gpio_offset
              (if String.eqb (data direction) "in" then In else Out) (gpio_interrupt_from_string interrupt) initial l;
  checker ← ConfigChecker.register_object (data name) GPIO checker;
  Ret (checker, ps ++ [p], l).

(** The consumer of [LibgpiodConfig], then the pins. *)
Definition process_config (checker : ConfigChecker.t) (cfg : T) (l : L)
  : outcome (ConfigChecker.t * list LibgpiodPin.t * L) :=
  module_config ← get_child cfg "module_config";
  consumer ← match get as_string module_config "consumer" with
             | Ret c => Ret c
             | _ => Throw (ConfigException "Libgpiod: consumer")
             end;
  gpios ← get_child module_config "gpios";
  foldM (load_gpio consumer) (checker, [], l) (children gpios).

(** The constructor of the module. *)
Definition make_module (now : Z) (checker : ConfigChecker.t) (cfg : T) (l : L)
  : outcome (ConfigChecker.t * gpiod_world L) :=
  '(checker, ps, l) ← process_config checker cfg l;
  _ ← foldM (fun _ p => register_sockets p l) tt ps;
  Ret (checker, mk_gpiod now ps l [] true).

End config.
End module.
End LibgpiodModule.
Import LibgpiodModule.

(** * What the facades get *)

Section peer.
Context {L : Type} `{GpiodLaws L}.

(** The level of the line of the output pin of that name. *)
Definition gpiod_pin (g : string) (w : gpiod_world L) : option bool :=
  if running w && (0 <=? clock w) && (clock w <? 2 ^ 62) then
    match find_bound name_ g (gpios_ w) with
    | Some p => match line_use (gpiod_line p) (lines w) with AsOutput b => Some b | _ => None end
    | None => None
    end
  else None.

Lemma read_output p b l : line_use (gpiod_line p) l = AsOutput b -> read_value p l = Ret b.
Proof. intros Hu. unfold read_value. rewrite (get_value_output _ _ _ Hu). by destruct b. Qed.

(** A command of the facade, as a frame. *)
Definition frames (c : gpio_command) : message :=
  match c with
  | CmdOn => [FStr "ON"] | CmdOnFor d => [FStr "ON"; FInt64 d] | CmdOff => [FStr "OFF"] | CmdToggle => [FStr "TOGGLE"]
  end.

(** The level a command leaves: a toggle writes back what it reads. *)
Definition left (c : gpio_command) (b : bool) : bool :=
  match c with CmdToggle => b | _ => spec_run c b end.

Lemma command_handled now c p b l : 0 <= now < 2 ^ 62 -> spec_duration c -> line_use (gpiod_line p) l = AsOutput b ->
  exists p' l', handle_message now (frames c) p l =
      Ret (p', l', ([FStr "KO"], Ret [FStr ("S_" +:+ name_ p); FStr (on_off (left c b))])) /\
    name_ p' = name_ p /\ gpiod_line p' = gpiod_line p /\ line_use (gpiod_line p) l' = AsOutput (left c b).
Proof.
  intros Hn Hd Hu. unfold handle_message.
  assert (Hset : forall v, exists l', line_set_value (gpiod_line p) v l = (l', 0) /\
    line_use (gpiod_line p) l' = AsOutput (negb (v =? 0))).
  { intros v. destruct (set_value_output _ v _ _ Hu) as (l' & Hs & Hl & _). by exists l'. }
  destruct c as [|d| |]; cbn -[ms add_ms left read_value turn_on turn_off toggle].
  - destruct (Hset 1) as (l' & Hs & Hl). unfold turn_on. change (Z.of_nat (length []) =? 1) with false.
    cbn [mbind outcome_bind]. rewrite Hs. cbn [mbind outcome_bind].
    exists p, l'. by rewrite (read_output p true).
  - destruct (Hset 1) as (l' & Hs & Hl). unfold turn_on. change (Z.of_nat (length [FInt64 d]) =? 1) with true.
    cbn [pop_int64 mbind outcome_bind]. rewrite add_ms_Ret by done. cbn [mbind outcome_bind].
    change (gpiod_line (set_timer (now + ms d) p)) with (gpiod_line p). rewrite Hs.
    exists (set_timer (now + ms d) p), l'. cbn [mbind outcome_bind]. by rewrite (read_output (set_timer (now + ms d) p) true).
  - destruct (Hset 0) as (l' & Hs & Hl). unfold turn_off. rewrite Hs. cbn [mbind outcome_bind].
    exists p, l'. by rewrite (read_output p false).
  - unfold toggle. rewrite (read_output p b l Hu). cbn [mbind outcome_bind].
    destruct (Hset (if b then 1 else 0)) as (l' & Hs & Hl). rewrite Hs. cbn -[read_value left].
    exists p, l'. assert (Hl' : line_use (gpiod_line p) l' = AsOutput b) by (rewrite Hl; by destruct b).
    by rewrite (read_output p b).
Qed.

(** (error) A libgpiod pin obeys, and answers that it did not. The library
    returns 0 when a value is set, where the code expects 1: the facade's commands
    report a failure every time, though the line is switched; and a toggle, which
    writes back the value it has just read, switches nothing. *)
Theorem gpiod_commands_refused now c (g : FGPIO.t) (w : gpiod_world L) b : spec_duration c ->
  gpiod_pin (FGPIO.gpio_name_ g) w = Some b ->
  exists w', facade_run now c g w = (w', Ret (false, g)) /\ gpiod_pin (FGPIO.gpio_name_ g) w' = Some (left c b).
Proof.
  intros Hd Hp. unfold gpiod_pin in Hp. destruct (_ && _ && _) eqn:Hw; [|done].
  destruct (find_bound name_ (FGPIO.gpio_name_ g) (gpios_ w)) as [p|] eqn:Hf; [|done].
  destruct (line_use _ _) as [| |b'|] eqn:Hu; try done. injection Hp as ->.
  destruct (find_bound_split _ _ _ _ Hf) as (l1 & l2 & Hps & Hn & Hl).
  destruct (command_handled (clock w) c p b (lines w)) as (p' & l' & Hh & Hn' & Hk & Hu'); [by bool_hyps|done|done|].
  assert (He : exchange (FGPIO.gpio_name_ g) (frames c) w =
    (mk_gpiod (clock w) (l1 ++ p' :: l2) l' (bus w ++ [[FStr ("S_" +:+ name_ p); FStr (on_off (left c b))]]) true, Some [FStr "KO"])).
  { cbn [exchange gpiod_peers]. assert (running w = true) as -> by by bool_hyps. cbn [negb].
    rewrite <- Hn, Hps, serve_bound_split by (by rewrite Hn). by rewrite Hh. }
  eexists. split.
  - destruct c; cbn [facade_run]; unfold FGPIO.turnOn, FGPIO.turnOn_for, FGPIO.turnOff, FGPIO.toggle, FGPIO.command, mbind, io_bind,
      ask_within; cbn [frames] in He; rewrite He; reflexivity.
  - unfold gpiod_pin. cbn [running clock gpios_ lines]. assert ((0 <=? clock w) && (clock w <? 2 ^ 62) = true) as Hc.
    { by destruct (running w). }
    rewrite <- andb_assoc, Hc. rewrite find_bound_app by (try done; congruence). by rewrite Hk, Hu'.
Qed.

(** (error) No input can be used. The line of an input pin is requested as an
    input first: when interrupts are asked for, requesting their events then fails
    and the constructor aborts; when they are not, there is no descriptor to poll
    and the module's constructor aborts. An output with interrupts aborts too. *)
Theorem gpiod_inputs_abort consumer name device offset dir mode initial l :
  chip_open_lookup device l = true -> chip_get_line (device, offset) l = true -> line_use (device, offset) l = Free ->
  (dir = In \/ mode <> NoInterrupt) ->
  ('(p, l) ← make consumer name device offset dir mode initial l; register_sockets p l) = Fault AssertFailed.
Proof.
  intros Hc Hg Hfree Hdir. unfold make, gpiod_line. cbn [gpio_device_ gpio_offset_]. rewrite Hc, Hg. cbn [cassert mbind outcome_bind].
  set (p := mk name device offset dir initial TIME_MAX). set (l1 := set_direction consumer dir p l).
  assert (Hbusy : line_use (device, offset) l1 <> Free /\ (dir = In -> line_use (device, offset) l1 = AsInput)).
  { unfold l1, set_direction, gpiod_line. cbn. destruct dir.
    - destruct (input_free _ consumer _ Hfree) as (l' & -> & Hu). cbn. by rewrite Hu.
    - destruct (output_free _ consumer (if initial then 1 else 0) _ Hfree) as (l' & -> & Hu). cbn. by rewrite Hu. }
  destruct Hbusy as [Hbusy Hin]. unfold set_interrupt, gpiod_line. cbn [gpio_device_ gpio_offset_ p].
  destruct mode; cbn [mbind outcome_bind]; try (by rewrite edges_busy).
  destruct Hdir as [->|]; [|done]. cbn [Z.leb cassert mbind outcome_bind]. unfold register_sockets, gpiod_line.
  assert (event_get_fd (device, offset) l1 = -1) as Hfd by (apply get_fd_events; by rewrite Hin).
  change (cassert (0 <=? event_get_fd (device, offset) l1) = Fault AssertFailed). by rewrite Hfd.
Qed.

End peer.

(** ** Lines for the examples *)

(** What each line is used for; a line never asked for is free. *)
Definition demo_lines : Type := gmap key use.

Definition demo_use (k : key) (l : gmap key use) : use := default Free (l !! k).

Definition demo_request (k : key) (u : use) (l : gmap key use) : demo_lines * Z :=
  match demo_use k l with Free => (<[k := u]> l, 0) | _ => (l, -1) end.

#[export] Instance demo_gpiod : Gpiod demo_lines := {|
  chip_open_lookup _ _ := true;
  chip_get_line _ _ := true;
  request_input k _ l := demo_request k AsInput l;
  request_output k _ v l := demo_request k (AsOutput (negb (v =? 0))) l;
  request_edges _ k _ l := demo_request k AsEvents l;
  line_set_value k v (l : gmap key use) :=
    match demo_use k l with AsOutput _ => (<[k := AsOutput (negb (v =? 0))]> l, 0) | _ => (l, -1) end;
  line_get_value k l := match demo_use k l with AsOutput true => 1 | AsOutput false | AsInput => 0 | _ => -1 end;
  event_get_fd k l := match demo_use k l with AsEvents => 5 | _ => -1 end;
|}.

#[export] Instance demo_gpiod_laws : GpiodLaws demo_lines.
Proof.
  refine {| line_use := demo_use |}; unfold request_input, request_output, request_edges, line_set_value, line_get_value,
    event_get_fd, demo_gpiod, demo_request.
  - intros k c l ->. eexists. split; [reflexivity|]. unfold demo_use. by rewrite lookup_insert_eq.
  - intros k c v l ->. eexists. split; [reflexivity|]. unfold demo_use. by rewrite lookup_insert_eq.
  - intros e k c l Hne. by destruct (demo_use k l).
  - intros k v b l ->. eexists. split; [reflexivity|]. unfold demo_use. split; [by rewrite lookup_insert_eq|].
    intros k' Hne. by rewrite lookup_insert_ne.
  - intros k b l ->. by destruct b.
  - intros k l Hne. by destruct (demo_use k l).
Defined.

Definition demo_lock : LibgpiodPin.t := mk "lock" "leosac" 4 Out false TIME_MAX.
Definition demo_gpiod_world : gpiod_world demo_lines :=
  mk_gpiod 1000 [demo_lock] {[ ("leosac", 4) := AsOutput false ]} [] true.

Lemma gpiod_commands_witness :
  exists w', FGPIO.turnOn 1000 (FGPIO.make "lock") demo_gpiod_world = (w', Ret (false, FGPIO.make "lock")) /\
    gpiod_pin "lock" w' = Some true.
Proof.
  destruct (gpiod_commands_refused 1000 CmdOn (FGPIO.make "lock") demo_gpiod_world false) as (w' & Hr & Hp).
  - exact I.
  - vm_compute. reflexivity.
  - exists w'. split; [exact Hr|exact Hp].
Defined.

Lemma gpiod_inputs_witness :
  ('(p, l) ← make "leosac" "button" "leosac" 5 In Rising false (∅ : demo_lines); register_sockets p l) = Fault AssertFailed.
Proof.
  apply gpiod_inputs_abort; [reflexivity|reflexivity|reflexivity|left; reflexivity].
Defined.
