(* ===== verification/Pipeline.v ===== *)
(** The whole way of a badge, from the two wires of a reader to the answer the
    door module gets: [src/modules/wiegand/] reads the frame and sends a
    message, [src/core/auth/AuthSourceBuilder.cpp] makes it a credential, and
    [src/modules/auth/auth-file/] answers. Also what loading a file
    guarantees of the ids its schedule mappings refer to: a badge the file does
    not name is refused only because no mapping holds the id of a credential
    that was never stored. *)
From Stdlib Require Import ZArith Lia Ascii String.
From stdpp Require Import base tactics numbers list strings gmap.
From S2P Require Import Prelude Ptree Reader Strategies Device Users Credentials AuthSource Schedules Profiles Zones AuthFile.
Import WiegandReaderImpl AuthFileInstance Mapper.

Open Scope Z_scope.

(** A badge with these bits is presented to the reader, and the message the
    reader sends is delivered to the authentication module. *)
Definition present_badge {S} `{WiegandStrategy S} (localtime : Z -> tm) (now : times) (clk : clock) (bits : list bool)
    (d : device S) (i : AuthFileInstance.t) : outcome (device S * list reaction) :=
  '(d, ms) ← device_run d (frame_events (rd d) bits clk);
  rs ← foldM (fun rs m => r ← handle_bus_msg localtime now i m; Ret (rs ++ [r])) [] ms;
  Ret (d, rs).

(** ** Ids of a loaded file *)

Lemma base_with_base b c : base (with_base b c) = b.
Proof. by destruct c. Qed.

(** Stored credentials have positive ids, so every mapping refers to positive
    ids only; a credential just made from a message has id 0. *)
Record ids_ok (m : Mapper.t) : Prop := {
  io_creds : forall a c, id_to_cred_ m !! a = Some c -> 0 < Credential.id_ (base c);
  io_mappings : Forall (fun sm => Forall (Z.lt 0) (ScheduleMapping.creds_ sm)) (mappings_ m);
}.

Section ids.
Context (parse_date : string -> option Z).
Context (addr_lt : UserGroupMembership.t -> UserGroupMembership.t -> bool).
Context {T : Type} `{PropertyTree T}.

Lemma ids_ok_empty : ids_ok Mapper.empty.
Proof. split; [intros a c; cbn; by rewrite lookup_empty | constructor]. Qed.

Lemma ids_ok_frame m m' :
  ids_ok m -> id_to_cred_ m' = id_to_cred_ m -> mappings_ m' = mappings_ m -> ids_ok m'.
Proof. intros [? ?] E1 E2. by split; rewrite ?E1, ?E2. Qed.

Lemma load_user_ids e m i m' i' : ids_ok m -> load_user parse_date (m, i) e = Ret (m', i') -> ids_ok m'.
Proof.
  intros Hm Hr. destruct e as [nm node]. unfold load_user in Hr. bind_inv Hr. injection Hr as <- <-.
  by eapply ids_ok_frame.
Qed.

Lemma load_group_ids e m i m' i' : ids_ok m -> load_group addr_lt (m, i) e = Ret (m', i') -> ids_ok m'.
Proof.
  intros Hm Hr. destruct e as [nm node]. unfold load_group in Hr. bind_inv Hr. injection Hr as <- <-.
  by eapply ids_ok_frame.
Qed.

(** Reading a credential never takes the counter back. *)
Lemma read_credential_next node i c child j :
  read_credential node i = Ret (c, child, j) -> i <= j.
Proof.
  unfold read_credential. intros Hr. destruct (get_child_optional node "WiegandCard"); [|destruct
    (get_child_optional node "PINCode"); [|destruct (get_child_optional node "WiegandCardPin"); [|done]]];
  bind_inv Hr; injection Hr; intros; lia.
Qed.

Lemma load_credential_ids e st st' :
  ids_ok st.1 /\ 0 < st.2 -> load_credential parse_date st e = Ret st' -> ids_ok st'.1 /\ 0 < st'.2.
Proof.
  destruct st as [m i], st' as [m' i']. cbn. intros [[Hc Hs] Hi] Hr. destruct e as [nm node].
  unfold load_credential in Hr. bind_inv Hr. destruct (user_of a0 m) as [uid|]; [|done].
  bind_inv Hr. destruct a1 as [[c child] cid]. bind_inv Hr. injection Hr as <- <-.
  apply read_credential_next in E1.
  assert (Hid : Credential.id_ a2 = cid).
  { unfold Credential.set_alias in E3. bind_inv E3. by injection E3 as <-. }
  split; [|lia]. split; [|exact Hs].
  intros al c'. unfold store_credential; cbn [id_to_cred_]. destruct (str_empty _); [apply Hc|].
  intros [[_ <-]|[_ Hl]]%lookup_insert_Some; [|by eapply Hc]. rewrite base_with_base. lia.
Qed.

Lemma load_schedules_ids s m m' : ids_ok m -> load_schedules s m = Ret m' -> ids_ok m'.
Proof.
  intros Hm Hr. unfold load_schedules in Hr. bind_inv Hr. destruct a as [ss ret]. bind_inv Hr.
  injection Hr as <-. by eapply ids_ok_frame.
Qed.

(** The other adders leave the credentials of a mapping alone. *)
Lemma adders_creds o sm sm' :
  ScheduleMapping.add_user o sm = Ret sm' \/ ScheduleMapping.add_group o sm = Ret sm' \/
  ScheduleMapping.add_door o sm = Ret sm' \/ ScheduleMapping.add_zone o sm = Ret sm' ->
  ScheduleMapping.creds_ sm' = ScheduleMapping.creds_ sm.
Proof. destruct o; cbn; intros Hr; repeat (destruct Hr as [Hr|Hr]); by simplify_eq. Qed.

Lemma adder_loop_creds {A} (f : ScheduleMapping.t -> A -> outcome ScheduleMapping.t) l sm sm' :
  (forall sm x sm', f sm x = Ret sm' -> ScheduleMapping.creds_ sm' = ScheduleMapping.creds_ sm) ->
  foldM f sm l = Ret sm' -> ScheduleMapping.creds_ sm' = ScheduleMapping.creds_ sm.
Proof.
  intros Hf. apply (foldM_preserves f (fun s => ScheduleMapping.creds_ s = ScheduleMapping.creds_ sm)); [|done].
  intros s x s' <- Hs. by eapply Hf.
Qed.

Lemma map_schedule_ids node m n m' : ids_ok m -> map_schedule node m n = Ret m' -> ids_ok m'.
Proof.
  intros [Hc Hs] Hr. unfold map_schedule in Hr.
  destruct (xml_schedules_ m !! n) as [sched|]; [|done].
  apply bind_Ret in Hr as ([sm1 h1] & E1 & Hr). apply bind_Ret in Hr as ([sm2 h2] & E2 & Hr).
  apply bind_Ret in Hr as (sm3 & E3 & Hr). apply bind_Ret in Hr as (sm4 & E4 & Hr).
  apply bind_Ret in Hr as (sm5 & E5 & Hr). injection Hr as <-.
  assert (H1 : ScheduleMapping.creds_ sm1 = []).
  { destruct (str_empty (get_default as_string node "door" "")); [by injection E1 as <- <-|]. unfold new_door in E1.
    bind_inv E1. injection E1 as <- <-. by erewrite adders_creds by eauto. }
  assert (H2 : ScheduleMapping.creds_ sm2 = []).
  { destruct (str_empty (get_default as_string node "zone" "")); [by injection E2 as <- <-|]. unfold new_zone in E2.
    bind_inv E2. injection E2 as <- <-. by erewrite adders_creds by eauto. }
  apply adder_loop_creds in E3; [|intros; by erewrite adders_creds by eauto].
  apply adder_loop_creds in E4; [|intros; by erewrite adders_creds by eauto].
  split; cbn [id_to_cred_ mappings_]; [exact Hc|]. apply Forall_app. split; [exact Hs|]. constructor; [|done].
  revert E5. apply (foldM_preserves _ (fun s => Forall (Z.lt 0) (ScheduleMapping.creds_ s))).
  - intros s x s' Hall. unfold find_cred_by_alias. destruct (id_to_cred_ m !! x) as [c|] eqn:Ex; [|done].
    cbn. intros [= <-]. cbn [ScheduleMapping.creds_]. apply Forall_app. split; [exact Hall|].
    constructor; [by eapply Hc | done].
  - rewrite E4, E3, H2. constructor.
Qed.

Lemma loaded_ids tree m : Mapper.make parse_date addr_lt tree = Ret m -> ids_ok m.
Proof.
  unfold Mapper.make. destruct (load_all parse_date addr_lt tree) as [m0|e|f] eqn:E; try done. intros [= <-].
  assert (Hsec : forall name f (root : T) m m', (forall t m m', ids_ok m -> f t m = Ret m' -> ids_ok m') ->
    ids_ok m -> load_section name f root m = Ret m' -> ids_ok m').
  { intros name f root m m' Hf Hm. unfold load_section. destruct (get_child_optional root name); [by apply Hf|].
    by intros [= <-]. }
  unfold load_all in E. bind_inv E.
  apply Hsec in E1; [|clear|exact ids_ok_empty].
  2: { intros t m m' Hm Hr. apply bind_Ret in Hr as ([m1 i] & Hr & [= <-]).
       apply (foldM_preserves _ (fun st => ids_ok st.1)) in Hr; [exact Hr| |exact Hm].
       intros [m2 i2] e [m3 i3] ? ?. by eapply load_user_ids. }
  apply Hsec in E2; [|clear|exact E1].
  2: { intros t m m' Hm Hr. apply bind_Ret in Hr as ([m1 i] & Hr & [= <-]).
       apply (foldM_preserves _ (fun st => ids_ok st.1)) in Hr; [exact Hr| |exact Hm].
       intros [m2 i2] e [m3 i3] ? ?. by eapply load_group_ids. }
  apply Hsec in E3; [|clear|exact E2].
  2: { intros t m m' Hm Hr. apply bind_Ret in Hr as ([m1 i] & Hr & [= <-]).
       apply (foldM_preserves _ (fun st => ids_ok st.1 /\ 0 < st.2)) in Hr; [exact (proj1 Hr)| |by split].
       intros st e st' ? ?. by eapply load_credential_ids. }
  apply Hsec in E4; [|intros; by eapply load_schedules_ids|exact E3].
  eapply Hsec; [|exact E4|exact E]. intros t m m' Hm. unfold map_schedules.
  apply (foldM_preserves _ ids_ok); [|exact Hm]. intros m3 [nm node] m4 Hm3 Hr. unfold map_entry in Hr.
  bind_inv Hr. revert Hr. apply (foldM_preserves _ ids_ok); [|exact Hm3]. intros. by eapply map_schedule_ids.
Qed.

End ids.

(** A credential whose id is not positive concerns no mapping by itself. *)
Lemma unknown_unconcerned m c sm :
  ids_ok m -> In sm (mappings_ m) -> Credential.id_ (base c) <= 0 -> concerns m None c sm = false.
Proof.
  intros [_ Hall] Hin Hid. unfold concerns. cbn [orb]. unfold ScheduleMapping.has_cred, ScheduleMapping.has.
  rewrite List.Forall_forall in Hall. specialize (Hall sm Hin). rewrite List.Forall_forall in Hall.
  apply not_true_is_false. intros (x & Hx & Heq)%existsb_exists. specialize (Hall x Hx). lia.
Qed.

(** ** From the wires to the answer *)

Section pipeline.
Context (localtime : Z -> tm) (parse_date : string -> option Z).
Context (addr_lt : UserGroupMembership.t -> UserGroupMembership.t -> bool).
Context {T : Type} `{PropertyTree T}.

(** A reader's message is not one of the kernel's. *)
Lemma reader_not_kernel r bits : handle_kernel_message (card_message r bits) = Ret None.
Proof. reflexivity. Qed.

(** The answer to a request that was decided. *)
Lemma answered now i r bits res owner m c :
  owner_known m c owner -> handle_auth localtime now i (card_message r bits) = Ret res ->
  (user res <> None -> user res = owner) ->
  handle_bus_msg localtime now i (card_message r bits) =
    Ret (Answer [FStr ("S_" +:+ name_ i); FU8 (if success res then GRANTED else DENIED)]).
Proof.
  intros (_ & Hall & _) Hr Hu. unfold handle_bus_msg. rewrite reader_not_kernel, ret_bind, Hr, ret_bind.
  destruct (user res) as [u|] eqn:Eu; [|done].
  specialize (Hu ltac:(done)). symmetry in Hu. unfold User.username. specialize (Hall u Hu).
  unfold username_ok in Hall. by rewrite Hall.
Qed.

(** Whom the file lets in: it has a card with these bytes, the card and its
    owner are valid, no mapping that concerns them names a door or a zone, and
    the schedule of one such mapping contains the present. *)
Definition entitled (now : times) (m : Mapper.t) (bits : list bool) : Prop :=
  exists k u,
    rfid_cards_ m !! card_text bits = Some k /\ owner_of m (Card k) = Ret (Some u) /\
    ValidityInfo.is_valid (now_cred now) (Credential.validity_ (RFIDCard.cred k)) = true /\
    User.is_valid (now_owner now) u = true /\
    (forall sm, In sm (mappings_ m) -> concerns m (Some u) (Card k) sm = true ->
       ScheduleMapping.doors_ sm = [] /\ ScheduleMapping.zones_ sm = []) /\
    exists sm s, In sm (mappings_ m) /\ concerns m (Some u) (Card k) sm = true /\
      ScheduleMapping.schedule_ sm = Some s /\
      Schedule.is_in_schedule (localtime (now_access now)) s = true.

Lemma badge_answered tree now i (d : device Simple.t) bits clk :
  idle d -> name (rd d) <> "" -> (0 < length bits <= 128)%nat ->
  Mapper.make parse_date addr_lt tree = Ret (mapper_ i) ->
  exists d' (granted : bool),
    present_badge localtime now clk bits d i =
      Ret (d', [Answer [FStr ("S_" +:+ name_ i); FU8 (if granted then GRANTED else DENIED)]]) /\
    idle d' /\ (granted = true <-> entitled now (mapper_ i) bits).
Proof.
  intros Hd Hn Hb Hmake.
  pose proof (loaded_ok _ _ _ _ Hmake) as Hm. pose proof (loaded_ids _ _ _ _ Hmake) as Hids.
  destruct (simple_device_card d bits clk Hd Hb) as (d' & Hrun & Hi' & _).
  pose proof (create_card (rd d) bits Hn Hb) as Hc.
  destruct (handle_auth_decision localtime now i _ _ Hm Hc ltac:(done)) as (owner & res & Hown & Hr & Hu & Hiff).
  exists d', (success res). split; [|split; [exact Hi'|]].
  { unfold present_badge. rewrite Hrun, ret_bind. cbn [foldM].
    by rewrite (answered now i (rd d) bits res owner _ _ Hown Hr Hu). }
  rewrite Hiff, allowed_iff by done. unfold entitled. set (m := mapper_ i) in *. clearbody m.
  destruct Hown as (Ho & _ & _). unfold mapToUser in *. cbn [RFIDCard.card_id_ frame_card] in *.
  destruct (rfid_cards_ m !! card_text bits) as [k|] eqn:Ek.
  - destruct (mo_cards _ Hm _ _ Ek) as (uid & Huid & u & Huo).
    assert (Hok : owner_of m (Card k) = Ret (Some u)) by (unfold owner_of; cbn [base]; by rewrite Huid, Huo).
    assert (owner = Some u) as -> by congruence. split.
    + intros (Hv & Hvo & Hall & Hex). exists k, u. auto 10.
    + intros (k' & u' & [= <-] & Ho' & Hv & Hvo & Hrest). assert (u' = u) as -> by congruence.
      split; [done|]. split; [by intros ? [= <-]|]. exact Hrest.
  - injection Ho as <-. split; [|by intros (? & ? & ? & _)].
    intros (_ & _ & _ & sm & s & Hin & Hcon & _). by rewrite unknown_unconcerned in Hcon.
Qed.

(** the whole way of a badge, from the wires to the answer. A card of 1 to
    128 bits presented to an idle reader in SIMPLE_WIEGAND mode leaves the
    reader idle and gets exactly one answer from the file authentication
    module, GRANTED or DENIED. It is GRANTED exactly when the file has a card
    with these bytes, the card and its owner are valid, no mapping that concerns
    them names a door or a zone, and the schedule of one such mapping contains
    the present. A badge the file does not have is always DENIED. *)
Theorem badge_end_to_end tree now i (d : device Simple.t) bits clk :
  idle d -> name (rd d) <> "" -> (0 < length bits <= 128)%nat ->
  Mapper.make parse_date addr_lt tree = Ret (mapper_ i) ->
  exists d' (granted : bool),
    present_badge localtime now clk bits d i =
      Ret (d', [Answer [FStr ("S_" +:+ name_ i); FU8 (if granted then GRANTED else DENIED)]]) /\
    idle d' /\ (granted = true <-> entitled now (mapper_ i) bits) /\
    (rfid_cards_ (mapper_ i) !! card_text bits = None -> granted = false).
Proof.
  intros Hd Hn Hb Hmake. destruct (badge_answered tree now i d bits clk Hd Hn Hb Hmake) as (d' & granted & Hr & Hi & Hiff).
  exists d', granted. split; [exact Hr|]. split; [exact Hi|]. split; [exact Hiff|].
  intros Hnone. apply not_true_is_false. intros (k & u & Hk & _)%Hiff. congruence.
Qed.

End pipeline.

(** ** Witness *)

(** The 32 bits of the card "aa:bb:cc:dd", most significant first. *)
Definition badge_bits : list bool := map (fun i => Z.testbit 2864434397 (31 - Z.of_nat i)) (seq 0 32).

(** Presented on a Monday at noon to a reader whose file gives the owner's
    group access during working hours. *)
Lemma badge_end_to_end_witness :
  exists d', present_badge monday_noon demo_times (clock_at 0) badge_bits
      (mk_device demo_reader Simple.make) (demo_instance []) =
    Ret (d', [Answer [FStr "S_AUTH"; FU8 GRANTED]]) /\ idle d'.
Proof.
  destruct (badge_end_to_end monday_noon no_dates no_order (demo_file []) demo_times (demo_instance [])
    (mk_device demo_reader Simple.make) badge_bits (clock_at 0)) as (d' & granted & Hrun & Hi & Hiff & _).
  - apply demo_idle.
  - discriminate.
  - cbn; lia.
  - vm_compute. reflexivity.
  - assert (Hg : granted = true); [apply Hiff | rewrite Hg in Hrun; exists d'; split; [exact Hrun | exact Hi]].
    do 2 eexists.
    split; [vm_compute; reflexivity|]. split; [vm_compute; reflexivity|].
    split; [reflexivity|]. split; [reflexivity|]. split.
    + intros sm [<-|[]] _. split; reflexivity.
    + eexists _, demo_schedule. split; [left; reflexivity|]. repeat split.
Defined.
