(* ===== verification/Entrance.v ===== *)
(** From the badge to the lock: the reader (Device.v), the file authentication
    module (AuthFile.v, Pipeline.v), the message bus and the doorman (Doorman.v),
    and whatever holds the pins, together. *)
From Stdlib Require Import ZArith Lia Ascii String.
From stdpp Require Import base tactics numbers list strings gmap.
From S2P Require Import Prelude Ptree Timers Facades Gpio Reader Strategies Device.
From S2P Require Import Users Credentials AuthSource Schedules Profiles Zones AuthFile Doorman Pipeline.

Open Scope Z_scope.

(** * Doormen that switch things on *)

Section switches.
Context (localtime : Z -> tm) {W : Type} `{GpioCommands W}.

(** The command is to switch an existing pin on, for ever or for a while. *)
Definition switch_on (w : W) (a : DoormanAction) : Prop :=
  is_Some (pin (target_ a) w) /\
  (map DoormanInstance.frame_of (cmd_ a) = [FStr "ON"] \/
   exists d, 0 <= d < 2 ^ 31 /\ map DoormanInstance.frame_of (cmd_ a) = [FStr "ON"; FInt64 d]).

Definition names (g : string) (c : string * message) : bool := String.eqb c.1 g.

Lemma switch_on_sent w a : switch_on w a ->
  exists w', exchange (target_ a) (map DoormanInstance.frame_of (cmd_ a)) w = (w', Some [FStr "OK"]) /\
    pin (target_ a) w' = Some true /\ forall h, h <> target_ a -> pin h w' = pin h w.
Proof.
  intros [[b Hb] [->|(d & Hd & ->)]]; [by apply (gpio_on _ _ b)|by apply (gpio_on_for _ _ b)].
Qed.

(** The pins the commands name are on afterwards, and no other changes. *)
Lemma switches_on now k ts i status actions (w : W) :
  instance_ok (length ts) i -> Forall target_ok ts -> Forall (switch_on w) actions ->
  exists w', DoormanInstance.run_actions localtime now k ts i status actions w = (w', Ret tt) /\
    forall h b, pin h w = Some b ->
      pin h w' = Some (existsb (names h) (commands localtime now k ts status actions) || b).
Proof.
  intros Hi Hok. revert k w. induction actions as [|a actions IH]; intros k w Hall; cbn [DoormanInstance.run_actions commands].
  { by exists w. }
  apply Forall_cons in Hall as [Ha Hall]. rewrite ignore_action_eq by done.
  unfold pure at 1. erewrite io_bind_ret by reflexivity.
  destruct (applies localtime (now k) ts status a); cbn [negb app].
  - destruct (switch_on_sent w a Ha) as (w1 & He & Hp & Hh).
    erewrite io_bind_ret by (by eapply command_sent).
    destruct (IH (S k) w1) as (w' & Hr & Hp').
    { eapply Forall_impl; [exact Hall|]. intros c [Hc Hm]. split; [|exact Hm].
      destruct (String.eqb_spec (target_ c) (target_ a)) as [->|Hne]; [by exists true|by rewrite Hh]. }
    exists w'. split; [exact Hr|]. intros h b Hb. cbn [existsb].
    change (names h (request_of a)) with (String.eqb (target_ a) h).
    destruct (String.eqb_spec (target_ a) h) as [<-|Hne].
    + rewrite (Hp' _ true Hp). by rewrite orb_true_r.
    + cbn [orb]. apply Hp'. rewrite Hh; [done|congruence].
  - erewrite io_bind_ret by reflexivity. by apply IH.
Qed.

(** Whether a door is among what is switched on. *)
Lemma named_iff now k ts status actions g : (forall j, permanent localtime (now j) ts g = false) ->
  existsb (names g) (commands localtime now k ts status actions) =
  existsb (fun a => (on_ a =? status) && String.eqb (target_ a) g) actions.
Proof.
  intros Hperm. revert k. induction actions as [|a actions IH]; intros k; [done|]. cbn [commands existsb].
  rewrite existsb_app, IH. f_equal. unfold applies. destruct (on_ a =? status); [|done]. cbn [andb].
  assert (Hn : names g (request_of a) = String.eqb (target_ a) g) by done.
  destruct (String.eqb_spec (target_ a) g) as [Hg|Hne].
  - rewrite Hg, Hperm. cbn [negb existsb]. by rewrite Hn.
  - destruct (permanent _ _ _ _); [done|]. cbn [negb existsb]. by rewrite Hn.
Qed.

End switches.

(** * The whole way *)

Section entrance.
Context (localtime : Z -> tm) (parse_date : string -> option Z).
Context (addr_lt : UserGroupMembership.t -> UserGroupMembership.t -> bool).
Context {T : Type} `{PropertyTree T} {W : Type} `{GpioCommands W} `{!Bus, !BusLaws}.
Import Reader.WiegandReaderImpl Mapper AuthFileInstance.

(** A doorman answers for an authentication context, and opens this door when
    access is granted and only then; its other commands switch things on too. *)
Record guards (dmn : DoormanInstance.t) (ctx g : string) (w : W) : Prop := {
  gd_context : In ctx (DoormanInstance.auth_contexts dmn);
  gd_opens : exists a, In a (DoormanInstance.actions_ dmn) /\ target_ a = g /\ on_ a = GRANTED;
  gd_only : forall a, In a (DoormanInstance.actions_ dmn) -> target_ a = g -> on_ a = GRANTED;
  gd_switch : Forall (switch_on w) (DoormanInstance.actions_ dmn);
}.

Lemma guards_open dmn ctx g w granted : guards dmn ctx g w ->
  existsb (fun a => (on_ a =? (if granted : bool then GRANTED else DENIED)) && String.eqb (target_ a) g)
    (DoormanInstance.actions_ dmn) = granted.
Proof.
  intros [_ (a & Hin & Ha & Hon) Honly _]. destruct granted.
  - apply existsb_exists. exists a. split; [done|]. by rewrite Hon, Ha, Z.eqb_refl, String.eqb_refl.
  - apply not_true_is_false. intros (c & Hc & Hb)%existsb_exists.
    apply andb_true_iff in Hb as [Hs Ht%String.eqb_eq]. by rewrite (Honly c Hc Ht) in Hs.
Qed.

(** C2: (refinement) A badge opens the door exactly for those who are entitled.
    A card of 1 to 128 bits is presented to an idle reader; the file
    authentication module's one answer reaches the doorman that guards the door;
    and after the doorman has handled it, the pin of the door is on if the badge
    was granted access, and otherwise as it was. Granted means entitled by the
    file. The door must be one whose schedules do not keep it open or closed. *)
Theorem badge_opens_door tree now clocks i (d : device Simple.t) bits clk dm dmn g (w : W) b :
  idle d -> name (rd d) <> "" -> (0 < length bits <= 128)%nat ->
  Mapper.make parse_date addr_lt tree = Ret (mapper_ i) ->
  module_ok dm -> dmn ∈ DoormanModule.doormen_ dm -> guards dmn (name_ i) g w ->
  (forall k, permanent localtime (clocks k) (DoormanModule.doors_ dm) g = false) ->
  pin g w = Some b ->
  exists d' (granted : bool) src answer w',
    present_badge localtime now clk bits d i = Ret (d', [Answer (FStr src :: answer)]) /\ idle d' /\
    (granted = true <-> entitled localtime now (mapper_ i) bits) /\
    delivers (DoormanInstance.topics dmn) src = true /\
    DoormanInstance.handle_bus_msg localtime clocks (DoormanModule.doors_ dm) dmn (FStr src :: answer) w = (w', Ret tt) /\
    pin g w' = Some (granted || b).
Proof.
  intros Hd Hn Hb Hmake [Hok Hi] Hin Hg Hperm Hpin.
  destruct (badge_answered localtime parse_date addr_lt tree now i d bits clk Hd Hn Hb Hmake)
    as (d' & granted & Hr & Hi' & Hiff).
  pose proof (proj1 (Forall_forall _ _) Hi dmn Hin) as Hii.
  destruct (switches_on localtime clocks 0 _ dmn (if granted then GRANTED else DENIED) _ w Hii Hok (gd_switch _ _ _ _ Hg))
    as (w' & Hrun & Hpins).
  exists d', granted. do 3 eexists. split; [exact Hr|]. split; [exact Hi'|]. split; [exact Hiff|]. split.
  { apply delivers_spec. exists ("S_" +:+ name_ i). split.
    - apply (in_map (fun c => "S_" +:+ c)), (gd_context _ _ _ _ Hg).
    - apply prefix_refl. }
  split; [exact Hrun|]. by rewrite (Hpins g b Hpin), named_iff, (guards_open _ _ _ _ _ Hg).
Qed.

End entrance.

(** ** Witness *)

Definition lock_cfg : xml :=
  Node "" [("module_config", Node "" [
    ("doors", Node "" [("door", Node "" [("name", leaf "front"); ("gpio", leaf "lock")])]);
    ("instances", Node "" [("instance", Node "" [
      ("name", leaf "doorman");
      ("auth_contexts", Node "" [("auth_context", Node "" [("name", leaf "AUTH")])]);
      ("actions", Node "" [
        ("action", Node "" [("on", leaf "GRANTED"); ("target", leaf "lock");
                            ("cmd", Node "" [("frame", leaf "ON"); ("frame", leaf "3000")])]);
        ("action", Node "" [("on", leaf "DENIED"); ("target", leaf "led");
                            ("cmd", Node "" [("frame", leaf "ON")])])])])])])].
Definition lock_module : DoormanModule.t :=
  match DoormanModule.make (T := xml) false ∅ lock_cfg with Ret m => m | _ => DoormanModule.mk [] [] end.
Definition lock_doorman : DoormanInstance.t :=
  default (DoormanInstance.make "" [] [] []) (DoormanModule.doormen_ lock_module !! 0%nat).

Lemma lock_module_ok : module_ok lock_module.
Proof. split; vm_compute; repeat constructor. by eexists. Qed.

Lemma lock_guards : guards (W := world latches) lock_doorman "AUTH" "lock" demo_world.
Proof.
  split.
  - by left.
  - eexists. split; [by left|]. done.
  - intros a [<-|[<-|[]]] Ht; [done|discriminate].
  - assert (H3000 : 0 <= 3000 < 2 ^ 31) by lia.
    constructor; [split; [by eexists|right; by exists 3000]|].
    constructor; [split; [by eexists|by left]|constructor].
Qed.

Import WiegandReaderImpl AuthFileInstance.

(** The badge of AuthFile.v's file, on the reader, opens the lock of the piface
    card for three seconds. *)

Lemma badge_opens_door_witness :
  exists d' answer w', present_badge monday_noon demo_times (clock_at 0) badge_bits
      (mk_device demo_reader Simple.make) (demo_instance []) = Ret (d', [Answer answer]) /\
    DoormanInstance.handle_bus_msg monday_noon (fun _ => (0, 0)) (DoormanModule.doors_ lock_module) lock_doorman answer
      demo_world = (w', Ret tt) /\ piface_pin "lock" w' = Some true.
Proof.
  destruct (badge_opens_door monday_noon no_dates no_order (demo_file []) demo_times (fun _ => (0, 0)) (demo_instance [])
    (mk_device demo_reader Simple.make) badge_bits (clock_at 0) lock_module lock_doorman "lock" demo_world false)
    as (d' & granted & src & answer & w' & Hrun & _ & Hiff & _ & Hh & Hp).
  - apply demo_idle.
  - discriminate.
  - cbn; lia.
  - vm_compute. reflexivity.
  - apply lock_module_ok.
  - left.
  - apply lock_guards.
  - reflexivity.
  - reflexivity.
  - exists d', (FStr src :: answer), w'. split; [exact Hrun|]. split; [exact Hh|].
    assert (Hg : granted = true); [|rewrite Hg in Hp; exact Hp]. apply Hiff. do 2 eexists.
    split; [vm_compute; reflexivity|]. split; [vm_compute; reflexivity|].
    split; [reflexivity|]. split; [reflexivity|]. split.
    + intros sm [<-|[]] _. split; reflexivity.
    + eexists _, demo_schedule. split; [left; reflexivity|]. repeat split.
Defined.
