(* ===== verification/RplethProtocol.v ===== *)
(** The Rpleth protocol, [src/modules/rpleth/]: the ring buffer of a client
    ([network/circularbuffer.cpp]), packets and their checksum
    ([rplethpacket.cpp]), and their form on the wire ([rplethprotocol.cpp]).

    Sizes and indices are [std::size_t], 64 bits wide. A ring is a queue of
    bytes, [contents], as long as what is written fits; decoding a packet out of
    it is [parse] on that queue. *)
From Stdlib Require Import ZArith Lia Ascii String.
From stdpp Require Import base tactics numbers list strings.
From S2P Require Import Prelude.

Open Scope Z_scope.

(** [std::size_t]. *)
Definition u64 (z : Z) : Z := z mod 2 ^ 64.

(** * CircularBuffer *)

Module CircularBuffer.

Record t := mk { _buffer : list Z; _size : Z; _rIdx : Z; _wIdx : Z; _toRead : Z }.

Definition DefaultSize : Z := 8192.

Definition make (size : Z) : t := mk (replicate (Z.to_nat size) 0) size 0 0 0.

Definition set_buffer (l : list Z) (b : t) : t := mk l (_size b) (_rIdx b) (_wIdx b) (_toRead b).

(** [_buffer[i % _size]], as a position. *)
Definition slot (b : t) (i : Z) : outcome nat :=
  if _size b =? 0 then Fault DivByZero
  else
    let k := Z.to_nat (u64 i mod _size b) in
    if bool_decide (k < length (_buffer b))%nat then Ret k else Fault OutOfBounds.

(** [operator[]]. *)
Definition at_ (idx : Z) (b : t) : outcome Z :=
  k ← slot b (_rIdx b + idx);
  Ret (nth k (_buffer b) 0).

(** [read]: the bytes copied, and what it returns. *)
Definition read (size : Z) (b : t) : outcome (t * list Z * Z) :=
  if (size =? 0) || (_size b <? size) then Ret (b, [], 0)
  else if _toRead b =? 0 then Ret (b, [], 0)
  else
    let size := Z.min size (_toRead b) in
    data ← foldM (fun l i => x ← at_ (Z.of_nat i) b; Ret (l ++ [x])) [] (seq 0 (Z.to_nat size));
    let readIdx := Z.of_nat (length data) in
    if readIdx =? size then Ret (b, data, 0)
    else
      let readIdx := readIdx + 1 in
      Ret (mk (_buffer b) (_size b) (u64 (_rIdx b + readIdx) mod _size b) (_wIdx b) (u64 (_toRead b - readIdx)),
           data, readIdx).

(** The loop of [write]; [i] bytes are written already. *)
Fixpoint store (i : Z) (data : list Z) (b : t) : outcome t :=
  match data with
  | [] => Ret b
  | x :: data =>
      k ← slot b (_wIdx b + i);
      store (i + 1) data (set_buffer (<[k := x]> (_buffer b)) b)
  end.

Definition write (data : list Z) (b : t) : outcome (t * Z) :=
  let size := Z.of_nat (length data) in
  if (size =? 0) || (_size b <? size) then Ret (b, 0)
  else
    b ← store 0 data b;
    let w := u64 (_wIdx b + size) mod _size b in
    Ret (mk (_buffer b) (_size b) (_rIdx b) w
           (if _rIdx b =? w then _size b else u64 (u64 (w - _rIdx b) + _size b) mod _size b), size).

Definition fastForward (offset : Z) (b : t) : outcome t :=
  let offset := if _toRead b <? offset then _toRead b else offset in
  if _size b =? 0 then Fault DivByZero
  else Ret (mk (_buffer b) (_size b) (u64 (_rIdx b + offset) mod _size b) (_wIdx b) (_toRead b - offset)).

Definition reset (b : t) : t := mk (_buffer b) (_size b) 0 0 0.
Definition getSize (b : t) : Z := _size b.
Definition toRead (b : t) : Z := _toRead b.
Definition isEmpty (b : t) : bool := 0 <? _toRead b.

End CircularBuffer.
Import CircularBuffer.

(** * RplethPacket *)

Inductive Sender := Client | Server.
#[export] Instance sender_eq_dec : EqDecision Sender.
Proof. solve_decision. Defined.

Module RplethPacket.

Record t := mk {
  status : Z;
  type : Z;
  command : Z;
  dataLen : Z;
  data : list Z;
  sum : Z;
  isGood : bool;
  sender : Sender;
}.

Definition make (packetSender : Sender) : t := mk 0 0 0 0 [] 0 false packetSender.

Definition set_status (s : Z) (p : t) : t :=
  mk s (type p) (command p) (dataLen p) (data p) (sum p) (isGood p) (sender p).
Definition set_sender (s : Sender) (p : t) : t :=
  mk (status p) (type p) (command p) (dataLen p) (data p) (sum p) (isGood p) s.
Definition set_data (l : list Z) (p : t) : t :=
  mk (status p) (type p) (command p) (Z.of_nat (length l) mod 256) l (sum p) (isGood p) (sender p).

(** [data[i]]. *)
Definition data_at (i : nat) (p : t) : outcome Z :=
  match data p !! i with Some x => Ret x | None => Fault OutOfBounds end.

Definition checksum (p : t) : outcome Z :=
  let s := match sender p with Server => Z.lxor 0 (status p) | Client => 0 end in
  let s := Z.lxor s (type p) in
  let s := Z.lxor s (command p) in
  let s := Z.lxor s (dataLen p) in
  foldM (fun s i => x ← data_at i p; Ret (Z.lxor s x)) s (seq 0 (Z.to_nat (dataLen p))).

End RplethPacket.
Import RplethPacket.

(** * RplethProtocol *)

Module RplethProtocol.

Definition TypeByteIdx : Z := 0.
Definition CommandByteIdx : Z := 1.
Definition SizeByteIdx : Z := 2.
Definition PacketMinSize : Z := 4.

(** [TypeCode]. *)
Definition Rpleth : Z := 0.
Definition HID : Z := 1.
Definition LCD : Z := 2.
Definition MaxType : Z := 3.

(** [RplethCommands] and [HIDCommands], those the module handles. *)
Definition DHCPState : Z := 1.
Definition SetDHCP : Z := 2.
Definition SetIP : Z := 4.
Definition SetSubnet : Z := 5.
Definition SetGateway : Z := 6.
Definition Reset : Z := 9.
Definition Ping : Z := 10.
Definition Beep : Z := 0.
Definition Greenled : Z := 1.
Definition Badge : Z := 4.
Definition SendCards : Z := 13.
Definition ReceiveCardsWaited : Z := 14.

(** [StatusCode]. *)
Definition Success : Z := 0.
Definition Failed : Z := 1.
Definition BadChecksum : Z := 2.
Definition BadType : Z := 5.

Definition decodeCommand (buffer : CircularBuffer.t) (from_server : bool)
  : outcome (RplethPacket.t * CircularBuffer.t) :=
  buffer ← (if from_server then fastForward 1 buffer else Ret buffer);
  let sender := if from_server then Server else Client in
  let packet := RplethPacket.make sender in
  let toRead := toRead buffer in
  if toRead <? PacketMinSize then Ret (packet, buffer)
  else
    dataLen ← at_ SizeByteIdx buffer;
    if toRead <? dataLen + 4 then Ret (mk Success 0 0 dataLen [] 0 false sender, buffer)
    else
      data ← foldM (fun l i => x ← at_ (SizeByteIdx + 1 + Z.of_nat i) buffer; Ret (l ++ [x])) []
               (seq 0 (Z.to_nat dataLen));
      type ← at_ TypeByteIdx buffer;
      command ← at_ CommandByteIdx buffer;
      sum ← at_ (SizeByteIdx + dataLen + 1) buffer;
      let packet := mk Success type command dataLen data sum true sender in
      buffer ← fastForward (4 + dataLen) buffer;
      if MaxType <=? type then Ret (set_status BadType packet, buffer)
      else
        expected ← checksum packet;
        Ret (if negb (sum =? expected) then set_status BadChecksum packet else packet, buffer).

(** [buffer[i] = x]. *)
Definition poke (buffer : list Z) (i : Z) (x : Z) : outcome (list Z) :=
  if (0 <=? i) && (i <? Z.of_nat (length buffer)) then Ret (<[Z.to_nat i := x]> buffer) else Fault OutOfBounds.

(** The buffer, which has [length buffer] bytes, and how many were written. *)
Definition encodeCommand (packet : RplethPacket.t) (buffer : list Z) : outcome (list Z * Z) :=
  if Z.of_nat (length buffer) <? dataLen packet + 5 then Ret (buffer, 0)
  else
    '(buffer, off) ← match sender packet with
      | Server => buffer ← poke buffer 0 (status packet); Ret (buffer, 1)
      | Client => Ret (buffer, 0)
      end;
    buffer ← poke buffer (off + TypeByteIdx) (type packet);
    buffer ← poke buffer (off + CommandByteIdx) (command packet);
    buffer ← poke buffer (off + SizeByteIdx) (dataLen packet);
    buffer ← foldM (fun buffer i => x ← data_at i packet; poke buffer (off + SizeByteIdx + Z.of_nat i + 1) x) buffer
               (seq 0 (Z.to_nat (dataLen packet)));
    sum ← checksum packet;
    buffer ← poke buffer (off + SizeByteIdx + dataLen packet + 1) sum;
    Ret (buffer, match sender packet with Server => dataLen packet + 4 + 1 | Client => dataLen packet + 4 end).

End RplethProtocol.
Import RplethProtocol.

(** * Specifications *)

(** The bytes written and not read yet, in order. *)
Definition contents (b : CircularBuffer.t) : list Z :=
  map (fun i => nth (Z.to_nat ((_rIdx b + Z.of_nat i) mod _size b)) (_buffer b) 0) (seq 0 (Z.to_nat (_toRead b))).

Record ring_ok (b : CircularBuffer.t) : Prop := {
  ro_size : 0 < _size b < 2 ^ 62;
  ro_length : Z.of_nat (length (_buffer b)) = _size b;
  ro_read : 0 <= _rIdx b < _size b;
  ro_count : 0 <= _toRead b <= _size b;
  ro_write : _wIdx b = (_rIdx b + _toRead b) mod _size b;
  ro_bytes : Forall is_byte (_buffer b);
}.

Definition xor_bytes (l : list Z) : Z := foldl Z.lxor 0 l.

(** A packet the code can send: its length is that of its data. *)
Record packet_ok (p : RplethPacket.t) : Prop := {
  po_length : dataLen p = Z.of_nat (length (data p));
  po_fits : dataLen p < 256;
}.

(** The form of a packet on the wire. *)
Definition header (p : RplethPacket.t) : list Z :=
  match sender p with Server => [status p] | Client => [] end ++ [type p; command p; dataLen p] ++ data p.
Definition wire (p : RplethPacket.t) : list Z := header p ++ [xor_bytes (header p)].

(** The first request of a queue of bytes, and what follows it. *)
Definition parse (l : list Z) : option (RplethPacket.t * list Z) :=
  match l with
  | ty :: cmd :: len :: rest =>
      let n := Z.to_nat len in
      match rest !! n with
      | Some sum =>
          let data := take n rest in
          let status := if MaxType <=? ty then BadType
                        else if sum =? xor_bytes (ty :: cmd :: len :: data) then Success else BadChecksum in
          Some (mk status ty cmd len data sum true Client, drop (S n) rest)
      | None => None
      end
  | _ => None
  end.

(** * The ring is a queue *)

Section ring.

(** The byte at an index, counted round the ring. *)
Definition cell (b : CircularBuffer.t) (i : Z) : Z := nth (Z.to_nat (i mod _size b)) (_buffer b) 0.

Lemma u64_small z : 0 <= z < 2 ^ 64 -> u64 z = z.
Proof. intros. unfold u64. by apply Z.mod_small. Qed.

Lemma contents_lookup b k : contents b !! k =
  if bool_decide (Z.of_nat k < _toRead b) then Some (cell b (_rIdx b + Z.of_nat k)) else None.
Proof.
  unfold contents. change (map ?f) with (fmap (M := list) f). rewrite list_lookup_fmap.
  case_bool_decide.
  - by rewrite lookup_seq_lt by lia.
  - by rewrite lookup_seq_ge by lia.
Qed.

Lemma length_contents b : ring_ok b -> Z.of_nat (length (contents b)) = _toRead b.
Proof. intros Hb. unfold contents. rewrite length_map, length_seq. pose proof (ro_count _ Hb). lia. Qed.

Lemma cell_mod b i j : i mod _size b = j mod _size b -> cell b i = cell b j.
Proof. unfold cell. by intros ->. Qed.

Lemma slot_ok b i : ring_ok b -> 0 <= i < 2 ^ 64 ->
  slot b i = Ret (Z.to_nat (i mod _size b)) /\ (Z.to_nat (i mod _size b) < length (_buffer b))%nat.
Proof.
  intros Hb Hi. pose proof (ro_size _ Hb). pose proof (ro_length _ Hb) as Hl.
  pose proof (Z.mod_pos_bound i (_size b) ltac:(lia)).
  unfold slot. rewrite u64_small by done. rewrite (proj2 (Z.eqb_neq _ _)) by lia.
  assert (Z.to_nat (i mod _size b) < length (_buffer b))%nat by lia. by rewrite bool_decide_eq_true_2.
Qed.

Lemma at_ok b i : ring_ok b -> 0 <= i < _toRead b -> at_ i b = Ret (nth (Z.to_nat i) (contents b) 0).
Proof.
  intros Hb Hi. pose proof (ro_size _ Hb). pose proof (ro_read _ Hb). pose proof (ro_count _ Hb). unfold at_.
  destruct (slot_ok b (_rIdx b + i) Hb ltac:(lia)) as [-> Hlt]. cbn. f_equal. symmetry. apply nth_lookup_Some.
  rewrite contents_lookup, bool_decide_eq_true_2 by lia. unfold cell. by rewrite Z2Nat.id by lia.
Qed.

Lemma at_read b i x : ring_ok b -> contents b !! i = Some x -> at_ (Z.of_nat i) b = Ret x.
Proof.
  intros Hb Hx. pose proof (lookup_lt_Some _ _ _ Hx) as Hlt. pose proof (length_contents b Hb).
  rewrite at_ok by (done || lia). rewrite Nat2Z.id. f_equal. by apply nth_lookup_Some.
Qed.

Lemma mod_distinct s w i j : 0 < s -> 0 <= i < s -> 0 <= j < s -> (w + i) mod s = (w + j) mod s -> i = j.
Proof.
  intros Hs Hi Hj E. pose proof (Z.div_mod (w + i) s ltac:(lia)) as E1.
  pose proof (Z.div_mod (w + j) s ltac:(lia)) as E2. rewrite E in E1.
  assert (i - j = s * ((w + i) / s - (w + j) / s)) by lia.
  assert ((w + i) / s - (w + j) / s = 0) by nia. nia.
Qed.

(** What [store] leaves as it was, and where it puts the bytes. *)
Lemma store_ok data i b : ring_ok b -> 0 <= i -> i + Z.of_nat (length data) <= _size b -> Forall is_byte data ->
  exists b', store i data b = Ret b' /\ ring_ok b' /\
    (_size b' = _size b /\ _rIdx b' = _rIdx b /\ _wIdx b' = _wIdx b /\ _toRead b' = _toRead b) /\
    forall d, 0 <= d < _size b -> cell b' (_wIdx b + d) =
      if (i <=? d) && (d <? i + Z.of_nat (length data)) then nth (Z.to_nat (d - i)) data 0 else cell b (_wIdx b + d).
Proof.
  revert i b. induction data as [|x data IH]; intros i b Hb Hi Hlen Hbytes; cbn [store length] in *.
  { exists b. split; [done|]. split; [done|]. split; [done|]. intros d Hd.
    destruct (Z.leb_spec i d), (Z.ltb_spec d (i + Z.of_nat 0)); cbn; done || lia. }
  apply Forall_cons in Hbytes as [Hx Hbytes].
  pose proof (ro_size _ Hb) as Hs. pose proof (ro_write _ Hb) as Hw.
  pose proof (Z.mod_pos_bound (_rIdx b + _toRead b) (_size b) ltac:(lia)) as Hwr. rewrite <- Hw in Hwr.
  destruct (slot_ok b (_wIdx b + i) Hb ltac:(lia)) as [-> Hk]. cbn [mbind outcome_bind].
  set (k := Z.to_nat ((_wIdx b + i) mod _size b)) in *.
  set (b1 := set_buffer (<[k:=x]> (_buffer b)) b).
  assert (Hb1 : ring_ok b1).
  { destruct Hb as [H1 H2 H3 H4 H5 H6]. split; cbn; try done; [by rewrite length_insert|].
    by apply Forall_insert. }
  assert (Hcell : forall d, 0 <= d < _size b -> cell b1 (_wIdx b + d) = if d =? i then x else cell b (_wIdx b + d)).
  { intros d Hd. unfold cell. cbn [b1 set_buffer _buffer _size].
    destruct (Z.eqb_spec d i) as [->|Hne].
    - apply nth_lookup_Some. by apply list_lookup_insert_eq.
    - rewrite !nth_lookup, list_lookup_insert_ne; [done|]. intros E. apply Hne.
      pose proof (Z.mod_pos_bound (_wIdx b + i) (_size b) ltac:(lia)).
      pose proof (Z.mod_pos_bound (_wIdx b + d) (_size b) ltac:(lia)).
      apply (mod_distinct (_size b) (_wIdx b)); lia. }
  destruct (IH (i + 1) b1 Hb1 ltac:(lia) ltac:(cbn; lia) Hbytes) as (b' & Hst & Hb' & Hsame & Hc).
  exists b'. split; [exact Hst|]. split; [exact Hb'|]. split; [exact Hsame|]. intros d Hd.
  change (_wIdx b1) with (_wIdx b) in Hc. rewrite Hc, Hcell by done.
  destruct (Z.eqb_spec d i) as [->|Hne].
  - rewrite (proj2 (Z.leb_gt (i + 1) i)) by lia. rewrite Z.leb_refl. cbn [andb].
    rewrite (proj2 (Z.ltb_lt i (i + Z.of_nat (S (length data))))) by lia. by rewrite Z.sub_diag.
  - assert (Heq : (i + 1 <=? d) = (i <=? d)) by (destruct (Z.leb_spec (i + 1) d), (Z.leb_spec i d); lia || done).
    rewrite Heq. replace (i + 1 + Z.of_nat (length data)) with (i + Z.of_nat (S (length data))) by lia.
    destruct (Z.leb_spec i d); [|done]. cbn [andb]. destruct (_ <? _); [|done].
    replace (Z.to_nat (d - i)) with (S (Z.to_nat (d - (i + 1)))) by lia. done.
Qed.

Lemma wrap s x : 0 < s -> 0 <= x < 2 * s -> x mod s = if x <? s then x else x - s.
Proof.
  intros Hs Hx. destruct (Z.ltb_spec x s); [apply Z.mod_small; lia|].
  symmetry. apply (Z.mod_unique x s 1); lia.
Qed.

(** The number of bytes [write] computes from the indices. *)
Lemma ring_count s r cnt : 0 < s < 2 ^ 62 -> 0 <= r < s -> 0 < cnt <= s ->
  (if r =? (r + cnt) mod s then s else u64 (u64 ((r + cnt) mod s - r) + s) mod s) = cnt.
Proof.
  intros Hs Hr Hc. rewrite (wrap s (r + cnt)) by lia.
  assert (Hu : forall x, - s < x -> x < s -> u64 (u64 x + s) = x + s).
  { intros x H1 H2. unfold u64. rewrite Zplus_mod_idemp_l. apply Z.mod_small. lia. }
  destruct (Z.ltb_spec (r + cnt) s).
  - rewrite (proj2 (Z.eqb_neq r _)) by lia. rewrite Hu, wrap by lia.
    destruct (Z.ltb_spec (r + cnt - r + s) s); lia.
  - destruct (Z.eqb_spec r (r + cnt - s)); [lia|]. rewrite Hu, wrap by lia.
    destruct (Z.ltb_spec (r + cnt - s - r + s) s); lia.
Qed.

(** Cells counted from the write index, counted from the read index. *)
Lemma cells_from_read b b2 n (f : Z -> Z) : ring_ok b -> _size b2 = _size b ->
  (forall d, 0 <= d < _size b -> cell b2 (_wIdx b + d) = if d <? n then f d else cell b (_wIdx b + d)) ->
  forall j, 0 <= j < _size b -> cell b2 (_rIdx b + j) =
    (let d := if j <? _toRead b then _size b - _toRead b + j else j - _toRead b in
     if d <? n then f d else cell b (_rIdx b + j)).
Proof.
  intros Hb Hs2 Hcell j Hj. pose proof (ro_count _ Hb). cbn zeta.
  set (d := if j <? _toRead b then _size b - _toRead b + j else j - _toRead b).
  assert (Hd : 0 <= d < _size b) by (unfold d; destruct (Z.ltb_spec j (_toRead b)); lia).
  assert (Hm : (_rIdx b + j) mod _size b = (_wIdx b + d) mod _size b).
  { rewrite (ro_write _ Hb), Zplus_mod_idemp_l. unfold d. destruct (_ <? _); [|f_equal; lia].
    rewrite <- (Z_mod_plus_full (_rIdx b + j) 1). f_equal. lia. }
  rewrite (cell_mod b2 _ (_wIdx b + d)) by (by rewrite Hs2). rewrite (cell_mod b _ (_wIdx b + d)) by exact Hm.
  by apply Hcell.
Qed.

(** The bytes that can be read after [n] of them were put at the write index. *)
Lemma contents_written b b2 data cnt : ring_ok b -> Z.of_nat (length data) <= _size b ->
  let n := Z.of_nat (length data) in
  cnt = (if bool_decide (_toRead b + n <= _size b) then _toRead b + n else _toRead b + n - _size b) ->
  _size b2 = _size b -> _rIdx b2 = _rIdx b -> _toRead b2 = cnt ->
  (forall d, 0 <= d < _size b -> cell b2 (_wIdx b + d) = if d <? n then nth (Z.to_nat d) data 0 else cell b (_wIdx b + d)) ->
  contents b2 = if bool_decide (_toRead b + n <= _size b) then contents b ++ data
                else drop (Z.to_nat (_size b)) (contents b ++ data).
Proof.
  intros Hb Hlen n -> Hs2 Hr2 Hc2 Hcell. pose proof (length_contents b Hb). pose proof (ro_count _ Hb).
  pose proof (cells_from_read b b2 n _ Hb Hs2 Hcell) as Hold. cbn zeta in Hold. clear Hcell.
  assert (Hnth : forall j, 0 <= j < n -> data !! Z.to_nat j = Some (nth (Z.to_nat j) data 0)).
  { intros j Hj. destruct (lookup_lt_is_Some_2 data (Z.to_nat j)) as [x Hx]; [lia|]. by rewrite nth_lookup, Hx. }
  apply list_eq. intros k. rewrite contents_lookup, Hc2, Hr2.
  case_bool_decide as Hfit; case_bool_decide as Hk.
  - rewrite Hold by lia. destruct (Z.ltb_spec (Z.of_nat k) (_toRead b)).
    + rewrite (proj2 (Z.ltb_ge _ n)) by lia. rewrite lookup_app_l by lia.
      by rewrite contents_lookup, bool_decide_eq_true_2 by lia.
    + rewrite (proj2 (Z.ltb_lt _ n)) by lia. rewrite lookup_app_r, <- Hnth by lia. f_equal. lia.
  - symmetry. apply lookup_ge_None. rewrite length_app. lia.
  - rewrite lookup_drop, Hold by lia. rewrite (proj2 (Z.ltb_lt _ (_toRead b))) by lia.
    rewrite (proj2 (Z.ltb_lt _ n)) by lia. rewrite lookup_app_r, <- Hnth by lia. f_equal. lia.
  - symmetry. apply lookup_ge_None. rewrite length_drop, length_app. lia.
Qed.

(** What can be read after a write: everything while it fits; after that, only
    what came after the first [_size] bytes. *)
Lemma write_ok data b : ring_ok b -> Z.of_nat (length data) <= _size b -> Forall is_byte data ->
  exists b', write data b = Ret (b', Z.of_nat (length data)) /\ ring_ok b' /\ _size b' = _size b /\
    contents b' = (let l := contents b ++ data in
                   if bool_decide (Z.of_nat (length l) <= _size b) then l else drop (Z.to_nat (_size b)) l).
Proof.
  intros Hb Hlen Hbytes. pose proof (ro_size _ Hb) as Hs. pose proof (ro_count _ Hb) as Hn.
  pose proof (length_contents b Hb) as Hlc. pose proof (ro_read _ Hb) as Hr. pose proof (ro_write _ Hb) as Hw.
  unfold write. rewrite (proj2 (Z.ltb_ge (_size b) _)) by lia. rewrite orb_false_r.
  destruct (Z.eqb_spec (Z.of_nat (length data)) 0) as [E|E].
  { destruct data; [|discriminate]. exists b. cbn zeta. rewrite app_nil_r, bool_decide_eq_true_2 by lia. done. }
  destruct (store_ok data 0 b Hb ltac:(lia) ltac:(lia) Hbytes) as (b1 & -> & Hb1 & (S1 & S2 & S3 & S4) & Hc).
  cbn [mbind outcome_bind]. rewrite S1, S2, S3. cbn zeta. rewrite length_app, Nat2Z.inj_add, Hlc.
  set (n := Z.of_nat (length data)) in *.
  pose proof (Z.mod_pos_bound (_rIdx b + _toRead b) (_size b) ltac:(lia)) as Hwr. rewrite <- Hw in Hwr.
  rewrite u64_small by lia.
  set (cnt := if bool_decide (_toRead b + n <= _size b) then _toRead b + n else _toRead b + n - _size b).
  assert (Hcnt : 0 < cnt <= _size b) by (unfold cnt; case_bool_decide; lia).
  assert (Hwe : (_wIdx b + n) mod _size b = (_rIdx b + cnt) mod _size b).
  { rewrite Hw, Zplus_mod_idemp_l. unfold cnt. case_bool_decide; [by rewrite Z.add_assoc|].
    rewrite <- (Z_mod_plus_full (_rIdx b + _) 1). f_equal. lia. }
  rewrite Hwe, ring_count by lia. eexists. split; [reflexivity|].
  split; [|split; [done|]].
  { destruct Hb1 as [H1 H2 H3 H4 H5 H6]. split; cbn; rewrite <- ?S1; done || lia. }
  apply (contents_written b _ data cnt Hb Hlen); try done.
  intros d Hd. specialize (Hc d Hd). rewrite (proj2 (Z.leb_le 0 d)) in Hc by lia. cbn [andb] in Hc.
  rewrite Z.sub_0_r, Z.add_0_l in Hc.
  transitivity (cell b1 (_wIdx b + d)); [|exact Hc]. unfold cell. cbn. by rewrite S1.
Qed.

Lemma fastForward_ok n b : ring_ok b -> 0 <= n ->
  exists b', fastForward n b = Ret b' /\ ring_ok b' /\ _size b' = _size b /\
    contents b' = drop (Z.to_nat n) (contents b).
Proof.
  intros Hb Hn. pose proof (ro_size _ Hb) as Hs. pose proof (ro_count _ Hb) as Hc. pose proof (ro_read _ Hb) as Hr.
  unfold fastForward. rewrite (proj2 (Z.eqb_neq _ _)) by lia.
  set (m := if _toRead b <? n then _toRead b else n).
  assert (Hm : 0 <= m <= _toRead b /\ (m = n \/ _toRead b < n /\ m = _toRead b))
    by (unfold m; destruct (Z.ltb_spec (_toRead b) n); lia).
  clearbody m. rewrite u64_small by lia. eexists. split; [reflexivity|]. split; [|split; [done|]].
  { pose proof (Z.mod_pos_bound (_rIdx b + m) (_size b) ltac:(lia)). destruct Hb as [H1 H2 H3 H4 H5 H6].
    split; cbn; try done; try lia. rewrite Zplus_mod_idemp_l, H5. f_equal. lia. }
  apply list_eq. intros k. rewrite lookup_drop, !contents_lookup. cbn [_toRead _rIdx].
  repeat case_bool_decide; try lia; [|done].
  f_equal. unfold cell. cbn [_size _buffer]. rewrite Zplus_mod_idemp_l. do 3 f_equal. lia.
Qed.

End ring.

(** * The protocol *)

Section protocol.

Lemma contents_bytes b : ring_ok b -> Forall is_byte (contents b).
Proof.
  intros Hb. apply Forall_lookup. intros k x. rewrite contents_lookup. case_bool_decide; [|done].
  intros [= <-]. unfold cell. pose proof (ro_size _ Hb). pose proof (ro_length _ Hb).
  rewrite nth_lookup. destruct (_buffer b !! _) eqn:E; [|by cbn].
  by apply (proj1 (Forall_lookup _ _) (ro_bytes _ Hb) _ _ E).
Qed.

Lemma checksum_ok p : packet_ok p -> checksum p = Ret (xor_bytes (header p)).
Proof.
  intros [Hl Hf]. unfold checksum. rewrite Hl, Nat2Z.id.
  rewrite (foldM_index (fun i => data_at i p) (fun s x => Ret (Z.lxor s x)) (data p) 0).
  - rewrite foldM_foldl. unfold xor_bytes, header. rewrite !foldl_app, Hl. by destruct (sender p).
  - intros i x Hx. unfold data_at. cbn. by rewrite Hx.
Qed.

Lemma read_data b k l rest pre : ring_ok b -> contents b = pre ++ l ++ rest -> length pre = k ->
  foldM (fun l i => x ← at_ (Z.of_nat k + Z.of_nat i) b; Ret (l ++ [x])) [] (seq 0 (length l)) = Ret l.
Proof.
  intros Hb Hc Hk.
  rewrite (foldM_index (fun i => at_ (Z.of_nat k + Z.of_nat i) b) (fun l x => Ret (l ++ [x])) l 0).
  - by rewrite foldM_foldl, foldl_snoc.
  - intros i x Hx. rewrite <- Nat2Z.inj_add. apply at_read; [done|]. cbn. rewrite Hc, <- Hk, lookup_app_r by lia.
    replace (length pre + i - length pre)%nat with i by lia. by apply lookup_app_l_Some.
Qed.

(** Decoding is parsing the queue. *)
Lemma decode_ok b : ring_ok b ->
  match parse (contents b) with
  | Some (p, rest) => exists b', decodeCommand b false = Ret (p, b') /\ ring_ok b' /\ _size b' = _size b /\ contents b' = rest
  | None => exists p, decodeCommand b false = Ret (p, b) /\ isGood p = false
  end.
Proof.
  intros Hb. pose proof (length_contents b Hb) as Hlen. pose proof (contents_bytes b Hb) as Hbytes.
  unfold decodeCommand. cbn [mbind outcome_bind]. unfold toRead, PacketMinSize.
  assert (Hget : forall i x, contents b !! i = Some x -> at_ (Z.of_nat i) b = Ret x) by (intros; by apply at_read).
  destruct (Z.ltb_spec (_toRead b) 4) as [Hlt|Hge].
  { destruct (contents b) as [|ty [|cmd [|len rest]]]; cbn [parse]; try (by eexists).
    cbn in Hlen. destruct rest; [|cbn in Hlen; lia]. cbn. by eexists. }
  destruct (contents b) as [|ty [|cmd [|len rest]]] eqn:Ec; try (cbn in Hlen; lia). cbn [parse].
  assert (Hl : 0 <= len < 256) by (apply (proj1 (Forall_lookup _ _) Hbytes 2%nat len eq_refl)).
  rewrite (Hget 2%nat len eq_refl : at_ SizeByteIdx b = _). cbn [mbind outcome_bind].
  destruct (rest !! Z.to_nat len) as [sum|] eqn:Es.
  - assert (Hlt : (Z.to_nat len < length rest)%nat) by (by eapply lookup_lt_Some).
    cbn in Hlen. rewrite (proj2 (Z.ltb_ge _ _)) by lia.
    set (l := take (Z.to_nat len) rest). assert (Hll : length l = Z.to_nat len) by (apply length_take_le; lia).
    assert (Hrd : foldM (fun l i => x ← at_ (SizeByteIdx + 1 + Z.of_nat i) b; Ret (l ++ [x])) [] (seq 0 (Z.to_nat len)) = Ret l).
    { rewrite <- Hll. apply (read_data b 3 l (drop (Z.to_nat len) rest) [ty; cmd; len] Hb); [|done].
      rewrite Ec. unfold l. by rewrite take_drop. }
    rewrite Hrd. cbn [mbind outcome_bind].
    rewrite (Hget 0%nat ty eq_refl : at_ TypeByteIdx b = _), (Hget 1%nat cmd eq_refl : at_ CommandByteIdx b = _).
    cbn [mbind outcome_bind].
    assert (Hsum : at_ (SizeByteIdx + len + 1) b = Ret sum).
    { replace (SizeByteIdx + len + 1) with (Z.of_nat (3 + Z.to_nat len)) by (unfold SizeByteIdx; lia). by apply Hget. }
    rewrite Hsum. cbn [mbind outcome_bind].
    destruct (fastForward_ok (4 + len) b Hb ltac:(lia)) as (b' & -> & Hb' & Hs' & Hc'). cbn [mbind outcome_bind].
    rewrite Ec in Hc'. replace (Z.to_nat (4 + len)) with (S (S (S (S (Z.to_nat len))))) in Hc' by lia. cbn [drop] in Hc'.
    destruct (_ <=? _); [by exists b'|].
    rewrite checksum_ok by (split; cbn; lia). cbn [mbind outcome_bind header RplethPacket.sender type command dataLen data app].
    exists b'. by destruct (sum =? _).
  - apply lookup_ge_None in Es. cbn in Hlen. rewrite (proj2 (Z.ltb_lt _ _)) by lia. by eexists.
Qed.

(** A buffer whose first bytes were written over. *)
Definition over (done buffer : list Z) : list Z := done ++ drop (length done) buffer.

Lemma poke_over done buffer x i : i = Z.of_nat (length done) -> (length done < length buffer)%nat ->
  poke (over done buffer) i x = Ret (over (done ++ [x]) buffer).
Proof.
  intros -> Hlt. destruct (lookup_lt_is_Some_2 buffer (length done) Hlt) as [y Hy].
  unfold poke, over. rewrite length_app, length_drop, (proj2 (Z.leb_le 0 _)), (proj2 (Z.ltb_lt _ _)) by lia. cbn [andb].
  f_equal. rewrite Nat2Z.id, insert_app_r_alt, Nat.sub_diag, (drop_S _ _ _ Hy) by lia. cbn [insert list_insert].
  rewrite <- app_assoc, length_app. cbn. do 3 f_equal. lia.
Qed.

(** The loop over the data. *)
Lemma poke_data done l buffer (get : nat -> outcome Z) (idx : nat -> Z) :
  (forall i x, l !! i = Some x -> get i = Ret x) -> (forall i, idx i = Z.of_nat (length done + i)) ->
  (length done + length l <= length buffer)%nat ->
  foldM (fun buffer i => x ← get i; poke buffer (idx i) x) (over done buffer) (seq 0 (length l)) =
  Ret (over (done ++ l) buffer).
Proof.
  intros Hget Hidx. assert (Hgen : forall k l done', (forall i x, l !! i = Some x -> get (k + i)%nat = Ret x) ->
    length done' = (length done + k)%nat -> (length done' + length l <= length buffer)%nat ->
    foldM (fun buffer i => x ← get i; poke buffer (idx i) x) (over done' buffer) (seq k (length l)) =
    Ret (over (done' ++ l) buffer)).
  { clear l Hget. intros k l. revert k. induction l as [|x l IH]; intros k done' Hget Hd Hlen; [by rewrite app_nil_r|].
    cbn [length seq foldM] in *. pose proof (Hget 0%nat x eq_refl) as H0. rewrite Nat.add_0_r in H0. rewrite H0.
    cbn [mbind outcome_bind]. rewrite poke_over by (rewrite ?Hidx; lia). cbn [mbind outcome_bind].
    rewrite (IH (S k)); [by rewrite <- app_assoc| |rewrite length_app; cbn; lia|rewrite length_app; cbn; lia].
    intros i z Hz. replace (S k + i)%nat with (k + S i)%nat by lia. by apply Hget. }
  apply (Hgen 0%nat); [done|lia].
Qed.

Lemma length_wire p : packet_ok p ->
  Z.of_nat (length (wire p)) = match sender p with Server => dataLen p + 4 + 1 | Client => dataLen p + 4 end.
Proof.
  intros [Hl _]. unfold wire, header. rewrite !length_app, Hl. destruct (sender p); cbn; lia.
Qed.

(** Encoding is writing [wire], when the buffer has room. *)
Lemma encode_ok p buffer : packet_ok p ->
  encodeCommand p buffer =
  if Z.of_nat (length buffer) <? dataLen p + 5 then Ret (buffer, 0)
  else Ret (over (wire p) buffer, Z.of_nat (length (wire p))).
Proof.
  intros Hp. unfold encodeCommand. destruct (Z.ltb_spec (Z.of_nat (length buffer)) (dataLen p + 5)) as [|Hroom]; [done|].
  pose proof (po_length _ Hp) as Hl. pose proof (length_wire p Hp) as Hw.
  set (pre := match sender p with Server => [status p] | Client => [] end).
  assert (Hpre : (match sender p with
    | Server => buffer ← poke buffer 0 (status p); Ret (buffer, 1)
    | Client => Ret (buffer, 0)
    end) = Ret (over pre buffer, Z.of_nat (length pre))).
  { unfold pre. destruct (sender p); [done|]. change buffer with (over [] buffer) at 1.
    rewrite poke_over by (cbn; lia). done. }
  assert (Hlp : (length pre <= 1)%nat) by (unfold pre; destruct (sender p); cbn; lia).
  rewrite Hpre. cbn [mbind outcome_bind]. unfold TypeByteIdx, CommandByteIdx, SizeByteIdx.
  do 3 (rewrite poke_over; [cbn [mbind outcome_bind]|rewrite ?length_app; cbn; lia|rewrite ?length_app; cbn; lia]).
  rewrite Hl, Nat2Z.id, checksum_ok by done.
  rewrite poke_data; [|intros i x Hx; unfold data_at; by rewrite Hx|intros i; rewrite !length_app; cbn; lia|
    rewrite !length_app; cbn; lia].
  cbn [mbind outcome_bind]. rewrite poke_over by (rewrite !length_app; cbn; lia). cbn [mbind outcome_bind].
  rewrite Hw, Hl. unfold wire, header. fold pre. rewrite Hl, <- !app_assoc. cbn [app]. by destruct (sender p).
Qed.

End protocol.

(** * Properties *)

Lemma xor_bytes_snoc l x : xor_bytes (l ++ [x]) = Z.lxor (xor_bytes l) x.
Proof. unfold xor_bytes. by rewrite foldl_app. Qed.

(** A well-formed request, followed by anything, is parsed. *)
Lemma parse_wire p rest : packet_ok p -> sender p = Client -> type p < MaxType -> Forall is_byte (data p) ->
  parse (wire p ++ rest) =
  Some (mk Success (type p) (command p) (dataLen p) (data p) (xor_bytes (header p)) true Client, rest).
Proof.
  intros [Hl Hf] Hs Ht Hb. unfold wire, header. rewrite Hs. cbn [app]. rewrite <- app_assoc. cbn [parse].
  rewrite Hl, Nat2Z.id, lookup_app_r, Nat.sub_diag by lia. cbn [lookup list_lookup app].
  rewrite take_app_length, (proj2 (Z.leb_gt _ _)) by done. rewrite Z.eqb_refl.
  do 2 f_equal. replace (S (length (data p))) with (length (data p) + 1)%nat by lia.
  by rewrite drop_app_add.
Qed.

(** C10: (refinement) A ring is a queue of bytes. On a well-formed ring, and as
    long as what is written fits, writing appends to the bytes to read, reading
    at an index gives the byte there and never leaves the buffer, and
    fast-forwarding drops bytes from the front; each leaves the ring well
    formed. *)
Theorem ring_refines_queue b : ring_ok b ->
  (forall bytes, _toRead b + Z.of_nat (length bytes) <= _size b -> Forall is_byte bytes ->
     exists b', write bytes b = Ret (b', Z.of_nat (length bytes)) /\ ring_ok b' /\ contents b' = contents b ++ bytes) /\
  (forall i x, contents b !! i = Some x -> at_ (Z.of_nat i) b = Ret x) /\
  (forall n, exists b', fastForward (Z.of_nat n) b = Ret b' /\ ring_ok b' /\ contents b' = drop n (contents b)) /\
  (ring_ok (reset b) /\ contents (reset b) = []).
Proof.
  intros Hb. pose proof (ro_count _ Hb) as Hc. pose proof (length_contents b Hb) as Hlc. split; [|split; [|split]].
  - intros bytes Hfit Hby. destruct (write_ok bytes b Hb ltac:(lia) Hby) as (b' & Hw & Hb' & _ & Hcon).
    exists b'. split; [done|]. split; [done|]. rewrite Hcon. cbn zeta.
    by rewrite bool_decide_eq_true_2 by (rewrite length_app; lia).
  - intros i x. by apply at_read.
  - intros n. destruct (fastForward_ok (Z.of_nat n) b Hb ltac:(lia)) as (b' & Hf & Hb' & _ & Hcon).
    exists b'. by rewrite Hcon, Nat2Z.id.
  - split; [|done]. destruct Hb as [H1 H2 H3 H4 H5 H6]. split; cbn; done || lia.
Qed.

(** (error) Writing more than fits is reported as a success and loses
    bytes: all that was unread, and the beginning of what was written. What can be
    read afterwards is only what came after the first [_size] bytes. *)
Theorem ring_overflow b bytes : ring_ok b -> Forall is_byte bytes ->
  Z.of_nat (length bytes) <= _size b < _toRead b + Z.of_nat (length bytes) ->
  exists b', write bytes b = Ret (b', Z.of_nat (length bytes)) /\
    contents b' = drop (Z.to_nat (_size b - _toRead b)) bytes.
Proof.
  intros Hb Hby [Hle Hlt]. pose proof (length_contents b Hb) as Hlc. pose proof (ro_count _ Hb) as Hc.
  destruct (write_ok bytes b Hb Hle Hby) as (b' & Hw & _ & _ & Hcon). exists b'. split; [done|].
  rewrite Hcon. cbn zeta. rewrite bool_decide_eq_false_2 by (rewrite length_app; lia).
  rewrite drop_app_ge by lia. f_equal. lia.
Qed.

(** C40: (bounds) Encoding stays within the buffer it is given, whatever its
    size: it writes either nothing, when the buffer is smaller than the data plus
    five bytes, or the packet's wire form at the beginning, and returns how many
    bytes it wrote. *)
Theorem encode_within_bounds p buffer : packet_ok p ->
  exists buffer' n, encodeCommand p buffer = Ret (buffer', Z.of_nat n) /\ length buffer' = length buffer /\
    drop n buffer' = drop n buffer /\
    take n buffer' = (if Z.of_nat (length buffer) <? dataLen p + 5 then [] else wire p).
Proof.
  intros Hp. rewrite encode_ok by done. destruct (Z.ltb_spec (Z.of_nat (length buffer)) (dataLen p + 5)) as [|Hroom].
  { by exists buffer, 0%nat. }
  pose proof (length_wire p Hp) as Hw. exists (over (wire p) buffer), (length (wire p)). unfold over.
  split; [done|]. split; [|by rewrite drop_app_length, take_app_length].
  rewrite length_app, length_drop. destruct (sender p); lia.
Qed.

(** C35: (roundtrip) What is encoded is decoded. A request encoded into a buffer
    with room for it, written to the ring of a client with room for it after
    whole requests, is decoded as the same request, with status [Success], and the
    ring is left with what followed it. *)
Theorem packet_roundtrip p buffer buffer' n b rest :
  packet_ok p -> sender p = Client -> type p < MaxType -> Forall is_byte (data p) ->
  encodeCommand p buffer = Ret (buffer', Z.of_nat n) -> n <> 0%nat ->
  ring_ok b -> contents b = take n buffer' ++ rest ->
  exists b', decodeCommand b false =
      Ret (mk Success (type p) (command p) (dataLen p) (data p) (xor_bytes (header p)) true Client, b') /\
    ring_ok b' /\ contents b' = rest.
Proof.
  intros Hp Hs Ht Hby Henc Hn Hb Hc. rewrite encode_ok in Henc by done.
  destruct (_ <? _); [injection Henc; intros; lia|]. injection Henc as <- Hlen. apply Nat2Z.inj in Hlen as <-.
  pose proof (decode_ok b Hb) as Hd. unfold over in Hc. rewrite take_app_length in Hc.
  rewrite Hc, parse_wire in Hd by done. destruct Hd as (b' & Hd & Hb' & _ & Hc'). by exists b'.
Qed.

(** ** Witnesses *)

Definition ping : RplethPacket.t := mk 0 0 10 3 [1; 2; 255] 0 false Client.
Definition small_ring : CircularBuffer.t := CircularBuffer.mk [7; 8; 9; 0; 0; 0; 0; 6] 8 7 3 4.

Lemma ping_ok : packet_ok ping.
Proof. by split. Qed.

Lemma small_ring_ok : ring_ok small_ring.
Proof. split; cbn; try lia; [done|]. repeat constructor; unfold is_byte; lia. Qed.

Lemma ring_refines_queue_witness :
  contents small_ring = [6; 7; 8; 9] /\
  exists b', write [1; 2; 3; 4] small_ring = Ret (b', 4) /\ contents b' = [6; 7; 8; 9; 1; 2; 3; 4].
Proof.
  split; [reflexivity|]. destruct (ring_refines_queue small_ring small_ring_ok) as (Hw & _).
  destruct (Hw [1; 2; 3; 4]) as (b' & H1 & _ & H2); [cbn; lia|repeat constructor; unfold is_byte; lia|].
  exists b'. split; [exact H1|exact H2].
Defined.

Lemma ring_overflow_witness :
  exists b', write [1; 2; 3; 4; 5; 10] small_ring = Ret (b', 6) /\ contents b' = [5; 10].
Proof.
  destruct (ring_overflow small_ring [1; 2; 3; 4; 5; 10] small_ring_ok) as (b' & H1 & H2).
  - repeat constructor; unfold is_byte; lia.
  - cbn; lia.
  - exists b'. split; [exact H1|exact H2].
Defined.

Lemma encode_within_bounds_witness :
  exists buffer' n, encodeCommand ping [9; 9; 9; 9; 9; 9; 9; 9; 9] = Ret (buffer', Z.of_nat n) /\
    take n buffer' = [0; 10; 3; 1; 2; 255; 245].
Proof.
  destruct (encode_within_bounds ping [9; 9; 9; 9; 9; 9; 9; 9; 9] ping_ok) as (buffer' & n & H1 & _ & _ & H2).
  exists buffer', n. split; [exact H1|exact H2].
Defined.

Lemma packet_roundtrip_witness :
  exists b b', write [0; 10; 3; 1; 2; 255; 245; 77] (CircularBuffer.make 10) = Ret (b, 8) /\
    decodeCommand b false = Ret (mk Success 0 10 3 [1; 2; 255] 245 true Client, b') /\ contents b' = [77].
Proof.
  assert (H0 : ring_ok (CircularBuffer.make 10)) by (split; cbn; try lia; repeat constructor; unfold is_byte; lia).
  destruct (write_ok [0; 10; 3; 1; 2; 255; 245; 77] _ H0) as (b & Hw & Hb & _ & Hc);
    [cbn; lia|repeat constructor; unfold is_byte; lia|].
  destruct (packet_roundtrip ping [9; 9; 9; 9; 9; 9; 9; 9; 9] [0; 10; 3; 1; 2; 255; 245; 9; 9] 7 b [77])
    as (b' & H1 & _ & H2).
  - exact ping_ok.
  - reflexivity.
  - reflexivity.
  - repeat constructor; unfold is_byte; lia.
  - vm_compute. reflexivity.
  - discriminate.
  - exact Hb.
  - exact Hc.
  - exists b, b'. split; [exact Hw|]. split; [exact H1|exact H2].
Defined.
