(* ===== verification/Rpleth.v ===== *)
(** The Rpleth module, [src/modules/rpleth/RplethModule.cpp]: clients connect
    over TCP, send requests about a reader, the cards it read and the network
    configuration, and are sent the badges the reader reads.

    The TCP socket belongs to ZeroMQ: [Clients] is a parameter, whose [send_to]
    says whether the message went out. The kernel and the reader answer as
    [Peers] do. The network configuration travels as an archive of a property
    tree, which Boost writes and reads: [NetTree]. The machine is little-endian,
    as [htonll] checks. *)
From Stdlib Require Import ZArith Lia Ascii String.
From stdpp Require Import base tactics numbers list strings.
From S2P Require Import Prelude Facades Ptree Reader Strategies Device Credentials RplethProtocol.
Import CircularBuffer RplethPacket RplethProtocol.

Open Scope Z_scope.

(** [server_.send(msg, true)]: these bytes, to this client; [false] when it would
    block. *)
Class Clients (W : Type) := { send_to : string -> list Z -> W -> W * bool }.

(** Trees that can be changed, and their archives. *)
Class NetTree (T : Type) `{PropertyTree T} := {
  erase : string -> T -> T;
  put : string -> string -> T -> T;
  save : T -> string;
  load : string -> option T;
}.

Module RplethModule.

(** The cards of the attendance list, those of it that were read, and what is to
    be streamed. *)
Record cards := mk_cards {
  cards_pushed_ : list string;
  cards_read_ : list string;
  cards_read_stream_ : list (string * Z);
}.

Record t := mk {
  lists : cards;
  clients_ : list (string * CircularBuffer.t);   (* ordered by name *)
  failed_clients_ : list string;
  reader_ : string;
  stream_mode_ : bool;
}.

Definition set_lists (c : cards) (m : t) : t :=
  mk c (clients_ m) (failed_clients_ m) (reader_ m) (stream_mode_ m).
Definition set_clients (l : list (string * CircularBuffer.t)) (m : t) : t :=
  mk (lists m) l (failed_clients_ m) (reader_ m) (stream_mode_ m).
Definition set_failed (l : list string) (m : t) : t :=
  mk (lists m) (clients_ m) l (reader_ m) (stream_mode_ m).

(** [std::map]'s [find], [erase], and assignment to an element. *)
Definition find_client (name : string) (l : list (string * CircularBuffer.t)) : option CircularBuffer.t :=
  snd <$> List.find (fun c => String.eqb c.1 name) l.
Definition erase_client (name : string) (l : list (string * CircularBuffer.t)) : list (string * CircularBuffer.t) :=
  List.filter (fun c => negb (String.eqb c.1 name)) l.
Fixpoint put_client (name : string) (b : CircularBuffer.t) (l : list (string * CircularBuffer.t))
  : list (string * CircularBuffer.t) :=
  match l with
  | [] => [(name, b)]
  | (n, b') :: l =>
      if String.eqb name n then (n, b) :: l
      else if String.ltb name n then (name, b) :: (n, b') :: l
      else (n, b') :: put_client name b l
  end.

Definition client_connected (identity : string) (m : t) : bool :=
  bool_decide (is_Some (find_client identity (clients_ m))).
Definition client_failed (identity : string) (m : t) : bool :=
  existsb (String.eqb identity) (failed_clients_ m).

(** [std::list::unique]. *)
Fixpoint unique (l : list string) : list string :=
  match l with
  | a :: (b :: _) as l' => if String.eqb a b then unique l' else a :: unique l'
  | _ => l
  end.

(** The cards of a [SendCards] packet: what the loops find between pipes. *)
Fixpoint split_cards (card : list ascii) (data : list Z) : list string :=
  match data with
  | [] => [text card]
  | b :: data =>
      if b =? 124 then text card :: (match data with [] => [] | _ :: _ => split_cards [] data end)
      else split_cards (card ++ [chr b]) data
  end.

Definition rpleth_send_cards (packet : RplethPacket.t) (c : cards) : cards :=
  mk_cards (unique (match data packet with [] => [] | l => split_cards [] l end)) [] (cards_read_stream_ c).

(** A card, as the client gets it. *)
Definition card_bytes (card : string) : list Z := map code (drop_colons (chars card)) ++ [124].

Definition rpleth_receive_cards (packet : RplethPacket.t) (c : cards) : RplethPacket.t :=
  match data packet with
  | [b] =>
      let to_send :=
        if b =? 1 then cards_read_ c
        else List.filter (fun card => negb (existsb (String.eqb card) (cards_read_ c))) (cards_pushed_ c) in
      set_data (flat_map card_bytes to_send) packet
  | _ => packet
  end.

(** [htonl] on a little-endian machine, and the bytes [memcpy] finds. *)
Definition htonl (z : Z) : Z :=
  Z.lor (Z.lor (Z.shiftl (Z.land z 0xff) 24) (Z.shiftl (Z.land z 0xff00) 8))
        (Z.lor (Z.land (Z.shiftr z 8) 0xff00) (Z.land (Z.shiftr z 24) 0xff)).
Definition htonll (value : Z) : Z :=
  let high_part := htonl (Z.land (Z.shiftr value 32) 0xFFFFFFFF) in
  let low_part := htonl (Z.land value 0xFFFFFFFF) in
  Z.lor (Z.shiftl low_part 32) high_part.
Definition memory_bytes (n : nat) (z : Z) : list Z :=
  map (fun i => Z.land (Z.shiftr z (8 * Z.of_nat i)) 0xff) (seq 0 n).

Definition card_convert_from_text (card_info : string * Z) : outcome (list Z) :=
  wc ← RFIDCard.set_card_id card_info.1 RFIDCard.default;
  wc ← RFIDCard.set_nb_bits card_info.2 wc;
  num ← RFIDCard.to_raw_int wc;
  Ret (memory_bytes 8 (htonll num)).

Definition kernel : string := "leosac-kernel".

Section module.
Context {W : Type} `{Peers W, Clients W} {T : Type} `{PropertyTree T, !NetTree T}.

Definition send (identity : string) (bytes : list Z) : io W bool := fun w =>
  let '(w', ok) := send_to identity bytes w in (w', Ret ok).

(** ** Requests about the reader *)

(** Both handlers: on at 1, off at 0. *)
Definition rpleth_beep (reader : string) (packet : RplethPacket.t) : io W unit :=
  match data packet with
  | [] => mret tt
  | b :: _ =>
      if b =? 1 then _ ← FWiegandReader.buzzerOn reader; mret tt
      else if b =? 0 then _ ← FWiegandReader.buzzerOff reader; mret tt
      else mret tt
  end.

Definition rpleth_greenled (reader : string) (packet : RplethPacket.t) : io W unit :=
  match data packet with
  | [] => mret tt
  | b :: _ =>
      if b =? 1 then _ ← FWiegandReader.greenLedOn reader; mret tt
      else if b =? 0 then _ ← FWiegandReader.greenLedOff reader; mret tt
      else mret tt
  end.

(** ** Requests about the network *)

Definition get_network_config : io W T :=
  response ← ask kernel [FStr "GET_NETCONFIG"];
  _ ← pure (cassert (Z.of_nat (length response) =? 1));
  data ← text_of response;
  match load data with
  | Some tree => mret tree
  | None => pure (Throw (StdRuntimeError "archive"))
  end.

Definition push_network_config (tree : T) : io W bool :=
  ret ← ask kernel [FStr "SET_NETCONFIG"; FStr (save tree)];
  s ← text_of ret;
  mret (String.eqb s "OK").

Definition restart_reader : io W unit :=
  ret ← ask kernel [FStr "RESTART"];
  _ ← text_of ret;
  mret tt.

Definition reply (status_ command_ : Z) (data_ : list Z) : RplethPacket.t :=
  RplethPacket.mk status_ Rpleth command_ (Z.of_nat (length data_)) data_ 0 false Server.

(** What throws leaves the reply as it is by then: a success, without data. *)
Definition get_dhcp_state : io W RplethPacket.t :=
  network_cfg ← get_network_config;
  mret (match get as_bool network_cfg "enabled" with
        | Ret true =>
            match get as_bool network_cfg "dhcp" with
            | Ret dhcp => reply Success DHCPState [if dhcp : bool then 1 else 0]
            | _ => reply Success DHCPState []
            end
        | Ret false => reply Failed DHCPState []
        | _ => reply Success DHCPState []
        end).

(** What the setters share: a text for a key, when the packet is long enough. *)
Definition set_network (cmd : Z) (size : Z) (key : string) (value : outcome string) (p : RplethPacket.t)
  : io W RplethPacket.t :=
  network_cfg ← get_network_config;
  if dataLen p <? size then mret (reply Failed cmd [])
  else
    enabled ← pure (get as_bool network_cfg "enabled");
    if (enabled : bool) then
      v ← pure value;
      ok ← push_network_config (put key v (erase key network_cfg));
      mret (reply (if ok : bool then Success else Failed) cmd [])
    else mret (reply Failed cmd []).

Definition dotted (p : RplethPacket.t) : outcome string :=
  a ← data_at 0 p; b ← data_at 1 p; c ← data_at 2 p; d ← data_at 3 p;
  Ret (to_string a +:+ "." +:+ to_string b +:+ "." +:+ to_string c +:+ "." +:+ to_string d).

Definition set_dhcp_state (p : RplethPacket.t) : io W RplethPacket.t :=
  set_network SetDHCP 1 "dhcp" (x ← data_at 0 p; Ret (if x =? 0 then "false" else "true")) p.
Definition set_reader_ip (p : RplethPacket.t) : io W RplethPacket.t := set_network SetIP 4 "default_ip" (dotted p) p.
Definition set_reader_netmask (p : RplethPacket.t) : io W RplethPacket.t := set_network SetSubnet 4 "netmask" (dotted p) p.
Definition set_reader_gw (p : RplethPacket.t) : io W RplethPacket.t := set_network SetGateway 4 "gateway" (dotted p) p.

(** ** Requests *)

(** The body of the [try] block. *)
Definition serve (reader : string) (packet : RplethPacket.t) (c : cards) : io W (RplethPacket.t * cards) :=
  let response := set_sender Server packet in
  let is_ (ty cmd : Z) := (type response =? ty) && (command response =? cmd) in
  if is_ Rpleth Ping then mret (set_status Success response, c)
  else if is_ HID Greenled then _ ← rpleth_greenled reader packet; mret (response, c)
  else if is_ HID Beep then _ ← rpleth_beep reader packet; mret (response, c)
  else if is_ HID SendCards then mret (response, rpleth_send_cards packet c)
  else if is_ HID ReceiveCardsWaited then mret (rpleth_receive_cards response c, c)
  else if is_ Rpleth DHCPState then response ← get_dhcp_state; mret (response, c)
  else if is_ Rpleth SetDHCP then response ← set_dhcp_state response; mret (response, c)
  else if is_ Rpleth SetIP then response ← set_reader_ip response; mret (response, c)
  else if is_ Rpleth SetSubnet then response ← set_reader_netmask response; mret (response, c)
  else if is_ Rpleth SetGateway then response ← set_reader_gw response; mret (response, c)
  else if is_ Rpleth Reset then _ ← restart_reader; mret (response, c)
  else mret (set_status Success response, c).

Definition handle_client_packet (reader : string) (packet : RplethPacket.t) (c : cards)
  : io W (RplethPacket.t * cards) := fun w =>
  match serve reader packet c w with
  | (w', Throw _) => (w', Ret (set_status Failed (set_sender Server packet), c))
  | r => r
  end.

Definition buffer_size : nat := 8192.

(** Whether the response is sent at all. *)
Definition silent (response : RplethPacket.t) : bool :=
  (command response =? Greenled) || (command response =? Beep).

Definition respond (identity : string) (response : RplethPacket.t) : io W bool :=
  if silent response then mret true
  else
    '(buffer, size) ← pure (encodeCommand response (replicate buffer_size 0));
    send identity (take (Z.to_nat size) buffer).

(** The loop of [handle_client_msg]. *)
Fixpoint client_loop (fuel : nat) (reader identity : string) (c : cards) (buf : CircularBuffer.t)
  : io W (bool * cards * CircularBuffer.t) :=
  match fuel with
  | O => pure (Fault OutOfFuel)
  | S fuel =>
      '(packet, buf) ← pure (decodeCommand buf false);
      if negb (isGood packet) then mret (true, c, buf)
      else
        '(response, c) ← handle_client_packet reader packet c;
        ok ← respond identity response;
        if negb ok then mret (false, c, buf)
        else if isGood packet && negb (toRead buf =? 0) then client_loop fuel reader identity c buf
        else mret (true, c, buf)
  end.

(** Every request takes at least four bytes. *)
Definition handle_client_msg (reader identity : string) (c : cards) (buf : CircularBuffer.t)
  : io W (bool * cards * CircularBuffer.t) :=
  client_loop (S (Z.to_nat (toRead buf))) reader identity c buf.

Definition handle_socket (msg : message) (m : t) : io W t :=
  '(identity, msg) ← pure (pop_str msg);
  '(content, _) ← pure (pop_str msg);
  if str_empty content then
    if client_connected identity m then
      let m := set_clients (erase_client identity (clients_ m)) m in
      mret (if client_failed identity m
            then set_failed (List.filter (fun n => negb (String.eqb n identity)) (failed_clients_ m)) m else m)
    else mret (set_clients (put_client identity (CircularBuffer.make DefaultSize) (clients_ m)) m)
  else if client_failed identity m then mret m
  else
    _ ← pure (cassert (client_connected identity m && negb (client_failed identity m)));
    buf ← pure (deref (find_client identity (clients_ m)));
    '(buf, _) ← pure (write (map code (chars content)) buf);
    '(ok, c, buf) ← handle_client_msg (reader_ m) identity (lists m) buf;
    let m := set_lists c (set_clients (put_client identity buf (clients_ m)) m) in
    mret (if (ok : bool) then m else set_failed (failed_clients_ m ++ [identity]) m).

(** ** Cards *)

Definition badge_packet (data_ : list Z) : RplethPacket.t :=
  RplethPacket.mk Success HID Badge (Z.of_nat (length data_) mod 256) data_ 0 false Server.

(** One card, to one client. *)
Definition publish_to (card_pair : string * Z) (failed : list string) (client : string * CircularBuffer.t)
  : io W (list string) :=
  data_ ← pure (card_convert_from_text card_pair);
  '(buf, size) ← pure (encodeCommand (badge_packet data_) (replicate 64 0));
  ok ← send client.1 (take (Z.to_nat size) buf);
  mret (if (ok : bool) then failed else failed ++ [client.1]).

Definition rpleth_publish_card (m : t) : io W t :=
  failed ← foldIO (fun failed card_pair => foldIO (publish_to card_pair) failed (clients_ m)) (failed_clients_ m)
             (cards_read_stream_ (lists m));
  mret (set_failed failed (set_lists (mk_cards (cards_pushed_ (lists m)) (cards_read_ (lists m)) []) m)).

Definition handle_wiegand_event (msg : message) (m : t) : io W t :=
  '(_, msg) ← pure (pop_str msg);
  '(type, msg) ← pure (pop_u8 msg);
  _ ← pure (cassert (type =? SIMPLE_WIEGAND));
  '(card_id, msg) ← pure (pop_str msg);
  '(nb_bit_read, _) ← pure (pop_int msg);
  let c := lists m in
  let stream := if stream_mode_ m then cards_read_stream_ c ++ [(card_id, nb_bit_read)] else cards_read_stream_ c in
  let card_id := text (drop_colons (chars card_id)) in
  let read := if existsb (String.eqb card_id) (cards_pushed_ c) then cards_read_ c ++ [card_id] else cards_read_ c in
  rpleth_publish_card (set_lists (mk_cards (cards_pushed_ c) (unique read) stream) m).

End module.

(** The configuration; the port is where the socket is bound, and the reader's
    name the topic of the bus. *)
Definition make {T} `{PropertyTree T} (cfg : T) : outcome (t * Z) :=
  module_config ← get_child cfg "module_config";
  let port := get_default as_u16 module_config "port" 4242 in
  reader_name ← get_child module_config "reader";
  let stream_mode := get_default as_bool module_config "stream_mode" true in
  Ret (mk (mk_cards [] [] []) [] [] (Ptree.data reader_name) stream_mode, port).

End RplethModule.
Import RplethModule.

(** * Specifications *)

(** The requests a queue of bytes holds, and the bytes of the last one when it is
    not complete. *)
Fixpoint requests (fuel : nat) (l : list Z) : list RplethPacket.t * list Z :=
  match fuel with
  | O => ([], l)
  | S fuel =>
      match parse l with
      | Some (p, rest) => let '(ps, last) := requests fuel rest in (p :: ps, last)
      | None => ([], l)
      end
  end.
Definition requests_of (l : list Z) : list RplethPacket.t * list Z := requests (length l) l.

Definition bytes_of (s : string) : list Z := map code (chars s).

Section spec.
Context {W : Type} `{Peers W, Clients W} {T : Type} `{PropertyTree T, !NetTree T}.

(** Serving requests one after the other, until a response cannot be sent. *)
Fixpoint serve_all (reader identity : string) (ps : list RplethPacket.t) (c : cards) : io W (bool * cards) :=
  match ps with
  | [] => mret (true, c)
  | p :: ps =>
      '(response, c) ← handle_client_packet (T := T) reader p c;
      ok ← respond identity response;
      if (ok : bool) then serve_all reader identity ps c else mret (false, c)
  end.

(** What comes from one client. *)
Definition run_socket (identity : string) (chunks : list string) (m : RplethModule.t) : io W RplethModule.t :=
  foldIO (fun m s => handle_socket (T := T) [FStr identity; FStr s] m) m chunks.

End spec.

(** * Lemmas *)

Lemma parse_length l p rest : parse l = Some (p, rest) -> (length rest < length l)%nat.
Proof.
  destruct l as [|ty [|cmd [|len r]]]; cbn [parse]; try done. destruct (r !! _); [|done].
  intros [= _ <-]. rewrite length_drop. cbn. lia.
Qed.

Lemma parse_more l x p rest : parse l = Some (p, rest) -> parse (l ++ x) = Some (p, rest ++ x).
Proof.
  destruct l as [|ty [|cmd [|len r]]]; cbn [parse app]; try done. destruct (r !! _) as [sum|] eqn:E; [|done].
  pose proof (lookup_lt_Some _ _ _ E) as Hlt. rewrite (lookup_app_l_Some _ _ _ _ E).
  intros [= <- <-]. rewrite take_app_le, drop_app_le by lia. done.
Qed.

(** A request that is not complete is short. *)
Lemma parse_None_short l : Forall is_byte l -> parse l = None -> (length l <= 258)%nat.
Proof.
  destruct l as [|ty [|cmd [|len r]]]; intros Hb E; cbn [length]; try lia. cbn [parse] in E.
  destruct (r !! _) eqn:Er; [done|]. apply lookup_ge_None in Er.
  assert (is_byte len) as [? ?] by (by apply (proj1 (Forall_lookup _ _) Hb 2%nat)). lia.
Qed.

Lemma parse_bytes l p rest : Forall is_byte l -> parse l = Some (p, rest) -> Forall is_byte rest.
Proof.
  destruct l as [|ty [|cmd [|len r]]]; cbn [parse]; try done. intros Hb. destruct (r !! _); [|done].
  intros [= _ <-]. apply Forall_drop. by do 3 apply Forall_inv_tail in Hb.
Qed.

Lemma requests_enough n l : (length l <= n)%nat -> requests n l = requests_of l.
Proof.
  unfold requests_of. revert l. induction n as [n IH] using lt_wf_ind. intros l Hl.
  destruct n as [|n]; [destruct l; [done|cbn in Hl; lia]|]. cbn [requests].
  destruct (parse l) as [[p rest]|] eqn:E.
  - pose proof (parse_length _ _ _ E) as Hlt. destruct (length l) as [|k] eqn:Ek; [lia|]. cbn [requests]. rewrite E.
    by rewrite (IH n) by lia; rewrite (IH k) by lia.
  - destruct (length l); cbn [requests]; by rewrite ?E.
Qed.

Lemma requests_unfold l : requests_of l =
  match parse l with
  | Some (p, rest) => let '(ps, last) := requests_of rest in (p :: ps, last)
  | None => ([], l)
  end.
Proof.
  unfold requests_of at 1. destruct (parse l) as [[p rest]|] eqn:E.
  - pose proof (parse_length _ _ _ E). destruct (length l) as [|k] eqn:Ek; [lia|]. cbn [requests]. rewrite E.
    by rewrite requests_enough by lia.
  - destruct (length l); cbn [requests]; by rewrite ?E.
Qed.

(** Bytes that come later. *)
Lemma requests_app l x : requests_of (l ++ x) =
  let '(ps, last) := requests_of l in let '(qs, last') := requests_of (last ++ x) in (ps ++ qs, last').
Proof.
  induction l as [l IH] using (induction_ltof1 _ (@length Z)). unfold ltof in IH. rewrite (requests_unfold l).
  destruct (parse l) as [[p rest]|] eqn:E.
  - rewrite requests_unfold, (parse_more _ _ _ _ E), (IH rest) by (by eapply parse_length).
    destruct (requests_of rest) as [ps last]. by destruct (requests_of (last ++ x)).
  - by destruct (requests_of (l ++ x)).
Qed.

Lemma requests_last l ps last : Forall is_byte l -> requests_of l = (ps, last) ->
  parse last = None /\ Forall is_byte last.
Proof.
  revert ps last. induction l as [l IH] using (induction_ltof1 _ (@length Z)). unfold ltof in IH.
  intros ps last Hb. rewrite requests_unfold. destruct (parse l) as [[p rest]|] eqn:E; [|by intros [= <- <-]].
  destruct (requests_of rest) as [qs last'] eqn:Eq. intros [= <- <-].
  apply (IH rest ltac:(by eapply parse_length) qs); [by eapply parse_bytes|done].
Qed.

Lemma find_put_same name b l : find_client name (put_client name b l) = Some b.
Proof.
  unfold find_client. induction l as [|[n b'] l IH]; cbn; [by rewrite String.eqb_refl|].
  destruct (String.eqb_spec name n) as [->|Hne]; cbn; [by rewrite String.eqb_refl|].
  destruct (String.ltb name n); cbn; [by rewrite String.eqb_refl|].
  by rewrite (proj2 (String.eqb_neq n name)) by congruence.
Qed.

Lemma find_put_other name other b l : name <> other -> find_client other (put_client name b l) = find_client other l.
Proof.
  intros Hne. unfold find_client. induction l as [|[n b'] l IH]; cbn; [by rewrite (proj2 (String.eqb_neq _ _))|].
  destruct (String.eqb_spec name n) as [->|Hn]; cbn; [by rewrite (proj2 (String.eqb_neq _ _))|].
  destruct (String.ltb name n); cbn; [by rewrite (proj2 (String.eqb_neq name other))|].
  by destruct (String.eqb n other).
Qed.

Lemma length_bytes_of s : length (bytes_of s) = length (chars s).
Proof. apply length_map. Qed.

Lemma bytes_of_bytes s : Forall is_byte (bytes_of s).
Proof. apply Forall_map, Forall_forall. intros c _. apply code_range. Qed.

(** * The requests of a client *)

Section clients.
Context {W : Type} `{Peers W, Clients W} {T : Type} `{PropertyTree T, !NetTree T}.

#[local] Abbreviation serve_all := (serve_all (W := W) (T := T)).
#[local] Abbreviation handle_packet := (handle_client_packet (W := W) (T := T)).

Lemma serve_all_app reader identity ps qs c w :
  serve_all reader identity (ps ++ qs) c w =
  ('(ok, c) ← serve_all reader identity ps c; if (ok : bool) then serve_all reader identity qs c else mret (false, c)) w.
Proof.
  revert c w. induction ps as [|p ps IH]; intros c w; [done|]. cbn [app Rpleth.serve_all]. unfold mbind, io_bind.
  destruct (handle_packet reader p c w) as [w1 [[response c1]|e|f]]; [|done|done].
  destruct (respond identity response w1) as [w2 [[|]|e|f]]; [|done|done|done]. apply IH.
Qed.

(** The loop serves the requests of the ring, in order, and leaves the rest. *)
Lemma client_loop_serves fuel reader identity c buf w : ring_ok buf -> (Z.to_nat (_toRead buf) < fuel)%nat ->
  let '(ps, last) := requests_of (contents buf) in
  match serve_all reader identity ps c w with
  | (w', Ret (ok, c')) => exists buf', client_loop (T := T) fuel reader identity c buf w = (w', Ret (ok, c', buf')) /\
      ring_ok buf' /\ _size buf' = _size buf /\ (ok = true -> contents buf' = last)
  | (w', Throw e) => client_loop (T := T) fuel reader identity c buf w = (w', Throw e)
  | (w', Fault f) => client_loop (T := T) fuel reader identity c buf w = (w', Fault f)
  end.
Proof.
  revert c buf w. induction fuel as [|fuel IH]; intros c buf w Hb Hf; [lia|]. cbn [client_loop].
  pose proof (decode_ok buf Hb) as Hd. pose proof (length_contents buf Hb) as Hlen. rewrite requests_unfold.
  destruct (parse (contents buf)) as [[p rest]|] eqn:E.
  - destruct Hd as (buf1 & Hd & Hb1 & Hs1 & Hc1). pose proof (parse_length _ _ _ E) as Hlt.
    assert (Hg : isGood p = true).
    { destruct (contents buf) as [|ty [|cmd [|len r]]]; cbn [parse] in E; try done. destruct (r !! _); [|done].
      by injection E as <- _. }
    destruct (requests_of rest) as [ps last] eqn:Er. cbn [Rpleth.serve_all]. rewrite Hd, pure_bind. rewrite Hg. cbn [negb andb]. unfold mbind, io_bind.
    destruct (handle_packet reader p c w) as [w1 [[response c1]|e|f]]; [|done|done].
    destruct (respond identity response w1) as [w2 [[|]|e|f]]; cbn [negb]; [|by exists buf1|done|done].
    pose proof (length_contents buf1 Hb1) as Hlen1. rewrite Hc1 in Hlen1. unfold toRead.
    destruct (Z.eqb_spec (_toRead buf1) 0) as [E0|E0]; cbn [negb].
    + assert (rest = []) as -> by (destruct rest; [done|cbn in Hlen1; lia]). cbn in Er. injection Er as <- <-.
      cbn. exists buf1. by rewrite Hc1.
    + specialize (IH c1 buf1 w2 Hb1 ltac:(lia)). rewrite Hc1, Er in IH.
      destruct (serve_all reader identity ps c1 w2) as [w3 [[ok c3]|e|f]]; [|done|done]. by rewrite Hs1 in IH.
  - destruct Hd as (p & Hd & Hg). cbn [Rpleth.serve_all]. rewrite Hd, pure_bind. rewrite Hg. cbn. by exists buf.
Qed.

Context (sends : forall identity bytes (w : W), (send_to identity bytes w).2 = true).

Lemma serve_all_sent reader identity ps c w w' ok c' :
  serve_all reader identity ps c w = (w', Ret (ok, c')) -> ok = true.
Proof.
  revert c w. induction ps as [|p ps IH]; intros c w; [by intros [= _ <- _]|]. cbn [Rpleth.serve_all].
  unfold mbind, io_bind. destruct (handle_packet reader p c w) as [w1 [[response c1]|e|f]]; [|done|done].
  assert (Hr : forall w2 o, respond identity response w1 = (w2, Ret o) -> o = true).
  { unfold respond, mbind, io_bind, send, pure. intros w2 o. destruct (silent response); [by intros [= _ <-]|].
    destruct (encodeCommand _ _) as [[b n]|e|f]; [|done|done].
    pose proof (sends identity (take (Z.to_nat n) b) w1) as Hs.
    destruct (send_to identity _ w1) as [w3 ok3]. cbn in Hs. by intros [= _ <-]. }
  destruct (respond identity response w1) as [w2 [o|e|f]] eqn:E; [|done|done].
  rewrite (Hr w2 o) by done. apply IH.
Qed.

(** A client that is served: connected, with less than a whole request pending
    in its ring. *)
Definition pending (identity : string) (l : list Z) (m : RplethModule.t) : Prop :=
  client_failed identity m = false /\ parse l = None /\
  exists b, find_client identity (clients_ m) = Some b /\ ring_ok b /\ _size b = DefaultSize /\ contents b = l.

(** Pieces of at most this length always fit in the ring. *)
Definition piece_ok (s : string) : bool := negb (str_empty s) && (str_size s <=? 7934).

(** What a message of a served client leads to. *)
Lemma handle_socket_runs identity s m b b1 n w : piece_ok s = true -> client_failed identity m = false ->
  find_client identity (clients_ m) = Some b -> write (bytes_of s) b = Ret (b1, n) ->
  handle_socket (T := T) [FStr identity; FStr s] m w =
  match client_loop (T := T) (S (Z.to_nat (toRead b1))) (reader_ m) identity (lists m) b1 w with
  | (w', Ret (ok, c, buf)) =>
      let m' := set_lists c (set_clients (put_client identity buf (clients_ m)) m) in
      (w', Ret (if (ok : bool) then m' else set_failed (failed_clients_ m' ++ [identity]) m'))
  | (w', Throw e) => (w', Throw e)
  | (w', Fault f) => (w', Fault f)
  end.
Proof.
  intros Hs Hnf Hfind Hw. apply andb_true_iff in Hs as [He%negb_true_iff _].
  unfold handle_socket, pop_str. rewrite !pure_bind, He, Hnf. unfold client_connected at 1. rewrite Hfind.
  cbn [negb andb cassert deref]. rewrite bool_decide_eq_true_2 by done. cbn [andb cassert]. rewrite !pure_bind.
  change (map code (chars s)) with (bytes_of s). rewrite Hw, pure_bind.
  unfold handle_client_msg, mbind, io_bind. by destruct (client_loop _ _ _ _ _ _) as [w1 [[[ok c] b2]|e|f]].
Qed.

(** A piece fits behind what is pending. *)
Lemma piece_written b l s : ring_ok b -> _size b = DefaultSize -> contents b = l -> parse l = None ->
  piece_ok s = true ->
  exists b1 n, write (bytes_of s) b = Ret (b1, n) /\ ring_ok b1 /\ _size b1 = DefaultSize /\ contents b1 = l ++ bytes_of s.
Proof.
  intros Hb Hsize Hc Hp Hs. apply andb_true_iff in Hs as [_ Hlen%Z.leb_le]. unfold str_size in Hlen.
  assert (Hl : (length l <= 258)%nat) by (apply parse_None_short; [rewrite <- Hc; by apply contents_bytes|done]).
  destruct (write_ok (bytes_of s) b Hb) as (b1 & Hw & Hb1 & Hs1 & Hc1);
    [rewrite length_bytes_of, Hsize; unfold DefaultSize; lia|apply bytes_of_bytes|].
  rewrite Hc in Hc1. cbn zeta in Hc1. rewrite bool_decide_eq_true_2 in Hc1
    by (rewrite length_app, length_bytes_of, Hsize; unfold DefaultSize; lia).
  exists b1. eexists. split; [done|]. split; [done|]. split; [congruence|done].
Qed.

Lemma socket_serves identity s l m w : pending identity l m -> piece_ok s = true ->
  let '(ps, last) := requests_of (l ++ bytes_of s) in
  match serve_all (reader_ m) identity ps (lists m) w with
  | (w', Ret (_, c')) => exists m', handle_socket (T := T) [FStr identity; FStr s] m w = (w', Ret m') /\
      lists m' = c' /\ reader_ m' = reader_ m /\ pending identity last m'
  | (w', Throw e) => handle_socket (T := T) [FStr identity; FStr s] m w = (w', Throw e)
  | (w', Fault f) => handle_socket (T := T) [FStr identity; FStr s] m w = (w', Fault f)
  end.
Proof.
  intros (Hnf & Hp & b & Hfind & Hb & Hsize & Hc) Hs.
  destruct (piece_written b l s Hb Hsize Hc Hp Hs) as (b1 & n & Hw & Hb1 & Hs1 & Hc1).
  pose proof (client_loop_serves (S (Z.to_nat (toRead b1))) (reader_ m) identity (lists m) b1 w Hb1 ltac:(unfold toRead; lia)) as Hloop.
  pose proof (contents_bytes b1 Hb1) as Hby. rewrite Hc1 in Hloop, Hby.
  destruct (requests_of (l ++ bytes_of s)) as [ps last] eqn:Er.
  pose proof (requests_last _ _ _ Hby Er) as [Hlast _].
  rewrite (handle_socket_runs identity s m b b1 n w Hs Hnf Hfind Hw).
  destruct (serve_all (reader_ m) identity ps (lists m) w) as [w' [[ok c']|e|f]] eqn:Es; [|by rewrite Hloop|by rewrite Hloop].
  apply serve_all_sent in Es as ->. destruct Hloop as (b2 & -> & Hb2 & Hs2 & Hc2). eexists. split; [reflexivity|].
  split; [done|]. split; [done|]. split; [exact Hnf|]. split; [exact Hlast|]. exists b2. split; [apply find_put_same|].
  split; [done|]. split; [congruence|by apply Hc2].
Qed.

(** C7: (equivalence) However the bytes of a client are cut into messages, the
    same requests are served, in the same order: those of the whole stream, each
    handled and answered once, as if they had come one by one. The messages are
    the pieces the socket gives, none longer than 7934 bytes; sending to the client
    does not block. What is left of the stream waits for more. *)
Theorem requests_reassembled identity pieces l m w :
  pending identity l m -> forallb piece_ok pieces = true ->
  let '(ps, last) := requests_of (l ++ concat (map bytes_of pieces)) in
  match serve_all (reader_ m) identity ps (lists m) w with
  | (w', Ret (_, c')) => exists m', run_socket (T := T) identity pieces m w = (w', Ret m') /\
      lists m' = c' /\ pending identity last m'
  | (w', Throw e) => run_socket (T := T) identity pieces m w = (w', Throw e)
  | (w', Fault f) => run_socket (T := T) identity pieces m w = (w', Fault f)
  end.
Proof.
  unfold run_socket. revert l m w. induction pieces as [|s pieces IH]; intros l m w Hp Hall; cbn [forallb map concat foldIO] in *.
  { rewrite app_nil_r, requests_unfold. destruct Hp as (Hnf & Hl & Hb). rewrite Hl. cbn. exists m.
    split; [done|]. split; [done|]. split; [done|]. by split. }
  apply andb_true_iff in Hall as [Hs Hall]. rewrite app_assoc, requests_app.
  pose proof (socket_serves identity s l m w Hp Hs) as Hstep. destruct (requests_of (l ++ bytes_of s)) as [ps last].
  destruct (requests_of (last ++ concat (map bytes_of pieces))) as [qs last'] eqn:Eq.
  rewrite serve_all_app. unfold mbind at 1, io_bind at 1.
  destruct (serve_all (reader_ m) identity ps (lists m) w) as [w1 [[ok c1]|e|f]] eqn:Es.
  - pose proof (serve_all_sent _ _ _ _ _ _ _ _ Es) as ->.
    destruct Hstep as (m1 & Hm1 & <- & Hr & Hp1). rewrite <- Hr. specialize (IH last m1 w1 Hp1 Hall). rewrite Eq in IH.
    destruct (serve_all (reader_ m1) identity qs (lists m1) w1) as [w2 [[ok2 c2]|e|f]];
      by rewrite (io_bind_ret _ _ _ _ _ Hm1).
  - unfold mbind, io_bind. by rewrite Hstep.
  - unfold mbind, io_bind. by rewrite Hstep.
Qed.

End clients.

(** * Requests the module gets wrong *)

Section wrong.
Context {W : Type} `{Peers W, Clients W} {T : Type} `{PropertyTree T, !NetTree T}.

(** Two packets a computation does not tell apart. *)
Ltac alike f p q := try change (f q) with (f p).

(** (error) The checksum is computed and never enforced. A request whose
    status is [BadChecksum] or [BadType] is obeyed like any other: handling it has
    the same effects, on the reader, the kernel and the card lists, as handling it
    with any other status and sum. *)
Theorem checksum_not_enforced reader p status' sum' c (w : W) :
  let q := RplethPacket.mk status' (type p) (command p) (dataLen p) (data p) sum' (isGood p) (sender p) in
  let r := handle_client_packet (T := T) reader p c w in
  let r' := handle_client_packet (T := T) reader q c w in
  r'.1 = r.1 /\ (snd <$> r'.2) = (snd <$> r.2).
Proof.
  destruct p as [st ty cmd len d sm g sd]. cbn zeta. cbn [type command dataLen data sum isGood sender].
  unfold handle_client_packet, serve. cbn [set_sender type command].
  repeat match goal with |- context [if ?b then _ else _] => destruct b end; try done.
  all: unfold mbind, io_bind, mret, io_ret.
  all: set (p0 := RplethPacket.mk st ty cmd len d sm g sd); set (q0 := RplethPacket.mk status' ty cmd len d sum' g sd).
  all: alike (rpleth_greenled (W := W) reader) p0 q0; alike (rpleth_beep (W := W) reader) p0 q0.
  all: alike (set_dhcp_state (W := W) (T := T)) (set_sender Server p0) (set_sender Server q0);
    alike (set_reader_ip (W := W) (T := T)) (set_sender Server p0) (set_sender Server q0);
    alike (set_reader_netmask (W := W) (T := T)) (set_sender Server p0) (set_sender Server q0);
    alike (set_reader_gw (W := W) (T := T)) (set_sender Server p0) (set_sender Server q0).
  all: repeat (cbv beta iota; match goal with |- context [match ?f ?v with (_, _) => _ end] => destruct (f v) as [? [?|?|?]] end).
  all: cbn; try done; unfold rpleth_receive_cards; cbn; by repeat case_match.
Qed.

(** (error) A client that asks for the DHCP state is never answered: the
    command has the code of the green LED's, whose responses are not sent. The
    kernel is asked, and nothing else happens. *)
Theorem dhcp_state_unanswered reader identity p b d c (w w' : W) : ring_ok b ->
  requests_of (contents b) = ([p], []) -> type p = Rpleth -> command p = DHCPState ->
  exchange kernel [FStr "GET_NETCONFIG"] w = (w', Some [FStr d]) ->
  exists b', handle_client_msg (T := T) reader identity c b w = (w', Ret (true, c, b')) /\ contents b' = [].
Proof.
  intros Hb Hreq Hty Hcmd He.
  assert (Hs : serve_all (T := T) reader identity [p] c w = (w', Ret (true, c))).
  { assert (Hh : exists r, handle_client_packet (T := T) reader p c w = (w', Ret (r, c)) /\ command r = DHCPState).
    { assert (Hs : serve (T := T) reader p c w = (r ← get_dhcp_state (T := T); mret (r, c)) w).
      { unfold serve. cbn [set_sender type command]. by rewrite Hty, Hcmd. }
      assert (Hn : get_network_config (T := T) w =
        (w', match load d with Some tree => Ret tree | None => Throw (StdRuntimeError "archive") end)).
      { unfold get_network_config, mbind, io_bind, ask. rewrite He.
        transitivity ((match load d with Some tree => mret tree | None => pure (Throw (StdRuntimeError "archive")) end : io W T) w');
          [reflexivity|by destruct (load d)]. }
      unfold handle_client_packet. rewrite Hs. unfold get_dhcp_state, mbind, io_bind. rewrite Hn.
      destruct (load d) as [tree|]; [|by (eexists; split)].
      destruct (get as_bool tree "enabled") as [[|]|e|f]; [destruct (get as_bool tree "dhcp")|..]; by (eexists; split). }
    destruct Hh as (r & Hh & Hr). cbn [serve_all]. rewrite (io_bind_ret _ _ _ _ _ Hh).
    unfold respond, silent. by rewrite Hr. }
  pose proof (client_loop_serves (T := T) (S (Z.to_nat (toRead b))) reader identity c b w Hb ltac:(unfold toRead; lia)) as Hl.
  rewrite Hreq, Hs in Hl. destruct Hl as (b' & Hl & _ & _ & Hc). exists b'. split; [exact Hl|by apply Hc].
Qed.

End wrong.

(** * Badges *)

(** One message to each client, in order; those that cannot be sent to fail. *)
Fixpoint send_each {W} `{Clients W} (bytes : list Z) (names : list string) (failed : list string) (w : W)
  : W * list string :=
  match names with
  | [] => (w, failed)
  | n :: names =>
      let '(w, ok) := send_to n bytes w in
      send_each bytes names (if (ok : bool) then failed else failed ++ [n]) w
  end.

(** The eight bytes of a number, most significant first. *)
Definition be64 (v : Z) : list Z := map (fun i => Z.land (Z.shiftr v (8 * (7 - Z.of_nat i))) 0xff) (seq 0 8).

Lemma be64_value v : 0 <= v < 2 ^ 64 -> bytes_val (be64 v) = v.
Proof.
  intros Hv. unfold be64. cbn -[Z.mul Z.add Z.pow].
  change 255 with (Z.ones 8). rewrite !Z.land_ones by lia. rewrite !Z.shiftr_div_pow2 by (cbn; lia).
  repeat match goal with |- context [?b ^ ?e] => let x := eval vm_compute in (b ^ e) in change (b ^ e) with x end.
  assert (Hd : forall c c', 0 < c -> c' = c * 256 -> (v / c) mod 256 = v / c - 256 * (v / c')).
  { intros c c' Hc ->. rewrite <- Z.div_div by lia. apply Z.mod_eq. lia. }
  rewrite (Hd 72057594037927936 (2 ^ 64)), (Hd 281474976710656 72057594037927936), (Hd 1099511627776 281474976710656),
    (Hd 4294967296 1099511627776), (Hd 16777216 4294967296), (Hd 65536 16777216), (Hd 256 65536), (Hd 1 256) by done.
  rewrite (Z.div_small v (2 ^ 64)), Z.div_1_r by done. ring.
Qed.

Lemma be64_bytes v : Forall is_byte (be64 v).
Proof.
  unfold be64. apply Forall_map, Forall_forall. intros i _. change 0xff with (Z.ones 8).
  rewrite Z.land_ones by lia. unfold is_byte. apply Z.mod_pos_bound. lia.
Qed.

(** A bit of an expression on numbers, as bits of its operands. *)
Ltac testbits := repeat match goal with
  | |- context [Z.testbit (Z.lor _ _) _] => rewrite Z.lor_spec
  | |- context [Z.testbit (Z.land _ _) _] => rewrite Z.land_spec
  | |- context [Z.testbit (Z.shiftr ?a ?k) ?m] =>
      first [rewrite (Z.shiftr_spec a k m) by lia | rewrite (Z.testbit_neg_r (Z.shiftr a k) m) by lia]
  | |- context [Z.testbit (Z.shiftl ?a ?k) ?m] =>
      first [rewrite (Z.shiftl_spec a k m) by lia | rewrite (Z.testbit_neg_r (Z.shiftl a k) m) by lia]
  end.

Lemma htonll_byte v i : 0 <= i < 8 ->
  Z.land (Z.shiftr (htonll v) (8 * i)) 0xff = Z.land (Z.shiftr v (8 * (7 - i))) 0xff.
Proof.
  intros Hi. assert (i = 0 \/ i = 1 \/ i = 2 \/ i = 3 \/ i = 4 \/ i = 5 \/ i = 6 \/ i = 7) as Hc by lia.
  apply Z.bits_inj'. intros n Hn. rewrite !Z.land_spec. destruct (Z.ltb_spec n 8) as [Hlt|Hge].
  - assert (n = 0 \/ n = 1 \/ n = 2 \/ n = 3 \/ n = 4 \/ n = 5 \/ n = 6 \/ n = 7) as Hb by lia.
    unfold htonll, htonl. repeat destruct Hc as [->|Hc]; subst; repeat destruct Hb as [->|Hb]; subst;
      testbits; cbn; rewrite ?andb_false_r, ?andb_true_r, ?orb_false_r; reflexivity.
  - change 0xff with (Z.ones 8). rewrite !(Z.ones_spec_high 8 n) by lia. by rewrite !andb_false_r.
Qed.

Lemma htonll_bytes v : memory_bytes 8 (htonll v) = be64 v.
Proof. unfold memory_bytes, be64. apply map_ext_in. intros i Hi%in_seq. apply htonll_byte. lia. Qed.

(** What a badge is for the clients: its number, in eight bytes. *)
Lemma card_converted bits : (0 < length bits <= 64)%nat ->
  card_convert_from_text (card_text bits, Z.of_nat (length bits)) = Ret (be64 (bits_val bits)).
Proof.
  intros Hb. pose proof (make_card_text bits ltac:(lia)) as Hm. unfold RFIDCard.make in Hm.
  unfold card_convert_from_text. cbn [fst snd]. apply bind_Ret in Hm as (c1 & -> & Hm). cbn [mbind outcome_bind].
  rewrite Hm. cbn [mbind outcome_bind]. rewrite raw_int_frame by done. cbn [mbind outcome_bind].
  by rewrite htonll_bytes.
Qed.

Section badges.
Context {W : Type} `{Peers W, Clients W}.

Lemma badge_packet_ok v : packet_ok (badge_packet (be64 v)).
Proof. by split. Qed.

Lemma publish_one bits client failed (w : W) : (0 < length bits <= 64)%nat ->
  publish_to (card_text bits, Z.of_nat (length bits)) failed client w =
  (let '(w', ok) := send_to client.1 (wire (badge_packet (be64 (bits_val bits)))) w in
   (w', Ret (if (ok : bool) then failed else failed ++ [client.1]))).
Proof.
  intros Hb. unfold publish_to. rewrite card_converted by done. rewrite pure_bind, encode_ok by apply badge_packet_ok.
  replace (Z.of_nat (length (replicate 64 0)) <? _) with false by reflexivity. rewrite pure_bind.
  unfold over. rewrite Nat2Z.id, take_app_length. unfold send, mbind, io_bind. by destruct (send_to client.1 _ w).
Qed.

Lemma publish_badge bits clients failed (w : W) : (0 < length bits <= 64)%nat ->
  foldIO (publish_to (card_text bits, Z.of_nat (length bits))) failed clients w =
  (let '(w', failed') := send_each (wire (badge_packet (be64 (bits_val bits)))) (map fst clients) failed w in
   (w', Ret failed')).
Proof.
  intros Hb. revert failed w. induction clients as [|[n b] clients IH]; intros failed w; [done|].
  cbn [foldIO map fst send_each]. unfold mbind, io_bind. rewrite publish_one by done. cbn [fst].
  destruct (send_to n _ w) as [w' ok]. apply IH.
Qed.

(** (functional) A badge read is streamed. When the reader reads a card of at
    most 64 bits, every connected client is sent, in order, one [Badge] packet
    with the number the card's bits spell, in eight bytes, most significant first;
    clients the message cannot be sent to are marked as failed. Nothing stays to
    be streamed. *)
Theorem badge_streamed r bits m (w : W) : (0 < length bits <= 64)%nat ->
  stream_mode_ m = true -> cards_read_stream_ (lists m) = [] ->
  exists m' bytes, bytes_val bytes = bits_val bits /\ length bytes = 8%nat /\ Forall is_byte bytes /\
    let '(w', failed) := send_each (wire (badge_packet bytes)) (map fst (clients_ m)) (failed_clients_ m) w in
    handle_wiegand_event (card_message r bits) m w = (w', Ret m') /\
    failed_clients_ m' = failed /\ clients_ m' = clients_ m /\ cards_read_stream_ (lists m') = [].
Proof.
  intros Hb Hs He. unfold handle_wiegand_event, card_message, source_frame, pop_str, pop_u8, pop_int.
  pose proof (bits_val_range bits) as Hr.
  assert (2 ^ Z.of_nat (length bits) <= 2 ^ 64) by (apply Z.pow_le_mono_r; lia).
  destruct (send_each (wire (badge_packet (be64 (bits_val bits)))) (map fst (clients_ m)) (failed_clients_ m) w)
    as [w' failed] eqn:Es.
  eexists. exists (be64 (bits_val bits)). split; [apply be64_value; lia|]. split; [done|]. split; [apply be64_bytes|].
  rewrite Es. rewrite !pure_bind. cbn [Z.eqb SIMPLE_WIEGAND Pos.eqb cassert]. rewrite !pure_bind, Hs, He. cbn [app].
  unfold rpleth_publish_card. cbn [set_lists lists cards_read_stream_ clients_ failed_clients_ foldIO].
  split; [|split; [|split]].
  - unfold mbind at 1, io_bind at 1. unfold mbind at 1, io_bind at 1. rewrite publish_badge by done. rewrite Es. reflexivity.
  - done.
  - done.
  - done.
Qed.

End badges.

(** ** Witnesses *)

(** A world that only records what is sent; the kernel has a configuration, and
    whatever else is asked is done. *)
Definition sent : Type := list (string * list Z).

#[export] Instance quiet_peers : Peers sent := {|
  exchange := fun name m w => (w, Some [FStr "OK"]);
|}.
#[export] Instance recording : Clients sent := {|
  send_to := fun name bytes w => (w ++ [(name, bytes)], true);
|}.
#[export] Instance xml_net : NetTree xml := {|
  erase := fun key t => Node (xml_data t) (List.filter (fun kv => negb (String.eqb kv.1 key)) (xml_kids t));
  put := fun key v t => Node (xml_data t) (xml_kids t ++ [(key, leaf v)]);
  save := fun _ => "";
  load := fun _ => Some (Node "" [("enabled", leaf "true"); ("dhcp", leaf "true")]);
|}.

(** A client whose ring has wrapped, with nothing pending. *)
Definition demo_client : CircularBuffer.t := CircularBuffer.mk (replicate 8192 0) DefaultSize 8190 8190 0.
Definition demo_rpleth : RplethModule.t :=
  RplethModule.mk (mk_cards [] [] []) [("client", demo_client)] [] "WIEGAND_1" true.

Lemma zeroes_bytes n : Forall is_byte (replicate n 0).
Proof. apply Forall_replicate. unfold is_byte. lia. Qed.

Lemma demo_client_ok : ring_ok demo_client.
Proof. split; cbn [demo_client _size _buffer _rIdx _wIdx _toRead]; unfold DefaultSize; try done; apply zeroes_bytes. Qed.

Lemma demo_pending : pending "client" [] demo_rpleth.
Proof. split; [done|]. split; [done|]. exists demo_client. split; [done|]. split; [apply demo_client_ok|done]. Qed.

(** Two pings cut in three, with the second one's last byte still to come. *)
Definition demo_pieces : list string :=
  [text (map chr [0; 10]); text (map chr [0; 10; 0; 10]); text (map chr [1; 7])].

Lemma requests_reassembled_witness :
  exists m', run_socket (T := xml) "client" demo_pieces demo_rpleth [] =
      ([("client", [0; 0; 10; 0; 10])], Ret m') /\ pending "client" [0; 10; 1; 7] m'.
Proof.
  pose proof (requests_reassembled (T := xml) (fun _ _ _ => eq_refl) "client" demo_pieces [] demo_rpleth [] demo_pending eq_refl)
    as H.
  assert (Hr : requests_of ([] ++ concat (map bytes_of demo_pieces)) =
    ([RplethPacket.mk 0 0 10 0 [] 10 true Client], [0; 10; 1; 7])) by (vm_compute; reflexivity).
  rewrite Hr in H.
  assert (Hs : serve_all (W := sent) (T := xml) "WIEGAND_1" "client" [RplethPacket.mk 0 0 10 0 [] 10 true Client] (mk_cards [] [] []) [] =
    ([("client", [0; 0; 10; 0; 10])], Ret (true, mk_cards [] [] []))) by (vm_compute; reflexivity).
  cbn [reader_ lists demo_rpleth] in H. rewrite Hs in H. destruct H as (m' & Hrun & _ & Hp). exists m'. split; [exact Hrun|exact Hp].
Defined.

(** The request for the DHCP state, in the ring. *)
Definition dhcp_ring : CircularBuffer.t := CircularBuffer.mk [0; 1; 0; 1; 0; 0; 0; 0] 8 0 4 4.

Lemma dhcp_state_unanswered_witness :
  exists b', handle_client_msg (W := sent) (T := xml) "WIEGAND_1" "client" (mk_cards [] [] []) dhcp_ring [] =
    ([], Ret (true, mk_cards [] [] [], b')).
Proof.
  destruct (dhcp_state_unanswered (W := sent) (T := xml) "WIEGAND_1" "client" (RplethPacket.mk 0 0 1 0 [] 1 true Client) dhcp_ring
    "OK" (mk_cards [] [] []) [] []) as (b' & H & _).
  - split; cbn; try lia; [done|]. repeat constructor; unfold is_byte; lia.
  - vm_compute. reflexivity.
  - reflexivity.
  - reflexivity.
  - reflexivity.
  - exists b'. exact H.
Defined.

Lemma badge_streamed_witness :
  exists m' bytes, bytes_val bytes = 5 /\
    handle_wiegand_event (card_message WiegandReaderImpl.demo_reader [true; false; true]) demo_rpleth [] =
    ([("client", wire (badge_packet bytes))], Ret m').
Proof.
  destruct (badge_streamed (W := sent) WiegandReaderImpl.demo_reader [true; false; true] demo_rpleth [])
    as (m' & bytes & Hv & _ & _ & H); [cbn; lia|reflexivity|reflexivity|].
  cbn [send_each demo_rpleth clients_ map fst send_to recording app] in H.
  exists m', bytes. split; [exact Hv|exact (proj1 H)].
Defined.
