(* ===== verification/Alarms.v ===== *)
(** The alarms module, [src/modules/alarms/]: entries of the alarm log
    ([AlarmEntry.cpp]), alarms with the siren they switch on
    ([AlarmInstance.cpp]), and their configuration ([AlarmsModule.cpp]).

    The database is ODB, shared by all alarms: [AlarmOdb] is what the code uses
    of it. The siren is a
    GPIO, reached by its facade. [alarm_peers] puts alarms beside other peers, so
    that what talks to alarms, the doorman above all, can be run against them. *)
From Stdlib Require Import ZArith Lia Ascii String.
From stdpp Require Import base tactics numbers list strings gmap.
From S2P Require Import Prelude Facades Ptree Wiegand Schedules Profiles Timers Doorman.

Open Scope Z_scope.

Definition STATE_DEFAULT : Z := 0.
Definition STATE_DISARMED : Z := 2.
Definition STATE_RESOLVED : Z := 3.
Definition SEVERITY_NORMAL : Z := 2.
Definition ALARM_UNKNOWN : Z := 0.

(** * AlarmEntry *)

Module AlarmEntry.

(** How long an entry took to be dealt with, and when it was made, are only
    stored. *)
Record t := mk {
  id_ : Z;
  alarm_ : string;
  reason_ : string;
  state_ : Z;
  severity_ : Z;
  type_ : Z;
}.

(** The constructor, and the pointer to the database [create] sets. *)
Definition make : t := mk 0 "" "" STATE_DEFAULT SEVERITY_NORMAL ALARM_UNKNOWN.

Definition finalized (e : t) : bool := (state_ e =? STATE_DEFAULT) || (state_ e =? STATE_RAISED).

Definition alarm (alarm_name : string) (e : t) : t :=
  mk (id_ e) alarm_name (reason_ e) (state_ e) (severity_ e) (type_ e).
Definition reason (r : string) (e : t) : t :=
  mk (id_ e) (alarm_ e) r (state_ e) (severity_ e) (type_ e).
Definition type (ty : Z) (e : t) : outcome t :=
  _ ← cassert (negb (finalized e));
  Ret (mk (id_ e) (alarm_ e) (reason_ e) (state_ e) (severity_ e) ty).
Definition severity (s : Z) (e : t) : outcome t :=
  _ ← cassert (negb (finalized e));
  Ret (mk (id_ e) (alarm_ e) (reason_ e) (state_ e) s (type_ e)).
(** The setter, up to the update of the row; it runs in a transaction. *)
Definition state (s : Z) (e : t) : outcome t :=
  _ ← cassert (negb (finalized e));
  Ret (mk (id_ e) (alarm_ e) (reason_ e) s (severity_ e) (type_ e)).

Definition generate_description (e : t) : string :=
  "Alarm" +:+ alarm_ e +:+ " of type " +:+
  (if type_ e =? 1 then "`forced`"
   else if type_ e =? 2 then "`unauthorized access`"
   else if type_ e =? 3 then "`marked as offline`"
   else if type_ e =? 4 then "`low battery`"
   else if type_ e =? 5 then "`switched to battery`"
   else if type_ e =? 6 then "`suspicious behavior`"
   else "") +:+
  " (Reason:" +:+ reason_ e +:+ ").".

End AlarmEntry.

(** The table of entries, in the database. [persist] gives the entry its id. *)
Class AlarmOdb (W : Type) := {
  persist : AlarmEntry.t -> W -> W * AlarmEntry.t;
  load_entry : Z -> W -> option AlarmEntry.t;
  update_entry : AlarmEntry.t -> W -> W;
}.

Definition create {W} `{AlarmOdb W} (alarm_name : string) (ty severity : Z) (reason : string)
  : io W AlarmEntry.t :=
  let e := AlarmEntry.alarm alarm_name AlarmEntry.make in
  e ← pure (AlarmEntry.type ty e);
  e ← pure (AlarmEntry.severity severity e);
  act (fun w => let '(w', e) := persist (AlarmEntry.reason reason e) w in (w', Ret e)).

(** [std::stoull], in base ten. *)
Definition stoull (l : list ascii) : outcome Z :=
  let l := drop_spaces l in
  let '(neg, l) := match l with
    | "-"%char :: l' => (true, l')
    | "+"%char :: l' => (false, l')
    | _ => (false, l)
    end in
  match take_digits l with
  | [] => Throw StdInvalidArgument
  | ds =>
      let v := foldl (fun a c => 10 * a + (code c - 48)) 0 ds in
      if 2 ^ 64 <=? v then Throw StdOutOfRange else Ret (if neg : bool then (- v) mod 2 ^ 64 else v)
  end.

(** * AlarmInstance *)

Module AlarmInstance.

(** [raise_counter_] is an [unsigned int]; [database_] is whether there is one. *)
Record t := mk {
  name_ : string;
  severity_ : Z;
  gpio_name_ : string;
  database_ : bool;
  raise_counter_ : Z;
}.

Definition make (name : string) (severity : Z) (gpio_name : string) (db : bool) : t :=
  mk name severity gpio_name db 0.

Definition set_counter (n : Z) (a : t) : t := mk (name_ a) (severity_ a) (gpio_name_ a) (database_ a) n.

Section instance.
Context {W : Type} `{AlarmOdb W, Peers W}.

(** The entry with this id; [load] throws when there is none. *)
Definition find_entry (alarm : string) : io W AlarmEntry.t :=
  id ← pure (stoull (chars alarm));
  act (fun w => (w, match load_entry id w with Some e => Ret e | None => Throw ObjectNotPersistent end)).

(** The time of the siren's last update is never read. *)
Definition handleGPIO (state : Z) (a : t) : io W t :=
  if state =? STATE_RAISED then
    let a := set_counter ((raise_counter_ a + 1) mod 2 ^ 32) a in
    _ ← (if (raise_counter_ a =? 1) && negb (str_empty (gpio_name_ a))
         then _ ← FGPIO.turnOn 0 (FGPIO.make (gpio_name_ a)); mret tt else mret tt);
    mret a
  else if (state =? STATE_DISARMED) || (state =? STATE_RESOLVED) then
    if 0 <? raise_counter_ a then
      let a := set_counter (raise_counter_ a - 1) a in
      _ ← (if (raise_counter_ a =? 0) && negb (str_empty (gpio_name_ a))
           then _ ← FGPIO.turnOff 0 (FGPIO.make (gpio_name_ a)); mret tt else mret tt);
      mret a
    else mret a
  else mret a.

Definition changeState (alarm : string) (state : Z) (a : t) : io W t :=
  _ ← (if database_ a then
         entry ← find_entry alarm;
         _ ← pure (cassert (AlarmEntry.state_ entry =? STATE_RAISED));
         entry ← pure (AlarmEntry.state state entry);
         act (fun w => (update_entry entry w, Ret tt))
       else mret tt);
  handleGPIO state a.

Definition raise (type : Z) (reason : string) (a : t) : io W (string * t) :=
  alarm ← (if database_ a then
             entry ← create (name_ a) type (severity_ a) reason;
             mret (to_string (AlarmEntry.id_ entry))
           else mret "single");
  a ← changeState alarm STATE_RAISED a;
  mret (alarm, a).

Definition disarm (alarm : string) (a : t) : io W t := changeState alarm STATE_DISARMED a.

Definition getState (alarm : string) (a : t) : io W Z :=
  if database_ a then entry ← find_entry alarm; mret (AlarmEntry.state_ entry) else mret STATE_UNKNOWN.

(** [catch]: the alarm is as it was, and the request refused. *)
Definition or_refuse (m : io W (message * t)) (a : t) : io W (message * t) := fun w =>
  match m w with
  | (w', Throw _) => (w', Ret ([FStr "KO"], a))
  | r => r
  end.

(** The reply to a request. [rep << "OK" >> x] reads [x] back from the reply:
    nothing more is sent. *)
Definition handle_request (msg : message) (a : t) : io W (message * t) :=
  let parts := Z.of_nat (length msg) in
  '(str, msg) ← pure (pop_str msg);
  if String.eqb str "RAISE" && (parts =? 3) then
    '(type, msg) ← pure (pop_u8 msg);
    '(reason, _) ← pure (pop_str msg);
    or_refuse ('(alarm, a) ← raise type reason a;
               _ ← pure (pop_str [FStr "OK"]);
               mret ([FStr "OK"], a)) a
  else if String.eqb str "GET_STATE" && (parts =? 2) then
    or_refuse ('(alarm, _) ← pure (pop_str msg);
               _ ← getState alarm a;
               _ ← pure (pop_u8 [FStr "OK"]);
               mret ([FStr "OK"], a)) a
  else if String.eqb str "SET_STATE" && (parts =? 3) then
    or_refuse ('(alarm, msg) ← pure (pop_str msg);
               '(state, _) ← pure (pop_u8 msg);
               a ← changeState alarm state a;
               mret ([FStr "OK"], a)) a
  else mret ([FStr "KO"], a).

(** ** Alarms beside other peers *)

(** The requests for an alarm go to it; all others to the rest of the world. *)
Fixpoint exchange_alarm (name : string) (m : message) (w : W) (l : list t) : W * list t * option message :=
  match l with
  | [] => let '(w', rep) := exchange name m w in (w', [], rep)
  | a :: l =>
      if String.eqb (name_ a) name then
        match handle_request m a w with
        | (w', Ret (rep, a')) => (w', a' :: l, Some rep)
        | (w', _) => (w', a :: l, None)
        end
      else let '(w', l', rep) := exchange_alarm name m w l in (w', a :: l', rep)
  end.

End instance.

#[export] Instance alarm_peers {W} `{AlarmOdb W, Peers W} : Peers (W * list t) := {|
  exchange name m w := let '(w', l, rep) := exchange_alarm name m w.1 w.2 in ((w', l), rep);
|}.

End AlarmInstance.

(** * AlarmsModule *)

Module AlarmsModule.

Section module.
Context {T : Type} `{PropertyTree T}.

Definition add_alarm (a : AlarmInstance.t) (s : ConfigChecker.t * list (AlarmInstance.t))
  : outcome (ConfigChecker.t * list (AlarmInstance.t)) :=
  checker ← ConfigChecker.register_object (AlarmInstance.name_ a) ALARM s.1;
  Ret (checker, s.2 ++ [a]).

Definition load_alarm (strict : bool) (s : ConfigChecker.t * list (AlarmInstance.t)) (node : string * T)
  : outcome (ConfigChecker.t * list (AlarmInstance.t)) :=
  alarm_name ← get_child node.2 "name";
  let severity := get_default as_u8 node.2 "severity" 2 in
  let gpio_name := get_default as_string node.2 "gpio" "" in
  _ ← (if str_empty gpio_name then Ret tt else config_check strict s.1 gpio_name GPIO);
  add_alarm (AlarmInstance.make (Ptree.data alarm_name) severity gpio_name false) s.

Definition load_xml_config (strict : bool) (checker : ConfigChecker.t) (module_config : T)
  : outcome (ConfigChecker.t * list (AlarmInstance.t)) :=
  alarms ← get_child module_config "alarms";
  foldM (load_alarm strict) (checker, []) (children alarms).

(** A row of the table of alarms, with the name of its GPIO. *)
Record row := mk_row { row_name : string; row_enabled : bool; row_severity : Z; row_gpio : option string }.

Definition load_db_config (rows : list row) (checker : ConfigChecker.t)
  : outcome (ConfigChecker.t * list (AlarmInstance.t)) :=
  foldM (fun s r =>
    if row_enabled r then add_alarm (AlarmInstance.make (row_name r) (row_severity r) (default "" (row_gpio r)) true) s
    else Ret s) (checker, []) rows.

Definition process_config (strict : bool) (rows : list row) (checker : ConfigChecker.t) (cfg : T)
  : outcome (ConfigChecker.t * list (AlarmInstance.t)) :=
  module_config ← get_child cfg "module_config";
  if get_default as_bool module_config "use_database" false then load_db_config rows checker
  else load_xml_config strict checker module_config.

End module.
End AlarmsModule.
Import AlarmInstance.

(** * Properties *)

Section properties.
Context {W : Type} `{AlarmOdb W, GpioCommands W}.

(** An alarm without a database, whose siren is on while something is raised. *)
Record siren_ok (a : AlarmInstance.t) (w : W) : Prop := {
  so_database : database_ a = false;
  so_counter : 0 <= raise_counter_ a < 2 ^ 32;
  so_siren : gpio_name_ a = "" \/ pin (gpio_name_ a) w = Some (0 <? raise_counter_ a);
}.

(** What a change of state does to the number of alarms raised. *)
Definition raised_after (state n : Z) : Z :=
  if state =? STATE_RAISED then n + 1
  else if (state =? STATE_DISARMED) || (state =? STATE_RESOLVED) then Z.max 0 (n - 1)
  else n.

Lemma siren_switched (on : bool) a (w : W) b : gpio_name_ a <> "" -> pin (gpio_name_ a) w = Some b ->
  exists w' g, (if on then FGPIO.turnOn 0 (FGPIO.make (gpio_name_ a)) else FGPIO.turnOff 0 (FGPIO.make (gpio_name_ a))) w =
      (w', Ret (true, g)) /\ pin (gpio_name_ a) w' = Some on.
Proof.
  intros Hne Hp. destruct on.
  - destruct (gpio_on _ _ _ Hp) as (w' & He & Hp' & _). exists w'. eexists. split; [|exact Hp'].
    apply (fgpio_command (FGPIO.make (gpio_name_ a))). exact He.
  - destruct (gpio_off _ _ _ Hp) as (w' & He & Hp' & _). exists w'. eexists. split; [|exact Hp'].
    apply (fgpio_command (FGPIO.make (gpio_name_ a))). exact He.
Qed.

(** Setting the counter, with the siren switched when it has to be. *)
Lemma siren_moved (cond on : bool) n a (w : W) : siren_ok a w -> 0 <= n < 2 ^ 32 ->
  (0 <? n) = (if cond then on else 0 <? raise_counter_ a) ->
  exists w', (_ ← (if cond && negb (str_empty (gpio_name_ a))
                  then _ ← (if on then FGPIO.turnOn 0 (FGPIO.make (gpio_name_ a))
                            else FGPIO.turnOff 0 (FGPIO.make (gpio_name_ a))); mret tt else mret tt);
             mret (set_counter n a)) w = (w', Ret (set_counter n a)) /\ siren_ok (set_counter n a) w'.
Proof.
  intros [Hdb Hc Hs] Hn Hon. destruct (decide (gpio_name_ a = "")) as [He|Hne].
  - rewrite He. cbn [str_empty negb]. rewrite andb_false_r. exists w. split; [done|]. split; [done|done|by left].
  - destruct Hs as [Hs|Hs]; [done|]. replace (negb (str_empty (gpio_name_ a))) with true by (by destruct (gpio_name_ a)).
    rewrite andb_true_r. destruct cond.
    + destruct (siren_switched on a w _ Hne Hs) as (w' & g & Hr & Hp). exists w'. split.
      * unfold mbind, io_bind. by rewrite Hr.
      * split; [done|done|]. right. cbn. by rewrite Hp, Hon.
    + exists w. split; [done|]. split; [done|done|]. right. cbn. by rewrite Hs, Hon.
Qed.

Lemma set_counter_same a : set_counter (raise_counter_ a) a = a.
Proof. by destruct a. Qed.

(** The siren is switched when the first alarm is raised and when the last one
    is disarmed. *)
Lemma handleGPIO_runs state a (w : W) : siren_ok a w -> raise_counter_ a < 2 ^ 32 - 1 ->
  exists w', handleGPIO state a w = (w', Ret (set_counter (raised_after state (raise_counter_ a)) a)) /\
    siren_ok (set_counter (raised_after state (raise_counter_ a)) a) w'.
Proof.
  intros Ha Hlt. pose proof (so_counter _ _ Ha) as Hc. unfold handleGPIO, raised_after.
  destruct (state =? STATE_RAISED).
  - rewrite Z.mod_small by lia. cbn [set_counter raise_counter_ gpio_name_].
    apply (siren_moved (raise_counter_ a + 1 =? 1) true _ _ _ Ha); [lia|].
    destruct (Z.eqb_spec (raise_counter_ a + 1) 1); destruct (Z.ltb_spec 0 (raise_counter_ a + 1)),
      (Z.ltb_spec 0 (raise_counter_ a)); lia || done.
  - destruct (_ || _); [|rewrite set_counter_same; by exists w].
    destruct (Z.ltb_spec 0 (raise_counter_ a)) as [Hpos|Hz].
    + rewrite Z.max_r by lia. cbn [set_counter raise_counter_ gpio_name_].
      apply (siren_moved (raise_counter_ a - 1 =? 0) false _ _ _ Ha); [lia|].
      destruct (Z.eqb_spec (raise_counter_ a - 1) 0); destruct (Z.ltb_spec 0 (raise_counter_ a - 1)),
        (Z.ltb_spec 0 (raise_counter_ a)); lia || done.
    + rewrite Z.max_l by lia. assert (E : set_counter 0 a = a) by (rewrite <- (set_counter_same a) at 2; f_equal; lia).
      rewrite E. by exists w.
Qed.

(** What changes the state of an alarm, and the request it is. *)
Inductive change := Raise (type : Z) (reason : string) | SetState (alarm : string) (state : Z).

Definition request_of_change (c : change) : message :=
  match c with
  | Raise ty reason => [FStr "RAISE"; FU8 ty; FStr reason]
  | SetState alarm st => [FStr "SET_STATE"; FStr alarm; FU8 st]
  end.
Definition state_of (c : change) : Z := match c with Raise _ _ => STATE_RAISED | SetState _ st => st end.

Lemma request_runs c a (w : W) : database_ a = false ->
  handle_request (request_of_change c) a w =
  or_refuse (a' ← handleGPIO (state_of c) a; mret ([FStr "OK"], a')) a w.
Proof.
  intros Hdb. destruct c as [ty reason|alarm st]; cbn [request_of_change state_of].
  - unfold handle_request, raise, changeState, or_refuse, pop_str, pop_u8. rewrite Hdb.
    cbn -[handleGPIO]. change (Z.of_nat 3 =? 3) with true. cbn -[handleGPIO].
    unfold mbind, io_bind, mret, io_ret, pure. cbn -[handleGPIO]. by destruct (handleGPIO STATE_RAISED a w) as [w' [|e|f]].
  - unfold handle_request, changeState, or_refuse, pop_str, pop_u8. rewrite Hdb.
    cbn -[handleGPIO]. change (Z.of_nat 3 =? 3) with true. cbn -[handleGPIO].
    unfold mbind, io_bind, mret, io_ret, pure. cbn -[handleGPIO]. by destruct (handleGPIO st a w) as [w' [|e|f]].
Qed.

(** Requests one after the other. *)
Definition run_requests (ms : list message) (a : AlarmInstance.t) : io W AlarmInstance.t :=
  foldIO (fun a m => '(_, a) ← handle_request m a; mret a) a ms.

(** How many alarms a sequence of changes leaves raised. *)
Definition outstanding (cs : list change) (n : Z) : Z := foldl (fun n c => raised_after (state_of c) n) n cs.

Lemma raised_after_bounds st n : 0 <= n -> 0 <= raised_after st n <= n + 1.
Proof. intros Hn. unfold raised_after. destruct (_ =? _); [lia|]. destruct (_ || _); lia. Qed.

(** C34: (invariant) The siren is on exactly while alarms are outstanding. An alarm
    without a database answers ["OK"] to every request to raise it or to change its
    state; the counter is the number raised and not yet disarmed or resolved,
    never below zero; and the siren's pin is on exactly when it is positive. *)
Theorem siren_follows_alarms cs a (w : W) : siren_ok a w -> raise_counter_ a + Z.of_nat (length cs) < 2 ^ 32 ->
  exists w', run_requests (map request_of_change cs) a w =
      (w', Ret (set_counter (outstanding cs (raise_counter_ a)) a)) /\
    (gpio_name_ a = "" \/ pin (gpio_name_ a) w' = Some (0 <? outstanding cs (raise_counter_ a))).
Proof.
  unfold run_requests. revert a w. induction cs as [|c cs IH]; intros a w Ha Hlt; cbn [map foldIO outstanding foldl].
  { exists w. rewrite set_counter_same. split; [done|apply (so_siren _ _ Ha)]. }
  pose proof (so_counter _ _ Ha) as Hc. cbn [length] in Hlt.
  destruct (handleGPIO_runs (state_of c) a w Ha ltac:(lia)) as (w1 & Hr & Ha1).
  pose proof (raised_after_bounds (state_of c) (raise_counter_ a) ltac:(lia)) as Hb.
  destruct (IH _ w1 Ha1 ltac:(cbn; lia)) as (w2 & Hr2 & Hp2). exists w2. split; [|exact Hp2].
  unfold mbind at 1, io_bind at 1. unfold mbind at 1, io_bind at 1.
  rewrite request_runs by apply (so_database _ _ Ha). unfold or_refuse. rewrite (io_bind_ret _ _ _ _ _ Hr). exact Hr2.
Qed.

(** (error) With a database, raising an alarm aborts the program: a new entry
    counts as finalised, and its type cannot be set. *)
Theorem raise_with_database_aborts ty reason a (w : W) : database_ a = true ->
  handle_request [FStr "RAISE"; FU8 ty; FStr reason] a w = (w, Fault AssertFailed).
Proof. intros Hdb. unfold handle_request, raise, or_refuse. cbn. by rewrite Hdb. Qed.

(** ** The doorman's alarms *)

(** Raising an alarm through the facade: its id never comes back. *)
Lemma falarm_raise_runs ty reason a (w : W) : siren_ok a w -> raise_counter_ a < 2 ^ 32 - 1 ->
  exists w', FAlarm.raise (name_ a) ty reason (w, [a]) = ((w', [set_counter (raise_counter_ a + 1) a]), Ret "") /\
    siren_ok (set_counter (raise_counter_ a + 1) a) w'.
Proof.
  intros Ha Hlt. destruct (handleGPIO_runs STATE_RAISED a w Ha Hlt) as (w' & Hr & Ha'). exists w'. split; [|exact Ha'].
  assert (He : exchange (name_ a) [FStr "RAISE"; FU8 ty; FStr reason] (w, [a]) =
    ((w', [set_counter (raise_counter_ a + 1) a]), Some [FStr "OK"])).
  { cbn [exchange alarm_peers exchange_alarm fst snd]. rewrite String.eqb_refl.
    pose proof (request_runs (Raise ty reason) a w (so_database _ _ Ha)) as Hq. cbn [request_of_change state_of] in Hq.
    rewrite Hq. unfold or_refuse. by rewrite (io_bind_ret _ _ _ _ _ Hr). }
  unfold FAlarm.raise, mbind at 1, io_bind at 1, ask. by rewrite He.
Qed.

Lemma set_alarm_forced_same d : DoormanDoor.alarm_forced_ d = "" -> DoormanDoor.set_alarm_forced "" d = d.
Proof. destruct d. cbn. by intros ->. Qed.

(** (error) A forced door's alarm is raised again at every update, and never
    disarmed. The id of the alarm does not come back from the alarms module, so the
    doorman does not know that it raised one: as long as the contact is open, each
    update raises one more; and when the contact closes, nothing disarms them. The
    siren stays on. *)
Theorem forced_alarm_stuck nows tgt d a (w : W) :
  AuthTarget.alarm_ (auth tgt) = Some (name_ a) -> siren_ok a w ->
  raise_counter_ a + Z.of_nat (length nows) < 2 ^ 32 ->
  DoormanDoor.contact_triggered_ d = true -> DoormanDoor.alarm_forced_ d = "" ->
  Forall (fun now => now <= DoormanDoor.contact_lastupdate_ d + ms (AuthTarget.contact_duration_ (auth tgt))) nows ->
  let a' := set_counter (raise_counter_ a + Z.of_nat (length nows)) a in
  exists w', foldIO (fun d now => DoormanModule.update_alarm now tgt d) d nows (w, [a]) = ((w', [a']), Ret d) /\
    siren_ok a' w' /\
    forall closed now, DoormanModule.update_alarm now tgt (DoormanDoor.set_contact false closed d) (w', [a']) =
      ((w', [a']), Ret (DoormanDoor.set_contact false closed d)).
Proof.
  intros Hal Ha Hlt Ht Hf Hall. cbn zeta.
  assert (Hrun : exists w', foldIO (fun d now => DoormanModule.update_alarm now tgt d) d nows (w, [a]) =
      ((w', [set_counter (raise_counter_ a + Z.of_nat (length nows)) a]), Ret d) /\
      siren_ok (set_counter (raise_counter_ a + Z.of_nat (length nows)) a) w').
  { revert a w Hal Ha Hlt. induction Hall as [|now nows Hnow Hall IH]; intros a w Hal Ha Hlt; cbn [length foldIO] in *.
    - exists w. rewrite Z.add_0_r, set_counter_same. done.
    - pose proof (so_counter _ _ Ha). destruct (falarm_raise_runs ALARM_FORCED DoormanModule.too_long a w Ha ltac:(lia)) as (w1 & Hr & Ha1).
      assert (Hu : DoormanModule.update_alarm now tgt d (w, [a]) = ((w1, [set_counter (raise_counter_ a + 1) a]), Ret d)).
      { unfold DoormanModule.update_alarm. rewrite Hal, Hf, Ht. cbn [str_empty andb].
        rewrite (proj2 (Z.leb_le _ _) Hnow), (io_bind_ret _ _ _ _ _ Hr). by rewrite set_alarm_forced_same. }
      rewrite (io_bind_ret _ _ _ _ _ Hu).
      destruct (IH (set_counter (raise_counter_ a + 1) a) w1 Hal Ha1 ltac:(cbn; lia)) as (w2 & Hr2 & Ha2).
      exists w2. cbn [set_counter raise_counter_ name_ severity_ gpio_name_ database_] in *.
      replace (raise_counter_ a + Z.of_nat (S (length nows))) with (raise_counter_ a + 1 + Z.of_nat (length nows)) by lia.
      by split. }
  destruct Hrun as (w' & Hr & Ha'). exists w'. split; [exact Hr|]. split; [exact Ha'|]. intros closed now.
  unfold DoormanModule.update_alarm. rewrite Hal. cbn [DoormanDoor.set_contact DoormanDoor.alarm_forced_
    DoormanDoor.contact_triggered_]. by rewrite Hf.
Qed.

End properties.

(** ** Witnesses *)

(** No entry is ever stored. *)
#[export] Instance no_rows : AlarmOdb (gmap string bool) := {|
  persist := fun e w => (w, e);
  load_entry := fun _ _ => None;
  update_entry := fun _ w => w;
|}.

Definition demo_siren : AlarmInstance.t := AlarmInstance.make "siren" SEVERITY_NORMAL "horn" false.
Definition siren_pins : gmap string bool := {[ "horn" := false ]}.

Lemma demo_siren_ok : siren_ok demo_siren siren_pins.
Proof. split; [done|cbn; lia|by right]. Qed.

Lemma siren_follows_witness :
  exists w' a', run_requests (map request_of_change [Raise 1 "a"; Raise 1 "b"; SetState "single" STATE_DISARMED]) demo_siren siren_pins =
    (w', Ret a') /\ raise_counter_ a' = 1 /\ pin "horn" w' = Some true.
Proof.
  destruct (siren_follows_alarms [Raise 1 "a"; Raise 1 "b"; SetState "single" STATE_DISARMED] demo_siren siren_pins demo_siren_ok)
    as (w' & Hr & [Hp|Hp]); [cbn; lia|discriminate|].
  exists w'. eexists. split; [exact Hr|]. split; [reflexivity|exact Hp].
Defined.

Lemma raise_with_database_witness :
  handle_request [FStr "RAISE"; FU8 1; FStr "forced"] (AlarmInstance.make "siren" SEVERITY_NORMAL "" true) siren_pins =
  (siren_pins, Fault AssertFailed).
Proof. apply raise_with_database_aborts. reflexivity. Defined.

Lemma forced_alarm_stuck_witness :
  let tgt := default (mk_target (AuthTarget.make "") 0) (DoormanModule.doors_ demo_module !! 0%nat) in
  let d := DoormanDoor.set_contact true 0 (DoormanDoor.make 0 (auth tgt)) in
  exists w', foldIO (fun d now => DoormanModule.update_alarm now tgt d) d [0; 2000000000; 4000000000] (siren_pins, [demo_siren]) =
    ((w', [set_counter 3 demo_siren]), Ret d) /\ pin "horn" w' = Some true.
Proof.
  intros tgt d. destruct (forced_alarm_stuck [0; 2000000000; 4000000000] tgt d demo_siren siren_pins) as (w' & Hr & Hs & _).
  - reflexivity.
  - exact demo_siren_ok.
  - cbn; lia.
  - reflexivity.
  - reflexivity.
  - repeat constructor; vm_compute; discriminate.
  - exists w'. split; [exact Hr|]. destruct (so_siren _ _ Hs) as [Hx|Hx]; [discriminate|exact Hx].
Defined.
