(* ===== verification/Led.v ===== *)
(** The LED and buzzer module, [src/modules/led-buzzer/]: the state machine of a
    device ([LedBuzzerSM.hpp]), its requests ([LedBuzzerImpl.cpp]), the main loop
    and the configuration ([LEDBuzzerModule.cpp]), and the facade of a LED
    ([src/hardware/facades/FLED.cpp]).

    The machine is Boost's MSM: an event posted by an action is processed after
    the transition under way, and an event no transition expects fails an
    assertion, the default MSM documents. The device's GPIO is reached by its
    facade. Times are in nanoseconds, durations in milliseconds. *)
From Stdlib Require Import ZArith Lia Ascii String.
From stdpp Require Import base tactics numbers list strings gmap.
From S2P Require Import Prelude Timers Facades Ptree Wiegand.

Open Scope Z_scope.

(** * The state machine *)

Module LedBuzzerSM.

Inductive State := Idle | PlayingPattern | StateBlinking.
#[export] Instance state_eq_dec : EqDecision State.
Proof. solve_decision. Defined.

Inductive event :=
  | EventUpdate
  | EventBlink (duration speed : Z)
  | EventPlayingPatternStop
  | EventPlayingPattern (pattern : list (Z * Z))
  | EventBlinkStop.

(** [FLED::State]'s enumeration. *)
Inductive led := ON | OFF | BLINKING | UNKNOWN.
#[export] Instance led_eq_dec : EqDecision led.
Proof. solve_decision. Defined.

(** The machine, with the members of its states. [speed_] and [nb_itr_] are
    [int]s. *)
Record t := mk {
  current : State;
  pattern_ : list (Z * Z);
  speed_ : Z;
  nb_itr_ : Z;
  playing_pattern_ : bool;
  st : led;
  duration : Z;
  speed : Z;
  next_update_time_ : Z;
}.

Definition make : t := mk Idle [] 0 0 false UNKNOWN 0 0 TIME_MAX.

Definition set_current (s : State) (m : t) : t :=
  mk s (pattern_ m) (speed_ m) (nb_itr_ m) (playing_pattern_ m) (st m) (duration m) (speed m) (next_update_time_ m).
Definition set_pattern (p : list (Z * Z)) (m : t) : t :=
  mk (current m) p (speed_ m) (nb_itr_ m) (playing_pattern_ m) (st m) (duration m) (speed m) (next_update_time_ m).
Definition set_iteration (n time : Z) (m : t) : t :=
  mk (current m) (pattern_ m) (speed_ m) n (playing_pattern_ m) (st m) (duration m) (speed m) time.

(** The entry actions. [now] is the reading of the clock they make. *)
Definition enter_idle (m : t) : t :=
  mk Idle (pattern_ m) (speed_ m) (nb_itr_ m) (playing_pattern_ m) (st m) (duration m) (speed m) TIME_MAX.
Definition enter_pattern (now : Z) (p : list (Z * Z)) (m : t) : t :=
  mk PlayingPattern p (speed_ m) (nb_itr_ m) true (st m) (duration m) (speed m) now.
Definition enter_blinking (now d s : Z) (m : t) : outcome t :=
  if s =? 0 then Fault DivByZero
  else if (d =? - 2 ^ 63) && (s =? -1) then Fault Overflow
  else Ret (mk StateBlinking (pattern_ m) (to_int s) (to_int (Z.quot d s)) (playing_pattern_ m) BLINKING d s now).

(** The exit actions. *)
Definition exit_blinking (m : t) : t :=
  mk (current m) (pattern_ m) (speed_ m) (nb_itr_ m) (playing_pattern_ m) UNKNOWN (duration m) (speed m) (next_update_time_ m).
Definition stop_pattern (m : t) : t :=
  mk (current m) (pattern_ m) (speed_ m) (nb_itr_ m) false (st m) (duration m) (speed m) (next_update_time_ m).

(** The rows of the table other than those of [EventUpdate]. *)
Definition transition (now : Z) (e : event) (m : t) : outcome t :=
  match current m, e with
  | Idle, EventBlink d s => enter_blinking now d s m
  | Idle, EventPlayingPattern p => Ret (enter_pattern now p m)
  | StateBlinking, EventBlinkStop =>
      if playing_pattern_ m then Ret (set_current PlayingPattern (exit_blinking m))
      else Ret (enter_idle (exit_blinking m))
  | PlayingPattern, EventBlink d s => enter_blinking now d s m
  | PlayingPattern, EventPlayingPatternStop => Ret (enter_idle (stop_pattern m))
  | _, _ => Fault AssertFailed
  end.

(** The last of a list, and the others. *)
Fixpoint pop_back {A} (l : list A) : option (list A * A) :=
  match l with
  | [] => None
  | a :: l' => match pop_back l' with
               | Some (rest, last) => Some (a :: rest, last)
               | None => Some ([], a)
               end
  end.

Section machine.
Context {W : Type} `{Peers W}.

(** [UpdateAction]: the machine, and the event it posts. *)
Definition update_action (now : Z) (gpio : string) (m : t) : io W (t * option event) :=
  match current m with
  | Idle => pure (Fault AssertFailed)
  | PlayingPattern =>
      match pop_back (pattern_ m) with
      | None => mret (m, Some EventPlayingPatternStop)
      | Some (rest, (d, s)) => mret (set_pattern rest m, Some (EventBlink d s))
      end
  | StateBlinking =>
      _ ← FGPIO.toggle now (FGPIO.make gpio);
      time ← pure (add_ms now (speed_ m));
      n ← pure (if nb_itr_ m =? - 2 ^ 31 then Fault Overflow else Ret (nb_itr_ m - 1));
      mret (set_iteration n time m, if n =? 0 then Some EventBlinkStop else None)
  end.

(** [process_event]: an event posted by the action is processed next; it posts
    none in turn. *)
Definition process_event (now : Z) (gpio : string) (e : event) (m : t) : io W t :=
  match e with
  | EventUpdate =>
      '(m, posted) ← update_action now gpio m;
      match posted with
      | Some e => pure (transition now e m)
      | None => mret m
      end
  | _ => pure (transition now e m)
  end.

End machine.
End LedBuzzerSM.
Import LedBuzzerSM.

(** * A device *)

Module LedBuzzerImpl.

Record t := mk {
  led_name : string;
  gpio_name : string;
  default_blink_duration_ : Z;
  default_blink_speed_ : Z;
  stmachine_ : LedBuzzerSM.t;
}.

Definition make (led_name gpio_name : string) (blink_duration blink_speed : Z) : t :=
  mk led_name gpio_name blink_duration blink_speed LedBuzzerSM.make.

Definition set_machine (m : LedBuzzerSM.t) (l : t) : t :=
  mk (led_name l) (gpio_name l) (default_blink_duration_ l) (default_blink_speed_ l) m.

Definition fast_to_slow : list (Z * Z) := [(5000, 1000); (2100, 700); (1000, 100)].

Definition next_update (l : t) : Z := next_update_time_ (stmachine_ l).

Section impl.
Context {W : Type} `{Peers W}.

Definition process (now : Z) (e : event) (l : t) : io W t :=
  m ← process_event now (gpio_name l) e (stmachine_ l);
  mret (set_machine m l).

Definition update (now : Z) (l : t) : io W t := process now EventUpdate l.

Definition start_blink (now : Z) (msg : message) (l : t) : io W (bool * t) :=
  '(duration, rest) ← pure (match msg with [] => Ret (default_blink_duration_ l, []) | _ => pop_int64 msg end);
  '(speed, _) ← pure (match rest with [] => Ret (default_blink_speed_ l, []) | _ => pop_int64 rest end);
  _ ← pure (cassert (speed <=? duration));
  l ← process now (EventBlink duration speed) l;
  mret (true, l).

Definition send_state (l : t) : io W message :=
  let m := stmachine_ l in
  on ← FGPIO.isOn (FGPIO.make (gpio_name l));
  mret ((if bool_decide (st m = BLINKING) then [FStr "BLINKING"; FInt64 (duration m); FInt64 (speed m)] else []) ++
        [FStr (if on : bool then "ON" else "OFF")]).

Definition handle_message (now : Z) (msg : message) (l : t) : io W (message * t) :=
  '(frame1, rest) ← pure (pop_str msg);
  if String.eqb frame1 "STATE" then rep ← send_state l; mret (rep, l)
  else if String.eqb frame1 "ON" || String.eqb frame1 "OFF" || String.eqb frame1 "TOGGLE" then
    rep ← ask (gpio_name l) msg;
    mret (rep, l)
  else if String.eqb frame1 "BLINK" then
    '(ok, l) ← start_blink now rest l;
    mret ([FStr (if ok : bool then "OK" else "KO")], l)
  else if String.eqb frame1 "FAST_TO_SLOW" then
    l ← process now (EventPlayingPattern fast_to_slow) l;
    mret ([FStr "OK"], l)
  else pure (Fault AssertFailed).

End impl.
End LedBuzzerImpl.

(** * FLED *)

Module FLED.

Record state := mk_state { st : led; duration : Z; speed : Z; value : bool }.

Section fled.
Context {W : Type} `{Peers W}.

Definition ok (name : string) (m : message) : io W bool :=
  rep ← ask_within name m;
  s ← text_of rep;
  mret (String.eqb s "OK").

Definition turnOn_for (name : string) (duration : Z) : io W bool := ok name [FStr "ON"; FInt64 duration].
Definition turnOn (name : string) : io W bool := ok name [FStr "ON"].
Definition turnOff (name : string) : io W bool := ok name [FStr "OFF"].
Definition toggle (name : string) : io W bool := ok name [FStr "TOGGLE"].
Definition blink (name : string) : io W bool := ok name [FStr "BLINK"].
Definition blink_for (name : string) (duration speed : Z) : io W bool :=
  ok name [FStr "BLINK"; FInt64 duration; FInt64 speed].

(** [state]: the parts are counted before any is taken out. *)
Definition get_state (name : string) : io W state :=
  rep ← ask name [FStr "STATE"];
  let parts := Z.of_nat (length rep) in
  '(status_str, rep) ← pure (pop_str rep);
  if String.eqb status_str "BLINKING" then
    _ ← pure (cassert (parts =? 4));
    '(duration, rep) ← pure (pop_int64 rep);
    '(speed, rep) ← pure (pop_int64 rep);
    '(status_str, _) ← pure (pop_str rep);
    _ ← pure (cassert (String.eqb status_str "ON" || String.eqb status_str "OFF"));
    mret (mk_state BLINKING duration speed (String.eqb status_str "ON"))
  else
    _ ← pure (cassert (parts =? 1));
    if String.eqb status_str "ON" then mret (mk_state ON 0 0 false)
    else if String.eqb status_str "OFF" then mret (mk_state OFF 0 0 false)
    else pure (Fault AssertFailed).

Definition isOn (name : string) : io W bool :=
  s ← get_state name;
  match st s with
  | BLINKING => mret (value s)
  | OFF => mret false
  | ON => mret true
  | UNKNOWN => pure (Fault AssertFailed)
  end.
Definition isOff (name : string) : io W bool := on ← isOn name; mret (negb on).
Definition isBlinking (name : string) : io W bool := s ← get_state name; mret (bool_decide (st s = BLINKING)).

End fled.
End FLED.

(** * The module *)

Module LEDBuzzerModule.
Import LedBuzzerImpl.

Section run.
Context {W : Type} `{Peers W}.

(** The loop over the devices, at one turn of [run]. *)
Fixpoint update_all (now : nat -> Z) (k : nat) (leds : list LedBuzzerImpl.t) : io W (list LedBuzzerImpl.t) :=
  match leds with
  | [] => mret []
  | l :: leds =>
      l ← (if next_update l <=? now k then update (now k) l else mret l);
      leds ← update_all now (S k) leds;
      mret (l :: leds)
  end.

Definition sleep (now : Z) (leds : list LedBuzzerImpl.t) : Z := compute_timeout now (map next_update leds).

End run.

Section config.
Context {T : Type} `{PropertyTree T}.

Definition loaded : Type := ConfigChecker.t * list LedBuzzerImpl.t.

Definition load_device (strict : bool) (cls : DeviceClass) (s : loaded) (node : string * T) : outcome loaded :=
  name ← get as_string node.2 "name";
  gpio_name ← get as_string node.2 "gpio";
  let default_blink_duration := get_default as_int node.2 "default_blink_duration" 1000 in
  let default_blink_speed := get_default as_int node.2 "default_blink_speed" 200 in
  _ ← config_check strict s.1 gpio_name GPIO;
  checker ← ConfigChecker.register_object name cls s.1;
  Ret (checker, s.2 ++ [make name gpio_name default_blink_duration default_blink_speed]).

Definition load_devices (strict : bool) (cls : DeviceClass) (s : loaded) (section : option T) : outcome loaded :=
  match section with
  | Some nodes => foldM (load_device strict cls) s (children nodes)
  | None => Ret s
  end.

Definition load_xml_config (strict : bool) (checker : ConfigChecker.t) (cfg : T) : outcome loaded :=
  module_config ← get_child cfg "module_config";
  s ← load_devices strict LED (checker, []) (get_child_optional module_config "leds");
  load_devices strict BUZZER s (get_child_optional module_config "buzzers").

(** A row of the tables of LEDs and buzzers, with the name of its GPIO. *)
Record row := mk_row { row_name : string; row_enabled : bool; row_gpio : option string; row_duration : Z; row_speed : Z }.

Definition load_row (cls : DeviceClass) (s : loaded) (r : row) : outcome loaded :=
  if negb (row_enabled r) then Ret s
  else match row_gpio r with
       | None => Ret s
       | Some gpio_name =>
           checker ← ConfigChecker.register_object (row_name r) cls s.1;
           Ret (checker, s.2 ++ [make (row_name r) gpio_name (row_duration r) (row_speed r)])
       end.

Definition load_db_config (leds buzzers : list row) (checker : ConfigChecker.t) : outcome loaded :=
  s ← foldM (load_row LED) (checker, []) leds;
  foldM (load_row BUZZER) s buzzers.

Definition process_config (strict : bool) (leds buzzers : list row) (checker : ConfigChecker.t) (cfg : T) : outcome loaded :=
  module_config ← get_child cfg "module_config";
  if get_default as_bool module_config "use_database" false then load_db_config leds buzzers checker
  else load_xml_config strict checker cfg.

End config.
End LEDBuzzerModule.
Import LedBuzzerImpl.

(** * Properties *)

Section properties.
Context {W : Type} `{GpioCommands W}.

(** The updates a main loop makes, at these times. *)
Definition run_updates (times : list Z) (l : LedBuzzerImpl.t) : io W LedBuzzerImpl.t :=
  foldIO (fun l now => update now l) l times.

(** The clock until the year 2116. *)
Definition clock_ok (now : Z) : Prop := 0 <= now < 2 ^ 62.

(** A blink the machine can count: at least one period, within an [int]. *)
Definition blink_ok (d s : Z) : Prop := 0 < s <= d /\ d < 2 ^ 31.

Lemma toggle_runs now g (w : W) b : pin g w = Some b ->
  exists w', FGPIO.toggle now (FGPIO.make g) w = (w', Ret (true, FGPIO.mk g now)) /\ pin g w' = Some (negb b).
Proof.
  intros Hp. destruct (gpio_toggle _ _ _ Hp) as (w' & He & Hp' & _). exists w'. split; [|exact Hp'].
  apply (fgpio_command (FGPIO.make g)). exact He.
Qed.

(** One update of a blinking device. *)
Lemma blink_step now l (w : W) b : current (stmachine_ l) = StateBlinking -> clock_ok now ->
  0 < speed_ (stmachine_ l) < 2 ^ 31 -> 0 < nb_itr_ (stmachine_ l) -> pin (gpio_name l) w = Some b ->
  let m := set_iteration (nb_itr_ (stmachine_ l) - 1) (now + ms (speed_ (stmachine_ l))) (stmachine_ l) in
  exists w', pin (gpio_name l) w' = Some (negb b) /\
    update now l w = (m' ← pure (if nb_itr_ (stmachine_ l) =? 1 then transition now EventBlinkStop m else Ret m);
                      mret (set_machine m' l)) w'.
Proof.
  intros Hc Hnow Hs Hn Hp. destruct (toggle_runs now _ _ _ Hp) as (w' & Ht & Hp'). exists w'. split; [exact Hp'|].
  unfold update, process, process_event, update_action. rewrite Hc.
  unfold mbind at 1, io_bind at 1. unfold mbind at 1, io_bind at 1. rewrite (io_bind_ret _ _ _ _ _ Ht).
  rewrite add_ms_Ret by (unfold clock_ok in *; lia). rewrite pure_bind.
  rewrite (proj2 (Z.eqb_neq (nb_itr_ (stmachine_ l)) (- 2 ^ 31))) by lia. rewrite pure_bind.
  replace (nb_itr_ (stmachine_ l) - 1 =? 0) with (nb_itr_ (stmachine_ l) =? 1)
    by (destruct (Z.eqb_spec (nb_itr_ (stmachine_ l)) 1), (Z.eqb_spec (nb_itr_ (stmachine_ l) - 1) 0); lia || done).
  by destruct (nb_itr_ (stmachine_ l) =? 1).
Qed.

(** The machine when a blink is over. *)
Definition blinked (m : LedBuzzerSM.t) (time : Z) : LedBuzzerSM.t :=
  let m := exit_blinking (set_iteration 0 time m) in
  if playing_pattern_ m then set_current PlayingPattern m else enter_idle m.

Lemma blinked_pattern m time : playing_pattern_ m = true ->
  blinked m time = set_current PlayingPattern (exit_blinking (set_iteration 0 time m)).
Proof. intros Hpl. unfold blinked. cbn [exit_blinking set_iteration playing_pattern_]. by rewrite Hpl. Qed.

(** A blink is over after as many updates as it has periods. *)
Lemma blink_runs times n l (w : W) b : current (stmachine_ l) = StateBlinking -> Forall clock_ok times ->
  0 < speed_ (stmachine_ l) < 2 ^ 31 -> nb_itr_ (stmachine_ l) = Z.of_nat n -> (0 < n)%nat -> length times = n ->
  pin (gpio_name l) w = Some b ->
  exists w' time, run_updates times l w = (w', Ret (set_machine (blinked (stmachine_ l) time) l)) /\
    pin (gpio_name l) w' = Some (xorb b (Nat.odd n)).
Proof.
  unfold run_updates. revert n l w b. induction times as [|now times IH]; intros n l w b Hc Htimes Hs Hn Hpos Hlen Hp;
    [cbn in Hlen; lia|]. apply Forall_cons in Htimes as [Hnow Htimes]. cbn [length foldIO] in *.
  destruct (blink_step now l w b Hc Hnow Hs ltac:(lia) Hp) as (w1 & Hp1 & Hr). cbn zeta in Hr.
  unfold mbind at 1, io_bind at 1. rewrite Hr. destruct (Z.eqb_spec (nb_itr_ (stmachine_ l)) 1) as [E|E].
  - assert (n = 1%nat) as -> by lia. destruct times; [|cbn in Hlen; lia].
    exists w1, (now + ms (speed_ (stmachine_ l))). split; [|by rewrite Hp1; destruct b].
    cbn [foldIO]. rewrite E. cbn [Z.sub Z.add Z.opp Z.pos_sub]. unfold transition. cbn [set_iteration current]. rewrite Hc.
    unfold blinked. cbn [exit_blinking set_iteration playing_pattern_]. by destruct (playing_pattern_ (stmachine_ l)).
  - rewrite pure_bind. destruct n as [|n]; [lia|].
    set (l1 := set_machine (set_iteration (nb_itr_ (stmachine_ l) - 1) (now + ms (speed_ (stmachine_ l))) (stmachine_ l)) l).
    destruct (IH n l1 w1 (negb b)) as (w2 & time & Hr2 & Hp2); cbn; try done; try lia.
    exists w2, time. split; [exact Hr2|]. cbn [gpio_name l1 set_machine] in Hp2. rewrite Hp2. f_equal.
    rewrite Nat.odd_succ, <- Nat.negb_odd. by destruct b, (Nat.odd n).
Qed.

Lemma enter_blinking_ok now d s m : blink_ok d s ->
  exists m', enter_blinking now d s m = Ret m' /\ current m' = StateBlinking /\ speed_ m' = s /\ nb_itr_ m' = d / s /\
    playing_pattern_ m' = playing_pattern_ m /\ pattern_ m' = pattern_ m /\ next_update_time_ m' = now.
Proof.
  intros [Hs Hd]. unfold enter_blinking. rewrite (proj2 (Z.eqb_neq s 0)), (proj2 (Z.eqb_neq d _)) by lia. cbn [andb].
  eexists. split; [reflexivity|]. cbn. rewrite Z.quot_div_nonneg by lia.
  assert (0 <= d / s <= d) by (split; [apply Z.div_pos; lia|apply Z.div_le_upper_bound; nia]).
  rewrite !to_int_small by lia. done.
Qed.

Lemma periods_pos d s : blink_ok d s -> (0 < Z.to_nat (d / s))%nat.
Proof. intros [Hs Hd]. assert (0 < d / s) by (apply Z.div_str_pos; lia). lia. Qed.

(** What a request to blink comes to. *)
Lemma blink_request now d s l (w : W) : s <= d ->
  handle_message now [FStr "BLINK"; FInt64 d; FInt64 s] l w =
  (m ← pure (transition now (EventBlink d s) (stmachine_ l)); mret ([FStr "OK"], set_machine m l)) w.
Proof.
  intros Hle. unfold handle_message, pop_str. rewrite pure_bind. cbn [String.eqb Ascii.eqb Bool.eqb orb].
  assert (Hs : start_blink now [FInt64 d; FInt64 s] l w =
    (m ← pure (transition now (EventBlink d s) (stmachine_ l)); mret (true, set_machine m l)) w).
  { unfold start_blink, pop_int64. rewrite !pure_bind, (proj2 (Z.leb_le s d) Hle). cbn [cassert]. rewrite pure_bind.
    unfold process, process_event, mbind, io_bind, pure. by destruct (transition _ _ _). }
  unfold mbind at 1, io_bind at 1. rewrite Hs. unfold mbind, io_bind, pure. by destruct (transition _ _ _).
Qed.

(** (liveness) A blink ends. Asked to blink for [d] milliseconds, changing
    every [s], an idle device answers ["OK"] and wants to be updated at once; after
    [d / s] updates it is idle again, and sleeps. Its GPIO has been toggled [d / s]
    times: when that is odd, the LED is left in the state it was not in, as the
    default of 1000 ms at 200 ms does. *)
Theorem blink_ends now times d s l (w : W) b : current (stmachine_ l) = Idle -> playing_pattern_ (stmachine_ l) = false ->
  blink_ok d s -> Forall clock_ok times -> length times = Z.to_nat (d / s) -> pin (gpio_name l) w = Some b ->
  exists l1 w' l2, handle_message now [FStr "BLINK"; FInt64 d; FInt64 s] l w = (w, Ret ([FStr "OK"], l1)) /\
    next_update l1 = now /\
    run_updates times l1 w = (w', Ret l2) /\ current (stmachine_ l2) = Idle /\ next_update l2 = TIME_MAX /\
    pin (gpio_name l) w' = Some (xorb b (Nat.odd (Z.to_nat (d / s)))).
Proof.
  intros Hc Hpl Hok Htimes Hlen Hp. destruct (enter_blinking_ok now d s (stmachine_ l) Hok) as (m1 & He & H1 & H2 & H3 & H4 & _ & H6).
  assert (Hle : s <= d) by (destruct Hok; lia). pose proof (periods_pos d s Hok) as Hpos.
  destruct (blink_runs times (Z.to_nat (d / s)) (set_machine m1 l) w b) as (w' & time & Hr & Hp'); cbn; try done.
  { rewrite H2. destruct Hok; lia. }
  { rewrite H3, Z2Nat.id; [done|lia]. }
  exists (set_machine m1 l), w', (set_machine (blinked m1 time) l). split; [|split; [exact H6|]].
  - rewrite blink_request by done. unfold transition. by rewrite Hc, He.
  - split; [exact Hr|]. unfold blinked, next_update. cbn [set_machine stmachine_ set_iteration exit_blinking playing_pattern_].
    rewrite H4, Hpl. done.
Qed.

(** (error) A device that is asked to blink while it blinks aborts the
    program: no transition expects it. *)
Theorem blink_again_aborts now d s l (w : W) : current (stmachine_ l) = StateBlinking -> s <= d ->
  handle_message now [FStr "BLINK"; FInt64 d; FInt64 s] l w = (w, Fault AssertFailed).
Proof.
  intros Hc Hle. rewrite blink_request by done. unfold transition. by rewrite Hc.
Qed.

(** The updates a pattern takes: one to begin each blink, one for each of its
    periods, and one to stop. *)
Definition periods (p : list (Z * Z)) : nat := sum_list_with (fun ds => Z.to_nat (ds.1 / ds.2)) p.
Definition pattern_updates (p : list (Z * Z)) : nat := (length p + periods p + 1)%nat.

Lemma pop_back_snoc {A} (l : list A) a : pop_back (l ++ [a]) = Some (l, a).
Proof. induction l as [|b l IH]; [done|]. cbn. by rewrite IH. Qed.

Lemma run_updates_app t1 t2 l (w : W) : run_updates (t1 ++ t2) l w = (l' ← run_updates t1 l; run_updates t2 l') w.
Proof. apply foldIO_app. Qed.

Lemma pattern_runs p times l (w : W) b : current (stmachine_ l) = PlayingPattern -> playing_pattern_ (stmachine_ l) = true ->
  pattern_ (stmachine_ l) = p -> Forall (fun ds => blink_ok ds.1 ds.2) p -> Forall clock_ok times ->
  length times = pattern_updates p -> pin (gpio_name l) w = Some b ->
  exists w' l', run_updates times l w = (w', Ret l') /\ current (stmachine_ l') = Idle /\
    playing_pattern_ (stmachine_ l') = false /\ next_update l' = TIME_MAX /\
    pin (gpio_name l) w' = Some (xorb b (Nat.odd (periods p))).
Proof.
  unfold pattern_updates. revert times l w b. induction p as [|[d s] p IH] using rev_ind; intros times l w b Hc Hpl Hpat Hall Htimes Hlen Hp.
  - destruct times as [|now [|]]; try done. unfold run_updates, foldIO, update, process, process_event, update_action. rewrite Hc, Hpat.
    cbn [pop_back]. unfold mbind, io_bind, mret, io_ret, pure, transition. rewrite Hc. do 2 eexists. split; [reflexivity|].
    split; [done|]. split; [done|]. split; [done|]. rewrite Hp. by destruct b.
  - apply Forall_app in Hall as [Hall Hok%Forall_inv]. cbn in Hok. unfold periods in *. rewrite sum_list_with_app, length_app in Hlen. cbn [length sum_list_with fst snd] in Hlen.
    destruct times as [|now times]; [cbn in Hlen; lia|]. apply Forall_cons in Htimes as [Hnow Htimes]. cbn [length] in Hlen.
    destruct (enter_blinking_ok now d s (set_pattern p (stmachine_ l)) Hok) as (m1 & He & H1 & H2 & H3 & H4 & H5 & _).
    cbn [set_pattern playing_pattern_ pattern_] in H4, H5.
    assert (Hu : update now l w = (w, Ret (set_machine m1 l))).
    { unfold update, process, process_event, update_action. rewrite Hc, Hpat, pop_back_snoc.
      unfold mbind, io_bind, mret, io_ret, pure, transition. cbn [set_pattern current]. by rewrite Hc, He. }
    set (n := Z.to_nat (d / s)) in *. rewrite <- (take_drop n times) in Htimes |- *. apply Forall_app in Htimes as [Ht1 Ht2].
    destruct (blink_runs (take n times) n (set_machine m1 l) w b) as (w1 & time & Hr1 & Hp1); try done.
    { cbn [set_machine stmachine_]. rewrite H2. destruct Hok; lia. }
    { cbn [set_machine stmachine_]. rewrite H3. unfold n. assert (0 <= d / s) by (apply Z.div_pos; destruct Hok; lia). lia. }
    { apply periods_pos, Hok. }
    { rewrite length_take. lia. }
    destruct (IH (drop n times) (set_machine (blinked m1 time) l) w1 (xorb b (Nat.odd n))) as (w2 & l2 & Hr2 & Hi2 & Hpl2 & Hn2 & Hp2);
      try done.
    { cbn [set_machine stmachine_]. by rewrite blinked_pattern by congruence. }
    { cbn [set_machine stmachine_]. rewrite blinked_pattern by congruence. cbn. congruence. }
    { cbn [set_machine stmachine_]. by rewrite blinked_pattern by congruence. }
    { rewrite length_drop. lia. }
    exists w2, l2. split; [|split; [done|split; [done|split; [done|]]]].
    + change (now :: take n times ++ drop n times) with ([now] ++ take n times ++ drop n times).
      rewrite run_updates_app, (io_bind_ret _ _ w w (set_machine m1 l))
        by (unfold run_updates; cbn [foldIO]; by rewrite (io_bind_ret _ _ _ _ _ Hu)).
      rewrite run_updates_app, (io_bind_ret _ _ _ _ _ Hr1). exact Hr2.
    + cbn [set_machine gpio_name] in Hp2. rewrite Hp2, sum_list_with_app, Nat.odd_add. cbn [sum_list_with fst snd]. fold n.
      rewrite Nat.add_0_r. f_equal. destruct b, (Nat.odd n), (Nat.odd (sum_list_with _ p)); done.
Qed.

(** (termination) The pattern ends. A device asked for [FAST_TO_SLOW] plays
    its three blinks, the last of the list first, and after 22 updates is idle
    again, ready for another, with its GPIO in the state it had. *)
Theorem fast_to_slow_ends now times l (w : W) b : current (stmachine_ l) = Idle -> Forall clock_ok times ->
  length times = 22%nat -> pin (gpio_name l) w = Some b ->
  exists l1 w' l2, handle_message now [FStr "FAST_TO_SLOW"] l w = (w, Ret ([FStr "OK"], l1)) /\
    run_updates times l1 w = (w', Ret l2) /\ current (stmachine_ l2) = Idle /\
    playing_pattern_ (stmachine_ l2) = false /\ next_update l2 = TIME_MAX /\ pin (gpio_name l) w' = Some b.
Proof.
  intros Hc Htimes Hlen Hp. set (l1 := set_machine (enter_pattern now fast_to_slow (stmachine_ l)) l).
  destruct (pattern_runs fast_to_slow times l1 w b) as (w' & l2 & Hr & H1 & H2 & H3 & Hp'); try done.
  { repeat constructor; cbn; lia. }
  exists l1, w', l2. split; [|split; [exact Hr|split; [done|split; [done|split; [done|]]]]].
  - unfold handle_message, process, process_event, pop_str. rewrite pure_bind. cbn [String.eqb Ascii.eqb Bool.eqb orb].
    unfold transition. by rewrite Hc.
  - change (gpio_name l1) with (gpio_name l) in Hp'. rewrite Hp'. by destruct b.
Qed.

End properties.

(** ** Witnesses *)

Definition demo_led : LedBuzzerImpl.t := make "led" "pin" 1000 200.
Definition led_pins : gmap string bool := {[ "pin" := false ]}.

(** The default blink: the LED stays on. *)
Lemma blink_ends_witness :
  exists l1 w' l2, handle_message 0 [FStr "BLINK"; FInt64 1000; FInt64 200] demo_led led_pins = (led_pins, Ret ([FStr "OK"], l1)) /\
    run_updates [0; 1; 2; 3; 4] l1 led_pins = (w', Ret l2) /\ current (stmachine_ l2) = Idle /\ pin "pin" w' = Some true.
Proof.
  destruct (blink_ends 0 [0; 1; 2; 3; 4] 1000 200 demo_led led_pins false) as (l1 & w' & l2 & H1 & _ & H2 & H3 & _ & H4);
    try reflexivity.
  - unfold blink_ok. lia.
  - repeat constructor; unfold clock_ok; lia.
  - exists l1, w', l2. split; [exact H1|]. split; [exact H2|]. split; [exact H3|exact H4].
Defined.

Lemma fast_to_slow_witness :
  exists l1 w' l2, handle_message 0 [FStr "FAST_TO_SLOW"] demo_led led_pins = (led_pins, Ret ([FStr "OK"], l1)) /\
    run_updates (replicate 22 5) l1 led_pins = (w', Ret l2) /\ current (stmachine_ l2) = Idle /\ pin "pin" w' = Some false.
Proof.
  destruct (fast_to_slow_ends 0 (replicate 22 5) demo_led led_pins false) as (l1 & w' & l2 & H1 & H2 & H3 & _ & _ & H4);
    try reflexivity.
  - apply Forall_replicate. unfold clock_ok. lia.
  - exists l1, w', l2. split; [exact H1|]. split; [exact H2|]. split; [exact H3|exact H4].
Defined.

Lemma blink_again_witness :
  exists l1, handle_message 0 [FStr "BLINK"; FInt64 1000; FInt64 200] demo_led led_pins = (led_pins, Ret ([FStr "OK"], l1)) /\
    handle_message 0 [FStr "BLINK"; FInt64 1000; FInt64 200] l1 led_pins = (led_pins, Fault AssertFailed).
Proof.
  eexists. split; [reflexivity|]. apply blink_again_aborts; [reflexivity|lia].
Defined.
