(* ===== verification/Tasks.v ===== *)
(** Tasks and their scheduler, [src/core/tasks/Task.cpp], [GenericTask.cpp] and
    [src/core/Scheduler.cpp], with the main loop of [src/core/kernel.cpp] that
    runs them and the threads that wait for them ([src/core/CoreAPI.cpp]).

    Tasks are shared objects: a task is an id into a store. What a task runs, and
    what it calls when it is done, is code of type [A], of which [perform] is the
    meaning: it can change the world, and enqueue other tasks. *)
From Stdlib Require Import ZArith Lia Ascii String.
From stdpp Require Import base tactics numbers list strings gmap.
From S2P Require Import Prelude.

Open Scope Z_scope.

(** * Task *)

Module Task.

(** [eptr_]: the exception that was swallowed. A callback that was not set, or
    was reset, is [None]. *)
Record t (A : Type) := mk {
  fct_ : A;
  on_success_ : option A;
  on_failure_ : option A;
  on_completion_ : option A;
  success_ : bool;
  eptr_ : option exn;
  complete_ : bool;
}.
Arguments mk {A}. Arguments fct_ {A}. Arguments on_success_ {A}. Arguments on_failure_ {A}.
Arguments on_completion_ {A}. Arguments success_ {A}. Arguments eptr_ {A}. Arguments complete_ {A}.

Definition build {A} (fct : A) : t A := mk fct None None None false None false.

Definition set_on_success {A} (c : A) (k : t A) : t A :=
  mk (fct_ k) (Some c) (on_failure_ k) (on_completion_ k) (success_ k) (eptr_ k) (complete_ k).
Definition set_on_failure {A} (c : A) (k : t A) : t A :=
  mk (fct_ k) (on_success_ k) (Some c) (on_completion_ k) (success_ k) (eptr_ k) (complete_ k).
Definition set_on_completion {A} (c : A) (k : t A) : t A :=
  mk (fct_ k) (on_success_ k) (on_failure_ k) (Some c) (success_ k) (eptr_ k) (complete_ k).

(** What [run] writes: the result of [do_run], and the end. *)
Definition set_result {A} (r : outcome bool) (k : t A) : t A :=
  match r with
  | Ret b => mk (fct_ k) (on_success_ k) (on_failure_ k) (on_completion_ k) b (eptr_ k) (complete_ k)
  | Throw e => mk (fct_ k) (on_success_ k) (on_failure_ k) (on_completion_ k) (success_ k) (Some e) (complete_ k)
  | Fault _ => k
  end.
Definition finish {A} (k : t A) : t A := mk (fct_ k) None None None (success_ k) (eptr_ k) true.

End Task.

(** * The system *)

(** The queue of the main thread; [POOL] has none, its tasks run each on a thread
    of its own. *)
Inductive TargetThread := MAIN | POOL.
#[export] Instance target_thread_eq_dec : EqDecision TargetThread.
Proof. solve_decision. Defined.

(** [pool]: the threads started that have not run their task yet; [todo]: what is
    left to run of the update under way on the main thread. *)
Record sys (A W : Type) := mk_sys {
  tasks : gmap nat (Task.t A);
  queue : list nat;
  pool : list nat;
  todo : nat;
  world : W;
}.
Arguments mk_sys {A W}. Arguments tasks {A W}. Arguments queue {A W}. Arguments pool {A W}. Arguments todo {A W}.
Arguments world {A W}.

Section tasks.
Context {A W : Type}.

(** Code over the system. *)
Definition code_of (B : Type) : Type := sys A W -> sys A W * outcome B.

Definition set_tasks (m : gmap nat (Task.t A)) (s : sys A W) : sys A W := mk_sys m (queue s) (pool s) (todo s) (world s).
Definition set_queue (l : list nat) (s : sys A W) : sys A W := mk_sys (tasks s) l (pool s) (todo s) (world s).
Definition set_pool (l : list nat) (s : sys A W) : sys A W := mk_sys (tasks s) (queue s) l (todo s) (world s).
Definition set_todo (n : nat) (s : sys A W) : sys A W := mk_sys (tasks s) (queue s) (pool s) n (world s).
Definition set_world (w : W) (s : sys A W) : sys A W := mk_sys (tasks s) (queue s) (pool s) (todo s) w.

Definition update_task (f : Task.t A -> Task.t A) (t : nat) (s : sys A W) : sys A W := set_tasks (alter f t (tasks s)) s.

(** A new task; the smallest id that is free. *)
Definition fresh_id (s : sys A W) : nat := fresh (dom (tasks s)).
Definition make_task (k : Task.t A) (s : sys A W) : sys A W * nat :=
  (set_tasks (<[fresh_id s := k]> (tasks s)) s, fresh_id s).

(** [Scheduler::enqueue]. *)
Definition enqueue (t : nat) (policy : TargetThread) (s : sys A W) : sys A W :=
  match policy with
  | POOL => set_pool (pool s ++ [t]) s
  | MAIN => set_queue (queue s ++ [t]) s
  end.

Context (perform : A -> code_of bool).

(** ** Task::run *)

(** A callback; its result is not used, and an exception leaves [run]. *)
Definition call (c : option A) : code_of unit := fun s =>
  match c with
  | None => (s, Ret tt)
  | Some a => match perform a s with
              | (s, Ret _) => (s, Ret tt)
              | (s, Throw e) => (s, Throw e)
              | (s, Fault f) => (s, Fault f)
              end
  end.

Definition run_callbacks (t : nat) : code_of unit := fun s =>
  match tasks s !! t with
  | None => (s, Fault NullDeref)
  | Some k =>
      match call (if Task.success_ k then Task.on_success_ k else Task.on_failure_ k) s with
      | (s, Ret _) =>
          match tasks s !! t with
          | None => (s, Fault NullDeref)
          | Some k => call (Task.on_completion_ k) s
          end
      | r => r
      end
  end.

(** [run] up to where the callbacks are reset and the end is published. *)
Definition run_body (t : nat) : code_of unit := fun s =>
  match tasks s !! t with
  | None => (s, Fault NullDeref)
  | Some k =>
      match perform (Task.fct_ k) s with
      | (s, Fault f) => (s, Fault f)
      | (s, r) => run_callbacks t (update_task (Task.set_result r) t s)
      end
  end.

Definition run (t : nat) : code_of unit := fun s =>
  match run_body t s with
  | (s, Ret _) => (update_task Task.finish t s, Ret tt)
  | r => r
  end.

(** Run where an exception ends the program: on a thread, and in [update], which
    is [noexcept]. *)
Definition run_noexcept (t : nat) : code_of unit := fun s =>
  match run t s with
  | (s, Throw _) => (s, Fault Terminated)
  | r => r
  end.

(** ** Scheduler::update, on the main thread *)

(** One turn of its loop: a task is taken from the queue, and run. *)
Definition pop_and_run : code_of unit := fun s =>
  match queue s with
  | [] => (s, Fault OutOfBounds)
  | t :: l => run_noexcept t (set_queue l s)
  end.

Fixpoint run_some (n : nat) : code_of unit := fun s =>
  match n with
  | O => (s, Ret tt)
  | S n => match pop_and_run s with
           | (s, Ret _) => run_some n s
           | r => r
           end
  end.

Definition update : code_of unit := fun s => run_some (length (queue s)) s.

(** What an update should do: run these tasks, in this order, each taken off the
    queue first. *)
Fixpoint run_in_order (l : list nat) : code_of unit := fun s =>
  match l with
  | [] => (s, Ret tt)
  | t :: l => match run_noexcept t (set_queue (tail (queue s)) s) with
              | (s, Ret _) => run_in_order l s
              | r => r
              end
  end.

(** ** Threads *)

(** What happens at once: the main loop reads the size of the queue when an update
    begins, and then takes and runs one task at a time; a thread of the pool runs
    its task; another thread, and whatever the main loop does between two updates,
    changes the system as [client] says. Tasks under way share nothing but the
    scheduler. *)
Context (client : sys A W -> sys A W -> Prop).

Inductive step : sys A W -> sys A W -> Prop :=
  | step_update s : todo s = O -> step s (set_todo (length (queue s)) s)
  | step_main n s s' : todo s = S n -> pop_and_run (set_todo n s) = (s', Ret tt) -> step s s'
  | step_pool l1 t l2 s s' : pool s = l1 ++ t :: l2 -> run_noexcept t (set_pool (l1 ++ l2) s) = (s', Ret tt) -> step s s'
  | step_client s s' : client s s' -> step s s'.

Definition steps : sys A W -> sys A W -> Prop := rtc step.

(** ** Task::wait, and the calls of [CoreAPI] *)

(** What a thread that waits sees; it waits for ever in a system where no step
    completes the task. *)
Definition is_complete (t : nat) (s : sys A W) : bool :=
  match tasks s !! t with Some k => Task.complete_ k | None => false end.

Definition wait (t : nat) : code_of unit := fun s => (s, if is_complete t s then Ret tt else Fault Blocked).

(** [CoreAPI::config_version] and its like, called on the main thread: nothing
    else runs the queue. *)
Definition call_on_main (a : A) : code_of unit := fun s =>
  let '(s, t) := make_task (Task.build a) s in wait t (enqueue t MAIN s).

(** Called on another thread: the task is enqueued; the call returns later, in a
    state where the task is complete. *)
Definition begin_call (a : A) (s : sys A W) : sys A W * nat :=
  let '(s, t) := make_task (Task.build a) s in (enqueue t MAIN s, t).

End tasks.

(** * Code that keeps the rules *)

(** What code may do to the system: it adds to the queue and to the pool, leaves
    the update under way alone, forgets no task and undoes none. *)
Definition grows {A W} (s s' : sys A W) : Prop :=
  (exists l, queue s' = queue s ++ l) /\ (exists l, pool s' = pool s ++ l) /\ todo s' = todo s /\
  forall t, is_Some (tasks s !! t) -> is_Some (tasks s' !! t) /\ (is_complete t s = true -> is_complete t s' = true).

Definition callbacks {A} (k : Task.t A) : list (option A) :=
  [Task.on_success_ k; Task.on_failure_ k; Task.on_completion_ k].

(** What is queued exists, and no callback is code that may throw. *)
Definition sound {A W} (may_throw : A -> bool) (s : sys A W) : Prop :=
  Forall (fun t => is_Some (tasks s !! t)) (queue s ++ pool s) /\
  forall t k a, tasks s !! t = Some k -> List.In (Some a) (callbacks k) -> may_throw a = false.

(** Code runs to its end and keeps the rules; only a task's own function may
    throw. *)
Class TaskCode {A W} (perform : A -> sys A W -> sys A W * outcome bool) (may_throw : A -> bool) : Prop :=
  code_runs : forall a s, sound may_throw s -> exists s' r, perform a s = (s', r) /\ grows s s' /\ sound may_throw s' /\
    match r with Ret _ => True | Throw _ => may_throw a = true | Fault _ => False end.

Section rules.
Context {A W : Type} (perform : A -> sys A W -> sys A W * outcome bool) (may_throw : A -> bool).
Context `{!TaskCode perform may_throw}.
Abbreviation system := (sys A W).

Lemma grows_refl (s : system) : grows s s.
Proof. split; [by exists []; rewrite app_nil_r|]. split; [by exists []; rewrite app_nil_r|]. done. Qed.

Lemma grows_trans (s1 s2 s3 : system) : grows s1 s2 -> grows s2 s3 -> grows s1 s3.
Proof.
  intros ([l1 H1] & [p1 P1] & T1 & K1) ([l2 H2] & [p2 P2] & T2 & K2).
  split; [exists (l1 ++ l2); by rewrite H2, H1, app_assoc|].
  split; [exists (p1 ++ p2); by rewrite P2, P1, app_assoc|]. split; [congruence|].
  intros t Ht. destruct (K1 t Ht) as [Hs Hc]. destruct (K2 t Hs) as [Hs' Hc']. auto.
Qed.

Lemma update_task_grows f t (s : system) : (forall k, Task.complete_ k = true -> Task.complete_ (f k) = true) ->
  grows s (update_task f t s).
Proof.
  intros Hf. split; [by exists []; rewrite app_nil_r|]. split; [by exists []; rewrite app_nil_r|]. split; [done|].
  intros u Hu. unfold is_complete, update_task, set_tasks. cbn [tasks]. destruct (decide (u = t)) as [->|Hne].
  - rewrite lookup_alter_eq. destruct Hu as [k Hk]. rewrite Hk. cbn. split; [by eexists|apply Hf].
  - by rewrite lookup_alter_ne.
Qed.

Lemma update_task_sound f t (s : system) : (forall k, callbacks (f k) = callbacks k \/ callbacks (f k) = [None; None; None]) ->
  sound may_throw s -> sound may_throw (update_task f t s).
Proof.
  intros Hf [Hq Hc]. unfold update_task, set_tasks. split; cbn [tasks queue pool].
  - eapply Forall_impl; [exact Hq|]. intros u [k Hk]. destruct (decide (u = t)) as [->|Hne].
    + rewrite lookup_alter_eq, Hk. by eexists.
    + rewrite lookup_alter_ne by done. by eexists.
  - intros u k a. destruct (decide (u = t)) as [->|Hne].
    + rewrite lookup_alter_eq. destruct (tasks s !! t) as [k0|] eqn:E; [|done]. intros [= <-].
      destruct (Hf k0) as [->| ->]; [by apply (Hc t)|by intros [|[|[|]]]].
    + rewrite lookup_alter_ne by done. apply Hc.
Qed.

(** A callback that is allowed. *)
Lemma call_runs c (s : system) : sound may_throw s -> (forall a, c = Some a -> may_throw a = false) ->
  exists s', call perform c s = (s', Ret tt) /\ grows s s' /\ sound may_throw s'.
Proof.
  intros Hs Hc. destruct c as [a|]; cbn; [|by exists s; split; [|split; [apply grows_refl|]]].
  destruct (code_runs a s Hs) as (s' & r & -> & Hg & Hs' & Hr). specialize (Hc a eq_refl).
  destruct r; [by exists s'|congruence|done].
Qed.

Lemma run_body_runs t (s : system) : sound may_throw s -> is_Some (tasks s !! t) ->
  exists s', run_body perform t s = (s', Ret tt) /\ grows s s' /\ sound may_throw s'.
Proof.
  intros Hs [k Hk]. unfold run_body. rewrite Hk.
  destruct (code_runs (Task.fct_ k) s Hs) as (s1 & r & -> & Hg1 & Hs1 & Hr).
  set (s2 := update_task (Task.set_result r) t s1).
  assert (H2 : grows s1 s2 /\ sound may_throw s2).
  { split; [apply update_task_grows; by destruct r|apply update_task_sound; [|done]; intros k'; left; by destruct r]. }
  destruct H2 as [Hg2 Hs2].
  assert (Hrc : exists s', run_callbacks perform t s2 = (s', Ret tt) /\ grows s2 s' /\ sound may_throw s').
  { assert (Hin : is_Some (tasks s2 !! t)) by (by apply (proj2 (proj2 (proj2 Hg2))), (proj2 (proj2 (proj2 Hg1)))).
    unfold run_callbacks. destruct Hin as [k2 Hk2]. rewrite Hk2. pose proof (fun a => proj2 Hs2 t k2 a Hk2) as Hcb.
    destruct (call_runs (if Task.success_ k2 then Task.on_success_ k2 else Task.on_failure_ k2) s2 Hs2) as (s3 & -> & Hg3 & Hs3).
    { intros a Ha. apply Hcb. rewrite <- Ha. unfold callbacks. destruct (Task.success_ k2); cbn; auto. }
    destruct (proj2 (proj2 (proj2 Hg3)) t ltac:(by exists k2)) as [[k3 Hk3] _]. rewrite Hk3.
    destruct (call_runs (Task.on_completion_ k3) s3 Hs3) as (s4 & -> & Hg4 & Hs4).
    { intros a Ha. apply (proj2 Hs3 t k3 a Hk3). rewrite <- Ha. cbn. auto. }
    exists s4. split; [done|]. split; [|done]. by eapply grows_trans. }
  destruct Hrc as (s' & Hrun & Hg' & Hs'). exists s'.
  destruct r; [| |done]; fold s2; rewrite Hrun; (split; [done|]); (split; [|done]);
    (eapply grows_trans; [exact Hg1|]; by eapply grows_trans).
Qed.

(** A task runs to its end, and is complete. *)
Lemma run_completes t (s : system) : sound may_throw s -> is_Some (tasks s !! t) ->
  exists s', run_noexcept perform t s = (s', Ret tt) /\ grows s s' /\ sound may_throw s' /\ is_complete t s' = true.
Proof.
  intros Hs Ht. destruct (run_body_runs t s Hs Ht) as (s1 & Hr & Hg & Hs1). exists (update_task Task.finish t s1).
  unfold run_noexcept, run. rewrite Hr. split; [done|]. split; [|split].
  - eapply grows_trans; [exact Hg|]. by apply update_task_grows.
  - apply update_task_sound; [|done]. intros k'. by right.
  - destruct (proj2 (proj2 (proj2 Hg)) t Ht) as [[k Hk] _].
    unfold is_complete, update_task, set_tasks. cbn [tasks]. by rewrite lookup_alter_eq, Hk.
Qed.

Lemma pop_runs t l (s : system) : sound may_throw s -> queue s = t :: l ->
  exists s' l', pop_and_run perform s = (s', Ret tt) /\ queue s' = l ++ l' /\ todo s' = todo s /\ sound may_throw s' /\
    is_complete t s' = true /\ forall u, is_complete u s = true -> is_complete u s' = true.
Proof.
  intros Hs Hq. unfold pop_and_run. rewrite Hq.
  assert (Hs0 : sound may_throw (set_queue l s)).
  { destruct Hs as [Hf Hc]. split; [|exact Hc]. rewrite Hq in Hf. by apply Forall_cons in Hf as [_ Hf]. }
  assert (Ht : is_Some (tasks s !! t)) by (destruct Hs as [Hf _]; rewrite Hq in Hf; by apply Forall_cons in Hf as [? _]).
  destruct (run_completes t (set_queue l s) Hs0 Ht) as (s' & Hr & ([l' Hl] & _ & Htodo & Hk) & Hs' & Hc).
  exists s', l'. split; [exact Hr|]. split; [exact Hl|]. split; [exact Htodo|]. split; [done|]. split; [done|].
  intros u Hu. assert (is_Some (tasks s !! u)) as Hin by (unfold is_complete in Hu; destruct (tasks s !! u); [by eexists|done]).
  by apply (Hk u Hin).
Qed.

Lemma run_some_runs l l' (s : system) : sound may_throw s -> queue s = l ++ l' ->
  exists s' more, run_some perform (length l) s = (s', Ret tt) /\ run_in_order perform l s = (s', Ret tt) /\
    queue s' = l' ++ more /\ sound may_throw s' /\ todo s' = todo s /\
    Forall (fun t => is_complete t s' = true) l /\ forall u, is_complete u s = true -> is_complete u s' = true.
Proof.
  revert l' s. induction l as [|t l IH]; intros l' s Hs Hq.
  { exists s, []. cbn. rewrite app_nil_r. split; [done|]. split; [done|]. done. }
  destruct (pop_runs t (l ++ l') s Hs Hq) as (s1 & more & Hp & Hq1 & Ht1 & Hs1 & Hc1 & Hk1).
  rewrite <- app_assoc in Hq1. destruct (IH (l' ++ more) s1 Hs1 Hq1) as (s2 & more2 & Hr & Ho & Hq2 & Hs2 & Ht2 & Hall & Hk2).
  exists s2, (more ++ more2). cbn [length run_some run_in_order]. unfold pop_and_run in Hp. unfold pop_and_run at 1.
  rewrite Hq in *. cbn [app tail] in *. rewrite Hp. split; [done|]. split; [done|].
  rewrite app_assoc. split; [done|]. split; [done|]. split; [congruence|]. split; [constructor; auto|auto].
Qed.

(** (equivalence) An update of the scheduler runs the tasks that were queued when
    it began, each once, in the order they were queued, and ends: what they
    enqueue waits for the next update, even when a task enqueues itself. *)
Theorem update_in_order (s : system) : sound may_throw s ->
  exists s', update perform s = (s', Ret tt) /\ run_in_order perform (queue s) s = (s', Ret tt) /\
    sound may_throw s' /\ Forall (fun t => is_complete t s' = true) (queue s).
Proof.
  intros Hs. destruct (run_some_runs (queue s) [] s Hs (eq_sym (app_nil_r _))) as (s' & more & Hr & Ho & _ & Hs' & _ & Hall & _).
  by exists s'.
Qed.

(** ** Interleavings *)

Context (client : system -> system -> Prop).
Hypothesis client_keeps : forall s s', client s s' -> sound may_throw s -> grows s s' /\ sound may_throw s'.

(** The task is complete, or among those the update under way still has to run. *)
Definition served (t : nat) (s : system) : Prop := is_complete t s = true \/ t ∈ take (todo s) (queue s).

Lemma grows_served t (s s' : system) : grows s s' -> sound may_throw s -> served t s -> served t s'.
Proof.
  intros ([l Hq] & _ & Ht & Hk) Hs [Hc|Hin].
  - left. apply Hk; [|done]. unfold is_complete in Hc. destruct (tasks s !! t); [by eexists|done].
  - right. rewrite Ht, Hq, take_app. set_solver.
Qed.

Lemma step_served t (s s' : system) : step perform client s s' -> sound may_throw s -> served t s ->
  served t s' /\ sound may_throw s'.
Proof.
  intros Hstep Hs Hserved. destruct Hstep as [s Htodo|n s s' Htodo Hpop|l1 u l2 s s' Hpool Hrun|s s' Hcl].
  - split; [|exact Hs]. destruct Hserved as [Hc|Hin]; [by left|]. rewrite Htodo in Hin. by apply elem_of_nil in Hin.
  - assert (Hs0 : sound may_throw (set_todo n s)) by exact Hs. destruct (queue s) as [|v l] eqn:Hq.
    { unfold pop_and_run in Hpop. cbn in Hpop. by rewrite Hq in Hpop. }
    destruct (pop_runs v l (set_todo n s) Hs0 Hq) as (s1 & l' & Hp & Hq1 & Ht1 & Hs1 & Hc1 & Hk1).
    rewrite Hpop in Hp. injection Hp as <-. split; [|done]. destruct Hserved as [Hc|Hin]; [left; by apply Hk1|].
    rewrite Htodo, Hq in Hin. cbn [take] in Hin. apply elem_of_cons in Hin as [->|Hin]; [by left|].
    right. rewrite Ht1, Hq1, take_app. cbn [set_todo todo]. set_solver.
  - assert (Hs0 : sound may_throw (set_pool (l1 ++ l2) s)).
    { destruct Hs as [Hf Hc]. split; [|exact Hc]. cbn. rewrite Hpool, app_assoc in Hf.
      rewrite app_assoc. apply Forall_app in Hf as [H1 [_ H2]%Forall_cons]. by apply Forall_app. }
    assert (Hu : is_Some (tasks s !! u)).
    { destruct Hs as [Hf _]. rewrite Forall_forall in Hf. apply Hf. rewrite Hpool. set_solver. }
    destruct (run_completes u (set_pool (l1 ++ l2) s) Hs0 Hu) as (s1 & Hr & Hg & Hs1 & _).
    rewrite Hrun in Hr. injection Hr as <-. split; [|done]. by apply (grows_served t (set_pool (l1 ++ l2) s)).
  - destruct (client_keeps _ _ Hcl Hs) as [Hg Hs']. split; [|done]. by apply (grows_served t s).
Qed.

(** C28: (liveness) A thread that has enqueued a task on the main thread, and waits
    for it, is answered. Once the main loop begins an update, and whatever other
    threads do meanwhile, the task stays among those the update will run until it
    is complete; the main loop can always go on; and when the update ends the task
    is complete. *)
Theorem waiting_task_completed t (s s' : system) : sound may_throw s -> todo s = O -> t ∈ queue s ->
  steps perform client (set_todo (length (queue s)) s) s' ->
  served t s' /\ (todo s' = O -> snd (wait t s') = Ret tt) /\
  (forall n, todo s' = S n -> t ∈ take (todo s') (queue s') ->
     exists s'', step perform client s' s'' /\ todo s'' = n).
Proof.
  intros Hs Htodo Ht Hsteps.
  assert (Hinv : served t s' /\ sound may_throw s').
  { assert (H0 : served t (set_todo (length (queue s)) s)) by (right; cbn; by rewrite firstn_all).
    assert (Hs0 : sound may_throw (set_todo (length (queue s)) s)) by exact Hs. revert H0 Hs0.
    induction Hsteps as [|x y z Hxy Hyz IH]; [done|]. intros Hx Hsx.
    destruct (step_served t x y Hxy Hsx Hx) as [Hy Hsy]. by apply IH. }
  destruct Hinv as [Hserved Hs']. split; [done|]. split.
  - intros H0. destruct Hserved as [Hc|Hin]; [unfold wait; cbn; by rewrite Hc|]. rewrite H0 in Hin. by apply elem_of_nil in Hin.
  - intros n Hn Hin. destruct (queue s') as [|u l] eqn:Hq; [rewrite take_nil in Hin; by apply elem_of_nil in Hin|].
    destruct (pop_runs u l (set_todo n s') Hs' Hq) as (s2 & l' & Hp & _ & Ht2 & _).
    exists s2. split; [by eapply step_main|exact Ht2].
Qed.

End rules.

(** (error) The calls of [CoreAPI] must not be made on the main thread: it waits
    for a task only itself could run. *)
Theorem main_thread_call_blocks {A W} (a : A) (s : sys A W) :
  exists s', call_on_main a s = (s', Fault Blocked).
Proof.
  unfold call_on_main, make_task, wait, is_complete. cbn. rewrite lookup_insert_eq. cbn. by eexists.
Qed.

(** ** Code for the examples *)

(** Code that counts, fails, throws, or enqueues a task. *)
Inductive demo_code := Count (n : Z) | Refuse | Explode | Enqueue (t : nat).

Definition demo_perform (a : demo_code) (s : sys demo_code Z) : sys demo_code Z * outcome bool :=
  match a with
  | Count n => (set_world (world s + n) s, Ret true)
  | Refuse => (s, Ret false)
  | Explode => (s, Throw (StdRuntimeError "boom"))
  | Enqueue t => if bool_decide (is_Some (tasks s !! t)) then (enqueue t MAIN s, Ret true) else (s, Ret false)
  end.

Definition demo_throws (a : demo_code) : bool := match a with Explode => true | _ => false end.

#[export] Instance demo_code_rules : TaskCode demo_perform demo_throws.
Proof.
  intros a s Hs. pose proof (grows_refl s) as Hg. destruct a as [n| | |t]; cbn.
  - do 2 eexists. split; [reflexivity|]. split; [exact Hg|]. by split.
  - do 2 eexists. split; [reflexivity|]. by split.
  - do 2 eexists. split; [reflexivity|]. by split.
  - destruct (bool_decide_reflect (is_Some (tasks s !! t))) as [Ht|]; [|by do 2 eexists].
    do 2 eexists. split; [reflexivity|]. split; [|split; [|done]].
    + split; [by exists [t]|]. split; [by exists []; rewrite app_nil_r|]. done.
    + destruct Hs as [Hf Hc]. split; [|exact Hc]. cbn. apply Forall_app in Hf as [H1 H2].
      apply Forall_app. split; [|done]. apply Forall_app. by repeat constructor.
Qed.

(** A task that enqueues itself, one that throws and then counts, and one on the
    pool. *)
Definition demo_sys : sys demo_code Z :=
  mk_sys (<[0%nat := Task.build (Enqueue 0)]> (<[1%nat := Task.set_on_failure (Count 1) (Task.build Explode)]>
    {[ 2%nat := Task.set_on_success (Enqueue 1) (Task.build (Count 40)) ]})) [0%nat; 1%nat] [2%nat] 0 1.

Lemma demo_sys_sound : sound demo_throws demo_sys.
Proof.
  split; [repeat constructor; vm_compute; by eexists|]. intros t k a Hk Hin.
  unfold demo_sys in Hk. cbn [tasks] in Hk. rewrite !lookup_insert_Some, lookup_singleton_Some in Hk.
  destruct Hk as [[<- <-]|[_ [[<- <-]|[_ [<- <-]]]]]; cbn in Hin; naive_solver.
Qed.

Lemma update_in_order_witness : exists s', update demo_perform demo_sys = (s', Ret tt) /\ world s' = 2 /\
  Forall (fun t => is_complete t s' = true) [0%nat; 1%nat].
Proof.
  destruct (update_in_order demo_perform demo_throws demo_sys demo_sys_sound) as (s' & Hu & _ & _ & Hc).
  exists s'. split; [exact Hu|]. split; [|exact Hc]. vm_compute in Hu. injection Hu as <-. reflexivity.
Defined.

(** Another thread that enqueues its tasks as it likes. *)
Definition demo_client (s s' : sys demo_code Z) : Prop :=
  exists t, is_Some (tasks s !! t) /\ s' = enqueue t MAIN s.

Lemma demo_client_keeps s s' : demo_client s s' -> sound demo_throws s -> grows s s' /\ sound demo_throws s'.
Proof.
  intros (t & Ht & ->) [Hf Hc]. split.
  - split; [by exists [t]|]. split; [by exists []; rewrite app_nil_r|]. done.
  - split; [|exact Hc]. cbn. apply Forall_app in Hf as [H1 H2]. apply Forall_app. split; [|done].
    apply Forall_app. by repeat constructor.
Qed.

(** The pool's task is run between the two of the update, and another thread
    enqueues a task. *)
Definition demo_s1 : sys demo_code Z := fst (pop_and_run demo_perform (set_todo 1 demo_sys)).
Definition demo_s2 : sys demo_code Z := fst (run_noexcept demo_perform 2 (set_pool [] demo_s1)).
Definition demo_s3 : sys demo_code Z := enqueue 2 MAIN demo_s2.
Definition demo_s4 : sys demo_code Z := fst (pop_and_run demo_perform (set_todo 0 demo_s3)).

Lemma demo_steps : steps demo_perform demo_client (set_todo 2 demo_sys) demo_s4.
Proof.
  eapply rtc_l; [apply (step_main _ _ 1 _ demo_s1); vm_compute; reflexivity|].
  eapply rtc_l; [apply (step_pool _ _ [] 2 [] _ demo_s2); vm_compute; reflexivity|].
  eapply rtc_l; [apply step_client; exists 2%nat; split; [by vm_compute; eexists|reflexivity]|].
  eapply rtc_l; [apply (step_main _ _ 0 _ demo_s4); vm_compute; reflexivity|]. apply rtc_refl.
Qed.

Lemma waiting_task_witness : world demo_s4 = 42 /\ snd (wait 1 demo_s4) = Ret tt.
Proof.
  split; [vm_compute; reflexivity|].
  apply (waiting_task_completed demo_perform demo_throws demo_client demo_client_keeps 1 demo_sys demo_s4).
  - exact demo_sys_sound.
  - reflexivity.
  - apply list_elem_of_In. right. left. reflexivity.
  - exact demo_steps.
  - vm_compute. reflexivity.
Defined.
