(* ===== verification/Trees.v ===== *)
(** Property trees that are changed, saved and sent, as the configuration manager
    and the kernel use them: the rest of Boost's interface, as a class over
    [Ptree.PropertyTree], with the laws Boost documents and an instance for
    [Ptree.xml]. *)
From Stdlib Require Import ZArith Lia Ascii String.
From stdpp Require Import base tactics numbers list strings countable pretty.
From S2P Require Import Prelude Ptree.

Open Scope Z_scope.

(** [add_child], [put_child] and [erase] of a key; [set_data] writes the data of a
    node; [text_archive] and [load_archive] are Boost's serialization. *)
Class MutableTree (T : Type) `{PropertyTree T} := {
  empty_tree : T;
  set_data : string -> T -> T;
  add_child : string -> T -> T -> T;
  put_child : string -> T -> T -> T;
  erase : string -> T -> T;
  as_u64 : string -> option Z;
  text_archive : T -> string;
  load_archive : string -> option T;
}.

(** A key that is not a path of several steps. *)
Definition simple (k : string) : Prop := existsb (Ascii.eqb ".") (chars k) = false.

(** An association list: the first pair of a key, and its replacement. *)
Definition assoc {A} (k : string) (l : list (string * A)) : option A :=
  snd <$> List.find (fun kv => String.eqb (fst kv) k) l.

Fixpoint put_assoc {A} (k : string) (v : A) (l : list (string * A)) : list (string * A) :=
  match l with
  | [] => [(k, v)]
  | kv :: l => if String.eqb (fst kv) k then (k, v) :: l else kv :: put_assoc k v l
  end.

Definition without {A} (k : string) (l : list (string * A)) : list (string * A) :=
  List.filter (fun kv => negb (String.eqb (fst kv) k)) l.

Class MutableTreeLaws (T : Type) `{MutableTree T} := {
  data_set v (t : T) : data (set_data v t) = v;
  children_empty : children (empty_tree : T) = [];
  children_set v (t : T) : children (set_data v t) = children t;
  children_add k v (t : T) : simple k -> children (add_child k v t) = children t ++ [(k, v)];
  children_put k v (t : T) : simple k -> children (put_child k v t) = put_assoc k v (children t);
  children_erase k (t : T) : children (erase k t) = without k (children t);
  child_assoc k (t : T) : simple k -> get_child_optional t k = assoc k (children t);
  as_u64_to_string z : 0 <= z < 2 ^ 64 -> as_u64 (to_string z) = Some z;
  archive_roundtrip (t : T) : load_archive (text_archive t) = Some t;
}.

Section tree.
Context {T : Type} `{MutableTree T}.

Definition leaf_of (s : string) : T := set_data s empty_tree.

(** [add(key, value)] and [put(key, value)]. *)
Definition add (k v : string) (t : T) : T := add_child k (leaf_of v) t.
Definition put (k v : string) (t : T) : T :=
  put_child k (match get_child_optional t k with Some c => set_data v c | None => leaf_of v end) t.

End tree.

(** ** Association lists *)

Section assoc.
Context {A : Type}.
Implicit Types l : list (string * A).

Lemma assoc_nil k : assoc k ([] : list (string * A)) = None.
Proof. done. Qed.

Lemma assoc_cons k h v l : assoc k ((h, v) :: l) = if String.eqb h k then Some v else assoc k l.
Proof. unfold assoc. cbn. by destruct (String.eqb h k). Qed.

Lemma assoc_app k l1 l2 : assoc k (l1 ++ l2) = match assoc k l1 with Some v => Some v | None => assoc k l2 end.
Proof.
  induction l1 as [|[h v] l1 IH]; [done|]. cbn [app]. rewrite !assoc_cons. by destruct (String.eqb h k).
Qed.

Lemma assoc_put_eq k v l : assoc k (put_assoc k v l) = Some v.
Proof.
  induction l as [|[h w] l IH]; cbn [put_assoc fst]; [by rewrite assoc_cons, String.eqb_refl|].
  destruct (String.eqb h k) eqn:E; rewrite assoc_cons; [by rewrite String.eqb_refl|by rewrite E].
Qed.

Lemma assoc_put_ne k h v l : h <> k -> assoc h (put_assoc k v l) = assoc h l.
Proof.
  intros Hne. assert (E0 : String.eqb k h = false) by (apply String.eqb_neq; congruence).
  induction l as [|[g w] l IH]; cbn [put_assoc fst]; [by rewrite assoc_cons, E0|].
  destruct (String.eqb_spec g k) as [->|Hg]; rewrite !assoc_cons; [by rewrite E0|].
  destruct (String.eqb g h); [done|exact IH].
Qed.

Lemma assoc_without_eq k l : assoc k (without k l) = None.
Proof.
  induction l as [|[h v] l IH]; [done|]. unfold without in *. cbn [List.filter fst].
  destruct (String.eqb h k) eqn:E; cbn [negb]; [exact IH|by rewrite assoc_cons, E].
Qed.

Lemma assoc_without_ne k h l : h <> k -> assoc h (without k l) = assoc h l.
Proof.
  intros Hne. induction l as [|[g v] l IH]; [done|]. unfold without in *. cbn [List.filter fst]. rewrite assoc_cons.
  destruct (String.eqb_spec g k) as [->|Hg]; cbn [negb].
  - rewrite IH. destruct (String.eqb_spec k h); [congruence|done].
  - rewrite assoc_cons. by destruct (String.eqb g h).
Qed.

Lemma assoc_in k v l : assoc k l = Some v -> List.In (k, v) l.
Proof.
  induction l as [|[h w] l IH]; [done|]. rewrite assoc_cons.
  destruct (String.eqb_spec h k) as [->|Hne]; [intros [= ->]; by left|intros E; right; auto].
Qed.

Lemma assoc_none k l : assoc k l = None <-> ~ List.In k (map fst l).
Proof.
  induction l as [|[h w] l IH]; [by split; [intros _ []|]|]. rewrite assoc_cons. cbn.
  destruct (String.eqb_spec h k) as [->|Hne]; [split; [done|intros Hn; destruct Hn; by left]|].
  rewrite IH. naive_solver.
Qed.

Lemma in_assoc k v l : List.NoDup (map fst l) -> List.In (k, v) l -> assoc k l = Some v.
Proof.
  induction l as [|[h w] l IH]; [done|]. cbn [map fst List.In]. intros Hnd [[= -> ->]|Hin]; rewrite assoc_cons; [by rewrite String.eqb_refl|].
  inversion Hnd as [|? ? Hh Hnd']; subst. destruct (String.eqb_spec h k) as [->|Hne]; [|by apply IH].
  destruct Hh. apply in_map_iff. by exists (k, v).
Qed.
End assoc.

(** ** The trees of the examples *)

(** Numbers are read back as they are printed. *)
Lemma pretty_digits x l : forallb isdigit (chars l) = true ->
  forallb isdigit (chars (pretty_N_go x l)) = true /\
  forall f, f = (fun a c => 10 * a + (code c - 48)) ->
    foldl f 0 (chars (pretty_N_go x l)) = foldl f (Z.of_N x) (chars l).
Proof.
  revert l. induction (N.lt_wf_0 x) as [x _ IH]. intros l Hl. destruct (decide (x = 0)%N) as [->|Hx].
  { rewrite pretty_N_go_0. done. }
  rewrite pretty_N_go_step by lia.
  assert (Hd : forall d, (d < 10)%N -> isdigit (pretty_N_char d) = true /\ code (pretty_N_char d) - 48 = Z.of_N d).
  { intros d Hd. destruct d as [|p]; [done|]. do 4 (destruct p as [p|p|]; try lia; try done). }
  destruct (Hd (x mod 10)%N ltac:(apply N.mod_lt; lia)) as [Hdig Hval].
  destruct (IH (x / 10)%N ltac:(apply N.div_lt; lia) (String (pretty_N_char (x mod 10)) l)) as [H1 H2].
  { cbn. by rewrite Hdig. }
  split; [exact H1|]. intros f Hf. rewrite (H2 f Hf). cbn [chars list_ascii_of_string foldl]. f_equal.
  rewrite Hf, Hval. pose proof (N.div_mod x 10 ltac:(lia)). lia.
Qed.

Lemma digits_to_string z : 0 <= z -> digits_val (chars (to_string z)) = Some z.
Proof.
  intros Hz. destruct (decide (z = 0)) as [->|Hne]; [done|]. unfold to_string.
  destruct z as [|p|p]; [done| |lia]. change (digits_val (chars (pretty_N_go (N.pos p) EmptyString)) = Some (Z.pos p)).
  destruct (pretty_digits (N.pos p) EmptyString eq_refl) as [Hd Hv]. unfold digits_val. rewrite Hd.
  rewrite bool_decide_eq_false_2.
  - cbn [negb andb]. by rewrite (Hv _ eq_refl).
  - intros E. specialize (Hv _ eq_refl). rewrite E in Hv. cbn in Hv. done.
Qed.

Lemma chars_app s1 s2 : chars (s1 +:+ s2) = chars s1 ++ chars s2.
Proof. induction s1 as [|c s1 IH]; [done|]. change (c :: chars (s1 +:+ s2) = c :: chars s1 ++ chars s2). by f_equal. Qed.

Lemma take_digits_app ds rest : forallb isdigit ds = true -> match rest with c :: _ => isdigit c = false | [] => True end ->
  take_digits (ds ++ rest) = ds.
Proof.
  induction ds as [|c ds IH]; cbn [app forallb take_digits]; [|by intros [-> Hds]%andb_true_iff Hr; rewrite IH].
  intros _ Hr. destruct rest as [|c rest]; [done|]. cbn. by rewrite Hr.
Qed.

Lemma digits_of z : 0 <= z -> forallb isdigit (chars (to_string z)) = true.
Proof.
  intros Hz.
  destruct z as [|p|p]; [done| |lia]. exact (proj1 (pretty_digits (N.pos p) "" eq_refl)).
Qed.

Lemma digits_of_rev z : 0 <= z -> forallb isdigit (rev (chars (to_string z))) = true.
Proof. intros Hz. apply forallb_forall. intros c Hc. apply in_rev in Hc. revert c Hc. apply forallb_forall. by apply digits_of. Qed.

Fixpoint xml_gen (t : xml) : gen_tree string :=
  let 'Node d kids := t in
  GenNode 0 (GenLeaf d :: map (fun kv => GenNode 1 [GenLeaf kv.1; xml_gen kv.2]) kids).

Definition gen_kids (f : gen_tree string -> option xml) : list (gen_tree string) -> option (list (string * xml)) :=
  fix go l :=
    match l with
    | [] => Some []
    | GenNode _ [GenLeaf k; g] :: l =>
        match f g, go l with Some t, Some kids => Some ((k, t) :: kids) | _, _ => None end
    | _ => None
    end.
Fixpoint gen_xml (g : gen_tree string) : option xml :=
  match g with
  | GenNode _ (GenLeaf d :: kids) => Node d <$> gen_kids gen_xml kids
  | _ => None
  end.

Section xml_ind.
Context (P : xml -> Prop) (step : forall d kids, Forall (fun kv => P kv.2) kids -> P (Node d kids)).
Fixpoint xml_induction (t : xml) : P t :=
  let 'Node d kids := t in
  step d kids ((fix go (l : list (string * xml)) : Forall (fun kv => P kv.2) l :=
    match l with
    | [] => Forall_nil_2 _
    | kv :: l => Forall_cons_2 _ _ _ (xml_induction kv.2) (go l)
    end) kids).
End xml_ind.

Lemma gen_xml_gen t : gen_xml (xml_gen t) = Some t.
Proof.
  induction t as [d kids Hkids] using xml_induction. cbn [xml_gen gen_xml].
  assert (Hk : gen_kids gen_xml (map (fun kv => GenNode 1 [GenLeaf kv.1; xml_gen kv.2]) kids) = Some kids); [|by rewrite Hk].
  induction Hkids as [|[k t] kids Ht _ IH]; [done|]. cbn [map gen_kids fst snd] in *. rewrite Ht.
  fold (gen_kids gen_xml). by rewrite IH.
Qed.

(** A number, as the text of its bits. *)
Fixpoint bits_text (p : positive) : string :=
  match p with xH => "" | xO p => String "0" (bits_text p) | xI p => String "1" (bits_text p) end.
Fixpoint text_bits (s : string) : positive :=
  match s with EmptyString => xH | String c s => if Ascii.eqb c "1" then xI (text_bits s) else xO (text_bits s) end.
Lemma text_bits_text p : text_bits (bits_text p) = p.
Proof. induction p as [p IH|p IH|]; cbn; by rewrite ?IH. Qed.

#[export] Instance xml_mutable : MutableTree xml := {|
  empty_tree := Node "" [];
  set_data v t := Node v (xml_kids t);
  add_child k v t := Node (xml_data t) (xml_kids t ++ [(k, v)]);
  put_child k v t := Node (xml_data t) (put_assoc k v (xml_kids t));
  erase k t := Node (xml_data t) (without k (xml_kids t));
  as_u64 := unsigned_of 64;
  text_archive t := bits_text (encode (xml_gen t));
  load_archive s := decode (text_bits s) ≫= gen_xml;
|}.

#[export] Instance xml_mutable_laws : MutableTreeLaws xml.
Proof.
  split; try done.
  - intros z Hz. cbn. unfold unsigned_of. rewrite digits_to_string by lia. by rewrite (proj2 (Z.ltb_lt _ _)) by lia.
  - intros t. cbn. rewrite text_bits_text, decode_encode. cbn. apply gen_xml_gen.
Qed.
