(* ===== verification/Config.v ===== *)
(** The configuration manager, [src/core/config/ConfigManager.cpp]: the tree of
    the [<kernel>] tag, the configuration of each module, what of them is given to
    another unit, what is taken from one, and what is saved. *)
From Stdlib Require Import ZArith Lia Ascii String.
From stdpp Require Import base tactics numbers list strings gmap sorting.
From S2P Require Import Prelude Ptree Trees.

Open Scope Z_scope.

(** The order of the keys of a [std::map<std::string, _>]. *)
Definition key_le {A} (a b : string * A) : Prop := String.leb a.1 b.1 = true.
#[export] Instance key_le_dec {A} (a b : string * A) : Decision (key_le a b).
Proof. unfold key_le. apply _. Defined.
Definition sorted_items {A} (m : gmap string A) : list (string * A) := merge_sort key_le (map_to_list m).

Module ConfigManager.

Record t (T : Type) := mk {
  modules_configs_ : gmap string T;
  kernel_config_ : T;
  version_ : Z;
  instance_name_ : string;
}.
Arguments mk {T}. Arguments modules_configs_ {T}. Arguments kernel_config_ {T}. Arguments version_ {T}.
Arguments instance_name_ {T}.

Section manager.
Context {T : Type} `{MutableTree T}.

Definition make (cfg : T) : outcome (t T) :=
  let version := get_default as_u64 cfg "version" 0 in
  match get as_string cfg "instance_name" with
  | Ret name => Ret (mk ∅ cfg version name)
  | _ => Throw (ConfigException "General Config: instance_name")
  end.

Definition set_modules (m : gmap string T) (c : t T) : t T := mk m (kernel_config_ c) (version_ c) (instance_name_ c).
Definition set_kernel (k : T) (c : t T) : t T := mk (modules_configs_ c) k (version_ c) (instance_name_ c).

Definition config_version (c : t T) : Z := version_ c.
Definition set_version (v : Z) (c : t T) : t T := mk (modules_configs_ c) (kernel_config_ c) v (instance_name_ c).
(** A 64-bit counter. *)
Definition incr_version (c : t T) : t T := set_version ((version_ c + 1) mod 2 ^ 64) c.

Definition general_keys : list string :=
  ["remote"; "plugin_directories"; "log"; "network"; "autosave"; "sync_dest"; "no_import"; "instance_name"].

Definition get_general_config (c : t T) : T :=
  let general_cfg := foldl (fun g key =>
      match get_child_optional (kernel_config_ c) key with Some child => add_child key child g | None => g end)
    empty_tree general_keys in
  add "version" (to_string (config_version c)) general_cfg.

(** The keys a [sync_source] or [sync_dest] section switches on. *)
Definition switched_on (private : string -> outcome bool) (section : T) : outcome (list string) :=
  foldM (fun acc kv =>
      skip ← private kv.1;
      if (skip : bool) then Ret acc
      else match as_bool (data kv.2) with
           | Some b => Ret (if b then acc ++ [kv.1] else acc)
           | None => Throw (PtreeError kv.1)
           end) [] (children section).

Definition get_exportable_general_config (c : t T) : outcome T :=
  let general_cfg := get_general_config c in
  match get_child_optional (kernel_config_ c) "sync_source" with
  | None => Ret (erase "instance_name" (erase "no_import" general_cfg))
  | Some section =>
      exportable ← switched_on (fun key =>
          _ ← cassert (negb (String.eqb key "no_import") || String.eqb key "instance_name");
          Ret (String.eqb key "no_import" || String.eqb key "instance_name")) section;
      Ret (foldl (fun g kv => if bool_decide (kv.1 ∈ exportable) then add_child kv.1 kv.2 g else g)
             empty_tree (children general_cfg))
  end.

Definition has_config (module : string) (c : t T) : bool := bool_decide (is_Some (modules_configs_ c !! module)).

Definition store_config (module : string) (cfg : T) (c : t T) : t T * bool :=
  (set_modules (<[module := cfg]> (modules_configs_ c)) c, has_config module c).

Definition load_config (module : string) (c : t T) : outcome T :=
  match modules_configs_ c !! module with Some cfg => Ret cfg | None => Fault AssertFailed end.

Definition remove_config (module : string) (c : t T) : t T * bool :=
  (set_modules (delete module (modules_configs_ c)) c, has_config module c).

(** The whole tree: what [save_config] writes. *)
Definition get_application_config (c : t T) : T :=
  let modules_config := foldl (fun g kv => add_child "module" kv.2 g) empty_tree (sorted_items (modules_configs_ c)) in
  add_child "kernel" (add_child "modules" modules_config (get_general_config c)) empty_tree.

Definition set_kconfig (new_cfg : T) (c : t T) : outcome (t T) :=
  let old := kernel_config_ c in
  kernel_cfg_file ← get as_string old "kernel-cfg";
  match get_child_optional old "sync_dest" with
  | None =>
      let k := match get_child_optional old "no_import" with
               | Some no_import => put_child "no_import" no_import new_cfg
               | None => new_cfg
               end in
      Ret (set_kernel (put "instance_name" (instance_name_ c) (add "kernel-cfg" kernel_cfg_file k)) c)
  | Some section =>
      exportable ← switched_on (fun _ => Ret false) section;
      Ret (set_kernel (foldl (fun k kv => if bool_decide (kv.1 ∈ exportable) then put_child kv.1 kv.2 k else k)
                         old (children new_cfg)) c)
  end.

Definition get_non_importable_modules (c : t T) : list string :=
  match get_child_optional (kernel_config_ c) "no_import" with
  | Some no_import => map fst (children no_import)
  | None => []
  end.

Definition is_module_importable (module : string) (c : t T) : bool :=
  negb (bool_decide (module ∈ get_non_importable_modules c)).

End manager.
End ConfigManager.
Import ConfigManager.

(** * Properties *)

Section properties.
Context {T : Type} `{MutableTreeLaws T}.

(** A child of the general configuration comes from the kernel's tree, unless it
    is the version. *)
Lemma general_children (c : ConfigManager.t T) :
  children (get_general_config c) =
  omap (fun k => (fun v => (k, v)) <$> get_child_optional (kernel_config_ c) k) general_keys ++
  [("version", leaf_of (to_string (version_ c)))].
Proof.
  unfold get_general_config, add. rewrite children_add by done. f_equal.
  assert (Hl : forall keys g, Forall simple keys ->
    children (foldl (fun g key => match get_child_optional (kernel_config_ c) key with
                                  | Some child => add_child key child g | None => g end) g keys) =
    children g ++ omap (fun k => (fun v => (k, v)) <$> get_child_optional (kernel_config_ c) k) keys).
  { induction keys as [|k keys IH]; intros g Hs; [by rewrite app_nil_r|].
    apply Forall_cons in Hs as [Hk Hs]. cbn [foldl omap list_omap]. rewrite IH by done.
    destruct (get_child_optional (kernel_config_ c) k); cbn; [|done]. by rewrite children_add, <- app_assoc by done. }
  rewrite Hl by (repeat constructor). by rewrite children_empty.
Qed.

(** The sections another unit may be given. *)
Definition public_keys : list string :=
  ["remote"; "plugin_directories"; "log"; "network"; "autosave"; "sync_dest"; "version"].

Lemma general_keys_in (c : ConfigManager.t T) k v : List.In (k, v) (children (get_general_config c)) ->
  List.In k (public_keys ++ ["no_import"; "instance_name"]).
Proof.
  rewrite general_children, in_app_iff. intros [Hin|[[= <- _]|[]]]; [|cbn; tauto].
  apply list_elem_of_In, list_elem_of_omap in Hin as (x & Hx & E). apply list_elem_of_In in Hx.
  destruct (get_child_optional (kernel_config_ c) x); [|done]. injection E as -> _.
  unfold general_keys in Hx. cbn in *. tauto.
Qed.

Lemma switched_on_skips (private : string -> outcome bool) section l (P : string -> Prop) :
  (forall k, private k = Ret false -> P k) -> switched_on private section = Ret l -> Forall P l.
Proof.
  intros Hp. apply (foldM_preserves _ (Forall P)); [|done]. intros acc kv acc' Hacc E.
  apply bind_Ret in E as (skip & Hs & E). destruct skip; [by injection E as <-|].
  destruct (as_bool (data kv.2)) as [b|]; [|done]. injection E as <-. destruct b; [|done].
  apply Forall_app. split; [done|]. repeat constructor. by apply Hp.
Qed.

(** (safety) What a unit gives of its configuration is public. Whatever its
    [sync_source] section says, the list of the modules it does not import, its
    name, its database, its [sync_source] and the path of its file stay with it. *)
Theorem export_is_public (c : ConfigManager.t T) cfg k v : get_exportable_general_config c = Ret cfg ->
  List.In (k, v) (children cfg) -> List.In k public_keys.
Proof.
  intros E Hin. unfold get_exportable_general_config in E.
  assert (Hpub : forall k, List.In k (public_keys ++ ["no_import"; "instance_name"]) -> k <> "no_import" ->
    k <> "instance_name" -> List.In k public_keys) by (intros h; cbn; intuition congruence).
  destruct (get_child_optional (kernel_config_ c) "sync_source") as [section|].
  - apply bind_Ret in E as (exportable & Hex & E). injection E as <-.
    assert (Hno : Forall (fun k => k <> "no_import" /\ k <> "instance_name") exportable).
    { eapply switched_on_skips; [|exact Hex]. intros h Hh. apply bind_Ret in Hh as (u & Hc & Hh). injection Hh as Hh.
      apply orb_false_iff in Hh as [N1%String.eqb_neq N2%String.eqb_neq]. done. }
    assert (Hl : forall l g, Forall (fun kv => simple kv.1) l -> List.In (k, v)
        (children (foldl (fun g kv => if bool_decide (kv.1 ∈ exportable) then add_child kv.1 kv.2 g else g) g l)) ->
      List.In (k, v) (children g) \/ (List.In (k, v) l /\ k ∈ exportable)).
    { induction l as [|[h w] l IH]; intros g Hs Hg; [by left|]. apply Forall_cons in Hs as [Hh Hs]. cbn [foldl fst snd] in *.
      destruct (bool_decide_reflect (h ∈ exportable)) as [He|]; destruct (IH _ Hs Hg) as [Hg'|[Hi He']]; auto.
      - rewrite children_add, in_app_iff in Hg' by done. destruct Hg' as [|[[= <- <-]|[]]]; [by left|].
        right. split; [by left|done].
      - right. split; [by right|done].
      - right. split; [by right|done]. }
    apply Hl in Hin as [Hin|[Hin He]]; [rewrite children_empty in Hin; done| |].
    + rewrite Forall_forall in Hno. destruct (Hno k He). apply Hpub; [|done|done]. by eapply general_keys_in.
    + rewrite List.Forall_forall. intros [h w] Hh. apply general_keys_in in Hh. cbn in Hh. cbn [fst].
      repeat destruct Hh as [<-|Hh]; done.
  - injection E as <-. rewrite !children_erase in Hin. unfold without in Hin.
    rewrite !filter_In in Hin. destruct Hin as [[Hin N1] N2]. cbn [fst] in *.
    apply negb_true_iff, String.eqb_neq in N1, N2. apply Hpub; [|done|done]. by eapply general_keys_in.
Qed.

Lemma put_assoc_fold (exportable : list string) l (t : T) : Forall (fun kv => simple kv.1) l ->
  children (foldl (fun k kv => if bool_decide (kv.1 ∈ exportable) then put_child kv.1 kv.2 k else k) t l) =
  foldl (fun k kv => if bool_decide (kv.1 ∈ exportable) then put_assoc kv.1 kv.2 k else k) (children t) l.
Proof.
  revert t. induction l as [|[h w] l IH]; intros t Hs; [done|]. apply Forall_cons in Hs as [Hh Hs]. cbn [foldl fst snd] in *.
  rewrite IH by done. destruct (bool_decide _); [|done]. by rewrite children_put.
Qed.

Lemma assoc_fold_put {A} (exportable : list string) (l acc : list (string * A)) k : List.NoDup (map fst l) ->
  assoc k (foldl (fun k kv => if bool_decide (kv.1 ∈ exportable) then put_assoc kv.1 kv.2 k else k) acc l) =
  if bool_decide (k ∈ exportable) then match assoc k l with Some v => Some v | None => assoc k acc end else assoc k acc.
Proof.
  revert acc. induction l as [|[h w] l IH]; intros acc Hnd; [by destruct (bool_decide _)|].
  cbn [map fst] in Hnd. inversion Hnd as [|? ? Hh Hnd']; subst. cbn [foldl fst snd]. rewrite IH by done. rewrite assoc_cons.
  destruct (String.eqb_spec h k) as [->|Hne].
  - assert (assoc k l = None) as -> by (by apply assoc_none). destruct (bool_decide_reflect (k ∈ exportable)); [|done].
    by rewrite assoc_put_eq.
  - destruct (bool_decide_reflect (h ∈ exportable)) as [Hin|]; [|done]. by rewrite assoc_put_ne.
Qed.

Lemma child_put k v (t : T) : simple k ->
  exists c, get_child_optional (put k v t) k = Some c /\ data c = v.
Proof.
  intros Hk. unfold put. rewrite child_assoc, children_put, assoc_put_eq by done.
  eexists. split; [reflexivity|]. destruct (get_child_optional t k); [|unfold leaf_of]; by rewrite data_set.
Qed.

Lemma child_put_ne k h v (t : T) : simple k -> simple h -> h <> k ->
  get_child_optional (put k v t) h = get_child_optional t h.
Proof. intros Hk Hh Hne. unfold put. by rewrite !child_assoc, children_put, assoc_put_ne. Qed.

Lemma child_add k h v (t : T) : simple k -> simple h ->
  get_child_optional (add k v t) h =
  match get_child_optional t h with Some c => Some c | None => if String.eqb k h then Some (leaf_of v) else None end.
Proof.
  intros Hk Hh. unfold add. rewrite !child_assoc, children_add, assoc_app by done. destruct (assoc h (children t)); [done|].
  rewrite assoc_cons. by destruct (String.eqb k h).
Qed.

(** A unit that knows its own name. *)
Definition named (c : ConfigManager.t T) : Prop :=
  get as_string (kernel_config_ c) "instance_name" = Ret (instance_name_ c).

Lemma named_child (c : ConfigManager.t T) :
  named c <-> exists n, get_child_optional (kernel_config_ c) "instance_name" = Some n /\ data n = instance_name_ c.
Proof.
  unfold named, get. destruct (get_child_optional _ _) as [n|]; cbn; [|naive_solver].
  split; [intros [= <-]; eauto|by intros (? & [= <-] & ->)].
Qed.

(** (functional) What a unit takes of another's configuration. Without a
    [sync_dest] section it takes everything, but keeps its own name and the list
    of the modules it does not import; with one, it takes the sections switched on
    there that the other sends, and keeps the rest. Its modules and its version
    are left alone. *)
Theorem import_respects_local (c c' : ConfigManager.t T) new :
  set_kconfig new c = Ret c' -> List.NoDup (map fst (children new)) -> Forall (fun kv => simple kv.1) (children new) ->
  modules_configs_ c' = modules_configs_ c /\ version_ c' = version_ c /\ instance_name_ c' = instance_name_ c /\
  let old k := get_child_optional (kernel_config_ c) k in
  let now k := get_child_optional (kernel_config_ c') k in
  match old "sync_dest" with
  | None =>
      named c' /\ (is_Some (old "no_import") -> now "no_import" = old "no_import") /\
      forall k, simple k -> k ∉ ["no_import"; "instance_name"; "kernel-cfg"] -> now k = get_child_optional new k
  | Some section =>
      exists wanted, switched_on (fun _ => Ret false) section = Ret wanted /\
      forall k, simple k -> now k = match get_child_optional new k with
                                    | Some v => if bool_decide (k ∈ wanted) then Some v else old k
                                    | None => old k
                                    end
  end.
Proof.
  intros E Hnd Hsimple. unfold set_kconfig in E. apply bind_Ret in E as (file & _ & E). cbn beta zeta.
  destruct (get_child_optional (kernel_config_ c) "sync_dest") as [section|] eqn:Esd; cbn iota.
  - apply bind_Ret in E as (wanted & Hw & E). injection E as <-. split; [done|]. split; [done|]. split; [done|].
    exists wanted. split; [done|]. intros k Hk. cbn [set_kernel kernel_config_]. rewrite !child_assoc by done.
    rewrite put_assoc_fold, assoc_fold_put by done. by destruct (bool_decide _), (assoc k (children new)).
  - injection E as <-. split; [done|]. split; [done|]. split; [done|]. cbn [set_kernel kernel_config_ instance_name_].
    split; [|split].
    + apply named_child. cbn [set_kernel kernel_config_ instance_name_]. by apply child_put.
    + intros [ni Hni]. rewrite Hni. rewrite child_put_ne, child_add by done. rewrite child_assoc, children_put by done.
      by rewrite assoc_put_eq.
    + intros k Hk Hout. assert (Hk1 : k <> "no_import") by set_solver. assert (Hk2 : k <> "instance_name") by set_solver.
      assert (Hk3 : k <> "kernel-cfg") by set_solver. rewrite child_put_ne, child_add by done.
      destruct (String.eqb_spec "kernel-cfg" k); [congruence|].
      destruct (get_child_optional (kernel_config_ c) "no_import") as [ni|]; [|by destruct (get_child_optional new k)].
      rewrite !child_assoc, children_put, assoc_put_ne by done. by destruct (assoc k (children new)).
Qed.

(** ** What is saved *)

Definition saved_kernel (c : ConfigManager.t T) : T :=
  add_child "modules" (foldl (fun g kv => add_child "module" kv.2 g) empty_tree (sorted_items (modules_configs_ c)))
    (get_general_config c).

Lemma assoc_omap (f : string -> option T) keys k : List.NoDup keys ->
  assoc k (omap (fun h => (fun v => (h, v)) <$> f h) keys) = if bool_decide (k ∈ keys) then f k else None.
Proof.
  induction keys as [|h keys IH]; [done|]. intros Hnd. inversion Hnd as [|? ? Hh Hnd']; subst. cbn [omap list_omap].
  assert (Hcons : (if bool_decide (k ∈ h :: keys) then f k else None) =
    if String.eqb h k then f k else if bool_decide (k ∈ keys) then f k else None).
  { destruct (String.eqb_spec h k) as [->|Hne].
    - by rewrite bool_decide_eq_true_2 by set_solver.
    - rewrite (bool_decide_ext (k ∈ h :: keys) (k ∈ keys)) by set_solver. done. }
  rewrite Hcons. destruct (f h) as [v|] eqn:Ef; cbn [fmap option_fmap option_map].
  - rewrite assoc_cons, IH by done. destruct (String.eqb_spec h k) as [->|Hne]; [done|done].
  - rewrite IH by done. destruct (String.eqb_spec h k) as [->|Hne]; [|done].
    rewrite Ef. destruct (bool_decide_reflect (k ∈ keys)) as [Hk|]; [|done]. destruct Hh. by apply list_elem_of_In.
Qed.

Lemma saved_child (c : ConfigManager.t T) k : simple k ->
  get_child_optional (saved_kernel c) k =
  if bool_decide (k ∈ general_keys) then get_child_optional (kernel_config_ c) k
  else if String.eqb k "version" then Some (leaf_of (to_string (version_ c)))
  else if String.eqb k "modules" then
    Some (foldl (fun g kv => add_child "module" kv.2 g) empty_tree (sorted_items (modules_configs_ c)))
  else None.
Proof.
  intros Hk. unfold saved_kernel. rewrite child_assoc, children_add, general_children by done.
  rewrite !assoc_app, assoc_omap by (repeat constructor; cbn; intuition discriminate).
  rewrite !assoc_cons, assoc_nil. rewrite (String.eqb_sym "version"), (String.eqb_sym "modules").
  destruct (bool_decide_reflect (k ∈ general_keys)) as [Hin|].
  - destruct (get_child_optional (kernel_config_ c) k); [done|].
    destruct (String.eqb_spec k "version") as [->|]; [|destruct (String.eqb_spec k "modules") as [->|]; [|done]];
      set_solver.
  - destruct (String.eqb k "version"); [done|]. by destruct (String.eqb k "modules").
Qed.

Lemma module_children (l : list (string * T)) :
  children (foldl (fun g kv => add_child "module" kv.2 g) empty_tree l) = map (fun kv => ("module", kv.2)) l.
Proof.
  assert (Hl : forall g, children (foldl (fun g kv => add_child "module" kv.2 g) g l) =
    children g ++ map (fun kv => ("module", kv.2)) l).
  { induction l as [|kv l IH]; intros g; [by rewrite app_nil_r|]. cbn [foldl map]. rewrite IH, children_add by done.
    by rewrite <- app_assoc. }
  by rewrite Hl, children_empty.
Qed.

(** C29: (roundtrip) What is saved can be loaded again, but not all is saved. The
    [<kernel>] tag of the file makes a manager of the same name and version, with
    the same general sections, and lists the configuration of every module; the
    sections outside the general ones are lost - the [database], the
    [sync_source], whatever else the file had. *)
Theorem saved_config (c : ConfigManager.t T) : named c -> 0 <= version_ c < 2 ^ 64 ->
  exists kernel loaded modules, get_child_optional (get_application_config c) "kernel" = Some kernel /\
    make kernel = Ret loaded /\ version_ loaded = version_ c /\ instance_name_ loaded = instance_name_ c /\
    (forall k, k ∈ general_keys -> get_child_optional kernel k = get_child_optional (kernel_config_ c) k) /\
    get_child_optional kernel "modules" = Some modules /\
    Permutation (map snd (children modules)) (map snd (map_to_list (modules_configs_ c))) /\
    forall k, simple k -> k ∉ general_keys ++ ["version"; "modules"] -> get_child_optional kernel k = None.
Proof.
  intros Hnamed Hv. apply named_child in Hnamed as (n & Hn & Hdn).
  assert (Hver : get_child_optional (saved_kernel c) "version" = Some (leaf_of (to_string (version_ c)))) by (by rewrite saved_child).
  assert (Hname : get_child_optional (saved_kernel c) "instance_name" = Some n) by (rewrite saved_child by done; exact Hn).
  exists (saved_kernel c). eexists. eexists. split; [|split; [|split; [|split; [|split; [|split; [|split]]]]]].
  - unfold get_application_config. rewrite child_assoc, children_add, children_empty by done. by rewrite assoc_app, assoc_cons.
  - unfold make, get, get_default. rewrite Hver, Hname. cbn. reflexivity.
  - cbn. unfold leaf_of. by rewrite data_set, as_u64_to_string.
  - cbn. exact Hdn.
  - intros k Hk. rewrite saved_child.
    + by rewrite bool_decide_eq_true_2.
    + apply list_elem_of_In in Hk. cbn in Hk. by repeat destruct Hk as [<-|Hk].
  - by rewrite saved_child.
  - rewrite module_children, map_map. cbn [snd]. apply Permutation_map. apply merge_sort_Permutation.
  - intros k Hk Hout. rewrite saved_child by done. rewrite bool_decide_eq_false_2 by set_solver.
    destruct (String.eqb_spec k "version"); [set_solver|]. destruct (String.eqb_spec k "modules"); [set_solver|done].
Qed.

End properties.

(** ** Witnesses *)

Definition demo_kernel : xml :=
  Node "" [("kernel-cfg", leaf "kernel.xml"); ("instance_name", leaf "gate"); ("log", Node "" [("enable_syslog", leaf "true")]);
           ("database", Node "" [("type", leaf "sqlite")]); ("no_import", Node "" [("WIEGAND", leaf "")]); ("version", leaf "7")].
Definition demo_manager : ConfigManager.t xml := mk {[ "WIEGAND" := leaf "w" ]} demo_kernel 7 "gate".

Example demo_manager_made : make demo_kernel = Ret (mk ∅ demo_kernel 7 "gate").
Proof. reflexivity. Qed.

Lemma export_is_public_witness : exists cfg, get_exportable_general_config demo_manager = Ret cfg /\
  map fst (children cfg) = ["log"; "version"] /\ Forall (fun k => List.In k public_keys) (map fst (children cfg)).
Proof.
  eexists. split; [vm_compute; reflexivity|]. split; [reflexivity|]. apply List.Forall_forall.
  intros k Hk. apply in_map_iff in Hk as ([h v] & <- & Hin).
  apply (export_is_public demo_manager (Node "" [("log", Node "" [("enable_syslog", leaf "true")]); ("version", leaf "7")]) h v);
    [vm_compute; reflexivity|exact Hin].
Defined.

(** What the other unit sends, and what is made of it. *)
Definition demo_new : xml := Node "" [("log", Node "" [("enable_syslog", leaf "false")]); ("version", leaf "9")].
Definition demo_imported : ConfigManager.t xml :=
  mk {[ "WIEGAND" := leaf "w" ]}
    (Node "" [("log", Node "" [("enable_syslog", leaf "false")]); ("version", leaf "9"); ("no_import", Node "" [("WIEGAND", leaf "")]);
              ("kernel-cfg", leaf "kernel.xml"); ("instance_name", leaf "gate")]) 7 "gate".

Lemma import_respects_local_witness : set_kconfig demo_new demo_manager = Ret demo_imported /\ named demo_imported.
Proof.
  split; [vm_compute; reflexivity|].
  destruct (import_respects_local demo_manager demo_imported demo_new) as (_ & _ & _ & H & _).
  - vm_compute. reflexivity.
  - repeat constructor; cbn; intuition discriminate.
  - repeat constructor.
  - exact H.
Defined.

Lemma saved_config_witness : exists kernel, get_child_optional (get_application_config demo_manager) "kernel" = Some kernel /\
  get_child_optional kernel "log" = Some (Node "" [("enable_syslog", leaf "true")]) /\
  get_child_optional kernel "database" = None.
Proof.
  destruct (saved_config demo_manager) as (kernel & loaded & modules & Hk & _ & _ & _ & Hkeep & _ & _ & Hlost).
  - reflexivity.
  - cbn. lia.
  - exists kernel. split; [exact Hk|]. split.
    + rewrite Hkeep; [reflexivity|]. apply list_elem_of_In. cbn. tauto.
    + apply Hlost; [reflexivity|]. rewrite list_elem_of_In. cbn. intuition discriminate.
Defined.
