(* ===== verification/Modules.v ===== *)
(** Modules and the kernel: [src/core/module_manager.cpp], and of
    [src/core/kernel.cpp] what starts, configures, saves and stops them.

    A module is a shared library: finding, opening and starting it, and the thread
    it runs on, are a parameter, [Plugins]. The manager orders modules by the
    [level] of their configuration, in a [std::set]. *)
From Stdlib Require Import ZArith Lia Ascii String.
From Stdlib Require Import Sorting.Sorted.
From stdpp Require Import base tactics numbers list strings gmap sorting.
From S2P Require Import Prelude Facades Ptree Trees Config Wiegand AuthFile.

Open Scope Z_scope.

(** Files, libraries and threads. [start_module] is the constructor of the actor:
    it throws when the module's initialisation fails. [write_text] tells whether
    the file could be written. *)
Class Plugins (W T : Type) := {
  file_exists : string -> W -> outcome bool;
  lib_open : string -> W -> bool;
  exported_name : string -> W -> outcome string;
  start_module : string -> T -> W -> W * outcome unit;
  stop_actor : string -> bool -> W -> W;
  write_text : string -> string -> W -> W * bool;
  tree_xml : T -> string;
}.

(** * ModuleManager *)

(** [lib_] is the path of the library; [actor_] whether the module has one. *)
Record ModuleInfo := mk_info { name_ : string; lib_ : string; actor_ : bool }.

(** The kernel, with the manager's [path_] and [modules_]. *)
Record kernel (W T : Type) := mk_kernel {
  config_manager : ConfigManager.t T;
  path_ : list string;
  modules_ : list ModuleInfo;
  config_checker : ConfigChecker.t;
  is_running_ : bool;
  want_restart_ : bool;
  outside : W;
}.
Arguments mk_kernel {W T}. Arguments config_manager {W T}. Arguments path_ {W T}. Arguments modules_ {W T}.
Arguments config_checker {W T}. Arguments is_running_ {W T}. Arguments want_restart_ {W T}. Arguments outside {W T}.

Section kernel.
Context {W T : Type} `{Plugins W T} `{MutableTree T}.
Abbreviation kernel := (kernel W T).

Definition set_config (c : ConfigManager.t T) (k : kernel) : kernel :=
  mk_kernel c (path_ k) (modules_ k) (config_checker k) (is_running_ k) (want_restart_ k) (outside k).
Definition set_modules (l : list ModuleInfo) (k : kernel) : kernel :=
  mk_kernel (config_manager k) (path_ k) l (config_checker k) (is_running_ k) (want_restart_ k) (outside k).
Definition set_path (l : list string) (k : kernel) : kernel :=
  mk_kernel (config_manager k) l (modules_ k) (config_checker k) (is_running_ k) (want_restart_ k) (outside k).
Definition set_checker (c : ConfigChecker.t) (k : kernel) : kernel :=
  mk_kernel (config_manager k) (path_ k) (modules_ k) c (is_running_ k) (want_restart_ k) (outside k).
Definition set_outside (w : W) (k : kernel) : kernel :=
  mk_kernel (config_manager k) (path_ k) (modules_ k) (config_checker k) (is_running_ k) (want_restart_ k) w.
Definition restart_later (k : kernel) : kernel :=
  mk_kernel (config_manager k) (path_ k) (modules_ k) (config_checker k) false true (outside k).

Definition get_kernel : io kernel kernel := fun k => (k, Ret k).
Definition modify (f : kernel -> kernel) : io kernel unit := fun k => (f k, Ret tt).

(** ** The set of modules *)

(** What [operator<] compares. *)
Definition level (c : ConfigManager.t T) (name : string) : outcome Z :=
  cfg ← ConfigManager.load_config name c; Ret (get_default as_int cfg "level" 100).

(** [modules_.insert]: a module neither less nor greater than one of the set is
    not inserted. *)
Fixpoint insert_module (c : ConfigManager.t T) (m : ModuleInfo) (l : list ModuleInfo) : outcome (list ModuleInfo) :=
  match l with
  | [] => Ret [m]
  | x :: l' =>
      lm ← level c (name_ m);
      lx ← level c (name_ x);
      if lm <? lx then Ret (m :: l)
      else if lx <? lm then l'' ← insert_module c m l'; Ret (x :: l'')
      else Ret l
  end.

Definition modules_names (k : kernel) : list string := map name_ (modules_ k).

Definition find_module_by_name (name : string) (k : kernel) : option ModuleInfo :=
  List.find (fun m => String.eqb (name_ m) name) (modules_ k).
Definition has_module (name : string) (k : kernel) : bool := bool_decide (is_Some (find_module_by_name name k)).

Definition addToPath (dir : string) (k : kernel) : kernel :=
  if bool_decide (dir ∈ path_ k) then k else set_path (path_ k ++ [dir]) k.

(** The loop of [loadModule] over the directories. *)
Fixpoint find_library (filename : string) (path : list string) (w : W) : outcome (option string) :=
  match path with
  | [] => Ret None
  | dir :: path =>
      found ← file_exists (dir +:+ "/" +:+ filename) w;
      if (found : bool) then Ret (Some (dir +:+ "/" +:+ filename)) else find_library filename path w
  end.

Definition loadModule (module_name : string) : io kernel bool :=
  k ← get_kernel;
  cfg ← pure (ConfigManager.load_config module_name (config_manager k));
  file ← pure (get_child cfg "file");
  lib ← pure (find_library (data file) (path_ k) (outside k));
  match lib with
  | None => mret false
  | Some lib =>
      if lib_open lib (outside k) then
        l ← pure (insert_module (config_manager k) (mk_info module_name lib false) (modules_ k));
        _ ← modify (set_modules l);
        mret true
      else mret false
  end.

(** ** Starting and stopping *)

Definition set_actor (name : string) (running : bool) (k : kernel) : kernel :=
  set_modules (map (fun m => if String.eqb (name_ m) name then mk_info (name_ m) (lib_ m) running else m) (modules_ k)) k.

(** The body of [initModule]'s [try]; whatever it throws becomes a
    [ModuleException]. *)
Definition start (m : ModuleInfo) : io kernel unit :=
  k ← get_kernel;
  exported ← pure (exported_name (lib_ m) (outside k));
  _ ← pure (enforce (String.eqb (name_ m) exported)
              (ConfigException ("Missconfiguration: Configured module name doesn't match the name exported by the module. (" +:+
                 name_ m +:+ " != " +:+ exported +:+ ")")));
  cfg ← pure (ConfigManager.load_config (name_ m) (config_manager k));
  _ ← act (fun k => let '(w, r) := start_module (name_ m) cfg (outside k) in (set_outside w k, r));
  modify (set_actor (name_ m) true).

Definition initModule (m : ModuleInfo) : io kernel unit := fun k =>
  if actor_ m then (k, Fault AssertFailed)
  else match start m k with
       | (k, Throw _) => (k, Throw (ModuleException ("Unable to init module " +:+ name_ m)))
       | r => r
       end.

Fixpoint foldU {A} (f : A -> io kernel unit) (l : list A) : io kernel unit :=
  match l with [] => mret tt | a :: l => _ ← f a; foldU f l end.

Definition initModules : io kernel unit := k ← get_kernel; foldU initModule (modules_ k).

(** A module that runs is asked to stop; when the stop is not soft, its end is
    awaited and the actor goes. *)
Definition stopModule (soft : bool) (k : kernel) (m : ModuleInfo) : kernel :=
  if actor_ m then
    let k := set_outside (stop_actor (name_ m) soft (outside k)) k in
    if soft then k else set_actor (name_ m) false k
  else k.

Definition stopModules (soft : bool) (k : kernel) : kernel :=
  let k := foldl (stopModule soft) k (rev (modules_ k)) in
  if soft then k else set_modules [] k.

(** * Kernel *)

(** [module_manager_init]: a mistake in the tree is a [LEOSACException]. *)
Definition add_plugin_dir (node : string * T) : io kernel unit :=
  _ ← pure (xmlnne "plugindir" node.1);
  modify (addToPath (data node.2)).

Definition load_configured (node : string * T) : io kernel unit :=
  _ ← pure (xmlnne "module" node.1);
  _ ← pure (get_child node.2 "file");
  name ← pure (get_child node.2 "name");
  _ ← modify (fun k => set_config (ConfigManager.store_config (data name) node.2 (config_manager k)).1 k);
  ok ← loadModule (data name);
  if (ok : bool) then mret tt else pure (Throw (LEOSACException "Cannot load modules. Search path was: ")).

Definition load_modules : io kernel unit :=
  k ← get_kernel;
  plugin_dirs ← pure (get_child (ConfigManager.kernel_config_ (config_manager k)) "plugin_directories");
  _ ← foldU add_plugin_dir (children plugin_dirs);
  modules ← pure (get_child (ConfigManager.kernel_config_ (config_manager k)) "modules");
  foldU load_configured (children modules).

Definition module_manager_init : io kernel unit := fun k =>
  match load_modules k with
  | (k, Ret _) => initModules k
  | (k, Throw (PtreeError _)) => (k, Throw (LEOSACException "Cannot load modules."))
  | (k, Throw e) => (k, Throw e)
  | (k, Fault f) => (k, Fault f)
  end.

(** The whole configuration, written over the file it came from. *)
Definition save_config : io kernel bool :=
  k ← get_kernel;
  let full_config := tree_xml (ConfigManager.get_application_config (config_manager k)) in
  path ← pure (get as_string (ConfigManager.kernel_config_ (config_manager k)) "kernel-cfg");
  act (fun k => let '(w, ok) := write_text path full_config (outside k) in (set_outside w k, Ret ok)).

(** ** Requests to the kernel *)

(** [get_netconfig], [set_netconfig]: the reply. The archive here is a binary one;
    it is only written and read back. *)
Definition get_netconfig : io kernel message :=
  k ← get_kernel;
  network ← pure (get_child (ConfigManager.kernel_config_ (config_manager k)) "network");
  mret [FStr (text_archive network)].

Definition set_netconfig (parts : message) : io kernel message :=
  '(serialized, _) ← pure (pop_str parts);
  network ← pure (match load_archive serialized with Some t => Ret t | None => Throw (StdRuntimeError "archive") end);
  _ ← modify (fun k => let c := config_manager k in
        set_config (ConfigManager.set_kernel (add_child "network" network (erase "network" (ConfigManager.kernel_config_ c))) c) k);
  k ← get_kernel;
  let kconfig := ConfigManager.kernel_config_ (config_manager k) in
  let to_save := add_child "kernel" (erase "kernel-cfg" kconfig) empty_tree in
  match get_child kconfig "kernel-cfg" with
  | Ret path =>
      _ ← act (fun k => let '(w, _) := write_text (data path) (tree_xml to_save) (outside k) in (set_outside w k, Ret tt));
      mret [FStr "OK"]
  | Throw _ => mret [FStr "KO"]
  | Fault f => pure (Fault f)
  end.

(** [handle_control_request]; [reset] is the shell script [factory_reset] runs.
    RESET sends no reply. *)
Definition handle_control_request (reset : W -> W) (scripts factory : string) (msg : message) : io kernel (option message) :=
  '(req, parts) ← pure (pop_str msg);
  if String.eqb req "RESTART" then _ ← modify restart_later; mret (Some [FStr "OK"])
  else if String.eqb req "RESET" then
    _ ← modify restart_later;
    k ← get_kernel;
    _ ← pure (get_child (ConfigManager.kernel_config_ (config_manager k)) "kernel-cfg");
    _ ← modify (fun k => set_outside (reset (outside k)) k); mret None
  else if String.eqb req "GET_NETCONFIG" then r ← get_netconfig; mret (Some r)
  else if String.eqb req "SET_NETCONFIG" then r ← set_netconfig parts; mret (Some r)
  else if String.eqb req "SCRIPTS_DIR" then mret (Some [FStr scripts])
  else if String.eqb req "FACTORY_CONF_DIR" then mret (Some [FStr factory])
  else pure (Fault AssertFailed).

End kernel.

(** * Properties *)

Section order.
Context {W T : Type} `{Plugins W T} `{MutableTree T}.
Abbreviation kernel := (kernel W T).

(** The level of a module that has a configuration. *)
Definition level_of (c : ConfigManager.t T) (m : ModuleInfo) : Z :=
  match level c (name_ m) with Ret z => z | _ => 0 end.

Definition configured (c : ConfigManager.t T) (m : ModuleInfo) : Prop := is_Some (ConfigManager.modules_configs_ c !! name_ m).

Lemma level_configured c m : configured c m -> level c (name_ m) = Ret (level_of c m).
Proof. unfold configured, level_of, level, ConfigManager.load_config. by intros [cfg ->]. Qed.

Definition below (c : ConfigManager.t T) (a b : ModuleInfo) : Prop := level_of c a < level_of c b.

(** The set of modules: ordered by level, no level twice. *)
Definition ordered (c : ConfigManager.t T) (l : list ModuleInfo) : Prop :=
  Forall (configured c) l /\ StronglySorted (below c) l.

Lemma insert_ordered c m l : ordered c l -> configured c m ->
  exists l', insert_module c m l = Ret l' /\ ordered c l' /\
    if bool_decide (level_of c m ∈ map (level_of c) l) then l' = l else Permutation l' (m :: l).
Proof.
  intros [Hc Hs] Hm. revert Hc. induction Hs as [|x l Hs IH Hx]; intros Hc.
  { exists [m]. split; [done|]. split; [split; repeat constructor; done|].
    rewrite bool_decide_eq_false_2; [done|apply not_elem_of_nil]. }
  apply Forall_cons in Hc as [Hcx Hcl]. cbn [insert_module]. rewrite !level_configured by done. cbn [mbind outcome_bind].
  assert (Hnot : forall z, z <= level_of c x -> z ∉ map (level_of c) l).
  { intros z Hz Hin. apply list_elem_of_In, in_map_iff in Hin as (y & <- & Hy).
    rewrite List.Forall_forall in Hx. specialize (Hx y Hy). unfold below in Hx. lia. }
  destruct (Z.ltb_spec (level_of c m) (level_of c x)) as [Hlt|Hge].
  - exists (m :: x :: l). split; [done|]. split.
    + split; [by repeat constructor|]. constructor; [by constructor|]. constructor; [done|].
      eapply Forall_impl; [exact Hx|]. unfold below. intros; lia.
    + rewrite bool_decide_eq_false_2; [done|]. cbn. intros [E|Hin]%elem_of_cons; [lia|]. apply Hnot in Hin; [done|lia].
  - destruct (Z.ltb_spec (level_of c x) (level_of c m)) as [Hgt|Heq].
    + destruct (IH Hcl) as (l' & Hi & [Hc' Hs'] & Hp). rewrite Hi. cbn [mbind outcome_bind]. exists (x :: l'). split; [done|].
      assert (Hmem : bool_decide (level_of c m ∈ map (level_of c) (x :: l)) = bool_decide (level_of c m ∈ map (level_of c) l)).
      { apply bool_decide_ext. cbn. rewrite elem_of_cons. split; [intros [E|]; [lia|done]|by right]. }
      rewrite Hmem. destruct (bool_decide _).
      * subst l'. split; [|done]. split; [by constructor|by constructor].
      * split; [split; [by constructor|constructor; [done|]]|].
        -- rewrite Hp. constructor; [exact Hgt|done].
        -- rewrite Hp. apply Permutation_swap.
    + exists (x :: l). split; [done|]. split; [split; by constructor|].
      rewrite bool_decide_eq_true_2; [done|]. cbn. apply elem_of_cons. left. lia.
Qed.

(** (error) A module of the same level as one that is loaded is forgotten.
    [loadModule] finds the library, opens it and returns [true], and the manager is
    as before: the module will not be started. The configurations the
    documentation gives as examples share levels, which default to 100. *)
Theorem same_level_forgotten name file lib (k : kernel) x :
  ordered (config_manager k) (modules_ k) -> List.In x (modules_ k) ->
  level (config_manager k) name = Ret (level_of (config_manager k) x) ->
  (cfg ← ConfigManager.load_config name (config_manager k); get_child cfg "file") = Ret file ->
  find_library (data file) (path_ k) (outside k) = Ret (Some lib) -> lib_open lib (outside k) = true ->
  loadModule name k = (k, Ret true).
Proof.
  intros Hord Hx Hlevel Hfile Hlib Hopen. apply bind_Ret in Hfile as (cfg & Hcfg & Hfile).
  unfold loadModule, get_kernel, pure, modify, mbind, io_bind. rewrite Hcfg, Hfile, Hlib, Hopen.
  assert (Hm : configured (config_manager k) (mk_info name lib false)).
  { unfold configured. cbn. unfold ConfigManager.load_config in Hcfg. by destruct (_ !! name). }
  destruct (insert_ordered _ _ _ Hord Hm) as (l' & -> & _ & Hl').
  rewrite bool_decide_eq_true_2 in Hl'.
  - subst l'. by destruct k.
  - apply list_elem_of_In, in_map_iff. exists x. split; [|done]. unfold level_of at 2. cbn. by rewrite Hlevel.
Qed.

(** ** Starting *)

(** What [initModules] does outside: each module is started, with its own
    configuration. *)
Definition config_of (c : ConfigManager.t T) (m : ModuleInfo) : option T := ConfigManager.modules_configs_ c !! name_ m.

Definition start_all (c : ConfigManager.t T) (l : list ModuleInfo) (w : W) : W :=
  foldl (fun w m => match config_of c m with Some cfg => (start_module (name_ m) cfg w).1 | None => w end) w l.

Definition running (m : ModuleInfo) : ModuleInfo := mk_info (name_ m) (lib_ m) true.

Lemma set_actor_split l1 m l2 (k : kernel) : modules_ k = l1 ++ m :: l2 -> List.NoDup (map name_ (modules_ k)) ->
  modules_ (set_actor (name_ m) true k) = l1 ++ running m :: l2.
Proof.
  intros Hl Hnd. cbn. rewrite Hl in *. rewrite map_app in Hnd. cbn [map] in Hnd. rewrite map_app. cbn [map].
  rewrite String.eqb_refl.
  assert (Hid : forall l, ~ List.In (name_ m) (map name_ l) ->
    map (fun x => if String.eqb (name_ x) (name_ m) then mk_info (name_ x) (lib_ x) true else x) l = l).
  { induction l as [|y l IH]; [done|]. cbn. intros Hn. destruct (String.eqb_spec (name_ y) (name_ m)); [tauto|].
    rewrite IH; [done|tauto]. }
  apply NoDup_remove_2 in Hnd. rewrite in_app_iff in Hnd. rewrite !Hid by tauto. done.
Qed.

Lemma init_runs l1 l2 (k k' : kernel) : modules_ k = map running l1 ++ l2 -> List.NoDup (map name_ (modules_ k)) ->
  Forall (configured (config_manager k)) l2 ->
  foldU initModule l2 k = (k', Ret tt) ->
  modules_ k' = map running (l1 ++ l2) /\ config_manager k' = config_manager k /\
  outside k' = start_all (config_manager k) l2 (outside k).
Proof.
  revert l1 k. induction l2 as [|m l2 IH]; intros l1 k Hl Hnd Hc E.
  { cbn in E. injection E as <-. by rewrite !app_nil_r in *. }
  apply Forall_cons in Hc as [[cfg Hcfg] Hc]. cbn [foldU] in E. unfold mbind, io_bind in E.
  destruct (initModule m k) as [k1 [[]|e|f]] eqn:Ei; [|done|done].
  unfold initModule in Ei. destruct (actor_ m); [done|]. destruct (start m k) as [k2 [[]|e|f]] eqn:Es; [|done|done].
  injection Ei as <-. unfold start, get_kernel, pure, act, modify, mbind, io_bind in Es.
  destruct (exported_name (lib_ m) (outside k)) as [exported|e|f]; [|done|done].
  destruct (enforce _ _); [|done|done]. unfold ConfigManager.load_config in Es. rewrite Hcfg in Es.
  destruct (start_module (name_ m) cfg (outside k)) as [w [[]|e|f]] eqn:Ew; [|done|done]. injection Es as <-.
  assert (Hmods : modules_ (set_actor (name_ m) true (set_outside w k)) = map running l1 ++ running m :: l2)
    by (apply set_actor_split; done).
  destruct (IH (l1 ++ [m]) (set_actor (name_ m) true (set_outside w k))) as (H1' & H2' & H3'); try done.
  - rewrite Hmods, map_app. by rewrite <- app_assoc.
  - rewrite Hmods. rewrite Hl in Hnd. by rewrite !map_app in *.
  - split; [by rewrite H1', <- app_assoc|]. split; [done|]. rewrite H3'. unfold start_all at 2. cbn [foldl].
    unfold config_of at 2. rewrite Hcfg, Ew. done.
Qed.
(** ** Loading *)

Definition node_name (node : string * T) : string :=
  match get_child node.2 "name" with Ret n => data n | _ => "" end.
Definition node_level (node : string * T) : Z := get_default as_int node.2 "level" 100.

(** The modules read so far from the configuration, [nodes]. *)
Record loaded (nodes : list (string * T)) (k : kernel) : Prop := {
  ld_ordered : ordered (config_manager k) (modules_ k);
  ld_stopped : Forall (fun m => actor_ m = false) (modules_ k);
  ld_names : List.NoDup (map name_ (modules_ k));
  ld_in : forall m, List.In m (modules_ k) -> List.In (name_ m) (map node_name nodes);
  ld_config : forall n, List.In n nodes -> ConfigManager.modules_configs_ (config_manager k) !! node_name n = Some n.2;
  ld_all : List.NoDup (map node_level nodes) -> Permutation (map name_ (modules_ k)) (map node_name nodes);
}.

Lemma level_of_node nodes k m n : loaded nodes k -> List.In n nodes -> name_ m = node_name n ->
  level_of (config_manager k) m = node_level n.
Proof.
  intros Hl Hn Hm. unfold level_of, level, ConfigManager.load_config. rewrite Hm, (ld_config _ _ Hl n Hn). done.
Qed.

(** A configuration stored under a new name changes nothing to the others. *)
Lemma ordered_store c name cfg l : ~ List.In name (map name_ l) -> ordered c l ->
  ordered (ConfigManager.store_config name cfg c).1 l.
Proof.
  intros Hn [Hc Hs].
  assert (Hsame : forall m, List.In m l -> ConfigManager.modules_configs_ (ConfigManager.store_config name cfg c).1 !! name_ m =
    ConfigManager.modules_configs_ c !! name_ m).
  { intros m Hm. cbn. apply lookup_insert_ne. intros ->. apply Hn. by apply in_map. }
  split.
  - rewrite List.Forall_forall in *. intros m Hm. unfold configured. rewrite Hsame by done. by apply Hc.
  - assert (Hlv : forall m, List.In m l -> level_of (ConfigManager.store_config name cfg c).1 m = level_of c m).
    { intros m Hm. unfold level_of, level, ConfigManager.load_config. by rewrite Hsame. }
    clear Hn Hsame Hc. induction Hs as [|x l Hs IH Hx]; [constructor|]. constructor.
    + apply IH. intros m Hm. apply Hlv. by right.
    + rewrite List.Forall_forall in *. intros y Hy. unfold below. rewrite !Hlv by (cbn; auto). by apply Hx.
Qed.

Lemma load_configured_runs nodes node (k k' : kernel) : loaded nodes k -> ~ List.In (node_name node) (map node_name nodes) ->
  load_configured node k = (k', Ret tt) -> loaded (nodes ++ [node]) k' /\ outside k' = outside k.
Proof.
  intros Hl Hnew E. unfold load_configured, loadModule, get_kernel, pure, modify, mbind, io_bind in E.
  destruct (xmlnne _ _); [|done|done]. destruct (get_child node.2 "file"); [|done|done].
  destruct (get_child node.2 "name") as [n| |] eqn:En; [|done|done].
  assert (Hname : node_name node = data n) by (unfold node_name; by rewrite En).
  set (k0 := set_config _ k) in E. destruct (ConfigManager.load_config _ _) as [cfg|e|f] eqn:Ecfg; [|done|done].
  destruct (get_child cfg "file") as [file|e|f]; [|done|done].
  destruct (find_library _ _ _) as [[lib|]|e|f]; [|done..]. destruct (lib_open _ _); [|done].
  destruct (insert_module _ _ _) as [l|e|f] eqn:Ei; [|done|done]. injection E as <-.
  assert (Hold : ~ List.In (data n) (map name_ (modules_ k))).
  { rewrite <- Hname. intros Hin. apply in_map_iff in Hin as (m & Hm & Hin). apply Hnew. rewrite <- Hm. by apply (ld_in _ _ Hl). }
  assert (Hord : ordered (config_manager k0) (modules_ k0)) by (apply ordered_store; [exact Hold|apply (ld_ordered _ _ Hl)]).
  assert (Hconf : configured (config_manager k0) (mk_info (data n) lib false)).
  { unfold configured. cbn. rewrite lookup_insert_eq. by eexists. }
  destruct (insert_ordered _ _ _ Hord Hconf) as (l' & Hi & Hord' & Hl'). rewrite Ei in Hi. injection Hi as <-.
  assert (Hconfig : forall h, List.In h (nodes ++ [node]) -> ConfigManager.modules_configs_ (config_manager k0) !! node_name h = Some h.2).
  { intros h [Hh|[<-|[]]]%in_app_iff; cbn.
    - rewrite lookup_insert_ne; [by apply (ld_config _ _ Hl)|]. intros Heq. apply Hnew. rewrite Hname, Heq. by apply in_map.
    - rewrite Hname. by rewrite lookup_insert_eq. }
  assert (Hkept : l = modules_ k \/ Permutation l (mk_info (data n) lib false :: modules_ k)) by (by destruct (bool_decide _); auto).
  split; [|done]. split; cbn [set_modules modules_ config_manager]; try done.
  - destruct Hkept as [->|Hp]; [apply (ld_stopped _ _ Hl)|]. rewrite Hp. constructor; [done|apply (ld_stopped _ _ Hl)].
  - destruct Hkept as [->|Hp]; [apply (ld_names _ _ Hl)|]. apply (Permutation_NoDup (Permutation_map name_ (Permutation_sym Hp))).
    cbn. constructor; [done|apply (ld_names _ _ Hl)].
  - intros m Hm. rewrite map_app, in_app_iff. destruct Hkept as [->|Hp]; [left; by apply (ld_in _ _ Hl)|].
    apply (Permutation_in _ Hp) in Hm as [<-|Hm]; [right; left; by rewrite Hname|left; by apply (ld_in _ _ Hl)].
  - rewrite !map_app. cbn [map]. intros Hnd. pose proof (NoDup_remove_1 _ _ _ Hnd) as Hnd1. pose proof (NoDup_remove_2 _ _ _ Hnd) as Hnd2.
    rewrite app_nil_r in *. specialize (ld_all _ _ Hl Hnd1) as Hall.
    rewrite bool_decide_eq_false_2 in Hl'.
    + rewrite Hl'. cbn [map name_]. rewrite Hname. change (modules_ k0) with (modules_ k). rewrite Hall. apply Permutation_cons_append.
    + intros Hin. apply list_elem_of_In, in_map_iff in Hin as (m & Hm & Hin). apply Hnd2. apply in_map_iff.
      pose proof (ld_in _ _ Hl m Hin) as Hnm. apply in_map_iff in Hnm as (h & Hh & Hin').
      exists h. split; [|done]. 
      assert (level_of (config_manager k0) m = node_level h) as <-.
      { unfold level_of, level, ConfigManager.load_config. rewrite <- Hh, Hconfig by (apply in_app_iff; by left). done. }
      rewrite Hm. unfold level_of, level, ConfigManager.load_config. cbn [name_]. rewrite <- Hname, Hconfig by (apply in_app_iff; right; by left).
      done.
Qed.

Lemma load_all_runs nodes more (k k' : kernel) : loaded nodes k -> List.NoDup (map node_name (nodes ++ more)) ->
  foldU load_configured more k = (k', Ret tt) -> loaded (nodes ++ more) k' /\ outside k' = outside k.
Proof.
  revert nodes k. induction more as [|node more IH]; intros nodes k Hl Hnd E.
  { cbn in E. injection E as <-. by rewrite app_nil_r. }
  cbn [foldU] in E. unfold mbind, io_bind in E. destruct (load_configured node k) as [k1 [[]|e|f]] eqn:El; [|done|done].
  assert (Hnew : ~ List.In (node_name node) (map node_name nodes)).
  { rewrite map_app in Hnd. apply NoDup_remove_2 in Hnd. rewrite in_app_iff in Hnd. tauto. }
  destruct (load_configured_runs nodes node k k1 Hl Hnew El) as [Hl1 Ho1].
  rewrite (cons_middle node nodes more), app_assoc in *. destruct (IH (nodes ++ [node]) k1 Hl1 Hnd E) as [Hl2 Ho2].
  split; [done|congruence].
Qed.

Lemma add_dirs_runs l (k k' : kernel) : foldU add_plugin_dir l k = (k', Ret tt) ->
  config_manager k' = config_manager k /\ modules_ k' = modules_ k /\ outside k' = outside k.
Proof.
  revert k. induction l as [|n l IH]; intros k E; [by injection E as <-|].
  cbn [foldU] in E. unfold add_plugin_dir, pure, modify, mbind, io_bind in E. destruct (xmlnne _ _); [|done|done].
  destruct (IH _ E) as (H1' & H2' & H3'). rewrite H1', H2', H3'. unfold addToPath. by destruct (bool_decide _).
Qed.

(** C11: (refinement) The program starts its modules by level. When every name of the
    configuration is given once, a start that succeeds leaves the modules running,
    in strictly increasing order of their levels, each started once with its own
    part of the configuration, in that order and with nothing in between; and
    when every level is given once, no configured module is missing. *)
Theorem modules_start_by_level (k k' : kernel) nodes : modules_ k = [] ->
  (modules ← get_child (ConfigManager.kernel_config_ (config_manager k)) "modules"; Ret (children modules)) = Ret nodes ->
  List.NoDup (map node_name nodes) -> module_manager_init k = (k', Ret tt) ->
  ordered (config_manager k') (modules_ k') /\ Forall (fun m => actor_ m = true) (modules_ k') /\
  outside k' = start_all (config_manager k') (modules_ k') (outside k) /\
  (forall n, List.In n nodes -> ConfigManager.modules_configs_ (config_manager k') !! node_name n = Some n.2) /\
  (List.NoDup (map node_level nodes) -> Permutation (map name_ (modules_ k')) (map node_name nodes)).
Proof.
  intros Hempty Hnodes Hnd E. unfold module_manager_init in E.
  destruct (load_modules k) as [k1 [[]|e|f]] eqn:El; [|by destruct e|done].
  assert (Hl1 : loaded nodes k1 /\ outside k1 = outside k).
  { unfold load_modules, get_kernel, pure, mbind, io_bind in El. destruct (get_child _ "plugin_directories"); [|done|done].
    destruct (foldU add_plugin_dir _ k) as [k0 [[]|e|f]] eqn:Ed; [|done|done].
    destruct (add_dirs_runs _ _ _ Ed) as (Hc0 & Hm0 & Ho0).
    destruct (get_child (ConfigManager.kernel_config_ (config_manager k)) "modules") as [ms|e|f]; [|done|done].
    injection Hnodes as <-. rewrite <- Ho0. apply (load_all_runs [] (children ms)); [|done|done].
    rewrite Hempty in Hm0. split; rewrite ?Hm0; try done; [split; constructor|constructor]. }
  destruct Hl1 as [Hl1 Ho1]. unfold initModules, get_kernel, mbind, io_bind in E.
  destruct (init_runs [] (modules_ k1) k1 k' eq_refl (ld_names _ _ Hl1) (proj1 (ld_ordered _ _ Hl1)) E) as (Hm & Hc & Ho).
  cbn [app] in Hm. rewrite Hm, Hc, Ho, Ho1. split; [|split; [|split; [|split]]].
  - destruct (ld_ordered _ _ Hl1) as [Hcf Hs]. split; [by apply Forall_map|]. clear -Hs.
    induction Hs as [|x l Hs IH Hx]; cbn; constructor; [done|]. by apply Forall_map.
  - apply Forall_map. by apply Forall_true.
  - unfold start_all. clear. generalize (outside k). induction (modules_ k1) as [|m l IH]; intros w; [done|]. cbn. apply IH.
  - apply (ld_config _ _ Hl1).
  - intros Hlv. rewrite map_map. apply (ld_all _ _ Hl1 Hlv).
Qed.

(** Modules are stopped in the reverse of the order they run in, and forgotten. *)
Lemma stop_in_reverse (k : kernel) : Forall (fun m => actor_ m = true) (modules_ k) ->
  modules_ (stopModules false k) = [] /\ config_manager (stopModules false k) = config_manager k /\
  outside (stopModules false k) = foldl (fun w m => stop_actor (name_ m) false w) (outside k) (rev (modules_ k)).
Proof.
  intros Hall. split; [done|]. unfold stopModules. cbn.
  assert (Hl : forall l k, Forall (fun m => actor_ m = true) l ->
    config_manager (foldl (stopModule false) k l) = config_manager k /\
    outside (foldl (stopModule false) k l) = foldl (fun w m => stop_actor (name_ m) false w) (outside k) l).
  { intros l. induction l as [|m l IH]; intros k0 Hl; [done|]. apply Forall_cons in Hl as [Hm Hl]. cbn [foldl].
    destruct (IH (stopModule false k0 m) Hl) as [-> ->]. unfold stopModule. by rewrite Hm. }
  destruct (Hl (rev (modules_ k)) k) as [-> ->]; [|done]. by apply Forall_rev.
Qed.

End order.

(** ** Modules for the examples *)

(** Every library is there, and exports the name of its file; what is done with
    modules is written down. *)
#[export] Instance demo_plugins : Plugins (list string) xml := {|
  file_exists _ _ := Ret true;
  lib_open _ _ := true;
  exported_name lib _ := Ret (text (drop 4 (chars lib)));
  start_module name _ w := (w ++ ["start " +:+ name], Ret tt);
  stop_actor name _ w := w ++ ["stop " +:+ name];
  write_text path _ w := (w ++ ["write " +:+ path], true);
  tree_xml _ := "<kernel/>";
|}.

Definition demo_module (name level : string) : string * xml :=
  ("module", Node "" [("name", leaf name); ("file", leaf name); ("level", leaf level)]).

Definition demo_start (nodes : list (string * xml)) : kernel (list string) xml :=
  mk_kernel (ConfigManager.mk ∅ (Node "" [("plugin_directories", Node "" [("plugindir", leaf "lib")]);
    ("modules", Node "" nodes)]) 0 "gate") [] [] ∅ true false [].

Lemma modules_start_witness :
  let nodes := [demo_module "WIEGAND" "5"; demo_module "PIFACE" "2"; demo_module "RPLETH" "100"] in
  exists k', module_manager_init (demo_start nodes) = (k', Ret tt) /\
    outside k' = ["start PIFACE"; "start WIEGAND"; "start RPLETH"] /\
    Permutation (map name_ (modules_ k')) ["WIEGAND"; "PIFACE"; "RPLETH"].
Proof.
  intros nodes. set (k' := fst (module_manager_init (demo_start nodes))).
  assert (E : module_manager_init (demo_start nodes) = (k', Ret tt)) by (vm_compute; reflexivity).
  exists k'. split; [exact E|]. split; [vm_compute; reflexivity|].
  destruct (modules_start_by_level (demo_start nodes) k' nodes) as (_ & _ & _ & _ & Hall).
  - reflexivity.
  - reflexivity.
  - repeat constructor; cbn; intuition discriminate.
  - exact E.
  - apply Hall. repeat constructor; cbn; intuition discriminate.
Defined.

(** The levels the documentation gives to the Wiegand and alarm modules. *)
Definition wiegand_loaded : kernel (list string) xml :=
  mk_kernel (ConfigManager.mk {[ "WIEGAND" := (demo_module "WIEGAND" "5").2; "ALARMS" := (demo_module "ALARMS" "5").2 ]}
    (Node "" []) 0 "gate") ["lib"] [mk_info "WIEGAND" "lib/WIEGAND" false] ∅ true false [].

Lemma same_level_witness : loadModule "ALARMS" wiegand_loaded = (wiegand_loaded, Ret true).
Proof.
  apply (same_level_forgotten "ALARMS" (leaf "ALARMS") "lib/ALARMS" wiegand_loaded (mk_info "WIEGAND" "lib/WIEGAND" false)).
  - split; [repeat constructor; vm_compute; eauto|repeat constructor].
  - left. reflexivity.
  - vm_compute. reflexivity.
  - reflexivity.
  - reflexivity.
  - reflexivity.
Defined.
