(* ===== verification/Remote.v ===== *)
(** Remote control: [src/core/RemoteControlSecurity.cpp], who may send which
    command, and [src/core/RemoteControl.cpp], the commands, with the answer of a
    module that is asked for its configuration ([src/modules/BaseModule.cpp]).

    The socket and its encryption are ZeroMQ's: a request comes with the public key
    of who sent it. Starting a synchronisation is in Sync.v. *)
From Stdlib Require Import ZArith Lia Ascii String.
From stdpp Require Import base tactics numbers list strings gmap.
From S2P Require Import Prelude Facades Ptree Trees Config Wiegand Modules.

Open Scope Z_scope.

(** * RemoteControlSecurity *)

Module RemoteControlSecurity.

Record t := mk {
  permissions_ : gmap string (list string);
  default_permissions_ : gmap string bool;
  unrestricted_ : bool;
}.

(** [permissions_[pk]]: an empty list is added for a new key. *)
Definition commands (pk : string) (s : t) : list string := default [] (permissions_ s !! pk).

Definition set_default (pk : string) (b : bool) (s : t) : t :=
  mk (permissions_ s) (<[pk := b]> (default_permissions_ s)) (unrestricted_ s).
Definition set_commands (pk : string) (l : list string) (s : t) : t :=
  mk (<[pk := l]> (permissions_ s)) (default_permissions_ s) (unrestricted_ s).

Section security.
Context {T : Type} `{PropertyTree T}.

(** One child of an entry. *)
Definition add_command (pk : string) (default_access : bool) (s : t) (c : string * T) : outcome t :=
  if String.eqb c.1 "pk" || String.eqb c.1 "default" then Ret s
  else match as_bool (data c.2) with
       | None => Throw (PtreeError c.1)
       | Some allowed => Ret (if eqb default_access allowed then s else set_commands pk (commands pk s ++ [c.1]) s)
       end.

(** The log line at the end reads [permissions_[pk]]. *)
Definition process_security_entry (s : t) (entry : T) : outcome t :=
  pk ← get as_string entry "pk";
  let default_access := get_default as_bool entry "default" false in
  s ← foldM (add_command pk default_access) (set_default pk default_access s) (children entry);
  Ret (set_commands pk (commands pk s) s).

Definition make (cfg : T) : outcome t :=
  match get_child_optional cfg "security" with
  | Some details =>
      foldM (fun s node => _ ← cassert (String.eqb node.1 "map"); process_security_entry s node.2)
        (mk ∅ ∅ false) (children details)
  | None => Ret (mk ∅ ∅ true)
  end.

End security.

Definition allow_request (user_pubkey req : string) (s : t) : bool :=
  if unrestricted_ s then true
  else match default_permissions_ s !! user_pubkey, permissions_ s !! user_pubkey with
       | Some d, Some cmds => if d : bool then negb (bool_decide (req ∈ cmds)) else bool_decide (req ∈ cmds)
       | _, _ => false
       end.

End RemoteControlSecurity.
Import RemoteControlSecurity.

(** * BaseModule *)

(** [ConfigFormat]. *)
Definition BOOST_ARCHIVE : Z := 0.

(** The modules that run, outside: the configuration each was started with, and
    the names and contents of the files it adds to it. *)
Class Running (W T : Type) := { runs_with : string -> W -> option (T * list (string * string)) }.

Definition file_frames (files : list (string * string)) : message := flat_map (fun f => [FStr f.1; FStr f.2]) files.

(** [handle_control] of a module; [xml] writes a tree. *)
Definition dump_config {T} `{MutableTree T} (xml : T -> string) (format : Z) (config : T * list (string * string)) : message :=
  FStr (if format =? BOOST_ARCHIVE then text_archive config.1 else xml config.1) :: file_frames config.2.

(** * RemoteControl *)

Module RemoteControl.
Section remote.
Context {W T : Type} `{Plugins W T, !Running W T} `{MutableTree T}.
Abbreviation kernel := (kernel W T).

Definition module_list : io kernel message := k ← get_kernel; mret (map FStr (modules_names k)).

(** The module is asked, and its answer awaited. *)
Definition module_config (module : string) (format : Z) : io kernel message :=
  k ← get_kernel;
  if bool_decide (module ∈ modules_names k) then
    match runs_with module (outside k) with
    | None => pure (Fault Blocked)
    | Some config => mret (FStr "OK" :: FStr module :: dump_config tree_xml format config)
    end
  else mret [FStr "KO"; FStr "Module not loaded, so config not available"].

Definition general_config (format : Z) : io kernel message :=
  k ← get_kernel;
  cfg ← pure (ConfigManager.get_exportable_general_config (config_manager k));
  mret [FStr "OK"; FStr (if format =? BOOST_ARCHIVE then text_archive cfg else tree_xml cfg)].

(** A handler: the frames of its reply, or nothing when the request is malformed.
    [sync_from] is the handler of SYNC_FROM. *)
Definition handle_module_config (msg : message) : io kernel (option message) :=
  if 2 <=? Z.of_nat (length msg) then
    '(module_name, msg) ← pure (pop_str msg);
    '(format, _) ← pure (pop_u8 msg);
    r ← module_config module_name format; mret (Some r)
  else mret None.

Definition handle_module_list (msg : message) : io kernel (option message) :=
  match msg with [] => r ← module_list; mret (Some r) | _ => mret None end.

Definition handle_save (msg : message) : io kernel (option message) :=
  match msg with
  | [] => ok ← save_config;
          mret (Some (if (ok : bool) then [FStr "OK"] else [FStr "KO"; FStr "Saving config failed for some unkown reason."]))
  | _ => mret None
  end.

Definition handle_general_config (msg : message) : io kernel (option message) :=
  match msg with
  | [_] => '(format, _) ← pure (pop_u8 msg); r ← general_config format; mret (Some r)
  | _ => mret None
  end.

Definition handle_config_version (msg : message) : io kernel (option message) :=
  match msg with
  | [] => k ← get_kernel; mret (Some [FU64 (ConfigManager.config_version (config_manager k))])
  | _ => mret None
  end.

Definition command_handlers (sync_from : message -> io kernel (option message)) (cmd : string)
  : option (message -> io kernel (option message)) :=
  if String.eqb cmd "MODULE_CONFIG" then Some handle_module_config
  else if String.eqb cmd "MODULE_LIST" then Some handle_module_list
  else if String.eqb cmd "SYNC_FROM" then Some sync_from
  else if String.eqb cmd "SAVE" then Some handle_save
  else if String.eqb cmd "GENERAL_CONFIG" then Some handle_general_config
  else if String.eqb cmd "CONFIG_VERSION" then Some handle_config_version
  else None.

(** [handle_msg]: the frames after the identities of the request and the reply. *)
Definition handle_msg (security : RemoteControlSecurity.t) (sync_from : message -> io kernel (option message))
    (user_pubkey : string) (msg : message) : io kernel message :=
  '(frame1, msg) ← pure (pop_str msg);
  match command_handlers sync_from frame1 with
  | None => mret [FStr "KO"; FStr "UNKOWN MESSAGE"]
  | Some h =>
      if allow_request user_pubkey frame1 security then
        rep ← h msg;
        mret (match rep with Some rep => rep | None => [FStr "KO"; FStr ("Malformed message: " +:+ frame1)] end)
      else mret [FStr "KO"; FStr "Insuficient permission"]
  end.

End remote.
End RemoteControl.
Import RemoteControl.

(** * Properties *)

Section permissions.
Context {T : Type} `{PropertyTree T}.

(** What an entry says of a command. *)
Definition says (allowed : bool) (req : string) (entry : T) : Prop :=
  exists v, List.In (req, v) (children entry) /\ as_bool (data v) = Some allowed.

Definition key_of (entry : T) : string := match get as_string entry "pk" with Ret pk => pk | _ => "" end.
Definition default_of (entry : T) : bool := get_default as_bool entry "default" false.

(** Who may send a command, by the entries: a key's own entry decides, by what it
    says of the command or else by its default. *)
Definition entitled_to (entries : list T) (pk req : string) : Prop :=
  exists entry, List.In entry entries /\ key_of entry = pk /\
    if default_of entry then ~ says false req entry else says true req entry.

Lemma add_commands_runs pk d l s s' : foldM (add_command pk d) s l = Ret s' ->
  default_permissions_ s' = default_permissions_ s /\ unrestricted_ s' = unrestricted_ s /\
  (forall q, q <> pk -> permissions_ s' !! q = permissions_ s !! q) /\
  forall req, req <> "pk" -> req <> "default" -> (req ∈ commands pk s' <-> req ∈ commands pk s \/
    exists v, List.In (req, v) l /\ as_bool (data v) = Some (negb d)).
Proof.
  revert s. induction l as [|[name v] l IH]; intros s E.
  { injection E as <-. split; [done|]. split; [done|]. split; [done|]. intros req _ _. split; [by left|]. intros [|(v & [] & _)]; done. }
  cbn [foldM] in E. apply bind_Ret in E as (s1 & E1 & E). destruct (IH s1 E) as (Hd & Hu & Hp & Hc).
  assert (H1 : default_permissions_ s1 = default_permissions_ s /\ unrestricted_ s1 = unrestricted_ s /\
    (forall q, q <> pk -> permissions_ s1 !! q = permissions_ s !! q) /\
    forall req, req <> "pk" -> req <> "default" -> (req ∈ commands pk s1 <-> req ∈ commands pk s \/
      (req = name /\ as_bool (data v) = Some (negb d)))).
  { unfold add_command in E1. cbn [fst snd] in E1. destruct (_ || _) eqn:Ek.
    - injection E1 as <-. split; [done|]. split; [done|]. split; [done|]. intros req N1 N2. split; [by left|].
      intros [|[-> _]]; [done|]. apply orb_true_iff in Ek as [->%String.eqb_eq| ->%String.eqb_eq]; done.
    - destruct (as_bool (data v)) as [b|] eqn:Eb; [|done]. injection E1 as <-. destruct (eqb d b) eqn:Edb.
      + apply eqb_prop in Edb as <-. split; [done|]. split; [done|]. split; [done|]. intros req _ _. split; [by left|].
        intros [|[_ [= E0]]]; [done|]. by destruct d.
      + split; [done|]. split; [done|]. split; [intros q Hq; cbn; by rewrite lookup_insert_ne|].
        intros req _ _. unfold commands at 1. cbn. rewrite lookup_insert_eq. cbn. rewrite elem_of_app, list_elem_of_singleton.
        assert (b = negb d) as -> by (by destruct d, b). naive_solver. }
  destruct H1 as (Hd1 & Hu1 & Hp1 & Hc1). split; [congruence|]. split; [congruence|].
  split; [intros q Hq; by rewrite Hp, Hp1|]. intros req N1 N2. rewrite Hc, Hc1 by done. split.
  - intros [[|[-> Hv]]|(v' & Hin & Hv)]; [by left|right; exists v; split; [by left|done]|right; exists v'; split; [by right|done]].
  - intros [|(v' & [[= -> ->]|Hin] & Hv)]; [by left; left|left; right; done|right; eauto].
Qed.

Definition decided (entries : list T) (s : RemoteControlSecurity.t) : Prop :=
  unrestricted_ s = false /\
  (forall pk, is_Some (permissions_ s !! pk) -> List.In pk (map key_of entries)) /\
  forall pk req, req <> "pk" -> req <> "default" -> (allow_request pk req s = true <-> entitled_to entries pk req).

Lemma entry_runs entries entry s s' : decided entries s -> ~ List.In (key_of entry) (map key_of entries) ->
  process_security_entry s entry = Ret s' -> decided (entries ++ [entry]) s'.
Proof.
  intros (Hu & Hdom & Hall) Hnew E. unfold process_security_entry in E. apply bind_Ret in E as (pk & Hpk & E).
  apply bind_Ret in E as (s1 & Hs1 & E). injection E as <-. fold (default_of entry) in Hs1.
  assert (Hkey : key_of entry = pk) by (unfold key_of; by rewrite Hpk).
  destruct (add_commands_runs _ _ _ _ _ Hs1) as (Hd1 & Hu1 & Hp1 & Hc1). cbn in Hd1, Hu1, Hp1.
  assert (Hnone : permissions_ s !! pk = None).
  { destruct (permissions_ s !! pk) eqn:Ep; [|done]. destruct Hnew. rewrite Hkey. apply Hdom. by eexists. }
  assert (Hempty : commands pk (set_default pk (default_of entry) s) = []) by (unfold commands; cbn; by rewrite Hnone).
  split; [cbn; by rewrite Hu1|]. split.
  { intros q Hq. cbn in Hq. rewrite map_app, in_app_iff. destruct (decide (q = pk)) as [->|Hne]; [right; left; done|].
    rewrite lookup_insert_ne in Hq by done. rewrite Hp1 in Hq by done. left. by apply Hdom. }
  intros q req N1 N2. unfold allow_request. cbn. rewrite Hu1, Hd1, Hu.
  destruct (decide (q = pk)) as [->|Hne].
  - rewrite !lookup_insert_eq. specialize (Hc1 req N1 N2). rewrite Hempty in Hc1.
    assert (Hent : entitled_to (entries ++ [entry]) pk req <->
      if default_of entry then ~ says false req entry else says true req entry).
    { unfold entitled_to. split.
      - intros (e & [Hin|[<-|[]]]%in_app_iff & He & Hd); [|done]. destruct Hnew. rewrite Hkey, <- He. by apply in_map.
      - intros Hd. exists entry. split; [apply in_app_iff; right; by left|]. done. }
    rewrite Hent. assert (Hsays : req ∈ commands pk s1 <-> says (negb (default_of entry)) req entry).
    { rewrite Hc1. unfold says. split; [intros [Hin|]; [by apply not_elem_of_nil in Hin|done]|by right]. }
    destruct (default_of entry); cbn [negb] in *.
    + rewrite negb_true_iff, bool_decide_eq_false. by rewrite Hsays.
    + rewrite bool_decide_eq_true. by rewrite Hsays.
  - rewrite !lookup_insert_ne by done. rewrite Hp1 by done.
    assert (Hold : entitled_to (entries ++ [entry]) q req <-> entitled_to entries q req).
    { unfold entitled_to. split; intros (e & Hin & He & Hd).
      - apply in_app_iff in Hin as [Hin|[<-|[]]]; [by exists e|]. congruence.
      - exists e. split; [apply in_app_iff; by left|done]. }
    rewrite Hold, <- Hall by done. unfold allow_request. by rewrite Hu.
Qed.

(** (functional) Who may send which command. Without a [security] section,
    everybody everything; with one in which each public key has one entry, the
    key's entry decides: the commands it does not name are as its [default] says,
    which is to refuse when it says nothing; unknown keys are refused. *)
Theorem remote_permissions (cfg : T) s pk req : make cfg = Ret s -> req <> "pk" -> req <> "default" ->
  match get_child_optional cfg "security" with
  | None => allow_request pk req s = true
  | Some details => List.NoDup (map key_of (map snd (children details))) ->
                    (allow_request pk req s = true <-> entitled_to (map snd (children details)) pk req)
  end.
Proof.
  intros E N1 N2. unfold make in E. destruct (get_child_optional cfg "security") as [details|]; [|by injection E as <-].
  intros Hnd.
  assert (Hl : forall l done_ s0, decided done_ s0 -> List.NoDup (map key_of (done_ ++ map snd l)) ->
    foldM (fun s node => _ ← cassert (String.eqb node.1 "map"); process_security_entry s node.2) s0 l = Ret s ->
    decided (done_ ++ map snd l) s).
  { induction l as [|node l IH]; intros d s0 Hd Hnd0 E0; [injection E0 as <-; by rewrite app_nil_r|].
    cbn [foldM] in E0. apply bind_Ret in E0 as (s1 & E1 & E0). apply bind_Ret in E1 as (u & _ & E1). cbn [map] in *.
    assert (Hnew : ~ List.In (key_of node.2) (map key_of d)).
    { rewrite map_app in Hnd0. cbn [map] in Hnd0. apply NoDup_remove_2 in Hnd0. rewrite in_app_iff in Hnd0. tauto. }
    rewrite (cons_middle node.2 d), app_assoc in *. apply (IH (d ++ [node.2]) s1); [by eapply entry_runs|done|done]. }
  apply (Hl (children details) [] (mk ∅ ∅ false)); try done.
  split; [done|]. split; [by intros q [x Hx]|]. intros q r _ _. split; [done|]. by intros (e & [] & _).
Qed.

End permissions.

Section commands.
Context {W T : Type} `{Plugins W T, !Running W T} `{MutableTree T}.

(** (safety) A command somebody may not send changes nothing, nor tells anything:
    whatever the command and its arguments, the unit is as before, and the answer
    is a refusal that does not depend on it. *)
Theorem denied_command_harmless security sync_from pk cmd args (k : kernel W T) :
  allow_request pk cmd security = false ->
  handle_msg security sync_from pk (FStr cmd :: args) k =
    (k, Ret [FStr "KO"; FStr (if command_handlers (W := W) (T := T) sync_from cmd then "Insuficient permission" else "UNKOWN MESSAGE")]).
Proof.
  intros Hno. unfold handle_msg, pure, mbind, io_bind. cbn [pop_str].
  destruct (command_handlers sync_from cmd); [by rewrite Hno|done].
Qed.

End commands.

(** ** Witnesses *)

Definition demo_entry : xml :=
  Node "" [("pk", leaf "alice"); ("default", leaf "false"); ("SAVE", leaf "true"); ("MODULE_LIST", leaf "1")].
Definition demo_security : xml := Node "" [("security", Node "" [("map", demo_entry)])].
Definition demo_rules : RemoteControlSecurity.t := mk {[ "alice" := ["SAVE"; "MODULE_LIST"] ]} {[ "alice" := false ]} false.

Lemma remote_permissions_witness :
  allow_request "alice" "SAVE" demo_rules = true <-> entitled_to [demo_entry] "alice" "SAVE".
Proof.
  assert (E : make demo_security = Ret demo_rules) by (vm_compute; reflexivity).
  assert (Hg : get_child_optional demo_security "security" = Some (Node "" [("map", demo_entry)])) by reflexivity.
  pose proof (remote_permissions demo_security demo_rules "alice" "SAVE" E ltac:(discriminate) ltac:(discriminate)) as P.
  rewrite Hg in P. apply P. repeat constructor. intros [].
Defined.

#[local] Instance nothing_runs : Running (list string) xml := {| runs_with _ _ := None |}.

Lemma denied_command_witness :
  RemoteControl.handle_msg demo_rules (fun _ => mret None) "alice" [FStr "SYNC_FROM"; FStr "tcp://far"] (demo_start []) =
    (demo_start [], Ret [FStr "KO"; FStr "Insuficient permission"]).
Proof. apply (denied_command_harmless demo_rules (fun _ => mret None) "alice" "SYNC_FROM"). vm_compute. reflexivity. Defined.
