(* ===== verification/Sync.v ===== *)
(** Synchronisation: a unit collects the configuration of another,
    [src/core/config/RemoteConfigCollector.cpp] and
    [src/core/tasks/GetRemoteConfigVersion.cpp], and makes it its own,
    [src/core/tasks/SyncConfig.cpp], when it is asked to
    ([RemoteControl::handle_sync_from]).

    A remote unit is reached through [Remotes]; the remote control of Remote.v is
    one ([remote_unit]), so that the two ends of the protocol meet in a theorem. *)
From Stdlib Require Import ZArith Lia Ascii String.
From Stdlib Require Import Sorting.Sorted.
From stdpp Require Import base tactics numbers list strings gmap.
From S2P Require Import Prelude Facades Ptree Trees Config Wiegand Tasks Modules Remote.

Open Scope Z_scope.

(** [request endpoint pk m w]: [m] is sent to a unit with this key, and its reply
    awaited for the time of the poll. A socket may throw. *)
Class Remotes (W : Type) := {
  connect : string -> string -> W -> outcome unit;
  request : string -> string -> message -> W -> W * outcome (option message);
}.

(** * RemoteConfigCollector *)

Module RemoteConfigCollector.

Record t (T : Type) := mk {
  remote_endpoint_ : string;
  remote_pk_ : string;
  remote_version_ : Z;
  general_config_ : T;
  module_list_ : list string;
  config_map_ : gmap string T;
  additional_files_ : gmap string (list (string * string));
  first_call_ : bool;
  succeed_ : bool;
}.
Arguments mk {T}. Arguments remote_endpoint_ {T}. Arguments remote_pk_ {T}. Arguments remote_version_ {T}.
Arguments general_config_ {T}. Arguments module_list_ {T}. Arguments config_map_ {T}.
Arguments additional_files_ {T}. Arguments first_call_ {T}. Arguments succeed_ {T}.

Section collector.
Context {W T : Type} `{Remotes W} `{MutableTree T}.

Definition build (endpoint pk : string) : t T := mk endpoint pk 0 empty_tree [] ∅ ∅ true false.

Definition set_version (v : Z) (c : t T) : t T :=
  mk (remote_endpoint_ c) (remote_pk_ c) v (general_config_ c) (module_list_ c) (config_map_ c) (additional_files_ c)
    (first_call_ c) (succeed_ c).
Definition set_general (g : T) (c : t T) : t T :=
  mk (remote_endpoint_ c) (remote_pk_ c) (remote_version_ c) g (module_list_ c) (config_map_ c) (additional_files_ c)
    (first_call_ c) (succeed_ c).
Definition set_list (l : list string) (c : t T) : t T :=
  mk (remote_endpoint_ c) (remote_pk_ c) (remote_version_ c) (general_config_ c) l (config_map_ c) (additional_files_ c)
    (first_call_ c) (succeed_ c).
Definition set_module (m : string) (cfg : T) (c : t T) : t T :=
  mk (remote_endpoint_ c) (remote_pk_ c) (remote_version_ c) (general_config_ c) (module_list_ c)
    (<[m := cfg]> (config_map_ c)) (additional_files_ c) (first_call_ c) (succeed_ c).
(** [additional_files_[module]] with more files: an entry is made if there was none. *)
Definition add_files (m : string) (files : list (string * string)) (c : t T) : t T :=
  mk (remote_endpoint_ c) (remote_pk_ c) (remote_version_ c) (general_config_ c) (module_list_ c) (config_map_ c)
    (<[m := default [] (additional_files_ c !! m) ++ files]> (additional_files_ c)) (first_call_ c) (succeed_ c).
Definition set_called (c : t T) : t T :=
  mk (remote_endpoint_ c) (remote_pk_ c) (remote_version_ c) (general_config_ c) (module_list_ c) (config_map_ c)
    (additional_files_ c) false (succeed_ c).
Definition set_succeed (c : t T) : t T :=
  mk (remote_endpoint_ c) (remote_pk_ c) (remote_version_ c) (general_config_ c) (module_list_ c) (config_map_ c)
    (additional_files_ c) (first_call_ c) true.

(** The collector with the world its socket is in. *)
Abbreviation state := (W * t T)%type.

Definition get_collector : io state (t T) := fun s => (s, Ret s.2).
Definition change (f : t T -> t T) : io state unit := fun s => ((s.1, f s.2), Ret tt).
Definition send (m : message) : io state (option message) := fun s =>
  let '(w, r) := request (remote_endpoint_ s.2) (remote_pk_ s.2) m s.1 in ((w, s.2), r).
Definition connect_socket : io state unit := fun s => (s, connect (remote_endpoint_ s.2) (remote_pk_ s.2) s.1).

(** [GetRemoteConfigVersion]: a task of its own, on a socket of its own, run on
    the spot; [run] swallows what it throws. *)
Definition get_remote_config_version : io state Z :=
  _ ← connect_socket;
  response ← send [FStr "CONFIG_VERSION"];
  match response with
  | Some response => '(v, _) ← pure (pop_u64 response); mret v
  | None => pure (Throw (StdRuntimeError "Failed to receive response from remote server in due time"))
  end.

Definition fetch_remote_config_version : io state (option Z) := fun s =>
  match get_remote_config_version s with
  | (s, Ret v) => (s, Ret (Some v))
  | (s, Throw _) => (s, Ret None)
  | (s, Fault f) => (s, Fault f)
  end.

Definition fetch_general_config : io state bool :=
  rep ← send [FStr "GENERAL_CONFIG"; FU8 BOOST_ARCHIVE];
  match rep with
  | Some msg =>
      if Z.of_nat (length msg) =? 2 then
        '(tmp, msg) ← pure (pop_str msg);
        _ ← pure (cassert (String.eqb tmp "OK"));
        '(tmp, _) ← pure (pop_str msg);
        match load_archive tmp with
        | Some g => _ ← change (set_general g); mret true
        | None => mret false
        end
      else mret false
  | None => mret false
  end.

(** Every frame left of a message, as text. *)
Fixpoint pop_all (m : message) : outcome (list string) :=
  match m with
  | [] => Ret []
  | FStr s :: m => l ← pop_all m; Ret (s :: l)
  | _ => Fault BadFrame
  end.

Definition fetch_module_list : io state bool :=
  rep ← send [FStr "MODULE_LIST"];
  match rep with
  | Some msg => l ← pure (pop_all msg); _ ← change (fun c => set_list (module_list_ c ++ l) c); mret true
  | None => mret false
  end.

(** The pairs of a name and a content. *)
Fixpoint pairs (l : list string) : list (string * string) :=
  match l with f :: c :: l => (f, c) :: pairs l | _ => [] end.

Definition fetch_module_config (module_name : string) : io state bool :=
  rep ← send [FStr "MODULE_CONFIG"; FStr module_name; FU8 BOOST_ARCHIVE];
  match rep with
  | Some msg =>
      if Z.of_nat (length msg) <? 3 then mret false
      else
        '(result, msg) ← pure (pop_str msg);
        '(recv_module_name, msg) ← pure (pop_str msg);
        '(config_str, msg) ← pure (pop_str msg);
        _ ← pure (cassert (String.eqb result "OK"));
        _ ← pure (cassert (String.eqb recv_module_name module_name));
        if Z.of_nat (length msg) mod 2 =? 0 then
          files ← pure (pop_all msg);
          _ ← change (add_files module_name (pairs files));
          match load_archive config_str with
          | Some cfg => _ ← change (set_module module_name cfg); mret true
          | None => _ ← change (fun c => set_module module_name (default empty_tree (config_map_ c !! module_name)) c); mret false
          end
        else mret false
  | None => mret false
  end.

Fixpoint fetch_modules_config_loop (l : list string) : io state bool :=
  match l with
  | [] => mret true
  | mod_name :: l =>
      ok ← fetch_module_config mod_name;
      if (ok : bool) then fetch_modules_config_loop l else mret false
  end.

Definition fetch_modules_config : io state bool :=
  c ← get_collector; fetch_modules_config_loop (module_list_ c).

(** The steps of [fetch_config]'s [try]: the first that fails ends it. *)
Definition fetch_steps : io state bool :=
  _ ← connect_socket;
  v ← fetch_remote_config_version;
  match v with
  | None => mret false
  | Some v =>
      _ ← change (set_version v);
      ok ← fetch_general_config;
      if negb ok then mret false
      else ok ← fetch_module_list;
      if negb ok then mret false
      else ok ← fetch_modules_config;
      if negb ok then mret false
      else version2 ← fetch_remote_config_version;
      match version2 with
      | Some version2 => if v =? version2 then _ ← change set_succeed; mret true else mret false
      | None => mret false
      end
  end.

(** [fetch_config(nullptr)]; an exception is a failure. *)
Definition fetch_config : io state bool := fun s =>
  if first_call_ s.2 then
    match fetch_steps (s.1, set_called s.2) with
    | (s, Throw _) => (s, Ret false)
    | r => r
    end
  else (s, Fault AssertFailed).

(** Accessors: [assert(succeed_)], and [assert(0)] for a module that is unknown. *)
Definition modules_list (c : t T) : outcome (list string) := _ ← cassert (succeed_ c); Ret (module_list_ c).
Definition module_config (name : string) (c : t T) : outcome T :=
  _ ← cassert (succeed_ c);
  match config_map_ c !! name with Some cfg => Ret cfg | None => Fault AssertFailed end.
Definition additional_files (name : string) (c : t T) : outcome (list (string * string)) :=
  match additional_files_ c !! name with Some l => Ret l | None => Fault AssertFailed end.

End collector.
End RemoteConfigCollector.
Import RemoteConfigCollector.

(** * SyncConfig *)

Module SyncConfig.

Record t := mk { sync_general_config_ : bool; autocommit_ : bool }.

Section sync.
Context {W T : Type} `{Plugins W T} `{MutableTree T}.
Abbreviation kernel := (kernel W T).
Abbreviation collector := (RemoteConfigCollector.t T).

Definition store (name : string) (cfg : T) : io kernel unit :=
  modify (fun k => set_config (ConfigManager.store_config name cfg (config_manager k)).1 k).

(** An [ofstream]: a file that cannot be written is not noticed. *)
Definition write_file (file_info : string * string) : io kernel unit := fun k =>
  (set_outside (write_text file_info.1 file_info.2 (outside k)).1 k, Ret tt).

Definition sync_general (collector : collector) : io kernel unit :=
  k ← get_kernel;
  c ← pure (ConfigManager.set_kconfig (RemoteConfigCollector.general_config_ collector) (config_manager k));
  modify (fun k => restart_later (set_config c k)).

(** The module's configuration of before the synchronisation, if it had one. *)
Definition reload (backup : ConfigManager.t T) (name : string) : io kernel unit :=
  if ConfigManager.has_config name backup then cfg ← pure (ConfigManager.load_config name backup); store name cfg
  else mret tt.

(** A module of the remote unit. *)
Definition import (backup : ConfigManager.t T) (collector : collector) (name : string) : io kernel unit :=
  k ← get_kernel;
  if ConfigManager.is_module_importable name (config_manager k) then
    cfg ← pure (module_config name collector);
    _ ← store name cfg;
    files ← pure (additional_files name collector);
    foldU write_file files
  else reload backup name.

Definition load_synced (name : string) : io kernel unit :=
  k ← get_kernel;
  if ConfigManager.has_config name (config_manager k) then
    ret ← loadModule name;
    pure (cassert ret)
  else mret tt.

Definition sync_modules (backup : ConfigManager.t T) (collector : collector) : io kernel unit :=
  list ← pure (modules_list collector);
  _ ← foldU (import backup collector) list;
  foldU (reload backup) (ConfigManager.get_non_importable_modules backup).

Definition restart_modules (collector : collector) : io kernel unit :=
  k ← get_kernel;
  _ ← pure (cassert (bool_decide (modules_names k = [])));
  list ← pure (modules_list collector);
  _ ← foldU load_synced list;
  _ ← modify (fun k => set_config (ConfigManager.set_version (remote_version_ collector) (config_manager k)) k);
  initModules.

Definition sync_config (s : t) (collector : collector) : io kernel unit :=
  k ← get_kernel;
  let backup := config_manager k in
  _ ← (if sync_general_config_ s then sync_general collector else mret tt);
  _ ← modify (stopModules false);
  _ ← sync_modules backup collector;
  _ ← restart_modules collector;
  if autocommit_ s then _ ← save_config; mret tt else mret tt.

(** [do_run]; [fetched] is the task that collected, and whether it succeeded. *)
Definition do_run (s : t) (fetched : bool) (collector : collector) : io kernel bool := fun k =>
  if fetched then
    match sync_config s collector (set_checker (ConfigChecker.clear (config_checker k)) k) with
    | (k, Ret _) => (k, Ret true)
    | (k, Throw _) => (k, Ret false)
    | (k, Fault f) => (k, Fault f)
    end
  else (k, Ret false).

End sync.
End SyncConfig.

(** * The task chain of SYNC_FROM *)

(** The unit, the collectors of the tasks that fetch, by task, and what the remote
    control sent on its own initiative. *)
Record world_of (W T : Type) := mk_world {
  unit_ : kernel W T;
  collectors : gmap nat (RemoteConfigCollector.t T);
  sent : list (string * message);
}.
Arguments mk_world {W T}. Arguments unit_ {W T}. Arguments collectors {W T}. Arguments sent {W T}.

(** What the tasks run, and their callbacks. *)
Inductive job :=
  | FetchRemoteConfig (self : nat)
  | RunSync (s : SyncConfig.t) (fetch_task : nat)
  | RemoteControlAsyncResponse (identity : string) (msg : message)
  | RunTask (t : nat)
  | EnqueueTask (t : nat) (policy : TargetThread).

Section chain.
Context {W T : Type} `{Plugins W T, !Remotes W} `{MutableTree T}.
Abbreviation system := (sys job (world_of W T)).

Definition on_unit (f : kernel W T -> kernel W T * outcome bool) (s : system) : system * outcome bool :=
  let '(k, r) := f (unit_ (world s)) in (set_world (mk_world k (collectors (world s)) (sent (world s))) s, r).

(** [do_run] of each kind of task. *)
Definition perform_task (a : job) (s : system) : system * outcome bool :=
  match a with
  | FetchRemoteConfig self =>
      match collectors (world s) !! self with
      | None => (s, Fault NullDeref)
      | Some c =>
          let '((w, c), r) := fetch_config (outside (unit_ (world s)), c) in
          (set_world (mk_world (set_outside w (unit_ (world s))) (<[self := c]> (collectors (world s))) (sent (world s))) s, r)
      end
  | RunSync p fetch_task =>
      match tasks s !! fetch_task, collectors (world s) !! fetch_task with
      | Some f, Some c =>
          if Task.complete_ f then on_unit (SyncConfig.do_run p (Task.success_ f) c) s else (s, Fault AssertFailed)
      | _, _ => (s, Fault NullDeref)
      end
  | RemoteControlAsyncResponse identity msg =>
      (set_world (mk_world (unit_ (world s)) (collectors (world s)) (sent (world s) ++ [(identity, msg)])) s, Ret true)
  | EnqueueTask t policy => (enqueue t policy s, Ret true)
  | RunTask _ => (s, Fault AssertFailed)
  end.

(** A callback that runs a task runs one whose own callbacks are not set. *)
Definition perform (a : job) (s : system) : system * outcome bool :=
  match a with
  | RunTask t =>
      match run perform_task t s with
      | (s, Ret _) =>
          match tasks s !! t with
          | Some k => if Task.success_ k then (s, Ret true) else (s, Fault AssertFailed)
          | None => (s, Fault NullDeref)
          end
      | (s, Throw e) => (s, Throw e)
      | (s, Fault f) => (s, Fault f)
      end
  | _ => perform_task a s
  end.

(** [handle_sync_from]; [guid] names a task. *)
Definition handle_sync_from (guid : nat -> string) (current_client_idt_ : string) (msg_in : message) (s : system)
  : system * outcome (option message) :=
  if Z.of_nat (length msg_in) =? 4 then
    match ('(endpoint, m) ← pop_str msg_in;
           '(autocommit, m) ← pop_u8 m;
           '(remote_server_pubkey, m) ← pop_str m;
           '(sync_general_config, _) ← pop_u8 m;
           Ret (endpoint, autocommit, remote_server_pubkey, sync_general_config)) with
    | Ret (endpoint, autocommit, remote_server_pubkey, sync_general_config) =>
        let fetch_task := fresh_id s in
        let '(s, _) := make_task (Task.build (FetchRemoteConfig fetch_task)) s in
        let s := set_world (mk_world (unit_ (world s))
                   (<[fetch_task := RemoteConfigCollector.build endpoint remote_server_pubkey]> (collectors (world s)))
                   (sent (world s))) s in
        let p := SyncConfig.mk (negb (sync_general_config =? 0)) (negb (autocommit =? 0)) in
        let '(s, sync_task) := make_task (Task.build (RunSync p fetch_task)) s in
        let response what := Task.build (RemoteControlAsyncResponse current_client_idt_ [FStr what; FStr (guid sync_task)]) in
        let '(s, success_response_task) := make_task (response "Success") s in
        let '(s, failure_response_task) := make_task (response "Failed") s in
        let '(s, abort_response_task) := make_task (response "Aborted") s in
        let s := update_task (Task.set_on_success (RunTask success_response_task)) sync_task s in
        let s := update_task (Task.set_on_failure (RunTask failure_response_task)) sync_task s in
        let s := update_task (Task.set_on_failure (EnqueueTask abort_response_task MAIN)) fetch_task s in
        let s := update_task (Task.set_on_success (EnqueueTask sync_task MAIN)) fetch_task s in
        (enqueue fetch_task POOL s, Ret (Some [FStr "DELAYED"; FStr (guid sync_task)]))
    | Throw e => (s, Throw e)
    | Fault f => (s, Fault f)
    end
  else (s, Ret None).

End chain.

(** * Properties *)

(** ** The two ends of the protocol *)

(** What goes through the ROUTER socket of the remote control, which drops in
    silence a message that has no frame but the identity of who it is for. *)
Definition routed (rep : message) : option message := match rep with [] => None | _ => Some rep end.

(** A unit whose remote control answers [user_pubkey]. When the handler does not
    return, nothing comes in time. *)
Definition remote_unit {W T} `{Plugins W T, !Running W T} `{MutableTree T} (security : RemoteControlSecurity.t)
    (sync_from : message -> io (kernel W T) (option message)) (user_pubkey : string) : Remotes (kernel W T) := {|
  connect _ _ _ := Ret tt;
  request _ _ m k :=
    let '(k, r) := RemoteControl.handle_msg security sync_from user_pubkey m k in
    (k, Ret match r with Ret rep => routed rep | _ => None end);
|}.

Section protocol.
Context {W T : Type} `{Plugins W T, !Running W T} `{MutableTreeLaws T}.
Context (security : RemoteControlSecurity.t) (sync_from : message -> io (kernel W T) (option message)) (user_pubkey : string).
Local Instance the_unit : Remotes (kernel W T) := remote_unit security sync_from user_pubkey.
Abbreviation allowed cmd := (RemoteControlSecurity.allow_request user_pubkey cmd security = true).
Implicit Types (k : kernel W T) (c : RemoteConfigCollector.t T).

(** The answer of the remote control is what the socket receives, when it has a frame. *)
Lemma unit_answers m rep k c : RemoteControl.handle_msg security sync_from user_pubkey m k = (k, Ret rep) ->
  send m (k, c) = ((k, c), Ret (routed rep)).
Proof. intros E. unfold send, request. cbn [the_unit remote_unit fst snd]. by rewrite E. Qed.

(** An allowed command is handled, another refused. *)
Lemma handled cmd args h rep k : allowed cmd -> RemoteControl.command_handlers sync_from cmd = Some h ->
  h args k = (k, Ret (Some rep)) ->
  RemoteControl.handle_msg security sync_from user_pubkey (FStr cmd :: args) k = (k, Ret rep).
Proof.
  intros Ha Hh E. unfold RemoteControl.handle_msg, mbind, io_bind, pure. cbn [pop_str]. rewrite Hh, Ha, E. done.
Qed.

Lemma refused cmd args k : RemoteControlSecurity.allow_request user_pubkey cmd security = false ->
  is_Some (RemoteControl.command_handlers (W := W) (T := T) sync_from cmd) ->
  RemoteControl.handle_msg security sync_from user_pubkey (FStr cmd :: args) k = (k, Ret [FStr "KO"; FStr "Insuficient permission"]).
Proof.
  intros Ha [h Hh]. unfold RemoteControl.handle_msg, mbind, io_bind, pure. cbn [pop_str]. by rewrite Hh, Ha.
Qed.

Lemma version_answer k c : allowed "CONFIG_VERSION" ->
  fetch_remote_config_version (k, c) = ((k, c), Ret (Some (ConfigManager.config_version (config_manager k)))).
Proof.
  intros Ha. unfold fetch_remote_config_version, get_remote_config_version, mbind, io_bind. cbn [connect_socket].
  change (connect _ _ _) with (Ret tt). cbv iota beta.
  erewrite unit_answers by (eapply handled; [done|reflexivity|reflexivity]). reflexivity.
Qed.

Lemma general_answer k c g : allowed "GENERAL_CONFIG" -> ConfigManager.get_exportable_general_config (config_manager k) = Ret g ->
  fetch_general_config (k, c) = ((k, set_general g c), Ret true).
Proof.
  intros Ha Hg. unfold fetch_general_config, mbind at 1, io_bind at 1.
  rewrite (unit_answers _ [FStr "OK"; FStr (text_archive g)]).
  - unfold pure, mbind, io_bind. cbn -[Z.of_nat]. by rewrite archive_roundtrip.
  - eapply handled; [done|reflexivity|]. cbn. unfold RemoteControl.general_config, get_kernel, pure, mbind, io_bind.
    by rewrite Hg.
Qed.

Lemma pop_all_text l : pop_all (map FStr l) = Ret l.
Proof. induction l as [|s l IH]; [done|]. cbn. by rewrite IH. Qed.

Lemma list_answer k c : allowed "MODULE_LIST" -> modules_names k <> [] ->
  fetch_module_list (k, c) = ((k, set_list (module_list_ c ++ modules_names k) c), Ret true).
Proof.
  intros Ha Hne. unfold fetch_module_list, mbind at 1, io_bind at 1.
  rewrite (unit_answers _ (map FStr (modules_names k))) by (by eapply handled).
  assert (routed (map FStr (modules_names k)) = Some (map FStr (modules_names k))) as -> by (by destruct (modules_names k)).
  unfold pure, mbind, io_bind. by rewrite pop_all_text.
Qed.

(** A unit without a module: its list is no message at all. *)
Lemma no_list_answer k c : allowed "MODULE_LIST" -> modules_names k = [] -> fetch_module_list (k, c) = ((k, c), Ret false).
Proof.
  intros Ha Hno. unfold fetch_module_list, mbind, io_bind.
  rewrite (unit_answers _ []); [done|]. eapply handled; [done|reflexivity|]. cbn. unfold RemoteControl.module_list, mbind, io_bind.
  cbn. by rewrite Hno.
Qed.

Lemma pairs_files files : pairs (flat_map (fun f : string * string => [f.1; f.2]) files) = files.
Proof. induction files as [|[f x] l IH]; [done|]. cbn. by rewrite IH. Qed.

Lemma file_frames_text files : file_frames files = map FStr (flat_map (fun f : string * string => [f.1; f.2]) files).
Proof. induction files as [|[f x] l IH]; [done|]. unfold file_frames in *. cbn. by rewrite IH. Qed.

Lemma length_file_frames files : (Z.of_nat (length (file_frames files)) mod 2 =? 0) = true.
Proof.
  apply Z.eqb_eq. assert (length (file_frames files) = length files * 2)%nat as ->.
  { unfold file_frames in *. induction files as [|f l IH]; [done|]. cbn [flat_map app length]. lia. }
  rewrite Nat2Z.inj_mul. apply Z.mod_mul. lia.
Qed.

Definition with_module (m : string) (config : T * list (string * string)) (c : RemoteConfigCollector.t T) : RemoteConfigCollector.t T :=
  set_module m config.1 (add_files m config.2 c).

Lemma module_answer k c m config : allowed "MODULE_CONFIG" -> m ∈ modules_names k -> runs_with m (outside k) = Some config ->
  fetch_module_config m (k, c) = ((k, with_module m config c), Ret true).
Proof.
  intros Ha Hm Hr. unfold fetch_module_config, mbind at 1, io_bind at 1.
  rewrite (unit_answers _ (FStr "OK" :: FStr m :: FStr (text_archive config.1) :: file_frames config.2)).
  - cbn -[Z.ltb Z.modulo]. destruct (Z.ltb_spec (Z.of_nat (S (S (S (length (file_frames config.2)))))) 3); [lia|].
    unfold pure, mbind, io_bind. cbn -[Z.modulo Z.of_nat]. rewrite String.eqb_refl. cbn -[Z.modulo Z.of_nat].
    rewrite length_file_frames, file_frames_text, pop_all_text, pairs_files. cbn. by rewrite archive_roundtrip.
  - eapply handled; [done|reflexivity|]. unfold RemoteControl.handle_module_config, RemoteControl.module_config, get_kernel, pure, mbind, io_bind.
    cbn [length]. change (2 <=? Z.of_nat 2) with true. cbn -[bool_decide]. by rewrite bool_decide_eq_true_2, Hr.
Qed.

Lemma modules_answer k l c : allowed "MODULE_CONFIG" -> Forall (fun m => m ∈ modules_names k) l ->
  Forall (fun m => is_Some (runs_with m (outside k))) l -> List.NoDup l ->
  exists c', fetch_modules_config_loop l (k, c) = ((k, c'), Ret true) /\
    general_config_ c' = general_config_ c /\ module_list_ c' = module_list_ c /\ remote_version_ c' = remote_version_ c /\
    (forall m, ~ List.In m l -> config_map_ c' !! m = config_map_ c !! m /\ additional_files_ c' !! m = additional_files_ c !! m) /\
    ((forall m, List.In m l -> additional_files_ c !! m = None) -> forall m config, List.In m l ->
      runs_with m (outside k) = Some config ->
      config_map_ c' !! m = Some config.1 /\ additional_files_ c' !! m = Some config.2).
Proof.
  intros Ha. revert c. induction l as [|m l IH]; intros c Hl Hr Hnd.
  { exists c. split; [done|]. split; [done|]. split; [done|]. split; [done|]. split; [by intros|]. intros _ m config []. }
  apply Forall_cons in Hl as [Hm Hl]. apply Forall_cons in Hr as [[config Hc] Hr]. inversion Hnd as [|? ? Hnot Hnd']; subst.
  destruct (IH (with_module m config c) Hl Hr Hnd') as (c' & Hf & Hg & Hml & Hv & Hout & Hin).
  exists c'. cbn [fetch_modules_config_loop]. split.
  { unfold mbind, io_bind. by rewrite (module_answer k c m config). }
  split; [done|]. split; [done|]. split; [done|]. split.
  - intros x Hx. destruct (Hout x) as [-> ->]; [intros ?; apply Hx; by right|]. cbn.
    rewrite !lookup_insert_ne by (intros ->; apply Hx; by left). done.
  - intros Hnone x config' [<-|Hx] Hcx.
    + destruct (Hout m Hnot) as [-> ->]. cbn. rewrite !lookup_insert_eq, (Hnone m) by (by left). cbn.
      rewrite Hc in Hcx. by injection Hcx as <-.
    + apply Hin; [|done|done]. intros y Hy. cbn. rewrite lookup_insert_ne by (intros ->; done). apply Hnone. by right.
Qed.

(** C12: (roundtrip) What a unit collects from another is what the other has. When the
    other's remote control allows the four requests and its modules answer, the
    collection succeeds if the other has a module, leaves it as it was, and holds
    its version, the part of its general configuration it gives away, the list of
    its modules, and for each the configuration it runs with and its files. From a
    unit that has no module the collection fails: the list it sends has no frame,
    and the ROUTER drops it. *)
Theorem fetch_gets_configuration k endpoint pk g :
  Forall (fun cmd => allowed cmd) ["CONFIG_VERSION"; "GENERAL_CONFIG"; "MODULE_LIST"; "MODULE_CONFIG"] ->
  ConfigManager.get_exportable_general_config (config_manager k) = Ret g ->
  List.NoDup (modules_names k) -> Forall (fun m => is_Some (runs_with m (outside k))) (modules_names k) ->
  exists c, fetch_config (k, RemoteConfigCollector.build endpoint pk) = ((k, c), Ret (bool_decide (modules_names k <> []))) /\
    succeed_ c = bool_decide (modules_names k <> []) /\
    (modules_names k <> [] ->
     remote_version_ c = ConfigManager.config_version (config_manager k) /\ general_config_ c = g /\
     modules_list c = Ret (modules_names k) /\
     forall m config, m ∈ modules_names k -> runs_with m (outside k) = Some config ->
       module_config m c = Ret config.1 /\ additional_files m c = Ret config.2).
Proof.
  rewrite !Forall_cons. intros (Hv & Hgc & Hl & Hmc & _) Hg Hnd Hr. unfold fetch_config.
  cbn [first_call_ RemoteConfigCollector.build snd fst]. unfold fetch_steps, mbind, io_bind.
  cbn [connect_socket]. change (connect _ _ _) with (Ret tt). cbv iota beta.
  rewrite version_answer by done. cbn [change fst snd]. erewrite general_answer by done. cbn [negb].
  case_bool_decide as Hne.
  2: { rewrite no_list_answer by (done || by apply dec_stable). by eexists. }
  set (c0 := set_list (modules_names k) (set_general g (set_version (ConfigManager.config_version (config_manager k))
    (set_called (RemoteConfigCollector.build endpoint pk))))).
  destruct (modules_answer k (modules_names k) c0 Hmc) as (c' & Hf & Hg' & Hml & Hv' & _ & Hin); [by apply Forall_forall|done|done|].
  exists (set_succeed c'). split; [|split; [done|intros _; split; [done|split; [done|split]]]].
  - rewrite list_answer by done. cbn [negb]. unfold fetch_modules_config, get_collector, mbind, io_bind. change (module_list_ _ ++ modules_names k) with (modules_names k).
    change (set_list (modules_names k) _) with c0. cbn [snd]. change (module_list_ c0) with (modules_names k).
    rewrite Hf. cbn [negb]. rewrite version_answer by done. by rewrite Z.eqb_refl.
  - unfold modules_list. cbn. by rewrite Hml.
  - intros m config Hm Hc. destruct (Hin ltac:(done) m config) as [E1 E2]; [by apply list_elem_of_In|done|].
    unfold module_config, additional_files. cbn. by rewrite E1, E2.
Qed.

(** (error) A unit that is refused the version or the general configuration does
    not report a failure: the program ends, on an assertion, whatever else the
    other allows. It is refused by every unit that has a [security] section, since
    a collection is made with a key pair of its own that no such section knows. *)
Theorem refused_collection_aborts k endpoint pk :
  RemoteControlSecurity.allow_request user_pubkey "CONFIG_VERSION" security = false \/ RemoteControlSecurity.allow_request user_pubkey "GENERAL_CONFIG" security = false ->
  exists s f, fetch_config (k, RemoteConfigCollector.build endpoint pk) = (s, Fault f) /\ f ∈ [BadFrame; AssertFailed].
Proof.
  intros Hno. unfold fetch_config. cbn [first_call_ RemoteConfigCollector.build snd fst]. unfold fetch_steps, mbind, io_bind.
  cbn [connect_socket]. change (connect _ _ _) with (Ret tt). cbv iota beta.
  destruct (RemoteControlSecurity.allow_request user_pubkey "CONFIG_VERSION" security) eqn:Hv.
  - rewrite version_answer by done. destruct Hno as [|Hno]; [done|]. cbn [change fst snd].
    unfold fetch_general_config, mbind, io_bind. erewrite unit_answers by (apply refused; [done|by eexists]).
    do 2 eexists. split; [reflexivity|set_solver].
  - unfold fetch_remote_config_version, get_remote_config_version, mbind, io_bind. cbn [connect_socket].
    change (connect _ _ _) with (Ret tt). cbv iota beta. erewrite unit_answers by (apply refused; [done|by eexists]).
    do 2 eexists. split; [reflexivity|set_solver].
Qed.

End protocol.

(** ** What a synchronisation leaves *)

Section result.
Context {W T : Type} `{Plugins W T} `{MutableTreeLaws T}.
Implicit Types (k : kernel W T) (c : RemoteConfigCollector.t T) (old : ConfigManager.t T).
Abbreviation importable m c := (ConfigManager.is_module_importable m c).
Abbreviation configs k := (ConfigManager.modules_configs_ (config_manager k)).

(** A collection that succeeded. *)
Definition collected c : Prop :=
  succeed_ c = true /\
  Forall (fun m => is_Some (config_map_ c !! m) /\ is_Some (additional_files_ c !! m)) (module_list_ c) /\
  Forall (fun kv => simple kv.1) (children (general_config_ c)) /\ ~ List.In "no_import" (map fst (children (general_config_ c))).

(** The unit's tree when its modules are synchronised. *)
Definition general_applied (s : SyncConfig.t) c old (now : ConfigManager.t T) : Prop :=
  if SyncConfig.sync_general_config_ s then ConfigManager.set_kconfig (general_config_ c) old = Ret now else now = old.

(** The configuration a module should have: the other unit's, if it has the module
    and we import it, and otherwise our own. *)
Definition synced c old (m : string) : option T :=
  if importable m old && bool_decide (m ∈ module_list_ c) then config_map_ c !! m else ConfigManager.modules_configs_ old !! m.

Lemma fold_put_other (exportable : list string) l (t : T) key : Forall (fun kv => simple kv.1) l -> ~ List.In key (map fst l) -> simple key ->
  get_child_optional (foldl (fun (g : T) kv => if bool_decide (kv.1 ∈ exportable) then put_child kv.1 kv.2 g else g) t l) key =
  get_child_optional t key.
Proof.
  revert t. induction l as [|[h w] l IH]; intros t Hs Hn Hk; [done|]. apply Forall_cons in Hs as [Hh Hs]. cbn [foldl fst snd map] in *.
  rewrite IH; [|done|cbn in Hn; tauto|done]. destruct (bool_decide _); [|done].
  rewrite !child_assoc, children_put, assoc_put_ne by (cbn in Hn; naive_solver). done.
Qed.

(** The list of the modules that are not imported stays, whatever the other sends. *)
Lemma general_keeps_list s c old now : collected c -> general_applied s c old now ->
  ConfigManager.get_non_importable_modules now = ConfigManager.get_non_importable_modules old /\
  ConfigManager.modules_configs_ now = ConfigManager.modules_configs_ old.
Proof.
  intros (_ & _ & Hs & Hn) Hg. unfold general_applied in Hg. destruct (SyncConfig.sync_general_config_ s); [|by subst].
  unfold ConfigManager.set_kconfig in Hg. apply bind_Ret in Hg as (file & _ & Hg).
  unfold ConfigManager.get_non_importable_modules.
  destruct (get_child_optional (ConfigManager.kernel_config_ old) "sync_dest") as [section|].
  - apply bind_Ret in Hg as (wanted & _ & Hg). injection Hg as <-. split; [|done].
    cbn [ConfigManager.set_kernel ConfigManager.kernel_config_]. by rewrite fold_put_other.
  - injection Hg as <-. split; [|done]. cbn [ConfigManager.set_kernel ConfigManager.kernel_config_].
    rewrite child_put_ne, child_add by done. rewrite child_assoc by done.
    destruct (get_child_optional (ConfigManager.kernel_config_ old) "no_import") as [ni|].
    + by rewrite children_put, assoc_put_eq.
    + apply assoc_none in Hn. by rewrite Hn.
Qed.

(** Code that changes but the modules' configurations and the outside. *)
Definition only_configs k k' : Prop :=
  ConfigManager.kernel_config_ (config_manager k') = ConfigManager.kernel_config_ (config_manager k) /\ modules_ k' = modules_ k.

Lemma write_files_run files k : exists k', foldU SyncConfig.write_file files k = (k', Ret tt) /\
  config_manager k' = config_manager k /\ modules_ k' = modules_ k.
Proof.
  revert k. induction files as [|f l IH]; intros k; [by exists k|]. cbn [foldU]. unfold mbind, io_bind. cbn [SyncConfig.write_file].
  destruct (IH (set_outside (write_text f.1 f.2 (outside k)).1 k)) as (k' & E & E1 & E2). by exists k'.
Qed.

Lemma import_runs old c name k : collected c -> name ∈ module_list_ c ->
  importable name (config_manager k) = importable name old ->
  (importable name old = false -> configs k !! name = ConfigManager.modules_configs_ old !! name) ->
  exists k', SyncConfig.import old c name k = (k', Ret tt) /\ only_configs k k' /\ configs k' !! name = synced c old name /\
    forall m, m <> name -> configs k' !! m = configs k !! m.
Proof.
  intros (Hok & Hall & _) Hin Hsame Hkeep. unfold SyncConfig.import, get_kernel, pure, mbind, io_bind. rewrite Hsame.
  assert (Hnow : synced c old name = if importable name old then config_map_ c !! name else ConfigManager.modules_configs_ old !! name).
  { unfold synced. rewrite (bool_decide_eq_true_2 (name ∈ _)) by done. by rewrite andb_true_r. }
  rewrite Hnow. destruct (importable name old) eqn:Ei.
  - rewrite Forall_forall in Hall. destruct (Hall name Hin) as [[cfg Hc] [files Hf]].
    unfold module_config, additional_files. rewrite Hok, Hc, Hf. cbn [cassert mbind outcome_bind]. cbv beta iota.
    unfold SyncConfig.store, modify at 1. cbv beta iota.
    destruct (write_files_run files (set_config (ConfigManager.store_config name cfg (config_manager k)).1 k)) as (k' & E & E1 & E2).
    exists k'. split; [exact E|]. split; [by split; [rewrite E1|]|]. rewrite E1. cbn. split; [by rewrite lookup_insert_eq|].
    intros m Hm. by rewrite lookup_insert_ne.
  - specialize (Hkeep eq_refl). unfold SyncConfig.reload, ConfigManager.has_config, ConfigManager.load_config.
    destruct (ConfigManager.modules_configs_ old !! name) as [cfg|] eqn:Ec.
    + rewrite bool_decide_eq_true_2 by (by eexists). unfold pure, mbind, io_bind, SyncConfig.store, modify.
      eexists. split; [reflexivity|]. split; [done|]. cbn. split; [by rewrite lookup_insert_eq|].
      intros m Hm. by rewrite lookup_insert_ne.
    + rewrite bool_decide_eq_false_2 by (by intros []). by exists k.
Qed.

(** The configurations after the modules of [d] are done. *)
Definition imported c old (d : list string) k : Prop :=
  ConfigManager.get_non_importable_modules (config_manager k) = ConfigManager.get_non_importable_modules old /\
  forall m, configs k !! m = if bool_decide (m ∈ d) then synced c old m else ConfigManager.modules_configs_ old !! m.

Lemma imports_run old c l d k : collected c -> Forall (fun m => m ∈ module_list_ c) l -> imported c old d k ->
  exists k', foldU (SyncConfig.import old c) l k = (k', Ret tt) /\ only_configs k k' /\ imported c old (d ++ l) k'.
Proof.
  intros Hc. revert d k. induction l as [|name l IH]; intros d k Hl [Hno Hd].
  { exists k. rewrite app_nil_r. done. }
  apply Forall_cons in Hl as [Hin Hl].
  destruct (import_runs old c name k Hc Hin) as (k1 & E1 & [Ho1 Ho2] & Hname & Hother).
  { unfold ConfigManager.is_module_importable. by rewrite Hno. }
  { intros Hi. rewrite Hd. destruct (bool_decide _); [|done]. unfold synced. by rewrite Hi. }
  destruct (IH (d ++ [name]) k1 Hl) as (k2 & E2 & [Ho3 Ho4] & Hi2).
  { split; [unfold ConfigManager.get_non_importable_modules in *; by rewrite Ho1|]. intros m.
    destruct (decide (m = name)) as [->|Hne].
    - rewrite Hname, bool_decide_eq_true_2 by set_solver. done.
    - rewrite Hother, Hd by done. rewrite (bool_decide_ext (m ∈ d ++ [name]) (m ∈ d)) by set_solver. done. }
  exists k2. rewrite <- app_assoc in Hi2. split; [|split; [split; congruence|exact Hi2]].
  cbn [foldU]. unfold mbind, io_bind. by rewrite E1.
Qed.

Lemma reloads_run old l k : Forall (fun m => configs k !! m = ConfigManager.modules_configs_ old !! m) l ->
  exists k', foldU (SyncConfig.reload old) l k = (k', Ret tt) /\ only_configs k k' /\ forall m, configs k' !! m = configs k !! m.
Proof.
  revert k. induction l as [|name l IH]; intros k Hl; [by exists k|]. apply Forall_cons in Hl as [Hn Hl].
  assert (E : exists k', SyncConfig.reload old name k = (k', Ret tt) /\ only_configs k k' /\ forall m, configs k' !! m = configs k !! m).
  { unfold SyncConfig.reload, ConfigManager.has_config, ConfigManager.load_config.
    destruct (ConfigManager.modules_configs_ old !! name) as [cfg|].
    - rewrite bool_decide_eq_true_2 by (by eexists). unfold pure, mbind, io_bind, SyncConfig.store, modify.
      eexists. split; [reflexivity|]. split; [done|]. intros m. cbn. destruct (decide (m = name)) as [->|Hne];
        [by rewrite lookup_insert_eq|by rewrite lookup_insert_ne].
    - rewrite bool_decide_eq_false_2 by (by intros []). by exists k. }
  destruct E as (k1 & E1 & [Ha1 Ha2] & Hm1). destruct (IH k1) as (k2 & E2 & [Hb1 Hb2] & Hm2).
  { eapply Forall_impl; [exact Hl|]. intros m Hm. cbn beta. by rewrite Hm1. }
  exists k2. split; [cbn [foldU]; unfold mbind, io_bind; by rewrite E1|]. split; [split; congruence|]. intros m. by rewrite Hm2, Hm1.
Qed.

Lemma sync_modules_runs old c k : collected c ->
  ConfigManager.get_non_importable_modules (config_manager k) = ConfigManager.get_non_importable_modules old ->
  configs k = ConfigManager.modules_configs_ old ->
  exists k', SyncConfig.sync_modules old c k = (k', Ret tt) /\ only_configs k k' /\ forall m, configs k' !! m = synced c old m.
Proof.
  intros Hc Hno Hk. destruct (imports_run old c (module_list_ c) [] k Hc) as (k1 & E1 & [Ha1 Ha2] & Hno1 & Hm1).
  { by apply Forall_forall. }
  { split; [done|]. intros m. by rewrite Hk. }
  cbn [app] in Hm1. assert (Hs : forall m, configs k1 !! m = synced c old m).
  { intros m. rewrite Hm1. destruct (bool_decide_reflect (m ∈ module_list_ c)); [done|].
    unfold synced. rewrite (bool_decide_eq_false_2 (m ∈ _)) by done. by rewrite andb_false_r. }
  destruct (reloads_run old (ConfigManager.get_non_importable_modules old) k1) as (k2 & E2 & [Hb1 Hb2] & Hm2).
  { apply Forall_forall. intros m Hm. cbn beta. rewrite Hs. unfold synced, ConfigManager.is_module_importable.
    by rewrite (bool_decide_eq_true_2 (m ∈ _)). }
  exists k2. split; [|split; [split; congruence|intros m; by rewrite Hm2]].
  unfold SyncConfig.sync_modules, modules_list, pure, mbind, io_bind. rewrite (proj1 Hc). cbn. by rewrite E1, E2.
Qed.

(** ** Starting the modules again *)

(** Code that leaves every configuration alone. *)
Definition keeps_configs {A} (f : io (kernel W T) A) : Prop := forall k, config_manager (fst (f k)) = config_manager k.

Lemma config_ret {A} (a : A) : keeps_configs (mret a).
Proof. by intros k. Qed.
Lemma keeps_pure {A} (m : outcome A) : keeps_configs (pure m).
Proof. by intros k. Qed.
Lemma keeps_get : keeps_configs (get_kernel (W := W) (T := T)).
Proof. by intros k. Qed.
Lemma config_bind {A B} (m : io (kernel W T) A) (f : A -> io (kernel W T) B) :
  keeps_configs m -> (forall a, keeps_configs (f a)) -> keeps_configs (m ≫= f).
Proof.
  intros Hm Hf k. unfold mbind, io_bind. specialize (Hm k). destruct (m k) as [k1 [a|e|x]]; [|done|done].
  by rewrite Hf.
Qed.
Lemma keeps_fold {A} (f : A -> io (kernel W T) unit) l : (forall a, keeps_configs (f a)) -> keeps_configs (foldU f l).
Proof. intros Hf. induction l as [|a l IH]; [apply config_ret|]. apply config_bind; [apply Hf|by intros _]. Qed.

#[local] Hint Resolve config_ret keeps_pure keeps_get config_bind keeps_fold : core.

Lemma keeps_loadModule name : keeps_configs (loadModule name).
Proof.
  apply config_bind; [apply keeps_get|]. intros k. apply config_bind; [apply keeps_pure|]. intros cfg.
  apply config_bind; [apply keeps_pure|]. intros file. apply config_bind; [apply keeps_pure|]. intros [lib|]; [|apply config_ret].
  destruct (lib_open _ _); [|apply config_ret]. apply config_bind; [apply keeps_pure|]. intros l.
  apply config_bind; [by intros k'|intros _; apply config_ret].
Qed.

Lemma keeps_initModules : keeps_configs (initModules (W := W) (T := T)).
Proof.
  apply config_bind; [apply keeps_get|]. intros k. apply keeps_fold. intros m k'. unfold initModule. destruct (actor_ m); [done|].
  assert (Hs : keeps_configs (start m)).
  { apply config_bind; [apply keeps_get|]. intros k0. apply config_bind; [apply keeps_pure|]. intros e.
    apply config_bind; [apply keeps_pure|]. intros []. apply config_bind; [apply keeps_pure|]. intros cfg.
    apply config_bind; [|by intros [] k1]. intros k1. unfold act. by destruct (start_module _ _ _). }
  specialize (Hs k'). by destruct (start m k') as [k1 [[]|e|f]].
Qed.

Lemma keeps_save : keeps_configs (save_config (W := W) (T := T)).
Proof.
  apply config_bind; [apply keeps_get|]. intros k. apply config_bind; [apply keeps_pure|]. intros p k'.
  unfold act. by destruct (write_text _ _ _).
Qed.

Lemma keeps_load_synced name : keeps_configs (SyncConfig.load_synced name).
Proof.
  apply config_bind; [apply keeps_get|]. intros k. destruct (ConfigManager.has_config _ _); [|apply config_ret].
  apply config_bind; [apply keeps_loadModule|intros ret; apply keeps_pure].
Qed.

Lemma restart_configs c k : configs (fst (SyncConfig.restart_modules c k)) = configs k.
Proof.
  unfold SyncConfig.restart_modules, get_kernel, pure, mbind, io_bind, modify. destruct (cassert _); [|done|done].
  destruct (modules_list c) as [l|e|f]; [|done|done].
  pose proof (keeps_fold SyncConfig.load_synced l keeps_load_synced k) as Hk.
  destruct (foldU SyncConfig.load_synced l k) as [k1 [[]|e|f]]; cbn in Hk; [|by rewrite <- Hk|by rewrite <- Hk].
  rewrite keeps_initModules. cbn. by rewrite Hk.
Qed.

(** Everything stopped: no module is left, and the configurations are as they were. *)
Lemma stopModule_config soft m k : config_manager (stopModule soft k m) = config_manager k.
Proof. unfold stopModule. destruct (actor_ m), soft; done. Qed.

Lemma stopped_all k : config_manager (stopModules false k) = config_manager k /\ modules_ (stopModules false k) = [].
Proof.
  split; [|done]. unfold stopModules. cbn [set_modules config_manager].
  assert (Hl : forall l k, config_manager (foldl (stopModule false) k l) = config_manager k).
  { induction l as [|m l IH]; intros k0; [done|]. cbn [foldl]. by rewrite IH, stopModule_config. }
  apply Hl.
Qed.

(** The part of a synchronisation before the modules are started again. *)
Lemma sync_prefix s c k now : collected c -> general_applied s c (config_manager k) now ->
  exists k1, only_configs (set_modules [] (set_config now k)) k1 /\ (forall m, configs k1 !! m = synced c (config_manager k) m) /\
    SyncConfig.sync_config s c k = (_ ← SyncConfig.restart_modules c;
      if SyncConfig.autocommit_ s then _ ← save_config; mret tt else mret tt) k1.
Proof.
  intros Hc Hg. destruct (general_keeps_list _ _ _ _ Hc Hg) as [Hno Hm].
  unfold SyncConfig.sync_config, get_kernel, mbind at 1, io_bind at 1.
  set (k0 := if SyncConfig.sync_general_config_ s then restart_later (set_config now k) else k).
  assert (E0 : (if SyncConfig.sync_general_config_ s then SyncConfig.sync_general c else mret tt) k = (k0, Ret tt) /\
    config_manager k0 = now).
  { unfold k0, general_applied in *. destruct (SyncConfig.sync_general_config_ s); [|by subst].
    unfold SyncConfig.sync_general, get_kernel, pure, mbind, io_bind. by rewrite Hg. }
  destruct E0 as [E0 Hk0]. unfold mbind at 1, io_bind at 1. rewrite E0. unfold mbind at 1, io_bind at 1, modify at 1.
  destruct (stopped_all k0) as [Hs1 Hs2].
  destruct (sync_modules_runs (config_manager k) c (stopModules false k0) Hc) as (k1 & E1 & [Ha1 Ha2] & Hm1).
  { by rewrite Hs1, Hk0. }
  { by rewrite Hs1, Hk0. }
  exists k1. split; [split; [by rewrite Ha1, Hs1, Hk0|by rewrite Ha2, Hs2]|]. split; [exact Hm1|].
  unfold mbind at 1, io_bind at 1. by rewrite E1.
Qed.

(** (error) A synchronisation that fails is not undone. Once the other unit's
    configuration is collected and its general part applied, the configuration of
    every module is the synchronised one, whatever happens next: the modules that
    were running are stopped, and when one of the new ones does not start the task
    reports a failure and the copy of the configuration that was kept is not put
    back. *)
Theorem sync_not_undone s c k now k' r : collected c -> general_applied s c (config_manager k) now ->
  SyncConfig.do_run s true c k = (k', r) ->
  forall m, configs k' !! m = synced c (config_manager k) m.
Proof.
  intros Hc Hg E m. unfold SyncConfig.do_run in E. set (k0 := set_checker _ k) in E.
  destruct (sync_prefix s c k0 now Hc Hg) as (k1 & _ & Hm1 & Es). rewrite Es in E.
  change (config_manager k0) with (config_manager k) in Hm1. rewrite <- Hm1.
  set (rest := (_ ← SyncConfig.restart_modules c; _)) in E.
  assert (Hr : configs (fst (rest k1)) = configs k1).
  { unfold rest. unfold mbind at 1, io_bind at 1. pose proof (restart_configs c k1) as Hr.
    destruct (SyncConfig.restart_modules c k1) as [k2 [[]|e|f]]; cbn in Hr; [|done|done].
    assert (Hk : keeps_configs (if SyncConfig.autocommit_ s then _ ← save_config (W := W) (T := T); mret tt else mret tt)).
    { destruct (SyncConfig.autocommit_ s); [|apply config_ret]. apply config_bind; [apply keeps_save|intros ?; apply config_ret]. }
    by rewrite Hk. }
  destruct (rest k1) as [k2 [[]|e|f]]; injection E as <- <-; cbn in Hr; by rewrite Hr.
Qed.

(** The modules read so far from the list. *)
Record reloaded (names : list string) k : Prop := {
  rl_ordered : ordered (config_manager k) (modules_ k);
  rl_stopped : Forall (fun m => actor_ m = false) (modules_ k);
  rl_names : List.NoDup (map name_ (modules_ k));
  rl_in : Forall (fun m => name_ m ∈ names) (modules_ k);
  rl_all : List.NoDup (map (level (config_manager k)) names) -> Permutation (map name_ (modules_ k)) names;
}.

Lemma level_of_name (c : ConfigManager.t T) m1 m2 : configured c m1 -> configured c m2 ->
  level_of c m1 = level_of c m2 -> level c (name_ m1) = level c (name_ m2).
Proof. intros H1' H2' E. by rewrite !level_configured, E. Qed.

Lemma load_synced_runs names name k k' : reloaded names k -> name ∉ names ->
  SyncConfig.load_synced name k = (k', Ret tt) ->
  reloaded (names ++ (if ConfigManager.has_config name (config_manager k) then [name] else [])) k' /\ config_manager k' = config_manager k.
Proof.
  intros Hr Hnew E. unfold SyncConfig.load_synced, get_kernel, mbind at 1, io_bind at 1 in E.
  destruct (ConfigManager.has_config name (config_manager k)) eqn:Hh.
  2:{ injection E as <-. by rewrite app_nil_r. }
  unfold loadModule, get_kernel, pure, modify, mbind, io_bind in E.
  destruct (ConfigManager.load_config _ _) as [cfg|e|f]; [|done|done].
  destruct (get_child cfg "file") as [file|e|f]; [|done|done].
  destruct (find_library _ _ _) as [[lib|]|e|f]; [|done..]. destruct (lib_open _ _); [|done].
  set (m := mk_info name lib false) in E.
  assert (Hconf : configured (config_manager k) m) by (by apply bool_decide_eq_true in Hh).
  destruct (insert_ordered _ m _ (rl_ordered _ _ Hr) Hconf) as (l & Hi & Hord & Hl). rewrite Hi in E. injection E as <-.
  split; [|done]. pose proof (rl_in _ _ Hr) as Hin. rewrite Forall_forall in Hin.
  assert (Hfresh : ~ List.In name (map name_ (modules_ k))).
  { intros (x & <- & Hx)%in_map_iff. apply Hnew, Hin. by apply list_elem_of_In. }
  assert (Hkept : l = modules_ k \/ Permutation l (m :: modules_ k)) by (by destruct (bool_decide _); auto).
  split; cbn [set_modules modules_ config_manager].
  - done.
  - destruct Hkept as [->|Hp]; [apply (rl_stopped _ _ Hr)|]. rewrite Hp. constructor; [done|apply (rl_stopped _ _ Hr)].
  - destruct Hkept as [->|Hp]; [apply (rl_names _ _ Hr)|]. apply (Permutation_NoDup (Permutation_map name_ (Permutation_sym Hp))).
    cbn. constructor; [done|apply (rl_names _ _ Hr)].
  - assert (Hold : Forall (fun x => name_ x ∈ names ++ [name]) (modules_ k)).
    { apply Forall_forall. intros x Hx. apply elem_of_app. left. by apply Hin. }
    destruct Hkept as [->|Hp]; [done|]. rewrite Hp. constructor; [apply elem_of_app; right; by left|done].
  - rewrite map_app. cbn [map]. intros Hnd. pose proof (NoDup_remove_1 _ _ _ Hnd) as Hnd1. pose proof (NoDup_remove_2 _ _ _ Hnd) as Hnd2.
    rewrite app_nil_r in *. specialize (rl_all _ _ Hr Hnd1) as Hall. rewrite bool_decide_eq_false_2 in Hl.
    + rewrite Hl. cbn [map name_]. rewrite Hall. apply Permutation_cons_append.
    + intros (x & Hx & Hxin)%list_elem_of_fmap. apply Hnd2. change (level (config_manager k) name) with (level (config_manager k) (name_ m)).
      assert (Hcx : configured (config_manager k) x).
      { pose proof (proj1 (rl_ordered _ _ Hr)) as Hc. rewrite Forall_forall in Hc. by apply Hc. }
      rewrite (level_of_name _ m x Hconf Hcx Hx). apply in_map. apply list_elem_of_In. by apply Hin.
Qed.

Definition with_config (c : ConfigManager.t T) (l : list string) : list string := List.filter (fun n => ConfigManager.has_config n c) l.

Lemma load_all_synced l names k k' : reloaded names k -> List.NoDup (names ++ l) ->
  foldU SyncConfig.load_synced l k = (k', Ret tt) ->
  reloaded (names ++ with_config (config_manager k) l) k' /\ config_manager k' = config_manager k.
Proof.
  revert names k. induction l as [|name l IH]; intros names k Hr Hnd E.
  { injection E as <-. cbn. by rewrite app_nil_r. }
  cbn [foldU] in E. unfold mbind, io_bind in E. destruct (SyncConfig.load_synced name k) as [k1 [[]|e|f]] eqn:E1; [|done|done].
  pose proof (NoDup_remove_2 _ _ _ Hnd) as Hn. rewrite in_app_iff in Hn.
  destruct (load_synced_runs names name k k1 Hr) as [Hr1 Hc1]; [rewrite list_elem_of_In; tauto|done|].
  cbn [with_config List.filter]. destruct (ConfigManager.has_config name (config_manager k)).
  - rewrite (cons_middle name), app_assoc in Hnd. destruct (IH _ k1 Hr1 Hnd E) as [Hr2 Hc2].
    rewrite Hc1, <- app_assoc in *. split; [exact Hr2|congruence].
  - rewrite app_nil_r in Hr1. destruct (IH _ k1 Hr1 (NoDup_remove_1 _ _ _ Hnd) E) as [Hr2 Hc2].
    rewrite Hc1 in *. split; [exact Hr2|congruence].
Qed.

Lemma ordered_same_configs (c1 c2 : ConfigManager.t T) l : ConfigManager.modules_configs_ c1 = ConfigManager.modules_configs_ c2 ->
  ordered c1 l -> ordered c2 l.
Proof.
  intros E [Hc Hs].
  assert (Hl : forall m, level_of c2 m = level_of c1 m) by (intros m; unfold level_of, level, ConfigManager.load_config; by rewrite E).
  split.
  - eapply Forall_impl; [exact Hc|]. intros m. unfold configured. by rewrite E.
  - clear Hc. induction Hs as [|x l Hs IH Hx]; [constructor|]. constructor; [done|]. eapply Forall_impl; [exact Hx|].
    intros y. unfold below. by rewrite !Hl.
Qed.

Lemma save_keeps_modules k k' b : save_config k = (k', Ret b) -> modules_ k' = modules_ k.
Proof.
  unfold save_config, get_kernel, pure, act, mbind, io_bind. destruct (get _ _ _); [|done|done].
  destruct (write_text _ _ _). by intros [= <- _].
Qed.

(** C13: (functional) What a successful synchronisation leaves. Every module the other
    unit has and we import is configured as there, every other as before, and the
    version is the other's. The modules that run are among those the other unit
    runs, each started once, in increasing order of levels, and all that have a
    configuration do when no two share a level. So a module of our own that is not
    imported runs again only if the other unit has one of the same name. *)
Theorem sync_installs s c k now k' : collected c -> general_applied s c (config_manager k) now ->
  List.NoDup (module_list_ c) -> SyncConfig.do_run s true c k = (k', Ret true) ->
  (forall m, configs k' !! m = synced c (config_manager k) m) /\
  ConfigManager.config_version (config_manager k') = remote_version_ c /\
  ordered (config_manager k') (modules_ k') /\ Forall (fun m => actor_ m = true) (modules_ k') /\
  Forall (fun name => name ∈ module_list_ c) (modules_names k') /\
  let wanted := with_config (config_manager k') (module_list_ c) in
  (List.NoDup (map (level (config_manager k')) wanted) -> Permutation (modules_names k') wanted).
Proof.
  intros Hc Hg Hnd E. unfold SyncConfig.do_run in E. set (k0 := set_checker _ k) in E.
  destruct (sync_prefix s c k0 now Hc Hg) as (k1 & [_ Hno] & Hm1 & Es). rewrite Es in E. clear Es.
  change (config_manager k0) with (config_manager k) in Hm1.
  unfold SyncConfig.restart_modules, get_kernel, pure, modify, mbind at 1, io_bind at 1 in E.
  unfold mbind at 1 2 3 4, io_bind at 1 2 3 4 in E. cbn [set_modules modules_] in Hno.
  assert (Hempty : modules_names k1 = []) by (unfold modules_names; by rewrite Hno). rewrite Hempty in E.
  cbn [bool_decide cassert] in E. rewrite bool_decide_eq_true_2 in E by done. cbn [cassert] in E.
  unfold modules_list in E. rewrite (proj1 Hc) in E. cbn [cassert mbind outcome_bind] in E.
  destruct (foldU SyncConfig.load_synced (module_list_ c) k1) as [k2 [[]|e|f]] eqn:El; [|done|done].
  assert (Hr1 : reloaded [] k1).
  { split; rewrite Hno; try done; try constructor; try constructor. }
  destruct (load_all_synced _ [] k1 k2 Hr1 Hnd El) as [[Ho Hst Hn Hin Hall] Hcfg]. cbn [app] in *.
  unfold mbind at 1, io_bind at 1 in E.
  set (k3 := set_config (ConfigManager.set_version (remote_version_ c) (config_manager k2)) k2) in E.
  destruct (initModules k3) as [k4 [[]|e|f]] eqn:Ei; [|done|done].
  unfold initModules, get_kernel, mbind at 1, io_bind at 1 in Ei.
  assert (Ho3 : ordered (config_manager k3) (modules_ k3)) by (by eapply ordered_same_configs; [|exact Ho]).
  destruct (init_runs [] (modules_ k3) k3 k4) as (Hm4 & Hc4 & _); [done|exact Hn|apply (proj1 Ho3)|exact Ei|]. cbn [app] in Hm4.
  assert (Hk' : config_manager k' = config_manager k4 /\ modules_ k' = modules_ k4).
  { destruct (SyncConfig.autocommit_ s); [|injection E as <-; done].
    unfold mbind, io_bind in E. pose proof (keeps_save k4) as Hks. destruct (save_config k4) as [k5 [b|e|f]] eqn:Esv; [|done|done].
    injection E as <-. cbn in Hks. split; [done|]. by eapply save_keeps_modules. }
  destruct Hk' as [Hkc Hkm]. rewrite Hc4 in Hkc.
  assert (Hnames : modules_names k' = map name_ (modules_ k2)).
  { unfold modules_names. rewrite Hkm, Hm4, map_map. done. }
  assert (Hcfgs : configs k' = configs k1) by (rewrite Hkc; cbn; by rewrite Hcfg).
  assert (Hwith : with_config (config_manager k') (module_list_ c) = with_config (config_manager k1) (module_list_ c)).
  { unfold with_config, ConfigManager.has_config. by rewrite Hcfgs. }
  split; [intros m; by rewrite Hcfgs|]. split; [by rewrite Hkc|]. split; [|split; [|split]].
  - rewrite Hkc, Hkm, Hm4. destruct Ho3 as [H3 H4]. split.
    + apply List.Forall_map. exact H3.
    + clear -H4. induction H4 as [|x l Hs IH Hx]; [constructor|]. cbn. constructor; [exact IH|]. by apply List.Forall_map.
  - rewrite Hkm, Hm4. apply List.Forall_map. by apply Forall_true.
  - rewrite Hnames. apply List.Forall_map. eapply Forall_impl; [exact Hin|]. intros m Hm. cbn beta in Hm.
    apply list_elem_of_In, filter_In in Hm as [Hm _]. by apply list_elem_of_In.
  - cbn zeta. rewrite Hwith, Hnames. intros Hnd2. apply Hall. rewrite Hcfg.
    erewrite map_ext; [exact Hnd2|]. intros n. unfold level, ConfigManager.load_config. by rewrite Hcfgs.
Qed.

End result.

(** ** A request, from its reply to its end *)

Section requested.
Context {W T : Type} `{Plugins W T, !Remotes W} `{MutableTree T}.
Context (guid : nat -> string) (client endpoint pk : string) (autocommit general : Z).
Abbreviation system := (sys job (world_of W T)).
Implicit Types s : system.

Definition sync_request : message := [FStr endpoint; FU8 autocommit; FStr pk; FU8 general].
Definition sync_params : SyncConfig.t := SyncConfig.mk (negb (general =? 0)) (negb (autocommit =? 0)).
Definition response_task (what : string) (t1 : nat) : Task.t job :=
  Task.build (RemoteControlAsyncResponse client [FStr what; FStr (guid t1)]).

(** The tasks of a request: what fetches, what synchronises, and the answers. *)
Record prepared (t0 t1 t2 t3 t4 : nat) s s1 : Prop := {
  pr_distinct : List.NoDup [t0; t1; t2; t3; t4];
  pr_fetch : tasks s1 !! t0 = Some (Task.set_on_success (EnqueueTask t1 MAIN)
    (Task.set_on_failure (EnqueueTask t4 MAIN) (Task.build (FetchRemoteConfig t0))));
  pr_sync : tasks s1 !! t1 = Some (Task.set_on_failure (RunTask t3)
    (Task.set_on_success (RunTask t2) (Task.build (RunSync sync_params t0))));
  pr_success : tasks s1 !! t2 = Some (response_task "Success" t1);
  pr_failure : tasks s1 !! t3 = Some (response_task "Failed" t1);
  pr_abort : tasks s1 !! t4 = Some (response_task "Aborted" t1);
  pr_queue : queue s1 = queue s;
  pr_pool : pool s1 = pool s ++ [t0];
  pr_world : world s1 = mk_world (unit_ (world s)) (<[t0 := RemoteConfigCollector.build endpoint pk]> (collectors (world s))) (sent (world s));
}.

Lemma make_task_new k s : exists t, tasks s !! t = None /\ fresh_id s = t /\ make_task k s = (set_tasks (<[t := k]> (tasks s)) s, t).
Proof.
  exists (fresh_id s). split; [|done]. apply not_elem_of_dom. apply is_fresh.
Qed.

(** The next task that is made. *)
Ltac next_task N := match goal with |- context [make_task ?k ?x] =>
    let t := fresh "t" in let E := fresh "E" in
    destruct (make_task_new k x) as (t & N & _ & E); rewrite E; clear E; cbn in N; rewrite ?lookup_insert_None in N end.

Lemma request_prepared s : exists t0 t1 t2 t3 t4 s1,
  handle_sync_from guid client sync_request s = (s1, Ret (Some [FStr "DELAYED"; FStr (guid t1)])) /\ prepared t0 t1 t2 t3 t4 s s1.
Proof.
  unfold handle_sync_from, sync_request. cbn [length]. change (Z.of_nat 4 =? 4) with true. cbn [pop_str pop_u8 mbind outcome_bind].
  cbv beta iota zeta.
  destruct (make_task_new (Task.build (FetchRemoteConfig (fresh_id s))) s) as (t0 & N0 & F0 & E0). rewrite F0 in *. rewrite E0. clear E0.
  next_task N1. next_task N2. next_task N3. next_task N4.
  exists t0, t1, t2, t3, t4. eexists. split; [reflexivity|].
  assert (Hnd : List.NoDup [t0; t1; t2; t3; t4]).
  { clear -N1 N2 N3 N4. repeat constructor; cbn; intuition congruence. }
  clear N0 F0. destruct N1 as [_ ?], N2 as [[_ ?] ?], N3 as [[[_ ?] ?] ?], N4 as [[[[_ ?] ?] ?] ?].
  split; cbn; try done; by simplify_map_eq.
Qed.

(** How the collection ends, and the synchronisation if there is one. *)
Context (s : system) (w : W) (c : RemoteConfigCollector.t T) (ok b : bool) (k2 : kernel W T).
Let k1 : kernel W T := set_outside w (unit_ (world s)).
Hypothesis quiet : queue s = [] /\ pool s = [].
Hypothesis fetched : fetch_config (outside (unit_ (world s)), RemoteConfigCollector.build endpoint pk) = ((w, c), Ret ok).
Hypothesis synchronised : ok = true -> SyncConfig.do_run sync_params true c k1 = (k2, Ret b).

(** The system when the fetching thread has called back, and is about to publish
    its end. *)
Definition called_back (t0 t1 t4 : nat) (s1 : system) : system :=
  enqueue (if ok then t1 else t4) MAIN (update_task (Task.set_result (Ret ok)) t0
    (set_world (mk_world k1 (<[t0 := c]> (collectors (world s1))) (sent (world s))) (set_pool [] s1))).

Lemma fetch_runs t0 t1 t2 t3 t4 s1 : prepared t0 t1 t2 t3 t4 s s1 ->
  run_body perform t0 (set_pool [] s1) = (called_back t0 t1 t4 s1, Ret tt).
Proof using fetched.
  clear synchronised. intros Hp. unfold run_body. cbn [set_pool tasks]. rewrite (pr_fetch _ _ _ _ _ _ _ Hp). cbn [Task.fct_ Task.set_on_success Task.set_on_failure Task.build].
  unfold perform at 1, perform_task. cbn [set_pool world]. rewrite (pr_world _ _ _ _ _ _ _ Hp). cbn [collectors unit_ sent]. rewrite lookup_insert_eq, fetched.
  unfold run_callbacks, called_back. rewrite (pr_world _ _ _ _ _ _ _ Hp). cbn [update_task set_tasks tasks set_world set_pool collectors].
  rewrite lookup_alter_eq, (pr_fetch _ _ _ _ _ _ _ Hp). cbn [fmap option_fmap option_map]. cbn [Task.set_result Task.success_].
  destruct ok; cbn; rewrite lookup_alter_eq, (pr_fetch _ _ _ _ _ _ _ Hp); reflexivity.
Qed.

Lemma run_sync_at p t0 f col (x : system) : tasks x !! t0 = Some f -> collectors (world x) !! t0 = Some col ->
  perform (RunSync p t0) x = if Task.complete_ f then on_unit (SyncConfig.do_run p (Task.success_ f) col) x else (x, Fault AssertFailed).
Proof. intros Hf Hc. unfold perform, perform_task. by rewrite Hf, Hc. Qed.

(** (error) The task that synchronises can abort the program. The collection
    enqueues it from a callback, before it publishes that it is complete, and it
    begins by asserting that the collection is: when the main loop runs it in
    between, the assertion fails. *)
Theorem sync_task_race : ok = true ->
  exists t0 t1 s1 s2, handle_sync_from guid client sync_request s = (s1, Ret (Some [FStr "DELAYED"; FStr (guid t1)])) /\
    pool s1 = [t0] /\ run_body perform t0 (set_pool [] s1) = (s2, Ret tt) /\ queue s2 = [t1] /\
    snd (update perform s2) = Fault AssertFailed.
Proof using quiet fetched.
  clear synchronised. intros Hok. destruct (request_prepared s) as (t0 & t1 & t2 & t3 & t4 & s1 & E & Hp). pose proof (fetch_runs _ _ _ _ _ _ Hp) as Hf.
  exists t0, t1, s1, (called_back t0 t1 t4 s1). split; [exact E|]. split; [rewrite (pr_pool _ _ _ _ _ _ _ Hp); by rewrite (proj2 quiet)|].
  split; [exact Hf|].
  assert (Hq : queue (called_back t0 t1 t4 s1) = [t1]).
  { unfold called_back. cbn. by rewrite (pr_queue _ _ _ _ _ _ _ Hp), (proj1 quiet), Hok. }
  split; [exact Hq|]. unfold update. rewrite Hq. cbn [length run_some]. unfold pop_and_run. rewrite Hq.
  unfold run_noexcept, run, run_body, called_back. cbn [enqueue update_task set_tasks set_world set_pool set_queue tasks].
  assert (Hne : t0 <> t1) by (pose proof (pr_distinct _ _ _ _ _ _ _ Hp) as Hd; inversion Hd; subst; cbn in *; intuition).
  rewrite lookup_alter_ne, (pr_sync _ _ _ _ _ _ _ Hp) by done. cbn [Task.fct_ Task.set_on_success Task.set_on_failure Task.build].
  erewrite run_sync_at; cbn [tasks set_queue set_tasks world collectors update_task set_world set_pool].
  2:{ rewrite lookup_alter_eq, (pr_fetch _ _ _ _ _ _ _ Hp). reflexivity. }
  2:{ by rewrite lookup_insert_eq. }
  reflexivity.
Qed.

(** A task that answers, run. *)
Definition answers (what : string) (t1 : nat) (x : system) : system :=
  set_world (mk_world (unit_ (world x)) (collectors (world x)) (sent (world x) ++ [(client, [FStr what; FStr (guid t1)])])) x.
Definition answered_by (what : string) (t t1 : nat) (x : system) : system :=
  update_task Task.finish t (update_task (Task.set_result (Ret true)) t (answers what t1 x)).

Lemma response_runs pf what t t1 (x : system) :
  (forall i m y, pf (RemoteControlAsyncResponse i m) y = perform_task (RemoteControlAsyncResponse i m) y) ->
  tasks x !! t = Some (response_task what t1) -> run pf t x = (answered_by what t t1 x, Ret tt).
Proof.
  intros Hpf Ht. unfold run, run_body. rewrite Ht. unfold response_task at 1. cbn [Task.fct_ Task.build]. rewrite Hpf. cbn [perform_task].
  unfold run_callbacks. cbn [update_task set_tasks tasks set_world]. rewrite lookup_alter_eq, Ht.
  cbn [fmap option_fmap option_map Task.set_result response_task Task.build Task.success_ Task.on_success_ call update_task set_tasks tasks set_world].
  rewrite lookup_alter_eq, Ht. reflexivity.
Qed.

Lemma callback_runs what t t1 (x : system) : tasks x !! t = Some (response_task what t1) ->
  call perform (Some (RunTask t)) x = (answered_by what t t1 x, Ret tt).
Proof.
  intros Ht. unfold call, perform. rewrite (response_runs perform_task what t t1 x) by done.
  unfold answered_by, answers. cbn [update_task set_tasks tasks set_world]. by rewrite !lookup_alter_eq, Ht.
Qed.

(** The task that synchronises, once the collection is complete. *)
Lemma sync_runs t0 t1 t2 t3 (x : system) :
  (exists f, tasks x !! t0 = Some f /\ Task.complete_ f = true /\ Task.success_ f = true) -> collectors (world x) !! t0 = Some c ->
  tasks x !! t1 = Some (Task.set_on_failure (RunTask t3) (Task.set_on_success (RunTask t2) (Task.build (RunSync sync_params t0)))) ->
  tasks x !! t2 = Some (response_task "Success" t1) -> tasks x !! t3 = Some (response_task "Failed" t1) ->
  t1 <> t2 -> t1 <> t3 -> unit_ (world x) = k1 -> ok = true ->
  exists x', run perform t1 x = (x', Ret tt) /\ queue x' = queue x /\ pool x' = pool x /\ unit_ (world x') = k2 /\
    sent (world x') = sent (world x) ++ [(client, [FStr (if b then "Success" else "Failed"); FStr (guid t1)])].
Proof.
  intros (f & Hf & Hdone & Hsucc) Hcol Ht1 Ht2 Ht3 N12 N13 Hu Hok. unfold run, run_body. rewrite Ht1.
  cbn [Task.fct_ Task.set_on_success Task.set_on_failure Task.build].
  rewrite (run_sync_at _ _ f c) by done. rewrite Hdone, Hsucc. unfold on_unit. rewrite Hu, (synchronised Hok).
  unfold run_callbacks. cbn [update_task set_tasks tasks set_world]. rewrite lookup_alter_eq, Ht1.
  cbn [fmap option_fmap option_map Task.set_result Task.success_ Task.on_success_ Task.on_failure_ Task.set_on_success Task.set_on_failure].
  match goal with |- context [call perform _ ?z] => set (y := z) end.
  assert (Hcall : call perform (if b then Some (RunTask t2) else Some (RunTask t3)) y =
    (answered_by (if b then "Success" else "Failed") (if b then t2 else t3) t1 y, Ret tt)).
  { destruct b; apply callback_runs; unfold y; cbn; by rewrite lookup_alter_ne. }
  rewrite Hcall.
  assert (Hy : exists kt, tasks (answered_by (if b then "Success" else "Failed") (if b then t2 else t3) t1 y) !! t1 = Some kt /\
    Task.on_completion_ kt = None).
  { unfold answered_by, answers, y. cbn. rewrite !lookup_alter_ne by (by destruct b). rewrite lookup_alter_eq, Ht1.
    cbn. eexists. split; reflexivity. }
  destruct Hy as (kt & -> & ->). eexists. split; [reflexivity|]. done.
Qed.

(** (liveness) A request to synchronise is answered. It is said to be delayed, and
    once a thread has collected and the main loop has made one update, in a system
    where nothing else happens, exactly one more message is sent to the client: that
    the request was aborted when the collection failed, and otherwise whether the
    synchronisation succeeded; and nothing is left to run. *)
Theorem sync_request_answered :
  exists t0 t1 s1 s2 s3, handle_sync_from guid client sync_request s = (s1, Ret (Some [FStr "DELAYED"; FStr (guid t1)])) /\
    pool s1 = [t0] /\ run_noexcept perform t0 (set_pool [] s1) = (s2, Ret tt) /\ update perform s2 = (s3, Ret tt) /\
    queue s3 = [] /\ pool s3 = [] /\ unit_ (world s3) = (if ok then k2 else k1) /\
    sent (world s3) = sent (world s) ++
      [(client, [FStr (if ok then if b then "Success" else "Failed" else "Aborted"); FStr (guid t1)])].
Proof.
  destruct (request_prepared s) as (t0 & t1 & t2 & t3 & t4 & s1 & E & Hp). pose proof (fetch_runs _ _ _ _ _ _ Hp) as Hf.
  set (s2 := update_task Task.finish t0 (called_back t0 t1 t4 s1)).
  cut (exists s3, update perform s2 = (s3, Ret tt) /\ queue s3 = [] /\ pool s3 = [] /\ unit_ (world s3) = (if ok then k2 else k1) /\
    sent (world s3) = sent (world s) ++
      [(client, [FStr (if ok then if b then "Success" else "Failed" else "Aborted"); FStr (guid t1)])]).
  { intros (s3 & Hrest). exists t0, t1, s1, s2, s3. split; [exact E|]. split; [rewrite (pr_pool _ _ _ _ _ _ _ Hp); by rewrite (proj2 quiet)|].
    split; [unfold run_noexcept, run; by rewrite Hf|exact Hrest]. }
  assert (Hne : t0 <> t1 /\ t0 <> t4 /\ t1 <> t2 /\ t1 <> t3 /\ t0 <> t2 /\ t0 <> t3).
  { pose proof (pr_distinct _ _ _ _ _ _ _ Hp) as Hd. repeat (inversion Hd as [|? ? ? Hd0]; subst; clear Hd; rename Hd0 into Hd; cbn in *). intuition. }
  destruct Hne as (N01 & N04 & N12 & N13 & N02 & N03).
  assert (Hq2 : queue s2 = [if ok then t1 else t4]).
  { unfold s2, called_back. cbn. by rewrite (pr_queue _ _ _ _ _ _ _ Hp), (proj1 quiet). }
  destruct (sumbool_of_bool ok) as [Eok|Eok]; rewrite Eok in Hq2 |- *.
  - destruct (sync_runs t0 t1 t2 t3 (set_queue [] s2)) as (x & Hx & Hq & Hpl & Hu & Hs); try done.
    { exists (Task.finish (Task.set_result (Ret ok) (Task.set_on_success (EnqueueTask t1 MAIN)
        (Task.set_on_failure (EnqueueTask t4 MAIN) (Task.build (FetchRemoteConfig t0)))))).
      split; [|by rewrite Eok]. unfold s2, called_back. cbn. by rewrite !lookup_alter_eq, (pr_fetch _ _ _ _ _ _ _ Hp). }
    { cbn. by rewrite lookup_insert_eq. }
    1-3: unfold s2, called_back; cbn; rewrite !lookup_alter_ne by done; apply Hp.
    exists x. split; [unfold update; rewrite Hq2; cbn [length run_some]; unfold pop_and_run; rewrite Hq2; unfold run_noexcept; by rewrite Hx|].
    split; [exact Hq|]. split; [by rewrite Hpl|]. split; [exact Hu|exact Hs].
  - assert (Ht4 : tasks (set_queue [] s2) !! t4 = Some (response_task "Aborted" t1)).
    { unfold s2, called_back. cbn. rewrite !lookup_alter_ne by done. apply Hp. }
    eexists. split; [unfold update; rewrite Hq2; cbn [length run_some]; unfold pop_and_run; rewrite Hq2; unfold run_noexcept;
      by rewrite (response_runs perform "Aborted" t4 t1)|].
    done.
Qed.

End requested.

(** ** Witnesses *)

(** Another unit, with two modules that run, and ours, with one of them and one
    more, which it does not import. *)
Definition far_modules : gmap string xml :=
  {[ "PIFACE" := (demo_module "PIFACE" "2").2; "WIEGAND" := (demo_module "WIEGAND" "5").2 ]}.

#[export] Instance demo_running : Running (list string) xml := {|
  runs_with name _ := (fun cfg => (cfg, [(name +:+ ".conf", "x=1")])) <$> far_modules !! name;
|}.

Definition far_unit : kernel (list string) xml :=
  mk_kernel (ConfigManager.mk far_modules (Node "" [("network", leaf "dhcp"); ("instance_name", leaf "far")]) 7 "far") ["lib"]
    [mk_info "PIFACE" "lib/PIFACE" true; mk_info "WIEGAND" "lib/WIEGAND" true] ∅ true false [].
Definition everybody : RemoteControlSecurity.t := RemoteControlSecurity.mk ∅ ∅ true.
Definition no_sync (m : message) : io (kernel (list string) xml) (option message) := mret None.

Lemma fetch_gets_configuration_witness : exists c,
  @fetch_config _ _ (remote_unit everybody no_sync "key") _ _ (far_unit, RemoteConfigCollector.build "tcp://far" "pk") = ((far_unit, c), Ret true) /\
  remote_version_ c = 7 /\ module_config "WIEGAND" c = Ret (demo_module "WIEGAND" "5").2.
Proof.
  destruct (fetch_gets_configuration everybody no_sync "key" far_unit "tcp://far" "pk"
    (Node "" [("network", leaf "dhcp"); ("version", leaf "7")])) as (c & E & _ & Hc).
  - repeat constructor.
  - vm_compute. reflexivity.
  - repeat constructor; cbn; intuition discriminate.
  - repeat constructor; vm_compute; eauto.
  - destruct Hc as (Hv & _ & _ & Hm); [discriminate|]. exists c. split; [exact E|]. split; [exact Hv|].
    apply (Hm "WIEGAND" ((demo_module "WIEGAND" "5").2, [("WIEGAND.conf", "x=1")])); [|vm_compute; reflexivity].
    apply list_elem_of_In. right. left. reflexivity.
Defined.

Lemma refused_collection_witness : exists s f,
  @fetch_config _ _ (remote_unit demo_rules no_sync "key") _ _ (far_unit, RemoteConfigCollector.build "tcp://far" "pk") = (s, Fault f) /\
  f ∈ [BadFrame; AssertFailed].
Proof. apply (refused_collection_aborts demo_rules no_sync "key"). left. vm_compute. reflexivity. Defined.

(** The far unit, seen from the network ours is on. *)
#[export] Instance demo_network : Remotes (list string) := {|
  connect _ _ _ := Ret tt;
  request endpoint pk m w := (w, (@request _ (remote_unit everybody no_sync "key") endpoint pk m far_unit).2);
|}.

Definition our_unit : kernel (list string) xml :=
  mk_kernel (ConfigManager.mk {[ "WIEGAND" := (demo_module "WIEGAND" "9").2; "ALARMS" := (demo_module "ALARMS" "8").2 ]}
    (Node "" [("no_import", Node "" [("ALARMS", Node "" [])]); ("kernel-cfg", leaf "kernel.xml")]) 3 "gate") ["lib"]
    [mk_info "ALARMS" "lib/ALARMS" true; mk_info "WIEGAND" "lib/WIEGAND" true] ∅ true false [].

Definition demo_fetch := fetch_config (W := list string) (T := xml) ([], RemoteConfigCollector.build "tcp://far" "pk").
Definition demo_collector : RemoteConfigCollector.t xml := demo_fetch.1.2.

Lemma demo_collected : collected demo_collector.
Proof.
  split; [vm_compute; reflexivity|]. split; [|split].
  - assert (Hl : module_list_ demo_collector = ["PIFACE"; "WIEGAND"]) by (vm_compute; reflexivity). rewrite Hl.
    repeat constructor; vm_compute; eauto.
  - vm_compute. repeat constructor.
  - vm_compute. intuition discriminate.
Qed.

Lemma sync_not_undone_witness :
  let k' := (SyncConfig.do_run (SyncConfig.mk false false) true demo_collector our_unit).1 in
  ConfigManager.modules_configs_ (config_manager k') !! "WIEGAND" = Some (demo_module "WIEGAND" "5").2.
Proof.
  intros k'. destruct (SyncConfig.do_run (SyncConfig.mk false false) true demo_collector our_unit) as [k2 r] eqn:E.
  change k' with k2. rewrite (sync_not_undone (SyncConfig.mk false false) demo_collector our_unit (config_manager our_unit) k2 r).
  - vm_compute. reflexivity.
  - exact demo_collected.
  - reflexivity.
  - exact E.
Defined.

Lemma sync_installs_witness :
  let k' := (SyncConfig.do_run (SyncConfig.mk false true) true demo_collector our_unit).1 in
  ConfigManager.config_version (config_manager k') = 7 /\ Forall (fun m => actor_ m = true) (modules_ k') /\
  modules_names k' = ["PIFACE"; "WIEGAND"].
Proof.
  intros k'. destruct (sync_installs (SyncConfig.mk false true) demo_collector our_unit (config_manager our_unit) k')
    as (_ & Hv & _ & Ha & _).
  - exact demo_collected.
  - reflexivity.
  - vm_compute. repeat constructor; cbn; intuition discriminate.
  - vm_compute. reflexivity.
  - split; [rewrite Hv; vm_compute; reflexivity|]. split; [exact Ha|]. vm_compute. reflexivity.
Defined.

Definition quiet_system : sys job (world_of (list string) xml) := mk_sys ∅ [] [] 0 (mk_world our_unit ∅ []).

Lemma sync_task_race_witness : exists t0 t1 s1 s2,
  handle_sync_from (fun n => "guid") "client" (sync_request "tcp://far" "pk" 1 0) quiet_system = (s1, Ret (Some [FStr "DELAYED"; FStr "guid"])) /\
  run_body perform t0 (set_pool [] s1) = (s2, Ret tt) /\ queue s2 = [t1] /\ snd (update perform s2) = Fault AssertFailed.
Proof.
  destruct (sync_task_race (fun n => "guid") "client" "tcp://far" "pk" 1 0 quiet_system [] demo_collector true) as (t0 & t1 & s1 & s2 & E1 & _ & E2).
  - split; reflexivity.
  - vm_compute. reflexivity.
  - reflexivity.
  - exists t0, t1, s1, s2. split; [exact E1|exact E2].
Defined.

Lemma sync_request_witness : exists t0 s1 s2 s3,
  handle_sync_from (fun n => "guid") "client" (sync_request "tcp://far" "pk" 1 0) quiet_system = (s1, Ret (Some [FStr "DELAYED"; FStr "guid"])) /\
  pool s1 = [t0] /\ run_noexcept perform t0 (set_pool [] s1) = (s2, Ret tt) /\ update perform s2 = (s3, Ret tt) /\
  modules_names (unit_ (world s3)) = ["PIFACE"; "WIEGAND"] /\
  sent (world s3) = [("client", [FStr "Success"; FStr "guid"])].
Proof.
  set (r := SyncConfig.do_run (sync_params 1 0) true demo_collector (set_outside [] our_unit)).
  destruct (sync_request_answered (fun n => "guid") "client" "tcp://far" "pk" 1 0 quiet_system [] demo_collector true true r.1)
    as (t0 & t1 & s1 & s2 & s3 & E1 & E2 & E3 & E4 & _ & _ & E5 & E6).
  - split; reflexivity.
  - vm_compute. reflexivity.
  - intros _. vm_compute. reflexivity.
  - exists t0, s1, s2, s3. split; [exact E1|]. split; [exact E2|]. split; [exact E3|]. split; [exact E4|].
    split; [rewrite E5; vm_compute; reflexivity|exact E6].
Defined.
