(* ===== verification/Services.v ===== *)
(** The containers components find each other through: [src/tools/registry/]
    (a map of values of any type, whose entries may expire),
    [src/tools/service/ServiceRegistry.hpp] (the services, by the type of their
    interface), [src/tools/serializers/ExtensibleSerializer.hpp] and the backends
    of [src/core/auth/AccessPointService.hpp].

    A C++ type is its name. Each operation runs under the lock of its container. *)
From Stdlib Require Import ZArith Lia Ascii String.
From stdpp Require Import base tactics numbers list strings gmap.
From S2P Require Import Prelude.

Open Scope Z_scope.

(** * Registry *)

Module Registry.
Section registry.
(** [boost::any]: a value and its type. *)
Context {A : Type} (type_of : A -> string).

Record t := mk { expiry_ : gmap string Z; store_ : gmap string A }.
Definition empty : t := mk ∅ ∅.

Definition RegistryKeyNotFoundException (key : string) : exn :=
  LEOSACException ("Cannot find key " +:+ key +:+ " in registry.").

(** [get<T>]. *)
Definition get (T : string) (key : string) (r : t) : outcome A :=
  match store_ r !! key with
  | None => Throw (RegistryKeyNotFoundException key)
  | Some a => _ ← cassert (String.eqb (type_of a) T); Ret a
  end.

Definition erase (key : string) (r : t) : t := mk (delete key (expiry_ r)) (delete key (store_ r)).
Definition has (key : string) (r : t) : bool := bool_decide (is_Some (store_ r !! key)).
Definition size (r : t) : nat := base.size (store_ r).

Definition to_remove (now : Z) (r : t) : list string :=
  map fst (List.filter (fun p => p.2 <? now) (map_to_list (expiry_ r))).
Definition purge (now : Z) (r : t) : t := foldl (fun r key => erase key r) r (to_remove now r).

Definition set (now : Z) (key : string) (obj : A) (r : t) : t :=
  let r := purge now r in mk (expiry_ r) (<[key := obj]> (store_ r)).
Definition set_expiring (now : Z) (key : string) (obj : A) (expire_at : Z) (r : t) : t :=
  let r := purge now r in mk (<[key := expire_at]> (expiry_ r)) (<[key := obj]> (store_ r)).

(** ** Lemmas *)

(** The entry of a key is past its time. *)
Definition expired (now : Z) (key : string) (r : t) : bool :=
  match expiry_ r !! key with Some t => t <? now | None => false end.

Lemma to_remove_spec now r key : List.In key (to_remove now r) <-> expired now key r = true.
Proof.
  unfold to_remove, expired. rewrite in_map_iff. split.
  - intros ([k t] & <- & Hin). apply filter_In in Hin as [Hin Ht]. apply list_elem_of_In, elem_of_map_to_list in Hin.
    cbn. by rewrite Hin.
  - destruct (expiry_ r !! key) as [t|] eqn:E; [|done]. intros Ht. exists (key, t). split; [done|].
    apply filter_In. split; [by apply list_elem_of_In, elem_of_map_to_list|done].
Qed.

Lemma erase_all keys r k :
  store_ (foldl (fun r key => erase key r) r keys) !! k = (if bool_decide (k ∈ keys) then None else store_ r !! k) /\
  expiry_ (foldl (fun r key => erase key r) r keys) !! k = (if bool_decide (k ∈ keys) then None else expiry_ r !! k).
Proof.
  revert r. induction keys as [|key keys IH]; intros r; [done|]. cbn [foldl]. destruct (IH (erase key r)) as [-> ->].
  destruct (decide (k ∈ keys)) as [Hin|Hin].
  - by rewrite !bool_decide_eq_true_2 by (try done; by apply elem_of_cons; right).
  - rewrite (bool_decide_eq_false_2 (k ∈ keys)) by done. cbn. destruct (decide (k = key)) as [->|Hn].
    + by rewrite !lookup_delete_eq, bool_decide_eq_true_2 by (apply elem_of_cons; by left).
    + rewrite !lookup_delete_ne by done. rewrite bool_decide_eq_false_2; [done|]. intros [->|H]%elem_of_cons; done.
Qed.

(** Purging removes exactly what has expired. *)
Lemma purge_spec now r k :
  store_ (purge now r) !! k = (if expired now k r then None else store_ r !! k) /\
  expiry_ (purge now r) !! k = (if expired now k r then None else expiry_ r !! k).
Proof.
  destruct (erase_all (to_remove now r) r k) as [Hs He]. unfold purge. rewrite Hs, He.
  assert (Hb : bool_decide (k ∈ to_remove now r) = expired now k r).
  { apply Bool.eq_iff_eq_true. rewrite bool_decide_eq_true, list_elem_of_In. apply to_remove_spec. }
  by rewrite Hb.
Qed.

(** (functional) What a registry holds after an entry is set: the entry, and every
    other entry that had not expired. *)
Theorem set_spec now key obj r k :
  store_ (set now key obj r) !! k =
    (if String.eqb k key then Some obj else if expired now k r then None else store_ r !! k).
Proof.
  cbn. destruct (String.eqb_spec k key) as [->|Hn]; [by rewrite lookup_insert_eq|]. rewrite lookup_insert_ne by done.
  apply purge_spec.
Qed.

(** (error) An entry that is set again without a time of expiry keeps the time it
    had: it disappears when another entry is set later. *)
Theorem rewritten_entry_expires now1 now2 now3 key other (a b c : A) t r :
  key <> other -> now2 <= t -> t < now3 ->
  let r1 := set_expiring now1 key a t r in
  let r2 := set now2 key b r1 in
  store_ r2 !! key = Some b /\ store_ (set now3 other c r2) !! key = None.
Proof.
  intros Hne H2 H3 r1 r2. subst r2.
  assert (Hexp : expiry_ (set now2 key b r1) !! key = Some t).
  { cbn. rewrite (proj2 (purge_spec now2 r1 key)). unfold expired, r1. cbn. rewrite lookup_insert_eq.
    by rewrite (proj2 (Z.ltb_ge _ _)). }
  rewrite !set_spec, String.eqb_refl. split; [done|]. rewrite (proj2 (String.eqb_neq _ _)) by done.
  unfold expired. rewrite Hexp. by rewrite (proj2 (Z.ltb_lt _ _)).
Qed.

End registry.
Arguments t : clear implicits.
End Registry.

(** * ServiceRegistry *)

Inductive event := REGISTERED (T : string) | UNREGISTERED (T : string).

Module ServiceRegistry.

(** A [RegistrationInfo] is known by an id. [clients_] counts the pointers to it
    that were handed out; a registration lives while the registry or a client has
    one. [signal_] is what the listeners were told. *)
Record t := mk {
  services_ : gmap string nat;
  interface_ : gmap nat string;
  clients_ : gmap nat nat;
  signal_ : list event;
}.
Definition empty : t := mk ∅ ∅ ∅ [].

Definition clients (id : nat) (r : t) : nat := default O (clients_ r !! id).
Definition set_clients (id n : nat) (r : t) : t := mk (services_ r) (interface_ r) (<[id := n]> (clients_ r)) (signal_ r).
Definition fresh_id (r : t) : nat := base.size (interface_ r).

(** The registry's pointer. *)
Definition stored (id : nat) (r : t) : bool :=
  match interface_ r !! id with Some T => bool_decide (services_ r !! T = Some id) | None => false end.
Definition alive (id : nat) (r : t) : bool := stored id r || (0 <? clients id r)%nat.
Definition pointers (id : nat) (r : t) : nat := ((if stored id r then 1 else 0) + clients id r)%nat.

Definition register_service (T : string) (r : t) : outcome (nat * t) :=
  _ ← cassert (bool_decide (services_ r !! T = None));
  let id := fresh_id r in
  Ret (id, mk (<[T := id]> (services_ r)) (<[id := T]> (interface_ r)) (clients_ r) (signal_ r ++ [REGISTERED T])).

Definition drop (T : string) (r : t) : t :=
  mk (delete T (services_ r)) (interface_ r) (clients_ r) (signal_ r ++ [UNREGISTERED T]).

(** With the handle of a registration, a weak pointer: [registration] and
    [registration_sptr] are two more pointers. *)
Definition unregister_handle (id : nat) (r : t) : outcome (t * bool) :=
  if alive id r then
    if (3 <? pointers id r + 2)%nat then Ret (r, false)
    else
      T ← deref (interface_ r !! id);
      _ ← cassert (bool_decide (is_Some (services_ r !! T)));
      Ret (drop T r, true)
  else Ret (r, false).

(** By the type of the interface: [registration] is one more pointer, the
    iterator is none. *)
Definition unregister_service (T : string) (r : t) : t * bool :=
  match services_ r !! T with
  | Some id => if (3 <? pointers id r + 1)%nat then (r, false) else (drop T r, true)
  | None => (r, false)
  end.

(** The pointer a client gets, and lets go. *)
Definition get_service (T : string) (r : t) : option nat * t :=
  match services_ r !! T with
  | Some id => (Some id, set_clients id (S (clients id r)) r)
  | None => (None, r)
  end.
Definition release (id : nat) (r : t) : t := set_clients id (pred (clients id r)) r.

Definition use_count (T : string) (r : t) : outcome Z :=
  match (get_service T r).1 with
  | None => Ret (-1)
  | Some id =>
      let count := Z.of_nat (pointers id (get_service T r).2) in
      _ ← cassert (2 <=? count); Ret (count - 2)
  end.

(** What may happen to a registry. *)
Inductive step : t -> t -> Prop :=
  | step_register T r id r' : register_service T r = Ret (id, r') -> step r r'
  | step_unregister T r : step r (unregister_service T r).1
  | step_handle id r r' b : unregister_handle id r = Ret (r', b) -> step r r'
  | step_get T r : step r (get_service T r).2
  | step_release id r : (0 < clients id r)%nat -> step r (release id r).

Definition reachable (r : t) : Prop := rtc step empty r.

(** ** Invariant *)

(** The services as the listeners know them. *)
Definition told (s : gmap string bool) (e : event) : gmap string bool :=
  match e with REGISTERED T => <[T := true]> s | UNREGISTERED T => <[T := false]> s end.
Definition known (T : string) (events : list event) : bool := default false (foldl told ∅ events !! T).

Record good (r : t) : Prop := {
  good_ids id : (id < fresh_id r)%nat <-> is_Some (interface_ r !! id);
  good_interface T id : services_ r !! T = Some id -> interface_ r !! id = Some T;
  good_clients id : is_Some (clients_ r !! id) -> is_Some (interface_ r !! id);
  good_events T : known T (signal_ r) = bool_decide (is_Some (services_ r !! T));
}.

Lemma known_app T events e :
  known T (events ++ [e]) = match e with
    | REGISTERED T' => if String.eqb T T' then true else known T events
    | UNREGISTERED T' => if String.eqb T T' then false else known T events
    end.
Proof.
  unfold known. rewrite foldl_app. cbn. destruct e as [T'|T']; cbn; destruct (String.eqb_spec T T') as [->|Hn];
    by rewrite ?lookup_insert_eq, ?lookup_insert_ne.
Qed.

Lemma good_empty : good empty.
Proof.
  split; cbn; try done.
  - intros id. rewrite lookup_empty. unfold fresh_id. cbn. rewrite map_size_empty. split; [lia|by intros []].
  - intros id. by rewrite lookup_empty; intros [].
Qed.

Lemma good_drop T r : good r -> is_Some (services_ r !! T) -> good (drop T r).
Proof.
  intros [Hid Hint Hcl Hev] HT. split; cbn; try done.
  - intros T' id H. apply lookup_delete_Some in H as [_ H]. by apply Hint.
  - intros T'. rewrite known_app, Hev. destruct (String.eqb_spec T' T) as [->|Hn].
    + by rewrite lookup_delete_eq.
    + by rewrite lookup_delete_ne.
Qed.

Lemma good_set_clients id n r : good r -> is_Some (interface_ r !! id) -> good (set_clients id n r).
Proof.
  intros [Hid Hint Hcl Hev] HT. split; cbn; try done.
  intros id'. rewrite lookup_insert_is_Some. intros [->|[_ H]]; auto.
Qed.

Lemma good_step r r' : good r -> step r r' -> good r'.
Proof.
  intros Hg Hs. destruct Hs as [T r id r' Hr|T r|id r r' b Hr|T r|id r Hr].
  - unfold register_service in Hr. bind_inv Hr. injection Hr as <- <-.
    unfold cassert in E. destruct (bool_decide _) eqn:Hnone; [|done]. apply bool_decide_eq_true in Hnone.
    pose proof Hg as [Hid Hint Hcl Hev].
    assert (Hfresh : interface_ r !! fresh_id r = None).
    { destruct (interface_ r !! fresh_id r) eqn:Ei; [|done]. apply mk_is_Some, Hid in Ei. lia. }
    split; cbn.
    + intros i. unfold fresh_id. cbn. rewrite map_size_insert_None by done. change (base.size (interface_ r)) with (fresh_id r).
      rewrite lookup_insert_is_Some. destruct (decide (fresh_id r = i)) as [->|Hn]; [split; [by left|lia]|].
      rewrite <- Hid. split; [intros; right; split; [done|lia]|intros [?|[_ ?]]; lia].
    + intros T' i H. apply lookup_insert_Some in H as [[<- <-]|[Hn H]]; [by rewrite lookup_insert_eq|].
      apply Hint in H. rewrite lookup_insert_ne; [done|]. intros <-. congruence.
    + intros i H. apply Hcl in H. rewrite lookup_insert_is_Some. destruct (decide (fresh_id r = i)); [by left|by right].
    + intros T'. rewrite known_app, Hev. destruct (String.eqb_spec T' T) as [->|Hn].
      * by rewrite lookup_insert_eq.
      * by rewrite lookup_insert_ne.
  - unfold unregister_service. destruct (services_ r !! T) eqn:E; [|done]. case_match; [done|]. by apply good_drop.
  - unfold unregister_handle in Hr. repeat case_match; try by injection Hr as <- _.
    bind_inv Hr. injection Hr as <- _. apply good_drop; [done|]. unfold cassert in E0.
    destruct (bool_decide _) eqn:Hb; [|done]. by apply bool_decide_eq_true in Hb.
  - unfold get_service. destruct (services_ r !! T) eqn:E; [|done]. apply good_set_clients; [done|].
    by rewrite (good_interface _ Hg _ _ E).
  - apply good_set_clients; [done|]. apply (good_clients _ Hg). unfold clients in Hr.
    by destruct (clients_ r !! id); [eexists|cbn in Hr; lia].
Qed.

Lemma reachable_good r : reachable r -> good r.
Proof. revert r. apply rtc_ind_r; [apply good_empty|]. intros r1 r2 _ Hs Hg. by apply (good_step r1). Qed.

Lemma stored_of T id r : good r -> services_ r !! T = Some id -> stored id r = true.
Proof. intros Hg H. unfold stored. rewrite (good_interface _ Hg _ _ H). by apply bool_decide_eq_true. Qed.

(** ** Properties *)

(** (invariant) In every reachable state the listeners know of exactly the services
    that are registered: the last event about an interface says whether it has one. *)
Theorem listeners_know_services r T :
  reachable r -> known T (signal_ r) = bool_decide (is_Some (services_ r !! T)).
Proof. intros Hr. apply good_events, reachable_good, Hr. Qed.

(** (functional) With the handle that [register_service] gave, a service is
    unregistered exactly when no client has a pointer to it, and otherwise
    nothing changes. *)
Theorem handle_unregisters_unused r T id :
  reachable r -> services_ r !! T = Some id ->
  unregister_handle id r = Ret (if (clients id r =? 0)%nat then (drop T r, true) else (r, false)).
Proof.
  intros Hr HT. apply reachable_good in Hr. unfold unregister_handle, alive, pointers.
  rewrite (stored_of _ _ _ Hr HT), (good_interface _ Hr _ _ HT). cbn [orb deref mbind outcome_bind].
  rewrite bool_decide_eq_true_2 by eauto. destruct (clients id r) as [|n]; [done|].
  by rewrite (proj2 (Nat.ltb_lt _ _)) by lia.
Qed.

(** (error) By its interface, a service is unregistered while one client, but not
    two, has a pointer to it, although the documentation says that this is not
    possible. The handle of the lost registration, which the client keeps alive,
    then unregisters the next service of the same interface, however many
    clients that one has. *)
Theorem used_service_unregistered r T id :
  reachable r -> services_ r !! T = Some id -> clients id r = 1%nat ->
  use_count T r = Ret 1 /\ unregister_service T r = (drop T r, true) /\ (get_service T (drop T r)).1 = None /\
  (forall n, (1 < n)%nat -> unregister_service T (set_clients id n r) = (set_clients id n r, false)) /\
  forall id2 r2 n, register_service T (drop T r) = Ret (id2, r2) ->
    unregister_handle id (set_clients id2 n r2) = Ret (drop T (set_clients id2 n r2), true).
Proof.
  intros Hr HT Hc. apply reachable_good in Hr. pose proof (stored_of _ _ _ Hr HT) as Hs.
  pose proof (good_interface _ Hr _ _ HT) as Hi.
  assert (Hst : forall n, stored id (set_clients id n r) = true) by (intros; exact Hs).
  assert (Hcl : forall n, clients id (set_clients id n r) = n) by (intros; unfold clients; cbn; by rewrite lookup_insert_eq).
  split_and!.
  - unfold use_count, get_service. rewrite HT. cbn [fst snd]. unfold pointers. by rewrite Hst, Hcl, Hc.
  - unfold unregister_service, pointers. by rewrite HT, Hs, Hc.
  - unfold get_service. cbn. by rewrite lookup_delete_eq.
  - intros n Hn. unfold unregister_service, pointers. cbn [services_ set_clients]. rewrite HT, Hst, Hcl.
    by rewrite (proj2 (Nat.ltb_lt _ _)) by lia.
  - intros id2 r2 n Hreg. unfold register_service in Hreg. bind_inv Hreg. injection Hreg as <- <-. cbn in E.
    assert (Hne : id <> fresh_id r) by (pose proof (proj2 (good_ids _ Hr id) (mk_is_Some _ _ Hi)); lia).
    set (r3 := set_clients _ _ _).
    assert (Hi3 : interface_ r3 !! id = Some T) by (cbn; by rewrite lookup_insert_ne).
    assert (Hs3 : services_ r3 !! T = Some (fresh_id r)) by (cbn; by rewrite lookup_insert_eq).
    assert (Hc3 : clients id r3 = 1%nat) by (unfold clients; cbn; by rewrite lookup_insert_ne).
    unfold unregister_handle, alive, pointers, stored. rewrite Hi3, Hs3, Hc3, (bool_decide_eq_false_2 (Some _ = Some id)) by congruence.
    cbn. by rewrite bool_decide_eq_true_2 by eauto.
Qed.

End ServiceRegistry.

(** * ExtensibleSerializer and AccessPointService *)

Module ExtensibleSerializer.
Section serializer.
(** The objects, their dynamic type, and what a serializer gives. *)
Context {O S : Type} (type_id : O -> string).

Abbreviation t := (gmap string (O -> S)).

Definition serialize (input : O) (s : t) : outcome S :=
  match s !! type_id input with Some f => Ret (f input) | None => Fault AssertFailed end.
Definition register_serializer (T : string) (f : O -> S) (s : t) : outcome t :=
  _ ← cassert (bool_decide (s !! T = None)); Ret (<[T := f]> s).
Definition unregister_serializer (T : string) (s : t) : t := delete T s.

End serializer.
End ExtensibleSerializer.

Module AccessPointService.
Section service.
Context {B : Type}.

Definition register_backend (controller_module : string) (b : B) (backends_ : gmap string B) : outcome (gmap string B) :=
  _ ← cassert (bool_decide (backends_ !! controller_module = None)); Ret (<[controller_module := b]> backends_).
Definition unregister_backend (controller_module : string) (backends_ : gmap string B) : gmap string B :=
  delete controller_module backends_.
Definition get_backend (controller_module : string) (backends_ : gmap string B) : option B := backends_ !! controller_module.

End service.
End AccessPointService.

(** * Witnesses *)

Module Demo.
Import ServiceRegistry.

(** A registry with one service, then with a client. *)
Definition one : t := mk {[ "Db" := O ]} {[ O := "Db" ]} ∅ [REGISTERED "Db"].
Definition used : t := set_clients O 1 one.

Lemma one_reachable : reachable one.
Proof. eapply rtc_once, (step_register "Db" empty O). reflexivity. Qed.
Lemma used_reachable : reachable used.
Proof. eapply rtc_r; [exact one_reachable|]. exact (step_get "Db" one). Qed.

Lemma listeners_witness : known "Db" (signal_ used) = true.
Proof. rewrite (listeners_know_services used "Db" used_reachable). reflexivity. Defined.

Lemma handle_witness : unregister_handle O one = Ret (drop "Db" one, true) /\ unregister_handle O used = Ret (used, false).
Proof.
  split; [exact (handle_unregisters_unused one "Db" O one_reachable eq_refl)
         |exact (handle_unregisters_unused used "Db" O used_reachable eq_refl)].
Defined.

Lemma used_service_witness : use_count "Db" used = Ret 1 /\ unregister_service "Db" used = (drop "Db" used, true).
Proof. split; apply (used_service_unregistered used "Db" O used_reachable eq_refl eq_refl). Defined.

Lemma rewritten_entry_witness :
  let r1 := Registry.set_expiring 0 "a" 1 10 Registry.empty in
  let r2 := Registry.set 5 "a" 2 r1 in
  Registry.store_ r2 !! "a" = Some 2 /\ Registry.store_ (Registry.set 11 "b" 3 r2) !! "a" = None.
Proof. apply Registry.rewritten_entry_expires; [done|lia|lia]. Defined.
End Demo.
