(* ===== verification/Kernel.v ===== *)
(** The kernel from its creation to its end, [src/core/kernel.cpp] and
    [src/main.cpp]: the configuration file, the wait for the database, the core
    services, the main loop with its signals, the end and what is saved.

    Modules.v has the modules, the requests and saving; here is what surrounds
    them. The scheduler's turn, the network and remote sections and the loggers
    are parameters. *)
From Stdlib Require Import ZArith Lia Ascii String.
From stdpp Require Import base tactics numbers list strings gmap.
From S2P Require Import Prelude Facades Ptree Trees Config Wiegand Modules Services.

Open Scope Z_scope.

(** * The database at start-up *)

Inductive db_target :=
  | Sqlite (path : string)
  | Pgsql (user password dbname host : string) (port : Z).

(** The clock, and what [odb] does: opening a database, the version of its
    schema and that of the program's catalogue, creating and migrating the
    schema, filling a new database. *)
Class DbServer (W : Type) := {
  steady_ms : W -> Z;
  sleep_seconds : Z -> W -> W;
  open_database : db_target -> W -> W * outcome unit;
  schema_version : W -> W * outcome Z;
  current_version : outcome Z;
  create_schema : W -> W * outcome unit;
  migrate : Z -> W -> W * outcome unit;
  populate_default_db : W -> W * outcome unit;
}.

Section database.
Context {W T : Type} `{DbServer W} `{MutableTree T}.

Definition as_u16 (s : string) : option Z := z ← as_u64 s; if z <? 2 ^ 16 then Some z else None.

Definition connect_to_db (db_cfg_node : T) : io W unit :=
  let db_type := get_default as_string db_cfg_node "type" "" in
  if String.eqb db_type "sqlite" then
    db_path ← pure (get as_string db_cfg_node "path");
    act (open_database (Sqlite db_path))
  else if String.eqb db_type "pgsql" then
    db_user ← pure (get as_string db_cfg_node "username");
    db_pw ← pure (get as_string db_cfg_node "password");
    db_dbname ← pure (get as_string db_cfg_node "dbname");
    act (open_database (Pgsql db_user db_pw db_dbname (get_default as_string db_cfg_node "host" "")
                          (get_default as_u16 db_cfg_node "port" 0)))
  else pure (Throw (ConfigException ("Unsupported database type: " +:+ db_type))).

Definition create_update_schema : io W unit :=
  v ← act schema_version;
  cv ← pure current_version;
  if v =? 0 then _ ← act create_schema; act populate_default_db
  else if v <? cv then act (migrate cv)
  else mret tt.

Definition attempt (db_cfg_node : T) : io W unit := _ ← connect_to_db db_cfg_node; create_update_schema.

(** The wait, in milliseconds: a product of 64-bit numbers. *)
Definition abort_after (db_cfg_node : T) : Z := (get_default as_u64 db_cfg_node "startup_abort_time" (60 * 5) * 1000) mod 2 ^ 64.

(** The loop of [configure_database]. What the handler of [unknown_schema] throws
    is not caught by the one that follows. *)
Fixpoint wait_for_database (fuel : nat) (strict : bool) (db_cfg_node : T) (start wait_time : Z) : io W unit :=
  match fuel with
  | O => pure (Fault OutOfFuel)
  | S fuel => fun w =>
      if steady_ms w - start <? abort_after db_cfg_node then
        match attempt db_cfg_node w with
        | (w, Throw UnknownSchema) => (_ ← create_update_schema; wait_for_database fuel strict db_cfg_node start wait_time) w
        | (w, Throw e) =>
            if is_odb e && negb strict then
              wait_for_database fuel strict db_cfg_node start (Z.min (wait_time * 2) 60) (sleep_seconds wait_time w)
            else (w, Throw e)
        | r => r
        end
      else (w, Throw (LEOSACException "Startup failed. Couldn't correctly connect to / initialize the database"))
  end.

Definition configure_database (fuel : nat) (strict : bool) (kconfig : T) : io W bool := fun w =>
  match get_child_optional kconfig "database" with
  | Some db_cfg_node => (_ ← wait_for_database fuel strict db_cfg_node (steady_ms w) 1; mret true) w
  | None => (w, Ret false)
  end.

End database.

(** * Core services *)

Section services.
Import ServiceRegistry.

Definition DBService : string := "DBService".
Definition JSONService : string := "Audit::Serializer::JSONService".
Definition AccessPoints : string := "Auth::AccessPointService".
Definition UpdateService : string := "update::UpdateService".
Definition HardwareService : string := "Hardware::HardwareService".

(** [HardwareService] keeps the pointer to [DBService] it is made with. *)
Definition register_core_services (database : bool) : outcome t :=
  r ← (if database then '(_, r) ← register_service DBService empty; Ret r else Ret empty);
  '(_, r) ← register_service JSONService r;
  '(_, r) ← register_service AccessPoints r;
  '(_, r) ← register_service UpdateService r;
  if database then '(_, r) ← register_service HardwareService (get_service DBService r).2; Ret r else Ret r.

Definition unregister_or_abort (T : string) (r : t) : outcome t :=
  let '(r, ret) := unregister_service T r in _ ← cassert ret; Ret r.

Definition unregister_core_services (database : bool) (r : t) : outcome t :=
  r ← unregister_or_abort JSONService r;
  r ← (if database then unregister_or_abort DBService r else Ret r);
  _ ← deref (get_service AccessPoints r).1;
  r ← unregister_or_abort AccessPoints r;
  r ← unregister_or_abort UpdateService r;
  unregister_or_abort HardwareService r.
End services.

(** * The kernel *)

Inductive signal := SigInt | SigTerm | SigHup.

(** One turn of the main loop: the signals that are delivered, and the request a
    peer has sent. *)
Record turn := mk_turn { signals : list signal; request : option message }.

Record t (W T : Type) := mk {
  kernel_ : kernel W T;
  database_ : bool;
  service_registry_ : ServiceRegistry.t;
  autosave_ : bool;
  send_sighup_ : bool;
  replies_ : list message;
}.
Arguments mk {W T}. Arguments kernel_ {W T}. Arguments database_ {W T}. Arguments service_registry_ {W T}.
Arguments autosave_ {W T}. Arguments send_sighup_ {W T}. Arguments replies_ {W T}.

(** Reading the configuration file, the bus, and what is left out of the kernel:
    its network and remote sections, and its loggers. *)
Class Machine (W T : Type) := {
  read_xml : string -> W -> outcome T;
  publish : message -> W -> W;
  configure_rest : T -> W -> W * outcome unit;
}.

Section kernel.
Context {W T : Type} `{DbServer W} `{MutableTree T} `{!Plugins W T, !Machine W T}.
(** A turn of the scheduler on the main thread; the shell script of RESET and the
    directories of the environment. *)
Context (update_tasks : t W T -> t W T * outcome unit) (reset : W -> W) (scripts factory : string).
Abbreviation state := (t W T).

Definition set_kernel (k : kernel W T) (s : state) : state :=
  mk k (database_ s) (service_registry_ s) (autosave_ s) (send_sighup_ s) (replies_ s).
Definition set_sighup (b : bool) (s : state) : state :=
  mk (kernel_ s) (database_ s) (service_registry_ s) (autosave_ s) b (replies_ s).
Definition set_services (r : ServiceRegistry.t) (s : state) : state :=
  mk (kernel_ s) (database_ s) r (autosave_ s) (send_sighup_ s) (replies_ s).
Definition add_reply (r : option message) (s : state) : state :=
  mk (kernel_ s) (database_ s) (service_registry_ s) (autosave_ s) (send_sighup_ s)
    (match r with Some m => replies_ s ++ [m] | None => replies_ s end).
Definition world (s : state) : W := outside (kernel_ s).

Definition on_kernel {A} (m : io (kernel W T) A) : io state A := fun s =>
  let '(k, r) := m (kernel_ s) in (set_kernel k s, r).
Definition change (f : state -> state) : io state unit := fun s => (f s, Ret tt).
Definition send_bus (m : message) : io state unit :=
  change (fun s => set_kernel (set_outside (publish m (world s)) (kernel_ s)) s).

(** [make_config]. *)
Definition make_config (filename : string) (w : W) : outcome T :=
  if str_empty filename
  then Throw (LEOSACException "Invalid command line parameter. No kernel configuration file specified.")
  else
    match (cfg ← read_xml filename w; k ← get_child cfg "kernel"; Ret (add "kernel-cfg" filename k)) with
    | Throw (PtreeError _) => Throw (ConfigException "Invalid main configuration")
    | r => r
    end.

(** The constructor; [fuel] bounds the attempts to reach the database. *)
Definition make (fuel : nat) (strict : bool) (cfg : T) : W -> W * outcome state := fun w =>
  match ConfigManager.make cfg with
  | Ret c =>
      (_ ← pure (get as_string cfg "kernel-cfg");
       database ← configure_database fuel strict cfg;
       services ← pure (register_core_services database);
       _ ← act (configure_rest cfg);
       autosave ← pure (match get_child_optional cfg "autosave" with
                        | Some child => match as_bool (data child) with Some b => Ret b | None => Throw (PtreeError "") end
                        | None => Ret false
                        end);
       act (fun w => (w, Ret (mk (mk_kernel c [] [] ∅ true false w) database services autosave false [])))) w
  | Throw e => (w, Throw e)
  | Fault f => (w, Fault f)
  end.

Definition running (s : state) : bool := is_running_ (kernel_ s).
Definition stop (s : state) : state :=
  let k := kernel_ s in
  set_kernel (mk_kernel (config_manager k) (path_ k) (modules_ k) (config_checker k) false (want_restart_ k) (outside k)) s.

(** The callbacks of [configure_signal_handler]; the second SIGINT is [_exit]. *)
Definition on_signal (sg : signal) : io state unit := fun s =>
  match sg with
  | SigInt => if running s then (stop s, Ret tt) else (s, Fault Terminated)
  | SigTerm => (stop s, Ret tt)
  | SigHup => (set_sighup true s, Ret tt)
  end.

Fixpoint on_signals (l : list signal) : io state unit :=
  match l with [] => mret tt | sg :: l => _ ← on_signal sg; on_signals l end.

(** [reactor_.poll], then the scheduler. *)
Definition poll (tn : turn) : io state unit :=
  _ ← on_signals (signals tn);
  _ ← match request tn with
      | Some msg => r ← on_kernel (handle_control_request reset scripts factory msg); change (add_reply r)
      | None => mret tt
      end;
  act update_tasks.

Definition iteration (tn : turn) : io state unit :=
  _ ← poll tn;
  act (fun s => if send_sighup_ s then (_ ← send_bus [FStr "KERNEL"; FStr "SIGHUP"]; change (set_sighup false)) s else (s, Ret tt)).

(** [while (is_running_)]: the turns that are left. A kernel that still runs when the turns
    given to the model are used up is out of fuel. *)
Fixpoint main_loop (ts : list turn) : io state (list turn) := fun s =>
  if running s then
    match ts with
    | [] => (s, Fault OutOfFuel)
    | tn :: ts => (_ ← iteration tn; main_loop ts) s
    end
  else (s, Ret ts).

(** [shutdown]: 5 seconds of turns. *)
Fixpoint drain (start : Z) (ts : list turn) : io state unit := fun s =>
  if steady_ms (world s) - start <? 5000 then
    match ts with
    | [] => (s, Fault OutOfFuel)
    | tn :: ts => (_ ← poll tn; drain start ts) s
    end
  else (s, Ret tt).

Definition shutdown (ts : list turn) : io state unit :=
  _ ← change (fun s => set_kernel (stopModules true (kernel_ s)) s);
  act (fun s => drain (steady_ms (world s)) ts s).

Definition run (ts : list turn) : io state bool :=
  _ ← on_kernel module_manager_init;
  _ ← send_bus [FStr "KERNEL"; FStr "SYSTEM_READY"];
  rest ← main_loop ts;
  _ ← shutdown rest;
  _ ← act (fun s => if autosave_ s then on_kernel (_ ← save_config; mret tt) s else (s, Ret tt));
  act (fun s => (s, Ret (want_restart_ (kernel_ s)))).

(** The destructor. *)
Definition destroy : io state unit :=
  _ ← change (fun s => set_kernel (stopModules false (kernel_ s)) s);
  act (fun s => match unregister_core_services (database_ s) (service_registry_ s) with
                | Ret r => (set_services r s, Ret tt)
                | Throw e => (s, Throw e)
                | Fault f => (s, Fault f)
                end).

(** One passage through the loop of [main]: whether to go on, or the exit code.
    The kernel is also destroyed when [run] throws. *)
Definition life (fuel : nat) (strict : bool) (filename : string) (ts : list turn) (w : W) : W * outcome (bool + Z) :=
  match (cfg ← pure (make_config filename w); make fuel strict cfg) w with
  | (w, Ret s) =>
      let '(s, r) := run ts s in
      match r with
      | Fault f => (world s, Fault f)
      | _ => match destroy s with
             | (s, Ret _) => (world s, Ret (match r with Ret b => inl b | _ => inr 1 end))
             | (s, Fault f) => (world s, Fault f)
             | (s, Throw _) => (world s, Fault Terminated)
             end
      end
  | (w, Throw _) => (w, Ret (inr 1))
  | (w, Fault f) => (w, Fault f)
  end.

(** [main], with the turns of each life. *)
Fixpoint main (fuel : nat) (strict : bool) (filename : string) (lives : list (list turn)) (w : W) : W * outcome Z :=
  match lives with
  | [] => (w, Fault OutOfFuel)
  | ts :: lives =>
      match life fuel strict filename ts w with
      | (w, Ret (inl true)) => main fuel strict filename lives w
      | (w, Ret (inl false)) => (w, Ret 0)
      | (w, Ret (inr code)) => (w, Ret code)
      | (w, Throw e) => (w, Throw e)
      | (w, Fault f) => (w, Fault f)
      end
  end.

End kernel.

(** * Properties *)

(** What is documented of the database: time goes on, waiting takes the time
    asked for, and only a catalogue without the schema makes it unknown. *)
Class DbServerLaws (W : Type) `{DbServer W} := {
  open_time tg (w : W) : steady_ms w <= steady_ms (open_database tg w).1;
  version_time (w : W) : steady_ms w <= steady_ms (schema_version w).1;
  create_time (w : W) : steady_ms w <= steady_ms (create_schema w).1;
  migrate_time v (w : W) : steady_ms w <= steady_ms (migrate v w).1;
  populate_time (w : W) : steady_ms w <= steady_ms (populate_default_db w).1;
  sleep_time n (w : W) : 0 <= n -> steady_ms w + 1000 * n <= steady_ms (sleep_seconds n w);
  open_result tg (w : W) f : (open_database tg w).2 <> Fault f /\ (open_database tg w).2 <> Throw UnknownSchema;
  version_result (w : W) f : (schema_version w).2 <> Fault f /\ (schema_version w).2 <> Throw UnknownSchema;
  current_result f : (current_version (W := W)) <> Fault f;
  create_result (w : W) f : (create_schema w).2 <> Fault f /\
    ((create_schema w).2 = Throw UnknownSchema -> current_version (W := W) = Throw UnknownSchema);
  migrate_result v (w : W) f : (migrate v w).2 <> Fault f /\
    ((migrate v w).2 = Throw UnknownSchema -> current_version (W := W) = Throw UnknownSchema);
  populate_result (w : W) f : (populate_default_db w).2 <> Fault f /\ (populate_default_db w).2 <> Throw UnknownSchema;
}.

Section waiting.
Context {W T : Type} `{DbServerLaws W} `{MutableTree T}.

(** Code of the database: time goes on, no fault, and the schema is unknown only to
    a catalogue without it. *)
Definition db_code {A} (m : io W A) : Prop := forall w,
  steady_ms w <= steady_ms (m w).1 /\ (forall f, (m w).2 <> Fault f) /\
  ((m w).2 = Throw UnknownSchema -> current_version (W := W) = Throw UnknownSchema).

Lemma db_code_bind {A B} (m : io W A) (k : A -> io W B) : db_code m -> (forall a, db_code (k a)) -> db_code (m ≫= k).
Proof.
  intros Hm Hk w. unfold mbind, io_bind. destruct (Hm w) as (Ht & Hf & Hu). destruct (m w) as [w1 [a|e|f]]; cbn in *.
  - destruct (Hk a w1) as (Ht2 & Hf2 & Hu2). split; [lia|done].
  - split; [done|]. split; [done|]. intros [= ->]. by apply Hu.
  - by specialize (Hf f).
Qed.
Lemma db_code_pure {A} (m : outcome A) : (forall f, m <> Fault f) -> (m = Throw UnknownSchema -> current_version (W := W) = Throw UnknownSchema) ->
  db_code (pure m).
Proof. intros Hf Hu w. cbn. split; [lia|done]. Qed.

Lemma get_no_fault {A} (f : string -> option A) (t : T) k x : get f t k <> Fault x /\ get f t k <> Throw UnknownSchema.
Proof. unfold get, get_child. destruct (get_child_optional t k) as [c|]; cbn; [destruct (f (data c))|]; by split. Qed.
Lemma db_code_get {A} (f : string -> option A) (t : T) k : db_code (pure (get f t k)).
Proof. apply db_code_pure; [intros x; apply get_no_fault|]. intros Hu. by apply (proj2 (get_no_fault f t k AssertFailed)) in Hu. Qed.
Lemma db_code_open tg : db_code (act (open_database tg)).
Proof.
  intros w. unfold act. split; [apply open_time|]. split; [intros f; apply open_result|].
  intros Hu. by apply (open_result tg w AssertFailed) in Hu.
Qed.

Lemma db_code_connect (cfg : T) : db_code (connect_to_db cfg).
Proof.
  unfold connect_to_db. case_match; [|case_match; [|by apply db_code_pure]];
    repeat (apply db_code_bind; [apply db_code_get|intros ?]); apply db_code_open.
Qed.
Lemma db_code_schema : db_code create_update_schema.
Proof.
  apply db_code_bind.
  { intros w. unfold act. split; [apply version_time|]. split; [intros f; apply version_result|].
    intros Hu. by apply (version_result w AssertFailed) in Hu. }
  intros v. apply db_code_bind; [apply db_code_pure; [intros f; apply current_result|done]|]. intros cv. case_match.
  - apply db_code_bind.
    + intros w. unfold act. split; [apply create_time|]. split; [intros f; apply create_result|apply (create_result w AssertFailed)].
    + intros _ w. unfold act. split; [apply populate_time|]. split; [intros f; apply populate_result|].
      intros Hu. by apply (populate_result w AssertFailed) in Hu.
  - case_match; [|by apply (db_code_pure (Ret tt))].
    intros w. unfold act. split; [apply migrate_time|]. split; [intros f; apply migrate_result|apply (migrate_result cv w AssertFailed)].
Qed.
Lemma db_code_attempt (cfg : T) : db_code (attempt cfg).
Proof. apply db_code_bind; [apply db_code_connect|intros _; apply db_code_schema]. Qed.

(** Without a schema in the catalogue, creating or updating it fails. *)
Lemma schema_unknown w : current_version (W := W) = Throw UnknownSchema -> forall u, (create_update_schema w).2 <> Ret u.
Proof.
  intros Hc u. unfold create_update_schema, act, pure, mbind, io_bind. rewrite Hc. by destruct (schema_version w) as [w1 [v| |]].
Qed.

(** C14: (termination) Starting with a database comes to an end, with a database or an
    exception: the wait takes at most one attempt a second of the configured
    time, which defaults to 5 minutes. *)
Theorem database_wait_ends fuel strict (cfg : T) w :
  (Z.to_nat (abort_after cfg / 1000 + 1) < fuel)%nat ->
  forall f, (wait_for_database fuel strict cfg (steady_ms w) 1 w).2 <> Fault f.
Proof.
  intros Hfuel f.
  enough (Hgen : forall fuel start wait w, 1 <= wait -> abort_after cfg - (steady_ms w - start) <= 1000 * (Z.of_nat fuel - 1) -> fuel <> O ->
    (wait_for_database fuel strict cfg start wait w).2 <> Fault f).
  { assert (0 <= abort_after cfg) by (unfold abort_after; apply Z.mod_pos_bound; lia).
    pose proof (Z.div_mod (abort_after cfg) 1000). pose proof (Z.mod_pos_bound (abort_after cfg) 1000).
    apply Hgen; lia. }
  clear fuel w Hfuel. induction fuel as [|fuel IH]; intros start wait w Hw Hlim Hnz; [done|].
  cbn [wait_for_database]. destruct (Z.ltb_spec (steady_ms w - start) (abort_after cfg)) as [Hlt|_]; [|done].
  destruct (db_code_attempt cfg w) as (Ht & Hf & Hu). destruct (attempt cfg w) as [w1 [[]|e|x]]; cbn in Ht, Hf, Hu; [done| |by specialize (Hf x)].
  destruct (decide (e = UnknownSchema)) as [->|He].
  { specialize (Hu eq_refl). destruct (db_code_schema w1) as (_ & Hf1 & _). pose proof (schema_unknown w1 Hu) as Hn.
    unfold mbind, io_bind. destruct (create_update_schema w1) as [w2 [[]|e2|x2]]; cbn in *; [by specialize (Hn tt)|done|by specialize (Hf1 x2)]. }
  assert (Hgoal : (if is_odb e && negb strict
     then wait_for_database fuel strict cfg start (Z.min (wait * 2) 60) (sleep_seconds wait w1) else (w1, Throw e)).2 <> Fault f).
  { case_match; [|done]. pose proof (sleep_time wait w1 ltac:(lia)). apply IH; [lia|lia|].
    intros ->. lia. }
  by destruct e.
Qed.

(** The attempts that fail, with the waits between them. *)
Inductive failing (cfg : T) (start : Z) : Z -> W -> list Z -> Z -> W -> Prop :=
  | failing_none wait w : failing cfg start wait w [] wait w
  | failing_more wait w w1 e waits wait' w' :
      steady_ms w - start < abort_after cfg -> attempt cfg w = (w1, Throw e) -> is_odb e = true -> e <> UnknownSchema ->
      failing cfg start (Z.min (wait * 2) 60) (sleep_seconds wait w1) waits wait' w' ->
      failing cfg start wait w (wait :: waits) wait' w'.

Lemma failing_run cfg start wait w waits wait' w' fuel :
  failing cfg start wait w waits wait' w' ->
  wait_for_database (length waits + fuel) false cfg start wait w = wait_for_database fuel false cfg start wait' w'.
Proof.
  induction 1 as [wait w|wait w w1 e waits wait' w' Hlt Ha Ho Hne Hf IH]; [done|].
  cbn [length plus wait_for_database]. rewrite (proj2 (Z.ltb_lt _ _)) by done. rewrite Ha.
  rewrite <- IH. by destruct e.
Qed.

Lemma failing_waits cfg start wait w waits wait' w' i n : 1 <= wait <= 60 -> failing cfg start wait w waits wait' w' ->
  waits !! i = Some n -> n = Z.min (wait * 2 ^ Z.of_nat i) 60.
Proof.
  intros Hw Hf. revert i Hw. induction Hf as [|wait w w1 e waits wait' w' Hlt Ha Ho Hne Hf IH]; intros i Hw; [done|].
  destruct i as [|i]; cbn [lookup list_lookup].
  - intros [= <-]. change (2 ^ Z.of_nat 0) with 1. lia.
  - intros Hi. rewrite (IH i) by (done || lia). rewrite Nat2Z.inj_succ, Z.pow_succ_r by lia.
    assert (1 <= 2 ^ Z.of_nat i) by (apply (Z.pow_le_mono_r 2 0); lia).
    set (P := 2 ^ Z.of_nat i) in *. clearbody P. replace (wait * (2 * P)) with (wait * 2 * P) by lia.
    destruct (Z.min_spec (wait * 2) 60) as [[? ->]|[? ->]]; [done|]. rewrite !Z.min_r; [done|nia|nia].
Qed.

(** (functional) While the database cannot be reached, the kernel waits 1, 2, 4, ...
    seconds, 60 at most, between the attempts; it goes on as soon as an attempt
    succeeds, and gives up when the configured time is over. *)
Theorem retries_back_off cfg w waits wait' w' fuel :
  failing cfg (steady_ms w) 1 w waits wait' w' -> (length waits < fuel)%nat ->
  (forall i n, waits !! i = Some n -> n = Z.min (2 ^ Z.of_nat i) 60) /\
  (forall w2, steady_ms w' - steady_ms w < abort_after cfg -> attempt cfg w' = (w2, Ret tt) ->
     wait_for_database fuel false cfg (steady_ms w) 1 w = (w2, Ret tt)) /\
  (abort_after cfg <= steady_ms w' - steady_ms w -> exists msg,
     wait_for_database fuel false cfg (steady_ms w) 1 w = (w', Throw (LEOSACException msg))).
Proof.
  intros Hf Hl. split; [|].
  - intros i n Hi. rewrite (failing_waits cfg (steady_ms w) 1 w waits wait' w' i n ltac:(lia) Hf Hi). by rewrite Z.mul_1_l.
  - replace fuel with (length waits + S (fuel - length waits - 1))%nat by lia. rewrite (failing_run _ _ _ _ _ _ _ _ Hf).
    cbn [wait_for_database]. split.
    + intros w2 Hlt Ha. by rewrite (proj2 (Z.ltb_lt _ _)), Ha.
    + intros Hge. rewrite (proj2 (Z.ltb_ge _ _)) by done. by eexists.
Qed.
End waiting.

(** * The end *)

Section ending.
Context {W T : Type} `{DbServer W} `{MutableTree T} `{!Plugins W T, !Machine W T}.
Context (update_tasks : t W T -> t W T * outcome unit) (reset : W -> W) (scripts factory : string).
Abbreviation state := (t W T).

Lemma unregister_other T1 T2 r : T1 <> T2 -> ServiceRegistry.services_ r !! T2 = None ->
  ServiceRegistry.services_ (ServiceRegistry.unregister_service T1 r).1 !! T2 = None.
Proof.
  intros Hne Hn. unfold ServiceRegistry.unregister_service. destruct (_ !! T1); [|done]. case_match; [done|].
  cbn. by rewrite lookup_delete_ne.
Qed.

(** Without a database the services that were registered are unregistered; the next one was never
    registered. *)
Lemma unregister_without_database reg : register_core_services false = Ret reg ->
  (exists r, (r ← unregister_or_abort JSONService reg; r ← unregister_or_abort AccessPoints r;
              unregister_or_abort UpdateService r) = Ret r /\
     (ServiceRegistry.unregister_service HardwareService r).2 = false) /\
  unregister_core_services false reg = Fault AssertFailed.
Proof. intros [= <-]. split; [eexists; split; vm_compute; reflexivity|vm_compute; reflexivity]. Qed.

(** (functional) The services of a kernel with a database are all unregistered at
    its end, provided that no module still has a pointer to one: [DBService] goes
    although [HardwareService] uses it, and with one more client the kernel
    aborts. *)
Theorem core_services_end r : register_core_services true = Ret r ->
  (exists r', unregister_core_services true r = Ret r' /\ ServiceRegistry.services_ r' = ∅) /\
  forall id, ServiceRegistry.services_ r !! DBService = Some id ->
    ServiceRegistry.use_count DBService r = Ret 1 /\
    unregister_core_services true (ServiceRegistry.set_clients id 2 r) = Fault AssertFailed.
Proof.
  intros [= <-]. split; [eexists; split; vm_compute; reflexivity|]. intros id Hid. vm_compute in Hid. injection Hid as <-.
  split; vm_compute; reflexivity.
Qed.

(** What the kernel's life leaves as it was. *)
Definition frame (s : state) := (service_registry_ s, database_ s).
Definition frames {A} (m : io state A) : Prop := forall s, frame (m s).1 = frame s.

Lemma frames_ret {A} (m : outcome A) : frames (pure m).
Proof. done. Qed.
Lemma frames_change f : (forall s, frame (f s) = frame s) -> frames (change f).
Proof. done. Qed.
Lemma frames_bind {A B} (m : io state A) (k : A -> io state B) : frames m -> (forall a, frames (k a)) -> frames (m ≫= k).
Proof.
  intros Hm Hk s. unfold mbind, io_bind. specialize (Hm s). destruct (m s) as [s1 [a| |]]; cbn in *; [|done..]. by rewrite Hk.
Qed.
Lemma frames_kernel {A} (m : io (kernel W T) A) : frames (on_kernel m).
Proof. intros s. unfold on_kernel. by destruct (m (kernel_ s)). Qed.

Context (Htasks : frames (act update_tasks)).

Lemma frames_signals l : frames (on_signals l).
Proof.
  induction l as [|sg l IH]; [done|]. apply frames_bind; [|done]. intros s. destruct sg; cbn; [|done..]. by destruct (running s).
Qed.
Lemma frames_poll tn : frames (poll update_tasks reset scripts factory tn).
Proof.
  apply frames_bind; [apply frames_signals|intros _]. apply frames_bind; [|intros _; exact Htasks].
  destruct (request tn); [|done]. apply frames_bind; [apply frames_kernel|]. by intros a s.
Qed.
Lemma frames_loop ts : frames (main_loop update_tasks reset scripts factory ts).
Proof.
  induction ts as [|tn ts IH]; intros s; cbn [main_loop]; destruct (running s); [done..| |done]. revert s.
  apply frames_bind; [|done]. apply frames_bind; [apply frames_poll|]. intros _ s. unfold act. by destruct (send_sighup_ s).
Qed.
Lemma frames_drain start ts : frames (drain update_tasks reset scripts factory start ts).
Proof.
  induction ts as [|tn ts IH]; intros s; cbn [drain]; destruct (_ <? _); [done..| |done]. revert s.
  apply frames_bind; [apply frames_poll|done].
Qed.
Lemma frames_run ts : frames (run update_tasks reset scripts factory ts).
Proof.
  apply frames_bind; [apply frames_kernel|intros _]. apply frames_bind; [done|intros _].
  apply frames_bind; [apply frames_loop|intros rest]. apply frames_bind.
  - apply frames_bind; [done|]. intros _ s. apply frames_drain.
  - intros _. apply frames_bind; [|done]. intros s. unfold act. destruct (autosave_ s); [apply frames_kernel|done].
Qed.

(** ** The main loop *)

(** The turns at which the kernel is asked to stop, and whether to restart. *)
Inductive asks : turn -> bool -> Prop :=
  | asks_int : asks (mk_turn [SigInt] None) false
  | asks_term : asks (mk_turn [SigTerm] None) false
  | asks_restart : asks (mk_turn [] (Some [FStr "RESTART"])) true.
Definition quiet (tn : turn) : Prop := request tn = None /\ Forall (fun sg => sg = SigHup) (signals tn).

Definition flags (s : state) := (running s, want_restart_ (kernel_ s)).

(** The scheduler's turn, when no task stops the kernel. *)
Definition tasks_run : Prop := forall s, exists s', update_tasks s = (s', Ret tt) /\ flags s' = flags s.

Lemma sighups_run l s : Forall (fun sg => sg = SigHup) l -> exists s', on_signals l s = (s', Ret tt) /\ flags s' = flags s.
Proof.
  intros Hl. revert s. induction Hl as [|sg l -> Hl IH]; intros s; [by exists s|]. cbn [on_signals].
  destruct (IH (set_sighup true s)) as (s' & Hr & Hf). exists s'. by split; [|rewrite Hf].
Qed.

(** What follows the poll changes no flag. *)
Lemma iteration_run tn s s1 : poll update_tasks reset scripts factory tn s = (s1, Ret tt) ->
  exists s', iteration update_tasks reset scripts factory tn s = (s', Ret tt) /\ flags s' = flags s1.
Proof.
  intros Hp. unfold iteration. rewrite (io_bind_ret _ _ _ _ _ Hp). unfold act. destruct (send_sighup_ s1); by eexists.
Qed.

Lemma quiet_runs tn s : tasks_run -> quiet tn ->
  exists s', iteration update_tasks reset scripts factory tn s = (s', Ret tt) /\ flags s' = flags s.
Proof.
  intros Ht [Hr Hs]. destruct (sighups_run _ s Hs) as (s1 & Hr1 & F1). destruct (Ht s1) as (s2 & Hr2 & F2).
  destruct (iteration_run tn s s2) as (s3 & Hr3 & F3).
  { unfold poll. rewrite (io_bind_ret _ _ _ _ _ Hr1), Hr. exact Hr2. }
  exists s3. split; [done|congruence].
Qed.

Lemma asked_runs tn b s : tasks_run -> asks tn b -> running s = true -> exists s',
  iteration update_tasks reset scripts factory tn s = (s', Ret tt) /\ flags s' = (false, b || want_restart_ (kernel_ s)).
Proof.
  intros Ht Ha Hrun.
  assert (Hp : exists s1, flags s1 = (false, b || want_restart_ (kernel_ s)) /\
    poll update_tasks reset scripts factory tn s = act update_tasks s1).
  { destruct Ha; unfold poll, on_signals; cbn [signals request].
    - exists (stop s). split; [done|]. unfold mbind, io_bind, on_signal. by rewrite Hrun.
    - by exists (stop s).
    - eexists. split; [|reflexivity]. done. }
  destruct Hp as (s1 & F1 & Hp). destruct (Ht s1) as (s2 & Hr2 & F2). unfold act in Hp. rewrite Hr2 in Hp.
  destruct (iteration_run tn s s2 Hp) as (s3 & Hr3 & F3). exists s3. split; [done|congruence].
Qed.

(** (liveness) The main loop ends with the turn in which the kernel is asked to stop,
    by SIGINT, SIGTERM or RESTART, whatever SIGHUP arrive before; the kernel will
    restart if that is what was asked. *)
Theorem main_loop_ends ts1 tn b ts2 s :
  tasks_run -> Forall quiet ts1 -> asks tn b -> running s = true ->
  exists s', main_loop update_tasks reset scripts factory (ts1 ++ tn :: ts2) s = (s', Ret ts2) /\
    flags s' = (false, b || want_restart_ (kernel_ s)).
Proof using Type.
  intros Ht Hq Ha. revert s. induction Hq as [|q ts1 Hq1 Hq IH]; intros s Hrun; cbn [app main_loop]; rewrite Hrun.
  - destruct (asked_runs tn b s Ht Ha Hrun) as (s1 & Hr1 & F1). exists s1. rewrite (io_bind_ret _ _ _ _ _ Hr1).
    split; [|done]. injection F1 as F1 _. destruct ts2; cbn [main_loop]; by rewrite F1.
  - destruct (quiet_runs q s Ht Hq1) as (s1 & Hr1 & F1). rewrite (io_bind_ret _ _ _ _ _ Hr1).
    injection F1 as Fr Fw. destruct (IH s1) as (s2 & Hr2 & F2); [congruence|]. exists s2. split; [done|]. by rewrite F2, Fw.
Qed.

(** ** The end without a database *)

Lemma made_without_database fuel strict cfg w w' s : get_child_optional cfg "database" = None ->
  make fuel strict cfg w = (w', Ret s) ->
  exists reg, register_core_services false = Ret reg /\ frame s = (reg, false) /\ running s = true.
Proof using Type.
  intros Hdb Hmake. unfold make in Hmake. destruct (ConfigManager.make cfg); [|done..].
  unfold configure_database in Hmake. rewrite Hdb in Hmake.
  unfold mbind, io_bind, pure, act in Hmake. destruct (get as_string cfg "kernel-cfg"); [|done..].
  destruct (register_core_services false) as [reg| |]; [|done..].
  destruct (configure_rest cfg w) as [w1 [[]| |]]; [|done..].
  destruct (match get_child_optional cfg "autosave" with Some _ => _ | None => _ end); [|done..]. injection Hmake as _ <-.
  by exists reg.
Qed.

Lemma life_run fuel strict filename ts w w' cfg s : make_config filename w = Ret cfg -> make fuel strict cfg w = (w', Ret s) ->
  life update_tasks reset scripts factory fuel strict filename ts w =
  let '(s, r) := run update_tasks reset scripts factory ts s in
  match r with
  | Fault f => (world s, Fault f)
  | _ => match destroy s with
         | (s, Ret _) => (world s, Ret (match r with Ret b => inl b | _ => inr 1 end))
         | (s, Fault f) => (world s, Fault f)
         | (s, Throw _) => (world s, Fault Terminated)
         end
  end.
Proof using Type.
  intros Hcfg Hmake. unfold life.
  assert (Hm : (cfg0 ← pure (make_config filename w); make fuel strict cfg0) w = (w', Ret s))
    by (unfold mbind, io_bind, pure; by rewrite Hcfg).
  by rewrite Hm.
Qed.

(** What the modules' start does to the kernel leaves it running. *)
Definition runs {A} (m : io (kernel W T) A) : Prop := forall k, is_running_ (m k).1 = is_running_ k.
Lemma runs_bind {A B} (m : io (kernel W T) A) (f : A -> io (kernel W T) B) : runs m -> (forall a, runs (f a)) -> runs (m ≫= f).
Proof using Type.
  intros Hm Hf k. unfold mbind, io_bind. specialize (Hm k). destruct (m k) as [k1 [a| |]]; cbn in *; [|done..]. by rewrite Hf.
Qed.
Lemma runs_foldU {A} (f : A -> io (kernel W T) unit) l : (forall a, runs (f a)) -> runs (foldU f l).
Proof using Type. intros Hf. induction l as [|a l IH]; [done|]. by apply runs_bind. Qed.

Lemma runs_start m : runs (initModule m).
Proof using Type.
  assert (Hs : runs (start m)).
  { repeat (apply runs_bind; [done|intros ?]). apply runs_bind; [|done]. intros k. unfold act. by destruct (start_module _ _ _). }
  intros k. unfold initModule. specialize (Hs k). destruct (actor_ m); [done|]. by destruct (start m k) as [k1 [| |]].
Qed.
Lemma runs_load node : runs (load_configured node).
Proof using Type.
  unfold load_configured, loadModule. repeat (apply runs_bind; [done|intros ?]). apply runs_bind; [|by intros []].
  repeat (apply runs_bind; [done|intros ?]). repeat case_match; [|done..]. by repeat (apply runs_bind; [done|intros ?]).
Qed.
Lemma runs_manager : runs module_manager_init.
Proof using Type.
  assert (Hl : runs load_modules).
  { unfold load_modules. repeat (apply runs_bind; [done|intros ?]). apply runs_bind.
    - apply runs_foldU. intros node. apply runs_bind; [done|intros _ k]. cbn. unfold addToPath. by case_bool_decide.
    - intros _. apply runs_bind; [done|intros ?]. apply runs_foldU, runs_load. }
  intros k. unfold module_manager_init. specialize (Hl k). destruct (load_modules k) as [k1 [[]|e|]]; cbn in *.
  - rewrite <- Hl. revert k1 Hl. intros k1 _. apply (runs_bind get_kernel (fun k => foldU initModule (modules_ k))); [done|].
    intros k2. apply runs_foldU, runs_start.
  - by destruct e.
  - done.
Qed.
Lemma save_then_nothing (k : kernel W T) : exists k', (_ ← save_config; mret tt) k = (k', Ret tt) \/ exists e, (_ ← save_config; mret tt) k = (k', Throw e).
Proof using Type.
  unfold save_config, mbind, io_bind, get_kernel, pure, act. unfold get, get_child.
  repeat (case_match; simplify_eq/=; eauto).
Qed.

(** Quiet turns, each of which takes a millisecond at least: the shutdown lasts no more
    than 5000 of them. *)
Definition tasks_take_time : Prop := forall s, exists s', update_tasks s = (s', Ret tt) /\ flags s' = flags s /\
  steady_ms (world s) + 1 <= steady_ms (world s').

Lemma sighups_time l (s : state) : Forall (fun sg => sg = SigHup) l -> world (on_signals l s).1 = world s.
Proof using Type. intros Hl. revert s. induction Hl as [|sg l -> Hl IH]; intros s; [done|]. exact (IH (set_sighup true s)). Qed.

Lemma drain_ends start ts (s : state) : tasks_take_time -> Forall quiet ts -> 5000 - (steady_ms (world s) - start) <= Z.of_nat (length ts) ->
  exists s', drain update_tasks reset scripts factory start ts s = (s', Ret tt).
Proof using Type.
  intros Ht Hq. revert s. induction Hq as [|tn ts [Hr Hs] Hq IH]; intros s Hlen; cbn [drain]; (case_match eqn:E; [|by eexists]).
  - apply Z.ltb_lt in E. cbn in Hlen. lia.
  - destruct (sighups_run _ s Hs) as (s1 & Hr1 & _). pose proof (sighups_time _ s Hs) as Hw. rewrite Hr1 in Hw. cbn in Hw.
    destruct (Ht s1) as (s2 & Hr2 & _ & Htime).
    assert (Hp : poll update_tasks reset scripts factory tn s = (s2, Ret tt)) by (unfold poll; rewrite (io_bind_ret _ _ _ _ _ Hr1), Hr; exact Hr2).
    rewrite (io_bind_ret _ _ _ _ _ Hp). apply IH. cbn [length] in Hlen. rewrite <- Hw in Hlen. lia.
Qed.

Lemma tasks_timed : tasks_take_time -> tasks_run.
Proof using Type. intros Ht s. destruct (Ht s) as (s' & Hr & Hf & _). by exists s'. Qed.

(** The kernel that is asked to stop comes to the end of [run], with its answer or an exception. *)
Lemma run_ends ts1 tn b ts2 s : tasks_take_time -> running s = true -> (forall f, (module_manager_init (kernel_ s)).2 <> Fault f) ->
  Forall quiet ts1 -> asks tn b -> Forall quiet ts2 -> 5000 <= Z.of_nat (length ts2) ->
  forall f, (run update_tasks reset scripts factory (ts1 ++ tn :: ts2) s).2 <> Fault f.
Proof using Type.
  intros Ht Hrun Hinit Hq1 Ha Hq2 Hlen f. unfold run. unfold mbind at 1, io_bind at 1, on_kernel at 1.
  pose proof (runs_manager (kernel_ s)) as Hm. destruct (module_manager_init (kernel_ s)) as [k [[]|e|g]]; [|done|by destruct (Hinit g)].
  cbn [fst] in Hm. unfold send_bus at 1, mbind at 1, io_bind at 1, change at 1.
  set (s1 := set_kernel (set_outside _ _) _). assert (Hrun1 : running s1 = true) by (cbn; by rewrite Hm).
  destruct (main_loop_ends ts1 tn b ts2 s1 (tasks_timed Ht) Hq1 Ha Hrun1) as (s2 & Hr2 & _). rewrite (io_bind_ret _ _ _ _ _ Hr2).
  unfold shutdown. set (s3 := set_kernel (stopModules true (kernel_ s2)) s2).
  destruct (drain_ends (steady_ms (world s3)) ts2 s3 Ht Hq2) as (s4 & Hr4); [lia|].
  assert (Hsh : (_ ← change (fun s => set_kernel (stopModules true (kernel_ s)) s);
    act (fun s => drain update_tasks reset scripts factory (steady_ms (world s)) ts2 s)) s2 = (s4, Ret tt)) by exact Hr4.
  rewrite (io_bind_ret _ _ _ _ _ Hsh). clear. unfold mbind, io_bind, act. destruct (autosave_ s4); [|done].
  unfold on_kernel. pose proof (save_then_nothing (kernel_ s4)) as Hsave. unfold mbind, io_bind in Hsave.
  destruct Hsave as (k & [-> |[e ->]]); done.
Qed.

(** C30: (error) A kernel whose configuration has no database never ends properly. When its run ends, with an
    answer or with an exception, its destructor unregisters the services that were registered and
    then aborts on the next one, the hardware service, which was not: the program's end is this
    assertion, and that of the run itself only when the run aborted. The run does
    end: when it is asked to stop after any number of turns in which nothing asks it to, if starting
    the modules does not abort and each turn takes a millisecond at least, the program ends with
    that assertion. *)
Theorem no_database_end_aborts fuel strict filename w w' cfg s :
  make_config filename w = Ret cfg -> get_child_optional cfg "database" = None -> make fuel strict cfg w = (w', Ret s) ->
  (forall ts s1 r, run update_tasks reset scripts factory ts s = (s1, r) ->
     let w2 := (life update_tasks reset scripts factory fuel strict filename ts w).2 in
     match r with
     | Fault f => w2 = Fault f
     | _ => w2 = Fault AssertFailed /\ (destroy s1).2 = Fault AssertFailed /\
         exists r, (r ← unregister_or_abort JSONService (service_registry_ s1); r ← unregister_or_abort AccessPoints r;
                    unregister_or_abort UpdateService r) = Ret r /\
           (ServiceRegistry.unregister_service HardwareService r).2 = false
     end) /\
  (forall ts1 tn b ts2, tasks_take_time -> (forall f, (module_manager_init (kernel_ s)).2 <> Fault f) ->
     Forall quiet ts1 -> asks tn b -> Forall quiet ts2 -> 5000 <= Z.of_nat (length ts2) ->
     (life update_tasks reset scripts factory fuel strict filename (ts1 ++ tn :: ts2) w).2 = Fault AssertFailed).
Proof using Htasks.
  intros Hcfg Hdb Hmake. destruct (made_without_database _ _ _ _ _ _ Hdb Hmake) as (reg & Hreg & Hf & Hrun).
  destruct (unregister_without_database reg Hreg) as [Hun Habort].
  assert (Hend : forall ts s1 r, run update_tasks reset scripts factory ts s = (s1, r) ->
    service_registry_ s1 = reg /\ (destroy s1).2 = Fault AssertFailed).
  { intros ts s1 r Hr. pose proof (frames_run ts s) as Hfr. rewrite Hr in Hfr. cbn [fst] in Hfr. rewrite Hf in Hfr. injection Hfr as Hg1 Hg2.
    split; [done|]. unfold destroy, change, act, mbind, io_bind. cbn [database_ service_registry_ set_kernel]. by rewrite Hg1, Hg2, Habort. }
  assert (Hlife : forall ts s1 r, run update_tasks reset scripts factory ts s = (s1, r) ->
    (life update_tasks reset scripts factory fuel strict filename ts w).2 = match r with Fault f => Fault f | _ => Fault AssertFailed end).
  { intros ts s1 r Hr. rewrite (life_run _ _ _ _ _ _ _ _ Hcfg Hmake), Hr. destruct (Hend _ _ _ Hr) as [_ Hd].
    destruct r; [..|done]; destruct (destroy s1) as [s2 r2]; cbn in Hd; by subst r2. }
  split.
  - intros ts s1 r Hr. cbv zeta. rewrite (Hlife _ _ _ Hr). destruct (Hend _ _ _ Hr) as [-> Hd]. by destruct r.
  - intros ts1 tn b ts2 Ht Hinit Hq1 Ha Hq2 Hlen. pose proof (run_ends ts1 tn b ts2 s Ht Hrun Hinit Hq1 Ha Hq2 Hlen) as Hnf.
    destruct (run _ _ _ _ _ s) as [s1 r] eqn:Hr. rewrite (Hlife _ _ _ Hr). cbn in Hnf. destruct r; [done..|by destruct (Hnf f)].
Qed.
End ending.

(** * Witnesses *)

Module Demo.

(** A machine whose database cannot be reached the first [down_] times. *)
Record host := mk_host { now_ : Z; down_ : nat; config_ : xml; log_ : list message }.

#[export] Instance host_db : DbServer host := {|
  steady_ms := now_;
  sleep_seconds := fun n w => mk_host (now_ w + 1000 * n) (down_ w) (config_ w) (log_ w);
  open_database := fun _ w =>
    match down_ w with
    | O => (w, Ret tt)
    | S n => (mk_host (now_ w) n (config_ w) (log_ w), Throw (OdbException "unreachable"))
    end;
  schema_version := fun w => (w, Ret 1);
  current_version := Ret 1;
  create_schema := fun w => (w, Ret tt);
  migrate := fun _ w => (w, Ret tt);
  populate_default_db := fun w => (w, Ret tt);
|}.

#[export] Instance host_laws : DbServerLaws host.
Proof.
  split; cbn; try lia; try done.
  - intros tg w. destruct (down_ w); cbn; lia.
  - intros tg w f. by destruct (down_ w).
Qed.

#[export] Instance host_plugins : Plugins host xml := {|
  file_exists := fun _ _ => Ret true;
  lib_open := fun _ _ => true;
  exported_name := fun lib _ => Ret lib;
  start_module := fun _ _ w => (w, Ret tt);
  stop_actor := fun _ _ w => w;
  write_text := fun _ _ w => (w, true);
  tree_xml := fun _ => "";
|}.

#[export] Instance host_machine : Machine host xml := {|
  read_xml := fun name w => if String.eqb name "cfg" then Ret (config_ w) else Throw (PtreeError name);
  publish := fun m w => mk_host (now_ w) (down_ w) (config_ w) (log_ w ++ [m]);
  configure_rest := fun _ w => (w, Ret tt);
|}.

Definition db_section : xml := Node "" [("type", leaf "sqlite"); ("path", leaf "db")].
Definition config (sections : list (string * xml)) : xml :=
  Node "" [("kernel", Node "" (("instance_name", leaf "unit") :: ("plugin_directories", Node "" []) :: ("modules", Node "" []) :: sections))].
Definition booting (down : nat) (sections : list (string * xml)) : host := mk_host 0 down (config sections) [].

Definition no_tasks (s : t host xml) : t host xml * outcome unit := (s, Ret tt).

Lemma database_wait_witness : (wait_for_database 302 false db_section (steady_ms (booting 500 [])) 1 (booting 500 [])).2 <> Fault OutOfFuel.
Proof. apply (database_wait_ends 302 false db_section (booting 500 [])). vm_compute. lia. Defined.

(** Two attempts that fail, with waits of one and two seconds. *)
Definition after_two : host := mk_host 3000 0 (config []) [].
Lemma two_fail : failing db_section 0 1 (booting 2 []) [1; 2] 4 after_two.
Proof.
  eapply failing_more; [vm_compute; reflexivity|vm_compute; reflexivity|done|done|].
  eapply failing_more; [vm_compute; reflexivity|vm_compute; reflexivity|done|done|]. apply failing_none.
Qed.
Lemma retries_witness : wait_for_database 5 false db_section 0 1 (booting 2 []) = (after_two, Ret tt).
Proof.
  apply (retries_back_off db_section (booting 2 []) [1; 2] 4 after_two 5 two_fail); [cbn; lia|vm_compute; reflexivity|vm_compute; reflexivity].
Defined.

Definition demo_services : ServiceRegistry.t :=
  match register_core_services true with Ret r => r | _ => ServiceRegistry.empty end.
Lemma core_services_witness : ServiceRegistry.use_count DBService demo_services = Ret 1 /\
  unregister_core_services true (ServiceRegistry.set_clients O 2 demo_services) = Fault AssertFailed.
Proof. apply (core_services_end demo_services); reflexivity. Defined.

Definition term : turn := mk_turn [SigTerm] None.
(** Tasks that take a millisecond each turn. *)
Definition tick_tasks (s : t host xml) : t host xml * outcome unit :=
  let w := world s in (set_kernel (set_outside (mk_host (now_ w + 1) (down_ w) (config_ w) (log_ w)) (kernel_ s)) s, Ret tt).

Lemma no_database_witness :
  (life tick_tasks (fun w => w) "" "" 10 false "cfg"
     ([mk_turn [SigHup] None] ++ term :: repeat (mk_turn [] None) 5000) (booting 0 [])).2 = Fault AssertFailed.
Proof.
  assert (Hend : forall w' cfg s, make_config "cfg" (booting 0 []) = Ret cfg -> get_child_optional cfg "database" = None ->
    make (W := host) (T := xml) 10 false cfg (booting 0 []) = (w', Ret s) -> (module_manager_init (kernel_ s)).2 = Ret tt ->
    (life tick_tasks (fun w => w) "" "" 10 false "cfg"
      ([mk_turn [SigHup] None] ++ term :: repeat (mk_turn [] None) 5000) (booting 0 [])).2 = Fault AssertFailed).
  { intros w' cfg s Hcfg Hdb Hmake Hinit.
    apply (no_database_end_aborts tick_tasks (fun w => w) "" "" (fun s => eq_refl) 10 false "cfg" (booting 0 []) w' cfg s Hcfg Hdb Hmake) with (b := false).
    - intros s0. eexists. split; [reflexivity|]. split; [reflexivity|]. cbn. lia.
    - intros f. rewrite Hinit. discriminate.
    - repeat constructor.
    - constructor.
    - apply Forall_forall. intros tn Htn. apply list_elem_of_In, repeat_spec in Htn as ->. split; [reflexivity|constructor].
    - rewrite repeat_length. lia. }
  eapply Hend; [reflexivity|reflexivity|vm_compute; reflexivity|vm_compute; reflexivity].
Defined.

Definition started : t host xml :=
  match make 10 false (Node "" [("instance_name", leaf "unit"); ("kernel-cfg", leaf "cfg")]) (booting 0 []) with
  | (_, Ret s) => s
  | _ => mk (mk_kernel (ConfigManager.mk ∅ (leaf "") 0 "") [] [] ∅ true false (booting 0 [])) false ServiceRegistry.empty false false []
  end.
Lemma main_loop_witness : exists s',
  main_loop no_tasks (fun w => w) "" "" ([mk_turn [SigHup] None] ++ mk_turn [] (Some [FStr "RESTART"]) :: [term]) started = (s', Ret [term]) /\
  flags s' = (false, true).
Proof.
  apply (main_loop_ends no_tasks (fun w => w) "" "" [mk_turn [SigHup] None] (mk_turn [] (Some [FStr "RESTART"])) true [term] started).
  - intros s. by exists s.
  - repeat constructor.
  - constructor.
  - vm_compute. reflexivity.
Defined.
End Demo.
