(* ===== verification/Replication.v ===== *)
(** The replication module, [src/modules/replication/ReplicationModule.cpp]: from
    time to time it compares the version of its unit's configuration with that of
    a master, and synchronises when the master's is newer.

    The two versions are fetched by tasks the module waits for; here they are read
    at once. Times are in nanoseconds. *)
From Stdlib Require Import ZArith Lia Ascii String.
From stdpp Require Import base tactics numbers list strings gmap.
From S2P Require Import Prelude Facades Ptree Trees Config Wiegand Modules Tasks Remote Sync.

Open Scope Z_scope.

Module ReplicationModule.

(** [last_sync_]: [None] is [TimePoint::max()], before the first attempt. *)
Record t := mk { delay_ : Z; endpoint_ : string; pubkey_ : string; last_sync_ : option Z }.

Section module.
Context {W T : Type} `{Plugins W T, !Remotes W} `{MutableTree T}.
Abbreviation system := (sys job (world_of W T)).

Definition make (config : T) : outcome t :=
  module_config ← get_child config "module_config";
  let delay := get_default as_int module_config "delay" 120 in
  endpoint ← get as_string module_config "endpoint";
  pubkey ← get as_string module_config "pubkey";
  Ret (mk delay endpoint pubkey None).

Definition fetch_local_version (s : system) : Z := ConfigManager.config_version (config_manager (unit_ (world s))).

Definition fetch_remote_version (m : t) : system -> system * outcome (option Z) := fun s =>
  let k := unit_ (world s) in
  let '((w, _), r) := RemoteConfigCollector.fetch_remote_config_version (outside k, RemoteConfigCollector.build (T := T) (endpoint_ m) (pubkey_ m)) in
  (set_world (mk_world (set_outside w k) (collectors (world s)) (sent (world s))) s, r).

(** The task that fetches, and the one that synchronises when it succeeds. *)
Definition start_sync (m : t) (s : system) : system :=
  let fetch_task := fresh_id s in
  let '(s, _) := make_task (Task.build (FetchRemoteConfig fetch_task)) s in
  let s := set_world (mk_world (unit_ (world s))
             (<[fetch_task := RemoteConfigCollector.build (endpoint_ m) (pubkey_ m)]> (collectors (world s))) (sent (world s))) s in
  let '(s, sync_task) := make_task (Task.build (RunSync (SyncConfig.mk true true) fetch_task)) s in
  let s := update_task (Task.set_on_success (EnqueueTask sync_task MAIN)) fetch_task s in
  enqueue fetch_task POOL s.

Definition replicate (m : t) (s : system) : system * outcome unit :=
  let local := fetch_local_version s in
  match fetch_remote_version m s with
  | (s, Ret (Some remote)) => (if local <? remote then start_sync m s else s, Ret tt)
  | (s, Ret None) => (s, Ret tt)
  | (s, Throw e) => (s, Throw e)
  | (s, Fault f) => (s, Fault f)
  end.

Definition elapsed (now last : Z) : Z := Z.quot (now - last) 1000000000.
Definition due (now : Z) (m : t) : bool :=
  match last_sync_ m with None => true | Some last => delay_ m <? elapsed now last end.

(** One turn of [run]; [now'] is the time when the attempt is over. *)
Definition turn (now now' : Z) (m : t) (s : system) : system * outcome t :=
  if due now m then
    match replicate m s with
    | (s, Ret _) => (s, Ret (mk (delay_ m) (endpoint_ m) (pubkey_ m) (Some now')))
    | (s, Throw e) => (s, Throw e)
    | (s, Fault f) => (s, Fault f)
    end
  else (s, Ret m).

(** [run], with the times of the turns: the turns at which it tried. *)
Fixpoint run (times : list (Z * Z)) (m : t) (s : system) : system * outcome (list (Z * Z)) :=
  match times with
  | [] => (s, Ret [])
  | (now, now') :: times =>
      match turn now now' m s with
      | (s, Ret m') =>
          match run times m' s with
          | (s, Ret l) => (s, Ret (if due now m then (now, now') :: l else l))
          | r => r
          end
      | (s, Throw e) => (s, Throw e)
      | (s, Fault f) => (s, Fault f)
      end
  end.

(** ** Properties *)

(** Each attempt begins more than the delay after the one before has ended. *)
Fixpoint spaced (delay : Z) (last : option Z) (l : list (Z * Z)) : Prop :=
  match l with
  | [] => True
  | (now, now') :: l => match last with Some t => delay < elapsed now t | None => True end /\ spaced delay (Some now') l
  end.

(** (bounds) The master is asked at the first turn, and then more than the
    configured delay after the attempt before, whatever the turns of the loop and
    the results of the attempts. *)
Theorem attempts_spaced m s times s' l :
  run times m s = (s', Ret l) -> spaced (delay_ m) (last_sync_ m) l /\
  (last_sync_ m = None -> head l = head times).
Proof.
  revert m s s' l. induction times as [|[now now'] times IH]; intros m s s' l; cbn [run]; [by intros [= _ <-]|].
  unfold turn. destruct (due now m) eqn:Hdue.
  - destruct (replicate m s) as [s1 [[]|e|f]]; [|done..]. destruct (run times _ s1) as [s2 [l2|e|f]] eqn:Hr; [|done..].
    intros [= _ <-]. destruct (IH _ _ _ _ Hr) as [Hs _]. split; [|done]. split; [|exact Hs].
    unfold due in Hdue. destruct (last_sync_ m); [by apply Z.ltb_lt|done].
  - destruct (run times m s) as [s2 [l2|e|f]] eqn:Hr; [|done..]. intros [= _ <-]. destruct (IH _ _ _ _ Hr) as [Hs Hh].
    split; [done|]. intros Hn. unfold due in Hdue. by rewrite Hn in Hdue.
Qed.

(** (functional) An attempt starts a synchronisation exactly when the master answers
    with a newer version: then one thread has to fetch, and when it succeeds the
    main thread synchronises everything and commits. Otherwise nothing is to be
    run. *)
Theorem replicates_newer m s w c r :
  RemoteConfigCollector.get_remote_config_version (outside (unit_ (world s)), RemoteConfigCollector.build (T := T) (endpoint_ m) (pubkey_ m)) = ((w, c), r) ->
  (forall f, r <> Fault f) ->
  exists s', replicate m s = (s', Ret tt) /\ queue s' = queue s /\ outside (unit_ (world s')) = w /\
    config_manager (unit_ (world s')) = config_manager (unit_ (world s)) /\
    ((exists v, r = Ret v /\ fetch_local_version s < v) ->
       exists f t, pool s' = pool s ++ [f] /\ collectors (world s') !! f = Some (RemoteConfigCollector.build (endpoint_ m) (pubkey_ m)) /\
         tasks s' !! f = Some (Task.set_on_success (EnqueueTask t MAIN) (Task.build (FetchRemoteConfig f))) /\
         tasks s' !! t = Some (Task.build (RunSync (SyncConfig.mk true true) f))) /\
    (~ (exists v, r = Ret v /\ fetch_local_version s < v) -> pool s' = pool s /\ tasks s' = tasks s).
Proof.
  intros Hr Hf. unfold replicate, fetch_remote_version, RemoteConfigCollector.fetch_remote_config_version. rewrite Hr.
  destruct r as [v|e|f]; [|eexists; split; [reflexivity|]; split_and!; try done; by intros (v & ? & _)|by specialize (Hf f)].
  destruct (Z.ltb_spec (fetch_local_version s) v) as [Hlt|Hge].
  - eexists. split; [reflexivity|]. unfold start_sync.
    set (s1 := set_world _ s).
    destruct (make_task_new (Task.build (FetchRemoteConfig (fresh_id s1))) s1) as (t0 & N0 & F0 & ->). rewrite F0.
    match goal with |- context [make_task ?k ?x] => destruct (make_task_new k x) as (t1 & N1 & _ & ->) end.
    cbn in N1. rewrite lookup_insert_None in N1. destruct N1 as [_ N1]. split_and!; try done.
    + intros _. exists t0, t1. split; [done|]. cbn. split_and!; by simplify_map_eq.
    + intros Hn. exfalso. apply Hn. by exists v.
  - eexists. split; [reflexivity|]. split_and!; try done. intros (v' & [= <-] & Hlt). lia.
Qed.

End module.
End ReplicationModule.

(** * Witnesses *)

Module Demo.
Import ReplicationModule.

Definition demo_module : t := mk 120 "tcp://far" "pk" None.

(** The far unit of Sync.v has version 7, ours 3. *)
Lemma replicates_witness : exists s', replicate demo_module quiet_system = (s', Ret tt) /\ pool s' <> [].
Proof.
  destruct (replicates_newer demo_module quiet_system [] (RemoteConfigCollector.build "tcp://far" "pk") (Ret 7))
    as (s' & Hr & _ & _ & _ & Hn & _); [vm_compute; reflexivity|done|].
  exists s'. split; [exact Hr|]. destruct Hn as (f & t & -> & _); [by exists 7|done].
Defined.

Lemma attempts_witness : exists s', run [(0, 5); (6, 7)] demo_module quiet_system = (s', Ret [(0, 5)]) /\ spaced 120 None [(0, 5)].
Proof.
  eexists. split; [vm_compute; reflexivity|].
  eapply (attempts_spaced demo_module quiet_system [(0, 5); (6, 7)]). vm_compute. reflexivity.
Defined.
End Demo.
