(* ===== verification/Queries.v ===== *)
(** The methods of the WebSocket API that search and list, under
    [src/modules/websock-api/api/]: [search/], [AuditGet.cpp] with the serializers
    of [src/core/audit/serializers/], [LogGet.cpp] with [src/tools/LogEntry.cpp],
    [AccessOverview.cpp], and the reading and creation of users of [UserCRUD.cpp]
    with [src/core/auth/serializers/UserSerializer.cpp].

    The database runs the queries: its LIKE, and the results of the SQL texts the
    code builds, are parameters. *)
From Stdlib Require Import ZArith Lia Ascii String.
From stdpp Require Import base tactics numbers list strings gmap.
From S2P Require Import Prelude Json AuditLog Users Credentials Schedules Security Session Api Zones Resources.

Open Scope Z_scope.

Definition int_max : Z := 2 ^ 31 - 1.

(** The product of two [int]s. *)
Definition int_mul (a b : Z) : outcome Z :=
  if (- int_max - 1 <=? a * b) && (a * b <=? int_max) then Ret (a * b) else Fault Overflow.

(** A [std::set] ordered by a key. *)
Fixpoint set_insert {E} (key : E -> Z) (e : E) (s : list E) : list E :=
  match s with
  | [] => [e]
  | x :: s' => if key e <? key x then e :: s else if key e =? key x then s else x :: set_insert key e s'
  end.

(** * Searches *)

(** [std::toupper] in the C locale. *)
Definition toupper (c : ascii) : ascii := if islower c then chr (code c - 32) else c.

Module EntitySearchTool.
Section search.
Context {D E : Type} `{Table D E} {J : Type} `{Json J}.
(** The column, the key of the reply that has its name, and the LIKE of the
    database: a text and a pattern. *)
Context (label : E -> string) (field : string) (like : string -> string -> bool).

(** [std::set::insert] with a comparator that asserts that the ids are set. *)
Definition insert (s : list E) (e : E) : outcome (list E) :=
  match s with
  | [] => Ret [e]
  | _ => _ ← cassert (forallb (fun x => negb (row_id x =? 0)) (e :: s)); Ret (set_insert row_id e s)
  end.

Definition matches (partial : string) (e : E) : bool := like (label e) ("%" +:+ partial +:+ "%").

Definition search_and_append (d : D) (entities : list E) (partial : string) : outcome (list E) :=
  foldM insert entities (List.filter (matches partial) (rows d)).

(** The text with each of its letters, one at a time, a capital. *)
Definition variants (partial : string) : list string :=
  map (fun i => text (alter toupper i (chars partial))) (seq 0 (length (chars partial))).

Definition search (partial : string) (d : D) : outcome (list E) :=
  foldM (search_and_append d) [] (partial :: variants partial).

Definition build_json_entry (entity : E) : J :=
  json_object [("id", json_number (row_id entity)); (field, json_string (label entity))].

Definition search_json (partial : string) (d : D) : outcome J :=
  l ← search partial d; Ret (array_or_null (map build_json_entry l)).

(** [process_impl] of the searches made with the tool. *)
Definition process (req : J) : api D J :=
  partial ← lift (j ← at_ req "partial_name"; get_string j);
  d ← get_db;
  transaction (lift (search_json partial d)).

(** [process_impl] of the searches written out: the text itself comes last, and
    no result is an empty array. *)
Definition search_last (partial : string) (d : D) : outcome (list E) :=
  foldM (search_and_append d) [] (variants partial ++ [partial]).

Definition process_last (req : J) : api D J :=
  transaction (
    partial ← lift (j ← at_ req "partial_name"; get_string j);
    d ← get_db;
    l ← lift (search_last partial d);
    mret (json_array (map build_json_entry l))).

End search.
End EntitySearchTool.

Module CredentialSearch.
Section search.
Context {D : Type} `{Table D credential} {J : Type} `{Json J}.
Context (like : string -> string -> bool).

Definition alias (c : credential) : string := Credential.alias_ (base c).

(** A result is loaded by its id before it is inserted. *)
Definition load_and_insert (d : D) (s : list credential) (c : credential) : outcome (list credential) :=
  match find_row (row_id c) d with Some c => EntitySearchTool.insert s c | None => Throw ObjectNotPersistent end.
Definition search_and_load (d : D) (s : list credential) (partial : string) : outcome (list credential) :=
  foldM (load_and_insert d) s (List.filter (EntitySearchTool.matches alias like partial) (rows d)).
Definition search (partial : string) (d : D) : outcome (list credential) :=
  foldM (search_and_load d) [] (EntitySearchTool.variants partial ++ [partial]).

Definition entry (c : credential) : outcome J :=
  type ← ScheduleMappingJSON.type_name c;
  Ret (json_object [("id", json_number (row_id c)); ("alias", json_string (alias c)); ("type", json_string type)]).

Definition process (req : J) : api D J :=
  transaction (
    partial ← lift (j ← at_ req "partial_name"; get_string j);
    d ← get_db;
    l ← lift (search partial d);
    js ← mapA (fun c => lift (entry c)) l;
    mret (json_array js)).

End search.
End CredentialSearch.

(** * The audit log *)

(** An entry as it is read from the database. *)
Module AuditRow.
Inductive details :=
  | UserEvent (target : Z) (before after : string)
  | ScheduleEvent (target : Z) (before after : string)
  | GroupEvent (target : Z) (before after : string)
  | CredentialEvent (target : Z) (before after : string)
  | DoorEvent (target : Z) (before after : string)
  | ZoneEvent (target : Z) (before after : string)
  | AuthEvent (credential_id : Z) (credential_raw door : string)
  | UserGroupMembershipEvent (target_user target_group : Z)
  | UpdateEvent (target : Z)
  | WSAPICall (uuid method status_string : string) (status_code : Z) (source_endpoint : string)
  | AccessPointEvent (target : Z) (before after : string)
  | ModuleEvent (type_index : string).

Record t := mk {
  id_ : Z;
  event_mask_ : Z;
  timestamp_ : Z;
  description_ : string;
  finalized_ : bool;
  author_id : Z;
  details_ : details;
}.
End AuditRow.

Module AuditSerializer.
Import AuditRow.
Section serializer.
Context {D : Type} `{Odb D} {J : Type} `{Json J}.
(** [Audit::Serializer::JSONService]: what the modules registered. *)
Context (service : AuditRow.t -> option J).

(** [AuditJSON::serialize], with the type, the attributes and the relationships
    the serializer of the kind sets afterwards. *)
Definition serialized (in_ : AuditRow.t) (type : string) (attributes relationships : list (string * J)) : J :=
  let author := if author_id in_ =? 0 then []
                else [("author", data_reply (reference (author_id in_) "user"))] in
  json_object ([("id", json_number (id_ in_)); ("type", json_string type);
    ("attributes", json_object ([("event-mask", json_number (event_mask_ in_));
        ("timestamp", json_number (timestamp_ in_)); ("description", json_string (description_ in_));
        ("finalized", json_bool (finalized_ in_))] ++ attributes))] ++
    match author ++ relationships with [] => [] | l => [("relationships", json_object l)] end).

Definition target (id : Z) (type : string) : list (string * J) := [("target", json_array [reference id type])].

(** What was there before and after, for those who may read it. *)
Definition full_texts (hdl : Z) (before after : string) : api D (list (string * J)) :=
  full ← permitted hdl SecurityContext.AUDIT_READ_FULL SecurityContext.no_param;
  mret (if (full : bool) then [("before", json_string before); ("after", json_string after)] else []).

Definition with_texts (hdl : Z) (in_ : AuditRow.t) (type : string) (id : Z) (target_type before after : string) : api D J :=
  texts ← full_texts hdl before after;
  mret (serialized in_ type texts (target id target_type)).

(** [cannot_visit]. *)
Definition cannot_visit (in_ : AuditRow.t) : api D J :=
  lift (match service in_ with Some j => Ret j | None => Fault AssertFailed end).

(** The serializers of the kinds of entries, [*EventJSON::serialize]. *)
Definition user_event (hdl : Z) (in_ : AuditRow.t) i b a := with_texts hdl in_ "audit-user-event" i "user" b a.
Definition schedule_event (hdl : Z) (in_ : AuditRow.t) i b a := with_texts hdl in_ "audit-schedule-event" i "schedule" b a.
Definition group_event (hdl : Z) (in_ : AuditRow.t) i b a := with_texts hdl in_ "audit-group-event" i "group" b a.
Definition credential_event (hdl : Z) (in_ : AuditRow.t) i b a := with_texts hdl in_ "audit-credential-event" i "credential" b a.
Definition door_event (hdl : Z) (in_ : AuditRow.t) i b a := with_texts hdl in_ "audit-door-event" i "door" b a.
Definition zone_event (hdl : Z) (in_ : AuditRow.t) i b a := with_texts hdl in_ "audit-zone-event" i "zone" b a.

Definition auth_event (in_ : AuditRow.t) (credential_id : Z) (credential_raw door : string) : J :=
  serialized in_ "audit-auth-event" []
    [("credential", json_array [json_object [("id", json_number credential_id); ("raw", json_string credential_raw)]]);
     ("door", json_array [json_object [("id", json_string door)]])].
Definition membership_event (in_ : AuditRow.t) (target_user target_group : Z) : J :=
  serialized in_ "audit-user-group-membership-event" []
    [("target-user", json_array [reference target_user "user"]); ("target-group", json_array [reference target_group "group"])].
Definition update_event (in_ : AuditRow.t) (i : Z) : J := serialized in_ "audit-update-event" [] (target i "update").
Definition wsapicall (in_ : AuditRow.t) (uuid method status_string : string) (status_code : Z) (source_endpoint : string) : J :=
  serialized in_ "audit-wsapicall-event"
    [("uuid", json_string uuid); ("method", json_string method); ("status-string", json_string status_string);
     ("status-code", json_number status_code); ("source-endpoint", json_string source_endpoint)] [].

(** [PolymorphicAuditJSON::serialize]: access point events have no visitor. *)
Definition serialize (hdl : Z) (in_ : AuditRow.t) : api D J :=
  match details_ in_ with
  | UserEvent i b a => user_event hdl in_ i b a
  | ScheduleEvent i b a => schedule_event hdl in_ i b a
  | GroupEvent i b a => group_event hdl in_ i b a
  | CredentialEvent i b a => credential_event hdl in_ i b a
  | DoorEvent i b a => door_event hdl in_ i b a
  | ZoneEvent i b a => zone_event hdl in_ i b a
  | AuthEvent i raw door => mret (auth_event in_ i raw door)
  | UserGroupMembershipEvent u g => mret (membership_event in_ u g)
  | UpdateEvent i => mret (update_event in_ i)
  | WSAPICall u m ss sc e => mret (wsapicall in_ u m ss sc e)
  | AccessPointEvent _ _ _ | ModuleEvent _ => cannot_visit in_
  end.

End serializer.
End AuditSerializer.

(** What the database answers to the texts of the queries of [AuditGet]. *)
Class AuditTable (D : Type) := {
  count_entries : string -> D -> outcome Z;
  query_entries : string -> D -> outcome (list AuditRow.t);
}.

Definition invalid_argument (name : string) (value : Z) (cond what : string) : exn :=
  LEOSACException ("Invalid Argument " +:+ name +:+ ". Value was " +:+ to_string value +:+ ". Condition was " +:+ cond +:+
    ". Friendly " +:+ what).

(** [std::isalpha] in the C locale. *)
Definition isalpha (c : ascii) : bool := isupper c || islower c.

Module AuditGet.
Section audit.
Context {D : Type} `{Odb D, AuditTable D} {J : Type} `{Json J}.
Context (service : AuditRow.t -> option J).

Definition is_stringtype_sane (str : string) : bool := forallb (fun c => Ascii.eqb c ":" || isalpha c) (chars str).

(** The loop over the types, with what is between the quoted ones. *)
Fixpoint quoted_types (l : list J) : outcome string :=
  match l with
  | [] => Ret ""
  | j :: l =>
      enabled_type ← get_string j;
      _ ← enforce (is_stringtype_sane enabled_type) (LEOSACException ("Audit type string is invalid: " +:+ enabled_type));
      rest ← quoted_types l;
      Ret ("'" +:+ enabled_type +:+ "'" +:+ match l with [] => "" | _ => "," end +:+ rest)
  end.

(** The types asked for, when they are a list that is not empty. *)
Definition enabled_types (req : J) : list J :=
  match find_ req "enabled_type" with Some j => if is_array j then elements j else [] | None => [] end.

Definition build_in_clause (req : J) : outcome string :=
  match enabled_types req with
  | [] => Ret "1 = 1"
  | l => types ← quoted_types l; Ret ("WHERE typeid IN (" +:+ types +:+ ")")
  end.

Definition page_text (page_size offset : Z) : string :=
  " ORDER BY id DESC LIMIT " +:+ to_string page_size +:+ " OFFSET " +:+ to_string offset.

Definition build_request_string (req : J) (page page_size : Z) : outcome string :=
  clause ← build_in_clause req;
  offset ← int_mul page_size (page - 1);
  Ret (clause +:+ page_text page_size offset).

Definition total_page (count page_size : Z) : Z :=
  count / page_size + (if count mod page_size =? 0 then 0 else 1).

(** The entries of a page. *)
Definition page_entries (req : J) (page page_size : Z) (d : D) : outcome (list AuditRow.t) :=
  query ← build_request_string req page page_size; query_entries query d.

Definition process (hdl : Z) (req : J) : api D J :=
  page ← lift (JSONUtil.extract_with_default get_int req "p" 1);
  page_size ← lift (JSONUtil.extract_with_default get_int req "ps" 20);
  _ ← lift (enforce (0 <? page) (invalid_argument "page" page "page > 0" "Page must be >0"));
  _ ← lift (enforce (0 <? page_size) (invalid_argument "page_size" page_size "page_size > 0" "Page size must be >0"));
  transaction (
    d ← get_db;
    count ← lift (clause ← build_in_clause req; count_entries clause d);
    entries ← lift (page_entries req page page_size d);
    data ← mapA (AuditSerializer.serialize service hdl) entries;
    mret (json_object [
      ("meta", json_object [("count", json_number count);
         ("total_page", json_number (if count =? 0 then 0 else total_page count page_size))]);
      ("data", json_array data)])).

End audit.
End AuditGet.

(** * The log *)

Module LogEntry.
Record t := mk { id_ : Z; timestamp_ : Z; msg_ : string }.
Record QueryResult := mk_result { entries : list t; total : Z; last : Z; first : Z }.
End LogEntry.

(** The databases the code knows, and what they answer: so many entries from an
    offset, and how many there are. *)
Inductive database_kind := id_sqlite | id_pgsql | id_other.
Class LogTable (D : Type) := {
  kind_of : D -> database_kind;
  fetch_log : bool -> Z -> Z -> D -> outcome (list LogEntry.t);
  log_count : D -> Z;
}.

Module LogGet.
Section log.
Context {D : Type} `{Odb D, LogTable D} {J : Type} `{Json J}.

(** [fetch_sqlite] and [fetch_pgsql]; no entry of another database. *)
Definition fetch (d : D) (order_asc : bool) (page_size offset : Z) : outcome (list LogEntry.t) :=
  match kind_of d with id_sqlite | id_pgsql => fetch_log order_asc page_size offset d | id_other => Ret [] end.

(** [LogEntry::retrieve]. *)
Definition retrieve (d : D) (page_number page_size : Z) (order_asc : bool) : outcome LogEntry.QueryResult :=
  offset ← int_mul page_number page_size;
  res ← fetch d order_asc page_size offset;
  Ret (LogEntry.mk_result res (log_count d) (log_count d / page_size) 0).

Definition entry (e : LogEntry.t) : J :=
  json_object [("id", json_number (LogEntry.id_ e)); ("type", json_string "log-message");
    ("attributes", json_object [("message", json_string (LogEntry.msg_ e)); ("timestamp", json_number (LogEntry.timestamp_ e))])].

Definition process (req : J) : api D J :=
  sort ← lift (JSONUtil.extract_with_default get_string req "sort" "desc");
  p ← lift (JSONUtil.extract_with_default get_int req "p" 0);
  ps ← lift (JSONUtil.extract_with_default get_int req "ps" 20);
  let ps := if ps <=? 0 then 1 else ps in
  d ← get_db;
  result ← transaction (lift (retrieve d p ps (String.eqb sort "asc")));
  mret (json_object [("data", json_array (map entry (LogEntry.entries result)));
    ("meta", json_object [("total", json_number (LogEntry.total result)); ("last", json_number (LogEntry.last result));
                          ("first", json_number (LogEntry.first result))]);
    ("status", json_number 0)]).

End log.
End LogGet.

(** * Who may open what *)

Module AccessOverview.
Section overview.
Context {D : Type} `{Odb D, !Table D DoorRow.t, !Table D User.t} {J : Type} `{Json J}.

Definition has_user_indirect (d : D) (u : User.t) (m : ScheduleMapping.t) : bool :=
  ScheduleMapping.has_user_indirect (User.id_ u) (group_memberships (view d) (User.id_ u))
    (lazy_credentials (view d) (User.id_ u)) m.

(** The loop over the users, for a mapping of the door. *)
Definition add_users (d : D) (users : list User.t) (ids : list Z) (m : ScheduleMapping.t) : list Z :=
  foldl (fun ids u => if existsb (Z.eqb (User.id_ u)) ids then ids
                      else if has_user_indirect d u m then set_insert id (User.id_ u) ids else ids) ids users.

Definition user_ids (d : D) (door : DoorRow.t) : list Z :=
  foldl (add_users d (rows d)) [] (default [] (find_door (view d) (DoorRow.id_ door))).

Definition door_info (d : D) (door : DoorRow.t) : J :=
  json_object [("door_id", json_number (DoorRow.id_ door)); ("user_ids", json_array (map json_number (user_ids d door)))].

Definition process (_ : J) : api D J :=
  transaction (d ← get_db; mret (array_or_null (map (door_info d) (rows d)))).

End overview.
End AccessOverview.

(** * Reading and creating users *)

(** What the mapper gives besides the row of a user: the ids of the memberships
    and of the schedules of the mappings the user appears in, and the version. *)
Class UserLinks (D : Type) := {
  membership_ids : Z -> D -> list Z;
  user_schedules : Z -> D -> list Z;
  user_version : Z -> D -> Z;
}.

Module UserReads.
Section users.
Context {D : Type} `{Odb D, !Table D User.t, !Table D credential, !UserLinks D} {J : Type} `{Json J}.
Context (libscrypt_scrypt : list Z -> list Z -> ScryptParam -> option (list Z)).
Context (parse_date : string -> option Z) (format_date : Z -> string).

(** References to what the session may read of a list. *)
Fixpoint readable_references (hdl : Z) (a : SecurityContext.Action) (param : Z -> SecurityContext.ActionParam)
    (make : Z -> api D J) (ids : list Z) : api D (list J) :=
  match ids with
  | [] => mret []
  | id :: ids =>
      ok ← permitted hdl a (param id);
      js ← (if (ok : bool) then j ← make id; mret [j] else mret []);
      rest ← readable_references hdl a param make ids;
      mret (js ++ rest)
  end.

Definition membership_param (id : Z) : SecurityContext.ActionParam :=
  SecurityContext.membership (SecurityContext.mk_membership id 0 0 GMEMBER).

Definition attributes (d : D) (user : User.t) : list (string * J) :=
  [("version", json_number (user_version (User.id_ user) d));
   ("username", json_string (User.username_ user));
   ("firstname", json_string (User.firstname_ user));
   ("lastname", json_string (User.lastname_ user));
   ("rank", json_number (user_rank_val (User.rank_ user)));
   ("validity-enabled", json_bool (ValidityInfo.is_enabled (User.validity_ user)));
   ("validity-start", json_string (format_date (ValidityInfo.start_ (User.validity_ user))));
   ("validity-end", json_string (format_date (ValidityInfo.end_ (User.validity_ user))))].

(** [UserJSONSerializer::serialize]. *)
Definition serialize (hdl : Z) (user : User.t) : api D J :=
  d ← get_db;
  memberships ← readable_references hdl SecurityContext.MEMBERSHIP_READ membership_param
    (fun id => mret (reference id "user-group-membership")) (membership_ids (User.id_ user) d);
  credentials ← readable_references hdl SecurityContext.CREDENTIAL_READ SecurityContext.cred
    ScheduleMappingJSON.credential_reference (lazy_credentials (view d) (User.id_ user));
  let schedules := map (fun id => reference id "schedule") (id_set (user_schedules (User.id_ user) d)) in
  _ ← lift (User.username user);
  email ← permitted hdl SecurityContext.USER_READ_EMAIL (SecurityContext.user (User.id_ user));
  mret (json_object [("id", json_number (User.id_ user)); ("type", json_string "user");
    ("attributes", json_object (attributes d user ++
       (if (email : bool) then [("email", json_string (User.email_ user))] else [])));
    ("relationships", json_object [("memberships", data_reply (array_or_null memberships));
       ("credentials", data_reply (array_or_null credentials)); ("schedules", data_reply (array_or_null schedules))])]).

(** [create_impl]; the reply is made when the new user is committed. *)
Definition create (hdl : Z) (salt : list Z) (req : J) : api D J :=
  new_user ← transaction (
    attributes ← lift (at_ req "attributes");
    name ← lift (j ← at_ attributes "username"; get_string j);
    new_user ← lift (User.set_username name (User.make 0));
    d ← get_db;
    username ← lift (User.username new_user);
    if bool_decide (is_Some (query_username d username)) then
      throw (ModelException "data/attributes/username" ("The username " +:+ username +:+ " is already in use."))
    else
      x ← session hdl;
      new_user ← lift (UserCRUD.unserialize libscrypt_scrypt parse_date (APISession.check_permission d x) salt new_user attributes);
      new_user ← change_row (persist_row new_user);
      _ ← audit_row (User.id_ new_user) USER_CREATED;
      mret new_user);
  j ← serialize hdl new_user;
  mret (data_reply j).

(** [read_impl]: every user is listed. *)
Definition read (hdl : Z) (req : J) : api D J :=
  transaction (
    uid ← lift (id_of "user_id" req);
    d ← get_db;
    if negb (uid =? 0) then
      user ← lift (DBService.find_user_by_id (view d) uid);
      j ← serialize hdl user;
      mret (data_reply j)
    else
      js ← mapA (serialize hdl) (rows d);
      mret (data_reply (json_array js))).

End users.
End UserReads.

(** * The methods together *)

Section methods.
Context {D : Type} `{Odb D, !Table D Zone.t, !Table D DoorRow.t, !Table D AccessPointRow.t, !Table D Group.t,
  !Table D User.t, !Table D credential, !Table D ScheduleRow.t, !AuditTable D, !LogTable D} {J : Type} `{Json J}.
Context (like : string -> string -> bool) (service : AuditRow.t -> option J).

(** [process_impl] of the searches. *)
Definition group_search : J -> api D J := EntitySearchTool.process_last Group.name_ "name" like.
Definition door_search : J -> api D J := EntitySearchTool.process_last DoorRow.alias_ "alias" like.
Definition access_point_search : J -> api D J := EntitySearchTool.process_last AccessPointRow.alias_ "alias" like.
Definition schedule_search : J -> api D J := EntitySearchTool.process (fun r => Schedule.name_ (ScheduleRow.sched_ r)) "name" like.
Definition zone_search : J -> api D J := EntitySearchTool.process Zone.alias_ "alias" like.
Definition user_search : J -> api D J := EntitySearchTool.process User.username_ "username" like.

(** The methods modelled here, by their name in a request; [rest] has the others. *)
Definition query_method (rest : string -> Z -> J -> api D J) (type : string) (hdl : Z) (req : J) : api D J :=
  if String.eqb type "audit.get" then AuditGet.process service hdl req
  else if String.eqb type "get_logs" then LogGet.process req
  else if String.eqb type "search.group_name" then group_search req
  else if String.eqb type "search.door_alias" then door_search req
  else if String.eqb type "search.access_point_alias" then access_point_search req
  else if String.eqb type "search.schedule_name" then schedule_search req
  else if String.eqb type "search.zone_alias" then zone_search req
  else if String.eqb type "search.user_username" then user_search req
  else if String.eqb type "search.credential_alias" then CredentialSearch.process like req
  else if String.eqb type "access_overview" then AccessOverview.process req
  else rest type hdl req.

End methods.
