(* ===== verification/QuerySafety.v ===== *)
(** What the searching and listing methods of the WebSocket API guarantee: they
    change nothing, they find what they are asked, the SQL texts they build are
    not for their clients to write, pages hold every entry once, and nobody is
    shown what is not theirs to read. Theorems about [Queries]. *)
From Stdlib Require Import ZArith Lia Ascii String Sorting.Sorted.
From stdpp Require Import base tactics numbers list strings gmap pretty.
From S2P Require Import Prelude Json AuditLog Users Credentials Schedules Security Session Store Api ApiSafety Accounts Zones Resources Estate ResourceSafety Ptree Trees Queries.

Open Scope Z_scope.

(** * Sorted sets *)

Section set.
Context {E : Type} (key : E -> Z).

Lemma set_insert_In e x s : In x (set_insert key e s) -> x = e \/ In x s.
Proof.
  induction s as [|y s IH]; cbn [set_insert]; [intros [->|[]]; by left|].
  repeat case_match; cbn [In]; intros Hx; firstorder congruence.
Qed.

Lemma set_insert_has e s : exists x, In x (set_insert key e s) /\ key x = key e.
Proof.
  induction s as [|y s IH]; cbn [set_insert]; [exists e; cbn; auto|].
  case_match; [exists e; cbn; auto|]. case_match eqn:Hk; [exists y; cbn; split; [auto|]; apply Z.eqb_eq in Hk; lia|].
  destruct IH as (x & Hx & Hk'). exists x. cbn. auto.
Qed.

Lemma set_insert_keeps e x s : In x s -> In x (set_insert key e s).
Proof.
  induction s as [|y s IH]; cbn [set_insert In]; [done|]. intros [->|Hx]; repeat case_match; cbn [In]; auto.
Qed.

Lemma inserted_sorted e s : StronglySorted Z.lt (map key s) -> StronglySorted Z.lt (map key (set_insert key e s)).
Proof.
  induction s as [|y s IH]; cbn [set_insert map]; [intros _; repeat constructor|].
  intros Hs. apply StronglySorted_inv in Hs as [Hs Hy]. case_match eqn:H1; [|case_match eqn:H2]; cbn [map].
  - apply Z.ltb_lt in H1. constructor; [by constructor|]. constructor; [done|].
    eapply Forall_impl; [exact Hy|]. cbn. intros; lia.
  - by constructor.
  - constructor; [by apply IH|]. apply Forall_map, List.Forall_forall. intros x Hx.
    apply set_insert_In in Hx as [->|Hx]; cbn; [apply Z.ltb_ge in H1; apply Z.eqb_neq in H2; lia|].
    rewrite Forall_map, List.Forall_forall in Hy. by apply Hy.
Qed.
End set.

(** * Searches *)

Section search.
Context {D : Type} `{Odb D} {E : Type} `{!Table D E, !TableLaws D E}.
Context (label : E -> string) (like : string -> string -> bool).
Import EntitySearchTool.

Lemma row_nonzero (d : D) (e : E) : In e (rows d) -> row_id e <> 0.
Proof. intros He Hz. apply find_rows in He. rewrite Hz, find_zero in He. done. Qed.
Lemma row_unique (d : D) (e e' : E) : In e (rows d) -> In e' (rows d) -> row_id e = row_id e' -> e = e'.
Proof. intros He He' Hi. apply find_rows in He, He'. rewrite Hi in He. congruence. Qed.

Lemma insert_run (d : D) s (e : E) : Forall (fun x => In x (rows d)) s -> In e (rows d) ->
  insert s e = Ret (set_insert row_id e s).
Proof.
  intros Hs He. destruct s as [|x s]; [done|]. unfold insert. rewrite (proj2 (forallb_forall _ _)); [done|].
  intros y Hy. rewrite (proj2 (Z.eqb_neq _ _)); [done|]. apply (row_nonzero d).
  destruct Hy as [<-|Hy]; [done|]. rewrite List.Forall_forall in Hs. by apply Hs.
Qed.

(** Inserting rows one after the other. *)
Lemma inserts_run (d : D) l s : Forall (fun x => In x (rows d)) s -> Forall (fun x => In x (rows d)) l ->
  StronglySorted Z.lt (map row_id s) ->
  exists s', foldM insert s l = Ret s' /\ StronglySorted Z.lt (map row_id s') /\ forall e : E, In e s' <-> In e s \/ In e l.
Proof.
  revert s. induction l as [|x l IH]; intros s Hs Hl Hsort; cbn [foldM].
  - exists s. cbn. intuition.
  - apply Forall_cons in Hl as [Hx Hl]. rewrite (insert_run d), ret_bind by done.
    destruct (IH (set_insert row_id x s)) as (s' & Hr & Hs' & Hin).
    + apply List.Forall_forall. intros y Hy. apply set_insert_In in Hy as [->|Hy]; [done|].
      rewrite List.Forall_forall in Hs. by apply Hs.
    + done.
    + by apply inserted_sorted.
    + exists s'. split; [done|]. split; [done|]. intros e. rewrite Hin. cbn [In]. split.
      * intros [He|He]; [|auto]. apply set_insert_In in He as [->|He]; auto.
      * intros [He|[->|He]]; [left; by apply set_insert_keeps| |auto]. left.
        destruct (set_insert_has row_id e s) as (y & Hy & Hk). assert (y = e) as ->; [|done].
        apply (row_unique d); [|done..]. apply set_insert_In in Hy as [->|Hy]; [done|].
        rewrite List.Forall_forall in Hs. by apply Hs.
Qed.

Lemma filter_rows (f : E -> bool) (d : D) : Forall (fun x => In x (rows d)) (List.filter f (rows d)).
Proof. apply List.Forall_forall. intros x Hx. by apply filter_In in Hx as [? _]. Qed.

Lemma patterns_run (d : D) ps s : Forall (fun x => In x (rows d)) s -> StronglySorted Z.lt (map row_id s) ->
  exists s', foldM (search_and_append label like d) s ps = Ret s' /\ StronglySorted Z.lt (map row_id s') /\
    forall e : E, In e s' <-> In e s \/ (In e (rows d) /\ exists p, In p ps /\ matches label like p e = true).
Proof.
  revert s. induction ps as [|p ps IH]; intros s Hs Hsort; cbn [foldM].
  - exists s. split; [done|]. split; [done|]. cbn. naive_solver.
  - destruct (inserts_run d _ s Hs (filter_rows (matches label like p) d) Hsort) as (s1 & Hr & Hs1 & Hin1).
    change (search_and_append label like d s p) with (foldM insert s (List.filter (matches label like p) (rows d))).
    rewrite Hr, ret_bind. destruct (IH s1) as (s2 & Hr2 & Hs2 & Hin2); [|done|].
    + apply List.Forall_forall. intros x Hx. apply Hin1 in Hx as [Hx|Hx]; [rewrite List.Forall_forall in Hs; by apply Hs|].
      by apply filter_In in Hx as [? _].
    + exists s2. split; [done|]. split; [done|]. intros e. rewrite Hin2, Hin1, filter_In. cbn [In]. naive_solver.
Qed.

(** Sets ordered by id with the same rows are the same list. *)
Lemma sorted_unique (d : D) (l1 l2 : list E) : StronglySorted Z.lt (map row_id l1) -> StronglySorted Z.lt (map row_id l2) ->
  (forall e, In e l1 <-> In e l2) -> l1 = l2.
Proof.
  revert l2. induction l1 as [|x l1 IH]; intros [|y l2] H1 H2 Hin; [done|by destruct (proj2 (Hin y) (or_introl eq_refl))|
    by destruct (proj1 (Hin x) (or_introl eq_refl))|].
  cbn [map] in H1, H2. apply StronglySorted_inv in H1 as [H1 Hx], H2 as [H2 Hy].
  rewrite Forall_map, List.Forall_forall in Hx, Hy. cbn in Hx, Hy.
  assert (x = y) as ->.
  { destruct (proj1 (Hin x) (or_introl eq_refl)) as [?|Hxy]; [done|].
    destruct (proj2 (Hin y) (or_introl eq_refl)) as [?|Hyx]; [done|].
    specialize (Hx _ Hyx). specialize (Hy _ Hxy). lia. }
  f_equal. apply IH; [done..|]. intros e. specialize (Hin e). cbn [In] in Hin.
  split; intros He.
  - destruct (proj1 Hin (or_intror He)) as [<-|]; [|done]. specialize (Hx _ He). lia.
  - destruct (proj2 Hin (or_intror He)) as [<-|]; [|done]. specialize (Hy _ He). lia.
Qed.

(** (equivalence) A search ends without an assertion, and both ways it is written
    in the code give the same list: the rows, each once and by increasing id,
    whose label is like the text that was given or like that text with one of its
    letters made a capital. *)
Theorem search_finds partial (d : D) :
  exists l, search label like partial d = Ret l /\ search_last label like partial d = Ret l /\
    StronglySorted Z.lt (map row_id l) /\
    forall e : E, In e l <-> In e (rows d) /\ exists p, In p (partial :: variants partial) /\ matches label like p e = true.
Proof.
  destruct (patterns_run d (partial :: variants partial) []) as (l1 & H1 & S1 & I1); [constructor..|].
  destruct (patterns_run d (variants partial ++ [partial]) []) as (l2 & H2 & S2 & I2); [constructor..|].
  exists l1. split; [done|]. split; [|split; [done|]; intros e; rewrite I1; cbn [In]; tauto].
  unfold search_last. rewrite H2. f_equal. apply (sorted_unique d); [done..|].
  intros e. rewrite I1, I2. setoid_rewrite in_app_iff. cbn [In]. naive_solver.
Qed.

End search.

(** Loading again what a query found changes nothing. *)
Lemma credential_search_same {D} `{Odb D, !Table D credential, !TableLaws D credential} like partial (d : D) :
  CredentialSearch.search like partial d = EntitySearchTool.search_last CredentialSearch.alias like partial d.
Proof.
  unfold CredentialSearch.search, EntitySearchTool.search_last.
  generalize (@nil credential). induction (_ ++ _) as [|p ps IH]; intros s; cbn [foldM]; [done|].
  assert (Hp : CredentialSearch.search_and_load like d s p = EntitySearchTool.search_and_append CredentialSearch.alias like d s p).
  { unfold CredentialSearch.search_and_load, EntitySearchTool.search_and_append.
    pose proof (filter_rows (EntitySearchTool.matches CredentialSearch.alias like p) d) as Hl. revert s.
    induction Hl as [|c l Hc Hl IHl]; intros s; cbn [foldM]; [done|].
    apply find_rows in Hc. assert (CredentialSearch.load_and_insert d s c = EntitySearchTool.insert s c) as ->
      by (unfold CredentialSearch.load_and_insert; by rewrite Hc).
    destruct (EntitySearchTool.insert s c); [apply IHl|done..]. }
  rewrite Hp. destruct (EntitySearchTool.search_and_append _ _ _ _ _); [apply IH|done..].
Qed.

(** * The SQL text of the audit log *)

(** How a text of SQL is read: what is outside of its string literals, with a
    question mark for each of them, and what the literals hold; nothing when the
    last one is not closed. *)
Definition quote : ascii := "'"%char.

Fixpoint sql_scan (literal : option (list ascii)) (l : list ascii) : option (list ascii * list (list ascii)) :=
  match l, literal with
  | [], None => Some ([], [])
  | [], Some _ => None
  | c :: l, None =>
      if Ascii.eqb c quote then sql_scan (Some []) l
      else '(t, ls) ← sql_scan None l; Some (c :: t, ls)
  | c :: l, Some cur =>
      if Ascii.eqb c quote then
        match l with
        | c' :: l' => if Ascii.eqb c' quote then sql_scan (Some (cur ++ [quote])) l'
                      else '(t, ls) ← sql_scan None l; Some ("?"%char :: t, cur :: ls)
        | [] => Some (["?"%char], [cur])
        end
      else sql_scan (Some (cur ++ [c])) l
  end.

Definition unquoted (l : list ascii) : Prop := Forall (fun c => c <> quote) l.

Lemma scan_outside p l : unquoted p ->
  sql_scan None (p ++ l) = ('(t, ls) ← sql_scan None l; Some (p ++ t, ls)).
Proof.
  induction 1 as [|c p Hc Hp IH]; cbn [app].
  - by destruct (sql_scan None l) as [[]|].
  - cbn [sql_scan]. rewrite (proj2 (Ascii.eqb_neq _ _)) by done. rewrite IH. by destruct (sql_scan None l) as [[]|].
Qed.

Lemma scan_inside w cur l : unquoted w -> head l <> Some quote ->
  sql_scan (Some cur) (w ++ quote :: l) = ('(t, ls) ← sql_scan None l; Some ("?"%char :: t, (cur ++ w) :: ls)).
Proof.
  intros Hw Hl. revert cur. induction Hw as [|c w Hc Hw IH]; intros cur; cbn [app].
  - rewrite app_nil_r. cbn [sql_scan]. rewrite Ascii.eqb_refl. destruct l as [|c' l]; [done|].
    rewrite (proj2 (Ascii.eqb_neq _ _)); [done|]. intros ->. by apply Hl.
  - cbn [sql_scan]. rewrite (proj2 (Ascii.eqb_neq _ _)) by done. by rewrite IH, <- app_assoc.
Qed.

Lemma sane_unquoted t : AuditGet.is_stringtype_sane t = true -> unquoted (chars t).
Proof.
  intros Ht. apply List.Forall_forall. intros c Hc ->. unfold AuditGet.is_stringtype_sane in Ht.
  rewrite forallb_forall in Ht. by specialize (Ht _ Hc).
Qed.

Lemma digits_unquoted l : forallb isdigit l = true -> unquoted l.
Proof. intros Hl. apply List.Forall_forall. intros c Hc ->. rewrite forallb_forall in Hl. by specialize (Hl _ Hc). Qed.
Lemma number_unquoted z : unquoted (chars (to_string z)).
Proof.
  destruct z as [|p|p]; [by repeat constructor| |].
  - apply digits_unquoted. exact (proj1 (pretty_digits (N.pos p) "" eq_refl)).
  - constructor; [done|]. apply digits_unquoted. exact (proj1 (pretty_digits (N.pos p) "" eq_refl)).
Qed.

(** The text that is outside of the literals: it depends on how many types there
    are, and on the page. *)
Fixpoint marks (n : nat) : string :=
  match n with O => "" | S O => "?" | S n => "?," +:+ marks n end.
Definition clause_shape (n : nat) : string :=
  match n with O => "1 = 1" | _ => "WHERE typeid IN (" +:+ marks n +:+ ")" end.

Section audit_text.
Context {J : Type} `{Json J}.
Import AuditGet.

Lemma quoted_types_scan (l : list J) s rest : quoted_types l = Ret s -> head rest <> Some quote ->
  exists ts, Forall2 (fun j t => get_string j = Ret t) l ts /\
    sql_scan None (chars s ++ rest) = ('(t, ls) ← sql_scan None rest; Some (chars (marks (length ts)) ++ t, map chars ts ++ ls)).
Proof.
  revert s. induction l as [|j l IH]; intros s; cbn [quoted_types].
  - intros [= <-] _. exists []. split; [constructor|]. cbn. by destruct (sql_scan None rest) as [[]|].
  - intros Hs Hrest. bind_inv Hs. injection Hs as <-. apply enforce_Ret in E0. destruct (IH _ E1 Hrest) as (ts & Hts & Hscan).
    exists (a :: ts). split; [by constructor|]. rewrite !chars_app. change (chars "'") with [quote]. rewrite <- !app_assoc.
    cbn [app sql_scan]. rewrite Ascii.eqb_refl. rewrite scan_inside.
    + destruct l as [|j' l].
      * inversion Hts; subst. cbn in Hscan |- *. rewrite Hscan. by destruct (sql_scan None rest) as [[]|].
      * inversion Hts; subst. rewrite scan_outside by (by repeat constructor). rewrite Hscan.
        destruct (sql_scan None rest) as [[]|]; [|done]. cbn. done.
    + by apply sane_unquoted.
    + destruct l; [|done]. cbn in E1. injection E1 as <-. done.
Qed.

Lemma int_mul_Ret a b c : int_mul a b = Ret c -> c = a * b /\ - 2 ^ 31 <= a * b < 2 ^ 31.
Proof.
  unfold int_mul, int_max. case_match eqn:Hr; [|done]. intros [= <-].
  apply andb_true_iff in Hr as [H1 H2]. apply Z.leb_le in H1, H2. lia.
Qed.
Lemma int_mul_fits a b : - 2 ^ 31 <= a * b < 2 ^ 31 -> int_mul a b = Ret (a * b).
Proof. intros Hr. unfold int_mul, int_max. rewrite !(proj2 (Z.leb_le _ _)) by lia. done. Qed.

Lemma page_text_unquoted n m : unquoted (chars (page_text n m)).
Proof.
  unfold page_text, unquoted. rewrite !chars_app, !Forall_app. split_and!; try apply number_unquoted.
  all: by repeat constructor.
Qed.

(** C23: (safety) The types a client asks for stay inside string literals: in the text
    of the query each type is one literal, whose value is that type, and all the
    rest is written by the code and depends only on the number of types and on
    the page. *)
Theorem audit_query_literals (req : J) page page_size q : build_request_string req page page_size = Ret q ->
  exists ts, Forall2 (fun j t => get_string j = Ret t) (enabled_types req) ts /\
    sql_scan None (chars q) =
      Some (chars (clause_shape (length ts) +:+ page_text page_size (page_size * (page - 1))), map chars ts).
Proof.
  unfold build_request_string, build_in_clause. intros Hq. bind_inv Hq. injection Hq as <-.
  apply int_mul_Ret in E0 as [-> _]. set (tail := page_text page_size (page_size * (page - 1))).
  assert (Hone : forall p, unquoted p -> sql_scan None p = Some (p, [])).
  { intros p Hp. pose proof (scan_outside p [] Hp) as Hs. cbn in Hs. by rewrite !app_nil_r in Hs. }
  destruct (enabled_types req) as [|j l] eqn:Hl.
  - injection E as <-. exists []. split; [constructor|]. cbn [length clause_shape map]. apply Hone. rewrite chars_app.
    apply Forall_app_2; [by repeat constructor|apply page_text_unquoted].
  - bind_inv E. injection E as <-.
    assert (Hu : unquoted (chars (")" +:+ tail))) by (constructor; [done|apply page_text_unquoted]).
    destruct (quoted_types_scan (j :: l) a0 (chars (")" +:+ tail)) E0) as (ts & Hts & Hscan); [done|].
    exists ts. split; [done|]. rewrite (Hone _ Hu) in Hscan.
    inversion Hts as [|? t ? ts' _ _]; subst. rewrite !chars_app, <- !app_assoc in *.
    rewrite scan_outside by (by repeat constructor). rewrite Hscan. cbn [mbind option_bind]. rewrite app_nil_r.
    cbn [clause_shape length]. by rewrite !chars_app, <- !app_assoc.
Qed.

End audit_text.

(** * Pages *)

(** Page [p] of a list, from 0. *)
Definition page_of {A} (size : nat) (l : list A) (p : nat) : list A := take size (drop (size * p) l).

Lemma concat_pages {A} size (l : list A) n : concat (map (page_of size l) (seq 0 n)) = take (size * n) l.
Proof.
  induction n as [|n IH]; [by rewrite Nat.mul_0_r|].
  rewrite seq_S, map_app, concat_app, IH. cbn [map concat]. unfold page_of. rewrite app_nil_r, Nat.add_0_l, take_take_drop.
  f_equal. lia.
Qed.

Lemma all_pages {A} size (l : list A) n : (length l <= size * n)%nat -> concat (map (page_of size l) (seq 0 n)) = l.
Proof. intros Hn. rewrite concat_pages. by apply take_ge. Qed.

(** What SQL says of the texts [AuditGet] builds: a clause selects entries, here
    from the newest to the oldest, and the rest takes so many from an offset. *)
Class AuditTableLaws (D : Type) `{AuditTable D} := {
  matching : string -> D -> list AuditRow.t;
  count_matching clause (d : D) : count_entries clause d = Ret (Z.of_nat (length (matching clause d)));
  query_matching clause n m (d : D) : 0 < n -> 0 <= m ->
    query_entries (clause +:+ AuditGet.page_text n m) d = Ret (take (Z.to_nat n) (drop (Z.to_nat m) (matching clause d)));
}.

Section audit_pages.
Context {D : Type} `{AuditTableLaws D} {J : Type} `{Json J}.
Import AuditGet.

Lemma total_page_enough count size : 0 <= count -> 0 < size -> count <= size * total_page count size < count + size.
Proof.
  intros Hc Hs. unfold total_page. pose proof (Z.div_mod count size ltac:(lia)). pose proof (Z.mod_pos_bound count size Hs).
  case_match eqn:Hm; [apply Z.eqb_eq in Hm|apply Z.eqb_neq in Hm]; nia.
Qed.

Lemma page_entries_run (req : J) c size p (d : D) : build_in_clause req = Ret c -> 0 < size -> 0 <= p -> size * p < 2 ^ 31 ->
  page_entries req (p + 1) size d = Ret (page_of (Z.to_nat size) (matching c d) (Z.to_nat p)).
Proof.
  intros Hc Hs Hp Hb. unfold page_entries, build_request_string. rewrite Hc, !ret_bind.
  replace (p + 1 - 1) with p by lia. rewrite int_mul_fits, !ret_bind by nia. rewrite query_matching by nia.
  unfold page_of. by rewrite Z2Nat.inj_mul by lia.
Qed.

(** (functional) The pages of the audit log, as many as the reply says there are,
    hold each of the entries that match once, from the newest to the oldest; each
    has at least one and at most as many as were asked. *)
Theorem audit_pages_cover (req : J) c size (d : D) :
  build_in_clause req = Ret c -> 0 < size -> Z.of_nat (length (matching c d)) + size <= 2 ^ 31 ->
  exists total pages,
    count_entries c d = Ret (Z.of_nat (length (matching c d))) /\
    total_page (Z.of_nat (length (matching c d))) size = Z.of_nat total /\ length pages = total /\
    (forall p page, pages !! p = Some page ->
       page_entries req (Z.of_nat p + 1) size d = Ret page /\ 1 <= Z.of_nat (length page) <= size) /\
    concat pages = matching c d.
Proof.
  intros Hc Hs Hb. set (l := matching c d) in *. pose proof (total_page_enough (Z.of_nat (length l)) size ltac:(lia) Hs) as Ht.
  set (t := total_page _ _) in *. exists (Z.to_nat t), (map (page_of (Z.to_nat size) l) (seq 0 (Z.to_nat t))).
  split; [apply count_matching|]. split; [nia|]. split; [by rewrite length_map, length_seq|]. split.
  - intros p page Hp. change (page_of (Z.to_nat size) l <$> seq 0 (Z.to_nat t)) with (map (page_of (Z.to_nat size) l) (seq 0 (Z.to_nat t))) in Hp.
    rewrite list_lookup_fmap in Hp. destruct (seq 0 _ !! p) as [i|] eqn:Hi; [|done]. injection Hp as <-.
    apply lookup_seq in Hi as [-> Hlt]. cbn [Nat.add].
    rewrite (page_entries_run req c) by (try done; nia). rewrite Nat2Z.id. split; [done|].
    unfold page_of. rewrite length_take, length_drop. nia.
  - apply all_pages. nia.
Qed.
End audit_pages.

(** What a database answers of its log, from the oldest entry to the newest. *)
Class LogTableLaws (D : Type) `{LogTable D} := {
  log_entries : D -> list LogEntry.t;
  log_counted (d : D) : log_count d = Z.of_nat (length (log_entries d));
  fetch_entries (asc : bool) n m (d : D) : kind_of d <> id_other -> 0 < n -> 0 <= m ->
    fetch_log asc n m d = Ret (take (Z.to_nat n) (drop (Z.to_nat m) (if asc then log_entries d else rev (log_entries d))));
}.

Section log_pages.
Context {D : Type} `{LogTableLaws D}.
Import LogGet.

(** (functional) The pages of the log from 0 to the one the reply calls the last
    hold each entry once, in the order asked for. The last one has what remains of
    dividing, so it is empty when the pages are all full. *)
Theorem log_pages_cover (d : D) size (asc : bool) :
  kind_of d <> id_other -> 0 < size -> log_count d + size <= 2 ^ 31 ->
  exists n pages, log_count d / size = Z.of_nat n /\ length pages = S n /\
    (forall p page, pages !! p = Some page ->
       retrieve d (Z.of_nat p) size asc = Ret (LogEntry.mk_result page (log_count d) (log_count d / size) 0)) /\
    concat pages = (if asc then log_entries d else rev (log_entries d)) /\
    exists page, pages !! n = Some page /\ Z.of_nat (length page) = log_count d mod size.
Proof.
  intros Hk Hs Hb. set (l := if asc then log_entries d else rev (log_entries d)).
  assert (Hl : log_count d = Z.of_nat (length l)) by (rewrite log_counted; subst l; by destruct asc; rewrite ?length_rev).
  pose proof (Z.div_mod (log_count d) size ltac:(lia)) as Hdiv. pose proof (Z.mod_pos_bound (log_count d) size Hs) as Hmod.
  set (n := Z.to_nat (log_count d / size)). assert (Hn : log_count d / size = Z.of_nat n) by nia.
  exists n, (map (page_of (Z.to_nat size) l) (seq 0 (S n))). split; [done|]. split; [by rewrite length_map, length_seq|]. split_and!.
  - intros p page Hp. change (map (page_of (Z.to_nat size) l) (seq 0 (S n))) with (page_of (Z.to_nat size) l <$> seq 0 (S n)) in Hp.
    rewrite list_lookup_fmap in Hp. destruct (seq 0 _ !! p) as [i|] eqn:Hi; [|done]. injection Hp as <-.
    apply lookup_seq in Hi as [-> Hlt]. cbn [Nat.add].
    unfold retrieve. rewrite int_mul_fits, ret_bind by nia.
    assert (Hf : fetch d asc size (Z.of_nat p * size) = Ret (page_of (Z.to_nat size) l p)).
    { unfold fetch, page_of. rewrite fetch_entries by (done || nia). destruct (kind_of d); [..|done];
      by rewrite Z2Nat.inj_mul, Nat2Z.id, Nat.mul_comm by lia. }
    by rewrite Hf.
  - apply all_pages. nia.
  - exists (page_of (Z.to_nat size) l n). split; [by rewrite list_lookup_fmap, lookup_seq_lt by lia|].
    unfold page_of. rewrite length_take, length_drop. nia.
Qed.
End log_pages.

(** * Who may open what *)

Section overview.
Context {D : Type} `{Odb D, !Table D DoorRow.t, !Table D User.t}.
Import AccessOverview.

Lemma id_insert_In i j s : In j (set_insert id i s) <-> j = i \/ In j s.
Proof.
  split; [apply set_insert_In|]. intros [->|Hj]; [|by apply set_insert_keeps].
  destruct (set_insert_has id i s) as (x & Hx & E). cbn in E. by subst x.
Qed.

(** Adding to a set what satisfies a condition. *)
Lemma fold_In {A} (step : list Z -> A -> list Z) (new : A -> Z -> Prop) l s :
  (forall s a i, In i (step s a) <-> In i s \/ new a i) ->
  forall i, In i (foldl step s l) <-> In i s \/ exists a, In a l /\ new a i.
Proof.
  intros Hin. revert s. induction l as [|a l IH]; intros s i; cbn [foldl In]; [naive_solver|]. rewrite IH, Hin. naive_solver.
Qed.
Lemma fold_sorted {A} (step : list Z -> A -> list Z) l s :
  (forall s a, StronglySorted Z.lt s -> StronglySorted Z.lt (step s a)) ->
  StronglySorted Z.lt s -> StronglySorted Z.lt (foldl step s l).
Proof. intros Hstep. revert s. induction l as [|a l IH]; intros s Hs; cbn [foldl]; auto. Qed.

Lemma add_users_In (d : D) users ids m i :
  In i (add_users d users ids m) <->
    In i ids \/ exists u, In u users /\ (has_user_indirect d u m = true /\ i = User.id_ u).
Proof.
  apply (fold_In _ (fun u i => has_user_indirect d u m = true /\ i = User.id_ u)).
  intros s u j. case_match eqn:He.
  - apply existsb_exists in He as (j' & Hj & E). apply Z.eqb_eq in E. subst j'. naive_solver.
  - case_match; [rewrite id_insert_In; naive_solver|]. naive_solver.
Qed.
Lemma add_users_sorted (d : D) users ids m : StronglySorted Z.lt ids -> StronglySorted Z.lt (add_users d users ids m).
Proof.
  apply fold_sorted. intros s u Hs. repeat case_match; try done.
  rewrite <- (map_id s) in Hs. rewrite <- map_id. by apply (inserted_sorted id).
Qed.

Lemma user_ids_sorted (d : D) door : StronglySorted Z.lt (user_ids d door).
Proof. apply fold_sorted; [|constructor]. intros. by apply add_users_sorted. Qed.
Lemma user_ids_In (d : D) door i : In i (user_ids d door) <->
  exists m, In m (default [] (find_door (view d) (DoorRow.id_ door))) /\
    exists u, In u (rows d) /\ (has_user_indirect d u m = true /\ i = User.id_ u).
Proof.
  unfold user_ids. rewrite (fold_In _ (fun m i => exists u, In u (rows d) /\ (has_user_indirect d u m = true /\ i = User.id_ u)));
    [cbn; naive_solver|]. intros. apply add_users_In.
Qed.

Lemma any_mapping_true c u l : find_user (UserSecurityContext.dbsrv_ c) (UserSecurityContext.user_id_ c) = Some u ->
  UserSecurityContext.any_mapping c l = Ret (existsb (ScheduleMapping.has_user_indirect (User.id_ u)
    (group_memberships (UserSecurityContext.dbsrv_ c) (UserSecurityContext.user_id_ c))
    (lazy_credentials (UserSecurityContext.dbsrv_ c) (UserSecurityContext.user_id_ c))) l).
Proof.
  intros Hu. induction l as [|m l IH]; cbn [UserSecurityContext.any_mapping existsb]; [done|].
  unfold UserSecurityContext.self, DBService.find_user_by_id. rewrite Hu. cbn.
  destruct (ScheduleMapping.has_user_indirect _ _ _ m); [done|exact IH].
Qed.

(** (equivalence) The overview lists under a door, once and by increasing id, the
    users some mapping of the door concerns: of the users who are no managers,
    exactly those who may read the door. *)
Theorem overview_is_door_read (d : D) door u :
  In u (rows d) -> find_user (view d) (User.id_ u) = Some u ->
  user_rank_val (User.rank_ u) < user_rank_val MANAGER -> DoorRow.id_ door <> 0 ->
  is_Some (find_door (view d) (DoorRow.id_ door)) ->
  StronglySorted Z.lt (user_ids d door) /\
  (In (User.id_ u) (user_ids d door) <->
   SecurityContext.check_permission (as_user_of (User.id_ u) (view d)) SecurityContext.DOOR_READ
     (SecurityContext.door (DoorRow.id_ door)) = Ret true).
Proof.
  intros Hu Hfind Hrank Hdoor [ms Hms]. split; [apply user_ids_sorted|]. rewrite user_ids_In, Hms. cbn [default].
  set (c := as_user_of (User.id_ u) (view d)).
  assert (Hm : UserSecurityContext.is_manager c = false).
  { unfold UserSecurityContext.is_manager. cbn. rewrite Hfind. by apply Z.leb_gt. }
  assert (Ha : UserSecurityContext.is_admin c = false).
  { unfold UserSecurityContext.is_admin. cbn. rewrite Hfind. apply Z.eqb_neq. intros E. rewrite E in Hrank. cbn in Hrank. lia. }
  assert (SecurityContext.check_permission c SecurityContext.DOOR_READ (SecurityContext.door (DoorRow.id_ door)) =
    Ret (existsb (has_user_indirect d u) ms)) as ->.
  { cbn. unfold UserSecurityContext.check_permission_impl. cbn [UserSecurityContext.check_fuel].
    unfold UserSecurityContext.check_step at 1. rewrite Ha. cbn. unfold UserSecurityContext.can_read_door.
    rewrite Hm, (proj2 (Z.eqb_neq _ _)) by done. cbn. unfold DBService.find_door_by_id. rewrite Hms. cbn.
    rewrite (any_mapping_true _ u) by done. done. }
  split.
  - intros (m & Hm' & u' & _ & Hhas & Hid). f_equal. apply existsb_exists. exists m. split; [done|].
    unfold has_user_indirect in *. by rewrite Hid.
  - intros [= He]. apply existsb_exists in He as (m & Hm' & Hhas). exists m. split; [done|]. by exists u.
Qed.

End overview.

(** * What is shown to whom *)

Lemma bind_ext {D A B} (m : api D A) (k1 k2 : A -> api D B) s :
  (forall s' a, m s = (s', Ret a) -> k1 a s' = k2 a s') -> (m ≫= k1) s = (m ≫= k2) s.
Proof. intros Hk. unfold mbind, api_bind. destruct (m s) as [s' [a| |]]; [by apply Hk|done..]. Qed.

Lemma permitted_run {D} `{Odb D} hdl a ap s x :
  session_of hdl (sessions s) = Some x ->
  permitted (D := D) hdl a ap s = (s, APISession.check_permission (db s) x a ap).
Proof. intros Hx. unfold permitted, session, mbind, api_bind. by rewrite Hx. Qed.

Section more_readers.
Context {D : Type} `{Odb D} {J : Type} `{Json J}.

Lemma reader_transaction {A} (m : api D A) : reader m -> reader (transaction m).
Proof. intros Hm [d l]. unfold transaction. specialize (Hm (mk_server d l)). destruct (m _) as [s' [a| |]]; cbn in *; by subst. Qed.
Lemma reader_mapA {A B} (f : A -> api D B) l : (forall a, reader (f a)) -> reader (mapA f l).
Proof.
  intros Hf. induction l as [|a l IH]; cbn [mapA]; [done|]. apply reader_bind; [apply Hf|]. intros b. by apply reader_bind.
Qed.
Lemma reader_references hdl a param (make : Z -> api D J) ids : (forall i, reader (make i)) ->
  reader (UserReads.readable_references hdl a param make ids).
Proof.
  intros Hm. induction ids as [|i ids IH]; cbn [UserReads.readable_references]; [done|].
  apply reader_bind; [apply reader_permitted|]. intros ok. apply reader_bind; [|by intros js; apply reader_bind].
  destruct ok; [|done]. by apply reader_bind.
Qed.

Lemma reader_reference `{!Table D credential} id : reader (D := D) (ScheduleMappingJSON.credential_reference (J := J) id).
Proof.
  unfold ScheduleMappingJSON.credential_reference. apply reader_bind; [done|]. intros d. case_match; [|done].
  by apply reader_bind.
Qed.
End more_readers.

Ltac reader := repeat first
  [ apply reader_lift | apply reader_ret | apply reader_get_db | apply reader_session | apply reader_permitted
  | apply reader_transaction | apply reader_mapA; intros ? | apply reader_references; intros ?
  | apply reader_bind; [|intros ?]
  | match goal with |- reader (match ?x with _ => _ end) => destruct x end ].

Section private.
Context {D : Type} `{Odb D} {J : Type} `{Json J}.

(** An entry without the texts from before and after the change. *)
Definition without_texts (e : AuditRow.t) : AuditRow.t :=
  AuditRow.mk (AuditRow.id_ e) (AuditRow.event_mask_ e) (AuditRow.timestamp_ e) (AuditRow.description_ e)
    (AuditRow.finalized_ e) (AuditRow.author_id e)
    match AuditRow.details_ e with
    | AuditRow.UserEvent i _ _ => AuditRow.UserEvent i "" ""
    | AuditRow.ScheduleEvent i _ _ => AuditRow.ScheduleEvent i "" ""
    | AuditRow.GroupEvent i _ _ => AuditRow.GroupEvent i "" ""
    | AuditRow.CredentialEvent i _ _ => AuditRow.CredentialEvent i "" ""
    | AuditRow.DoorEvent i _ _ => AuditRow.DoorEvent i "" ""
    | AuditRow.ZoneEvent i _ _ => AuditRow.ZoneEvent i "" ""
    | d => d
    end.

Lemma texts_hidden hdl s x b a : session_of hdl (sessions s) = Some x ->
  APISession.check_permission (db s) x SecurityContext.AUDIT_READ_FULL SecurityContext.no_param = Ret false ->
  AuditSerializer.full_texts (J := J) hdl b a s = (s, Ret []).
Proof. intros Hx Hc. unfold AuditSerializer.full_texts, mbind, api_bind. by rewrite (permitted_run _ _ _ _ _ Hx), Hc. Qed.

(** C24: (safety) What an entry of the audit log keeps of an object before and after a
    change is not shown to those who may not read it in full: whatever these texts
    are, the reply is the same. *)
Theorem audit_texts_private service hdl s x e1 e2 :
  session_of hdl (sessions s) = Some x ->
  APISession.check_permission (db s) x SecurityContext.AUDIT_READ_FULL SecurityContext.no_param = Ret false ->
  without_texts e1 = without_texts e2 ->
  AuditSerializer.serialize (J := J) service hdl e1 s = AuditSerializer.serialize service hdl e2 s.
Proof.
  intros Hx Hc He. destruct e1 as [i m t desc f au det1], e2 as [i2 m2 t2 desc2 f2 au2 det2].
  unfold without_texts in He. cbn in He. injection He as <- <- <- <- <- <- Hd.
  destruct det1, det2; try discriminate Hd; injection Hd; intros; subst; try done;
    unfold AuditSerializer.serialize, AuditSerializer.user_event, AuditSerializer.schedule_event, AuditSerializer.group_event,
      AuditSerializer.credential_event, AuditSerializer.door_event, AuditSerializer.zone_event, AuditSerializer.with_texts,
      mbind, api_bind; cbn [AuditRow.details_];
    by rewrite !(texts_hidden _ _ _ _ _ Hx Hc).
Qed.

(** (error) The log of audits cannot be read once it has the event of an access
    point: its serializer has no case for it, no module registers one, and the
    page that has it aborts the server. *)
Theorem access_point_event_aborts service hdl s es1 e es2 i b a :
  AuditRow.details_ e = AuditRow.AccessPointEvent i b a -> service e = None ->
  Forall (fun e => exists j, AuditSerializer.serialize (J := J) service hdl e s = (s, Ret j)) es1 ->
  mapA (AuditSerializer.serialize (J := J) service hdl) (es1 ++ e :: es2) s = (s, Fault AssertFailed).
Proof.
  intros Hd Hserv. induction 1 as [|e1 es1 [j Hj] _ IH]; cbn [app mapA]; unfold mbind at 1, api_bind at 1.
  - unfold AuditSerializer.serialize, AuditSerializer.cannot_visit. rewrite Hd, Hserv. done.
  - rewrite Hj. unfold mbind at 1, api_bind at 1. by rewrite IH.
Qed.

Context `{!Table D User.t, !Table D credential, !UserLinks D} (format_date : Z -> string).

(** (safety) The reply about a user does not depend on the e-mail address unless
    the address may be read: by the user and by managers. *)
Theorem email_private hdl s x u firstname lastname e1 e2 :
  session_of hdl (sessions s) = Some x ->
  APISession.check_permission (db s) x SecurityContext.USER_READ_EMAIL (SecurityContext.user (User.id_ u)) = Ret false ->
  UserReads.serialize (J := J) format_date hdl (User.set_names firstname lastname e1 u) s =
  UserReads.serialize format_date hdl (User.set_names firstname lastname e2 u) s.
Proof.
  intros Hx Hc. unfold UserReads.serialize. cbn [User.id_ User.set_names].
  apply bind_ext. intros s1 d [= <- <-]. apply bind_ext. intros s2 ms H2.
  apply reader_run in H2 as [-> _]; [|reader]. apply bind_ext. intros s3 cs H3.
  apply reader_run in H3 as [-> _]; [|reader; apply reader_reference].
  change (User.username (User.set_names firstname lastname e1 u)) with (User.username (User.set_names firstname lastname e2 u)).
  apply bind_ext. intros s4 n [= <- _]. unfold mbind, api_bind. by rewrite (permitted_run _ _ _ _ _ Hx), Hc.
Qed.

End private.

Section readers.
Context {D : Type} `{Odb D, !Table D Zone.t, !Table D DoorRow.t, !Table D AccessPointRow.t, !Table D Group.t,
  !Table D User.t, !Table D credential, !Table D ScheduleRow.t, !AuditTable D, !LogTable D, !UserLinks D}.
Context {J : Type} `{Json J} (like : string -> string -> bool) (service : AuditRow.t -> option J).

Lemma reader_audit hdl e : reader (D := D) (AuditSerializer.serialize (J := J) service hdl e).
Proof.
  unfold AuditSerializer.serialize, AuditSerializer.user_event, AuditSerializer.schedule_event, AuditSerializer.group_event,
    AuditSerializer.credential_event, AuditSerializer.door_event, AuditSerializer.zone_event, AuditSerializer.with_texts,
    AuditSerializer.full_texts, AuditSerializer.cannot_visit. reader.
Qed.
Lemma reader_user format_date hdl u : reader (D := D) (UserReads.serialize (J := J) format_date hdl u).
Proof. unfold UserReads.serialize. reader; apply reader_reference. Qed.

(** (safety) Searching, listing the audits, the log, the doors and the users
    changes neither the database nor the sessions, whatever the request and
    whether it succeeds. *)
Theorem queries_change_nothing format_date type hdl (req : J) (s : server D) :
  (query_method like service (fun _ _ _ => throw InvalidCall) type hdl req s).1 = s /\
  (UserReads.read (D := D) format_date hdl req s).1 = s.
Proof.
  split.
  - revert s. change (reader (query_method like service (fun _ _ _ => throw InvalidCall) type hdl req)).
    unfold query_method, group_search, door_search, access_point_search, schedule_search, zone_search, user_search, AuditGet.process, LogGet.process, EntitySearchTool.process, EntitySearchTool.process_last,
      CredentialSearch.process, AccessOverview.process. pose proof (reader_audit hdl). repeat case_match; reader; auto.
  - revert s. change (reader (UserReads.read (D := D) format_date hdl req)). unfold UserReads.read.
    pose proof (reader_user format_date hdl). reader; auto.
Qed.

End readers.

(** * Witnesses *)

(** Databases on which the witnesses run: audit entries in a list, that answers to
    the texts of the queries by reading them. *)
Module Demo.

(** Digits, and what is after the separator that follows them. *)
Definition cut (k : nat) (l : list ascii) : list ascii * list ascii :=
  (take_digits l, drop (k + length (take_digits l)) l).
Lemma cut_app ds sep rest : forallb isdigit ds = true -> match sep with c :: _ => isdigit c = false | [] => False end ->
  cut (length sep) (ds ++ sep ++ rest) = (ds, rest).
Proof.
  intros Hds Hsep. unfold cut. rewrite take_digits_app; [|done|by destruct sep]. f_equal.
  rewrite app_assoc, drop_app_length'; [done|]. rewrite length_app. lia.
Qed.

(** The page a text ends with, and the clause before. *)
Definition parse_page (q : string) : string * Z * Z :=
  let '(m, r) := cut 8 (rev (chars q)) in
  let '(n, r) := cut 24 r in
  (text (rev r), default 0 (digits_val (rev n)), default 0 (digits_val (rev m))).

Lemma parse_page_text clause n m : 0 <= n -> 0 <= m -> parse_page (clause +:+ AuditGet.page_text n m) = (clause, n, m).
Proof.
  intros Hn Hm. unfold parse_page, AuditGet.page_text. rewrite !chars_app, !rev_app_distr, <- !app_assoc.
  rewrite (cut_app _ (rev (chars " OFFSET ")) _ (digits_of_rev m Hm) eq_refl).
  rewrite (cut_app _ (rev (chars " ORDER BY id DESC LIMIT ")) _ (digits_of_rev n Hn) eq_refl).
  by rewrite !rev_involutive, !digits_to_string, text_chars by done.
Qed.

Definition type_of (e : AuditRow.t) : string :=
  match AuditRow.details_ e with AuditRow.UserEvent _ _ _ => "Leosac::Audit::UserEvent" | _ => "Leosac::Audit::AuditEntry" end.
Definition select (clause : string) (d : list AuditRow.t) : list AuditRow.t :=
  match sql_scan None (chars clause) with
  | Some (_, []) => d
  | Some (_, ts) => List.filter (fun e => existsb (fun t => String.eqb (text t) (type_of e)) ts) d
  | None => []
  end.

#[export] Instance entry_table : AuditTable (list AuditRow.t) := {|
  count_entries := fun c d => Ret (Z.of_nat (length (select c d)));
  query_entries := fun q d => let '(c, n, m) := parse_page q in Ret (take (Z.to_nat n) (drop (Z.to_nat m) (select c d)));
|}.
#[export] Instance entry_laws : AuditTableLaws (list AuditRow.t).
Proof.
  refine {| matching := select |}; [done|]. intros c n m d Hn Hm. cbn [query_entries entry_table].
  by rewrite parse_page_text by lia.
Defined.

Definition event (i : Z) (d : AuditRow.details) : AuditRow.t := AuditRow.mk i 0 0 "" true 0 d.
Definition entries : list AuditRow.t :=
  [event 4 (AuditRow.UserEvent 3 "b" "a"); event 3 (AuditRow.UpdateEvent 1); event 2 (AuditRow.AccessPointEvent 2 "" "");
   event 1 (AuditRow.UserEvent 1 "b" "a")].
Definition users_only : json := JObject [("enabled_type", JArray [JString "Leosac::Audit::UserEvent"])].
Definition injected : json := JObject [("enabled_type", JArray [JString "') OR 1 = 1 --"])].

Lemma audit_literals_witness :
  AuditGet.build_in_clause injected = Throw (LEOSACException "Audit type string is invalid: ') OR 1 = 1 --") /\
  exists q, AuditGet.build_request_string users_only 2 20 = Ret q /\ exists ts, length ts = 1%nat /\
    sql_scan None (chars q) = Some (chars "WHERE typeid IN (?) ORDER BY id DESC LIMIT 20 OFFSET 20", map chars ts).
Proof.
  split; [reflexivity|]. eexists. split; [vm_compute; reflexivity|].
  edestruct (audit_query_literals users_only 2 20) as (ts & Hts & Hscan); [vm_compute; reflexivity|].
  exists ts. assert (length ts = 1%nat) as Hl by (by rewrite <- (Forall2_length _ _ _ Hts)). split; [exact Hl|].
  rewrite Hl in Hscan. exact Hscan.
Defined.

Lemma audit_pages_witness : exists total pages, Z.of_nat total = 2 /\ length pages = total /\ concat pages = entries.
Proof.
  destruct (audit_pages_cover (D := list AuditRow.t) (JObject []) "1 = 1" 3 entries)
    as (total & pages & _ & Ht & Hl & _ & Hc); [reflexivity|lia|vm_compute; discriminate|].
  exists total, pages. split; [rewrite <- Ht; reflexivity|]. split; [exact Hl|exact Hc].
Defined.

#[export] Instance log_table : LogTable (list LogEntry.t) := {|
  kind_of := fun _ => id_sqlite;
  fetch_log := fun asc n m d => Ret (take (Z.to_nat n) (drop (Z.to_nat m) (if asc : bool then d else rev d)));
  log_count := fun d => Z.of_nat (length d);
|}.
#[export] Instance log_laws : LogTableLaws (list LogEntry.t).
Proof. by refine {| log_entries := fun d => d |}. Defined.

Definition log : list LogEntry.t := [LogEntry.mk 1 0 "start"; LogEntry.mk 2 1 "open"; LogEntry.mk 3 2 "close"; LogEntry.mk 4 3 "stop"].

(** Four entries by two: three pages, and the last is empty. *)
Lemma log_pages_witness : exists pages, length pages = 3%nat /\ concat pages = log /\ pages !! 2%nat = Some [].
Proof.
  destruct (log_pages_cover (D := list LogEntry.t) log 2 true) as (n & pages & Hn & Hl & _ & Hc & page & Hp & Hlen);
    [discriminate|lia|vm_compute; discriminate|].
  assert (n = 2%nat) as -> by (apply Nat2Z.inj; rewrite <- Hn; reflexivity).
  exists pages. split; [exact Hl|]. split; [exact Hc|]. rewrite Hp. f_equal. destruct page; [reflexivity|]. vm_compute in Hlen. discriminate.
Defined.

(** The estate of Estate.v, with its users as a table. *)
Definition with_user_id (i : Z) (u : User.t) : User.t :=
  User.mk i (User.username_ u) (User.firstname_ u) (User.lastname_ u) (User.email_ u) (User.validity_ u) (User.rank_ u) (User.password_ u).
#[export] Instance user_table : Table estate User.t :=
  map_table User.id_ with_user_id (fun d => users (core d)) (fun m d => with_core (with_users m (core d)) d).
#[export] Instance user_links : UserLinks estate := {|
  membership_ids := fun _ _ => []; user_schedules := fun _ _ => []; user_version := fun _ _ => 1;
|}.

(** LIKE of patterns that only begin and end with a wildcard. *)
Definition like (s pattern : string) : bool :=
  bool_decide (is_Some (String.index 0 (substring 1 (String.length pattern - 2) pattern) s)).

(** A search of doors finds "Front" when asked for "front", and would not find
    "FRONT". *)
Definition shouting : estate :=
  with_doors {[ 5 := DoorRow.mk 5 "Front" "" 0; 6 := DoorRow.mk 6 "FRONT" "" 0 ]} demo_estate.

Lemma search_witness : exists l, EntitySearchTool.search DoorRow.alias_ like "front" shouting = Ret l /\ map DoorRow.id_ l = [5].
Proof.
  destruct (search_finds DoorRow.alias_ like "front" shouting) as (l & Hl & _).
  exists l. split; [exact Hl|]. assert (EntitySearchTool.search DoorRow.alias_ like "front" shouting =
    Ret [DoorRow.mk 5 "Front" "" 0]) as E by (vm_compute; reflexivity). rewrite E in Hl. by injection Hl as <-.
Defined.

Definition bob : User.t := demo_account 3 "bob" USER "secret".

Lemma overview_witness : In 3 (AccessOverview.user_ids demo_estate demo_door) <->
  SecurityContext.check_permission (as_user_of 3 (view demo_estate)) SecurityContext.DOOR_READ (SecurityContext.door 5) = Ret true.
Proof.
  apply (overview_is_door_read demo_estate demo_door bob); [vm_compute; tauto|reflexivity|reflexivity|discriminate|vm_compute; eauto].
Defined.

Definition here (d : estate) (uid : Z) : server estate := mk_server d [(1, mk_session LOGGED_IN (Some bob_token) (Some uid))].

Lemma texts_witness : AuditSerializer.serialize (J := json) (fun _ => None) 1 (event 4 (AuditRow.UserEvent 3 "old" "new")) bob_here =
  AuditSerializer.serialize (fun _ => None) 1 (event 4 (AuditRow.UserEvent 3 "" "")) bob_here.
Proof. eapply audit_texts_private; vm_compute; reflexivity. Defined.

Lemma access_point_witness :
  mapA (AuditSerializer.serialize (J := json) (fun _ => None) 1) entries admin_here = (admin_here, Fault AssertFailed).
Proof.
  apply (access_point_event_aborts (J := json) (fun _ => None) 1 admin_here (firstn 2 entries) (event 2 (AuditRow.AccessPointEvent 2 "" ""))
    (skipn 3 entries) 2 "" ""); [reflexivity|reflexivity|].
  repeat constructor; eexists; vm_compute; reflexivity.
Defined.

Lemma email_witness :
  UserReads.serialize (J := json) to_string 1 (User.set_names "" "" "eve@home" (demo_account 9 "eve" USER "evil")) bob_here =
  UserReads.serialize (J := json) to_string 1 (User.set_names "" "" "" (demo_account 9 "eve" USER "evil")) bob_here.
Proof. eapply email_private; vm_compute; reflexivity. Defined.
End Demo.
