(* ===== verification/Updates.v ===== *)
(** Updates of devices: [src/core/update/] and the methods of the WebSocket API
    under [src/modules/websock-api/api/update-management/]. The backends, which
    modules provide to check, create, acknowledge and cancel updates, are a record
    of operations: no module of the repository has one. *)
From Stdlib Require Import ZArith Lia Ascii String.
From stdpp Require Import base tactics numbers list strings gmap.
From S2P Require Import Prelude Json AuditLog Users Credentials Schedules Security Session Api Zones Resources.

Open Scope Z_scope.

(** * Data *)

Inductive Status := PENDING | ACKNOWLEDGED | CANCELLED | TRANSIENT.
#[export] Instance Status_eq_dec : EqDecision Status.
Proof. solve_decision. Defined.
Definition status_value (s : Status) : Z :=
  match s with PENDING => 0 | ACKNOWLEDGED => 1 | CANCELLED => 2 | TRANSIENT => 3 end.

Inductive Severity := LOW | NORMAL | HIGHT | CRITICAL.
Definition severity_value (s : Severity) : Z :=
  match s with LOW => 0 | NORMAL => 1 | HIGHT => 2 | CRITICAL => 3 end.

Module UpdateDescriptor.
Record t := mk { uuid : string; severity : Severity; source_module : string; update_desc : string }.
Definition make (uuid : string) : t := mk uuid NORMAL "" "".
End UpdateDescriptor.

Module Update.
(** [checkpoint_] is the last audit entry, 0 for none. *)
Record t := mk {
  id_ : Z;
  generated_at_ : Z;
  status_ : Status;
  status_updated_at_ : Z;
  source_module_ : string;
  description_ : string;
  checkpoint_ : Z;
}.

Definition make (now : Z) : t := mk 0 now TRANSIENT 0 "" "" 0.
Definition set_status (now : Z) (st : Status) (u : t) : t :=
  mk (id_ u) (generated_at_ u) st now (source_module_ u) (description_ u) (checkpoint_ u).
Definition set_source_module (s : string) (u : t) : t :=
  mk (id_ u) (generated_at_ u) (status_ u) (status_updated_at_ u) s (description_ u) (checkpoint_ u).
Definition set_description (d : string) (u : t) : t :=
  mk (id_ u) (generated_at_ u) (status_ u) (status_updated_at_ u) (source_module_ u) d (checkpoint_ u).

(** [AuditTracker::last], which does not accept a null entry. *)
Definition set_checkpoint (audit : option Z) (u : t) : outcome t :=
  match audit with
  | None => Fault AssertFailed
  | Some a => Ret (mk (id_ u) (generated_at_ u) (status_ u) (status_updated_at_ u) (source_module_ u) (description_ u) a)
  end.
Definition get_checkpoint (u : t) : Z := checkpoint_ u.
End Update.

(** * The service *)

(** [UpdateBackend]. An update a backend gets is a shared pointer, null when there
    is none; what the backend makes of the object is what it gives back. *)
Record backend (D : Type) := mk_backend {
  check : api D (list UpdateDescriptor.t);
  create : UpdateDescriptor.t -> api D (option Update.t);
  ack : option Update.t -> api D (option Update.t);
  cancel : option Update.t -> api D (option Update.t);
}.
Arguments check {D}. Arguments create {D}. Arguments ack {D}. Arguments cancel {D}.

Module UpdateService.
Section service.
Context {D : Type}.

(** The backends that are alive, in the order of their registration, and what the
    last check found. *)
Record t := mk { backends : list (backend D); published_descriptors_ : gmap string UpdateDescriptor.t }.

Definition empty : t := mk [] ∅.

Definition register_backend (b : backend D) (s : t) : t := mk (backends s ++ [b]) (published_descriptors_ s).

(** [VectorAppenderCombiner]. *)
Fixpoint append_all {A} (slots : list (api D (list A))) : api D (list A) :=
  match slots with
  | [] => mret []
  | slot :: slots => l ← slot; rest ← append_all slots; mret (l ++ rest)
  end.

(** [AtMostOneCombiner]: the loop over the slots, with the result so far. *)
Fixpoint at_most_one {A} (result : option A) (slots : list (api D (option A))) : api D (option A) :=
  match slots with
  | [] => mret result
  | slot :: slots =>
      tmp ← slot;
      match tmp, result with
      | Some _, Some _ => throw (LEOSACException "AtMostOneCombiner: A non-null pointer has already been returned.")
      | Some a, None => at_most_one (Some a) slots
      | None, _ => at_most_one result slots
      end
  end.

(** A signal without results: each slot, on the same object. *)
Fixpoint call_all {A} (slots : list (A -> api D A)) (a : A) : api D A :=
  match slots with
  | [] => mret a
  | slot :: slots => a ← slot a; call_all slots a
  end.

Definition publish (descriptors : list UpdateDescriptor.t) : gmap string UpdateDescriptor.t :=
  foldl (fun m d => <[UpdateDescriptor.uuid d := d]> m) ∅ descriptors.

Definition check_update (s : t) : api D (t * list UpdateDescriptor.t) :=
  descriptors ← append_all (map check (backends s));
  mret (mk (backends s) (publish descriptors), descriptors).

Definition create_update (update_descriptor_uuid : string) (s : t) : api D (option Update.t) :=
  match published_descriptors_ s !! update_descriptor_uuid with
  | None => throw (LEOSACException "UpdateDescriptor doesn't exist anymore.")
  | Some d => at_most_one None (map (fun b => create b d) (backends s))
  end.

Definition ack_update (update : option Update.t) (s : t) : api D (option Update.t) :=
  call_all (map ack (backends s)) update.
Definition cancel_update (update : option Update.t) (s : t) : api D (option Update.t) :=
  call_all (map cancel (backends s)) update.

Section rows.
Context `{!Table D Update.t}.
Definition pending_updates : api D (list Update.t) :=
  d ← get_db; mret (List.filter (fun u => bool_decide (Update.status_ u = PENDING)) (rows d)).
End rows.

End service.
Arguments t : clear implicits.
End UpdateService.

(** * The methods of the API *)

Section methods.
Context {D : Type} `{!Table D Update.t} {J : Type} `{Json J}.
(** The serializers the modules registered. *)
Context (serializer : Update.t -> option J) (format_date : Z -> string).
Import UpdateService.

(** [UpdateJSONSerializer::serialize], for the serializers of modules to use. *)
Definition update_json (in_ : Update.t) : J :=
  json_object [("type", json_string "update"); ("id", json_number (Update.id_ in_));
    ("attributes", json_object [("status", json_number (status_value (Update.status_ in_)));
      ("checkpoint", json_number (Update.get_checkpoint in_));
      ("generated-at", json_string (format_date (Update.generated_at_ in_)));
      ("status-updated-at", json_string (format_date (Update.status_updated_at_ in_)));
      ("source-module", json_string (Update.source_module_ in_));
      ("description", json_string (Update.description_ in_))])].

Definition descriptor_json (in_ : UpdateDescriptor.t) : J :=
  json_object [("uuid", json_string (UpdateDescriptor.uuid in_));
    ("severity", json_number (severity_value (UpdateDescriptor.severity in_)));
    ("source_module", json_string (UpdateDescriptor.source_module in_));
    ("update_desc", json_string (UpdateDescriptor.update_desc in_))].

(** [serialize] of the service, an [ExtensibleSerializer]. *)
Definition serialize (u : Update.t) : outcome J :=
  match serializer u with Some j => Ret j | None => Fault AssertFailed end.

Definition CheckUpdate (s : t D) : api D (t D * J) :=
  '(s, updates) ← check_update s; mret (s, json_array (map descriptor_json updates)).

Definition CreateUpdate (s : t D) (req : J) : api D J :=
  uuid ← lift (j ← at_ req "descriptor_uuid"; get_string j);
  update ← create_update uuid s;
  match update with
  | Some u => j ← lift (serialize u); mret (data_reply j)
  | None => mret json_null
  end.

(** Acknowledging and cancelling: without [THROW_IF_NOT_FOUND], an unknown id is a
    null pointer. *)
Definition change (signal : option Update.t -> t D -> api D (option Update.t)) (s : t D) (req : J) : api D J :=
  id ← lift (id_of "update_id" req);
  d ← get_db;
  update ← signal (find_row id d) s;
  u ← lift (deref update);
  j ← lift (serialize u);
  mret (data_reply j).
Definition AckUpdate : t D -> J -> api D J := change ack_update.
Definition CancelUpdate : t D -> J -> api D J := change cancel_update.

Definition UpdateGet (req : J) : api D J :=
  id ← lift (id_of "update_id" req);
  u ← get_row id;
  j ← lift (serialize u);
  mret (data_reply j).

Definition PendingUpdateGet (_ : J) : api D J :=
  updates ← pending_updates;
  js ← mapA (fun u => lift (serialize u)) updates;
  mret (data_reply (json_array js)).

(** The updates of the history. *)
Definition past_updates (d : D) : list Update.t :=
  List.filter (fun u => negb (bool_decide (Update.status_ u = PENDING))) (rows d).
Definition UpdateHistory (_ : J) : api D J :=
  transaction (
    d ← get_db;
    js ← mapA (fun u => lift (serialize u)) (past_updates d);
    mret (data_reply (json_array js))).

End methods.

(** * Properties *)

Section properties.
Context {D : Type}.
Import UpdateService.

Lemma publish_app l1 l2 : publish (l1 ++ l2) = foldl (fun m d => <[UpdateDescriptor.uuid d := d]> m) (publish l1) l2.
Proof. unfold publish. by rewrite foldl_app. Qed.

(** The descriptor of a uuid, the last one when there are several. *)
Lemma publish_lookup l i : publish l !! i = List.find (fun d => String.eqb (UpdateDescriptor.uuid d) i) (rev l).
Proof.
  induction l as [|d l IH] using rev_ind; [apply lookup_empty|].
  rewrite publish_app, rev_app_distr. cbn. destruct (String.eqb_spec (UpdateDescriptor.uuid d) i) as [<-|Hn].
  - by rewrite lookup_insert_eq.
  - by rewrite lookup_insert_ne.
Qed.

(** (functional) Only what the last check reported can be created: the backends
    are given the descriptor with the uuid, which the check listed, and a uuid of an
    earlier check, or of none, is refused without asking them. *)
Theorem creates_what_was_checked (s s' : t D) descriptors w w' :
  check_update s w = (w', Ret (s', descriptors)) ->
  forall uuid x,
  (exists d, In d descriptors /\ UpdateDescriptor.uuid d = uuid /\
     create_update uuid s' x = at_most_one None (map (fun b => create b d) (backends s)) x) \/
  (~ In uuid (map UpdateDescriptor.uuid descriptors) /\
     create_update uuid s' x = (x, Throw (LEOSACException "UpdateDescriptor doesn't exist anymore."))).
Proof.
  intros Hc uuid x. unfold check_update, mbind, api_bind in Hc.
  destruct (append_all _ w) as [w1 [l|e|f]]; [|done..]. injection Hc as <- <- <-.
  unfold create_update. cbn [published_descriptors_ backends]. rewrite publish_lookup.
  destruct (List.find _ (rev l)) as [d|] eqn:Hf.
  - left. exists d. apply find_some in Hf as [Hin Hu]. apply String.eqb_eq in Hu. apply in_rev in Hin. by subst.
  - right. split; [|done]. intros Hin. apply in_map_iff in Hin as (d & Hu & Hin). apply in_rev in Hin.
    pose proof (find_none _ _ Hf _ Hin) as Hne. cbn beta in Hne. rewrite Hu, String.eqb_refl in Hne. done.
Qed.

(** Slots that run to the end, one after the other. *)
Inductive runs {A} : list (api D A) -> server D -> server D -> list A -> Prop :=
  | runs_nil s : runs [] s s []
  | runs_cons slot slots s s1 s' a l : slot s = (s1, Ret a) -> runs slots s1 s' l -> runs (slot :: slots) s s' (a :: l).

Lemma at_most_one_runs {A} (slots : list (api D (option A))) result s s' r :
  at_most_one result slots s = (s', Ret r) ->
  exists l, runs slots s s' l /\ omap id (result :: l) = match r with Some a => [a] | None => [] end.
Proof.
  revert result s. induction slots as [|slot slots IH]; intros result s; cbn [at_most_one].
  - intros [= <- <-]. exists []. split; [constructor|]. by destruct result.
  - unfold mbind, api_bind. destruct (slot s) as [s1 [o|e|f]] eqn:Hs; [|done..]. destruct o as [a|].
    + destruct result as [a'|]; [done|]. intros Hr. destruct (IH _ _ Hr) as (l & Hl & Ho).
      exists (Some a :: l). split; [by econstructor|exact Ho].
    + intros Hr. destruct (IH _ _ Hr) as (l & Hl & Ho). exists (None :: l). split; [by econstructor|].
      rewrite <- Ho. by destruct result.
Qed.

(** (safety) Every backend is asked, once and in order, to create an update, and
    the result is that of the only one that made it, or none when none did. *)
Theorem one_backend_creates (s : t D) uuid d x x' r :
  published_descriptors_ s !! uuid = Some d -> create_update uuid s x = (x', Ret r) ->
  exists l, runs (map (fun b => create b d) (backends s)) x x' l /\
    omap id l = match r with Some u => [u] | None => [] end.
Proof.
  intros Hd. unfold create_update. rewrite Hd. intros Hr. by apply at_most_one_runs in Hr.
Qed.

(** (error) When two backends create an update for the same descriptor the request
    fails, but nothing they did is undone. *)
Theorem both_creations_stay (s : t D) uuid d b1 b2 x x1 x2 u1 u2 :
  published_descriptors_ s !! uuid = Some d -> backends s = [b1; b2] ->
  create b1 d x = (x1, Ret (Some u1)) -> create b2 d x1 = (x2, Ret (Some u2)) ->
  create_update uuid s x = (x2, Throw (LEOSACException "AtMostOneCombiner: A non-null pointer has already been returned.")).
Proof.
  intros Hd Hb H1 H2. unfold create_update. rewrite Hd, Hb. cbn. unfold mbind, api_bind. by rewrite H1, H2.
Qed.

Context `{!Table D Update.t} {J : Type} `{Json J} (serializer : Update.t -> option J).

(** (error) Acknowledging or cancelling an update that does not exist aborts the
    server: the backends, whose part it is not, ignore the null pointer, and the
    reply is made of it. *)
Theorem unknown_update_aborts (s : t D) (req : J) id x :
  id_of "update_id" req = Ret id -> find_row id (db x) = None ->
  Forall (fun b => ack b None x = (x, Ret None) /\ cancel b None x = (x, Ret None)) (backends s) ->
  AckUpdate serializer s req x = (x, Fault NullDeref) /\ CancelUpdate serializer s req x = (x, Fault NullDeref).
Proof.
  intros Hid Hf Hb.
  assert (Hall : forall f : backend D -> option Update.t -> api D (option Update.t), Forall (fun b => f b None x = (x, Ret None)) (backends s) ->
    call_all (map f (backends s)) None x = (x, Ret None)).
  { intros f. induction 1 as [|b l Hfb _ IH]; cbn [map call_all]; [done|]. unfold mbind, api_bind. cbn beta in Hfb. rewrite Hfb. apply IH. by inversion Hb. }
  unfold AckUpdate, CancelUpdate, change, ack_update, cancel_update, mbind, api_bind, lift, get_db. rewrite Hid. cbn [mret outcome_ret].
  rewrite Hf. by rewrite (Hall ack), (Hall cancel) by (eapply Forall_impl; [exact Hb|]; cbn; intros ? []; assumption).
Qed.

(** (functional) Each stored update is listed once: as pending, or in the history. *)
Theorem pending_or_past (x : server D) :
  exists pending, pending_updates x = (x, Ret pending) /\
    forall u, (In u (rows (db x)) <-> In u pending \/ In u (past_updates (db x))) /\
      ~ (In u pending /\ In u (past_updates (db x))).
Proof.
  eexists. split; [reflexivity|]. intros u. unfold past_updates. rewrite !filter_In.
  case_bool_decide; cbn; naive_solver.
Qed.

End properties.

(** * Witnesses *)

Module Demo.
Import UpdateService.

(** A database of updates, and a backend that stores the update it creates. *)
Definition updates_db : Type := list Update.t.
#[export] Instance update_table : Table updates_db Update.t := {|
  row_id := Update.id_;
  rows := fun d => d;
  find_row := fun i d => List.find (fun u => Update.id_ u =? i) d;
  persist_row := fun u d => Ret (u, d ++ [u]);
  update_row := fun _ d => Ret d;
  erase_row := fun _ d => Ret d;
|}.

Definition found : UpdateDescriptor.t := UpdateDescriptor.mk "u1" NORMAL "module" "new firmware".
Definition created (i : Z) : Update.t := Update.set_status 5 PENDING (Update.mk i 5 TRANSIENT 0 "module" "new firmware" 0).
Definition demo_backend (i : Z) : backend updates_db := mk_backend updates_db
  (mret [found])
  (fun d => change_row (persist_row (created i)) ≫= fun u => mret (Some u))
  (fun u => mret u) (fun u => mret u).

Definition one : t updates_db := register_backend (demo_backend 1) empty.
Definition two : t updates_db := register_backend (demo_backend 2) one.
Definition nothing : server updates_db := mk_server [] [].

(** The service when it has checked. *)
Definition checked (s : t updates_db) : t updates_db := mk (backends s) (publish [found]).

Lemma checked_witness : create_update "u1" (checked one) nothing = (mk_server [created 1] [], Ret (Some (created 1))) /\
  create_update "u0" (checked one) nothing = (nothing, Throw (LEOSACException "UpdateDescriptor doesn't exist anymore.")).
Proof.
  pose proof (creates_what_was_checked one (checked one) [found] nothing nothing eq_refl) as Hc. split.
  - destruct (Hc "u1" nothing) as [(d & _ & _ & ->)|[Hn _]]; [reflexivity|]. exfalso. apply Hn. left. reflexivity.
  - destruct (Hc "u0" nothing) as [(d & [<-|[]] & [=] & _)|[_ ->]]. reflexivity.
Defined.

Lemma one_backend_witness : exists l, length l = 1%nat /\ omap id l = [created 1].
Proof.
  destruct (one_backend_creates (checked one) "u1" found nothing (mk_server [created 1] []) (Some (created 1)) eq_refl eq_refl)
    as (l & Hl & Ho).
  exists l. split; [|exact Ho]. cbn in Hl. inversion Hl as [|? ? ? ? ? ? ? _ Hr]; subst. by inversion Hr.
Defined.

(** The two updates are stored although the request failed. *)
Lemma both_creations_witness : create_update "u1" (checked two) nothing =
  (mk_server [created 1; created 2] [], Throw (LEOSACException "AtMostOneCombiner: A non-null pointer has already been returned.")).
Proof.
  apply (both_creations_stay (checked two) "u1" found (demo_backend 1) (demo_backend 2) nothing (mk_server [created 1] [])
    (mk_server [created 1; created 2] []) (created 1) (created 2)); reflexivity.
Defined.

Lemma unknown_update_witness :
  AckUpdate (J := json) (fun _ => None) (checked one) (JObject [("update_id", JNumber 7)]) nothing = (nothing, Fault NullDeref).
Proof.
  apply (unknown_update_aborts (J := json) (fun _ => None) (checked one) (JObject [("update_id", JNumber 7)]) 7 nothing);
    [reflexivity|reflexivity|]. repeat constructor.
Defined.
End Demo.
