(* ===== verification/Notifiers.v ===== *)
(** The modules that pass on what readers see: the publisher of events
    [src/modules/event-publish/], the TCP notifier [src/modules/tcp-notifier/], the
    web service notifier [src/modules/ws-notifier/], and the reader of the
    LibLogicalAccess library [src/modules/lla/].

    The sockets are ZeroMQ's: what a module sends is a result of its handler. A
    stream socket tells a peer's connection and disconnection by a message with the
    peer's identity and no data. *)
From Stdlib Require Import ZArith Lia Ascii String.
From stdpp Require Import base tactics numbers list strings gmap.
From S2P Require Import Prelude Facades Ptree Reader Strategies Users Credentials AuthSource Schedules Profiles Zones AuthFile.

Import AuthSourceBuilder.

Open Scope Z_scope.

(** The topics of the sources of a configuration. *)
Definition source_topics {T} `{PropertyTree T} (sources : T) : list string := map (fun node => "S_" +:+ data node.2) (children sources).

(** What the handlers of bus messages begin with: the source, the card and its
    size, of a message of a card; nothing for any other. *)
Definition card_of (msg : message) : outcome (option (string * string * Z)) :=
  if (Z.of_nat (length msg) <? 4) then Ret None
  else
    '(src, msg) ← pop_str msg;
    '(type, msg) ← pop_u8 msg;
    '(card, msg) ← pop_str msg;
    '(bits, _) ← pop_int msg;
    Ret (if type =? SIMPLE_WIEGAND then Some (src, card, bits) else None).

(** * EventPublish *)

Module EventPublish.

Record t := mk { endpoint : string; publish_source_ : bool; topics : list string }.

Definition process_config {T} `{PropertyTree T} (config : T) : outcome t :=
  module_config ← get_child config "module_config";
  port ← get as_int module_config "port";
  let publish_source := get_default as_bool module_config "publish_source" false in
  sources ← get_child module_config "sources";
  Ret (mk ("tcp://*:" +:+ to_string port) publish_source (source_topics sources)).

(** [ss >> n] of a stream in hexadecimal that holds "0x" and the digits of the
    card: no digit gives 0, too many the largest number. *)
Definition read_hex (l : list ascii) : Z :=
  Z.min (hex_val (take_xdigits l)) (2 ^ 64 - 1).

(** The 20 bits after the first 14 of a frame of 35. *)
Definition identifier (card : string) : Z :=
  Z.land (Z.shiftr (read_hex (drop_colons (chars card))) 6) 0xFFFFF.

Definition handle_msg_bus (e : t) (msg : message) : outcome (option message) :=
  c ← card_of msg;
  Ret match c with
      | Some (src, card, bits) =>
          if bits =? 35 then
            let card := FStr (to_string (identifier card)) in
            Some (if publish_source_ e then [card; FStr src] else [card])
          else None
      | None => None
      end.

End EventPublish.

(** * The TCP notifier *)

Module NotifierInstance.

Record TargetInfo := mk_target { url_ : string; zmq_identity_ : string; status_ : bool }.

Record t := mk { targets_ : list TargetInfo; act_as_server_ : bool; topics : list string }.

Definition ids (n : t) : list string := map zmq_identity_ (targets_ n).

(** [ProtocolHandler::create]: the only protocol. *)
Definition SIMPLE_CARD_NUMBER : Z := 0.
Definition protocol_known (protocol_id : Z) : bool := protocol_id =? SIMPLE_CARD_NUMBER.

(** The bytes of a 64-bit integer, the most significant first. *)
Definition htonll (z : Z) : list Z := map (fun k => (z / 2 ^ (8 * (7 - Z.of_nat k))) mod 256) (seq 0 8).

(** [PushSimpleCardNumber::build_cred_msg]. *)
Definition build_cred_msg (card : RFIDCard.t) : outcome (list Z) := n ← RFIDCard.to_int card; Ret (htonll n).

(** The constructor: the endpoints to connect to come with the identity ZeroMQ
    gives each connection. *)
Definition make (auth_sources : list string) (connect_to : list (string * string)) (bind_to : list string) : outcome t :=
  _ ← cassert (bool_decide (connect_to = []) || bool_decide (bind_to = []));
  _ ← cassert (negb (bool_decide (connect_to = [])) || negb (bool_decide (bind_to = [])));
  let act_as_server := negb (bool_decide (bind_to = [])) in
  let targets := if act_as_server then [] else map (fun p => mk_target ("tcp://" +:+ p.1) p.2 false) connect_to in
  Ret (mk targets act_as_server (map (fun src => "S_" +:+ src) auth_sources)).

Definition find_target (routing_id : string) (n : t) : option TargetInfo :=
  List.find (fun target => String.eqb (zmq_identity_ target) routing_id) (targets_ n).

(** Writing to the target [find_target] points to. *)
Fixpoint flip_first (routing_id : string) (l : list TargetInfo) : list TargetInfo :=
  match l with
  | [] => []
  | x :: l => if String.eqb (zmq_identity_ x) routing_id then mk_target (url_ x) (zmq_identity_ x) (negb (status_ x)) :: l
              else x :: flip_first routing_id l
  end.

Definition set_targets (l : list TargetInfo) (n : t) : t := mk l (act_as_server_ n) (topics n).

(** [handle_one]: the identity of the peer and its data. *)
Definition handle_one (routing_id : string) (data : list Z) (n : t) : outcome t :=
  match data with
  | _ :: _ => Ret n
  | [] =>
      let target := find_target routing_id n in
      if act_as_server_ n then
        match target with
        | None => Ret (set_targets (targets_ n ++ [mk_target "" routing_id true]) n)
        | Some _ => Ret (set_targets (List.filter (fun i => negb (String.eqb (zmq_identity_ i) routing_id)) (targets_ n)) n)
        end
      else
        _ ← cassert (bool_decide (is_Some target));
        Ret (set_targets (flip_first routing_id (targets_ n)) n)
  end.

(** The messages waiting on the socket. *)
Definition handle_tcp_msg (msgs : list (string * list Z)) (n : t) : outcome t :=
  foldM (fun n m => handle_one m.1 m.2 n) n msgs.

(** [handle_credential]: what is sent to whom. A send that would block is only
    logged. *)
Definition handle_credential (card : RFIDCard.t) (n : t) : outcome (list (string * list Z)) :=
  foldM (fun sent target =>
      if status_ target then data ← build_cred_msg card; Ret (sent ++ [(zmq_identity_ target, data)]) else Ret sent)
    [] (targets_ n).

Definition handle_msg_bus (msg : message) (n : t) : outcome (list (string * list Z)) :=
  c ← card_of msg;
  match c with
  | Some (_, card, bits) => card ← RFIDCard.make card bits; handle_credential card n
  | None => Ret []
  end.

End NotifierInstance.

Module TCPNotifierModule.
Section config.
Context {T : Type} `{PropertyTree T}.
(** The identities ZeroMQ gives the connections. *)
Context (identity : string -> string).

(** A list of nodes with the tag [tag]; an absent list is empty. *)
Definition names (tag : string) (nodes : T) : outcome (list string) :=
  foldM (fun l node => _ ← xmlnne tag node.1; Ret (l ++ [data node.2])) [] (children nodes).
Definition optional_names (tag key : string) (node : T) : outcome (list string) :=
  match get_child_optional node key with Some nodes => names tag nodes | None => Ret [] end.

(** [PropertyTreeExtractor::get<int>]. *)
Definition extract_protocol (node : T) : outcome Z :=
  match get as_int node "protocol" with
  | Ret i => Ret i
  | _ => Throw (ConfigException "TCP-Notifier: protocol")
  end.

(** An instance: none when the configuration is refused. *)
Definition load_instance (node : string * T) : outcome (option NotifierInstance.t) :=
  _ ← xmlnne "instance" node.1;
  sources ← get_child node.2 "sources";
  auth_sources ← names "source" sources;
  connects ← optional_names "endpoint" "connect" node.2;
  binds ← optional_names "endpoint" "bind" node.2;
  if negb (bool_decide (connects = [])) && negb (bool_decide (binds = [])) then Ret None
  else
    protocol_id ← extract_protocol node.2;
    if NotifierInstance.protocol_known protocol_id
    then n ← NotifierInstance.make auth_sources (map (fun e => (e, identity e)) connects) binds; Ret (Some n)
    else Ret None.

Definition process_config (config : T) : outcome (list NotifierInstance.t) :=
  module_config ← get_child config "module_config";
  foldM (fun l node => i ← load_instance node; Ret (l ++ option_list i)) [] (children module_config).

End config.
End TCPNotifierModule.

(** * The web service notifier *)

Module WebServiceNotifier.

Record TargetInfo := mk_target {
  url_ : string; connect_timeout_ : Z; request_timeout_ : Z; verify_host_ : bool; verify_peer_ : bool; CA_info_file_ : string }.
Record t := mk { topics : list string; targets_ : list TargetInfo }.

(** The request given to curl: the options that are set, and the body. *)
Record request := mk_request {
  request_target : TargetInfo;
  ca_info : option string;
  ssl_verify_host : bool;
  ssl_verify_peer : bool;
  post_fields : string;
}.

Section config.
Context {T : Type} `{PropertyTree T}.

Definition load_target (node : T) : outcome TargetInfo :=
  url ← get as_string node "url";
  Ret (mk_target url (get_default as_int node "connect_timeout" 7000) (get_default as_int node "request_timeout" 7000)
    (get_default as_bool node "verify_host" true) (get_default as_bool node "verify_peer" true)
    (get_default as_string node "ca_file" "")).

Definition process_config (config : T) : outcome t :=
  module_config ← get_child config "module_config";
  sources ← get_child module_config "sources";
  targets ← get_child module_config "targets";
  l ← foldM (fun l node => target ← load_target node.2; Ret (l ++ [target])) [] (children targets);
  Ret (mk (source_topics sources) l).
End config.

(** [send_to_target] is [noexcept]: an exception ends the program. *)
Definition no_except {A} (m : outcome A) : outcome A := match m with Throw _ => Fault Terminated | r => r end.

Definition send_to_target (auth_source : string) (card : RFIDCard.t) (target : TargetInfo) : outcome request :=
  no_except (
    card_id ← RFIDCard.to_int card;
    card_id_raw ← RFIDCard.to_raw_int card;
    Ret (mk_request target
      (if str_empty (CA_info_file_ target) then None else Some (CA_info_file_ target))
      (verify_host_ target) (verify_peer_ target)
      ("card_id=" +:+ to_string card_id +:+ "&auth_source=" +:+ auth_source +:+ "&card_id_raw=" +:+ to_string card_id_raw))).

(** The requests made, when curl has a handle for each. *)
Definition send_card_info_to_remote (auth_source card_hex : string) (nb_bits : Z) (w : t) : outcome (list request) :=
  card ← RFIDCard.make card_hex nb_bits;
  foldM (fun sent target => r ← send_to_target auth_source card target; Ret (sent ++ [r])) [] (targets_ w).

Definition handle_msg_bus (msg : message) (w : t) : outcome (list request) :=
  c ← card_of msg;
  match c with Some (src, card, bits) => send_card_info_to_remote src card bits w | None => Ret [] end.

End WebServiceNotifier.

(** * The readers of LibLogicalAccess *)

Module LLA.

(** The loop of [Worker::run] over the digits of a card: a colon every two. *)
Definition csn_formatted (card_id : string) : string :=
  text (foldl (fun acc c => (acc.1 ++ (if (negb (acc.2 =? 0)) && (acc.2 mod 2 =? 0) then [":"%char] else []) ++ [c], acc.2 + 1))
          ([], 0) (chars card_id)).1.

(** What [signal] pushes on the bus. *)
Definition signal (source_name csn : string) : message := [FStr ("S_" +:+ source_name); FU8 SIMPLE_CSN; FStr csn].

(** A turn of [Worker::run]: what the library gives of a card, if any. *)
Definition turn (source_name : string) (poll : option string) : list message :=
  match poll with Some card_id => [signal source_name (csn_formatted card_id)] | None => [] end.

End LLA.

(** * Properties *)

(** (functional) The publisher sends the 20 bits after the first 14 of a frame of 35
    bits, in decimal, and the name of the source when it is configured to; it sends
    nothing for a card of another size or for a message that is no card. *)
Theorem identifier_published e src bits : length bits = 35%nat ->
  EventPublish.handle_msg_bus e [FStr src; FU8 SIMPLE_WIEGAND; FStr (card_text bits); FInt 35] =
    Ret (Some (FStr (to_string (bits_val (take 20 (drop 14 bits)))) :: (if EventPublish.publish_source_ e then [FStr src] else []))) /\
  forall msg c, card_of msg = Ret c -> (match c with Some (_, _, n) => n <> 35 | None => True end) ->
    EventPublish.handle_msg_bus e msg = Ret None.
Proof.
  intros Hl. split.
  - assert (Hid : EventPublish.identifier (card_text bits) = bits_val (take 20 (drop 14 bits))).
    { unfold EventPublish.identifier, EventPublish.read_hex.
      assert (Hby : Forall is_byte (frame_bytes bits)) by (apply frame_bytes_bytes; lia).
      rewrite chars_card_text, drop_colons_join, take_xdigits_all, hex_val_flat, frame_value by (done || lia || by apply xdigits_flat).
      assert (Hs : frame_size bits = 5%nat) by (unfold frame_size; by rewrite Hl). rewrite Hs, Hl.
      change (2 ^ (8 * Z.of_nat 5 - Z.of_nat 35)) with 32.
      pose proof (bits_val_range bits) as Hr. rewrite Hl in Hr. change (2 ^ Z.of_nat 35) with 34359738368 in Hr.
      rewrite Z.min_l by lia. change 0xFFFFF with (Z.ones 20). rewrite Z.land_ones, Z.shiftr_div_pow2 by lia.
      change (2 ^ 6) with 64. change (2 ^ 20) with 1048576.
      pose proof (bits_val_range (take 20 (drop 14 bits))) as H20. pose proof (bits_val_range (drop 34 bits)) as H1.
      assert (Hb : bits = take 14 bits ++ take 20 (drop 14 bits) ++ drop 34 bits).
      { rewrite <- (take_drop 14 bits) at 1. f_equal. rewrite <- (take_drop 20 (drop 14 bits)) at 1. by rewrite drop_drop. }
      rewrite length_take, length_drop, Hl in H20. rewrite length_drop, Hl in H1.
      change (2 ^ Z.of_nat (20 `min` (35 - 14))) with 1048576 in H20. change (2 ^ Z.of_nat (35 - 34)) with 2 in H1.
      rewrite Hb at 1. rewrite !bits_val_app, length_app, length_take, !length_drop, Hl.
      change (2 ^ Z.of_nat (20 `min` (35 - 14) + (35 - 34))) with 2097152. change (2 ^ Z.of_nat (35 - 34)) with 2.
      set (a := bits_val (take 14 bits)). set (b := bits_val (take 20 (drop 14 bits))) in *. set (p := bits_val (drop 34 bits)) in *.
      symmetry. apply Z.mod_unique with (q := a); [lia|]. symmetry. apply Z.div_unique with (r := p * 32); lia. }
    unfold EventPublish.handle_msg_bus. change (card_of _) with (Ret (Some (src, card_text bits, 35))).
    rewrite ret_bind. cbn [Z.eqb Pos.eqb]. rewrite Hid. by destruct (EventPublish.publish_source_ e).
  - intros msg [[[src' card] n]|] Hc Hn; unfold EventPublish.handle_msg_bus; rewrite Hc; cbn; [|done].
    by rewrite (proj2 (Z.eqb_neq _ _)).
Qed.

Section notifier.
Import NotifierInstance.

(** How many times a peer has been told connected or disconnected. *)
Definition announcements (id : string) (msgs : list (string * list Z)) : nat :=
  length (List.filter (fun m => String.eqb m.1 id && bool_decide (m.2 = [])) msgs).

Lemma announcements_snoc id msgs m : announcements id (msgs ++ [m]) =
  (announcements id msgs + (if String.eqb m.1 id && bool_decide (m.2 = []) then 1 else 0))%nat.
Proof. unfold announcements. rewrite List.filter_app, length_app. cbn. by destruct (_ && _). Qed.

Lemma find_target_ids id n : is_Some (find_target id n) <-> In id (ids n).
Proof.
  unfold find_target, ids. split.
  - intros [x Hx]. apply find_some in Hx as [Hin E]. apply String.eqb_eq in E. apply in_map_iff. by exists x.
  - intros Hin. apply in_map_iff in Hin as (x & E & Hin). destruct (List.find _ _) eqn:Hf; [done|].
    pose proof (find_none _ _ Hf _ Hin) as Hn. cbn in Hn. by rewrite E, String.eqb_refl in Hn.
Qed.

(** What is true of a server after some messages. *)
Record tracks (msgs : list (string * list Z)) (n : t) : Prop := {
  tracks_server : act_as_server_ n = true;
  tracks_connected : Forall (fun x => status_ x = true) (targets_ n);
  tracks_once : List.NoDup (ids n);
  tracks_odd id : In id (ids n) <-> Nat.odd (announcements id msgs) = true;
}.

Lemma filter_ids f l : map zmq_identity_ (List.filter (fun i => f (zmq_identity_ i)) l) = List.filter f (map zmq_identity_ l).
Proof. induction l as [|x l IH]; cbn; [done|]. destruct (f _); cbn; by rewrite IH. Qed.

Lemma odd_succ k : Nat.odd (k + 1) = negb (Nat.odd k).
Proof. by rewrite Nat.add_1_r, Nat.odd_succ, <- Nat.negb_odd. Qed.

Lemma tracks_step msgs n m : tracks msgs n -> exists n', handle_one m.1 m.2 n = Ret n' /\ tracks (msgs ++ [m]) n'.
Proof.
  intros [Hs Hc Ho Hi]. destruct m as [id [|b data]]; cbn [fst snd handle_one].
  2: { exists n. split; [done|]. split; [done..|]. intros j. rewrite announcements_snoc, bool_decide_eq_false_2 by done.
       cbn. by rewrite andb_false_r, Nat.add_0_r. }
  rewrite Hs. pose proof (find_target_ids id n) as Hf.
  assert (Hann : forall j, Nat.odd (announcements j (msgs ++ [(id, [])])) = if String.eqb id j then negb (Nat.odd (announcements j msgs)) else Nat.odd (announcements j msgs)).
  { intros j. rewrite announcements_snoc. cbn. rewrite andb_true_r. destruct (String.eqb id j); [apply odd_succ|by rewrite Nat.add_0_r]. }
  destruct (find_target id n) as [x|] eqn:Ex; eexists; (split; [reflexivity|]); split; cbn [act_as_server_ set_targets targets_]; try done.
  - apply List.Forall_forall. intros y Hy. apply filter_In in Hy as [Hy _]. rewrite List.Forall_forall in Hc. by apply Hc.
  - unfold ids. cbn [targets_ set_targets]. rewrite (filter_ids (fun i => negb (String.eqb i id))). by apply List.NoDup_filter.
  - intros j. unfold ids. cbn [targets_ set_targets]. rewrite (filter_ids (fun i => negb (String.eqb i id))), filter_In, Hann.
    destruct (String.eqb_spec id j) as [<-|Hne].
    + rewrite String.eqb_refl. assert (Hodd : Nat.odd (announcements id msgs) = true) by (apply Hi, Hf; eauto). rewrite Hodd. cbn. naive_solver.
    + rewrite (proj2 (String.eqb_neq j id)) by done. cbn. rewrite <- Hi. naive_solver.
  - apply Forall_app_2; [done|]. by repeat constructor.
  - unfold ids. cbn [targets_ set_targets]. rewrite map_app. cbn. apply List.NoDup_app; [done|by repeat constructor; intros []|].
    intros j Hj [<-|[]]. by apply Hf in Hj as [? ?].
  - intros j. unfold ids. cbn [targets_ set_targets]. rewrite map_app, in_app_iff, Hann. cbn.
    destruct (String.eqb_spec id j) as [<-|Hne].
    + assert (Nat.odd (announcements id msgs) = false) as ->.
      { destruct (Nat.odd _) eqn:Hodd; [|done]. apply Hi, Hf in Hodd as [? ?]. done. }
      cbn. naive_solver.
    + rewrite <- Hi. naive_solver.
Qed.

Lemma tracks_run msgs n0 : tracks [] n0 -> exists n, handle_tcp_msg msgs n0 = Ret n /\ tracks msgs n.
Proof.
  intros H0. induction msgs as [|m msgs IH] using rev_ind; [by exists n0|]. destruct IH as (n1 & Hr & Ht).
  destruct (tracks_step msgs n1 m Ht) as (n2 & Hs & Ht2). exists n2. split; [|done].
  unfold handle_tcp_msg in *. rewrite foldM_app, Hr. cbn. by rewrite Hs.
Qed.

(** (invariant) A notifier that accepts connections knows its clients: whatever
    the messages of the socket, its targets are the peers announced an odd number of
    times, each once, and a card is sent once to each of them, as its number in 8
    bytes, and to nobody else. *)
Theorem cards_reach_clients sources binds n0 msgs card v :
  make sources [] binds = Ret n0 -> RFIDCard.to_int card = Ret v ->
  exists n, handle_tcp_msg msgs n0 = Ret n /\ List.NoDup (ids n) /\
    (forall id, In id (ids n) <-> Nat.odd (announcements id msgs) = true) /\
    handle_credential card n = Ret (map (fun id => (id, htonll v)) (ids n)).
Proof.
  intros Hm Hv. assert (H0 : tracks [] n0).
  { unfold make in Hm. cbn in Hm. bind_inv Hm. injection Hm as <-. apply cassert_Ret in E. cbn in E. rewrite E.
    split; cbn; [done|constructor|constructor|]. intros id. by split. }
  destruct (tracks_run msgs n0 H0) as (n & Hr & [_ Hc Ho Hi]). exists n. split; [done|]. split; [done|]. split; [done|].
  unfold handle_credential, ids. clear -Hc Hv. induction (targets_ n) as [|x l IH] using rev_ind; [done|].
  apply Forall_app in Hc as [Hl Hx]. inversion Hx as [|? ? Hst _]; subst. rewrite foldM_app, IH by done. cbn.
  rewrite Hst. unfold build_cred_msg. rewrite Hv. cbn. by rewrite !map_app.
Qed.

(** The bytes spell the number. *)
Lemma big_endian n v : 0 <= v ->
  bytes_val (map (fun k => (v / 2 ^ (8 * (Z.of_nat n - 1 - Z.of_nat k))) mod 256) (seq 0 n)) = v mod 256 ^ Z.of_nat n.
Proof.
  revert v. induction n as [|n IH]; intros v Hv; [by rewrite Z.mod_1_r|].
  rewrite seq_S, map_app, bytes_val_app. cbn [map bytes_val length Nat.add]. rewrite Nat2Z.inj_succ.
  replace (8 * (Z.succ (Z.of_nat n) - 1 - Z.of_nat n)) with 0 by lia. change (2 ^ 0) with 1. rewrite Z.div_1_r.
  rewrite (map_ext_in _ (fun k => ((v / 256) / 2 ^ (8 * (Z.of_nat n - 1 - Z.of_nat k))) mod 256)).
  - rewrite IH by (apply Z.div_pos; lia). change (256 ^ Z.of_nat 1) with 256. change (256 ^ Z.of_nat 0) with 1.
    rewrite Z.pow_succ_r, Z.rem_mul_r by lia. lia.
  - intros k Hk. apply in_seq in Hk. rewrite Z.div_div by lia. change 256 with (2 ^ 8) at 2. rewrite <- Z.pow_add_r by lia.
    by replace (8 * (Z.succ (Z.of_nat n) - 1 - Z.of_nat k)) with (8 + 8 * (Z.of_nat n - 1 - Z.of_nat k)) by lia.
Qed.
Lemma htonll_value v : 0 <= v < 2 ^ 64 -> bytes_val (htonll v) = v.
Proof.
  intros Hv. pose proof (big_endian 8 v ltac:(lia)) as Hb. change (256 ^ Z.of_nat 8) with (2 ^ 64) in Hb.
  rewrite Z.mod_small in Hb by lia. exact Hb.
Qed.
End notifier.

(** (roundtrip) The colons the reader puts in a serial number are those the builder
    of credentials expects: the bytes of the card are the bytes of the credential. *)
Lemma csn_format_bytes bytes : LLA.csn_formatted (text (flat_map hex_byte bytes)) = text (join_hex bytes).
Proof.
  unfold LLA.csn_formatted. rewrite chars_text. f_equal.
  set (step := fun (acc : list ascii * Z) c => _).
  assert (Hstep : forall bytes acc n, 0 < n -> n mod 2 = 0 ->
    (foldl step (acc, n) (flat_map hex_byte bytes)).1 = acc ++ flat_map (fun b => ":"%char :: hex_byte b) bytes).
  { induction bytes0 as [|b l IH]; intros acc n Hn Hm; cbn [flat_map]; [by rewrite app_nil_r|].
    rewrite foldl_app. cbn [foldl hex_byte]. unfold step at 2 3. cbn [fst snd].
    rewrite Hm, (proj2 (Z.eqb_neq n 0)) by lia. cbn [negb andb Z.eqb].
    replace ((n + 1) mod 2) with 1 by (rewrite Z.add_mod, Hm by lia; done). rewrite andb_false_r. cbn [app].
    rewrite IH; [by rewrite <- !app_assoc|lia|]. replace (n + 1 + 1) with (n + 1 * 2) by lia. by rewrite Z_mod_plus_full. }
  destruct bytes as [|b bytes]; [done|]. cbn [flat_map]. rewrite foldl_app. cbn [foldl hex_byte]. unfold step at 2 3.
  cbn -[foldl flat_map]. rewrite Hstep by done. clear. revert b.
  induction bytes as [|b' l IH]; intros b; [done|]. cbn [flat_map join_hex]. cbn. rewrite <- IH. done.
Qed.

(** (roundtrip) A serial number the LibLogicalAccess readers push is understood by
    the builder of credentials, with its bytes in order. *)
Theorem csn_understood source bytes : Forall is_byte bytes -> (0 < length bytes < 1000)%nat -> source <> "" ->
  exists c, create (LLA.signal source (LLA.csn_formatted (text (flat_map hex_byte bytes)))) = Ret (Card c) /\
    drop_colons (chars (RFIDCard.card_id_ c)) = flat_map hex_byte bytes.
Proof.
  intros Hb Hl Hs. rewrite csn_format_bytes. unfold LLA.signal. eexists. split.
  - apply csn_bits_doubled; [done|done|]. destruct source as [|c s]; [done|]. by eexists.
  - cbn [RFIDCard.card_id_]. rewrite chars_text. by apply drop_colons_join.
Qed.

Section post.
Import WebServiceNotifier.

(** (functional) A badge is posted once to every target, with its number, the raw
    number its bits spell and the source; the handler ends without exception. *)
Theorem badge_posted w src bits v : (0 < length bits <= 64)%nat -> RFIDCard.to_int (frame_card bits) = Ret v ->
  exists requests, handle_msg_bus [FStr src; FU8 SIMPLE_WIEGAND; FStr (card_text bits); FInt (Z.of_nat (length bits))] w = Ret requests /\
    map request_target requests = targets_ w /\
    Forall (fun r => post_fields r = "card_id=" +:+ to_string v +:+ "&auth_source=" +:+ src +:+ "&card_id_raw=" +:+ to_string (bits_val bits))
      requests.
Proof.
  intros Hl Hv. unfold handle_msg_bus. change (card_of _) with (Ret (Some (src, card_text bits, Z.of_nat (length bits)))).
  rewrite ret_bind. unfold send_card_info_to_remote. rewrite make_card_text, ret_bind by lia. fold (frame_card bits).
  induction (targets_ w) as [|x l IH] using rev_ind; [exists []; split; [done|split; [done|constructor]]|].
  destruct IH as (rs & Hr & Hm & Hf). eexists (rs ++ [_]). rewrite foldM_app, Hr, ret_bind. cbn [foldM]. unfold send_to_target.
  rewrite Hv, ret_bind. unfold frame_card at 1. rewrite raw_int_frame, ret_bind by done. cbn [no_except]. rewrite ret_bind.
  split; [reflexivity|]. split; [rewrite map_app; cbn; by rewrite Hm|]. apply Forall_app_2; [done|]. by repeat constructor.
Qed.
End post.

(** * Witnesses *)

Module Demo.

Definition demo_bits : list bool := replicate 14 true ++ byte_bits 0 ++ byte_bits 5 ++ [false; false; true; true] ++ [true].

Lemma identifier_witness :
  EventPublish.handle_msg_bus (EventPublish.mk "tcp://*:7000" true ["S_r"])
    [FStr "S_r"; FU8 SIMPLE_WIEGAND; FStr (card_text demo_bits); FInt 35] = Ret (Some [FStr "83"; FStr "S_r"]).
Proof. exact (proj1 (identifier_published (EventPublish.mk "tcp://*:7000" true ["S_r"]) "S_r" demo_bits eq_refl)). Defined.

Definition one_byte : list bool := byte_bits 200.
Definition first : NotifierInstance.t := NotifierInstance.mk [] true ["S_r"].

(** Two clients connect, then the first leaves. *)
Lemma clients_witness : exists n,
  NotifierInstance.handle_tcp_msg [("a", []); ("b", []); ("a", [1]); ("a", [])] first = Ret n /\
  NotifierInstance.handle_credential (frame_card one_byte) n = Ret [("b", [0; 0; 0; 0; 0; 0; 0; 200])].
Proof.
  destruct (cards_reach_clients ["r"] ["*:9000"] first [("a", []); ("b", []); ("a", [1]); ("a", [])] (frame_card one_byte) 200)
    as (n & Hn & _ & _ & Hc); [reflexivity|vm_compute; reflexivity|].
  exists n. split; [exact Hn|]. rewrite Hc. revert Hn. vm_compute. intros [= <-]. reflexivity.
Defined.

Lemma csn_witness : exists c, create (LLA.signal "r" "04:a2:7f") = Ret (Card c) /\ RFIDCard.card_id_ c = "04:a2:7f".
Proof.
  destruct (csn_understood "r" [4; 162; 127]) as (c & Hc & Hd); [by repeat constructor|cbn; lia|done|].
  exists c. split; [exact Hc|]. assert (create (LLA.signal "r" "04:a2:7f") = Ret (Card (RFIDCard.mk Credential.make "04:a2:7f" 48))) as E
    by (vm_compute; reflexivity). assert (Ret (Card c) = Ret (Card (RFIDCard.mk Credential.make "04:a2:7f" 48))) as Hcc
    by (rewrite <- E; symmetry; exact Hc). by injection Hcc as ->.
Defined.

Definition hook : WebServiceNotifier.TargetInfo := WebServiceNotifier.mk_target "https://far/hook" 7000 7000 true true "".

Lemma badge_witness : exists r, WebServiceNotifier.handle_msg_bus [FStr "S_r"; FU8 SIMPLE_WIEGAND; FStr (card_text one_byte); FInt 8]
    (WebServiceNotifier.mk ["S_r"] [hook]) = Ret [r] /\
  WebServiceNotifier.post_fields r = "card_id=200&auth_source=S_r&card_id_raw=200".
Proof.
  destruct (badge_posted (WebServiceNotifier.mk ["S_r"] [hook]) "S_r" one_byte 200) as (rs & Hr & Hm & Hf);
    [cbn; lia|vm_compute; reflexivity|].
  destruct rs as [|r [|r2 rs]]; [discriminate Hm| |discriminate Hm].
  exists r. split; [exact Hr|]. apply Forall_inv in Hf. rewrite Hf. reflexivity.
Defined.
End Demo.
