(* ===== verification/Watchers.v ===== *)
(** The modules that watch the bus: the monitor [src/modules/monitor/], which logs
    every message and shows on LEDs that the system, the network and a reader are
    up, and the test and reset module [src/modules/test-and-reset/], which knows
    cards that restart the program or try its LED and buzzer. *)
From Stdlib Require Import ZArith Lia Ascii String.
From stdpp Require Import base tactics numbers list strings gmap.
From S2P Require Import Prelude Facades Ptree Strategies Wiegand Led.

Open Scope Z_scope.

(** * Monitor *)

Module MonitorModule.

(** [system_bus_logger]: whether the logger of the bus was made. [last_ping_]:
    [None] is [TimePoint::max()]. LEDs are known by their names. *)
Record t := mk {
  system_bus_logger : bool;
  topics : list string;
  verbose_ : bool;
  last_ping_ : option Z;
  addr_to_ping_ : string;
  network_led_ : option string;
  system_led_ : option string;
  reader_to_watch_ : string;
  reader_led_ : option string;
}.

Section config.
Context {T : Type} `{PropertyTree T}.

Definition process_network_config (module_config : T) (m : t) : outcome t :=
  match get_child_optional module_config "ping" with
  | None => Ret m
  | Some ping_node =>
      ip ← get as_string ping_node "ip";
      network_led_name ← get as_string ping_node "led";
      Ret (mk (system_bus_logger m) (topics m) (verbose_ m) (last_ping_ m) ip (Some network_led_name) (system_led_ m)
             (reader_to_watch_ m) (reader_led_ m))
  end.

Definition process_reader_config (module_config : T) (m : t) : outcome t :=
  match get_child_optional module_config "reader" with
  | None => Ret m
  | Some reader_node =>
      name ← get as_string reader_node "name";
      reader_led_name ← get as_string reader_node "led";
      Ret (mk (system_bus_logger m) (topics m ++ ["S_" +:+ name]) (verbose_ m) (last_ping_ m) (addr_to_ping_ m) (network_led_ m)
             (system_led_ m) name (Some reader_led_name))
  end.

Definition process_config (config : T) : outcome t :=
  module_config ← get_child config "module_config";
  let system_bus_log_file := get_default as_string module_config "file-bus" "" in
  let verbose := get_default as_bool module_config "verbose" false in
  let system_led_name := get_default as_string module_config "system_ok" "" in
  let logger := negb (str_empty system_bus_log_file) in
  let m := mk logger (if logger then [""] else []) verbose None "" None
             (if str_empty system_led_name then None else Some system_led_name) "" None in
  m ← process_network_config module_config m;
  process_reader_config module_config m.

End config.

Definition isprint (c : ascii) : bool := in_range " " c "~".

(** [z85_pad]. *)
Definition z85_pad (in_ : string) (pad_char : ascii) : string :=
  text (chars in_ ++ replicate ((4 - length (chars in_) mod 4) mod 4)%nat pad_char).

Section run.
Context {W : Type} `{Peers W}.
(** ZeroMQ's encoder, the script that pings an address, and whether the spdlog
    logger of the standard output exists when it is asked for. *)
Context (z85_encode : string -> string) (ping : string -> W -> W * Z).

(** A frame in the log. *)
Definition frame_text (i : nat) (buf : string) : string :=
  let buf := if forallb isprint (chars buf) then buf else z85_encode (z85_pad buf (ascii_of_N 0)) in
  "F" +:+ to_string (Z.of_nat i) +:+ ": {" +:+ buf +:+ "} ; ".

Fixpoint full_msg (i : nat) (frames : list string) : string :=
  match frames with [] => "" | buf :: frames => frame_text i buf +:+ full_msg (S i) frames end.

Definition light (led : option string) (f : string -> io W bool) : io W unit :=
  match led with Some l => _ ← f l; mret tt | None => mret tt end.

(** [log_system_bus]: the lines written to the log and to the standard output. *)
Definition log_system_bus (frames : list string) (m : t) : io W (string * option string) :=
  _ ← pure (cassert (system_bus_logger m));
  let src := match frames with src :: _ => src | [] => "" end in
  let line := full_msg 0 frames in
  _ ← (if String.eqb src ("S_" +:+ reader_to_watch_ m) then light (reader_led_ m) (fun l => FLED.turnOn_for l 500) else mret tt);
  _ ← (if String.eqb src "KERNEL" then light (system_led_ m) FLED.turnOn else mret tt);
  mret (line, if verbose_ m then Some line else None).

Definition test_ping (m : t) : io W unit :=
  if str_empty (addr_to_ping_ m) then mret tt
  else
    ret ← act (fun w => let '(w, r) := ping (addr_to_ping_ m) w in (w, Ret r));
    network_led ← pure (deref (network_led_ m));
    _ ← (if ret =? 0 then FLED.turnOn network_led else FLED.turnOff network_led);
    mret tt.

Definition ping_due (now : Z) (m : t) : bool :=
  match last_ping_ m with None => true | Some last => 3 <? Z.quot (now - last) 1000000000 end.

(** A turn of [run], after the messages are handled. *)
Definition turn (now now' : Z) (m : t) : io W t :=
  if ping_due now m then
    _ ← test_ping m;
    mret (mk (system_bus_logger m) (topics m) (verbose_ m) (Some now') (addr_to_ping_ m) (network_led_ m) (system_led_ m)
            (reader_to_watch_ m) (reader_led_ m))
  else mret m.

End run.
End MonitorModule.

(** * TestAndReset *)

Module TestAndResetModule.

(** [awaiting]: the request socket to the kernel has sent and has not received. *)
Record t := mk {
  device_reset_card_ : gmap string string;
  device_test_card_ : gmap string string;
  test_led_ : option string;
  test_buzzer_ : option string;
  run_on_start_ : bool;
  promisc_ : bool;
  topics : list string;
  awaiting : bool;
}.

Definition put_cards (reset test : gmap string string) (topics' : list string) (m : t) : t :=
  mk reset test (test_led_ m) (test_buzzer_ m) (run_on_start_ m) (promisc_ m) topics' (awaiting m).

Section config.
Context {T : Type} `{PropertyTree T} (strict : bool) (checker : ConfigChecker.t).

Definition config_check (name : string) : outcome unit := cassert (ConfigChecker.has_name name checker || negb strict).

Definition set_card (name card : string) (m : gmap string string) : gmap string string :=
  if str_empty card then m else <[name := card]> m.

Definition add_device (m : t) (node : string * T) : outcome t :=
  name_node ← get_child node.2 "name";
  let device_name := data name_node in
  _ ← config_check device_name;
  let reset_card := get_default as_string node.2 "reset_card" "" in
  let test_card := get_default as_string node.2 "test_card" "" in
  Ret (put_cards (set_card device_name reset_card (device_reset_card_ m)) (set_card device_name test_card (device_test_card_ m))
         (topics m ++ ["S_" +:+ device_name]) m).

Definition led_name (s : string) : option string := if str_empty s then None else Some s.

Definition process_config (config : T) : outcome t :=
  module_config ← get_child config "module_config";
  let m := mk ∅ ∅ (led_name (get_default as_string module_config "test_led" ""))
             (led_name (get_default as_string module_config "test_buzzer" ""))
             (get_default as_bool module_config "run_on_start" true) (get_default as_bool module_config "promisc" false) [] false in
  m ← match get_child_optional module_config "devices" with
      | Some devices => foldM add_device m (children devices)
      | None => Ret m
      end;
  if promisc_ m then
    reset_card ← get as_string module_config "reset_card";
    Ret (put_cards (<["__promisc" := reset_card]> (device_reset_card_ m)) (device_test_card_ m) (topics m ++ [""]) m)
  else Ret m.

End config.

Definition has_reset_card (card_id : string) (m : t) : bool :=
  existsb (fun p : string * string => String.eqb p.2 card_id) (map_to_list (device_reset_card_ m)).

Definition is_card (cards : gmap string string) (src card : string) : bool := bool_decide (cards !! src = Some card).

(** [src.substr(2, ...)]. *)
Definition strip_topic (src : string) : outcome string :=
  match src with String _ (String _ name) => Ret name | _ => Throw StdOutOfRange end.

Section run.
Context {W : Type} `{Peers W}.

Definition blink (device : option string) : io W unit :=
  match device with Some d => _ ← FLED.blink_for d 4000 500; mret tt | None => mret tt end.
Definition run_test_sequence (m : t) : io W unit := _ ← blink (test_buzzer_ m); blink (test_led_ m).

Definition set_awaiting (m : t) : t :=
  mk (device_reset_card_ m) (device_test_card_ m) (test_led_ m) (test_buzzer_ m) (run_on_start_ m) (promisc_ m) (topics m) true.

(** [kernel_sock_.send("RESET")]: the kernel never answers, and a request socket
    does not send twice in a row. *)
Definition send_reset (m : t) : outcome t :=
  if awaiting m then Throw (StdRuntimeError "Operation cannot be accomplished in current state")
  else Ret (set_awaiting m).

(** [handle_bus_msg]: the module, and whether it asked for a restart. *)
Definition handle_bus_msg (msg : message) (m : t) : io W (t * bool) :=
  if Z.of_nat (length msg) <? 4 then mret (m, false)
  else
    '(src, msg) ← pure (pop_str msg);
    '(type, msg) ← pure (pop_u8 msg);
    '(card, _) ← pure (pop_str msg);
    if negb (type =? SIMPLE_WIEGAND) then mret (m, false)
    else
      src ← (if promisc_ m then mret src else pure (strip_topic src));
      let reset := if promisc_ m then has_reset_card card m else is_card (device_reset_card_ m) src card in
      m ← (if reset then pure (send_reset m) else mret m);
      _ ← (if is_card (device_test_card_ m) src card then run_test_sequence m else mret tt);
      mret (m, reset).

End run.
End TestAndResetModule.

(** * Properties *)

Section properties.
Context {W : Type} `{Peers W}.

(** The message of a card. *)
Definition card_message (src card : string) (bits : Z) : message := [FStr src; FU8 SIMPLE_WIEGAND; FStr card; FInt bits].

Section test_and_reset.
Import TestAndResetModule.

(** (safety) A card that is no test card restarts the program exactly when it is the
    reset card of the device that read it; in promiscuous mode, exactly when it is
    the reset card of some device. *)
Theorem reset_by_its_card (m : t) device card bits (w : W) :
  awaiting m = false -> is_card (device_test_card_ m) (if promisc_ m then "S_" +:+ device else device) card = false ->
  exists m', handle_bus_msg (card_message ("S_" +:+ device) card bits) m w = (w, Ret (m', awaiting m')) /\
    (awaiting m' = true <->
     if promisc_ m then exists d, device_reset_card_ m !! d = Some card else device_reset_card_ m !! device = Some card).
Proof.
  intros Ha Ht. unfold handle_bus_msg, card_message. cbn. change (Z.of_nat 4 <? 4) with false. cbn. unfold mbind, io_bind, pure.
  assert (Hreset : has_reset_card card m = true <-> exists d, device_reset_card_ m !! d = Some card).
  { unfold has_reset_card. rewrite existsb_exists. split.
    - intros ([d c] & Hin & Hc). apply String.eqb_eq in Hc. cbn in Hc. subst c. exists d. apply elem_of_map_to_list. by apply list_elem_of_In.
    - intros [d Hd]. exists (d, card). split; [by apply list_elem_of_In, elem_of_map_to_list|]. by apply String.eqb_refl. }
  destruct (promisc_ m) eqn:Hp; cbn.
  - destruct (has_reset_card card m) eqn:Hc; unfold send_reset; rewrite ?Ha; cbn; rewrite Ht; cbn.
    + exists (set_awaiting m). split; [reflexivity|]. by cbn.
    + exists m. rewrite Ha. split; [done|]. split; [done|]. intros Hd. by apply Hreset in Hd.
  - change (strip_topic ("S_" +:+ device)) with (Ret device).
    destruct (is_card (device_reset_card_ m) device card) eqn:Hc; unfold send_reset; rewrite ?Ha; cbn; rewrite ?Hc; cbn; rewrite Ht; cbn.
    + exists (set_awaiting m). split; [reflexivity|]. cbn. by apply bool_decide_eq_true in Hc.
    + exists m. rewrite Ha. split; [done|]. split; [done|]. intros Hd. by apply bool_decide_eq_false in Hc.
Qed.

(** (error) In promiscuous mode the name of the source keeps its prefix, so the test
    card of a device does nothing. *)
Theorem promiscuous_ignores_test_cards (m : t) device card bits (w : W) :
  promisc_ m = true -> awaiting m = false -> has_reset_card card m = false ->
  device_test_card_ m !! device = Some card -> device_test_card_ m !! ("S_" +:+ device) = None ->
  handle_bus_msg (card_message ("S_" +:+ device) card bits) m w = (w, Ret (m, false)).
Proof.
  intros Hp Ha Hr _ Hn. unfold handle_bus_msg, card_message. cbn. change (Z.of_nat 4 <? 4) with false. cbn. unfold mbind, io_bind, pure. rewrite Hp. cbn. rewrite Hr. cbn.
  unfold is_card. by rewrite Hn, bool_decide_eq_false_2.
Qed.

End test_and_reset.

Section monitor.
Import MonitorModule.
Context (z85_encode : string -> string).

(** (error) A monitor that watches a reader and has no file to log to aborts the
    program at the first badge of that reader. *)
Theorem monitor_without_log_aborts {T} `{PropertyTree T} (config : T) m frames (w : W) :
  process_config config = Ret m -> is_Some (reader_led_ m) ->
  (exists module_config, get_child config "module_config" = Ret module_config /\ get_default as_string module_config "file-bus" "" = "") ->
  topics m = ["S_" +:+ reader_to_watch_ m] /\ log_system_bus z85_encode frames m w = (w, Fault AssertFailed).
Proof.
  intros Hm Hled (mc & Hmc & Hfile). unfold process_config in Hm. rewrite Hmc, ret_bind, Hfile in Hm. cbn in Hm. bind_inv Hm.
  assert (Ha : topics a = [] /\ system_bus_logger a = false /\ reader_led_ a = None).
  { unfold process_network_config in E. destruct (get_child_optional mc "ping"); [|by injection E as <-].
    bind_inv E. by injection E as <-. }
  destruct Ha as (Ht & Hl & Hr). unfold process_reader_config in Hm.
  destruct (get_child_optional mc "reader"); [|injection Hm as <-; rewrite Hr in Hled; by destruct Hled].
  bind_inv Hm. injection Hm as <-. cbn. rewrite Ht. split; [done|]. unfold log_system_bus, pure, mbind, io_bind. cbn. by rewrite Hl.
Qed.

End monitor.
End properties.

(** * Witnesses *)

Module Demo.
Import TestAndResetModule MonitorModule.

Definition silent : Type := unit.
#[export] Instance silent_peers : Peers silent := {| exchange := fun _ _ w => (w, None) |}.

Definition config_of (promisc : string) : xml :=
  Node "" [("module_config", Node "" [("promisc", Node promisc []); ("reset_card", Node "00:11" []);
    ("devices", Node "" [("device", Node "" [("name", Node "door" []); ("reset_card", Node "aa:bb" []); ("test_card", Node "cc:dd" [])])])])].
Definition module_of (promisc : string) : TestAndResetModule.t :=
  match TestAndResetModule.process_config false ∅ (config_of promisc) with
  | Ret m => m
  | _ => TestAndResetModule.mk ∅ ∅ None None false false [] false
  end.

Lemma reset_witness : exists m', handle_bus_msg (card_message "S_door" "aa:bb" 16) (module_of "false") (tt : silent) = (tt, Ret (m', awaiting m')) /\
  awaiting m' = true.
Proof.
  destruct (reset_by_its_card (module_of "false") "door" "aa:bb" 16 (tt : silent)) as (m' & Hm & Ha); [reflexivity|reflexivity|].
  exists m'. split; [exact Hm|]. apply Ha. reflexivity.
Defined.

Lemma promiscuous_witness :
  handle_bus_msg (card_message "S_door" "cc:dd" 16) (module_of "true") (tt : silent) = (tt, Ret (module_of "true", false)).
Proof. apply (promiscuous_ignores_test_cards (module_of "true") "door" "cc:dd" 16 (tt : silent)); vm_compute; reflexivity. Defined.

Definition monitor_config : xml :=
  Node "" [("module_config", Node "" [("reader", Node "" [("name", Node "door" []); ("led", Node "green" [])])])].
Definition watching : MonitorModule.t := MonitorModule.mk false ["S_door"] false None "" None None "door" (Some "green").

Lemma monitor_witness : log_system_bus (fun s => s) ["S_door"; "x"] watching (tt : silent) = (tt, Fault AssertFailed).
Proof.
  apply (monitor_without_log_aborts (fun s => s) monitor_config watching ["S_door"; "x"] (tt : silent)); [reflexivity|by eexists|].
  eexists. split; reflexivity.
Defined.
End Demo.
