(* ===== verification/Mqtt.v ===== *)
(** The MQTT module, [src/modules/mqtt/]: devices that are topics of a broker. What
    arrives on a topic is a message of the bus, as from a reader or a pin, and the
    requests of facades are published.

    The broker and its client library are third-party: what the code gives them,
    and what it pushes and answers, are effects of its handlers. *)
From Stdlib Require Import ZArith Lia Ascii String.
From stdpp Require Import base tactics numbers list strings gmap.
From S2P Require Import Prelude Json Facades Ptree Strategies Wiegand Users Credentials AuthSource.

Open Scope Z_scope.

(** * Configuration *)

Inductive Direction := Subscribe | Publish.

(** [MqttExternalMessage], with what it has of [Hardware::ExternalMessage]. *)
Module ExternalMessage.
Record t := mk {
  name : string; subject : string; direction : Direction; virtualtype : DeviceClass; payload : string; enabled : bool }.
End ExternalMessage.
Import ExternalMessage(name, subject, direction, virtualtype, payload).

Module MqttServerConfig.
Record t := mk {
  server_name : string; host : string; port : Z; client_id : string; subscribe_prefix : string; publish_prefix : string;
  username : string; password : string; ssl : bool; ssl_ca_certs : string; ssl_client_certfile : string;
  ssl_client_keyfile : string; ssl_insecure : bool; server_enabled : bool }.
End MqttServerConfig.
Import MqttServerConfig.

Module MqttConfig.
Record t := mk { servers : list MqttServerConfig.t; topics : list ExternalMessage.t }.
Definition empty : t := mk [] [].
Definition add_server (s : MqttServerConfig.t) (c : t) : t := mk (servers c ++ [s]) (topics c).
Definition add_topic (m : ExternalMessage.t) (c : t) : t := mk (servers c) (topics c ++ [m]).
End MqttConfig.

Section xml_config.
Context {T : Type} `{PropertyTree T}.

Definition load_server (node : T) : outcome MqttServerConfig.t :=
  name_node ← get_child node "name";
  let text key def := get_default as_string node key def in
  Ret (MqttServerConfig.mk (data name_node) (text "host" "localhost") (get_default as_u16 node "port" 1883)
    (text "client_id" "leosac") (text "subscribe_prefix" "homeassistant/") (text "publish_prefix" "leosac/")
    (text "username" "") (text "password" "") (get_default as_bool node "ssl" false) (text "ssl_ca_certs" "")
    (text "ssl_client_certfile" "") (text "ssl_client_keyfile" "") (get_default as_bool node "ssl_insecure" false) true).

Definition virtualtype_of (s : string) : DeviceClass :=
  if String.eqb s "rfidreader" then RFID_READER
  else if String.eqb s "led" then LED
  else if String.eqb s "buzzer" then BUZZER
  else GPIO.

Definition load_topic (node : T) : outcome ExternalMessage.t :=
  name_node ← get_child node "name";
  subject_node ← get_child node "subject";
  direction_node ← get_child node "direction";
  virtualtype_node ← get_child node "virtualtype";
  Ret (ExternalMessage.mk (data name_node) (data subject_node)
    (if String.eqb (data direction_node) "subscribe" then Subscribe else Publish)
    (virtualtype_of (data virtualtype_node)) (get_default as_string node "payload" "") true).

Definition load_xml_config (module_config : T) : outcome MqttConfig.t :=
  servers ← get_child module_config "servers";
  c ← foldM (fun c node => s ← load_server node.2; Ret (MqttConfig.add_server s c)) MqttConfig.empty (children servers);
  topics ← get_child module_config "topics";
  foldM (fun c node => m ← load_topic node.2; Ret (MqttConfig.add_topic m c)) c (children topics).

End xml_config.

(** [load_db_config]: the rows of the database, each loaded again by its id. The
    assertion on a topic is that the pointer is null. *)
Definition load_db_config (servers : list MqttServerConfig.t) (topics : list ExternalMessage.t) : outcome MqttConfig.t :=
  let c := foldl (fun c s => if server_enabled s then MqttConfig.add_server s c else c) MqttConfig.empty servers in
  foldM (fun c m =>
      let topic_ptr := Some m in
      _ ← cassert (negb (bool_decide (is_Some topic_ptr)));
      Ret (if ExternalMessage.enabled m then MqttConfig.add_topic m c else c)) c topics.

(** * The server *)

(** What the handlers do, in order. *)
Inductive effect :=
  | Published (topic message : string)
  | Answered (socket : string) (reply : string)
  | Pushed (m : message)
  | Subscribed (topic : string).

Definition QOS : Z := 1.
Definition N_RETRY_ATTEMPTS : Z := 60.

Module MqttExternalServer.
Record t := mk { config_ : MqttServerConfig.t; topics_ : list ExternalMessage.t; topic_socks_ : list string }.

(** The constructor: binding an endpoint twice throws. [bound] are the endpoints
    of the program that are bound already. *)
Fixpoint bind_all (bound names : list string) : outcome (list string) :=
  match names with
  | [] => Ret bound
  | n :: names =>
      if bool_decide (n ∈ bound) then Throw (StdRuntimeError "Address already in use") else bind_all (n :: bound) names
  end.
Definition publishing (topics : list ExternalMessage.t) : list string :=
  map name (List.filter (fun m => match direction m with Publish => true | Subscribe => false end) topics).
Definition make (bound : list string) (config : MqttServerConfig.t) (topics : list ExternalMessage.t) : outcome (t * list string) :=
  bound ← bind_all bound (server_name config :: publishing topics);
  Ret (mk config topics (publishing topics), bound).

(** The address of the broker. *)
Definition broker_url (s : t) : string :=
  (if ssl (config_ s) then "ssl" else "tcp") +:+ "://" +:+ host (config_ s) +:+ ":" +:+ to_string (port (config_ s)).

(** [connected]. *)
Definition connected (s : t) : list effect :=
  map (fun m => Subscribed (subscribe_prefix (config_ s) +:+ subject m)) (topics_ s).

(** The callbacks [on_failure], [on_success] and [reconnect], with the result of
    each attempt to connect: how many attempts are made, and whether one
    succeeds. *)
Fixpoint attempts (nretry : Z) (results : list bool) : nat * bool :=
  match results with
  | [] => (O, false)
  | true :: _ => (1%nat, true)
  | false :: results =>
      if nretry + 1 <=? N_RETRY_ATTEMPTS then let '(n, ok) := attempts (nretry + 1) results in (S n, ok)
      else (1%nat, false)
  end.

(** The last topic of a list that satisfies a condition. *)
Definition last_topic (f : ExternalMessage.t -> bool) (s : t) : option ExternalMessage.t :=
  foldl (fun found m => if f m then Some m else found) None (topics_ s).

Definition is_output (m : ExternalMessage.t) : bool :=
  match virtualtype m with GPIO | LED | BUZZER => true | _ => false end.

Section handlers.
(** The text of a frame that is none, and [boost::replace_all_copy]. *)
Context (raw : frame -> string) (replace_all : string -> string -> string -> string).

(** [msg >> text]: a message that has no frame left throws. *)
Definition read_text (m : message) : outcome (string * message) :=
  match m with
  | [] => Throw (StdRuntimeError "attempting to request a message part outside the valid range")
  | FStr s :: m => Ret (s, m)
  | f :: m => Ret (raw f, m)
  end.

(** [handle_topic_request]; [accepted] says whether the client library takes a
    message to publish. *)
Definition handle_topic_request (accepted : string -> string -> bool) (topic_name : string) (msg : message) (s : t)
  : outcome (list effect) :=
  '(topic_value, msg) ← read_text msg;
  extmsg ← deref (last_topic (fun m => String.eqb (name m) topic_name) s);
  if is_output extmsg then
    '(state, _) ← read_text msg;
    let text := if str_empty (payload extmsg) then state else replace_all (payload extmsg) "__PLACEHOLDER__" state in
    let topic := publish_prefix (config_ s) +:+ name extmsg in
    Ret (if accepted topic text
         then [Published topic text; Answered topic_name "OK"; Pushed [FStr ("S_INT:" +:+ name extmsg); FStr topic_value]]
         else [Answered topic_name "KO"])
  else Fault AssertFailed.

Context {J : Type} `{Json J} (parse : string -> outcome J).

(** The value of a message: all of it, or what it has under the key of the topic. *)
Definition message_value (payload text : string) : outcome string :=
  if str_empty payload then Ret text
  else
    msg_json ← parse text;
    d ← at_ msg_json payload;
    if is_null d then Ret text else get_string d.

Definition handle_mqtt_msg (topic text : string) (s : t) : outcome (list effect) :=
  match last_topic (fun m => String.eqb (subscribe_prefix (config_ s) +:+ subject m) topic) s with
  | None => Fault AssertFailed
  | Some extmsg =>
      msg_value ← message_value (payload extmsg) text;
      Ret (if is_output extmsg then
             let state := if String.eqb msg_value "1" then "ON" else if String.eqb msg_value "0" then "OFF" else msg_value in
             [Pushed [FStr ("S_INT:" +:+ name extmsg); FStr state]]
           else if bool_decide (virtualtype extmsg = RFID_READER) then
             [Pushed [FStr ("S_" +:+ name extmsg); FU8 SIMPLE_CSN; FStr msg_value]]
           else [])
  end.

(** [handle_request]: what the client library answers to connecting and to
    disconnecting. *)
Definition handle_request (connects disconnects : bool) (msg : message) (s : t) : outcome (list effect) :=
  '(str, _) ← read_text msg;
  _ ← cassert (String.eqb str "CONNECT" || String.eqb str "DISCONNECT");
  let ok := if String.eqb str "CONNECT" then connects else disconnects in
  Ret [Answered (server_name (config_ s)) (if ok then "OK" else "KO")].

End handlers.
End MqttExternalServer.

(** [MqttModule::process_config]: a server of each configuration, with all the
    topics, registered by its name. *)
Definition add_mqtt_server (topics : list ExternalMessage.t)
    (st : ConfigChecker.t * list string * list MqttExternalServer.t) (config : MqttServerConfig.t)
  : outcome (ConfigChecker.t * list string * list MqttExternalServer.t) :=
  let '(checker, bound, servers) := st in
  '(server, bound) ← MqttExternalServer.make bound config topics;
  checker ← ConfigChecker.register_object (server_name config) EXTERNAL_SERVER checker;
  Ret (checker, bound, servers ++ [server]).

Definition make_servers (checker : ConfigChecker.t) (bound : list string) (c : MqttConfig.t)
  : outcome (ConfigChecker.t * list string * list MqttExternalServer.t) :=
  foldM (add_mqtt_server (MqttConfig.topics c)) (checker, bound, []) (MqttConfig.servers c).

(** * Properties *)

Section properties.
Import MqttExternalServer.

(** (termination) A broker that never answers is tried 61 times and then given up; one
    that answers before is connected to, at the attempt it answers. *)
Theorem connection_attempts :
  (forall n, attempts 0 (replicate (61 + n) false) = (61%nat, false)) /\
  (forall k rest, (k <= 60)%nat -> attempts 0 (replicate k false ++ true :: rest) = (S k, true)).
Proof.
  assert (Hstep : forall r l, attempts r (false :: l) =
    if r + 1 <=? 60 then let '(n, ok) := attempts (r + 1) l in (S n, ok) else (1%nat, false)) by done.
  assert (Hfail : forall j r n, r + Z.of_nat j = 60 -> 0 <= r -> attempts r (replicate (S j + n) false) = (S j, false)).
  { induction j as [|j IH]; intros r n Hr H0.
    - change (replicate (1 + n) false) with (false :: replicate n false). rewrite Hstep, (proj2 (Z.leb_gt _ _)) by lia. done.
    - change (replicate (S (S j) + n) false) with (false :: replicate (S j + n) false).
      rewrite Hstep, (proj2 (Z.leb_le _ _)) by lia. by rewrite (IH (r + 1) n ltac:(lia) ltac:(lia)). }
  assert (Hok : forall k r rest, r + Z.of_nat k <= 60 -> 0 <= r -> attempts r (replicate k false ++ true :: rest) = (S k, true)).
  { induction k as [|k IH]; intros r rest Hr H0; [done|].
    change (replicate (S k) false ++ true :: rest) with (false :: (replicate k false ++ true :: rest)).
    rewrite Hstep, (proj2 (Z.leb_le _ _)) by lia. by rewrite IH by lia. }
  split; [intros n; exact (Hfail 60%nat 0 n eq_refl ltac:(lia))|]. intros k rest Hk. apply Hok; lia.
Qed.

(** (error) A request of one frame, as the facades of GPIOs send to turn a device on
    or off, is not answered: the handler reads the state from a second frame, and
    the exception leaves it before anything is published. *)
Theorem facade_requests_unanswered raw replace_all accepted s m cmd :
  last_topic (fun x => String.eqb (name x) (name m)) s = Some m -> is_output m = true ->
  handle_topic_request raw replace_all accepted (name m) [FStr cmd] s =
    Throw (StdRuntimeError "attempting to request a message part outside the valid range").
Proof. intros Hm Ho. unfold handle_topic_request. cbn. rewrite Hm. cbn. by rewrite Ho. Qed.

(** (error) A configuration with a topic cannot be loaded from the database. *)
Theorem database_topics_abort servers topics : topics <> [] -> load_db_config servers topics = Fault AssertFailed.
Proof. by destruct topics. Qed.

Lemma bind_all_dup n l bound : n ∈ bound -> In n l -> bind_all bound l = Throw (StdRuntimeError "Address already in use").
Proof.
  revert bound. induction l as [|x l IH]; intros bound Hb Hin; cbn [bind_all In] in *; [done|].
  case_bool_decide as Hx; [done|]. destruct Hin as [->|Hin]; [done|]. apply IH; [|done]. apply elem_of_cons. by right.
Qed.
Lemma bind_all_incl l bound bound' n : bind_all bound l = Ret bound' -> In n l -> n ∈ bound'.
Proof.
  assert (Hsub : forall l b b', bind_all b l = Ret b' -> forall x, x ∈ b -> x ∈ b').
  { clear. induction l as [|y l IH]; intros b b'; cbn [bind_all]; [by intros [= ->]|]. case_bool_decide; [done|].
    intros Hb x Hx. eapply IH; [exact Hb|]. apply elem_of_cons. by right. }
  revert bound. induction l as [|x l IH]; intros bound; cbn [bind_all In]; [done|]. case_bool_decide; [done|].
  intros Hb [->|Hin]; [|by eapply IH]. eapply Hsub; [exact Hb|]. apply elem_of_cons. by left.
Qed.

(** (error) Every server binds an endpoint for each topic that is published: with two
    servers and such a topic the module does not start. *)
Theorem second_server_throws checker bound s1 s2 rest topics m :
  In m topics -> direction m = Publish -> ConfigChecker.has_name (server_name s1) checker = false ->
  exists e, make_servers checker bound (MqttConfig.mk (s1 :: s2 :: rest) topics) = Throw e.
Proof.
  intros Hm Hd Hc. assert (Hp : In (name m) (publishing topics)).
  { unfold publishing. apply in_map, filter_In. split; [done|]. by rewrite Hd. }
  unfold make_servers. cbn [foldM MqttConfig.servers MqttConfig.topics].
  destruct (bind_all bound (server_name s1 :: publishing topics)) as [b1|e|f] eqn:Hb1.
  - assert (add_mqtt_server topics (checker, bound, []) s1 =
      Ret (<[server_name s1 := EXTERNAL_SERVER]> checker, b1, [mk s1 topics (publishing topics)])) as ->.
    { unfold add_mqtt_server, make. rewrite Hb1, !ret_bind. unfold ConfigChecker.register_object. unfold ConfigChecker.has_name in Hc.
      apply bool_decide_eq_false in Hc. by rewrite bool_decide_eq_true_2 by (by apply eq_None_not_Some). }
    rewrite ret_bind. exists (StdRuntimeError "Address already in use").
    assert (bind_all b1 (server_name s2 :: publishing topics) = Throw (StdRuntimeError "Address already in use")) as Hb2.
    { apply (bind_all_dup (name m)); [|by right]. eapply bind_all_incl; [exact Hb1|by right]. }
    assert (add_mqtt_server topics (<[server_name s1 := EXTERNAL_SERVER]> checker, b1, [mk s1 topics (publishing topics)]) s2 =
      Throw (StdRuntimeError "Address already in use")) as -> by (unfold add_mqtt_server, make; by rewrite Hb2). done.
  - exists e. assert (add_mqtt_server topics (checker, bound, []) s1 = Throw e) as -> by (unfold add_mqtt_server, make; by rewrite Hb1). done.
  - exfalso. revert Hb1. clear. generalize (server_name s1 :: publishing topics). intros l. revert bound.
    induction l as [|x l IH]; intros bound; cbn [bind_all]; [done|]. case_bool_decide; [done|]. apply IH.
Qed.

(** (functional) What arrives on the topic of a virtual pin is the interrupt of a pin,
    with the state spelled as pins do; on the topic of a reader, the message of a
    card, that the builder of credentials understands. *)
Theorem topics_are_devices {J} `{Json J} (parse : string -> outcome J) s m :
  last_topic (fun x => String.eqb (subscribe_prefix (config_ s) +:+ subject x) (subscribe_prefix (config_ s) +:+ subject m)) s = Some m ->
  payload m = "" ->
  (is_output m = true -> forall (on : bool) text, text = (if on then "1" else "0") \/ text = (if on then "ON" else "OFF") ->
     handle_mqtt_msg parse (subscribe_prefix (config_ s) +:+ subject m) text s =
       Ret [Pushed [FStr ("S_INT:" +:+ name m); FStr (if on then "ON" else "OFF")]]) /\
  (virtualtype m = RFID_READER -> name m <> "" -> forall bytes, Forall is_byte bytes -> (0 < length bytes < 1000)%nat ->
     exists msg c, handle_mqtt_msg parse (subscribe_prefix (config_ s) +:+ subject m) (text (join_hex bytes)) s = Ret [Pushed msg] /\
       AuthSourceBuilder.create msg = Ret (Card c) /\ drop_colons (chars (RFIDCard.card_id_ c)) = flat_map hex_byte bytes).
Proof.
  intros Hm Hp. unfold handle_mqtt_msg. rewrite Hm. unfold message_value. rewrite Hp. cbn [str_empty]. split.
  - intros Ho on t Ht. rewrite ret_bind, Ho. destruct on; destruct Ht as [-> | ->]; done.
  - intros Hv Hn bytes Hb Hl. rewrite ret_bind. unfold is_output. rewrite Hv. cbn. do 2 eexists. split; [reflexivity|]. split.
    + apply csn_bits_doubled; [done|done|]. destruct (name m) as [|c x]; [done|]. by eexists.
    + cbn [RFIDCard.card_id_]. rewrite chars_text. by apply drop_colons_join.
Qed.

End properties.

(** * Witnesses *)

Module Demo.
Import MqttExternalServer.

Definition server (n : string) : MqttServerConfig.t :=
  MqttServerConfig.mk n "localhost" 1883 "leosac" "homeassistant/" "leosac/" "" "" false "" "" "" false true.
Definition relay : ExternalMessage.t := ExternalMessage.mk "relay" "switch/relay" Publish GPIO "" true.
Definition badge : ExternalMessage.t := ExternalMessage.mk "badge" "reader" Subscribe RFID_READER "" true.
Definition demo : t := mk (server "broker") [relay; badge] ["relay"].

Lemma facade_witness : handle_topic_request (fun _ => "") (fun s _ _ => s) (fun _ _ => true) "relay" [FStr "ON"] demo =
  Throw (StdRuntimeError "attempting to request a message part outside the valid range").
Proof. apply (facade_requests_unanswered (fun _ => "") (fun s _ _ => s) (fun _ _ => true) demo relay "ON"); reflexivity. Defined.

Lemma database_witness : load_db_config [] [relay] = Fault AssertFailed.
Proof. apply (database_topics_abort [] [relay]). discriminate. Defined.

Lemma second_server_witness : exists e, make_servers ∅ [] (MqttConfig.mk [server "a"; server "b"] [relay]) = Throw e.
Proof. apply (second_server_throws ∅ [] (server "a") (server "b") [] [relay] relay); [by left|reflexivity|reflexivity]. Defined.

Lemma topics_witness : handle_mqtt_msg (fun _ => Ret JNull) "homeassistant/switch/relay" "1" demo =
  Ret [Pushed [FStr "S_INT:relay"; FStr "ON"]].
Proof.
  destruct (topics_are_devices (fun _ => Ret JNull) demo relay eq_refl eq_refl) as [Hon _].
  apply (Hon eq_refl true "1"). by left.
Defined.
End Demo.
