(* ===== verification/Devices.v ===== *)
(** The devices in the database and their handlers: [src/hardware/] with its
    serializers, and the CRUD handlers of the modules that own devices,
    [modules/led-buzzer/ws/CRUDHandler.cpp], [modules/pifacedigital/CRUDHandler.cpp]
    and [modules/wiegand/ws/CRUDHandler.cpp], which are one handler written four
    times (one of them a template with two instances).

    The rows of all types of devices are one polymorphic table, as the mapper has
    them. A UUID is its 128-bit number; its text is Boost's. *)
From Stdlib Require Import ZArith Lia Ascii String.
From stdpp Require Import base tactics numbers list strings gmap.
From S2P Require Import Prelude Json Ptree Reader Strategies Wiegand AuditLog Users Credentials Schedules Security Session Api ApiSafety Store Zones Resources Estate ResourceSafety Queries.

Open Scope Z_scope.

(** * UUIDs *)

(** [boost::lexical_cast], which may throw. *)
Class UuidText := { parse_uuid : string -> outcome Z; print_uuid : Z -> string }.

Section uuid.
Context {J : Type} `{Json J} `{UuidText}.

Definition uuid_json (u : Z) : J := if u =? 0 then json_null else json_string (print_uuid u).

Definition get_uuid (j : J) : outcome Z :=
  if is_null j then Ret 0
  else if is_string j then s ← get_string j; parse_uuid s
  else match get_number j with
       | Ret 0 => Ret 0
       | _ => Throw (LEOSACException "Failed to unserialize UUID")
       end.
End uuid.

(** * Devices *)

Definition device_class_value (c : DeviceClass) : Z :=
  match c with
  | UNKNOWN => 0 | GPIO => 1 | RFID_READER => 2 | LED => 3 | BUZZER => 4
  | EXTERNAL_MESSAGE => 5 | EXTERNAL_SERVER => 6 | ALARM => 7
  end.

Module Device.
Record t := mk { id_ : Z; name_ : string; device_class_ : DeviceClass; enabled_ : bool }.
(** The constructor, with the UUID it draws. *)
Definition make (uuid : Z) (c : DeviceClass) : t := mk uuid "" c true.
Definition set_name (n : string) (d : t) : t := mk (id_ d) n (device_class_ d) (enabled_ d).
Definition set_enabled (e : bool) (d : t) : t := mk (id_ d) (name_ d) (device_class_ d) e.
End Device.

(** A direction is the number of the enumeration, which is not checked. *)
Module GpioRow.
Record t := mk { device : Device.t; number_ : Z; direction_ : Z; default_value_ : bool }.
Definition make (uuid : Z) : t := mk (Device.make uuid GPIO) 0 0 false.
End GpioRow.

(** [PFGPIO]. *)
Module PfGpioRow.
Record t := mk { gpio : GpioRow.t; hardware_address_ : Z }.
Definition make (uuid : Z) : t := mk (GpioRow.make uuid) 0.
End PfGpioRow.

(** [LED] and [Buzzer], whose members are the same; a GPIO is referred to by its
    id. The constructors set neither duration nor speed: what the memory held is an
    argument. *)
Module BlinkerRow.
Record t := mk { device : Device.t; gpio_ : option Z; default_blink_duration_ : Z; default_blink_speed_ : Z }.
Definition make (c : DeviceClass) (memory : Z * Z) (uuid : Z) : t := mk (Device.make uuid c) None memory.1 memory.2.
End BlinkerRow.

(** [WiegandReaderConfig] as it is stored. *)
Module ReaderRow.
Record t := mk {
  device : Device.t; mode : string; pin_timeout : Z; pin_key_end : ascii; nowait : bool;
  gpio_high_ : option Z; gpio_low_ : option Z; green_led_ : option Z; buzzer_ : option Z }.
Definition make (uuid : Z) : t := mk (Device.make uuid RFID_READER) "SIMPLE_WIEGAND" 2500 "#" false None None None None.
End ReaderRow.

(** The rows. Alarms, external servers and external messages have no handler. *)
Inductive device :=
  | GpioD (g : GpioRow.t)
  | PfGpioD (g : PfGpioRow.t)
  | LedD (l : BlinkerRow.t)
  | BuzzerD (b : BlinkerRow.t)
  | ReaderD (r : ReaderRow.t)
  | OtherD (d : Device.t).

Definition base_of (x : device) : Device.t :=
  match x with
  | GpioD g => GpioRow.device g
  | PfGpioD g => GpioRow.device (PfGpioRow.gpio g)
  | LedD b | BuzzerD b => BlinkerRow.device b
  | ReaderD r => ReaderRow.device r
  | OtherD d => d
  end.
Definition name_of (x : device) : string := Device.name_ (base_of x).
Definition uuid_of (x : device) : Z := Device.id_ (base_of x).

Definition is_gpio (x : device) : bool := match x with GpioD _ | PfGpioD _ => true | _ => false end.
Definition is_led (x : device) : bool := match x with LedD _ => true | _ => false end.
Definition is_buzzer (x : device) : bool := match x with BuzzerD _ => true | _ => false end.

(** The types serializers are registered for in the [HardwareService]. *)
Inductive type_index := T_GPIO | T_PFGPIO | T_LED | T_BUZZER | T_READER | T_OTHER.
Definition type_of (x : device) : type_index :=
  match x with
  | GpioD _ => T_GPIO | PfGpioD _ => T_PFGPIO | LedD _ => T_LED | BuzzerD _ => T_BUZZER
  | ReaderD _ => T_READER | OtherD _ => T_OTHER
  end.

(** * Serializers *)

Section serializers.
Context {D : Type} `{!Table D device} {J : Type} `{Json J} `{UuidText}.
(** The serializers that are registered. *)
Context (registered : type_index -> bool).

Definition device_attributes (in_ : Device.t) : list (string * J) :=
  [("name", json_string (Device.name_ in_)); ("device-class", json_number (device_class_value (Device.device_class_ in_)));
   ("enabled", json_bool (Device.enabled_ in_))].

(** [DeviceSerializer::serialize], with the type, the attributes and the relations
    a derived serializer adds. *)
Definition device_json (type : string) (attributes relationships : list (string * J)) (in_ : Device.t) : J :=
  json_object ([("id", uuid_json (Device.id_ in_)); ("type", json_string type);
    ("attributes", json_object (device_attributes in_ ++ attributes))] ++
    match relationships with [] => [] | _ => [("relationships", json_object relationships)] end).

Definition unserialize_device (out : Device.t) (in_ : J) : outcome Device.t :=
  name ← JSONUtil.extract_with_default get_string in_ "name" (Device.name_ out);
  enabled ← JSONUtil.extract_with_default get_bool in_ "enabled" (Device.enabled_ out);
  Ret (Device.set_enabled enabled (Device.set_name name out)).

Definition gpio_attributes (in_ : GpioRow.t) : list (string * J) :=
  [("number", json_number (GpioRow.number_ in_)); ("direction", json_number (GpioRow.direction_ in_));
   ("default-value", json_bool (GpioRow.default_value_ in_))].
Definition gpio_json (in_ : GpioRow.t) : J := device_json "gpio" (gpio_attributes in_) [] (GpioRow.device in_).

Definition get_u16 (j : J) : outcome Z := z ← get_number j; Ret (z mod 2 ^ 16).
Definition get_u8 (j : J) : outcome Z := z ← get_number j; Ret (z mod 2 ^ 8).
Definition get_int64 (j : J) : outcome Z := z ← get_number j; Ret ((z + 2 ^ 63) mod 2 ^ 64 - 2 ^ 63).

Definition unserialize_gpio (out : GpioRow.t) (in_ : J) : outcome GpioRow.t :=
  device ← unserialize_device (GpioRow.device out) in_;
  number ← JSONUtil.extract_with_default get_u16 in_ "number" (GpioRow.number_ out);
  direction ← JSONUtil.extract_with_default get_int in_ "direction" (GpioRow.direction_ out);
  value ← JSONUtil.extract_with_default get_bool in_ "default-value" (GpioRow.default_value_ out);
  Ret (GpioRow.mk device number direction value).

(** [PFGPIOSerializer]. *)
Definition pfgpio_attributes (in_ : PfGpioRow.t) : list (string * J) :=
  gpio_attributes (PfGpioRow.gpio in_) ++ [("hardware-address", json_number (PfGpioRow.hardware_address_ in_))].
Definition pfgpio_json (in_ : PfGpioRow.t) : J :=
  device_json "piface-digital-gpio" (pfgpio_attributes in_) [] (GpioRow.device (PfGpioRow.gpio in_)).
Definition unserialize_pfgpio (out : PfGpioRow.t) (in_ : J) : outcome PfGpioRow.t :=
  gpio ← unserialize_gpio (PfGpioRow.gpio out) in_;
  address ← JSONUtil.extract_with_default get_u8 in_ "hardware-address" (PfGpioRow.hardware_address_ out);
  Ret (PfGpioRow.mk gpio address).

(** What [serialize_device_metadata] says of a device. *)
Definition metadata (i : Z) (type : string) : J :=
  data_reply (json_object [("id", uuid_json i); ("type", json_string type)]).

(** A LED or a buzzer is loaded with its pin. *)
Definition load_pin (x : device) (d : D) : outcome unit :=
  match x with
  | LedD b | BuzzerD b =>
      match BlinkerRow.gpio_ b with
      | Some g =>
          if match find_row g d with Some y => is_gpio y | None => false end then Ret tt else Throw ObjectNotPersistent
      | None => Ret tt
      end
  | _ => Ret tt
  end.

(** The object behind a pointer of a row: of a type, and there. *)
Definition load_ref (has_type : device -> bool) (i : Z) (d : D) : outcome device :=
  match find_row i d with
  | Some x => if has_type x then _ ← load_pin x d; Ret x else Throw ObjectNotPersistent
  | None => Throw ObjectNotPersistent
  end.

(** [serialize_device_metadata] of a pointer, with the [hardware_device_type] of
    what it points to. *)
Definition reference_metadata (has_type : device -> bool) (hardware_device_type : device -> outcome string)
    (pointer : option Z) (d : D) : outcome J :=
  match pointer with
  | None => Ret (data_reply json_null)
  | Some i => x ← load_ref has_type i d; type ← hardware_device_type x; Ret (metadata i type)
  end.

(** [hardware_device_type]: the type the registered serializer gives; what the
    serializers of devices that point to others do runs too. *)
Definition gpio_type (x : device) : outcome string :=
  _ ← cassert (registered (type_of x));
  Ret (match x with PfGpioD _ => "piface-digital-gpio" | _ => "gpio" end).

Definition blinker_json (type : string) (in_ : BlinkerRow.t) (d : D) : outcome J :=
  gpio ← reference_metadata is_gpio gpio_type (BlinkerRow.gpio_ in_) d;
  Ret (device_json type [("default-blink-duration", json_number (BlinkerRow.default_blink_duration_ in_));
                         ("default-blink-speed", json_number (BlinkerRow.default_blink_speed_ in_))]
         [("gpio", gpio)] (BlinkerRow.device in_)).

Definition blinker_type (d : D) (x : device) : outcome string :=
  _ ← cassert (registered (type_of x));
  match x with
  | LedD b => _ ← blinker_json "led" b d; Ret "led"
  | BuzzerD b => _ ← blinker_json "buzzer" b d; Ret "buzzer"
  | _ => Fault AssertFailed
  end.

Definition reader_json (in_ : ReaderRow.t) (d : D) : outcome J :=
  high ← reference_metadata is_gpio gpio_type (ReaderRow.gpio_high_ in_) d;
  low ← reference_metadata is_gpio gpio_type (ReaderRow.gpio_low_ in_) d;
  buzzer ← reference_metadata is_buzzer (blinker_type d) (ReaderRow.buzzer_ in_) d;
  led ← reference_metadata is_led (blinker_type d) (ReaderRow.green_led_ in_) d;
  Ret (device_json "wiegand-reader" [("mode", json_string (ReaderRow.mode in_))]
         [("gpio-high", high); ("gpio-low", low); ("buzzer", buzzer); ("green-led", led)] (ReaderRow.device in_)).

(** A pointer that is given by an id: the nil id leaves what it was. *)
Definition unserialize_ref (has_type : device -> bool) (pointer : option Z) (in_ : J) (key : string) (d : D) : outcome (option Z) :=
  device_id ← JSONUtil.extract_with_default get_uuid in_ key 0;
  if device_id =? 0 then Ret pointer else _ ← load_ref has_type device_id d; Ret (Some device_id).

(** [LEDSerializer] and [BuzzerSerializer]. *)
Definition unserialize_blinker (out : BlinkerRow.t) (in_ : J) (d : D) : outcome BlinkerRow.t :=
  device ← unserialize_device (BlinkerRow.device out) in_;
  duration ← JSONUtil.extract_with_default get_int64 in_ "default-blink-duration" (BlinkerRow.default_blink_duration_ out);
  speed ← JSONUtil.extract_with_default get_int64 in_ "default-blink-speed" (BlinkerRow.default_blink_speed_ out);
  gpio ← unserialize_ref is_gpio (BlinkerRow.gpio_ out) in_ "gpio_id" d;
  Ret (BlinkerRow.mk device gpio duration speed).

Definition unserialize_reader (out : ReaderRow.t) (in_ : J) (d : D) : outcome ReaderRow.t :=
  device ← unserialize_device (ReaderRow.device out) in_;
  mode ← JSONUtil.extract_with_default get_string in_ "mode" (ReaderRow.mode out);
  high ← unserialize_ref is_gpio (ReaderRow.gpio_high_ out) in_ "gpio_high_id" d;
  low ← unserialize_ref is_gpio (ReaderRow.gpio_low_ out) in_ "gpio_low_id" d;
  buzzer ← unserialize_ref is_buzzer (ReaderRow.buzzer_ out) in_ "buzzer_id" d;
  led ← unserialize_ref is_led (ReaderRow.green_led_ out) in_ "green_led_id" d;
  Ret (ReaderRow.mk device mode (ReaderRow.pin_timeout out) (ReaderRow.pin_key_end out) (ReaderRow.nowait out)
         high low led buzzer).

(** [hardware_device_type] of any device. *)
Definition hardware_device_type (d : D) (x : device) : outcome string :=
  match x with
  | GpioD _ | PfGpioD _ => gpio_type x
  | LedD _ | BuzzerD _ => blinker_type d x
  | ReaderD r => _ ← cassert (registered T_READER); _ ← reader_json r d; Ret "wiegand-reader"
  | OtherD _ => _ ← cassert (registered T_OTHER); Ret "device"
  end.

(** * What the database checks *)

(** [validation_callback] before a row is written. *)
Definition validate_pre (x : device) (d : D) : outcome unit :=
  match List.find (fun y => String.eqb (name_of y) (name_of x)) (rows d) with
  | Some y => enforce (uuid_of y =? uuid_of x) (ModelException "data/attributes/name" "Device name already used")
  | None => Ret tt
  end.

(** ... and after it. *)
Definition validate_post (x : device) : outcome unit :=
  _ ← enforce (negb (str_empty (name_of x))) (ModelException "data/attributes/name" "Device name must be non empty");
  match x with
  | ReaderD r => enforce (bool_decide (ReaderRow.mode r ∈ WiegandReaderConfig.valid_operation_modes))
      (ModelException "data/attributes/mode" "Invalid wiegand-reader mode.")
  | _ => Ret tt
  end.

Definition written {A} (x : device) (write : api D A) : api D A :=
  d ← get_db;
  _ ← lift (validate_pre x d);
  a ← write;
  _ ← lift (validate_post x);
  mret a.

(** * The handlers *)

(** What a handler is made of: the key of the id, the rows of its type, a new
    object with its UUID, and the serializer. *)
Record kind (E : Type) := mk_kind {
  id_key : string;
  wrap : E -> device;
  unwrap : device -> option E;
  fresh : Z -> E;
  unserialize : E -> J -> D -> outcome E;
  serialize : E -> D -> outcome J;
}.
Arguments id_key {E}. Arguments wrap {E}. Arguments unwrap {E}. Arguments fresh {E}. Arguments unserialize {E}. Arguments serialize {E}.

(** A LED or a buzzer; [memory] is what the members of a new one hold. *)
Definition led_kind (memory : Z * Z) : kind BlinkerRow.t := mk_kind _ "led_id" LedD
  (fun x => match x with LedD b => Some b | _ => None end) (BlinkerRow.make LED memory) unserialize_blinker (blinker_json "led").
Definition buzzer_kind (memory : Z * Z) : kind BlinkerRow.t := mk_kind _ "buzzer_id" BuzzerD
  (fun x => match x with BuzzerD b => Some b | _ => None end) (BlinkerRow.make BUZZER memory) unserialize_blinker (blinker_json "buzzer").
Definition pfgpio_kind : kind PfGpioRow.t := mk_kind _ "gpio_id" PfGpioD
  (fun x => match x with PfGpioD g => Some g | _ => None end) PfGpioRow.make (fun e j _ => unserialize_pfgpio e j)
  (fun e _ => Ret (pfgpio_json e)).
Definition reader_kind : kind ReaderRow.t := mk_kind _ "reader_id" ReaderD
  (fun x => match x with ReaderD r => Some r | _ => None end) ReaderRow.make unserialize_reader reader_json.

Section crud.
Context `{!Odb D}.
Context {E : Type} (k : kind E).

Definition device_id (req : J) : outcome Z := j ← at_ req (id_key k); get_uuid j.

Definition required_permission (verb : Verb) (req : J) : outcome (list permission) :=
  id ← match device_id req with Throw JsonOutOfRange => Ret 0 | x => x end;
  Ret [(match verb with
        | READ => SecurityContext.HARDWARE_READ | CREATE => SecurityContext.HARDWARE_CREATE
        | UPDATE => SecurityContext.HARDWARE_UPDATE | DELETE => SecurityContext.HARDWARE_DELETE
        end, SecurityContext.device id)].

Definition find_by_id (id : Z) : api D E := d ← get_db; lift (DBService.or_throw (find_row id d ≫= unwrap k)).

Definition show (e : E) : api D J := d ← get_db; lift (serialize k e d).

Definition create (uuid : Z) (req : J) : api D J :=
  transaction (
    attributes ← lift (at_ req "attributes");
    d ← get_db;
    e ← lift (unserialize k (fresh k uuid) attributes d);
    _ ← written (wrap k e) (change_row (persist_row (wrap k e)));
    j ← show e;
    mret (data_reply j)).

Definition read (hdl : Z) (req : J) : api D J :=
  transaction (
    id ← lift (device_id req);
    if negb (id =? 0) then
      e ← find_by_id id; j ← show e; mret (data_reply j)
    else
      d ← get_db;
      js ← readable hdl SecurityContext.HARDWARE_READ SecurityContext.device
             (fun x => match unwrap k x with Some e => show e | None => mret json_null end)
             (List.filter (fun x => bool_decide (is_Some (unwrap k x))) (rows d));
      mret (data_reply (json_array js))).

Definition update (req : J) : api D J :=
  transaction (
    id ← lift (device_id req);
    e ← find_by_id id;
    attributes ← lift (at_ req "attributes");
    d ← get_db;
    e ← lift (unserialize k e attributes d);
    _ ← written (wrap k e) (change_db (update_row (wrap k e)));
    j ← show e;
    mret (data_reply j)).

Definition delete (req : J) : api D J :=
  id ← lift (device_id req);
  transaction (
    e ← find_by_id id;
    _ ← change_db (erase_row (E := device) (uuid_of (wrap k e)));
    mret json_null).

Definition handler (hdl uuid : Z) : crud D J := {|
  crud_permission := required_permission;
  read_impl := read hdl; create_impl := create uuid; update_impl := update; delete_impl := delete;
|}.
End crud.

(** The handlers the modules register: of LEDs and buzzers, of the pins of Piface
    cards and of Wiegand readers. *)
Section registered_handlers.
Context `{!Odb D}.
Definition led_handler (memory : Z * Z) : Z -> Z -> crud D J := handler (led_kind memory).
Definition buzzer_handler (memory : Z * Z) : Z -> Z -> crud D J := handler (buzzer_kind memory).
Definition piface_handler : Z -> Z -> crud D J := handler pfgpio_kind.
Definition wiegand_handler : Z -> Z -> crud D J := handler reader_kind.
End registered_handlers.

(** * Search *)

(** [HardwareSearch::process_impl]: devices by their name, ordered by their id,
    each loaded again by its id. *)
Section search.
Context (like : string -> string -> bool).

Definition load_and_insert (d : D) (s : list device) (x : device) : outcome (list device) :=
  match find_row (row_id x) d with Some x => EntitySearchTool.insert s x | None => Throw ObjectNotPersistent end.
Definition search_and_load (d : D) (s : list device) (partial : string) : outcome (list device) :=
  foldM (load_and_insert d) s (List.filter (EntitySearchTool.matches name_of like partial) (rows d)).
Definition search (partial : string) (d : D) : outcome (list device) :=
  foldM (search_and_load d) [] (EntitySearchTool.variants partial ++ [partial]).

Definition search_entry (d : D) (x : device) : outcome J :=
  type ← hardware_device_type d x;
  Ret (json_object [("id", uuid_json (uuid_of x)); ("name", json_string (name_of x));
    ("device-class", json_number (device_class_value (Device.device_class_ (base_of x)))); ("type", json_string type)]).

Definition HardwareSearch (req : J) : api D J :=
  partial ← lift (j ← at_ req "partial_name"; get_string j);
  d ← get_db;
  l ← lift (search partial d);
  js ← mapA (fun x => lift (search_entry d x)) l;
  mret (json_array js).
End search.

(** * The readers the module starts *)

(** A reader is loaded with the devices it points to: [db->load] throws when one is gone. *)
Definition stored_name (has_type : device -> bool) (d : D) (pointer : option Z) : outcome (option string) :=
  match pointer with
  | None => Ret None
  | Some i => x ← load_ref has_type i d; Ret (Some (name_of x))
  end.
Definition stored_reader (d : D) (r : ReaderRow.t) : outcome WiegandReaderConfig.t :=
  high ← stored_name is_gpio d (ReaderRow.gpio_high_ r);
  low ← stored_name is_gpio d (ReaderRow.gpio_low_ r);
  led ← stored_name is_led d (ReaderRow.green_led_ r);
  buzzer ← stored_name is_buzzer d (ReaderRow.buzzer_ r);
  Ret (WiegandReaderConfig.mk (Device.name_ (ReaderRow.device r)) high low led buzzer
    (ReaderRow.mode r) (ReaderRow.pin_timeout r) (ReaderRow.pin_key_end r) (ReaderRow.nowait r)).

(** [load_db_config] of the Wiegand module: every reader is loaded, and those that are
    enabled are kept. *)
Fixpoint load_readers (d : D) (l : list device) : outcome (list WiegandReaderConfig.t) :=
  match l with
  | [] => Ret []
  | ReaderD r :: l =>
      c ← stored_reader d r;
      cs ← load_readers d l;
      Ret (if Device.enabled_ (ReaderRow.device r) then c :: cs else cs)
  | _ :: l => load_readers d l
  end.
Definition load_db_config (d : D) : outcome (list WiegandReaderConfig.t) := load_readers d (rows d).

End serializers.
Arguments kind : clear implicits.
Arguments mk_kind {D J E}.
Arguments id_key {D J E}. Arguments wrap {D J E}. Arguments unwrap {D J E}. Arguments fresh {D J E}.
Arguments unserialize {D J E}. Arguments serialize {D J E}.
