(* ===== verification/DeviceSafety.v ===== *)
(** What the handlers of devices keep: the names, the modes the readers may have,
    what was created; the readers that the Wiegand module starts from the rows; and what the
    handlers do to a server that has no serializer for a device, or that is asked by a user. *)
From Stdlib Require Import ZArith Lia Ascii String Sorting.Sorted.
From stdpp Require Import base tactics numbers list strings gmap relations.
From S2P Require Import Prelude Json Ptree Reader Strategies Device Autodetect Wiegand AuditLog Users Credentials Schedules Security Session Api ApiSafety Store Accounts Zones Resources Estate ResourceSafety Queries QuerySafety Devices.

Open Scope Z_scope.

(** * What is relied on *)

(** What the mapper documents of the table of devices, which keep the id they are
    made with. *)
Class DeviceLaws (D : Type) `{Odb D, !Table D device} := {
  #[global] device_rows :: TableLaws D device;
  device_key (x : device) : row_id x = uuid_of x;
  device_persist (x x' : device) (d d' : D) : persist_row x d = Ret (x', d') -> x' = x;
  device_once (d : D) : NoDup (map row_id (rows (E := device) d));
}.

(** What the handlers rely on of a kind of devices. *)
Record kind_ok {D J E} (k : kind D J E) : Prop := {
  unwrap_wrap e : unwrap k (wrap k e) = Some e;
  wrap_unwrap x e : unwrap k x = Some e -> x = wrap k e;
  fresh_uuid u : uuid_of (wrap k (fresh k u)) = u;
  unserialize_uuid e j d e' : unserialize k e j d = Ret e' -> uuid_of (wrap k e') = uuid_of (wrap k e);
}.

Section kinds.
Context {D : Type} `{Odb D, !Table D device} {J : Type} `{Json J} `{UuidText}.
Context (registered : type_index -> bool).

Lemma unserialize_device_uuid out (in_ : J) out' : unserialize_device out in_ = Ret out' -> Device.id_ out' = Device.id_ out.
Proof. unfold unserialize_device. intros Hu. bind_inv Hu. by injection Hu as <-. Qed.

Lemma led_ok memory : kind_ok (led_kind (D := D) (J := J) registered memory).
Proof.
  split; cbn; [done|by intros [] ? [= ->]|done|]. intros e j d e' Hu. unfold unserialize_blinker in Hu.
  bind_inv Hu. injection Hu as <-. by apply unserialize_device_uuid in E.
Qed.
Lemma buzzer_ok memory : kind_ok (buzzer_kind (D := D) (J := J) registered memory).
Proof.
  split; cbn; [done|by intros [] ? [= ->]|done|]. intros e j d e' Hu. unfold unserialize_blinker in Hu.
  bind_inv Hu. injection Hu as <-. by apply unserialize_device_uuid in E.
Qed.
Lemma reader_ok : kind_ok (reader_kind (D := D) (J := J) registered).
Proof.
  split; cbn; [done|by intros [] ? [= ->]|done|]. intros e j d e' Hu. unfold unserialize_reader in Hu.
  bind_inv Hu. injection Hu as <-. by apply unserialize_device_uuid in E.
Qed.
Lemma pfgpio_ok : kind_ok (pfgpio_kind (D := D) (J := J)).
Proof.
  split; cbn; [done|by intros [] ? [= ->]|done|]. intros e j d e' Hu. unfold unserialize_pfgpio, unserialize_gpio in Hu.
  bind_inv Hu. injection Hu as <-. bind_inv E. injection E as <-. by apply unserialize_device_uuid in E1.
Qed.
End kinds.

(** * Names and modes *)

Section crud.
Context {D : Type} `{Odb D, !Table D device, !DeviceLaws D} {J : Type} `{Json J} `{UuidText}.

(** No two devices have the same name, and each has what is checked after it was
    written: a name, and a mode there is a strategy for. *)
Record good (d : D) : Prop := {
  names_unique i j (x y : device) : find_row i d = Some x -> find_row j d = Some y -> name_of x = name_of y -> i = j;
  all_valid i (x : device) : find_row i d = Some x -> validate_post x = Ret tt;
}.

(** Keeps the devices good when it succeeds. *)
Definition keeps_good {A} (m : api D A) : Prop := forall s s' a, m s = (s', Ret a) -> good (db s) -> good (db s').

Lemma keeps_good_bind {A B} (m : api D A) (f : A -> api D B) : keeps_good m -> (forall a, keeps_good (f a)) -> keeps_good (m ≫= f).
Proof. intros Hm Hf s s' b Hr Hg. api_inv Hr as a Ha. eapply Hf; [exact Hr|]. by eapply Hm. Qed.
Lemma keeps_reader {A} (m : api D A) : reader m -> keeps_good m.
Proof. intros Hm s s' a Hr. by apply (reader_run _ _ _ _ Hm) in Hr as [-> _]. Qed.
Lemma keeps_good_transaction {A} (m : api D A) : keeps_good m -> keeps_good (transaction m).
Proof. intros Hm s s' a Hr. apply transaction_inv_ret in Hr. by eapply Hm. Qed.

(** The check before a row is written: no other row has its name. *)
Lemma validate_pre_free (x : device) d : good d -> validate_pre x d = Ret tt ->
  forall j y, find_row j d = Some y -> name_of y = name_of x -> j = uuid_of x.
Proof.
  intros Hg Hv j y Hy Hn. unfold validate_pre in Hv.
  destruct (List.find _ _) as [z|] eqn:Ez.
  - apply List.find_some in Ez as [Hz Hzn]. apply String.eqb_eq in Hzn. apply find_rows in Hz.
    unfold enforce in Hv. destruct (uuid_of z =? uuid_of x) eqn:Hu; [|done]. apply Z.eqb_eq in Hu.
    rewrite device_key, Hu in Hz. eapply names_unique; [done|exact Hy|exact Hz|congruence].
  - pose proof (find_id _ _ _ Hy) as Hj. rewrite <- Hj in Hy.
    pose proof (List.find_none _ _ Ez y (proj2 (find_rows d y) Hy)) as Hf. cbn in Hf. by rewrite Hn, String.eqb_refl in Hf.
Qed.

Lemma keeps_written {A} (x : device) (write : api D A) :
  (forall s s' a, write s = (s', Ret a) ->
     forall i, find_row i (db s') = if i =? uuid_of x then Some x else find_row i (db s)) ->
  keeps_good (written x write).
Proof.
  intros Hw s s' a Hr Hg. unfold written in Hr. api_inv Hr as d Hd. api_inv Hr as t Hpre. api_inv Hr as b Hb.
  api_inv Hr as t2 Hpost. injection Hr as <- _. specialize (Hw _ _ _ Hb). destruct t, t2.
  pose proof (validate_pre_free _ _ Hg Hpre) as Hfree. split.
  - intros i j y z. rewrite !Hw. destruct (Z.eqb_spec i (uuid_of x)) as [->|Hi], (Z.eqb_spec j (uuid_of x)) as [->|Hj];
      intros; simplify_eq; try done.
    + symmetry. by eapply Hfree.
    + by eapply Hfree.
    + by eapply names_unique.
  - intros i y. rewrite Hw. destruct (_ =? _); [by intros [= <-]|]. by apply all_valid.
Qed.

Lemma persisted (x : device) s s' a : change_row (persist_row x) s = (s', Ret a) ->
  forall i, find_row i (db s') = if i =? uuid_of x then Some x else find_row i (db s).
Proof.
  intros Hr i. apply change_row_inv in Hr as (d & Hp & ->). pose proof (device_persist _ _ _ _ Hp) as ->.
  destruct (persist_find _ _ _ _ i Hp) as (_ & _ & Hf). cbn [db]. by rewrite Hf, device_key.
Qed.
Lemma updated (x : device) s s' u : change_db (update_row x) s = (s', Ret u) ->
  forall i, find_row i (db s') = if i =? uuid_of x then Some x else find_row i (db s).
Proof. intros Hr i. apply change_db_inv in Hr as (d & Hp & ->). cbn [db]. by rewrite (update_find _ _ _ i Hp), device_key. Qed.
Lemma keeps_erased (u : Z) : keeps_good (change_db (erase_row (E := device) u)).
Proof.
  intros s s' t Hr Hg. apply change_db_inv in Hr as (d & Hp & ->). cbn [db].
  split; [intros i j x y|intros i x]; rewrite !(erase_find _ _ _ _ Hp).
  - do 2 (case_match; [done|]). by apply names_unique.
  - case_match; [done|]. by apply all_valid.
Qed.

Section kind.
Context {E : Type} (k : kind D J E) (Hk : kind_ok k) (hdl uuid : Z).

Lemma reader_show e : reader (show k e).
Proof. done. Qed.
Lemma reader_find i : reader (find_by_id k i).
Proof. done. Qed.

Lemma reader_read req : reader (read k hdl req).
Proof.
  unfold read. apply reader_transaction, reader_bind; [done|]. intros id. destruct (negb _).
  - apply reader_bind; [done|]. intros e. by apply reader_bind.
  - apply reader_bind; [done|]. intros d. apply reader_bind; [|done]. apply reader_readable.
    intros x. by destruct (unwrap k x).
Qed.

Lemma keeps_device_requests type content : keeps_good (process_crud (handler k hdl uuid) hdl type content).
Proof using DeviceLaws0.
  unfold process_crud. apply keeps_good_bind; [by apply keeps_reader|]. intros verb. apply keeps_good_bind; [by apply keeps_reader|].
  intros perms. apply keeps_good_bind; [apply keeps_reader, reader_enforce|]. intros _. destruct verb; cbn [handler read_impl create_impl update_impl delete_impl].
  - apply keeps_reader, reader_read.
  - apply keeps_good_transaction. do 3 (apply keeps_good_bind; [by apply keeps_reader|]; intros ?).
    apply keeps_good_bind; [apply keeps_written; intros ???; apply persisted|]. intros _. apply keeps_reader; by reader.
  - apply keeps_good_transaction. do 5 (apply keeps_good_bind; [by apply keeps_reader|]; intros ?).
    apply keeps_good_bind; [apply keeps_written; intros ???; apply updated|]. intros _. apply keeps_reader; by reader.
  - apply keeps_good_bind; [by apply keeps_reader|]. intros id. apply keeps_good_transaction.
    apply keeps_good_bind; [by apply keeps_reader|]. intros e. apply keeps_good_bind; [apply keeps_erased|]. intros _. apply keeps_reader; by reader.
Qed.

(** However a request on devices ends, the devices stay good. *)
Lemma device_request_good type content s s' r :
  process_crud (handler k hdl uuid) hdl type content s = (s', r) -> good (db s) -> good (db s').
Proof using DeviceLaws0.
  intros Hr Hg. pose proof (atomic_crud (handler k hdl uuid) hdl type content) as Hat.
  destruct (Hat (fun j => atomic_transaction _) (fun j => atomic_transaction _) (fun j => atomic_transaction _)
    (fun j => atomic_bind _ _ (reader_lift _) (fun _ => atomic_transaction _)) _ _ _ Hr) as [[j ->]| ->]; [|done].
  by eapply keeps_device_requests.
Qed.
End kind.
End crud.

(** * The readers that start *)

Section start.
Context {D : Type} `{Odb D, !Table D device, !DeviceLaws D} {J : Type} `{Json J} `{UuidText}.
Context (registered : type_index -> bool).

(** A request on devices of some kind was served, however it ended. *)
Inductive served (s s' : server D) : Prop :=
  | served_led memory hdl uuid type (content : J) r :
      process_crud (led_handler registered memory hdl uuid) hdl type content s = (s', r) -> served s s'
  | served_buzzer memory hdl uuid type (content : J) r :
      process_crud (buzzer_handler registered memory hdl uuid) hdl type content s = (s', r) -> served s s'
  | served_pfgpio hdl uuid type (content : J) r :
      process_crud (piface_handler hdl uuid) hdl type content s = (s', r) -> served s s'
  | served_reader hdl uuid type (content : J) r :
      process_crud (wiegand_handler registered hdl uuid) hdl type content s = (s', r) -> served s s'.

Lemma served_good s s' : rtc served s s' -> good (db s) -> good (db s').
Proof using DeviceLaws0.
  induction 1 as [s|s1 s2 s3 Hs _ IH]; [done|]. intros Hg. apply IH. by destruct Hs; eapply device_request_good.
Qed.

(** The names of the rows are all different, and so are those of a part of them. *)
Lemma names_once d : good d -> NoDup (map name_of (rows d)).
Proof.
  intros Hg. pose proof (device_once d) as Hnd. assert (Hin : forall x, In x (rows d) -> find_row (row_id x) d = Some x)
    by (intros x; apply find_rows).
  revert Hnd Hin. induction (rows d) as [|x l IH]; intros Hnd Hin; cbn [map] in *; [constructor|].
  apply NoDup_cons in Hnd as [Hx Hnd]. apply NoDup_cons. split; [|apply IH; [done|]; intros y Hy; apply Hin; by right].
  intros Hn. apply Hx. apply list_elem_of_In, in_map_iff in Hn as (y & Hy & Hiny).
  rewrite (names_unique d Hg _ _ x y (Hin x (or_introl eq_refl)) (Hin y (or_intror Hiny)) (eq_sym Hy)).
  by apply list_elem_of_In, in_map.
Qed.

(** ** The readers of the rows *)

Definition enabled_reader (x : device) : option ReaderRow.t :=
  match x with ReaderD r => if Device.enabled_ (ReaderRow.device r) then Some r else None | _ => None end.
Definition reader_name (r : ReaderRow.t) : string := Device.name_ (ReaderRow.device r).

(** The device [i] is there, of the type asked for and with that name, and its pin when
    it is a LED or a buzzer. *)
Definition pin_there (d : D) (x : device) : Prop :=
  match x with
  | LedD b | BuzzerD b => forall g, BlinkerRow.gpio_ b = Some g -> exists y, find_row g d = Some y /\ is_gpio y = true
  | _ => True
  end.
Definition there (d : D) (has_type : device -> bool) (i : Z) (name : string) : Prop :=
  exists x, find_row i d = Some x /\ has_type x = true /\ pin_there d x /\ name = name_of x.

(** What a pointer of a reader's row stands for: no device, or one that is there. *)
Definition points (d : D) (has_type : device -> bool) (pointer : option Z) (name : option string) : Prop :=
  match pointer, name with None, None => True | Some i, Some n => there d has_type i n | _, _ => False end.

(** The configuration [c] is that of the row [r]. *)
Definition describes (d : D) (r : ReaderRow.t) (c : WiegandReaderConfig.t) : Prop :=
  WiegandReaderConfig.name c = reader_name r /\
  points d is_gpio (ReaderRow.gpio_high_ r) (WiegandReaderConfig.gpio_high_ c) /\
  points d is_gpio (ReaderRow.gpio_low_ r) (WiegandReaderConfig.gpio_low_ c) /\
  points d is_led (ReaderRow.green_led_ r) (WiegandReaderConfig.green_led_ c) /\
  points d is_buzzer (ReaderRow.buzzer_ r) (WiegandReaderConfig.buzzer_ c) /\
  WiegandReaderConfig.mode c = ReaderRow.mode r /\ WiegandReaderConfig.pin_timeout c = ReaderRow.pin_timeout r /\
  WiegandReaderConfig.pin_key_end c = ReaderRow.pin_key_end r /\ WiegandReaderConfig.nowait c = ReaderRow.nowait r.

(** The devices of a row are all there. *)
Definition complete (d : D) (r : ReaderRow.t) : Prop := exists c, describes d r c.

Lemma load_pin_spec d x : load_pin x d = Ret tt /\ pin_there d x \/ load_pin x d = Throw ObjectNotPersistent /\ ~ pin_there d x.
Proof.
  unfold load_pin, pin_there. destruct x as [| |b|b| |]; try by left.
  all: destruct (BlinkerRow.gpio_ b) as [g|]; [|by left].
  all: destruct (find_row g d) as [y|] eqn:Ey; [destruct (is_gpio y) eqn:Eg|];
    [left; split; [done|]; intros g' [= <-]; by exists y|right; split; [done|]; intros Hp..];
    destruct (Hp g eq_refl) as (z & Hz & Hgz); congruence.
Qed.

Lemma stored_name_spec has_type d p :
  (exists n, stored_name has_type d p = Ret n /\ points d has_type p n) \/
  (stored_name has_type d p = Throw ObjectNotPersistent /\ forall n, ~ points d has_type p n).
Proof.
  destruct p as [i|]; [|left; by exists None]. unfold stored_name, load_ref.
  assert (Hno : (forall x, find_row i d = Some x -> has_type x = true -> ~ pin_there d x) -> forall n, ~ points d has_type (Some i) n).
  { intros Hn [n|] Hpt; [|exact Hpt]. destruct Hpt as (x & Hx & Ht & Hp & _). exact (Hn x Hx Ht Hp). }
  destruct (find_row i d) as [x|] eqn:Ex; [|right; split; [done|]; by apply Hno].
  destruct (has_type x) eqn:Et; [|right; split; [done|]; apply Hno; intros y [= <-]; congruence].
  destruct (load_pin_spec d x) as [[-> Hp]|[-> Hp]].
  - left. exists (Some (name_of x)). split; [done|]. by exists x.
  - right. split; [done|]. apply Hno. by intros y [= <-].
Qed.

Lemma stored_reader_spec d r :
  (exists c, stored_reader d r = Ret c /\ describes d r c) \/ (stored_reader d r = Throw ObjectNotPersistent /\ ~ complete d r).
Proof.
  unfold stored_reader, complete, describes.
  destruct (stored_name_spec is_gpio d (ReaderRow.gpio_high_ r)) as [(n1 & -> & P1)|[-> P1]]; [|right; split; [done|]; naive_solver].
  destruct (stored_name_spec is_gpio d (ReaderRow.gpio_low_ r)) as [(n2 & -> & P2)|[-> P2]]; [|right; split; [done|]; naive_solver].
  destruct (stored_name_spec is_led d (ReaderRow.green_led_ r)) as [(n3 & -> & P3)|[-> P3]]; [|right; split; [done|]; naive_solver].
  destruct (stored_name_spec is_buzzer d (ReaderRow.buzzer_ r)) as [(n4 & -> & P4)|[-> P4]]; [|right; split; [done|]; naive_solver].
  left. eexists. by split; [|split_and!].
Qed.

Lemma load_readers_spec d l :
  (exists cs, load_readers d l = Ret cs /\ Forall2 (describes d) (omap enabled_reader l) cs /\
     forall r, In (ReaderD r) l -> complete d r) \/
  (load_readers d l = Throw ObjectNotPersistent /\ exists r, In (ReaderD r) l /\ ~ complete d r).
Proof.
  induction l as [|x l IH]; [left; exists []; by split_and!|].
  assert (Hskip : (forall r, x <> ReaderD r) -> load_readers d (x :: l) = load_readers d l /\ omap enabled_reader (x :: l) = omap enabled_reader l).
  { intros Hx. destruct x; try done. by destruct (Hx r). }
  assert (Hcase : (exists r, x = ReaderD r) \/ ~ exists r, x = ReaderD r)
    by (destruct x; (right; intros [? ?]; discriminate) || (left; by eexists)).
  destruct Hcase as [[r ->]|Hx].
  - cbn [load_readers]. destruct (stored_reader_spec d r) as [(c & -> & Hc)|[-> Hc]]; [|right; split; [done|]; exists r; split; [by left|done]].
    cbn [mbind outcome_bind]. destruct IH as [(cs & -> & Hcs & Hall)|[-> (r' & Hr' & Hn)]];
      [|right; split; [done|]; exists r'; split; [by right|done]].
    left. eexists. split; [done|]. cbn [omap list_omap enabled_reader]. split.
    + destruct (Device.enabled_ _); [by constructor|done].
    + intros r' [[= <-]|Hr']; [by exists c|by apply Hall].
  - destruct Hskip as [-> Ho]; [by intros r ->; destruct Hx; exists r|]. rewrite Ho.
    destruct IH as [(cs & -> & Hcs & Hall)|[-> (r' & Hr' & Hn)]]; [left; exists cs|right; split; [done|]; exists r'; split; [by right|done]].
    split_and!; [done..|]. intros r [->|Hr]; [destruct Hx; by exists r|by apply Hall].
Qed.

Lemma enabled_rows l r : In r (omap enabled_reader l) <-> In (ReaderD r) l /\ Device.enabled_ (ReaderRow.device r) = true.
Proof.
  rewrite <- !list_elem_of_In, list_elem_of_omap. split.
  - intros (x & Hx & Er). destruct x; try done. cbn in Er. case_match; [|done]. by injection Er as <-.
  - intros [Hr He]. exists (ReaderD r). split; [done|]. cbn. by rewrite He.
Qed.

Lemma enabled_once l : NoDup (map name_of l) -> NoDup (map reader_name (omap enabled_reader l)).
Proof.
  induction l as [|x l IH]; intros Hnd; cbn [map omap list_omap] in *; [constructor|].
  apply NoDup_cons in Hnd as [Hx Hnd]. specialize (IH Hnd). destruct (enabled_reader x) as [r|] eqn:Er; [|done].
  cbn [map]. apply NoDup_cons. split; [|done]. intros (r' & Hr' & Hin)%list_elem_of_In%in_map_iff. apply Hx.
  apply enabled_rows in Hin as [Hin _]. apply list_elem_of_In, in_map_iff. exists (ReaderD r'). split; [|done].
  destruct x; try done. cbn in Er. case_match; [|done]. by injection Er as ->.
Qed.

Lemma reader_valid d r : good d -> In (ReaderD r) (rows d) -> ReaderRow.mode r ∈ WiegandReaderConfig.valid_operation_modes.
Proof.
  intros Hg Hr. apply find_rows in Hr. pose proof (all_valid d Hg _ _ Hr) as Hv. cbn in Hv.
  unfold validate_post in Hv. bind_inv Hv. unfold enforce in Hv. by case_bool_decide.
Qed.

(** [load_db_config], then [process_config]. *)
Definition start_readers {T} `{PropertyTree T} (clk : Strategies.clock) (strict : bool) (d : D) (checker : ConfigChecker.t) (config : T) :=
  db ← load_db_config d; Wiegand.process_config clk strict db checker config.

(** C32: (invariant) Whatever requests on devices were served, and however they ended, and when no other
    module has registered a device with the name of one of its readers, the Wiegand module
    that loads the database starts: when the devices that the readers' rows point to are all there, with one reader for
    each enabled row, with the name of the row, wired to the devices of the row, with nothing received, and registered;
    no mode aborts it and no name is registered twice. When a device that the row of some reader points
    to is gone, even of a reader that is not enabled, the module does not start: loading the readers throws. *)
Theorem stored_readers_start {T} `{PropertyTree T} clk strict checker (config mc : T) s s' :
  good (db s) -> rtc served s s' ->
  get_child config "module_config" = Ret mc -> get_default as_bool mc "use_database" false = true ->
  (forall r, In (ReaderD r) (rows (db s')) -> checker !! reader_name r = None) ->
  ((forall r, In (ReaderD r) (rows (db s')) -> complete (db s') r) ->
   exists enabled cs checker' rs, start_readers clk strict (db s') checker config = Ret (checker', rs) /\
     (forall r, In r enabled <-> In (ReaderD r) (rows (db s')) /\ Device.enabled_ (ReaderRow.device r) = true) /\
     NoDup (map reader_name enabled) /\ Forall2 (describes (db s')) enabled cs /\
     map (fun st => (rd st.1, st.2)) rs = map (fun c => (make_reader c, [])) cs /\
     Forall (fun r => ConfigChecker.has_object (reader_name r) RFID_READER checker' = true) enabled) /\
  ((exists r, In (ReaderD r) (rows (db s')) /\ ~ complete (db s') r) ->
   start_readers clk strict (db s') checker config = Throw ObjectNotPersistent).
Proof.
  intros Hg Hs Hmc Hdb Hf. pose proof (served_good _ _ Hs Hg) as Hg'. unfold start_readers, load_db_config.
  destruct (load_readers_spec (db s') (rows (db s'))) as [(cs & -> & Hcs & Hall)|[-> (r & Hr & Hn)]]; cbn [mbind outcome_bind].
  2: { split; [intros Hall; by destruct (Hn (Hall r Hr))|done]. }
  split; [intros _|intros (r & Hr & Hn); by destruct (Hn (Hall r Hr))].
  assert (Hnames : map WiegandReaderConfig.name cs = map reader_name (omap enabled_reader (rows (db s')))).
  { clear -Hcs. induction Hcs as [|r c ers cs Hd _ IH]; [done|]. cbn. rewrite IH. f_equal. apply Hd. }
  assert (Hrow : forall c, In c cs -> exists r, In (ReaderD r) (rows (db s')) /\ describes (db s') r c).
  { intros c Hc. apply list_elem_of_In, list_elem_of_lookup in Hc as [i Hi].
    destruct (Forall2_lookup_r _ _ _ _ _ Hcs Hi) as (r & Hr & Hd). exists r. split; [|done].
    apply list_elem_of_lookup_2, list_elem_of_In, enabled_rows in Hr. apply Hr. }
  destruct (process_config_builds clk strict cs checker config mc Hmc Hdb) as (checker' & rs & Hrun & Hmap & _ & Hreg).
  - apply List.Forall_forall. intros c (r & Hr & Hd)%Hrow. destruct Hd as (_ & _ & _ & _ & _ & -> & _). by eapply reader_valid.
  - rewrite Hnames. by apply enabled_once, names_once.
  - apply List.Forall_forall. intros c (r & Hr & Hd)%Hrow. destruct Hd as (-> & _). by apply Hf.
  - exists (omap enabled_reader (rows (db s'))), cs, checker', rs. split_and!; [done|apply enabled_rows|by apply enabled_once, names_once|done|done|].
    apply List.Forall_forall. intros r Hr. apply (in_map reader_name) in Hr. rewrite <- Hnames in Hr.
    apply in_map_iff in Hr as (c & <- & Hc). rewrite List.Forall_forall in Hreg. by apply Hreg.
Qed.
End start.

(** * Creating and reading *)

Section create.
Context {D : Type} `{Odb D, !Table D device, !DeviceLaws D} {J : Type} `{Json J} `{UuidText}.

Lemma written_inv {A} (x : device) (write : api D A) s s' a : written x write s = (s', Ret a) ->
  write s = (s', Ret a) /\ validate_pre x (db s) = Ret tt /\ validate_post x = Ret tt.
Proof.
  intros Hr. unfold written in Hr. api_inv Hr as d Hd. api_inv Hr as t Hpre. api_inv Hr as b Hb.
  api_inv Hr as t2 Hpost. injection Hr as <- <-. by destruct t, t2.
Qed.

(** (roundtrip) A device that was created is read back as the reply to its creation
    said, whatever its kind. *)
Theorem created_reads_back {E} (k : kind D J E) hdl uuid req req' s s' j :
  kind_ok k -> uuid <> 0 -> create k uuid req s = (s', Ret j) ->
  device_id k req' = Ret uuid -> read k hdl req' s' = (s', Ret j).
Proof.
  intros Hk Hu Hr Hid. unfold create in Hr. apply transaction_inv_ret in Hr. api_inv Hr as attributes Ha.
  api_inv Hr as d Hd. api_inv Hr as e He. api_inv Hr as x Hx. apply written_inv in Hx as (Hx & _ & _).
  pose proof (persisted _ _ _ _ Hx) as Hf. api_inv Hr as j' Hj. apply (reader_run _ _ _ _ (reader_show k e)) in Hj as [-> Hj].
  injection Hr as <- <-. assert (Hue : uuid_of (wrap k e) = uuid)
    by (by rewrite (unserialize_uuid k Hk _ _ _ _ He), (fresh_uuid k Hk)).
  unfold read, transaction. rewrite Hid, lift_bind, (proj2 (Z.eqb_neq uuid 0) Hu). cbn [negb].
  rewrite (bind_at (find_by_id k uuid) _ s0 s0 e).
  - by rewrite (bind_at _ _ _ _ _ Hj).
  - unfold find_by_id. rewrite get_db_bind, Hf, Hue, Z.eqb_refl. cbn. by rewrite (unwrap_wrap k Hk).
Qed.

End create.

(** * Attributes *)

Section attributes.
Context {J : Type} `{JsonLaws J} `{UuidText}.
Context (bool_read : forall b, get_bool (json_bool (J := J) b) = Ret b) (bool_present : forall b, is_null (json_bool (J := J) b) = false).

Lemma extract_present {A} (get : J -> outcome A) fields key v a def :
  List.find (fun kv => String.eqb kv.1 key) fields = Some (key, v) -> is_null v = false -> get v = Ret a ->
  JSONUtil.extract_with_default get (json_object fields) key def = Ret a.
Proof. intros Hf Hn Hg. unfold JSONUtil.extract_with_default. rewrite at_object, Hf. cbn. by rewrite Hn, Hg. Qed.

(** (roundtrip) The attributes that are printed of a pin make a new object the same
    pin, but for its UUID. *)
Theorem pin_attributes_roundtrip (g : PfGpioRow.t) uuid :
  let pin := PfGpioRow.gpio g in let dev := GpioRow.device pin in
  0 <= GpioRow.number_ pin < 2 ^ 16 -> - 2 ^ 31 <= GpioRow.direction_ pin < 2 ^ 31 -> 0 <= PfGpioRow.hardware_address_ g < 2 ^ 8 ->
  unserialize_pfgpio (PfGpioRow.make uuid) (json_object (device_attributes dev ++ pfgpio_attributes g)) =
    Ret (PfGpioRow.mk (GpioRow.mk (Device.mk uuid (Device.name_ dev) GPIO (Device.enabled_ dev))
           (GpioRow.number_ (PfGpioRow.gpio g)) (GpioRow.direction_ pin) (GpioRow.default_value_ pin)) (PfGpioRow.hardware_address_ g)).
Proof using All.
  intros pin dev Hn Hd Ha. subst pin dev. unfold unserialize_pfgpio, unserialize_gpio, unserialize_device.
  erewrite (extract_present get_string _ "name") by (first [reflexivity|apply null_string|apply string_read]). rewrite ret_bind.
  erewrite (extract_present get_bool _ "enabled") by (first [reflexivity|apply bool_present|apply bool_read]). rewrite !ret_bind.
  erewrite (extract_present get_u16 _ "number" _ (GpioRow.number_ (PfGpioRow.gpio g)))
    by (first [reflexivity|apply null_number|unfold get_u16; rewrite number_read, ret_bind; f_equal; apply Z.mod_small; lia]).
  rewrite ret_bind.
  erewrite (extract_present get_int _ "direction" _ (GpioRow.direction_ (PfGpioRow.gpio g)))
    by (first [reflexivity|apply null_number|unfold get_int, as_int32; rewrite number_read, ret_bind; f_equal; rewrite Z.mod_small; lia]).
  rewrite ret_bind.
  erewrite (extract_present get_bool _ "default-value") by (first [reflexivity|apply bool_present|apply bool_read]). rewrite !ret_bind.
  erewrite (extract_present get_u8 _ "hardware-address" _ (PfGpioRow.hardware_address_ g))
    by (first [reflexivity|apply null_number|unfold get_u8; rewrite number_read, ret_bind; f_equal; apply Z.mod_small; lia]).
  by rewrite ret_bind.
Qed.
End attributes.

(** * What goes wrong *)

Section troubles.
Context {D : Type} `{Odb D, !Table D device, !DeviceLaws D} {J : Type} `{Json J} `{UuidText}.
Context (registered : type_index -> bool).

(** (error) Any user who is no administrator can stop the server with a request on a
    device, of whatever kind: the check of the permission has no case for it and
    aborts. *)
Theorem device_request_aborts {E} (k : kind D J E) hdl uuid type content verb perms s x uid :
  session_of hdl (sessions s) = Some x -> security_ x = Some uid ->
  UserSecurityContext.is_admin (as_user_of uid (view (db s))) = false ->
  verb_from_request_type type = Ret verb -> required_permission k verb content = Ret perms ->
  process_crud (handler k hdl uuid) hdl type content s = (s, Fault AssertFailed).
Proof.
  intros Hx Hsec Hadm Hv Hp. unfold process_crud. rewrite Hv, lift_bind. cbn [handler crud_permission].
  rewrite Hp, lift_bind. unfold required_permission in Hp. apply bind_Ret in Hp as (id & _ & [= <-]).
  erewrite bind_fault; [reflexivity|]. cbn [enforce_permission]. rewrite (session_bind _ _ _ _ Hx), get_db_bind.
  unfold APISession.check_permission. rewrite Hsec. destruct verb;
    (change (SecurityContext.check_permission (as_user_of uid (view (db s))) ?a ?p)
       with (UserSecurityContext.check_permission_impl (as_user_of uid (view (db s))) a p);
     rewrite (proj2 (Facts.check_aborts _ _ _ Hadm)); [by rewrite lift_bind|]; apply (bool_decide_unpack _); by vm_compute).
Qed.

(** (error) A LED, or a buzzer, that is wired to a pin of a module that is not loaded,
    whose serializer is not registered, cannot be read: the server aborts. *)
Theorem unregistered_pin_aborts memory hdl req s id b pin i :
  device_id (led_kind (D := D) (J := J) registered memory) req = Ret id -> id <> 0 ->
  find_row id (db s) = Some (LedD b) -> BlinkerRow.gpio_ b = Some i -> find_row i (db s) = Some pin ->
  is_gpio pin = true -> registered (type_of pin) = false ->
  read (led_kind registered memory) hdl req s = (s, Fault AssertFailed).
Proof.
  intros Hid Hnz Hb Hi Hpin Hg Hr. unfold read, transaction. rewrite Hid, lift_bind, (proj2 (Z.eqb_neq id 0) Hnz). cbn [negb].
  rewrite (bind_at (find_by_id _ id) _ s s b) by (unfold find_by_id; by rewrite get_db_bind, Hb).
  rewrite (bind_fault _ _ s s AssertFailed); [by destruct s|]. unfold show. rewrite get_db_bind.
  cbn [led_kind serialize]. unfold blinker_json, reference_metadata, load_ref. rewrite Hi, Hpin, Hg.
  assert (load_pin pin (db s) = Ret tt) as -> by (by destruct pin). rewrite !ret_bind.
  unfold gpio_type. by rewrite Hr.
Qed.

(** (safety) The pin of a LED can be changed but not taken away: whatever an update says,
    a LED that had a pin has one afterwards. *)
Theorem led_keeps_a_pin memory req s s' j id b :
  device_id (led_kind (D := D) (J := J) registered memory) req = Ret id ->
  find_row id (db s) = Some (LedD b) -> is_Some (BlinkerRow.gpio_ b) ->
  update (led_kind registered memory) req s = (s', Ret j) ->
  exists b', find_row id (db s') = Some (LedD b') /\ is_Some (BlinkerRow.gpio_ b').
Proof.
  intros Hid Hb Hg Hr. unfold update in Hr. apply transaction_inv_ret in Hr. rewrite Hid, lift_bind in Hr.
  rewrite (bind_at (find_by_id _ id) _ s s b) in Hr by (unfold find_by_id; by rewrite get_db_bind, Hb).
  api_inv Hr as attributes Ha. api_inv Hr as d Hd. api_inv Hr as b' Hb'. api_inv Hr as x Hx.
  apply written_inv in Hx as (Hx & _ & _). pose proof (updated _ _ _ _ Hx) as Hf.
  api_inv Hr as j' Hj. apply (reader_run _ _ _ _ (reader_show _ b')) in Hj as [-> _]. injection Hr as <- _.
  pose proof (unserialize_uuid _ (led_ok registered memory) _ _ _ _ Hb') as Hu.
  pose proof (find_id _ _ _ Hb) as Hi. rewrite device_key in Hi. cbn [led_kind wrap] in *.
  exists b'. split; [by rewrite Hf, Hu, Hi, Z.eqb_refl|]. cbn [led_kind unserialize] in Hb'. unfold unserialize_blinker, unserialize_ref in Hb'.
  bind_inv Hb'. injection Hb' as <-. cbn. bind_inv E2.
  case_match; [by injection E2 as <-|]. bind_inv E2. injection E2 as <-. eauto.
Qed.

(** (error) The durations of a new LED that is created without them are whatever the
    memory held: they are stored and sent to the client. *)
Theorem new_led_shows_memory memory uuid (attributes : J) (d : D) b :
  at_ attributes "default-blink-duration" = Throw JsonOutOfRange -> at_ attributes "default-blink-speed" = Throw JsonOutOfRange ->
  unserialize (led_kind registered memory) (fresh (led_kind (D := D) (J := J) registered memory) uuid) attributes d = Ret b ->
  (BlinkerRow.default_blink_duration_ b, BlinkerRow.default_blink_speed_ b) = memory.
Proof.
  intros Hd Hs Hu. cbn in Hu. unfold unserialize_blinker, JSONUtil.extract_with_default in Hu. rewrite Hd, Hs in Hu.
  bind_inv Hu. simplify_eq. by destruct memory.
Qed.

(** * Search *)

Lemma loaded_same (d : D) l s : Forall (fun x => In x (rows d)) l -> foldM (load_and_insert d) s l = foldM EntitySearchTool.insert s l.
Proof.
  intros Hl. revert s. induction Hl as [|x l Hx Hl IH]; intros s; cbn [foldM]; [done|]. apply find_rows in Hx.
  assert (load_and_insert d s x = EntitySearchTool.insert s x) as -> by (unfold load_and_insert; by rewrite Hx).
  destruct (EntitySearchTool.insert s x); cbn; [apply IH|done..].
Qed.

(** (functional) The search of hardware finds the devices whose name is like the text,
    or like it with one of its letters made a capital, each once and by increasing
    UUID, and reads each with its type. *)
Theorem hardware_search_finds like partial (d : D) :
  exists l, search like partial d = Ret l /\ StronglySorted Z.lt (map row_id l) /\
    forall x, In x l <-> In x (rows d) /\
      exists p, In p (partial :: EntitySearchTool.variants partial) /\ EntitySearchTool.matches name_of like p x = true.
Proof.
  destruct (patterns_run name_of like d (EntitySearchTool.variants partial ++ [partial]) []) as (l & Hl & Hs & Hin); [constructor..|].
  exists l. split; [|split; [done|]].
  - rewrite <- Hl. clear Hl Hs Hin. unfold search. generalize (@nil device). induction (_ ++ _) as [|p ps IH]; intros s; cbn [foldM]; [done|].
    assert (search_and_load like d s p = EntitySearchTool.search_and_append name_of like d s p) as ->
      by (apply loaded_same, filter_rows).
    destruct (EntitySearchTool.search_and_append _ _ _ _ _); cbn; [apply IH|done..].
  - intros x. rewrite Hin. cbn [In]. setoid_rewrite in_app_iff. cbn [In]. naive_solver.
Qed.
End troubles.

(** * Witnesses *)

Module Demo.

(** The estate of Estate.v with a table of devices; UUIDs written as numbers. *)
Definition depot : Type := estate * gmap Z device.
Definition device_map (d : depot) : gmap Z device := d.2.
Definition with_devices (m : gmap Z device) (d : depot) : depot := (d.1, m).
#[export] Instance depot_odb : Odb depot := extended_odb.

Abbreviation device_at := (keyed uuid_of device_map).

#[export] Instance device_table : Table depot device := {|
  row_id := uuid_of;
  rows := fun d => omap (fun p : Z * device => device_at p.1 d) (map_to_list (device_map d));
  find_row := device_at;
  persist_row := fun x d =>
    if (uuid_of x =? 0) || bool_decide (is_Some (device_map d !! uuid_of x)) then Throw (OdbException "object already persistent")
    else Ret (x, with_devices (<[uuid_of x := x]> (device_map d)) d);
  update_row := fun x d => present (device_at (uuid_of x) d) ObjectChanged (with_devices (<[uuid_of x := x]> (device_map d)) d);
  erase_row := fun i d => present (device_at i d) ObjectNotPersistent (with_devices (base.delete i (device_map d)) d);
|}.

#[export] Instance depot_uuids : UuidText := {|
  parse_uuid := fun s => match as_int (T := xml) s with Some z => Ret z | None => Throw StdInvalidArgument end;
  print_uuid := to_string;
|}.

Lemma depot_table_laws : TableLaws depot device.
Proof.
  assert (Hput : forall x d i, uuid_of x <> 0 ->
    device_at i (with_devices (<[uuid_of x := x]> (device_map d)) d) = if i =? uuid_of x then Some x else device_at i d)
    by (intros x d i; by apply (keyed_put uuid_of device_map with_devices)).
  split; cbn [rows find_row row_id persist_row update_row erase_row device_table].
  - intros d e. rewrite <- list_elem_of_In, list_elem_of_omap. split.
    + intros ([i e'] & Hin & Hk). cbn in Hk. by destruct (keyed_some _ _ _ _ _ Hk) as (-> & _ & _).
    + intros Hk. exists (uuid_of e, e). split; [|done]. apply elem_of_map_to_list. by apply keyed_some in Hk as (_ & ? & _).
  - intros d e i Hk. by apply keyed_some in Hk as (? & _ & _).
  - done.
  - intros e e' d d' i. destruct (Z.eqb_spec (uuid_of e) 0) as [|Hz]; [done|]. case_bool_decide as Hs; [done|]. intros [= <- <-].
    split; [|split; [done|by apply Hput]]. unfold keyed. rewrite (proj2 (Z.eqb_neq _ _)) by done.
    by rewrite (proj2 (eq_None_not_Some _) Hs).
  - intros e d d' i. unfold present. destruct (device_at (uuid_of e) d) eqn:Ek; [|done]. intros [= <-].
    apply Hput. by apply keyed_some in Ek as (_ & _ & ?).
  - intros d d' i j. unfold present. destruct (device_at i d) eqn:Ek; [|done]. intros [= <-]. unfold keyed. cbn.
    destruct (Z.eqb_spec j i) as [->|Hn]; [rewrite lookup_delete_eq|by rewrite lookup_delete_ne]. by destruct (_ =? _).
  - intros es d d' i Ha. unfold keyed, device_map. by rewrite (extended_audit _ _ _ Ha).
Qed.

#[export] Instance depot_laws : DeviceLaws depot.
Proof.
  split; [exact depot_table_laws|done| |].
  - intros x x' d d'. cbn. case_match; [done|]. by intros [= <- _].
  - intros d. apply map_table_once.
Qed.

(** A pin of a Piface card, a LED on it and a reader. *)
Definition relay : PfGpioRow.t := PfGpioRow.mk (GpioRow.mk (Device.mk 1 "relay" GPIO true) 3 1 false) 0.
Definition green : BlinkerRow.t := BlinkerRow.mk (Device.mk 2 "green" LED true) (Some 1) 100 5.
Definition gate : ReaderRow.t :=
  ReaderRow.mk (Device.mk 3 "gate" RFID_READER true) "AUTODETECT" 2500 "#" false (Some 1) None (Some 2) None.
Definition demo_depot : depot := (demo_estate, {[ 1 := PfGpioD relay; 2 := LedD green; 3 := ReaderD gate ]}).
Definition boss : server depot := mk_server demo_depot (sessions admin_here).
Definition worker : server depot := mk_server demo_depot (sessions bob_here).

(** All modules are loaded, or that of the Piface card is not. *)
Definition loaded (_ : type_index) : bool := true.
Definition no_piface (t : type_index) : bool := match t with T_PFGPIO => false | _ => true end.

Lemma demo_good : good demo_depot.
Proof.
  assert (Hrows : forall i x, find_row i demo_depot = Some x -> i = 1 /\ x = PfGpioD relay \/ i = 2 /\ x = LedD green \/ i = 3 /\ x = ReaderD gate).
  { intros i x Hx. apply keyed_some in Hx as (_ & Hx & _). cbn in Hx.
    rewrite !lookup_insert_Some, lookup_singleton_Some in Hx. naive_solver. }
  split.
  - intros i j x y Hx Hy. apply Hrows in Hx, Hy.
    destruct Hx as [[-> ->]|[[-> ->]|[-> ->]]], Hy as [[-> ->]|[[-> ->]|[-> ->]]]; done.
  - intros i x Hx. apply Hrows in Hx. destruct Hx as [[-> ->]|[[-> ->]|[-> ->]]]; vm_compute; reflexivity.
Qed.

(** A second reader, made by an administrator. *)
Definition new_reader (name mode : string) : json :=
  JObject [("attributes", JObject [("name", JString name); ("mode", JString mode); ("gpio_high_id", JString "1")])].
Abbreviation reader_request name mode :=
  (process_crud (handler (reader_kind loaded) 1 9) 1 "wiegand-reader.create" (new_reader name mode) boss).

(** The relay is erased: the readers that point to it can no longer be loaded. *)
Definition without_relay : server depot :=
  (process_crud (piface_handler 1 9) 1 "pfdigital-gpio.delete" (JObject [("gpio_id", JString "1")]) boss).1.

Lemma loads (d : depot) cs : load_db_config d = Ret cs -> forall r, In (ReaderD r) (rows d) -> complete d r.
Proof. intros Hl. destruct (load_readers_spec d (rows d)) as [(? & _ & _ & Hall)|[He _]]; [done|]. unfold load_db_config in Hl. congruence. Qed.
Lemma loads_not (d : depot) : load_db_config d = Throw ObjectNotPersistent -> exists r, In (ReaderD r) (rows d) /\ ~ complete d r.
Proof. intros Hl. destruct (load_readers_spec d (rows d)) as [(? & He & _)|[_ ?]]; [|done]. unfold load_db_config in Hl. congruence. Qed.

Lemma stored_readers_witness :
  (reader_request "gate" "AUTODETECT").2 = Throw (ModelException "data/attributes/name" "Device name already used") /\
  (reader_request "back" "MORSE").2 = Throw (ModelException "data/attributes/mode" "Invalid wiegand-reader mode.") /\
  (exists checker' rs, start_readers (clock_at 0) true (db (reader_request "back" "AUTODETECT").1) ∅ demo_config = Ret (checker', rs) /\
     ConfigChecker.has_object "gate" RFID_READER checker' = true) /\
  start_readers (clock_at 0) true (db without_relay) ∅ demo_config = Throw ObjectNotPersistent.
Proof.
  split; [vm_compute; reflexivity|]. split; [vm_compute; reflexivity|]. split.
  - destruct (stored_readers_start (D := depot) (J := json) loaded (clock_at 0) true ∅ demo_config (Node "" [("use_database", leaf "true")])
      boss (reader_request "back" "AUTODETECT").1) as [Hstart _].
    + exact demo_good.
    + apply rtc_once. eapply served_reader. apply surjective_pairing.
    + reflexivity.
    + reflexivity.
    + intros r _. reflexivity.
    + destruct Hstart as (enabled & cs & checker' & rs & Hrun & Hen & _ & _ & _ & Hreg); [eapply loads; vm_compute; reflexivity|].
      exists checker', rs. split; [exact Hrun|]. rewrite List.Forall_forall in Hreg. apply (Hreg gate), Hen.
      split; [vm_compute; tauto|reflexivity].
  - eapply (stored_readers_start (D := depot) (J := json) loaded (clock_at 0) true ∅ demo_config (Node "" [("use_database", leaf "true")]) boss).
    + exact demo_good.
    + apply rtc_once. eapply served_pfgpio. apply surjective_pairing.
    + reflexivity.
    + reflexivity.
    + intros r _. reflexivity.
    + apply loads_not. vm_compute. reflexivity.
Defined.

Abbreviation created_reader := (create (reader_kind loaded) 9 (new_reader "back" "AUTODETECT") boss).

Lemma reads_back_witness : exists j, created_reader.2 = Ret j /\
  read (reader_kind loaded) 1 (JObject [("reader_id", JString "9")]) created_reader.1 = (created_reader.1, Ret j).
Proof.
  eexists. split; [vm_compute; reflexivity|].
  apply (created_reads_back (D := depot) (reader_kind loaded) 1 9 (new_reader "back" "AUTODETECT")
    (JObject [("reader_id", JString "9")]) boss); first [apply reader_ok|discriminate|vm_compute; reflexivity].
Defined.

Lemma pin_attributes_witness :
  unserialize_pfgpio (J := json) (PfGpioRow.make 8) (json_object (device_attributes (GpioRow.device (PfGpioRow.gpio relay)) ++ pfgpio_attributes relay)) =
    Ret (PfGpioRow.mk (GpioRow.mk (Device.mk 8 "relay" GPIO true) 3 1 false) 0).
Proof. apply (pin_attributes_roundtrip (J := json)) with (g := relay); first [done|cbn; lia]. Defined.

Lemma request_aborts_witness :
  process_crud (handler (led_kind loaded (0, 0)) 1 9) 1 "led.read" (with_id "led_id" 0) worker = (worker, Fault AssertFailed).
Proof. eapply (device_request_aborts (led_kind (D := depot) loaded (0, 0)) 1 9 "led.read"); vm_compute; reflexivity. Defined.

Definition of_green (fields : list (string * json)) : json := JObject (("led_id", JString "2") :: fields).

Lemma unregistered_pin_witness :
  (exists j, read (led_kind loaded (0, 0)) 1 (of_green []) boss = (boss, Ret j)) /\
  read (led_kind no_piface (0, 0)) 1 (of_green []) boss = (boss, Fault AssertFailed).
Proof.
  split; [eexists; vm_compute; reflexivity|].
  apply (unregistered_pin_aborts (D := depot) no_piface (0, 0) 1 (of_green []) boss 2 green (PfGpioD relay) 1);
    first [discriminate|vm_compute; reflexivity].
Defined.

Definition take_pin : json := of_green [("attributes", JObject [("gpio_id", JNull)])].

Abbreviation updated_green := (update (led_kind loaded (0, 0)) take_pin boss).

Lemma keeps_pin_witness : exists b', find_row 2 (db updated_green.1) = Some (LedD b') /\ is_Some (BlinkerRow.gpio_ b').
Proof.
  destruct updated_green as [s' [j|e|f]] eqn:E; [|vm_compute in E; discriminate..].
  apply (led_keeps_a_pin (D := depot) loaded (0, 0) take_pin boss s' j 2 green); [reflexivity|reflexivity|by eexists|exact E].
Defined.

Lemma shows_memory_witness : exists b,
  unserialize (led_kind loaded (77, 88)) (fresh (led_kind loaded (77, 88)) 9) (JObject [("name", JString "red")]) demo_depot = Ret b /\
  (BlinkerRow.default_blink_duration_ b, BlinkerRow.default_blink_speed_ b) = (77, 88).
Proof.
  eexists. split; [vm_compute; reflexivity|].
  apply (new_led_shows_memory (D := depot) loaded (77, 88) 9 (JObject [("name", JString "red")]) demo_depot); vm_compute; reflexivity.
Defined.

Lemma hardware_search_witness : exists l, search QuerySafety.Demo.like "rel" demo_depot = Ret l /\ map name_of l = ["relay"].
Proof.
  destruct (hardware_search_finds QuerySafety.Demo.like "rel" demo_depot) as (l & Hl & _). exists l. split; [exact Hl|].
  assert (search QuerySafety.Demo.like "rel" demo_depot = Ret [PfGpioD relay]) as E by (vm_compute; reflexivity).
  rewrite E in Hl. by injection Hl as <-.
Defined.

End Demo.
