(* ===== verification/Smtp.v ===== *)
(** Mail: [src/modules/smtp/]. The servers of the configuration, how a mail is
    given to them one after the other, the text libcurl takes piece by piece, and
    the requests of the WebSocket API that read and change the configuration.

    libcurl is third-party: whether it gives a handle, and whether a transfer
    succeeds, are arguments. *)
From Stdlib Require Import ZArith Lia Ascii String.
From stdpp Require Import base tactics numbers list strings gmap.
From S2P Require Import Prelude Json Ptree AuditLog Users Credentials Schedules Security Session Api ApiSafety Accounts Zones Store Resources Estate ResourceSafety.

Open Scope Z_scope.

(** * Configuration *)

Record MailInfo := mk_mail { to : list string; title : string; body : string }.

Module SMTPServerInfo.
Record t := mk {
  url : string; from : string; username : string; password : string; ms_timeout : Z;
  verify_host : bool; verify_peer : bool; CA_info_file_ : string; enabled : bool }.
Definition make : t := mk "" "" "" "" (30 * 1000) false false "" true.
End SMTPServerInfo.
Import SMTPServerInfo(url, from, username, password, ms_timeout, verify_host, verify_peer, CA_info_file_, enabled).

Module SMTPConfig.
Record t := mk { id_ : Z; servers : list SMTPServerInfo.t }.
Definition make : t := mk 0 [].
Definition server_add (s : SMTPServerInfo.t) (c : t) : t := mk (id_ c) (servers c ++ [s]).
End SMTPConfig.

Section config.
Context {T : Type} `{PropertyTree T}.

Definition load_server (node : T) : outcome SMTPServerInfo.t :=
  url ← get as_string node "url";
  let from := get_default as_string node "from" "leosac@leosac.com" in
  let verify_host := get_default as_bool node "verify_host" true in
  let verify_peer := get_default as_bool node "verify_peer" true in
  let ca := get_default as_string node "ca_file" "" in
  let server := SMTPServerInfo.make in
  Ret (SMTPServerInfo.mk url from (username server) (password server) (ms_timeout server) verify_host verify_peer ca (enabled server)).

Definition load_xml_config (config : T) : outcome SMTPConfig.t :=
  module_config ← get_child config "module_config";
  servers ← get_child module_config "servers";
  foldM (fun c node => s ← load_server node.2; Ret (SMTPConfig.server_add s c)) SMTPConfig.make (children servers).
End config.

(** [setup_database] of a database without the schema of the module: the first
    configuration. *)
Definition first_config : SMTPConfig.t :=
  SMTPConfig.server_add (SMTPServerInfo.mk "smtp://mail.leosac.com" "leosac@leosac.com" "leosac-mail" "" (30 * 1000) false false "" true)
    SMTPConfig.make.

(** What the database holds, [None] when it cannot be asked: the last row, of which
    there has to be at most one. *)
Definition load_db_config (rows : option (list SMTPConfig.t)) : outcome SMTPConfig.t :=
  match rows with
  | None => Ret SMTPConfig.make
  | Some rows => _ ← cassert (length rows <=? 1)%nat; Ret (foldl (fun _ c => c) SMTPConfig.make rows)
  end.

Record SMTPModule := mk_module { use_database_ : bool; smtp_config_ : SMTPConfig.t }.

Definition process_config {T} `{PropertyTree T} (config : T) (rows : option (list SMTPConfig.t)) : outcome SMTPModule :=
  let use_database := match get_child_optional config "module_config" with
                      | Some mc => get_default as_bool mc "use_database" false
                      | None => false
                      end in
  c ← if use_database then load_db_config rows else load_xml_config config;
  Ret (mk_module use_database c).

(** * Sending *)

(** The options of a handle of libcurl. *)
Record request := mk_request {
  r_url : string; r_ca : option string; r_verify_host : bool; r_verify_peer : bool; r_username : option string;
  r_password : option string; r_from : option string; r_timeout : Z; r_recipients : list string }.

Definition given (s : string) : option string := if str_empty s then None else Some s.

Definition request_of (mail : MailInfo) (target : SMTPServerInfo.t) : request :=
  mk_request (url target) (given (CA_info_file_ target)) (verify_host target) (verify_peer target) (given (username target))
    (given (password target)) (given (from target)) (ms_timeout target) (to mail).

Section send.
(** [curl_easy_init] for a server, and [curl_easy_perform]. *)
Context (easy_init : SMTPServerInfo.t -> bool) (easy_perform : request -> bool).

(** The loop of [prepare_curl]: the transfers that are tried, and whether the last
    succeeded. *)
Fixpoint try_servers (mail : MailInfo) (servers : list SMTPServerInfo.t) : outcome (list request * bool) :=
  match servers with
  | [] => Ret ([], false)
  | target :: servers =>
      if negb (enabled target) then try_servers mail servers
      else if easy_init target then
        _ ← cassert (negb (str_empty (url target)));
        let r := request_of mail target in
        if easy_perform r then Ret ([r], true)
        else '(rs, sent) ← try_servers mail servers; Ret (r :: rs, sent)
      else try_servers mail servers
  end.

Definition prepare_curl (mail : MailInfo) (m : SMTPModule) : outcome (list request * bool) :=
  match to mail with
  | [] => Ret ([], false)
  | _ => try_servers mail (SMTPConfig.servers (smtp_config_ m))
  end.

(** [SMTPServiceImpl::async_send_to_admin], with the environment variable. *)
Definition send_to_admin (LEOSAC_ADMIN_MAIL : option string) (mail : MailInfo) : MailInfo :=
  match LEOSAC_ADMIN_MAIL with
  | Some address => mk_mail (address :: to mail) (title mail) (body mail)
  | None => mail
  end.
End send.

Definition crlf : string := text [chr 13; chr 10].

(** [build_mail_str], with the date of now. *)
Definition build_mail_str (date : string) (mail : MailInfo) : outcome string :=
  first ← deref (head (to mail));
  Ret ("Date: " +:+ date +:+ crlf +:+ "To: " +:+ first +:+ crlf +:+ "Subject: " +:+ title mail +:+ crlf +:+ crlf +:+
       body mail +:+ crlf +:+ crlf).

(** [read_callback]: a piece of at most [wanted] characters, and the new counter.
    The mail is built again each time; a counter beyond its end wraps around. *)
Definition read_callback (content : list ascii) (counter wanted : Z) : outcome (list ascii * Z) :=
  let available := as_size_t (Z.of_nat (length content) - counter) in
  let to_transfer := Z.min available wanted in
  if counter + to_transfer <=? Z.of_nat (length content)
  then Ret (take (Z.to_nat to_transfer) (drop (Z.to_nat counter) content), counter + to_transfer)
  else Fault OutOfBounds.

(** The pieces libcurl gets: it asks with buffers of some sizes until there is
    nothing more. *)
Fixpoint upload (content : list ascii) (counter : Z) (wants : list Z) : outcome (list (list ascii) * Z) :=
  match wants with
  | [] => Ret ([], counter)
  | wanted :: wants =>
      '(piece, counter) ← read_callback content counter wanted;
      match piece with
      | [] => Ret ([], counter)
      | _ => '(pieces, counter) ← upload content counter wants; Ret (piece :: pieces, counter)
      end
  end.

(** * The requests of the API *)

Section handlers.
Context {D : Type} `{Odb D, !Table D SMTPConfig.t} {J : Type} `{Json J}.

(** [SMTPServerInfoJSONSerializer]. *)
Definition serialize (in_ : SMTPServerInfo.t) : J :=
  json_object [("url", json_string (url in_)); ("from", json_string (from in_)); ("username", json_string (username in_));
    ("password", json_string (password in_)); ("timeout", json_number (ms_timeout in_));
    ("verify_host", json_bool (verify_host in_)); ("verify_peer", json_bool (verify_peer in_)); ("enabled", json_bool (enabled in_))].

Definition unserialize (out : SMTPServerInfo.t) (in_ : J) : outcome SMTPServerInfo.t :=
  u ← JSONUtil.extract_with_default get_string in_ "url" (url out);
  f ← JSONUtil.extract_with_default get_string in_ "from" (from out);
  name ← JSONUtil.extract_with_default get_string in_ "username" (username out);
  pass ← JSONUtil.extract_with_default get_string in_ "password" (password out);
  timeout ← JSONUtil.extract_with_default get_int in_ "timeout" (ms_timeout out);
  peer ← JSONUtil.extract_with_default get_bool in_ "verify_peer" (verify_peer out);
  host ← JSONUtil.extract_with_default get_bool in_ "verify_host" (verify_host out);
  on ← JSONUtil.extract_with_default get_bool in_ "enabled" (enabled out);
  Ret (SMTPServerInfo.mk u f name pass timeout host peer (CA_info_file_ out) on).

Definition getconfig (m : SMTPModule) : J := json_array (map serialize (SMTPConfig.servers (smtp_config_ m))).

Definition read_config (req : J) : outcome SMTPConfig.t :=
  servers ← at_ req "servers";
  foldM (fun c j => s ← unserialize SMTPServerInfo.make j; Ret (SMTPConfig.server_add s c)) SMTPConfig.make (elements servers).

(** The module gets the new configuration once it is in the database. *)
Definition setconfig (m : SMTPModule) (req : J) : api D SMTPModule :=
  cfg ← lift (read_config req);
  transaction (
    _ ← change_db (persist_audit []);
    let id := SMTPConfig.id_ (smtp_config_ m) in
    _ ← (if negb (id =? 0) then change_db (erase_row (E := SMTPConfig.t) id) else mret tt);
    cfg ← change_row (persist_row cfg);
    mret (mk_module (use_database_ m) cfg)).

Definition read_mail (req : J) : outcome MailInfo :=
  body ← (j ← at_ req "body"; get_string j);
  title ← (j ← at_ req "subject"; get_string j);
  to ← at_ req "to";
  recipients ← foldM (fun l j => s ← get_string j; Ret (l ++ [s])) [] (elements to);
  Ret (mk_mail recipients title body).

Definition sendmail (easy_init : SMTPServerInfo.t -> bool) (easy_perform : request -> bool) (m : SMTPModule) (req : J) : outcome J :=
  mail ← read_mail req;
  '(_, sent) ← prepare_curl easy_init easy_perform mail m;
  Ret (json_object [("sent", json_bool sent)]).

(** [register_ws_handlers]: the permission of each request, with a database only. *)
Definition ws_permission (m : SMTPModule) (type : string) : option SecurityContext.Action :=
  if negb (use_database_ m) then None
  else if String.eqb type "module.smtp.getconfig" then Some SecurityContext.SMTP_GETCONFIG
  else if String.eqb type "module.smtp.setconfig" then Some SecurityContext.SMTP_SETCONFIG
  else if String.eqb type "module.smtp.sendmail" then Some SecurityContext.SMTP_SENDMAIL
  else None.

End handlers.

(** * Properties *)

Section sending.
Context (easy_init : SMTPServerInfo.t -> bool) (easy_perform : request -> bool).

(** The transfers a mail may lead to, in the order of the configuration. *)
Definition offers (mail : MailInfo) (servers : list SMTPServerInfo.t) : list request :=
  map (request_of mail) (List.filter (fun s => enabled s && easy_init s) servers).

(** Those that are tried: up to the first that succeeds. *)
Fixpoint until_sent (rs : list request) : list request :=
  match rs with [] => [] | r :: rs => if easy_perform r then [r] else r :: until_sent rs end.

(** (functional) A mail with a recipient is offered to the servers that are enabled, in the
    order of the configuration and with their options, until one takes it; it is
    reported as sent when one of them does. *)
Theorem mail_tries_in_order mail m :
  to mail <> [] -> Forall (fun s => enabled s = true -> url s <> "") (SMTPConfig.servers (smtp_config_ m)) ->
  prepare_curl easy_init easy_perform mail m =
    Ret (until_sent (offers mail (SMTPConfig.servers (smtp_config_ m))),
         existsb easy_perform (offers mail (SMTPConfig.servers (smtp_config_ m)))).
Proof.
  intros Ht Hu. unfold prepare_curl. destruct (to mail) as [|a l] eqn:Et; [done|]. clear Ht Et.
  unfold offers. induction Hu as [|s ss Hs _ IH]; cbn [try_servers List.filter map until_sent existsb]; [done|].
  destruct (enabled s); cbn [negb andb]; [|exact IH]. destruct (easy_init s); [|exact IH].
  assert (str_empty (url s) = false) as -> by (specialize (Hs eq_refl); by destruct (url s)).
  cbn [cassert negb map until_sent existsb]. rewrite ret_bind. destruct (easy_perform _); [done|]. by rewrite IH, ret_bind.
Qed.
End sending.

(** (liveness) Whatever the sizes of libcurl's buffers, if they add up to the mail it has
    the whole mail, in order, and its next call gets nothing: the end. *)
Theorem upload_complete (content : list ascii) wants :
  Forall (fun w => 0 < w) wants -> Z.of_nat (length content) < 2 ^ 31 -> Z.of_nat (length content) <= foldr Z.add 0 wants ->
  exists pieces, upload content 0 wants = Ret (pieces, Z.of_nat (length content)) /\ concat pieces = content /\
    forall w, read_callback content (Z.of_nat (length content)) w = Ret ([], Z.of_nat (length content)) \/ w < 0.
Proof.
  intros Hw Hn Hsum.
  assert (Hend : forall w, read_callback content (Z.of_nat (length content)) w = Ret ([], Z.of_nat (length content)) \/ w < 0).
  { intros w. destruct (Z_lt_le_dec w 0); [by right|left]. unfold read_callback, as_size_t. rewrite Z.sub_diag, Z.mod_0_l by done.
    rewrite Z.min_l by done. rewrite (proj2 (Z.leb_le _ _)) by lia. cbn. by rewrite Z.add_0_r. }
  assert (Hgen : forall c, 0 <= c <= Z.of_nat (length content) -> Z.of_nat (length content) - c <= foldr Z.add 0 wants ->
    exists pieces, upload content c wants = Ret (pieces, Z.of_nat (length content)) /\ concat pieces = drop (Z.to_nat c) content).
  { clear Hsum. induction Hw as [|w ws Hpos Hws IH]; cbn [foldr upload]; intros c Hc Hs.
    - exists []. assert (c = Z.of_nat (length content)) as -> by lia. split; [done|]. rewrite Nat2Z.id, drop_all. done.
    - assert (0 <= foldr Z.add 0 ws) by (clear -Hws; induction Hws; cbn [foldr]; lia).
      unfold read_callback, as_size_t. rewrite Z.mod_small by lia. remember (Z.min _ w) as k eqn:Hk.
      rewrite (proj2 (Z.leb_le _ _)) by lia. rewrite ret_bind.
      destruct (take (Z.to_nat k) (drop (Z.to_nat c) content)) as [|a p] eqn:Ep.
      + apply (f_equal length) in Ep. rewrite length_take, length_drop in Ep. cbn in Ep.
        exists []. assert (c + k = Z.of_nat (length content) /\ c = Z.of_nat (length content)) as [-> ->] by lia.
        split; [done|]. by rewrite Nat2Z.id, drop_all.
      + destruct (IH (c + k)) as (pieces & Hr & Hcat); [lia..|]. rewrite Hr, ret_bind. exists ((a :: p) :: pieces).
        split; [done|]. cbn [concat]. rewrite Hcat, <- Ep.
        replace (Z.to_nat (c + k)) with (Z.to_nat c + Z.to_nat k)%nat by lia. by rewrite <- drop_drop, take_drop. }
  destruct (Hgen 0) as (pieces & Hr & Hcat); [lia..|]. exists pieces. split; [done|]. by split.
Qed.

Section stored.
Context {D : Type} `{Odb D, !Table D SMTPConfig.t, !TableLaws D SMTPConfig.t} {J : Type} `{Json J}.
(** The mapper keeps the id in the member that is one, writes what it is given, and
    a query gives each row once. *)
Context (config_key : forall c : SMTPConfig.t, row_id (D := D) c = SMTPConfig.id_ c).
Context (config_persist : forall (c c' : SMTPConfig.t) (d d' : D), persist_row c d = Ret (c', d') -> SMTPConfig.servers c' = SMTPConfig.servers c).
Context (config_once : forall d : D, NoDup (map row_id (rows (E := SMTPConfig.t) d))).

(** The module has the configuration of the database, or a default one that is not
    stored when the database has none. *)
Definition in_step (m : SMTPModule) (d : D) : Prop :=
  forall i (c : SMTPConfig.t), find_row i d = Some c -> c = smtp_config_ m.

Lemma unstored (m : SMTPModule) (d : D) : in_step m d -> SMTPConfig.id_ (smtp_config_ m) = 0 ->
  forall i, find_row (E := SMTPConfig.t) i d = None.
Proof using config_key TableLaws0.
  intros Hs Hid i. destruct (find_row i d) as [c|] eqn:Ec; [|done]. exfalso. pose proof (find_id _ _ _ Ec) as Hi.
  rewrite (Hs _ _ Ec), config_key, Hid in Hi. subst i. by rewrite find_zero in Ec.
Qed.

Lemma rows_of_one (d : D) (c : SMTPConfig.t) i : (forall j, find_row j d = if j =? i then Some c else None) -> rows d = [c].
Proof using config_once TableLaws0.
  intros Hf. pose proof (config_once d) as Hnd.
  assert (Hin : forall x, In x (rows d) <-> x = c).
  { intros x. rewrite find_rows, Hf. split.
    - by case_match; intros [= <-].
    - intros ->. assert (find_row i d = Some c) as Hi by (by rewrite Hf, Z.eqb_refl).
      rewrite (find_id _ _ _ Hi), Z.eqb_refl. done. }
  destruct (rows d) as [|x [|y l]].
  - by destruct (proj2 (Hin c) eq_refl).
  - f_equal. by apply Hin; left.
  - exfalso. assert (x = c) as -> by (apply Hin; by left). assert (y = c) as -> by (apply Hin; right; by left).
    cbn in Hnd. apply NoDup_cons in Hnd as [Hn _]. apply Hn. by left.
Qed.

(** (roundtrip) A configuration that was set is the one of the database, alone there, and
    the one that a restart of the module loads. *)
Theorem set_config_survives m (req : J) s s' m' :
  in_step m (db s) -> setconfig m req s = (s', Ret m') ->
  in_step m' (db s') /\ load_db_config (Some (rows (db s'))) = Ret (smtp_config_ m') /\
  exists c, read_config req = Ret c /\ SMTPConfig.servers (smtp_config_ m') = SMTPConfig.servers c.
Proof.
  intros Hs Hr. unfold setconfig in Hr. api_inv Hr as cfg Hcfg. apply transaction_inv_ret in Hr.
  api_inv Hr as t Ha. rename d into d1.
  assert (Hs1 : in_step m d1) by (intros i c; rewrite (audit_find _ _ _ _ Ha); apply Hs).
  api_inv Hr as u Hu. api_inv Hr as c' Hc. injection Hr as <- <-. cbn [smtp_config_].
  apply change_row_inv in Hc as (d3 & Hp & ->). cbn [db] in *.
  assert (Hempty : forall i, find_row (E := SMTPConfig.t) i (db s0) = None).
  { destruct (Z.eqb_spec (SMTPConfig.id_ (smtp_config_ m)) 0) as [Hz|Hz]; cbn [negb] in Hu.
    - injection Hu as <- _. by apply (unstored m).
    - apply change_db_inv in Hu as (d2 & He & ->). cbn [db] in *. intros i. rewrite (erase_find _ _ _ _ He).
      destruct (Z.eqb_spec i (SMTPConfig.id_ (smtp_config_ m))) as [|Hi]; [done|].
      destruct (find_row i d1) as [c|] eqn:Ec; [|done]. exfalso. apply Hi. rewrite <- (find_id _ _ _ Ec), config_key.
      by rewrite (Hs1 _ _ Ec). }
  assert (Hf : forall i, find_row i d3 = if i =? row_id c' then Some c' else None).
  { intros i. destruct (persist_find _ _ _ _ i Hp) as (_ & _ & Hf). by rewrite Hf, Hempty. }
  split; [intros i c; rewrite Hf; destruct (i =? row_id c'); [intros Hc; by injection Hc|done]|]. split; [by rewrite (rows_of_one _ _ _ Hf)|].
  exists cfg. split; [done|]. by apply (config_persist _ _ _ _ Hp).
Qed.
End stored.

Section defaults.
Context {T : Type} `{PropertyTree T} {J : Type} `{Json J}.

(** (safety) The servers of the XML configuration have no credentials, whatever it says, and
    are verified by default; those set by a request are not verified by default. *)
Theorem xml_servers_anonymous (node : T) s :
  load_server node = Ret s ->
  username s = "" /\ password s = "" /\ (get_child_optional node "verify_peer" = None -> verify_peer s = true) /\
  forall (j : J) s', unserialize SMTPServerInfo.make j = Ret s' -> at_ j "verify_peer" = Throw JsonOutOfRange -> verify_peer s' = false.
Proof.
  unfold load_server. intros Hl. bind_inv Hl. injection Hl as <-. cbn. split; [done|]. split; [done|]. split.
  - intros Hn. unfold get_default. by rewrite Hn.
  - intros j s' Hu Ha. unfold unserialize in Hu. bind_inv Hu. injection Hu as <-. cbn.
    match goal with E : JSONUtil.extract_with_default _ _ "verify_peer" _ = _ |- _ =>
      unfold JSONUtil.extract_with_default in E; rewrite Ha in E; by injection E as <- end.
Qed.
End defaults.

(** * Witnesses *)

Module Demo.

Definition office : SMTPServerInfo.t := SMTPServerInfo.mk "smtp://office" "door@office" "" "" 30000 true true "" true.
Definition spare : SMTPServerInfo.t := SMTPServerInfo.mk "smtp://spare" "door@office" "u" "p" 30000 true true "" true.
Definition off : SMTPServerInfo.t := SMTPServerInfo.mk "" "" "" "" 30000 true true "" false.
Definition mailer : SMTPModule := mk_module true (SMTPConfig.mk 4 [off; office; spare]).
Definition mail : MailInfo := mk_mail ["boss@office"] "Door" "It is open.".

(** The office does not answer. *)
Definition reachable (r : request) : bool := negb (String.eqb (r_url r) "smtp://office").

Lemma mail_order_witness : prepare_curl (fun _ => true) reachable mail mailer =
  Ret ([request_of mail office; request_of mail spare], true).
Proof.
  rewrite (mail_tries_in_order (fun _ => true) reachable mail mailer); [reflexivity|discriminate|].
  repeat constructor; discriminate.
Defined.

Definition mail_text : list ascii := match build_mail_str "today" mail with Ret s => chars s | _ => [] end.

Lemma upload_witness : exists pieces, upload mail_text 0 [20; 16; 100] = Ret (pieces, Z.of_nat (length mail_text)) /\
  map length pieces = [20; 16; 26]%nat /\ concat pieces = mail_text.
Proof.
  destruct (upload_complete mail_text [20; 16; 100]) as (pieces & Hu & Hc & _);
    [repeat constructor|vm_compute; reflexivity|vm_compute; discriminate|].
  exists pieces. split; [exact Hu|]. split; [|exact Hc]. vm_compute in Hu. injection Hu as <-. reflexivity.
Defined.

(** The estate of Estate.v with the configurations of the module. *)
Definition post : Type := estate * gmap Z SMTPConfig.t.
#[export] Instance post_odb : Odb post := extended_odb.
#[export] Instance post_table : Table post SMTPConfig.t :=
  map_table SMTPConfig.id_ (fun i c => SMTPConfig.mk i (SMTPConfig.servers c)) snd (fun m (d : post) => (d.1, m)).
#[export] Instance post_laws : TableLaws post SMTPConfig.t.
Proof. apply map_table_laws; [done..|]. intros es d d' Ha. by apply (extended_audit es d d'). Qed.

Lemma post_key (c : SMTPConfig.t) : row_id (D := post) c = SMTPConfig.id_ c.
Proof. done. Qed.
Lemma post_persist (c c' : SMTPConfig.t) (d d' : post) : persist_row c d = Ret (c', d') -> SMTPConfig.servers c' = SMTPConfig.servers c.
Proof. by intros [= <- _]. Qed.
Lemma post_once (d : post) : NoDup (map row_id (rows (E := SMTPConfig.t) d)).
Proof. apply map_table_once. Qed.

Definition post_office : server post := mk_server (demo_estate, {[ 4 := smtp_config_ mailer ]}) (sessions admin_here).
Definition set_request : json := JObject [("servers", JArray [JObject [("url", JString "smtp://new")]])].
Abbreviation after_set := (setconfig mailer set_request post_office).

Lemma set_config_witness : exists m', after_set.2 = Ret m' /\ map url (SMTPConfig.servers (smtp_config_ m')) = ["smtp://new"] /\
  load_db_config (Some (rows (db after_set.1))) = Ret (smtp_config_ m').
Proof.
  eexists. split; [vm_compute; reflexivity|]. split; [vm_compute; reflexivity|].
  apply (set_config_survives (D := post) post_key post_persist post_once mailer set_request post_office).
  - intros i c Hc. apply keyed_some in Hc as (_ & Hc & _). cbn in Hc. by apply lookup_singleton_Some in Hc as [_ <-].
  - vm_compute. reflexivity.
Defined.

Lemma xml_anonymous_witness : exists s,
  load_server (Node "" [("url", leaf "smtp://a"); ("username", leaf "me"); ("password", leaf "secret")]) = Ret s /\ password s = "".
Proof.
  eexists. split; [reflexivity|].
  apply (xml_servers_anonymous (J := json) (Node "" [("url", leaf "smtp://a"); ("username", leaf "me"); ("password", leaf "secret")])).
  reflexivity.
Defined.

End Demo.
