(* ===== verification/Columns.v ===== *)
(** The column types of the database, [src/tools/db/*ODB.hpp]: what is written
    for a value of the program and what is made of a column that is read. The
    password hashes with their text form, [src/tools/scrypt/], the time points
    of both databases, the durations and the event masks of the audit.

    The C library's random bytes, the date library and the mapper's byte order
    are parameters. *)
From Stdlib Require Import ZArith Lia Ascii String.
From stdpp Require Import base tactics numbers list strings.
From S2P Require Import Prelude Ptree Trees AuditLog Users Schedules.

Open Scope Z_scope.

(** * The text of a password hash, [src/tools/scrypt/Scrypt.hpp] *)

Module ScryptResultSerializer.

(** [boost::algorithm::hex]: two upper-case digits for a byte. *)
Definition hex_digit (z : Z) : ascii := if z <? 10 then chr (z + 48) else chr (z + 55).
Definition Hex (in_ : list Z) : list ascii :=
  flat_map (fun b => [hex_digit (Z.shiftr b 4); hex_digit (Z.land b 15)]) in_.

(** [boost::algorithm::unhex] reads a digit before it misses the next. *)
Definition hex_char_to_int (c : ascii) : outcome Z :=
  if isxdigit c then Ret (xdigit_val c) else Throw (HexDecodeError "non_hex_input").
Fixpoint UnHex (in_ : list ascii) : outcome (list Z) :=
  match in_ with
  | [] => Ret []
  | [c] => _ ← hex_char_to_int c; Throw (HexDecodeError "not_enough_input")
  | c :: c' :: in_ =>
      h ← hex_char_to_int c;
      l ← hex_char_to_int c';
      res ← UnHex in_;
      Ret (16 * h + l :: res)
  end.

Definition ToByteVector (in_ : string) : list Z := map code (chars in_).

(** [StringScryptResultSerializer::Serialize]. *)
Definition Serialize (in_ : ScryptResult) : string :=
  to_string (N_ (params in_)) +:+ ":" +:+ to_string (r_ (params in_)) +:+ ":" +:+
  to_string (p_ (params in_)) +:+ ":" +:+ text (Hex (salt in_)) +:+ ":" +:+ text (Hex (hash in_)).

(** [StringScryptResultSerializer::UnSerialize]: the numbers are read as [int]
    and converted to the width of the field. *)
Definition UnSerialize (in_ : string) : outcome ScryptResult :=
  match split_colon (chars in_) with
  | [n; r; p; s; h] =>
      N ← stoi n;
      r ← stoi r;
      p ← stoi p;
      salt ← UnHex s;
      hash ← UnHex h;
      Ret (mk_result (mk_param (N mod 2 ^ 64) (r mod 2 ^ 32) (p mod 2 ^ 32)
                               (Z.of_nat (length hash) mod 2 ^ 32)) salt hash)
  | _ => Throw (StdRuntimeError "Cannot unserialize.")
  end.

End ScryptResultSerializer.
Import ScryptResultSerializer.

(** [ScryptParam::operator==] and [ScryptResult::operator==]. *)
Definition param_eqb (a b : ScryptParam) : bool :=
  (N_ a =? N_ b) && (p_ a =? p_ b) && (r_ a =? r_ b) && (len_ a =? len_ b).
Definition result_eqb (a b : ScryptResult) : bool :=
  param_eqb (params a) (params b) && bool_decide (salt a = salt b) && bool_decide (hash a = hash b).

(** * The column of a hash, [src/tools/db/ScryptResultODB.hpp] *)

Module ScryptColumn.

(** [ScryptResult()]. *)
Definition value_initialised : ScryptResult := mk_result (mk_param 0 0 0 0) [] [].

(** [None] is SQL's NULL. Both databases have the same code. *)
Definition set_value (column : option string) : outcome ScryptResult :=
  match column with
  | Some b => UnSerialize b
  | None => Ret value_initialised
  end.
Definition set_image (v : ScryptResult) : option string := Some (Serialize v).

End ScryptColumn.

(** * Random data, [src/tools/scrypt/Random.cpp] *)

Module Random.
Section random.
(** [RAND_bytes]: as many bytes as are asked for, [None] when it fails. *)
Context {W : Type} (RAND_bytes : Z -> W -> W * option (list Z)).

Definition GetBytes (n : Z) (w : W) : W * outcome (list Z) :=
  if n =? 0 then (w, Ret [])
  else match RAND_bytes n w with
       | (w, Some bytes) => (w, Ret bytes)
       | (w, None) => (w, Fault AssertFailed)
       end.

(** The loop of [GetASCII], for the turns [k] that are left. *)
Fixpoint ascii_loop (k : nat) (n : Z) (bytes : list Z) (idx : nat) (ss : list ascii) (w : W)
  : W * outcome (list ascii) :=
  match k with
  | O => (w, Ret ss)
  | S k =>
      let '(w, refill) :=
        if (idx =? length bytes)%nat then
          match GetBytes n w with
          | (w, Ret bytes) => (w, Ret (bytes, O))
          | (w, Throw e) => (w, Throw e)
          | (w, Fault f) => (w, Fault f)
          end
        else (w, Ret (bytes, idx)) in
      match refill with
      | Ret (bytes, idx) =>
          match bytes !! idx with
          | Some b => ascii_loop k n bytes (S idx) (if isalnum (chr b) then ss ++ [chr b] else ss) w
          | None => (w, Fault OutOfBounds)
          end
      | Throw e => (w, Throw e)
      | Fault f => (w, Fault f)
      end
  end.

Definition GetASCII (n : Z) (w : W) : W * outcome string :=
  if n =? 0 then (w, Ret "")
  else match GetBytes n w with
       | (w, Ret bytes) =>
           match ascii_loop (Z.to_nat n) n bytes 0 [] w with
           | (w, Ret ss) =>
               (w, if Z.of_nat (length ss) =? n then Ret (text ss) else Fault AssertFailed)
           | (w, Throw e) => (w, Throw e)
           | (w, Fault f) => (w, Fault f)
           end
       | (w, Throw e) => (w, Throw e)
       | (w, Fault f) => (w, Fault f)
       end.
End random.
End Random.

(** * Time points, [src/tools/db/STDTimePointODB.hpp] *)

(** A time point is a number of nanoseconds on 64 bits; arithmetic outside is
    undefined. *)
Definition in_int64 (z : Z) : bool := (- 2 ^ 63 <=? z) && (z <? 2 ^ 63).
Definition int64 (z : Z) : outcome Z := if in_int64 z then Ret z else Fault Overflow.

Module PgTimePoint.
Section pg.
(** [details::endian_traits] and [date::parse]; [None] when the text does not
    have the format, the time point that was default-constructed is then kept. *)
Context (hton ntoh : Z -> Z) (date_parse : string -> string -> option Z).

Definition neg_inf : Z := - 0x7fffffffffffffff - 1.
Definition pos_inf : Z := 0x7fffffffffffffff.

Definition pg_epoch : Z := default 0 (date_parse "%FT%T%Z" "2000-01-01T00:00:00Z").

Definition set_value (column : option Z) : outcome Z :=
  match column with
  | None => Fault AssertFailed
  | Some i =>
      let i := ntoh i in
      if i =? neg_inf then Ret ValidityInfo.time_point_min
      else if i =? pos_inf then Ret ValidityInfo.time_point_max
      else us ← int64 (1000 * i); int64 (pg_epoch + us)
  end.

Definition set_image (v : Z) : outcome (option Z) :=
  if v =? ValidityInfo.time_point_max then Ret (Some (hton pos_inf))
  else if v =? ValidityInfo.time_point_min then Ret (Some (hton neg_inf))
  else d ← int64 (v - pg_epoch); Ret (Some (hton (Z.quot d 1000))).
End pg.
End PgTimePoint.

Module SqliteTimePoint.
Section sqlite.
(** [date::format] and [date::parse], the stream being good after it. *)
Context (date_format : string -> Z -> string) (date_parse : string -> string -> option Z).

Definition set_value (column : option string) : outcome Z :=
  match column with
  | None => Fault AssertFailed
  | Some str_rep =>
      if String.eqb str_rep "TIME_POINT_MAX" then Ret ValidityInfo.time_point_max
      else if String.eqb str_rep "TIME_POINT_MIN" then Ret ValidityInfo.time_point_min
      else match date_parse "%FT%T%z" str_rep with
           | Some v => Ret v
           | None => Fault AssertFailed
           end
  end.

Definition set_image (v : Z) : option string :=
  Some (if v =? ValidityInfo.time_point_max then "TIME_POINT_MAX"
        else if v =? ValidityInfo.time_point_min then "TIME_POINT_MIN"
        else date_format "%FT%T%z" v).
End sqlite.
End SqliteTimePoint.

(** * Durations and event masks *)

(** [std::chrono::milliseconds] as an integer, NULL being no time. *)
Module DurationColumn.
Definition set_value (column : option Z) : Z := default 0 column.
Definition set_image (v : Z) : option Z := Some v.
End DurationColumn.

(** The bits of an [EventMask] as text; [to_string] and the constructor from a
    text are the bit set's. *)
Module EventMaskColumn.
Section mask.
Context {F : Type} `{FlagSet F} (bits_of : F -> string) (mask_from : string -> outcome F).

Definition set_value (column : option string) : outcome F :=
  match column with
  | Some bitset_rep => mask_from bitset_rep
  | None => Ret fs_empty
  end.
Definition set_image (v : F) : option string := Some (bits_of v).
End mask.
End EventMaskColumn.

(** ** Lemmas: hexadecimal *)

Lemma hex_pair : forall b, is_byte b ->
  isxdigit (hex_digit (Z.shiftr b 4)) = true /\ xdigit_val (hex_digit (Z.shiftr b 4)) = Z.shiftr b 4 /\
  isxdigit (hex_digit (Z.land b 15)) = true /\ xdigit_val (hex_digit (Z.land b 15)) = Z.land b 15 /\
  16 * Z.shiftr b 4 + Z.land b 15 = b.
Proof. by_bytes. Qed.

Lemma UnHex_Hex l : Forall is_byte l -> UnHex (Hex l) = Ret l.
Proof.
  induction 1 as [|b l Hb _ IH]; [done|]. destruct (hex_pair b Hb) as (H1 & E1 & H2 & E2 & H3).
  change (Hex (b :: l)) with (hex_digit (Z.shiftr b 4) :: hex_digit (Z.land b 15) :: Hex l).
  cbn [UnHex]. unfold hex_char_to_int. by rewrite H1, H2, !ret_bind, IH, ret_bind, E1, E2, H3.
Qed.

Lemma Hex_digits l : Forall is_byte l -> forallb isxdigit (Hex l) = true.
Proof.
  induction 1 as [|b l Hb _ IH]; [done|]. destruct (hex_pair b Hb) as (H1 & _ & H2 & _).
  change (Hex (b :: l)) with ([hex_digit (Z.shiftr b 4); hex_digit (Z.land b 15)] ++ Hex l).
  rewrite forallb_app, IH. cbn. by rewrite H1, H2.
Qed.

Lemma chr_code c : chr (code c) = c.
Proof. unfold chr, code. rewrite N2Z.id. apply ascii_N_embedding. Qed.

Lemma xdigit_range c : isxdigit c = true -> 0 <= xdigit_val c < 16.
Proof.
  assert (H : forall b, is_byte b -> isxdigit (chr b) = true -> 0 <= xdigit_val (chr b) /\ xdigit_val (chr b) < 16) by by_bytes.
  intros Hc. rewrite <- (chr_code c) in *. apply H; [apply code_range|done].
Qed.

Lemma hex_char_range c z : hex_char_to_int c = Ret z -> 0 <= z < 16.
Proof. unfold hex_char_to_int. destruct (isxdigit c) eqn:Hc; [intros [= <-]; by apply xdigit_range|done]. Qed.

Lemma UnHex_bytes l bs : UnHex l = Ret bs -> Forall is_byte bs.
Proof.
  revert bs. assert (Hind : forall n l bs, (length l <= n)%nat -> UnHex l = Ret bs -> Forall is_byte bs); [|by intros; eapply Hind].
  intros n. induction n as [|n IH]; intros [|c [|c' l']] bs Hl; cbn [UnHex length] in *; try lia; try (by intros [= <-]).
  - by intros (? & ? & [=])%bind_Ret.
  - intros (h & Hh & (h' & Hh' & (rest & Hr & [= <-])%bind_Ret)%bind_Ret)%bind_Ret.
    constructor; [|eapply IH, Hr; lia]. apply hex_char_range in Hh, Hh'. unfold is_byte. lia.
Qed.

(** ** Lemmas: fields and separators *)

(** A field without a colon ends at the one that follows. *)
Lemma split_field w l : forallb (fun c => negb (Ascii.eqb c ":")) w = true ->
  split_colon (w ++ ":"%char :: l) = w :: split_colon l.
Proof.
  induction w as [|c w IH]; [done|]. cbn. intros [Hc Hw]%andb_true_iff.
  apply negb_true_iff in Hc. by rewrite Hc, IH.
Qed.
Lemma split_last w : forallb (fun c => negb (Ascii.eqb c ":")) w = true -> split_colon w = [w].
Proof.
  induction w as [|c w IH]; [done|]. cbn. intros [Hc Hw]%andb_true_iff.
  apply negb_true_iff in Hc. by rewrite Hc, IH.
Qed.

Lemma no_colon (f : ascii -> bool) w : f ":"%char = false -> forallb f w = true ->
  forallb (fun c => negb (Ascii.eqb c ":")) w = true.
Proof.
  intros Hf Hw. rewrite forallb_forall in Hw |- *. intros c Hc. apply Hw in Hc.
  destruct (Ascii.eqb_spec c ":") as [->|]; [congruence|done].
Qed.

Lemma digit_not_space c : isdigit c = true -> isspace c = false.
Proof. by destruct c as [[] [] [] [] [] [] [] []]. Qed.

Lemma drop_spaces_digits ds : forallb isdigit ds = true -> drop_spaces ds = ds.
Proof. destruct ds as [|c ds]; [done|]. cbn. intros [Hc _]%andb_true_iff. by rewrite digit_not_space. Qed.

(** No digit is a sign. *)
Lemma sign_digit c (l : list ascii) : isdigit c = true ->
  match c :: l with "-"%char :: l' => (-1, l') | "+"%char :: l' => (1, l') | _ => (1, c :: l) end = (1, c :: l).
Proof. by destruct c as [[] [] [] [] [] [] [] []]. Qed.

(** [stoi] of a number that was printed. *)
Lemma stoi_to_string z : 0 <= z ->
  stoi (chars (to_string z)) = if z <? 2 ^ 31 then Ret z else Throw StdOutOfRange.
Proof.
  intros Hz. pose proof (digits_of z Hz) as Hd. pose proof (digits_to_string z Hz) as Hv.
  unfold digits_val in Hv. rewrite Hd in Hv. unfold stoi. rewrite drop_spaces_digits by done.
  destruct (chars (to_string z)) as [|c ds]; [done|].
  rewrite sign_digit by (cbn in Hd; by apply andb_true_iff in Hd as [? _]).
  rewrite bool_decide_eq_false_2 in Hv by done. cbn [negb andb] in Hv. apply (inj Some) in Hv.
  assert (Hnc : take_digits (c :: ds) = c :: ds).
  { rewrite <- (app_nil_r (c :: ds)) at 1. by apply take_digits_app. }
  rewrite Hnc, Hv, Z.mul_1_l. replace (- 2 ^ 31 <=? z) with true by lia. done.
Qed.

Lemma number_no_colon z : 0 <= z -> forallb (fun c => negb (Ascii.eqb c ":")) (chars (to_string z)) = true.
Proof. intros Hz. by apply (no_colon isdigit), digits_of. Qed.
Lemma hex_no_colon l : Forall is_byte l -> forallb (fun c => negb (Ascii.eqb c ":")) (Hex l) = true.
Proof. intros Hl. by apply (no_colon isxdigit), Hex_digits. Qed.

(** What the fields of a result can hold. *)
Definition wf_result (r : ScryptResult) : Prop :=
  0 <= N_ (params r) < 2 ^ 64 /\ 0 <= r_ (params r) < 2 ^ 32 /\ 0 <= p_ (params r) < 2 ^ 32 /\
  len_ (params r) = Z.of_nat (length (hash r)) /\ Z.of_nat (length (hash r)) < 2 ^ 32 /\
  Forall is_byte (salt r) /\ Forall is_byte (hash r).

(** The numbers [std::stoi] can read. *)
Definition readable (r : ScryptResult) : bool :=
  (N_ (params r) <? 2 ^ 31) && (r_ (params r) <? 2 ^ 31) && (p_ (params r) <? 2 ^ 31).

Lemma split_Serialize r : wf_result r ->
  split_colon (chars (Serialize r)) =
  [chars (to_string (N_ (params r))); chars (to_string (r_ (params r)));
   chars (to_string (p_ (params r))); Hex (salt r); Hex (hash r)].
Proof.
  intros (HN & Hr & Hp & _ & _ & Hs & Hh). unfold Serialize. rewrite !chars_app, !chars_text.
  change (chars ":") with [":"%char]. cbn [app].
  rewrite !split_field by (first [apply number_no_colon; lia|by apply hex_no_colon]).
  by rewrite split_last by by apply hex_no_colon.
Qed.

(** ** Properties *)

(** (roundtrip) a password hash is read back from its text exactly when its three
    cost parameters are below 2^31: the text is otherwise written all the same
    and every later reading of the row throws. *)
Theorem password_text r : wf_result r ->
  UnSerialize (Serialize r) = if readable r then Ret r else Throw StdOutOfRange.
Proof.
  intros Hw. unfold UnSerialize. rewrite split_Serialize by done.
  destruct Hw as (HN & Hr & Hp & Hlen & Hmax & Hs & Hh). unfold readable. rewrite !stoi_to_string by lia.
  destruct (N_ (params r) <? 2 ^ 31); [rewrite ret_bind|done].
  destruct (r_ (params r) <? 2 ^ 31); [rewrite ret_bind|done].
  destruct (p_ (params r) <? 2 ^ 31); [rewrite ret_bind|done].
  rewrite !UnHex_Hex, !ret_bind, !Z.mod_small by (done || lia).
  destruct r as [[] ? ?]; cbn in *. by rewrite Hlen.
Qed.

(** (error) what is not written by [Serialize] is refused or is a hash the
    program can hold: a text of some other number of fields, numbers that do not
    fit an [int] and digits that are not hexadecimal throw, and what is read has
    every field in its width; it is the text's own value when it can be written
    back at all. *)
Theorem password_text_checked s r : UnSerialize s = Ret r -> Z.of_nat (length (hash r)) < 2 ^ 32 ->
  wf_result r /\ (readable r = true -> UnSerialize (Serialize r) = Ret r).
Proof.
  intros Hr Hmax. assert (Hw : wf_result r); [|split; [done|]; intros Hrd; by rewrite password_text, Hrd].
  revert Hr. unfold UnSerialize. destruct (split_colon (chars s)) as [|a [|b [|c [|d [|e [|? ?]]]]]]; try done.
  intros (N & _ & (r' & _ & (p & _ & (sl & Hsl & (h & Hh & [= <-])%bind_Ret)%bind_Ret)%bind_Ret)%bind_Ret)%bind_Ret.
  cbn in Hmax. apply UnHex_bytes in Hsl, Hh. unfold wf_result. cbn. rewrite (Z.mod_small (Z.of_nat _)) by lia.
  repeat split; try done; apply Z.mod_pos_bound; lia.
Qed.

Section stored.
(** libscrypt fills the output it is given. *)
Context (libscrypt_scrypt : list Z -> list Z -> ScryptParam -> option (list Z)).
Context (derived : forall pw s p out, libscrypt_scrypt pw s p = Some out ->
  Forall is_byte out /\ Z.of_nat (length out) = len_ p).

(** (functional) a password that was set is the one the user logs in with after its
    hash went through the database: the column gives the hash back, the
    password verifies against it, and another password does exactly when it
    has the same derived key. *)
Theorem stored_password_verifies salt pw u u' : Forall is_byte salt ->
  User.set_password libscrypt_scrypt salt pw u = Ret u' ->
  exists h, User.password_ u' = Some h /\ ScryptColumn.set_value (ScryptColumn.set_image h) = Ret h /\
    User.verify_password libscrypt_scrypt pw u' = Ret true /\
    forall pw', User.verify_password libscrypt_scrypt pw' u' = Ret true <->
      libscrypt_scrypt (password_bytes pw') salt scrypt_default =
      libscrypt_scrypt (password_bytes pw) salt scrypt_default.
Proof.
  intros Hs (h & Hh & [= <-])%bind_Ret. unfold Scrypt.Hash in Hh.
  destruct (libscrypt_scrypt (password_bytes pw) salt scrypt_default) as [out|] eqn:Ek; [|done].
  injection Hh as <-. destruct (derived _ _ _ _ Ek) as [Hb Hl]. eexists. split; [done|].
  assert (Hv : forall pw', User.verify_password libscrypt_scrypt pw'
      (User.mk (User.id_ u) (User.username_ u) (User.firstname_ u) (User.lastname_ u) (User.email_ u)
         (User.validity_ u) (User.rank_ u) (Some (mk_result scrypt_default salt out))) = Ret true <->
      libscrypt_scrypt (password_bytes pw') salt scrypt_default = Some out).
  { intros pw'. unfold User.verify_password, Scrypt.Verify, Scrypt.Hash. cbn.
    destruct (libscrypt_scrypt (password_bytes pw') salt scrypt_default) as [out'|]; cbn; [|by split].
    destruct (bool_decide_reflect (out' = out)) as [->|Hne]; [done|]. split; [done|intros [= ->]; done]. }
  split; [|split; [by apply Hv|done]].
  cbn. rewrite password_text; [done|]. unfold wf_result. cbn in Hl |- *. rewrite Hl. cbn. repeat split; (done || lia).
Qed.
End stored.

(** (error) [Random::GetASCII] drops the bytes that are not letters or digits and
    does not draw others: unless all the bytes it drew are, which for random
    bytes of any length is rare, its own assertion stops the program. *)
Theorem random_ascii {W} (RAND_bytes : Z -> W -> W * option (list Z)) n w w' bytes : 0 < n ->
  RAND_bytes n w = (w', Some bytes) -> Z.of_nat (length bytes) = n ->
  Random.GetASCII RAND_bytes n w =
  (w', if forallb (fun b => isalnum (chr b)) bytes then Ret (text (map chr bytes)) else Fault AssertFailed).
Proof.
  intros Hn Hr Hl. unfold Random.GetASCII. replace (n =? 0) with false by lia.
  unfold Random.GetBytes. replace (n =? 0) with false by lia. rewrite Hr.
  assert (Hloop : forall k idx ss, (idx + k = length bytes)%nat ->
    Random.ascii_loop RAND_bytes k n bytes idx ss w' =
    (w', Ret (ss ++ List.filter isalnum (map chr (drop idx bytes))))).
  { induction k as [|k IH]; intros idx ss Hk; cbn [Random.ascii_loop].
    { by rewrite drop_ge, app_nil_r by lia. }
    destruct (Nat.eqb_spec idx (length bytes)) as [|_]; [lia|].
    destruct (lookup_lt_is_Some_2 bytes idx) as [b Hb]; [lia|]. rewrite Hb, IH by lia.
    rewrite (drop_S bytes b idx Hb). cbn [map List.filter]. destruct (isalnum (chr b)); [by rewrite <- app_assoc|done]. }
  rewrite Hloop by lia. rewrite drop_0. cbn [app]. f_equal.
  assert (Hf : forall l : list Z,
    (Nat.eqb (length (List.filter isalnum (map chr l))) (length l) = forallb (fun b => isalnum (chr b)) l) /\
    (length (List.filter isalnum (map chr l)) <= length l)%nat /\
    (forallb (fun b => isalnum (chr b)) l = true -> List.filter isalnum (map chr l) = map chr l)).
  { induction l as [|b l (IH1 & IH2 & IH3)]; [done|]. cbn [map List.filter forallb].
    destruct (isalnum (chr b)); cbn [length Nat.eqb andb].
    - split; [done|split; [lia|]]. intros H. by rewrite IH3.
    - split; [|split; [lia|done]]. apply Nat.eqb_neq. lia. }
  destruct (Hf bytes) as (H1 & H2 & H3). rewrite <- Hl.
  assert (Hall : (Z.of_nat (length (List.filter isalnum (map chr bytes))) =? Z.of_nat (length bytes)) =
                 forallb (fun b => isalnum (chr b)) bytes).
  { rewrite <- H1. destruct (Nat.eqb_spec (length (List.filter isalnum (map chr bytes))) (length bytes)); lia. }
  rewrite Hall. destruct (forallb _ bytes); [by rewrite H3|done].
Qed.

Section time_points.
Context (hton ntoh : Z -> Z) (date_parse : string -> string -> option Z).
Context (byte_order : forall i, ntoh (hton i) = i).
Context (epoch_2000 : date_parse "%FT%T%Z" "2000-01-01T00:00:00Z" = Some 946684800000000000).

(** (bounds) PostgreSQL's time points: the two ends of the range are kept apart and
    come back exactly, any other comes back with the nanoseconds below its
    microsecond gone, and the dates of the first thirty years of the range of a
    time point, 1677 to 1707, overflow. *)
Theorem pg_time_point v : in_int64 v = true ->
  match PgTimePoint.set_image hton date_parse v with
  | Ret image =>
      PgTimePoint.set_value ntoh date_parse image =
        Ret (if (v =? ValidityInfo.time_point_min) || (v =? ValidityInfo.time_point_max) then v
             else 946684800000000000 + 1000 * Z.quot (v - 946684800000000000) 1000)
  | Throw _ => False
  | Fault f => f = Overflow /\ ValidityInfo.time_point_min < v < ValidityInfo.time_point_min + 946684800000000000
  end.
Proof.
  unfold in_int64. intros Hv%andb_true_iff. assert (He : PgTimePoint.pg_epoch date_parse = 946684800000000000) by (unfold PgTimePoint.pg_epoch; by rewrite epoch_2000).
  unfold PgTimePoint.set_image. rewrite He.
  unfold ValidityInfo.time_point_min, ValidityInfo.time_point_max in *.
  destruct (Z.eqb_spec v (2 ^ 63 - 1)) as [->|H1]; [cbn; by rewrite byte_order|].
  destruct (Z.eqb_spec v (- 2 ^ 63)) as [->|H2]; [cbn; by rewrite byte_order|]. cbn [orb].
  unfold int64 at 1. unfold in_int64. destruct ((_ <=? _) && _) eqn:Hd; cbn -[Z.quot Z.pow Z.mul Z.add].
  - rewrite byte_order. unfold PgTimePoint.neg_inf, PgTimePoint.pos_inf.
    pose proof (Z.quot_rem' (v - 946684800000000000) 1000) as Hq.
    pose proof (Z.rem_bound_abs (v - 946684800000000000) 1000 ltac:(lia)) as Hrem.
    set (q := Z.quot _ _) in *. set (r := Z.rem _ _) in *. apply andb_true_iff in Hd.
    destruct (Z.eqb_spec q (- 9223372036854775807 - 1)) as [|_]; [lia|].
    destruct (Z.eqb_spec q 9223372036854775807) as [|_]; [lia|].
    unfold int64, in_int64. rewrite He.
    assert (Hr : 0 <= r <= v - 946684800000000000 \/ v - 946684800000000000 <= r <= 0)
      by (subst q r; Z.to_euclidean_division_equations; lia).
    replace ((- 2 ^ 63 <=? 1000 * q) && (1000 * q <? 2 ^ 63)) with true by lia. cbn -[Z.pow Z.mul Z.add].
    replace (_ && _) with true by lia. done.
  - apply andb_false_iff in Hd. split; [done|]. lia.
Qed.
End time_points.

(** ** Witnesses *)

Module Demo.

Definition kdf (pw salt : list Z) (p : ScryptParam) : option (list Z) :=
  if len_ p <? 0 then None
  else Some (map (fun i => (nth i pw 0 + nth i salt 0) mod 256) (seq 0 (Z.to_nat (len_ p)))).

Lemma kdf_derives pw s p out : kdf pw s p = Some out -> Forall is_byte out /\ Z.of_nat (length out) = len_ p.
Proof.
  unfold kdf. destruct (len_ p <? 0) eqn:Hl; [done|]. intros [= <-]. split.
  - apply List.Forall_map, List.Forall_forall. intros i _. apply Z.mod_pos_bound. lia.
  - rewrite length_map, length_seq. lia.
Qed.

Definition alice : User.t := User.make 7.
Definition salt16 : list Z := repeat 5 16.

Lemma stored_password_witness : exists u',
  User.set_password kdf salt16 "secret" alice = Ret u' /\ User.verify_password kdf "secret" u' = Ret true.
Proof.
  destruct (User.set_password kdf salt16 "secret" alice) as [u'|e|f] eqn:E; [|vm_compute in E; discriminate E..].
  exists u'. split; [done|].
  destruct (stored_password_verifies kdf kdf_derives salt16 "secret" alice u') as (h & _ & _ & Hv & _).
  - repeat constructor; unfold is_byte; lia.
  - exact E.
  - exact Hv.
Defined.

(** A hash made with a cost of 2^31 is written and cannot be read. *)
Definition strong : ScryptResult := mk_result (mk_param (2 ^ 31) 8 1 2) [1] [171; 205].

Lemma password_text_witness :
  Serialize strong = "2147483648:8:1:01:ABCD" /\ UnSerialize (Serialize strong) = Throw StdOutOfRange.
Proof.
  split; [reflexivity|]. rewrite password_text; [reflexivity|].
  repeat split; cbn; try lia; repeat constructor; unfold is_byte; lia.
Defined.

Lemma password_checked_witness : exists r, UnSerialize "16384:8:1:0a:ff00" = Ret r /\ wf_result r.
Proof.
  destruct (UnSerialize "16384:8:1:0a:ff00") as [r|e|f] eqn:E; [|vm_compute in E; discriminate E..].
  exists r. split; [done|]. refine (proj1 (password_text_checked _ r E _)).
  vm_compute in E. injection E as <-. vm_compute. reflexivity.
Defined.

Definition one_draw (n : Z) (w : Z) : Z * option (list Z) := (w + 1, Some (repeat 35 (Z.to_nat n))).
Lemma random_ascii_witness : Random.GetASCII one_draw 3 0 = (1, Fault AssertFailed).
Proof. exact (random_ascii one_draw 3 0 1 [35; 35; 35] ltac:(lia) eq_refl eq_refl). Defined.

Definition demo_parse (fmt s : string) : option Z :=
  if String.eqb s "2000-01-01T00:00:00Z" then Some 946684800000000000 else None.
Lemma pg_time_point_witness :
  match PgTimePoint.set_image Z.opp demo_parse 1500000000123456789 with
  | Ret image => PgTimePoint.set_value Z.opp demo_parse image = Ret 1500000000123456000
  | _ => False
  end.
Proof. exact (pg_time_point Z.opp Z.opp demo_parse Z.opp_involutive eq_refl 1500000000123456789 eq_refl). Defined.

End Demo.
