(* ===== verification/Transactions.v ===== *)
(** Transactions, [src/tools/db/]: the wrappers the code opens them with,
    [OptionalTransaction], [MultiplexedTransaction] and [MultiplexedSession],
    [Savepoint], and the database service [DBService].

    [odb::transaction] and the database are parameters with the laws ODB
    documents, for the thread that runs and without the writes of others. *)
From Stdlib Require Import ZArith Lia Ascii String.
From stdpp Require Import base tactics numbers list strings.
From S2P Require Import Prelude Facades.

Open Scope Z_scope.

(** * ODB's transactions *)

(** [committed] is what a new transaction reads; [view w t] is, while the
    transaction [t] is neither committed nor rolled back, what it read when it
    started and what it reads now; [current] is the thread's current transaction.
    [begin] is [database::begin], that allocates an implementation, of which
    [impls] counts those not freed; [construct] is [odb::transaction] applied to it. *)
Class TransactionalDb (W D : Type) := {
  committed : W -> D;
  view : W -> nat -> option (D * D);
  current : W -> option nat;
  set_current : option nat -> W -> W;
  impls : W -> Z;
  begin : W -> W;
  construct : io W nat;
  commit_tx : nat -> io W unit;
  rollback_tx : nat -> io W unit;
  destroy_tx : nat -> W -> W;
  statement : forall A : Type, (D -> outcome (D * A)) -> io W A;
}.
Arguments statement {W D _ A} q.

Section laws.
Context {W D : Type} `{!TransactionalDb W D}.

Definition others (t : nat) (w w' : W) : Prop := forall u, u <> t -> view w' u = view w u.
Definition same_db (w w' : W) : Prop :=
  committed w' = committed w /\ current w' = current w /\ forall t, view w' t = view w t.
Definition without_current (t : nat) (w : W) : option nat :=
  if decide (current w = Some t) then None else current w.

End laws.

Class TransactionalDbLaws (W D : Type) `{!TransactionalDb W D} := {
  set_current_current c w : current (set_current c w) = c;
  set_current_committed c w : committed (set_current c w) = committed w;
  set_current_view c w t : view (set_current c w) t = view w t;
  set_current_impls c w : impls (set_current c w) = impls w;
  begin_same w : same_db w (begin w);
  begin_impls w : impls (begin w) = impls w + 1;
  (** A transaction starts, unless one is current or the database refuses; the
      implementation is freed when it does not. *)
  construct_nested w t : current w = Some t ->
    exists w' e, construct w = (w', Throw e) /\ is_odb e = true /\ same_db w w' /\ impls w' = impls w - 1;
  construct_first w : current w = None ->
    (exists w' t, construct w = (w', Ret t) /\ view w t = None /\ view w' t = Some (committed w, committed w) /\
      others t w w' /\ committed w' = committed w /\ current w' = Some t /\ impls w' = impls w) \/
    (exists w' e, construct w = (w', Throw e) /\ is_odb e = true /\ same_db w w' /\ impls w' = impls w - 1);
  (** A statement reads and writes what its transaction sees; it fails on its own
      or because the database does. *)
  statement_current A (q : D -> outcome (D * A)) w t b d : current w = Some t -> view w t = Some (b, d) ->
    exists w' r d', statement q w = (w', r) /\ view w' t = Some (b, d') /\ others t w w' /\
      committed w' = committed w /\ current w' = Some t /\ impls w' = impls w /\
      ((exists a, r = Ret a /\ q d = Ret (d', a)) \/
       (exists e, r = Throw e /\ (q d = Throw e \/ is_odb e = true)) \/ (exists f, r = Fault f /\ q d = Fault f));
  (** Without a current transaction there is none to run in. *)
  statement_none A (q : D -> outcome (D * A)) w : current w = None ->
    exists w' e, statement q w = (w', Throw e) /\ is_odb e = true /\ same_db w w' /\ impls w' = impls w;
  (** [commit] publishes what the transaction sees when nothing else was
      committed meanwhile; it finalizes the transaction even when it throws. *)
  commit_open w t b d : view w t = Some (b, d) ->
    exists w' r, commit_tx t w = (w', r) /\ view w' t = None /\ others t w w' /\
      current w' = without_current t w /\ impls w' = impls w /\
      ((r = Ret tt /\ (b = committed w -> committed w' = d)) \/
       (exists e, r = Throw e /\ is_odb e = true /\ committed w' = committed w));
  commit_finalized w t : view w t = None ->
    exists w' e, commit_tx t w = (w', Throw e) /\ is_odb e = true /\ same_db w w' /\ impls w' = impls w;
  rollback_open w t s : view w t = Some s ->
    exists w' r, rollback_tx t w = (w', r) /\ view w' t = None /\ others t w w' /\
      committed w' = committed w /\ current w' = without_current t w /\ impls w' = impls w /\
      (r = Ret tt \/ exists e, r = Throw e /\ is_odb e = true);
  (** The destructor rolls back what is not finalized. *)
  destroy_view w t u : view (destroy_tx t w) u = if decide (u = t) then None else view w u;
  destroy_committed w t : committed (destroy_tx t w) = committed w;
  destroy_current w t : current (destroy_tx t w) =
    match view w t with Some _ => without_current t w | None => current w end;
  destroy_impls w t : impls (destroy_tx t w) = impls w - 1;
}.

(** * The wrappers *)

Section wrappers.
Context {W D : Type} `{!TransactionalDb W D}.

(** An object of the block: constructed from [database->begin()], destroyed when
    the block is left, by an exception too; an abort runs no destructor. *)
Definition scope {T A} (make : io W T) (destroy : T -> W -> W) (body : T -> io W A) : io W A := fun w =>
  match make (begin w) with
  | (w, Ret x) =>
      match body x w with
      | (w, Ret a) => (destroy x w, Ret a)
      | (w, Throw e) => (destroy x w, Throw e)
      | (w, Fault f) => (w, Fault f)
      end
  | (w, Throw e) => (w, Throw e)
  | (w, Fault f) => (w, Fault f)
  end.

(** [odb::transaction t(database->begin()); ...; t.commit();]. *)
Definition plain {A} (m : io W A) : io W A :=
  scope construct destroy_tx (fun t => a ← m; _ ← commit_tx t; mret a).

End wrappers.

Module OptionalTransaction.
Section optional.
Context {W D : Type} `{!TransactionalDb W D}.

(** [transaction_]. *)
Definition t : Type := option nat.

Definition make : io W t := fun w =>
  match current w with
  | None => (x ← construct; mret (Some x)) w
  | Some _ => (w, Ret None)
  end.
Definition destroy (o : t) (w : W) : W :=
  match o with Some x => destroy_tx x w | None => w end.
Definition commit (o : t) : io W unit :=
  match o with Some x => commit_tx x | None => mret tt end.
Definition get (o : t) (w : W) : outcome nat :=
  match o with
  | Some x => Ret x
  | None => match current w with Some x => Ret x | None => Fault AssertFailed end
  end.

End optional.
End OptionalTransaction.

Module MultiplexedTransaction.
Section multiplexed.
Context {W D : Type} `{!TransactionalDb W D}.

(** [previous_] is read only when [had_previous_] holds: one option. *)
Record t := mk { previous_ : option nat; transaction_ : nat }.

(** When the transaction cannot start the constructor throws, and the destructor
    that would restore the previous one does not run. *)
Definition make : io W t := fun w =>
  let previous := current w in
  (x ← construct; mret (mk previous x)) (set_current None w).
Definition destroy (m : t) (w : W) : W :=
  let w := destroy_tx (transaction_ m) w in
  match previous_ m with Some p => set_current (Some p) w | None => w end.
Definition commit (m : t) : io W unit := commit_tx (transaction_ m).
Definition rollback (m : t) : io W unit := rollback_tx (transaction_ m).

End multiplexed.
End MultiplexedTransaction.

Section blocks.
Context {W D : Type} `{!TransactionalDb W D}.

Definition optional {A} (m : io W A) : io W A :=
  scope OptionalTransaction.make OptionalTransaction.destroy
    (fun t => a ← m; _ ← OptionalTransaction.commit t; mret a).

Definition multiplexed {A} (m : io W A) : io W A :=
  scope MultiplexedTransaction.make MultiplexedTransaction.destroy
    (fun t => a ← m; _ ← MultiplexedTransaction.commit t; mret a).

End blocks.

(** The sessions, which cache the objects that were loaded: the thread's current
    one is replaced for the life of the object. *)
Module MultiplexedSession.
Section session.
(** [odb::session::current_pointer] and [reset_current]/[current]; a session makes
    itself the current one, and no longer is when it is destroyed. *)
Context {W : Type} (session_current : W -> option nat) (session_set : option nat -> W -> W)
  (session_new : io W nat) (session_delete : nat -> W -> W).

Record t := mk { session_ : nat; previous_ : option nat }.

Definition make : io W t := fun w =>
  let previous := session_current w in
  (s ← session_new; mret (mk s previous))
    (match previous with Some _ => session_set None w | None => w end).
Definition destroy (m : t) (w : W) : W :=
  let w := session_delete (session_ m) w in
  match previous_ m with Some p => session_set (Some p) w | None => w end.
End session.
End MultiplexedSession.

(** * Savepoints *)

Module Savepoint.
Section savepoint.
(** [odb::database::execute]. *)
Context {W : Type} (execute : string -> io W unit).

Record t := mk { name_ : string; released_ : bool }.

(** The name a savepoint makes itself from a GUID. *)
Definition fixup_uuid (uuid : string) : string := replace_all "-" "_" uuid.

Definition make (name : string) : io W t :=
  _ ← execute ("SAVEPOINT " +:+ name); mret (mk name false).
Definition make_unnamed (uuid : string) : io W t := make (fixup_uuid uuid).

Definition release (s : t) : io W t :=
  if released_ s then mret s
  else _ ← execute ("RELEASE SAVEPOINT " +:+ name_ s); mret (mk (name_ s) true).

Definition rollback_to (s : t) : io W (t * bool) :=
  if released_ s then mret (s, false)
  else _ ← execute ("ROLLBACK TO SAVEPOINT " +:+ name_ s); mret (s, true).

(** [~Savepoint]: an exception of a destructor ends the program. *)
Definition destroy (s : t) : io W unit := fun w =>
  match release s w with
  | (w, Ret _) => (w, Ret tt)
  | (w, Throw _) => (w, Fault Terminated)
  | (w, Fault f) => (w, Fault f)
  end.

(** The calls a block makes on its savepoint. *)
Inductive call := Release | RollbackTo.
Fixpoint calls (s : t) (l : list call) : io W t :=
  match l with
  | [] => mret s
  | Release :: l => s ← release s; calls s l
  | RollbackTo :: l => sb ← rollback_to s; calls sb.1 l
  end.
End savepoint.
End Savepoint.

(** * DBService *)

Module DbService.
Section service.
Context {W D : Type} `{!TransactionalDb W D}.

(** What [operation_count] reads: the tracer's count when there is one. *)
Definition operation_count (tracer : option Z) : Z := default 0 tracer.

(** The [find_..._by_id]: [find] is [database->find] of the id's class. The check
    comes after the commit. *)
Definition find_by_id {E} (find : D -> option E) (throw_if_not_found : bool) : io W (option E) :=
  optional (statement (fun d => Ret (d, find d))) ≫= fun e =>
  pure (match e with
        | None => if throw_if_not_found then Throw EntityNotFound else Ret None
        | Some _ => Ret e
        end).

Definition find_zone_by_id {Zone} (find : D -> option Zone) := find_by_id find.
Definition find_access_point_by_id {AccessPoint} (find : D -> option AccessPoint) := find_by_id find.
Definition find_update_by_id {Update} (find : D -> option Update) := find_by_id find.

(** [find_audit_by_id] gives the entry its database, found or not. *)
Definition find_audit_by_id {E} (find : D -> option E) (database : E -> E) (throw_if_not_found : bool) : io W E :=
  audit ← find_by_id find throw_if_not_found;
  audit ← pure (deref audit);
  mret (database audit).

(** [persist] and [update] of an audit entry, [persist] and [update] of the mapper
    giving the object they leave in memory. *)
Definition persist_impl {E} (id : E -> Z) (persist : E -> D -> outcome (D * E)) (obj : E) : io W E :=
  optional (_ ← pure (cassert (id obj =? 0)); statement (persist obj)).
Definition update_impl {E} (update : E -> D -> outcome (D * E)) (obj : E) : io W E :=
  optional (statement (update obj)).

End service.
End DbService.

(** * Objects beside the database *)

(** The objects of the program live beside the world: the database does not
    know them and a rollback leaves them as they are. *)
Definition beside {H W A} (m : io W A) : io (H * W) A := fun s =>
  let '(w, r) := m s.2 in ((s.1, w), r).

#[export] Instance beside_db (H W D : Type) `{TransactionalDb W D} : TransactionalDb (H * W) D := {|
  committed s := committed s.2;
  view s t := view s.2 t;
  current s := current s.2;
  set_current c s := (s.1, set_current c s.2);
  impls s := impls s.2;
  begin s := (s.1, begin s.2);
  construct := beside construct;
  commit_tx t := beside (commit_tx t);
  rollback_tx t := beside (rollback_tx t);
  destroy_tx t s := (s.1, destroy_tx t s.2);
  statement A q := beside (statement q);
|}.

#[export] Instance beside_laws (H W D : Type) `{TransactionalDbLaws W D} : TransactionalDbLaws (H * W) D.
Proof.
  split; cbn; unfold beside, same_db, others, without_current; cbn.
  - intros c w. apply set_current_current.
  - intros c w. apply set_current_committed.
  - intros c w t. apply set_current_view.
  - intros c w. apply set_current_impls.
  - intros [h w]. exact (begin_same w).
  - intros [h w]. exact (begin_impls w).
  - intros [h w] t Hc. cbn in *. destruct (construct_nested w t Hc) as (w' & e & -> & Hr). by exists (h, w'), e.
  - intros [h w] Hc. cbn in *. destruct (construct_first w Hc) as [(w' & t & -> & Hr)|(w' & e & -> & Hr)]; [left; by exists (h, w'), t|right; by exists (h, w'), e].
  - intros A q [h w] t b d Hc Hv. cbn in *. destruct (statement_current A q w t b d Hc Hv) as (w' & r & d' & -> & Hr). by exists (h, w'), r, d'.
  - intros A q [h w] Hc. cbn in *. destruct (statement_none A q w Hc) as (w' & e & -> & Hr). by exists (h, w'), e.
  - intros [h w] t b d Hv. cbn in *. destruct (commit_open w t b d Hv) as (w' & r & -> & Hr). by exists (h, w'), r.
  - intros [h w] t Hv. cbn in *. destruct (commit_finalized w t Hv) as (w' & e & -> & Hr). by exists (h, w'), e.
  - intros [h w] t s Hv. cbn in *. destruct (rollback_open w t s Hv) as (w' & r & -> & Hr). by exists (h, w'), r.
  - intros [h w] t u. apply destroy_view.
  - intros [h w] t. apply destroy_committed.
  - intros [h w] t. apply destroy_current.
  - intros [h w] t. apply destroy_impls.
Qed.

(** ** Lemmas: code that stays inside the current transaction *)

Section inside.
Context {W D : Type} `{TransactionalDbLaws W D}.

(** What the code that runs inside a transaction may do: read and write through
    it, without finalizing it or leaving another one current. *)
Definition stays {A} (m : io W A) : Prop := forall w t b d,
  current w = Some t -> view w t = Some (b, d) ->
  match m w with
  | (_, Fault _) => True
  | (w', _) => current w' = Some t /\ (exists d', view w' t = Some (b, d')) /\ others t w w' /\
               committed w' = committed w /\ impls w' = impls w
  end.

(** The same, but implementations may be left behind. *)
Definition stays_leaking {A} (m : io W A) : Prop := forall w t b d,
  current w = Some t -> view w t = Some (b, d) ->
  match m w with
  | (_, Fault _) => True
  | (w', _) => current w' = Some t /\ (exists d', view w' t = Some (b, d')) /\ others t w w' /\
               committed w' = committed w
  end.

Lemma others_trans t w w1 w2 : others t w w1 -> others t w1 w2 -> others t w w2.
Proof. intros H1 H2 u Hu. by rewrite H2, H1. Qed.

Lemma stays_leaks {A} (m : io W A) : stays m -> stays_leaking m.
Proof. intros Hm w t b d Hc Hv. specialize (Hm w t b d Hc Hv). destruct (m w) as [w' [a|e|f]]; naive_solver. Qed.

Lemma stays_pure {A} (r : outcome A) : stays (pure r).
Proof. intros w t b d Hc Hv. unfold pure. destruct r; [split_and!; by eauto..|done]. Qed.

Lemma stays_ret {A} (a : A) : stays (mret a).
Proof. exact (stays_pure (Ret a)). Qed.

Lemma stays_bind {A B} (m : io W A) (k : A -> io W B) : stays_leaking m -> (forall a, stays_leaking (k a)) -> stays_leaking (m ≫= k).
Proof.
  intros Hm Hk w t b d Hc Hv. specialize (Hm w t b d Hc Hv). unfold mbind, io_bind.
  destruct (m w) as [w1 [a|e|f]]; [|done..]. destruct Hm as (Hc1 & (d1 & Hv1) & Ho1 & Hd1).
  specialize (Hk a w1 t b d1 Hc1 Hv1). destruct (k a w1) as [w2 [c|e|f]]; [..|done];
    destruct Hk as (Hc2 & Hv2 & Ho2 & Hd2); (split_and!; [done|done|by eapply others_trans|congruence]).
Qed.

Lemma stays_statement {A} (q : D -> outcome (D * A)) : stays (statement q).
Proof.
  intros w t b d Hc Hv. destruct (statement_current A q w t b d Hc Hv) as (w' & r & d' & -> & Hv' & Ho & Hd & Hc' & Hi & _).
  destruct r; [split_and!; by eauto..|done].
Qed.

Lemma same_others w w' t : same_db w w' -> others t w w'.
Proof. intros (_ & _ & Hv) u _. apply Hv. Qed.

(** Nested, an optional transaction is only what it encloses. *)
Lemma optional_inside {A} (m : io W A) w t : current w = Some t -> optional m w = m (begin w).
Proof.
  intros Hc. unfold optional, scope, OptionalTransaction.make. destruct (begin_same w) as (_ & Hcb & _).
  rewrite Hcb, Hc. unfold mbind, io_bind, OptionalTransaction.commit, OptionalTransaction.destroy, mret, io_ret.
  by destruct (m (begin w)) as [w' [a|e|f]].
Qed.

Lemma stays_optional {A} (m : io W A) : stays_leaking m -> stays_leaking (optional m).
Proof.
  intros Hm w t b d Hc Hv. rewrite (optional_inside m w t Hc). destruct (begin_same w) as (Hd & Hcb & Hvb).
  rewrite <- Hcb in Hc. rewrite <- Hvb in Hv. specialize (Hm (begin w) t b d Hc Hv).
  destruct (m (begin w)) as [w' [a|e|f]]; [..|done]; destruct Hm as (Hc1 & Hv1 & Ho & Hd1);
    (split_and!; [done|done|eapply others_trans; [by apply same_others, begin_same|done]|congruence]).
Qed.

(** How the transaction of a block starts, and how the block leaves the world. *)
Definition opening (w v : W) : Prop := v = begin w \/ v = set_current None (begin w).
Definition leaves (t : nat) (w1 w' : W) : Prop :=
  exists w2, (w2 = w1 \/ w2 = (commit_tx t w1).1) /\ (w' = destroy_tx t w2 \/ exists c, w' = set_current c (destroy_tx t w2)).

(** What a block that commits at its end has done, when its code ran from [w0] to
    [w1] in the transaction [t]: committed what it wrote or nothing. *)
Definition ran {A} (m : io W A) (w : W) (res : W * outcome A) : Prop :=
  exists v w0 t w1 d r, opening w v /\ construct v = (w0, Ret t) /\
    current w0 = Some t /\ view w0 t = Some (committed w, committed w) /\ committed w0 = committed w /\
    m w0 = (w1, r) /\ view w1 t = Some (committed w, d) /\ leaves t w1 res.1 /\
    match res.2 with
    | Ret a => r = Ret a /\ committed res.1 = d
    | Throw e => (r = Throw e \/ ((exists a, r = Ret a) /\ is_odb e = true)) /\ committed res.1 = committed w
    | Fault _ => False
    end.
Definition refused {A} (w : W) (res : W * outcome A) : Prop :=
  exists v w0 e, opening w v /\ construct v = (w0, Throw e) /\ res = (w0, Throw e) /\ is_odb e = true /\ committed w0 = committed w.
Definition committed_block {A} (m : io W A) (w : W) (res : W * outcome A) : Prop :=
  (forall u, is_Some (view w u) -> view res.1 u = view w u) /\ (ran m w res \/ refused w res).

Lemma block_throws {A} (m : io W A) w w' e : committed_block m w (w', Throw e) -> committed w' = committed w.
Proof. intros (_ & [(v & w0 & t & w1 & d & r & _ & _ & _ & _ & _ & _ & _ & _ & _ & Hd)|(v & w0 & e' & _ & _ & [= -> ->] & _ & Hd)]); exact Hd. Qed.

(** A block whose transaction was started on [w0] and is destroyed when it is left. *)
Lemma block {A} (m : io W A) w v w0 t (finish : W -> W) : stays_leaking m ->
  opening w v -> committed v = committed w -> (forall u, view v u = view w u) ->
  (forall w2, finish w2 = w2 \/ exists c, finish w2 = set_current c w2) ->
  construct v = (w0, Ret t) -> view v t = None -> view w0 t = Some (committed v, committed v) -> others t v w0 ->
  committed w0 = committed v -> current w0 = Some t ->
  match (a ← m; _ ← commit_tx t; mret a) w0 with
  | (_, Fault _) => True
  | (w1, r) => committed_block m w (finish (destroy_tx t w1), r) /\ current (destroy_tx t w1) = None
  end.
Proof.
  intros Hm Hop Hdv Hvv Hf Hk Hnew Hv Ho Hd Hc. specialize (Hm w0 t _ _ Hc Hv). unfold mbind, io_bind. rewrite Hdv in *.
  assert (Hfin : forall x, committed (finish x) = committed x /\ forall u, view (finish x) u = view x u).
  { intros x. destruct (Hf x) as [->|[c ->]]; [done|]. split; [apply set_current_committed|intros u; apply set_current_view]. }
  assert (Hleave : forall w1 w2, w2 = w1 \/ w2 = (commit_tx t w1).1 -> leaves t w1 (finish (destroy_tx t w2))).
  { intros w1 w2 H2. exists w2. split; [done|]. destruct (Hf (destroy_tx t w2)) as [->|[c ->]]; eauto. }
  assert (Hkeep : forall w2 u, others t w0 w2 -> is_Some (view w u) -> view (finish (destroy_tx t w2)) u = view w u).
  { intros w2 u Ho2 [s Hs]. destruct (Hfin (destroy_tx t w2)) as [_ ->]. rewrite destroy_view.
    destruct (decide (u = t)) as [->|Hu]; [rewrite <- Hvv in Hs; congruence|]. rewrite (Ho2 u Hu), (Ho u Hu). apply Hvv. }
  destruct (m w0) as [w1 [a|e|f]] eqn:Em; [| |done].
  - destruct Hm as (Hc1 & (d' & Hv1) & Ho1 & Hd1).
    destruct (commit_open w1 t _ _ Hv1) as (w2 & r & Hcom & Hv2 & Ho2 & Hc2 & _ & Hres). rewrite Hcom.
    assert (Hcur : current (destroy_tx t w2) = None).
    { rewrite destroy_current, Hv2, Hc2. unfold without_current. by rewrite Hc1, decide_True. }
    assert (Hl : leaves t w1 (finish (destroy_tx t w2))) by (apply Hleave; right; by rewrite Hcom).
    destruct Hres as [[-> Hpub]|(e & -> & He & Hpub)]; cbn [mret io_ret].
    + split; [split|done]; [intros u Hu; apply Hkeep; [by eapply others_trans|done]|left].
      exists v, w0, t, w1, d', (Ret a). split_and!; try done. cbn. split; [done|].
      destruct (Hfin (destroy_tx t w2)) as [-> _]. rewrite destroy_committed. apply Hpub. congruence.
    + split; [split|done]; [intros u Hu; apply Hkeep; [by eapply others_trans|done]|left].
      exists v, w0, t, w1, d', (Ret a). split_and!; try done. cbn. split; [right; by eauto|].
      destruct (Hfin (destroy_tx t w2)) as [-> _]. rewrite destroy_committed. congruence.
  - destruct Hm as (Hc1 & (d' & Hv1) & Ho1 & Hd1). split; [split|].
    + intros u Hu. by apply Hkeep.
    + left. exists v, w0, t, w1, d', (Throw e). split_and!; try done; [apply Hleave; by left|]. cbn. split; [by left|].
      destruct (Hfin (destroy_tx t w1)) as [-> _]. rewrite destroy_committed. congruence.
    + rewrite destroy_current, Hv1. unfold without_current. by rewrite Hc1, decide_True.
Qed.

Lemma refused_block {A} (m : io W A) w v w0 e : opening w v -> committed v = committed w -> (forall u, view v u = view w u) ->
  construct v = (w0, Throw e) -> is_odb e = true -> same_db v w0 -> committed_block m w (w0, Throw e).
Proof.
  intros Hop Hdv Hvv Hk He (Hd & _ & Hv). split; [intros u _; cbn; by rewrite Hv|right].
  exists v, w0, e. split_and!; try done. by rewrite Hd.
Qed.

Lemma plain_first {A} (m : io W A) w : stays_leaking m -> current w = None ->
  match plain m w with
  | (_, Fault _) => True
  | res => committed_block m w res /\ current res.1 = None
  end.
Proof.
  intros Hm Hc. destruct (begin_same w) as (Hdb & Hcb & Hvb). unfold plain, scope. rewrite <- Hcb in Hc.
  destruct (construct_first (begin w) Hc) as [(w0 & t & Hk & Hn & Hv & Ho & Hd & Hct & _)|(w0 & e & Hk & He & Hs & _)]; rewrite Hk.
  - pose proof (block m w (begin w) w0 t (fun x => x) Hm (or_introl eq_refl) Hdb Hvb ltac:(by left) Hk Hn Hv Ho Hd Hct) as Hb.
    destruct ((a ← m; _ ← commit_tx t; mret a) w0) as [w1 [a|e|f]]; [..|done]; exact Hb.
  - split; [by eapply refused_block; [left|..]|]. destruct Hs as (_ & Hc0 & _). cbn. by rewrite Hc0.
Qed.

Lemma optional_first {A} (m : io W A) w : current w = None -> optional m w = plain m w.
Proof.
  intros Hc. unfold optional, plain, scope, OptionalTransaction.make. destruct (begin_same w) as (_ & Hcb & _).
  rewrite Hcb, Hc. unfold mbind at 1. unfold io_bind at 1. by destruct (construct (begin w)) as [w0 [t|e|f]].
Qed.

(** ** Properties *)

(** (refinement) what an [OptionalTransaction] promises to code that may or may
    not run inside a transaction. With none current the block is a transaction:
    when it returns, all that it wrote is committed at once, when it throws
    nothing is, and none is current afterwards. Inside another one it is the code
    it encloses and no more: its [commit] does nothing, nothing it wrote is
    published, and the transaction it found is still current and open, for its
    owner to commit or to roll back. *)
Theorem optional_transaction {A} (m : io W A) w : stays_leaking m ->
  match current w with
  | None =>
      match optional m w with
      | (_, Fault _) => True
      | res => committed_block m w res /\ current res.1 = None
      end
  | Some t => optional m w = m (begin w) /\ stays_leaking (optional m)
  end.
Proof.
  intros Hm. destruct (current w) as [t|] eqn:Hc; [|rewrite optional_first by done; by apply plain_first].
  split; [by eapply optional_inside|by apply stays_optional].
Qed.

(** (safety) a [MultiplexedTransaction] is independent of the transaction it
    suspends: its block commits or leaves no trace as if no other was there, what
    the suspended one sees is untouched by it, and when the block is left, by
    returning or by an exception, the suspended transaction is current again,
    unless the new one could not be started. *)
Theorem multiplexed_transaction {A} (m : io W A) w : stays_leaking m ->
  match multiplexed m w with
  | (_, Fault _) => True
  | res => committed_block m w res /\
      (current res.1 = current w \/
       (exists e w0, construct (set_current None (begin w)) = (w0, Throw e) /\ res = (w0, Throw e)))
  end.
Proof.
  intros Hm. destruct (begin_same w) as (Hdb & Hcb & Hvb). unfold multiplexed, scope, MultiplexedTransaction.make.
  unfold mbind at 1. unfold io_bind at 1.
  set (v := set_current None (begin w)). assert (Hc : current v = None) by apply set_current_current.
  assert (Hdv : committed v = committed w) by (subst v; rewrite set_current_committed; done).
  assert (Hvv : forall u, view v u = view w u) by (intros u; subst v; rewrite set_current_view; done).
  assert (Hop : opening w v) by by right.
  destruct (construct_first v Hc) as [(w0 & t & Hk & Hn & Hv & Ho & Hd & Hct & _)|(w0 & e & Hk & He & Hs & _)]; rewrite Hk.
  - cbn [mret io_ret]. unfold MultiplexedTransaction.commit, MultiplexedTransaction.destroy.
    cbn [MultiplexedTransaction.transaction_ MultiplexedTransaction.previous_]. rewrite Hcb.
    set (finish := fun x => match current w with Some p => set_current (Some p) x | None => x end).
    assert (Hf : forall x, finish x = x \/ exists c, finish x = set_current c x).
    { intros x. unfold finish. destruct (current w); [right; by eauto|by left]. }
    pose proof (block m w v w0 t finish Hm Hop Hdv Hvv Hf Hk Hn Hv Ho Hd Hct) as Hb.
    assert (Hcf : forall x, current x = None -> current (finish x) = current w).
    { intros x Hx. unfold finish. destruct (current w); [apply set_current_current|done]. }
    destruct ((a ← m; _ ← commit_tx t; mret a) w0) as [w1 [a|e|f]]; [..|done]; destruct Hb as [Hb1 Hb2];
      (split; [exact Hb1|left; by apply Hcf]).
  - split; [by eapply refused_block|]. right. by eauto.
Qed.

(** (error) when the new transaction cannot be started, the one that was suspended
    stays open and is current no more: the caller that handles the exception and
    goes on runs without a transaction, and its next statement throws. *)
Theorem multiplexed_forgets {A} (m : io W A) w w0 t s e : current w = Some t -> view w t = Some s ->
  construct (set_current None (begin w)) = (w0, Throw e) ->
  multiplexed m w = (w0, Throw e) /\ view w0 t = Some s /\ current w0 = None /\
  forall B (q : D -> outcome (D * B)), exists e', (statement q w0).2 = Throw e'.
Proof.
  intros Hc Hs Hk. pose proof (set_current_current None (begin w)) as Hn. destruct (begin_same w) as (_ & _ & Hvb).
  destruct (construct_first _ Hn) as [(w1 & u & Hk' & _)|(w1 & e1 & Hk' & _ & (Hd & Hc1 & Hv) & _)]; [congruence|].
  rewrite Hk in Hk'. injection Hk' as <- <-. split_and!.
  - unfold multiplexed, scope, MultiplexedTransaction.make. unfold mbind at 1. unfold io_bind at 1. by rewrite Hk.
  - by rewrite Hv, set_current_view, Hvb.
  - by rewrite Hc1.
  - intros B q. destruct (statement_none B q w0 ltac:(by rewrite Hc1)) as (w2 & e' & -> & _). by eauto.
Qed.

(** (bounds) the implementation [begin] allocates belongs to the transaction that
    takes it; an [OptionalTransaction] inside another takes none, and each of
    them leaves one allocated for good. *)
Theorem optional_leaks {A} (m : io W A) w t b d : stays m -> current w = Some t -> view w t = Some (b, d) ->
  match optional m w with
  | (_, Fault _) => True
  | (w', _) => impls w' = impls w + 1
  end.
Proof.
  intros Hm Hc Hv. rewrite (optional_inside m w t Hc). destruct (begin_same w) as (_ & Hcb & Hvb). rewrite <- Hcb in Hc. rewrite <- Hvb in Hv.
  specialize (Hm (begin w) t b d Hc Hv). pose proof (begin_impls w).
  destruct (m (begin w)) as [w' [a|e|f]]; [..|done]; destruct Hm as (_ & _ & _ & _ & Hi); by rewrite Hi.
Qed.

End inside.

Section savepoints.
(** A connection on which the statements succeed, and those it was given. *)
Context {W : Type} (execute : string -> io W unit) (log : W -> list string).
Context (executes : forall s w, exists w', execute s w = (w', Ret tt) /\ log w' = log w ++ [s]).

(** The rollbacks a block asks for before it releases. *)
Fixpoint rollbacks (l : list Savepoint.call) : nat :=
  match l with
  | Savepoint.RollbackTo :: l => S (rollbacks l)
  | _ => O
  end.

Lemma calls_released name l w :
  Savepoint.calls execute (Savepoint.mk name true) l w = (w, Ret (Savepoint.mk name true)).
Proof. revert w. induction l as [|[] l IH]; intros w; [done|..]; cbn; apply IH. Qed.

Lemma calls_log name l w : exists w', 
  (s ← Savepoint.calls execute (Savepoint.mk name false) l; Savepoint.destroy execute s) w = (w', Ret tt) /\
  log w' = log w ++ repeat ("ROLLBACK TO SAVEPOINT " +:+ name) (rollbacks l) ++ ["RELEASE SAVEPOINT " +:+ name].
Proof.
  revert w. induction l as [|[] l IH]; intros w.
  - destruct (executes ("RELEASE SAVEPOINT " +:+ name) w) as (w' & He & Hl). exists w'. split; [|done].
    unfold mbind, io_bind, Savepoint.destroy, Savepoint.release. cbn [Savepoint.calls mret io_ret Savepoint.released_ Savepoint.name_].
    unfold mbind, io_bind. by rewrite He.
  - destruct (executes ("RELEASE SAVEPOINT " +:+ name) w) as (w' & He & Hl). exists w'. split; [|done].
    unfold mbind, io_bind. cbn [Savepoint.calls]. unfold Savepoint.release at 1. cbn [Savepoint.released_ Savepoint.name_].
    unfold mbind, io_bind. rewrite He. cbn [mret io_ret]. by rewrite calls_released.
  - destruct (executes ("ROLLBACK TO SAVEPOINT " +:+ name) w) as (w1 & He & Hl).
    destruct (IH w1) as (w' & Hr & Hl'). exists w'. split.
    + rewrite <- Hr. unfold mbind, io_bind. cbn [Savepoint.calls]. unfold Savepoint.rollback_to. cbn [Savepoint.released_ Savepoint.name_].
      unfold mbind, io_bind. rewrite He. done.
    + rewrite Hl', Hl, <- app_assoc. done.
Qed.

(** (safety) whatever a block asks of its savepoint, the database is told to set
    it, then to roll back to it as often as the block asked before releasing it,
    and once to release it, by the block or by the destructor. *)
Theorem savepoint_released_once name l w : exists w',
  (s ← Savepoint.make execute name; s ← Savepoint.calls execute s l; Savepoint.destroy execute s) w = (w', Ret tt) /\
  log w' = log w ++ ("SAVEPOINT " +:+ name) :: repeat ("ROLLBACK TO SAVEPOINT " +:+ name) (rollbacks l) ++
    ["RELEASE SAVEPOINT " +:+ name].
Proof.
  destruct (executes ("SAVEPOINT " +:+ name) w) as (w1 & He & Hl). destruct (calls_log name l w1) as (w' & Hr & Hl').
  exists w'. split; [|by rewrite Hl', Hl, <- app_assoc].
  rewrite <- Hr. unfold mbind at 1. unfold io_bind at 1. unfold Savepoint.make. unfold mbind at 1. unfold io_bind at 1. by rewrite He.
Qed.

(** (error) a savepoint that outlives its transaction ends the program: its
    [RELEASE] fails in the destructor. *)
Lemma savepoint_outlives w w' s e : Savepoint.released_ s = false ->
  execute ("RELEASE SAVEPOINT " +:+ Savepoint.name_ s) w = (w', Throw e) ->
  Savepoint.destroy execute s w = (w', Fault Terminated).
Proof. intros Hs He. unfold Savepoint.destroy, Savepoint.release. rewrite Hs. unfold mbind, io_bind. by rewrite He. Qed.
End savepoints.

Section service.
Context {W D : Type} `{TransactionalDbLaws W D}.

(** A statement alone in a transaction. *)
Lemma lone_statement {A} (q : D -> outcome (D * A)) w : current w = None -> exists w' r,
  optional (statement q) w = (w', r) /\
  ((exists d' a, r = Ret a /\ q (committed w) = Ret (d', a) /\ committed w' = d' /\ current w' = None) \/
   (exists e, r = Throw e /\ (q (committed w) = Throw e \/ is_odb e = true) /\ committed w' = committed w /\ current w' = None) \/
   (exists f, r = Fault f /\ q (committed w) = Fault f)).
Proof.
  intros Hc. rewrite optional_first by done. pose proof (plain_first (statement q) w (stays_leaks _ (stays_statement q)) Hc) as Hb.
  destruct (plain (statement q) w) as [w' r] eqn:E. exists w', r. split; [done|]. revert E. unfold plain, scope.
  destruct (begin_same w) as (Hdb & Hcb & _). rewrite <- Hcb in Hc.
  destruct (construct_first (begin w) Hc) as [(w0 & t & -> & _ & Hv & _ & Hd & Hct & _)|(w0 & e & -> & He & _)]; cycle 1.
  { intros [= <- <-]. right; left. destruct Hb as (Hb & ?). apply block_throws in Hb. by eauto 6. }
  destruct (statement_current A q w0 t _ _ Hct Hv) as (w1 & r1 & d' & Hs & Hv1 & _ & Hd1 & _ & _ & Hr1).
  unfold mbind, io_bind. rewrite Hs. rewrite Hdb in *.
  destruct Hr1 as [(a & -> & Hq)|[(e & -> & Hq)|(f & -> & Hq)]]; cycle 1.
  { intros [= <- <-]. right; left. destruct Hb as (Hb & ?). apply block_throws in Hb. by eauto 6. }
  { intros [= <- <-]. right; right. by eauto. }
  destruct (commit_open w1 t _ _ Hv1) as (w2 & r2 & -> & _ & _ & _ & _ & [[-> Hpub]|(e & -> & He & _)]).
  - intros [= <- <-]. left. exists d', a. split_and!; [done|done| |apply Hb].
    rewrite destroy_committed. apply Hpub. by rewrite Hd1.
  - intros [= <- <-]. right; left. destruct Hb as (Hb & ?). apply block_throws in Hb. by eauto 6.
Qed.

(** (functional) the finders of the database service: with no transaction running,
    the row the database holds, and [EntityNotFound] when it holds none and the
    caller asked for it; nothing is written. *)
Theorem service_finds {E} (find : D -> option E) flag w : current w = None ->
  match DbService.find_by_id find flag w with
  | (w', r) => committed w' = committed w /\ current w' = None /\
      match r with
      | Ret e => e = find (committed w) /\ (flag = true -> e <> None)
      | Throw ex => is_odb ex = true \/ (ex = EntityNotFound /\ flag = true /\ find (committed w) = None)
      | Fault _ => False
      end
  end.
Proof.
  intros Hc. unfold DbService.find_by_id, pure. unfold mbind, io_bind.
  destruct (lone_statement (fun d => Ret (d, find d)) w Hc) as
    (w' & r & -> & [(d' & a & -> & [= <- <-] & Hd & Hc')|[(e & -> & [He|He] & Hd & Hc')|(f & _ & Hf)]]); try done.
  - destruct (find (committed w)) eqn:Ef; [|destruct flag]; split_and!; try done; auto.
  - split_and!; auto.
Qed.

(** (error) but for audit entries: [find_audit_by_id] gives the entry that it found
    its database without looking whether it found one, so asked for an id that
    does not exist, without the flag, it does not answer null: it dereferences
    it. *)
Theorem audit_finder_derefs {E} (find : D -> option E) (database : E -> E) w w' :
  DbService.find_by_id find false w = (w', Ret None) ->
  DbService.find_audit_by_id find database false w = (w', Fault NullDeref).
Proof. intros Hf. unfold DbService.find_audit_by_id. unfold mbind, io_bind. by rewrite Hf. Qed.

(** (functional) an object is persisted once: what the mapper stored is committed
    together with what it returns, and an object that has an id already aborts
    before the database is reached. *)
Theorem service_persists {E} (id : E -> Z) (persist : E -> D -> outcome (D * E)) obj w : current w = None ->
  match DbService.persist_impl id persist obj w with
  | (w', Ret e) => id obj = 0 /\ persist obj (committed w) = Ret (committed w', e)
  | (w', Throw _) => committed w' = committed w
  | (_, Fault f) => (id obj <> 0 /\ f = AssertFailed) \/ persist obj (committed w) = Fault f
  end.
Proof.
  intros Hc. unfold DbService.persist_impl. destruct (Z.eqb_spec (id obj) 0) as [Hid|Hid].
  - change (pure (cassert true)) with (mret tt : io W unit).
    change (optional (_ ← (mret tt : io W unit); statement (persist obj))) with (optional (statement (persist obj))).
    destruct (lone_statement (persist obj) w Hc) as
      (w' & r & -> & [(d' & a & -> & Hq & Hd & Hc')|[(e & -> & _ & Hd & Hc')|(f & -> & Hf)]]); [by rewrite Hd|done|auto].
  - rewrite optional_first by done. unfold plain, scope.
    destruct (begin_same w) as (Hdb & Hcb & _). rewrite <- Hcb in Hc.
    destruct (construct_first (begin w) Hc) as [(w0 & t & -> & _)|(w0 & e & -> & _ & (Hd & _) & _)]; [left; done|by rewrite Hd].
Qed.
End service.

(** ** Witnesses *)

(** A database in memory, that refuses to start a transaction while [down]. *)
Module Demo.

Record db (D : Type) := mk { rows : D; txs : list (option (D * D)); cur : option nat; live : Z; down : bool }.
Arguments mk {D} _ _ _ _ _.
Arguments rows {D} _.
Arguments txs {D} _.
Arguments cur {D} _.
Arguments live {D} _.
Arguments down {D} _.

Section memory.
Context {D : Type}.
Local Abbreviation W := (db D).

Definition seen (w : W) (t : nat) : option (D * D) := mjoin (txs w !! t).
Definition close (t : nat) (rows' : D) (w : W) : W :=
  mk rows' (<[t := None]> (txs w)) (if decide (cur w = Some t) then None else cur w) (live w) (down w).

#[export] Instance memory : TransactionalDb W D := {|
  committed := rows;
  view := seen;
  current := cur;
  set_current c w := mk (rows w) (txs w) c (live w) (down w);
  impls := live;
  begin w := mk (rows w) (txs w) (cur w) (live w + 1) (down w);
  construct w :=
    match cur w, down w with
    | None, false =>
        (mk (rows w) (txs w ++ [Some (rows w, rows w)]) (Some (length (txs w))) (live w) (down w), Ret (length (txs w)))
    | _, _ => (mk (rows w) (txs w) (cur w) (live w - 1) (down w), Throw (OdbException "cannot start"))
    end;
  commit_tx t w :=
    match seen w t with
    | Some (_, d) => (close t d w, Ret tt)
    | None => (w, Throw (OdbException "transaction already finalized"))
    end;
  rollback_tx t w :=
    match seen w t with
    | Some _ => (close t (rows w) w, Ret tt)
    | None => (w, Throw (OdbException "transaction already finalized"))
    end;
  destroy_tx t w :=
    let w' := match seen w t with Some _ => close t (rows w) w | None => w end in
    mk (rows w') (txs w') (cur w') (live w' - 1) (down w');
  statement A q w :=
    match cur w with
    | Some t =>
        match seen w t with
        | Some (b, d) =>
            match q d with
            | Ret (d', a) => (mk (rows w) (<[t := Some (b, d')]> (txs w)) (cur w) (live w) (down w), Ret a)
            | Throw e => (w, Throw e)
            | Fault f => (w, Fault f)
            end
        | None => (w, Throw (OdbException "finalized"))
        end
    | None => (w, Throw (OdbException "not in transaction"))
    end;
|}.

Lemma seen_lt w t s : seen w t = Some s -> (t < length (txs w))%nat.
Proof. unfold seen. destruct (txs w !! t) eqn:E; [by intros _; apply lookup_lt_Some in E|done]. Qed.

Lemma seen_insert w t x u l : txs w = <[t := x]> l -> (t < length l)%nat ->
  seen w u = if decide (u = t) then x else mjoin (l !! u).
Proof.
  intros Hw Hl. unfold seen. rewrite Hw. destruct (decide (u = t)) as [->|Hu]; [by rewrite list_lookup_insert_eq|by rewrite list_lookup_insert_ne].
Qed.

#[export] Instance memory_laws : TransactionalDbLaws W D.
Proof.
  split; try done; cbn.
  - intros w t Hc. rewrite Hc. eexists _, _. split_and!; by try done.
  - intros w Hc. rewrite Hc. destruct (down w); [right|left].
    + eexists _, _. split_and!; done.
    + eexists _, _. split; [done|]. unfold seen, others. cbn. split_and!; try done.
      * by rewrite lookup_ge_None_2.
      * by rewrite lookup_app_r, Nat.sub_diag by done.
      * intros u Hu. unfold view, memory, seen. cbn. destruct (decide (u < length (txs w))%nat).
        -- by rewrite lookup_app_l.
        -- by rewrite !lookup_ge_None_2 by (rewrite ?length_app; cbn; lia).
  - intros A q w t b d Hc Hv. rewrite Hc, Hv. pose proof (seen_lt _ _ _ Hv) as Hl. destruct (q d) as [[d' a]|e|f] eqn:Eq.
    + eexists _, _, d'. split; [done|]. unfold others. cbn. split_and!; try done.
      * by erewrite seen_insert, decide_True.
      * intros u Hu. by erewrite seen_insert, decide_False.
      * left. by eexists.
    + eexists _, _, d. split_and!; try done. right; left. eexists. by split; [|left].
    + eexists _, _, d. split_and!; try done. right; right. by eexists.
  - intros A q w Hc. rewrite Hc. by eexists _, _.
  - intros w t b d Hv. rewrite Hv. pose proof (seen_lt _ _ _ Hv) as Hl. eexists _, _. split; [done|]. unfold others. cbn. split_and!; try done.
    + by erewrite seen_insert, decide_True.
    + intros u Hu. by erewrite seen_insert, decide_False.
    + by left.
  - intros w t Hv. rewrite Hv. by eexists _, _.
  - intros w t s Hv. rewrite Hv. pose proof (seen_lt _ _ _ Hv) as Hl. eexists _, _. split; [done|]. unfold others. cbn. split_and!; try done.
    + by erewrite seen_insert, decide_True.
    + intros u Hu. by erewrite seen_insert, decide_False.
    + by left.
  - intros w t u. destruct (seen w t) eqn:Hv; cbn.
    + pose proof (seen_lt _ _ _ Hv) as Hl. exact (seen_insert (close t (rows w) w) t None u (txs w) eq_refl Hl).
    + destruct (decide (u = t)) as [->|]; done.
  - intros w t. by destruct (seen w t).
  - intros w t. unfold without_current. cbn. by destruct (seen w t).
  - intros w t. by destruct (seen w t).
Qed.
End memory.

Definition D : Type := list Z.
Definition W : Type := db D.

Definition start : W := mk [] [] None 0 false.
Definition add (z : Z) : io W unit := statement (fun d => Ret (d ++ [z], tt)).

Lemma adds z : stays_leaking (add z).
Proof. apply stays_leaks, stays_statement. Qed.

(** A caller's transaction that fails after a block inside it committed. *)
Definition failing : io W unit := _ ← add 1; _ ← optional (add 2); pure (Throw EntityNotFound).

Lemma failing_stays : stays_leaking failing.
Proof.
  apply stays_bind; [apply adds|intros _]. apply stays_bind; [apply stays_optional, adds|intros _].
  apply stays_leaks, stays_pure.
Qed.

Lemma optional_transaction_witness :
  rows (optional failing start).1 = [] /\ rows (optional (_ ← add 1; optional (add 2)) start).1 = [1; 2].
Proof.
  split; [|reflexivity].
  pose proof (optional_transaction failing start failing_stays) as H.
  change (current start) with (None : option nat) in H. cbn match in H.
  destruct (optional failing start) as [w' [a|e|f]] eqn:E; [vm_compute in E; discriminate E| |vm_compute in E; discriminate E].
  exact (block_throws _ _ _ _ (proj1 H)).
Defined.

(** Inside a transaction that wrote 1 and is rolled back, a multiplexed one that
    commits 2. *)
Definition outer : W := ((_ ← construct; add 1) (begin start)).1.
Lemma multiplexed_transaction_witness :
  rows (multiplexed (add 2) outer).1 = [2] /\ current (multiplexed (add 2) outer).1 = Some 0%nat /\
  rows (destroy_tx 0 (multiplexed (add 2) outer).1) = [2].
Proof.
  pose proof (multiplexed_transaction (add 2) outer (adds 2)) as H.
  destruct (multiplexed (add 2) outer) as [w' [a|e|f]] eqn:E; [|vm_compute in E; discriminate E..].
  destruct H as (_ & [Hc|(e & w0 & Hk & _)]); [|vm_compute in Hk; discriminate Hk].
  assert (Hr : rows w' = [2]) by (vm_compute in E; injection E as <-; reflexivity).
  split; [exact Hr|split; [exact Hc|]]. cbn [fst]. change (committed (destroy_tx 0 w') = [2]).
  rewrite (destroy_committed w' 0). exact Hr.
Defined.

Definition refusing : W := mk (rows outer) (txs outer) (cur outer) (live outer) true.
Lemma multiplexed_forgets_witness : current (multiplexed (add 2) refusing).1 = None.
Proof.
  pose proof (multiplexed_forgets (add 2) refusing (mk (rows refusing) (txs refusing) None 1 true) 0 ([], [1])
    (OdbException "cannot start")) as H.
  destruct H as (H & _ & Hc & _); [reflexivity..|].
  exact (eq_trans (f_equal (fun x => current x.1) H) Hc).
Defined.

Lemma optional_leaks_witness : impls (optional (add 2) outer).1 = 2.
Proof.
  pose proof (optional_leaks (add 2) outer 0 [] [1] (stays_statement _)) as H.
  specialize (H ltac:(reflexivity) ltac:(reflexivity)).
  destruct (optional (add 2) outer) as [w' [a|e|f]] eqn:E; [exact H|vm_compute in E; discriminate E..].
Defined.

Definition logging : string -> io (list string) unit := fun s w => (w ++ [s], Ret tt).
Lemma logging_executes s (w : list string) : exists w', logging s w = (w', Ret tt) /\ w' = w ++ [s].
Proof. by eexists. Qed.
Lemma savepoint_witness : exists w', w' = ["SAVEPOINT a"; "ROLLBACK TO SAVEPOINT a"; "RELEASE SAVEPOINT a"].
Proof.
  destruct (savepoint_released_once logging (fun w => w) logging_executes "a"
    [Savepoint.RollbackTo; Savepoint.Release; Savepoint.RollbackTo] []) as (w' & _ & Hl).
  exists w'. exact Hl.
Defined.

Definition first (d : D) : option Z := head d.
Lemma service_finds_witness : (DbService.find_by_id first true start).2 = Throw EntityNotFound.
Proof.
  pose proof (service_finds first true start eq_refl) as H.
  destruct (DbService.find_by_id first true start) as [w' [r|e|f]] eqn:E; [vm_compute in E; discriminate E| |vm_compute in E; discriminate E].
  destruct H as (_ & _ & [He|[-> _]]); [vm_compute in E; injection E as <- <-; discriminate He|reflexivity].
Defined.

Lemma audit_finder_witness :
  (DbService.find_audit_by_id first (fun e => e) false start).2 = Fault NullDeref.
Proof. by erewrite (audit_finder_derefs first (fun e => e) start). Defined.

Definition store (z : Z) (d : D) : outcome (D * Z) := Ret (d ++ [z], z).
Lemma service_persists_witness : rows (DbService.persist_impl (fun z => z) store 0 start).1 = [0].
Proof.
  pose proof (service_persists (fun z => z) store 0 start eq_refl) as H.
  destruct (DbService.persist_impl (fun z => z) store 0 start) as [w' [r|e|f]] eqn:E; [|vm_compute in E; discriminate E..].
  destruct H as [_ H]. injection H as Hr _. exact (eq_sym Hr).
Defined.

End Demo.
