(* ===== verification/AuditTrail.v ===== *)
(** The audit entries as objects and as rows, [src/core/audit/]: how they are
    created by [AuditFactory.cpp] and the [create] of each event, linked in a
    tree, written with their parents ([odb_callback]) and finalized; and the audit
    of a request of the WebSocket API, [WSServer::on_message] and
    [finalize_audit].

    An object is known by its id; the row holds what the object did when it was
    last written. The mapper, which stores rows, is an interface with its laws. *)
From Stdlib Require Import ZArith Lia Ascii String.
From stdpp Require Import base tactics numbers list strings gmap.
From S2P Require Import Prelude Facades AuditLog Transactions.

Open Scope Z_scope.

(** * Objects *)

(** What the classes derived from [AuditEntry] add: [WSAPICall]; the events about
    an entity that keep a text of it from before and after; the others. The access
    points before and after are those of [DoorEvent]. *)
Inductive event_kind :=
  | USER_EVENT | GROUP_EVENT | CREDENTIAL_EVENT | SCHEDULE_EVENT | DOOR_EVENT | ZONE_EVENT | ACCESS_POINT_EVENT.
Inductive details :=
  | WSAPICall (api_method uuid : string) (status_code : Z) (status_string source_endpoint request_content
      response_content : string) (database_operations : Z)
  | Changed (kind : event_kind) (target : Z) (before after : string) (access_point_id_before access_point_id_after : Z)
  | Membership (target_user target_group : Z)
  | Update (target : Z)
  | AuthAttempt (cred_raw : string) (cred_id : Z) (door : string).

(** [database_] tells whether the object has its database pointer, which is not
    stored. *)
Record obj (F : Type) := mk_obj {
  entry : AuditEntry.t F;
  version_ : Z;
  details_ : details;
  database_ : bool;
}.
Arguments mk_obj {F} _ _ _ _.
Arguments entry {F} _.
Arguments version_ {F} _.
Arguments details_ {F} _.
Arguments database_ {F} _.

Definition id {F} (o : obj F) : Z := AuditEntry.id_ (entry o).
Definition finalized {F} (o : obj F) : bool := AuditEntry.finalized_ (entry o).
Definition parent {F} (o : obj F) : option Z := AuditEntry.parent_ (entry o).
Definition children {F} (o : obj F) : list Z := AuditEntry.children_ (entry o).
Definition author_id {F} (o : obj F) : Z := default 0 (AuditEntry.author_ (entry o)).

Definition with_entry {F} (e : AuditEntry.t F) (o : obj F) : obj F := mk_obj e (version_ o) (details_ o) (database_ o).
Definition with_details {F} (d : details) (o : obj F) : obj F := mk_obj (entry o) (version_ o) d (database_ o).
Definition with_database {F} (b : bool) (o : obj F) : obj F := mk_obj (entry o) (version_ o) (details_ o) b.
Definition with_author {F} (a : option Z) (o : obj F) : obj F :=
  let e := entry o in
  with_entry (AuditEntry.mk (AuditEntry.id_ e) (AuditEntry.event_mask_ e) a (AuditEntry.parent_ e)
                (AuditEntry.children_ e) (AuditEntry.duration_ e) (AuditEntry.finalized_ e)) o.

(** A new object: no id, not finalized, version 0. *)
Definition fresh {F} `{FlagSet F} (d : details) (database : bool) : obj F :=
  mk_obj (AuditEntry.mk 0 fs_empty None None [] 0 false) 0 d database.

(** The mapper: rows are found by id; [persist] gives an id, [update] and [reload]
    look at the version, that [update] increments. *)
Class AuditDb (D F : Type) := {
  find_entry : Z -> D -> option (obj F);
  persist_entry : obj F -> D -> outcome (D * obj F);
  update_entry : obj F -> D -> outcome (D * obj F);
  reload_entry : obj F -> D -> outcome (obj F);
}.

(** [what] of an exception. *)
Class ExceptionText := { what : exn -> string }.

(** The objects by id, and the world with the database. *)
Section objects.
Context {F D W : Type} `{FlagSet F, AuditDb D F, TransactionalDb W D}.

Local Abbreviation sys := (gmap Z (obj F) * W)%type.

Definition object (i : Z) : io sys (obj F) := fun s =>
  (s, match s.1 !! i with Some o => Ret o | None => Fault NullDeref end).
Definition set_object (o : obj F) : io sys unit := fun s => ((<[id o := o]> s.1, s.2), Ret tt).
Definition modify (i : Z) (f : obj F -> outcome (obj F)) : io sys unit :=
  o ← object i; o ← pure (f o); set_object o.

(** * Writing *)

(** [odb_callback], after an object was written: the parent is, when it still
    exists. *)
Definition odb_callback (update : Z -> io sys unit) (o : obj F) : io sys unit := fun s =>
  match parent o with
  | None => (s, Ret tt)
  | Some p =>
      match s.1 !! p with
      | Some po => (_ ← pure (cassert (negb (id po =? 0))); update p) s
      | None => (s, Ret tt)
      end
  end.

(** [database->update] of an object, for [fuel] objects in a line of parents. *)
Fixpoint db_update (fuel : nat) (i : Z) : io sys unit :=
  match fuel with
  | O => pure (Fault OutOfFuel)
  | S fuel =>
      o ← object i;
      o ← statement (update_entry o);
      _ ← set_object o;
      odb_callback (db_update fuel) o
  end.

(** Enough for all the objects there are. *)
Definition update (i : Z) : io sys unit := fun s => db_update (S (size s.1)) i s.

(** [database->persist]; the object's id. *)
Definition persist (o : obj F) : io sys Z :=
  o ← statement (persist_entry o);
  _ ← set_object o;
  _ ← odb_callback update o;
  mret (id o).

(** * AuditEntry *)

(** Of two entries; the one that gets a parent has none. *)
Definition set_parent (i p : Z) : io sys unit :=
  o ← object i;
  _ ← pure (cassert (negb (p =? 0)));
  po ← object p;
  '(parent', e') ← pure (AuditEntry.set_parent (entry po) (entry o));
  _ ← set_object (with_entry parent' po);
  set_object (with_entry e' o).

Definition remove_parent (i : Z) : io sys unit := fun s =>
  match s.1 !! i with
  | None => (s, Fault NullDeref)
  | Some o =>
      match parent o ≫= fun p => s.1 !! p with
      | None => (s, Ret tt)
      | Some po =>
          let '(parent', e') := AuditEntry.remove_parent (entry po) (entry o) in
          (_ ← set_object (with_entry parent' po); set_object (with_entry e' o)) s
      end
  end.

(** The user of an entry, by id: none or one that was persisted. *)
Definition author (i : Z) (user : option Z) : io sys unit :=
  modify i (fun o => _ ← cassert (match user with Some u => negb (u =? 0) | None => true end); Ret (with_author user o)).

Definition event_mask (i : Z) (mask : F) : io sys unit :=
  modify i (fun o => e ← AuditEntry.event_mask mask (entry o); Ret (with_entry e o)).

Definition in_transaction : io sys unit := fun s =>
  (s, cassert (match current s with Some _ => true | None => false end)).

(** [elapsed] is what the entry's timer reads. *)
Definition finalize (elapsed i : Z) : io sys unit :=
  _ ← in_transaction;
  o ← object i;
  if finalized o then mret tt
  else
    _ ← pure (cassert (database_ o));
    _ ← set_object (with_entry (AuditEntry.finalize elapsed (entry o)) o);
    update i.

Definition reload (i : Z) : io sys unit :=
  _ ← in_transaction;
  o ← object i;
  _ ← pure (if database_ o then Ret tt else Fault NullDeref);
  o ← statement (fun d => o ← reload_entry o d; Ret (d, o));
  set_object o.

(** * Events *)

(** What a setter of an entry does, unless it is finalized. *)
Definition edit (i : Z) (f : details -> details) : io sys unit :=
  modify i (fun o => _ ← cassert (negb (finalized o)); Ret (with_details (f (details_ o)) o)).

Definition before (i : Z) (repr : string) : io sys unit :=
  edit i (fun d => match d with Changed k t _ a b c => Changed k t repr a b c | d => d end).
Definition after (i : Z) (repr : string) : io sys unit :=
  edit i (fun d => match d with Changed k t b _ a c => Changed k t b repr a c | d => d end).

(** The access points of a [DoorEvent] and the targets of a membership's event are
    set whether it is finalized or not. *)
Definition edit_any (i : Z) (f : details -> details) : io sys unit :=
  modify i (fun o => Ret (with_details (f (details_ o)) o)).
Definition access_point_id_before (i ap : Z) : io sys unit :=
  edit_any i (fun d => match d with Changed k t b a _ x => Changed k t b a ap x | d => d end).
Definition access_point_id_after (i ap : Z) : io sys unit :=
  edit_any i (fun d => match d with Changed k t b a x _ => Changed k t b a x ap | d => d end).
Definition target_user (i user : Z) : io sys unit :=
  edit_any i (fun d => match d with Membership _ g => Membership user g | d => d end).
Definition target_group (i group : Z) : io sys unit :=
  edit_any i (fun d => match d with Membership u _ => Membership u group | d => d end).

(** The [create] of each event, its guards apart: persisted, then linked to its
    parent and written again with it, in a transaction of its own or the
    caller's. *)
Definition create (d : details) (parent : option Z) : io sys Z :=
  optional (
    i ← persist (fresh d true);
    _ ← match parent with Some p => set_parent i p | None => mret tt end;
    _ ← update i;
    mret i).

(** [ASSERT_LOG(x, _); ASSERT_LOG(x->id(), _);]. *)
Definition persisted (x : option Z) : outcome Z :=
  match x with Some i => _ ← cassert (negb (i =? 0)); Ret i | None => Fault AssertFailed end.
Definition not_null (x : option Z) : outcome Z :=
  match x with Some i => Ret i | None => Fault AssertFailed end.

End objects.

(** The [create] functions check what they are given again, but for the parents
    of [CredentialEvent], [ScheduleEvent] and [AuthEvent]. *)
Module Events.
Section events.
Context {F D W : Type} `{FlagSet F, AuditDb D F, TransactionalDb W D}.
Local Abbreviation sys := (gmap Z (obj F) * W)%type.

Definition create_under (k : event_kind) (database : bool) (target parent : option Z) : io sys Z :=
  _ ← pure (cassert database);
  t ← pure (persisted target);
  p ← pure (persisted parent);
  create (Changed k t "" "" 0 0) (Some p).
Definition create_linked (k : event_kind) (database : bool) (target : option Z) (parent : Z) : io sys Z :=
  _ ← pure (cassert database);
  t ← pure (persisted target);
  create (Changed k t "" "" 0 0) (Some parent).

Definition UserEvent_create := create_under USER_EVENT.
Definition GroupEvent_create := create_under GROUP_EVENT.
Definition DoorEvent_create := create_under DOOR_EVENT.
Definition ZoneEvent_create := create_under ZONE_EVENT.
Definition AccessPointEvent_create := create_under ACCESS_POINT_EVENT.
Definition CredentialEvent_create := create_linked CREDENTIAL_EVENT.
Definition ScheduleEvent_create := create_linked SCHEDULE_EVENT.

Definition UserGroupMembershipEvent_create (database : bool) (target_group target_user parent : option Z) : io sys Z :=
  _ ← pure (cassert database);
  u ← pure (persisted target_user);
  g ← pure (persisted target_group);
  p ← pure (persisted parent);
  create (Membership u g) (Some p).

Definition UpdateEvent_create (database : bool) (target parent : option Z) : io sys Z :=
  _ ← pure (cassert database);
  t ← pure (persisted target);
  p ← pure (persisted parent);
  create (Update t) (Some p).

(** A credential's text and id, 0 when it is not one of the database. *)
Definition AuthEvent_create (database : bool) (credential : option (string * Z)) (door : string) (parent : option Z) : io sys Z :=
  _ ← pure (cassert database);
  c ← pure (match credential with Some c => Ret c | None => Fault AssertFailed end);
  _ ← pure (cassert (negb (str_empty door)));
  create (AuthAttempt c.1 c.2 door) parent.

End events.
End Events.

(** The factory takes entities and parents by their ids. *)
Module Factory.
Section factory.
Context {F D W : Type} `{FlagSet F, AuditDb D F, TransactionalDb W D}.
Local Abbreviation sys := (gmap Z (obj F) * W)%type.

Definition under (database : bool) (target parent : option Z) : io sys (Z * Z) :=
  _ ← pure (cassert database);
  t ← pure (persisted target);
  p ← pure (persisted parent);
  mret (t, p).
(** A parent that is cast before its id was looked at. *)
Definition cast_parent (parent : option Z) : io sys Z := pure (not_null parent).

Definition UserEvent (database : bool) (target parent : option Z) : io sys Z :=
  tp ← under database target parent; Events.UserEvent_create database (Some tp.1) (Some tp.2).
Definition GroupEvent (database : bool) (target parent : option Z) : io sys Z :=
  tp ← under database target parent; Events.GroupEvent_create database (Some tp.1) (Some tp.2).
Definition DoorEvent (database : bool) (target parent : option Z) : io sys Z :=
  tp ← under database target parent; Events.DoorEvent_create database (Some tp.1) (Some tp.2).
Definition AccessPointEvent (database : bool) (target parent : option Z) : io sys Z :=
  tp ← under database target parent; Events.AccessPointEvent_create database (Some tp.1) (Some tp.2).
Definition ZoneEvent (database : bool) (target parent : option Z) : io sys Z :=
  tp ← under database target parent; Events.ZoneEvent_create database (Some tp.1) (Some tp.2).
Definition UpdateEvent (database : bool) (target parent : option Z) : io sys Z :=
  tp ← under database target parent; Events.UpdateEvent_create database (Some tp.1) (Some tp.2).
Definition CredentialEventPtr (database : bool) (target parent : option Z) : io sys Z :=
  _ ← pure (cassert database);
  t ← pure (persisted target);
  p ← cast_parent parent;
  Events.CredentialEvent_create database (Some t) p.
Definition ScheduleEvent (database : bool) (target parent : option Z) : io sys Z :=
  _ ← pure (cassert database);
  t ← pure (persisted target);
  p ← cast_parent parent;
  Events.ScheduleEvent_create database (Some t) p.
Definition UserGroupMembershipEvent (database : bool) (target_group target_user parent : option Z) : io sys Z :=
  _ ← pure (cassert database);
  g ← pure (persisted target_group);
  u ← pure (persisted target_user);
  p ← cast_parent parent;
  Events.UserGroupMembershipEvent_create database (Some g) (Some u) (Some p).
Definition AuthEvent (database : bool) (credential : option (string * Z)) (door : string) (parent : option Z) : io sys Z :=
  _ ← pure (cassert database);
  _ ← pure (cassert (match credential with Some _ => true | None => false end));
  _ ← pure (cassert (negb (str_empty door)));
  p ← pure (persisted parent);
  Events.AuthEvent_create database credential door (Some p).

(** [WSAPICall::create], in a transaction of its own whatever the caller's. *)
Definition WSAPICall (database : bool) : io sys Z :=
  _ ← pure (cassert database);
  i ← multiplexed (persist (fresh (WSAPICall "" "" 0x0A "" "" "" "" 0) false));
  _ ← modify i (fun o => Ret (with_database true o));
  mret i.

End factory.
End Factory.

(** [AuthFileInstance::handle_auth] once it decided, with a database: the parent
    is the default argument of the factory's [AuthEvent], null. *)
Module AuthFileAudit.
Section audit.
Context {F D W : Type} `{FlagSet F, AuditDb D F, TransactionalDb W D}.
Local Abbreviation sys := (gmap Z (obj F) * W)%type.

Definition record (success : bool) (elapsed : Z) (credential : string * Z) (target_name : string) : io sys unit :=
  i ← Factory.AuthEvent true (Some credential) target_name None;
  _ ← event_mask i (mask_of (if success then AUTH_GRANTED else AUTH_DENIED));
  finalize elapsed i.
End audit.
End AuthFileAudit.

(** * The audit of a request, [src/modules/websock-api/WSServer.cpp] *)

Module WSServerAudit.

(** The fields of a [ServerMessage] but its content. *)
Record ServerMessage := mk_message { status_code : Z; status_string : string; uuid : string; type : string }.
Definition DATABASE_ERROR : Z := 0x09.
Definition MALFORMED : Z := 0x04.
Definition UNKNOWN : Z := 0x0A.

Definition set_status (code : Z) (text : string) (m : ServerMessage) : ServerMessage :=
  mk_message code text (uuid m) (type m).

Section server.
Context {F D W : Type} `{FlagSet F, AuditDb D F, TransactionalDb W D, ExceptionText}.
Local Abbreviation sys := (gmap Z (obj F) * W)%type.

(** The setters of [WSAPICall]. *)
Definition call_method (str : string) (d : details) : details :=
  match d with WSAPICall _ u c s e q p n => WSAPICall str u c s e q p n | d => d end.
Definition call_uuid (str : string) (d : details) : details :=
  match d with WSAPICall m _ c s e q p n => WSAPICall m str c s e q p n | d => d end.
Definition call_status_code (code : Z) (d : details) : details :=
  match d with WSAPICall m u _ s e q p n => WSAPICall m u code s e q p n | d => d end.
Definition call_status_string (str : string) (d : details) : details :=
  match d with WSAPICall m u c _ e q p n => WSAPICall m u c str e q p n | d => d end.
Definition call_source_endpoint (str : string) (d : details) : details :=
  match d with WSAPICall m u c s _ q p n => WSAPICall m u c s str q p n | d => d end.
Definition call_request_content (str : string) (d : details) : details :=
  match d with WSAPICall m u c s e _ p n => WSAPICall m u c s e str p n | d => d end.
Definition call_database_operations (n : Z) (d : details) : details :=
  match d with WSAPICall m u c s e q p _ => WSAPICall m u c s e q p n | d => d end.

(** The block of [finalize_audit]. *)
Definition final_values (elapsed i : Z) (msg : ServerMessage) : io sys unit :=
  _ ← reload i;
  _ ← edit i (call_uuid (uuid msg));
  _ ← edit i (call_method (type msg));
  _ ← edit i (call_status_code (status_code msg));
  _ ← edit i (call_status_string (status_string msg));
  finalize elapsed i.

Definition finalize_audit (elapsed i : Z) (msg : ServerMessage) : io sys ServerMessage := fun s =>
  match multiplexed (final_values elapsed i msg) s with
  | (s, Ret _) => (s, Ret msg)
  | (s, Throw e) =>
      if is_odb e then (s, Ret (set_status DATABASE_ERROR (what e) msg)) else (s, Throw e)
  | (s, Fault f) => (s, Fault f)
  end.

(** The second [try] of [on_message]: [parsed] is the uuid and the type of the
    request or what the parsing throws. *)
Definition process (i : Z) (user : option Z) (endpoint payload : string) (parsed : outcome (string * string))
    (handler : Z -> io sys (option ServerMessage)) : io sys (option ServerMessage) :=
  _ ← event_mask i (mask_of WSAPI_CALL);
  _ ← author i user;
  _ ← edit i (call_source_endpoint endpoint);
  _ ← edit i (call_request_content payload);
  '(uuid, type) ← pure parsed;
  _ ← edit i (call_uuid uuid);
  _ ← edit i (call_method type);
  _ ← optional (update i);
  handler i.

(** [on_message]: the message that is sent, if any; [operations] is the count of
    the database's operations, in 16 bits. *)
Definition on_message (database : bool) (user : option Z) (endpoint payload : string) (parsed : outcome (string * string))
    (operations elapsed : Z) (handler : Z -> io sys (option ServerMessage))
  : io sys (option ServerMessage) := fun s =>
  let empty := mk_message UNKNOWN "" "" "" in
  match Factory.WSAPICall database s with
  | (s, Throw e) =>
      if is_odb e then (s, Ret (Some (set_status DATABASE_ERROR (what e) empty))) else (s, Throw e)
  | (s, Fault f) => (s, Fault f)
  | (s, Ret i) =>
      let answer (response : option ServerMessage) : io sys (option ServerMessage) :=
        match response with
        | None => mret None
        | Some msg =>
            _ ← edit i (call_database_operations (operations mod 2 ^ 16));
            msg ← finalize_audit elapsed i msg;
            mret (Some msg)
        end in
      match process i user endpoint payload parsed handler s with
      | (s, Ret response) => answer response s
      | (s, Throw StdInvalidArgument) => answer (Some (set_status MALFORMED "Failed to parse JSON." empty)) s
      | (s, Throw MalformedMessage) => answer (Some (set_status MALFORMED (what MalformedMessage) empty)) s
      | (s, Throw e) => (s, Throw e)
      | (s, Fault f) => (s, Fault f)
      end
  end.

End server.
End WSServerAudit.

(** * What the mapper documents *)

Class AuditDbLaws (D F : Type) `{AuditDb D F} := {
  find_id i d r : find_entry i d = Some r -> id r = i;
  (** A row with an id that no row has. *)
  persist_row o d d' o' : persist_entry o d = Ret (d', o') ->
    id o' <> 0 /\ find_entry (id o') d = None /\
    o' = mk_obj (AuditEntry.mk (id o') (AuditEntry.event_mask_ (entry o)) (AuditEntry.author_ (entry o)) (parent o)
                   (children o) (AuditEntry.duration_ (entry o)) (finalized o)) 1 (details_ o) (database_ o) /\
    forall j, find_entry j d' = if decide (j = id o') then Some o' else find_entry j d;
  (** The row of an object of the same version, its children being rows. *)
  update_row o d d' o' : update_entry o d = Ret (d', o') ->
    (exists r, find_entry (id o) d = Some r /\ version_ r = version_ o) /\
    o' = mk_obj (entry o) (version_ o + 1) (details_ o) (database_ o) /\
    forall j, find_entry j d' = if decide (j = id o) then Some o' else find_entry j d;
  update_present o d r : find_entry (id o) d = Some r -> version_ r = version_ o ->
    Forall (fun c => is_Some (find_entry c d)) (children o) -> exists d' o', update_entry o d = Ret (d', o');
  update_stale o d r : find_entry (id o) d = Some r -> version_ r <> version_ o -> update_entry o d = Throw ObjectChanged;
  (** The children are foreign keys. *)
  update_dangling o d c : List.In c (children o) -> find_entry c d = None ->
    exists e, update_entry o d = Throw e /\ is_odb e = true;
  update_throws o d e : update_entry o d = Throw e -> is_odb e = true;
  update_returns o d f : update_entry o d <> Fault f;
  (** [reload] reads the row when its version is another. *)
  reload_row o d r : find_entry (id o) d = Some r ->
    reload_entry o d = Ret (if version_ r =? version_ o then o else with_database (database_ o) r);
  reload_missing o d : find_entry (id o) d = None -> reload_entry o d = Throw ObjectNotPersistent;
}.

(** ** Lemmas: objects and transactions *)

Section trail.
Context {F D W : Type} `{FlagSet F, AuditDbLaws D F, TransactionalDbLaws W D}.
Local Abbreviation sys := (gmap Z (obj F) * W)%type.

(** Code that only works on the objects. *)
Definition local {A} (m : io sys A) : Prop := forall s, (m s).1.2 = s.2.

Lemma local_stays {A} (m : io sys A) : local m -> stays_leaking m.
Proof.
  intros Hm s t b d Hc Hv. specialize (Hm s). destruct (m s) as [[h w] [a|e|f]]; cbn in Hm; subst w; [..|done];
    (split_and!; [done|by eexists|done|done]).
Qed.
Lemma local_object i : local (object i).
Proof. done. Qed.
Lemma local_set o : local (set_object o).
Proof. done. Qed.
Lemma local_pure {A} (r : outcome A) : local (pure r).
Proof. done. Qed.
Lemma local_ret {A} (a : A) : local (mret a).
Proof. done. Qed.
Lemma local_in_transaction : local in_transaction.
Proof. done. Qed.
Lemma local_bind {A B} (m : io sys A) (k : A -> io sys B) : local m -> (forall a, local (k a)) -> local (m ≫= k).
Proof.
  intros Hm Hk s. specialize (Hm s). unfold mbind, io_bind. destruct (m s) as [s1 [a|e|f]]; [|done..].
  cbn in Hm. by rewrite Hk.
Qed.
Lemma local_modify i f : local (modify i f).
Proof. repeat (apply local_bind; [done|intros]). done. Qed.
Lemma local_set_parent i p : local (set_parent i p).
Proof. repeat (apply local_bind; [done|intros]). destruct a2. apply local_bind; [done|intros]. done. Qed.

(** ** Lemmas: an entry that is left alone *)

(** What an entry says, apart from its children, which do not belong to it alone,
    its version and its time. *)
Definition content (o : obj F) := (AuditEntry.author_ (entry o), AuditEntry.event_mask_ (entry o), finalized o, parent o, details_ o).

(** Objects are known by their ids. *)
Definition keyed (h : gmap Z (obj F)) : Prop := forall i o, h !! i = Some o -> id o = i.
Definition in_heap (i : Z) (c : _) (h : gmap Z (obj F)) : Prop := keyed h /\ exists o, h !! i = Some o /\ database_ o = true /\ content o = c.
Definition in_rows (i : Z) (c : _) (d : D) : Prop := exists r, find_entry i d = Some r /\ content r = c.

Lemma keyed_set h o : keyed h -> keyed (<[id o := o]> h).
Proof. intros Hk j x. rewrite lookup_insert. case_decide as Hj; [by intros [= <-]|apply Hk]. Qed.

Lemma in_heap_set i c h o : in_heap i c h -> (id o = i -> database_ o = true /\ content o = c) -> in_heap i c (<[id o := o]> h).
Proof.
  intros (Hk & x & Hx & Hb & Hc) Ho. split; [by apply keyed_set|].
  destruct (decide (id o = i)) as [<-|Hne]; [exists o; rewrite lookup_insert_eq; naive_solver|].
  exists x. by rewrite lookup_insert_ne.
Qed.

(** Code in a transaction that keeps what an entry says, as an object and as a
    row, and returns what satisfies [Q]. *)
Definition keeps (i : Z) (c : _) {A} (m : io sys A) (Q : A -> Prop) : Prop := forall s t b d,
  current s = Some t -> view s t = Some (b, d) -> in_heap i c s.1 -> in_rows i c d ->
  match m s with
  | (s', Ret a) => current s' = Some t /\ (exists d', view s' t = Some (b, d') /\ in_rows i c d') /\ in_heap i c s'.1 /\ Q a
  | (s', Throw _) => in_heap i c s'.1
  | (_, Fault _) => True
  end.

Lemma audit_bind i c {A B} (m : io sys A) (k : A -> io sys B) P Q :
  keeps i c m P -> (forall a, P a -> keeps i c (k a) Q) -> keeps i c (m ≫= k) Q.
Proof.
  intros Hm Hk s t b d Hc Hv Hh Hr. specialize (Hm s t b d Hc Hv Hh Hr). unfold mbind, io_bind.
  destruct (m s) as [s1 [a|e|f]]; [|done..]. destruct Hm as (Hc1 & (d1 & Hv1 & Hr1) & Hh1 & Ha).
  exact (Hk a Ha s1 t b d1 Hc1 Hv1 Hh1 Hr1).
Qed.

Lemma audit_pure i c {A} (r : outcome A) : keeps i c (pure r) (fun a => r = Ret a).
Proof. intros s t b d Hc Hv Hh Hr. unfold pure. destruct r; [split_and!; by eauto|done..]. Qed.

Lemma audit_ret i c {A} (a : A) (Q : A -> Prop) : Q a -> keeps i c (mret a) Q.
Proof. intros Ha s t b d Hc Hv Hh Hr. split_and!; by eauto. Qed.

Lemma keeps_weaken i c {A} (m : io sys A) (P Q : A -> Prop) : keeps i c m P -> (forall a, P a -> Q a) -> keeps i c m Q.
Proof.
  intros Hm HPQ s t b d Hc Hv Hh Hr. specialize (Hm s t b d Hc Hv Hh Hr). destruct (m s) as [s1 [a|e|f]]; naive_solver.
Qed.

(** What [object] reads. *)
Lemma keeps_object i c j : keeps i c (object j) (fun o => id o = j /\ (j = i -> database_ o = true /\ content o = c)).
Proof.
  intros s t b d Hc Hv Hh Hr. unfold object. destruct (s.1 !! j) as [o|] eqn:Ej; [|done].
  split_and!; [done|by eauto|done|..]; destruct Hh as (Hk & x & Hx & Hb & Hcx); [by apply Hk|intros ->; naive_solver].
Qed.

Lemma keeps_set i c o : (id o = i -> database_ o = true /\ content o = c) -> keeps i c (set_object o) (fun _ => True).
Proof. intros Ho s t b d Hc Hv Hh Hr. split_and!; [done|by eauto|by apply in_heap_set|done]. Qed.

(** A statement leaves the objects alone. *)
Lemma statement_run {A} (q : D -> outcome (D * A)) (s : sys) t b d : current s = Some t -> view s t = Some (b, d) ->
  exists s' r d', statement q s = (s', r) /\ s'.1 = s.1 /\ current s' = Some t /\ view s' t = Some (b, d') /\
    committed s' = committed s /\
    ((exists a, r = Ret a /\ q d = Ret (d', a)) \/
     (exists e, r = Throw e /\ (q d = Throw e \/ is_odb e = true)) \/ (exists f, r = Fault f /\ q d = Fault f)).
Proof.
  intros Hc Hv. destruct s as [h w]. destruct (statement_current A q w t b d Hc Hv) as (w' & r & d' & Hs & Hv' & _ & Hd & Hc' & _ & Hr).
  exists (h, w'), r, d'. cbn. unfold beside. cbn. rewrite Hs. by split_and!.
Qed.

Lemma keeps_statement i c {A} (q : D -> outcome (D * A)) (Q : A -> Prop) :
  (forall d d' a, in_rows i c d -> q d = Ret (d', a) -> in_rows i c d' /\ Q a) -> keeps i c (statement q) Q.
Proof.
  intros Hq s t b d Hc Hv Hh Hr. destruct (statement_run q s t b d Hc Hv) as (s' & r & d' & -> & Hs & Hc' & Hv' & _ & Hres).
  destruct Hres as [(a & -> & Hqd)|[(e & -> & _)|(f & -> & _)]]; [|by rewrite Hs|done].
  destruct (Hq d d' a Hr Hqd). rewrite Hs. split_and!; by eauto.
Qed.

Lemma keeps_update i c o : (id o = i -> database_ o = true /\ content o = c) ->
  keeps i c (statement (update_entry o))
    (fun o' => id o' = id o /\ parent o' = parent o /\ (id o' = i -> database_ o' = true /\ content o' = c)).
Proof.
  intros Ho. apply keeps_statement. intros d d' o' (r & Hr & Hcr) Hu. destruct (update_row o d d' o' Hu) as (_ & -> & Hf).
  split; [|by split_and!]. unfold in_rows. rewrite Hf. case_decide as Hi; [|by eauto].
  eexists. split; [done|]. destruct (Ho (eq_sym Hi)) as [_ <-]. done.
Qed.

Lemma keeps_persist_statement i c o : keeps i c (statement (persist_entry o))
  (fun o' => id o' <> i /\ parent o' = parent o).
Proof.
  apply keeps_statement. intros d d' o' (r & Hr & Hcr) Hp. destruct (persist_row o d d' o' Hp) as (_ & Hnew & Ho' & Hf).
  assert (Hne : id o' <> i) by (intros <-; congruence). split; [|split; [done|by rewrite Ho']].
  unfold in_rows. rewrite Hf, decide_False by congruence. by eauto.
Qed.

Lemma keeps_callback i c (update : Z -> io sys unit) o : (forall p, keeps i c (update p) (fun _ => True)) ->
  keeps i c (odb_callback update o) (fun _ => True).
Proof.
  intros Hu s t b d Hc Hv Hh Hr. unfold odb_callback. destruct (parent o) as [p|]; [|by split_and!; eauto].
  destruct (s.1 !! p) as [po|]; [|by split_and!; eauto].
  exact (audit_bind i c _ _ _ _ (audit_pure i c _) (fun _ _ => Hu p) s t b d Hc Hv Hh Hr).
Qed.

Lemma keeps_db_update i c fuel j : keeps i c (db_update fuel j) (fun _ => True).
Proof.
  revert j. induction fuel as [|fuel IH]; intros j; [by intros s|]. cbn [db_update].
  eapply audit_bind; [apply keeps_object|]. cbn beta. intros o (Hj & Ho).
  eapply audit_bind; [apply keeps_update; intros <-; by apply Ho|]. cbn beta. intros o' (Hi & _ & Ho').
  eapply audit_bind; [by apply keeps_set|]. intros _ _. by apply keeps_callback.
Qed.

Lemma keeps_update_object i c j : keeps i c (update j) (fun _ => True).
Proof. intros s. exact (keeps_db_update i c (S (size s.1)) j s). Qed.

Lemma keeps_persist i c o : keeps i c (persist o) (fun j => j <> i).
Proof.
  eapply audit_bind; [apply keeps_persist_statement|]. cbn beta. intros o' (Hne & _).
  eapply audit_bind; [by apply keeps_set|]. intros _ _.
  eapply audit_bind; [apply keeps_callback, keeps_update_object|]. intros _ _. by apply audit_ret.
Qed.

Lemma keeps_set_parent i c j p : j <> i -> keeps i c (set_parent j p) (fun _ => True).
Proof.
  intros Hj. eapply audit_bind; [apply keeps_object|]. cbn beta. intros o (Hoj & _).
  eapply audit_bind; [apply audit_pure|]. intros _ _.
  eapply audit_bind; [apply keeps_object|]. cbn beta. intros po (Hp & Hpo).
  eapply audit_bind; [apply audit_pure|]. intros [parent' e'] Hs. unfold AuditEntry.set_parent in Hs.
  apply bind_Ret in Hs as (_ & _ & (_ & _ & (_ & _ & [= <- <-])%bind_Ret)%bind_Ret).
  eapply audit_bind; [apply keeps_set|].
  - intros Hi. change (AuditEntry.id_ (entry po)) with (id po) in Hi. cbn in Hi. 
    assert (Hpi : p = i) by (unfold id in *; cbn in *; congruence). destruct (Hpo Hpi) as [Hb <-]. done.
  - intros _ _. apply keeps_set. intros Hi. exfalso. apply Hj. unfold id in *. cbn in *. congruence.
Qed.

(** Creating an event does not change what another entry says, its parent's
    included. *)
Lemma keeps_create i c d p : keeps i c (create d p) (fun _ => True).
Proof.
  intros s t b d0 Hc Hv Hh Hr. unfold create. rewrite (optional_inside _ s t Hc).
  destruct (begin_same s) as (_ & Hcb & Hvb). rewrite <- Hcb in Hc. rewrite <- Hvb in Hv. revert Hc Hv Hh Hr.
  change (s.1) with ((begin s).1). generalize (begin s). clear s Hcb Hvb. intros s.
  revert s t b d0. change (keeps i c (j ← persist (fresh d true);
    _ ← match p with Some p => set_parent j p | None => mret tt end; _ ← update j; mret j) (fun _ => True)).
  eapply audit_bind; [apply keeps_persist|]. cbn beta. intros j Hj.
  eapply audit_bind with (P := fun _ => True); [destruct p; [by apply keeps_set_parent|by apply audit_ret]|]. intros _ _.
  eapply audit_bind; [apply keeps_update_object|]. intros _ _. by apply audit_ret.
Qed.

(** ** Lemmas: what stays inside the transaction *)

Lemma stays_callback (update : Z -> io sys unit) o : (forall p, stays_leaking (update p)) -> stays_leaking (odb_callback update o).
Proof.
  intros Hu s t b d Hc Hv. unfold odb_callback. destruct (parent o) as [p|]; [|by apply (stays_leaks _ (stays_ret tt) s t b d)].
  destruct (s.1 !! p) as [po|]; [|by apply (stays_leaks _ (stays_ret tt) s t b d)].
  exact (stays_bind _ _ (stays_leaks _ (stays_pure _)) (fun _ => Hu p) s t b d Hc Hv).
Qed.

Lemma stays_db_update fuel j : stays_leaking (db_update fuel j).
Proof.
  revert j. induction fuel as [|fuel IH]; intros j; [apply stays_leaks, stays_pure|]. cbn [db_update].
  apply stays_bind; [by apply local_stays|intros o]. apply stays_bind; [apply stays_leaks, stays_statement|intros o'].
  apply stays_bind; [by apply local_stays|intros _]. by apply stays_callback.
Qed.

Lemma stays_update j : stays_leaking (update j).
Proof. intros s. exact (stays_db_update (S (size s.1)) j s). Qed.

Lemma stays_persist o : stays_leaking (persist o).
Proof.
  apply stays_bind; [apply stays_leaks, stays_statement|intros o']. apply stays_bind; [by apply local_stays|intros _].
  apply stays_bind; [apply stays_callback, stays_update|intros _]. by apply local_stays.
Qed.

Lemma stays_create d p : stays_leaking (create d p).
Proof.
  apply stays_optional. apply stays_bind; [apply stays_persist|intros j].
  apply stays_bind; [destruct p; [apply local_stays, local_set_parent|by apply local_stays]|intros _].
  apply stays_bind; [apply stays_update|intros _]. by apply local_stays.
Qed.

(** ** Lemmas: the blocks of a request *)

Lemma opening_objects (s v s0 : sys) t : opening s v -> construct v = (s0, Ret t) -> s0.1 = s.1.
Proof.
  intros Ho Hk. assert (Hv : v.1 = s.1) by (destruct Ho as [->| ->]; done). rewrite <- Hv. revert Hk. cbn. unfold beside.
  destruct (construct v.2) as [w [x|e|f]]; [intros [= <- _]; done|done..].
Qed.
Lemma leaves_objects t (s1 s' : sys) : leaves t s1 s' -> s'.1 = s1.1.
Proof.
  intros (s2 & Hcommit & Hend). assert (Hs2 : s2.1 = s1.1).
  { destruct Hcommit as [->| ->]; [done|]. cbn. unfold beside. by destruct (commit_tx t s1.2). }
  destruct Hend as [->|[c ->]]; cbn; exact Hs2.
Qed.

(** What a block that returned ran, between the objects it found and left. *)
Lemma block_ran {A} (m : io sys A) (s s' : sys) a : committed_block m s (s', Ret a) -> exists s0 t s1,
  s0.1 = s.1 /\ current s0 = Some t /\ view s0 t = Some (committed s, committed s) /\ m s0 = (s1, Ret a) /\
  view s1 t = Some (committed s, committed s') /\ s'.1 = s1.1.
Proof.
  intros (_ & [(v & s0 & t & s1 & d & r & Ho & Hk & Hc & Hv & _ & Hm & Hv1 & Hl & [-> Hd])|(v & s0 & e & _ & _ & [=] & _)]).
  exists s0, t, s1. cbn in Hd, Hl. subst d. split_and!; try done; [by eapply opening_objects|by eapply leaves_objects].
Qed.

Lemma plain_ran {A} (m : io sys A) (s s' : sys) a : stays_leaking m -> current s = None -> optional m s = (s', Ret a) ->
  committed_block m s (s', Ret a) /\ current s' = None.
Proof. intros Hm Hc Hr. pose proof (optional_transaction m s Hm) as Hb. rewrite Hc, Hr in Hb. exact Hb. Qed.

Lemma multiplexed_ran {A} (m : io sys A) (s s' : sys) a : stays_leaking m -> multiplexed m s = (s', Ret a) ->
  committed_block m s (s', Ret a) /\ current s' = current s.
Proof.
  intros Hm Hr. pose proof (multiplexed_transaction m s Hm) as Hb. rewrite Hr in Hb.
  destruct Hb as (Hb & [Hc|(e & s0 & _ & [=])]). done.
Qed.

(** Writing an entry that has no parent: its row is what the object says, and no
    other row changes. *)
Lemma update_root i c (s s' : sys) t b d : current s = Some t -> view s t = Some (b, d) -> in_heap i c s.1 -> c.1.2 = None ->
  update i s = (s', Ret tt) ->
  in_heap i c s'.1 /\ exists d', view s' t = Some (b, d') /\ in_rows i c d' /\ forall j, j <> i -> find_entry j d' = find_entry j d.
Proof.
  intros Hc Hv (Hk & o & Ho & Hb & Hco) Hp. unfold update. cbn [db_update]. unfold mbind, io_bind. unfold object. rewrite Ho.
  destruct (statement_run (update_entry o) s t b d Hc Hv) as (s1 & r & d' & Hs & Hs1 & Hc1 & Hv1 & _ & Hres). rewrite Hs.
  destruct Hres as [(o' & -> & Hu)|[(e & -> & _)|(f & -> & _)]]; [|done..].
  destruct (update_row o d d' o' Hu) as (_ & Ho' & Hf). pose proof (Hk i o Ho) as Hid.
  assert (Hpo : parent o' = None) by (rewrite Ho'; rewrite <- Hco in Hp; exact Hp).
  unfold set_object at 1, odb_callback. rewrite Hpo. intros [= <-]. cbn [fst]. rewrite Hs1.
  assert (Hid' : id o' = i) by (rewrite Ho'; exact Hid).
  assert (Hco' : content o' = c) by (rewrite Ho'; exact Hco).
  split; [apply in_heap_set; [split; by eauto|]|].
  - intros _. split; [by rewrite Ho'|done].
  - exists d'. split; [exact Hv1|]. split.
    + exists o'. rewrite Hf, decide_True by done. done.
    + intros j Hj. rewrite Hf, decide_False; congruence.
Qed.

(** Work on one object. *)
Lemma modify_run i c c' f (s s' : sys) a : in_heap i c s.1 ->
  (forall o o', content o = c -> f o = Ret o' -> content o' = c' /\ id o' = id o /\ database_ o' = database_ o) ->
  modify i f s = (s', Ret a) -> in_heap i c' s'.1 /\ s'.2 = s.2.
Proof.
  intros (Hk & o & Ho & Hb & Hco) Hf. unfold modify. unfold mbind, io_bind, object, pure. rewrite Ho.
  destruct (f o) as [o'|e|g] eqn:Eo; [|done..]. intros [= <- _]. destruct (Hf o o' Hco Eo) as (Hc' & Hi & Hb').
  cbn. split; [|done]. pose proof (Hk i o Ho) as Hid. split; [by apply keyed_set|].
  exists o'. rewrite <- Hid, <- Hi, lookup_insert_eq. by rewrite Hb'.
Qed.

Lemma edit_run i a m p x f (s s' : sys) fin u : in_heap i (a, m, fin, p, x) s.1 -> edit i f s = (s', Ret u) ->
  fin = false /\ in_heap i (a, m, fin, p, f x) s'.1 /\ s'.2 = s.2.
Proof.
  intros Hh Hr. destruct fin.
  - exfalso. destruct Hh as (Hk & o & Ho & _ & Hco). revert Hr. unfold edit, modify. unfold mbind at 1, io_bind, object. rewrite Ho.
    unfold mbind at 1, io_bind, pure. unfold content in Hco. injection Hco as _ _ -> _ _. done.
  - split; [done|]. refine (modify_run i _ _ _ s s' u Hh _ Hr).
    intros o o' Hco (? & _ & [= <-])%bind_Ret. unfold content in *. injection Hco as <- <- <- <- <-. done.
Qed.

Lemma io_run {A B} (m : io sys A) (k : A -> io sys B) (s s' : sys) b :
  (m ≫= k) s = (s', Ret b) -> exists s1 a, m s = (s1, Ret a) /\ k a s1 = (s', Ret b).
Proof. unfold mbind, io_bind. destruct (m s) as [s1 [a|e|f]]; [by eauto|done..]. Qed.

(** The entry of a request that is not finalized: who made it, from where and
    with what is settled, the rest is free. *)
Definition pending (user : option Z) (endpoint payload : string) (c : _) : Prop :=
  exists m u code str n, c = (user, mask_of WSAPI_CALL, false, @None Z, WSAPICall m u code str endpoint payload "" n).
(** The entry once the reply is known. *)
Definition final (user : option Z) (endpoint payload : string) (msg : WSServerAudit.ServerMessage) (c : _) : Prop :=
  exists n, c = (user, mask_of WSAPI_CALL, true, @None Z,
    WSAPICall (WSServerAudit.type msg) (WSServerAudit.uuid msg) (WSServerAudit.status_code msg)
      (WSServerAudit.status_string msg) endpoint payload "" n).

(** [reload] leaves the object as it was or as its row is. *)
Lemma reload_run i co cr (s s' : sys) t b d u : current s = Some t -> view s t = Some (b, d) ->
  in_heap i co s.1 -> in_rows i cr d -> reload i s = (s', Ret u) ->
  current s' = Some t /\ view s' t = Some (b, d) /\ (in_heap i co s'.1 \/ in_heap i cr s'.1).
Proof.
  intros Hc Hv (Hk & o & Ho & Hb & Hco) (r & Hr & Hcr). unfold reload.
  intros (s1 & [] & R1 & (s2 & o2 & R2 & (s3 & [] & R3 & (s4 & o4 & R4 & R5)%io_run)%io_run)%io_run)%io_run.
  unfold in_transaction in R1. injection R1 as <- _. unfold object in R2. rewrite Ho in R2. injection R2 as <- <-.
  unfold pure in R3. injection R3 as <- _.
  destruct (statement_run (fun d => o ← reload_entry o d; Ret (d, o)) s t b d Hc Hv) as
    (s5 & res & d' & Hs & Hs1 & Hc1 & Hv1 & _ & Hres). rewrite Hs in R4. injection R4 as -> ->.
  pose proof (Hk i o Ho) as Hid.
  destruct Hres as [(a & [= <-] & Hq)|[(e & [=] & _)|(f & [=] & _)]]. rewrite (reload_row o d r) in Hq by by rewrite Hid.
  rewrite ret_bind in Hq. injection Hq as <- <-. unfold set_object in R5. injection R5 as <- _. cbn [fst snd]. rewrite Hs1.
  split; [exact Hc1|split; [exact Hv1|]]. pose proof (find_id i d r Hr) as Hir.
  destruct (version_ r =? version_ o); [left|right]; (split; [by apply keyed_set|]).
  - exists o. by rewrite Hid, lookup_insert_eq.
  - exists (with_database (database_ o) r). change (id (with_database (database_ o) r)) with (id r).
    by rewrite Hir, lookup_insert_eq.
Qed.

Lemma finalize_run i c elapsed (s s' : sys) t b d u : current s = Some t -> view s t = Some (b, d) ->
  in_heap i c s.1 -> c.1.1.2 = false -> c.1.2 = None -> finalize elapsed i s = (s', Ret u) ->
  exists d', view s' t = Some (b, d') /\ in_rows i (c.1.1.1, true, c.1.2, c.2) d' /\ forall j, j <> i -> find_entry j d' = find_entry j d.
Proof.
  intros Hc Hv (Hk & o & Ho & Hb & Hco) Hf Hp. unfold finalize.
  intros (s1 & [] & R1 & (s2 & o2 & R2 & R3)%io_run)%io_run.
  unfold in_transaction in R1. injection R1 as <- _. unfold object in R2. rewrite Ho in R2. injection R2 as <- <-.
  assert (Hnf : finalized o = false) by (rewrite <- Hco in Hf; exact Hf). rewrite Hnf in R3.
  destruct (io_run _ _ _ _ _ R3) as (s3 & [] & R4 & (s4 & [] & R5 & R6)%io_run). unfold pure in R4. injection R4 as <- _.
  set (o' := with_entry (AuditEntry.finalize elapsed (entry o)) o) in *. unfold set_object in R5. injection R5 as <-.
  assert (Hid : id o' = i). { rewrite <- (Hk i o Ho). unfold o', id, with_entry, AuditEntry.finalize. cbn. by destruct (AuditEntry.finalized_ (entry o)). }
  assert (Hco' : content o' = (c.1.1.1, true, c.1.2, c.2)).
  { rewrite <- Hco. unfold o', content, with_entry, AuditEntry.finalize, finalized, parent in *. cbn in *. by rewrite Hnf. }
  destruct u. assert (Hh' : in_heap i (content o') (<[id o' := o']> s.1)).
  { split; [by apply keyed_set|]. exists o'. by rewrite Hid, lookup_insert_eq. }
  destruct (update_root i (content o') (<[id o' := o']> s.1, s.2) s' t b d Hc Hv Hh' ltac:(by rewrite Hco') R6) as (_ & d' & Hv' & Hr' & Hother).
  exists d'. rewrite <- Hco'. done.
Qed.

Lemma final_values_run i co cr elapsed msg user endpoint payload (s s' : sys) t b d u :
  current s = Some t -> view s t = Some (b, d) -> in_heap i co s.1 -> in_rows i cr d ->
  pending user endpoint payload co -> pending user endpoint payload cr ->
  WSServerAudit.final_values elapsed i msg s = (s', Ret u) ->
  exists d' c, view s' t = Some (b, d') /\ in_rows i c d' /\ final user endpoint payload msg c /\
    forall j, j <> i -> find_entry j d' = find_entry j d.
Proof.
  intros Hc Hv Hh Hr Hpo Hpr. unfold WSServerAudit.final_values.
  intros (s1 & u1 & R1 & (s2 & u2 & R2 & (s3 & u3 & R3 & (s4 & u4 & R4 & (s5 & u5 & R5 & R6)%io_run)%io_run)%io_run)%io_run)%io_run.
  destruct (reload_run i co cr s s1 t b d u1 Hc Hv Hh Hr R1) as (Hc1 & Hv1 & Hh1).
  assert (Hx : exists c, pending user endpoint payload c /\ in_heap i c s1.1) by (destruct Hh1; by eauto).
  destruct Hx as (c & (m & u' & code & str & n & ->) & Hx).
  apply (edit_run _ _ _ _ _ _ _ _ _ _ Hx) in R2 as (_ & Hx2 & E2). apply (edit_run _ _ _ _ _ _ _ _ _ _ Hx2) in R3 as (_ & Hx3 & E3).
  apply (edit_run _ _ _ _ _ _ _ _ _ _ Hx3) in R4 as (_ & Hx4 & E4). apply (edit_run _ _ _ _ _ _ _ _ _ _ Hx4) in R5 as (_ & Hx5 & E5).
  assert (Es : s5.2 = s1.2) by congruence.
  assert (Hc5 : current s5 = Some t) by (change (current s5.2 = Some t); by rewrite Es).
  assert (Hv5 : view s5 t = Some (b, d)) by (change (view s5.2 t = Some (b, d)); by rewrite Es).
  destruct (finalize_run i _ elapsed s5 s' t b d u Hc5 Hv5 Hx5 eq_refl eq_refl R6) as (d' & Hv' & Hr' & Hother).
  eexists d', _. split_and!; [exact Hv'|exact Hr'| |exact Hother]. by exists n.
Qed.

Lemma stays_final_values elapsed i msg : stays_leaking (WSServerAudit.final_values elapsed i msg).
Proof.
  unfold WSServerAudit.final_values, reload, finalize.
  repeat first [apply stays_bind; [|intros ?] | apply stays_leaks, stays_statement | apply stays_update
               | apply local_stays, local_modify | by apply local_stays].
  destruct (finalized _); [by apply local_stays|].
  repeat first [apply stays_bind; [|intros ?] | apply stays_update | by apply local_stays].
Qed.

(** A request's entry as it is created. *)
Definition new_call : option Z * F * bool * option Z * details :=
  (None, fs_empty, false, None, WSAPICall "" "" 0x0A "" "" "" "" 0).

Lemma create_call (s s' : sys) i : keyed s.1 -> Factory.WSAPICall true s = (s', Ret i) ->
  current s' = current s /\ in_heap i new_call s'.1 /\ in_rows i new_call (committed s') /\
  find_entry i (committed s) = None /\ forall j, j <> i -> find_entry j (committed s') = find_entry j (committed s).
Proof.
  intros Hk. unfold Factory.WSAPICall.
  intros (s1 & [] & R1 & (s2 & i' & R2 & (s3 & [] & R3 & R4)%io_run)%io_run)%io_run.
  unfold pure in R1. injection R1 as <-. injection R4 as -> ->.
  destruct (multiplexed_ran _ _ _ _ (stays_persist _) R2) as [Hb Hcur].
  destruct (block_ran _ _ _ _ Hb) as (s0 & t & s4 & Hs0 & Hc0 & Hv0 & Rm & Hv4 & Hs2).
  destruct (io_run _ _ _ _ _ Rm) as (s5 & o' & R5 & (s6 & [] & R6 & (s7 & [] & R7 & R8)%io_run)%io_run).
  destruct (statement_run (persist_entry (fresh (WSAPICall "" "" 0x0A "" "" "" "" 0) false)) s0 t _ _ Hc0 Hv0) as (s8 & r & d' & Hs & Hs8 & Hc8 & Hv8 & _ & Hres).
  rewrite Hs in R5. injection R5 as -> ->. destruct Hres as [(a & [= <-] & Hp)|[(e & [=] & _)|(f & [=] & _)]].
  destruct (persist_row _ _ _ _ Hp) as (Hnz & Hnew & Ho' & Hf).
  unfold set_object in R6. injection R6 as <-.
  assert (Hpo : parent o' = None) by by rewrite Ho'. unfold odb_callback in R7. rewrite Hpo in R7. injection R7 as <-.
  injection R8 as <- <-. cbn in Hs2, Hv4. change (view s5 t = Some (committed s, committed s2)) in Hv4.
  rewrite Hv8 in Hv4. injection Hv4 as ->.
  assert (Hco : content o' = new_call) by by rewrite Ho'.
  assert (Hh2 : keyed s2.1 /\ s2.1 !! id o' = Some o').
  { rewrite Hs2, Hs8, Hs0. split; [by apply keyed_set|by rewrite lookup_insert_eq]. }
  destruct Hh2 as [Hk2 Hl2].
  assert (Hmod : in_heap (id o') new_call s'.1 /\ s'.2 = s2.2).
  { revert R3. unfold modify. unfold mbind, io_bind, object, pure. rewrite Hl2. intros [= <-]. cbn. split; [|done].
    split; [by apply (keyed_set _ (with_database true o'))|]. exists (with_database true o').
    change (id (with_database true o')) with (id o'). by rewrite lookup_insert_eq. }
  destruct Hmod as [Hh E]. change (current s') with (current s'.2). change (committed s') with (committed s'.2). rewrite E.
  split_and!; [exact Hcur|exact Hh| |exact Hnew|].
  - exists o'. split; [|done]. change (committed s2.2) with (committed s2). by rewrite Hf, decide_True.
  - intros j Hj. change (committed s2.2) with (committed s2). by rewrite Hf, decide_False.
Qed.

(** A handler that, between its transactions, keeps what an entry says. *)
Definition quiet (handler : Z -> io sys (option WSServerAudit.ServerMessage)) : Prop :=
  (forall i s s' e, handler i s <> (s', Throw e)) /\
  forall i c s s' msg, current s = None -> in_heap i c s.1 -> in_rows i c (committed s) -> handler i s = (s', Ret msg) ->
    current s' = None /\ in_heap i c s'.1 /\ in_rows i c (committed s').

(** A step of writing, up to the parent. *)
Lemma db_update_run fuel i o (s s' : sys) t b d u : current s = Some t -> view s t = Some (b, d) -> s.1 !! i = Some o ->
  db_update fuel i s = (s', Ret u) ->
  exists fuel' s1 o' d', fuel = S fuel' /\ update_entry o d = Ret (d', o') /\ current s1 = Some t /\ view s1 t = Some (b, d') /\
    s1.1 = <[id o' := o']> s.1 /\ odb_callback (db_update fuel') o' s1 = (s', Ret u).
Proof.
  intros Hc Hv Ho. destruct fuel as [|fuel]; [done|]. cbn [db_update]. unfold mbind at 1, io_bind at 1. unfold object. rewrite Ho.
  unfold mbind at 1, io_bind at 1.
  destruct (statement_run (update_entry o) s t b d Hc Hv) as (s1 & r & d' & Hs & Hs1 & Hc1 & Hv1 & _ & Hres). rewrite Hs.
  destruct Hres as [(o' & -> & Hu)|[(e & -> & _)|(f & -> & _)]]; [|done..].
  unfold mbind, io_bind, set_object. rewrite Hs1. intros Hrun. exists fuel, (<[id o' := o']> s.1, s1.2), o', d'. by split_and!.
Qed.

Lemma set_parent_run i p o po (s s' : sys) u : s.1 !! i = Some o -> s.1 !! p = Some po -> keyed s.1 ->
  set_parent i p s = (s', Ret u) -> exists o' po',
  s'.2 = s.2 /\ s'.1 = <[i := o']> (<[p := po']> s.1) /\ id o' = i /\ id po' = p /\
  content po' = content po /\ children po' = children po ++ [i] /\
  details_ o' = details_ o /\ finalized o' = finalized o /\ parent o' = Some p /\
  AuditEntry.author_ (entry o') = match AuditEntry.author_ (entry o) with Some a => Some a | None => AuditEntry.author_ (entry po) end.
Proof.
  intros Ho Hpo Hk. unfold set_parent.
  intros (s1 & o1 & R1 & (s2 & [] & R2 & (s3 & po1 & R3 & (s4 & [pe e] & R4 & (s5 & [] & R5 & R6)%io_run)%io_run)%io_run)%io_run)%io_run.
  unfold object in R1, R3. rewrite Ho in R1. injection R1 as <- <-. unfold pure in R2, R4. injection R2 as <- _.
  rewrite Hpo in R3. injection R3 as <- <-. injection R4 as <- R4.
  unfold AuditEntry.set_parent in R4. apply bind_Ret in R4 as (_ & _ & (_ & _ & (_ & _ & [= Epe Ee])%bind_Ret)%bind_Ret).
  unfold set_object in R5, R6. injection R5 as <-. injection R6 as <- _. pose proof (Hk i o Ho) as Hi. pose proof (Hk p po Hpo) as Hp.
  exists (with_entry e o), (with_entry pe po). cbn [fst snd].
  assert (Hi' : id (with_entry e o) = i) by (rewrite <- Ee; exact Hi).
  assert (Hp' : id (with_entry pe po) = p) by (rewrite <- Epe; exact Hp).
  rewrite Hi', Hp'. subst pe e. split_and!; try done; unfold parent, children, id in *; cbn; by rewrite ?Hi, ?Hp.
Qed.

(** ** Lemmas: lines of parents *)

(** The line of an entry: itself, its parent, and so on to an entry that has no
    parent or whose parent is gone. *)
Inductive lineage (h : gmap Z (obj F)) : Z -> list Z -> Prop :=
  | lineage_root i o : h !! i = Some o -> parent o ≫= (fun p => h !! p) = None -> lineage h i [i]
  | lineage_step i o p po l : h !! i = Some o -> parent o = Some p -> h !! p = Some po -> lineage h p l -> lineage h i (i :: l).

Lemma lineage_det h i l l' : lineage h i l -> lineage h i l' -> l = l'.
Proof.
  intros Hl. revert l'. induction Hl as [i o Ho Hp|i o p po l Ho Hp Hpo Hl IH]; intros l' Hl'.
  - destruct Hl' as [|i o' p po l' Ho' Hp' Hpo' _]; [done|]. rewrite Ho in Ho'. injection Ho' as <-.
    rewrite Hp' in Hp. cbn in Hp. congruence.
  - destruct Hl' as [i o' Ho' Hp'|i o' p' po' l' Ho' Hp' Hpo' Hl'].
    + rewrite Ho in Ho'. injection Ho' as <-. rewrite Hp in Hp'. cbn in Hp'. congruence.
    + rewrite Ho in Ho'. injection Ho' as <-. rewrite Hp in Hp'. injection Hp' as <-. by rewrite (IH l').
Qed.

Lemma lineage_member h i l j : lineage h i l -> j ∈ l -> exists l', lineage h j l' /\ (length l' <= length l)%nat.
Proof.
  intros Hl. induction Hl as [i o Ho Hp|i o p po l Ho Hp Hpo Hl IH]; intros Hj.
  - apply list_elem_of_singleton in Hj as ->. exists [i]. split; [by eapply lineage_root|done].
  - apply elem_of_cons in Hj as [->|Hj]; [exists (i :: l); split; [by eapply lineage_step|done]|].
    destruct (IH Hj) as (l' & Hl' & Hlen). exists l'. split; [done|cbn; lia].
Qed.

Lemma lineage_nodup h i l : lineage h i l -> NoDup l /\ forall j, j ∈ l -> j ∈ dom h.
Proof.
  induction 1 as [i o Ho Hp|i o p po l Ho Hp Hpo Hl [Hn Hd]].
  - split; [apply NoDup_singleton|]. intros j ->%list_elem_of_singleton. by apply elem_of_dom_2 in Ho.
  - assert (Hi : lineage h i (i :: l)) by by eapply lineage_step.
    split; [constructor; [|done]|].
    + intros Hin. destruct (lineage_member h p l i Hl Hin) as (l' & Hl' & Hlen).
      pose proof (lineage_det h i _ _ Hi Hl') as <-. cbn in Hlen. lia.
    + intros j [->|Hj]%elem_of_cons; [by apply elem_of_dom_2 in Ho|by apply Hd].
Qed.

Lemma lineage_length h i l : lineage h i l -> (length l <= size h)%nat.
Proof.
  intros Hl. destruct (lineage_nodup h i l Hl) as [Hn Hd]. rewrite <- size_dom, <- (size_list_to_set (C := gset Z) l Hn).
  apply subseteq_size. intros j Hj. apply Hd. by apply elem_of_list_to_set in Hj.
Qed.

Lemma lineage_insert h i o o' j l : h !! i = Some o -> parent o' = parent o -> lineage h j l -> lineage (<[i := o']> h) j l.
Proof.
  intros Ho Hp Hl.
  assert (Hsome : forall k x, h !! k = Some x -> exists y, <[i := o']> h !! k = Some y /\ parent y = parent x).
  { intros k x Hx. rewrite lookup_insert. case_decide as Hk; [|by eauto]. exists o'. split; [done|]. congruence. }
  assert (Hnone : forall k, h !! k = None -> <[i := o']> h !! k = None).
  { intros k Hk. rewrite lookup_insert_ne; [done|]. intros ->. congruence. }
  induction Hl as [k x Hx Hpx|k x p po l Hx Hpx Hpo Hl IH].
  - destruct (Hsome k x Hx) as (y & Hy & Hpy). eapply lineage_root; [exact Hy|]. rewrite Hpy.
    destruct (parent x) as [p|]; [|done]. cbn in *. by apply Hnone.
  - destruct (Hsome k x Hx) as (y & Hy & Hpy). destruct (Hsome p po Hpo) as (z & Hz & _).
    eapply lineage_step; [exact Hy|by rewrite Hpy|exact Hz|exact IH].
Qed.

Lemma db_update_fuel fuel i l (s s' : sys) t b d : current s = Some t -> view s t = Some (b, d) -> keyed s.1 ->
  lineage s.1 i l -> (length l <= fuel)%nat -> db_update fuel i s <> (s', Fault OutOfFuel).
Proof.
  revert i l s b d. induction fuel as [|fuel IH]; intros i l s b d Hc Hv Hk Hl Hlen; [destruct Hl; cbn in Hlen; lia|].
  cbn [db_update]. unfold mbind at 1, io_bind at 1. unfold object.
  assert (Ho : exists o, s.1 !! i = Some o) by (destruct Hl; by eauto). destruct Ho as [o Ho]. rewrite Ho.
  unfold mbind at 1, io_bind at 1.
  destruct (statement_run (update_entry o) s t b d Hc Hv) as (s1 & r & d' & Hs & Hs1 & Hc1 & Hv1 & _ & Hres). rewrite Hs.
  destruct Hres as [(o' & -> & Hu)|[(e & -> & _)|(f & -> & Hf)]]; [|done|by destruct (update_returns o d f)].
  destruct (update_row _ _ _ _ Hu) as (_ & Ho' & _). unfold mbind, io_bind, set_object, odb_callback. cbn [fst].
  assert (Hp : parent o' = parent o) by by rewrite Ho'. rewrite Hp.
  assert (Hi : id o' = i) by (rewrite Ho'; exact (Hk i o Ho)).
  destruct (parent o) as [p|] eqn:Epo; [|done]. rewrite Hs1, Hi.
  destruct (<[i := o']> s.1 !! p) as [po|] eqn:Elp; [|done].
  unfold pure. destruct (cassert _) as [u|e|f] eqn:Ec; [|done|unfold cassert in Ec; destruct (negb _); [done|injection Ec as <-; done]].
  destruct Hl as [i x Hx Hpx|i x q qo l Hx Hpx Hqo Hl].
  - exfalso. rewrite Ho in Hx. injection Hx as <-. rewrite Epo in Hpx. cbn in Hpx.
    rewrite lookup_insert in Elp. case_decide; congruence.
  - rewrite Ho in Hx. injection Hx as <-. rewrite Epo in Hpx. injection Hpx as <-.
    apply (IH p l (<[i := o']> s.1, s1.2) b d' Hc1 Hv1); [|by eapply lineage_insert; [exact Ho|congruence|]|cbn in Hlen; lia].
    rewrite <- Hi. by apply keyed_set.
Qed.

(** ** Lemmas: what can be thrown *)

(** A step that works on the objects and throws nothing. *)
Lemma local_step {A B} (m : io sys A) (k : A -> io sys B) s s' e : local m -> (forall s s' e, m s <> (s', Throw e)) ->
  (m ≫= k) s = (s', Throw e) -> exists s1 a, s1.2 = s.2 /\ k a s1 = (s', Throw e).
Proof.
  intros Hl Hm. specialize (Hl s). specialize (Hm s). unfold mbind, io_bind. destruct (m s) as [s1 [a|e'|f]]; [by eauto| |done].
  by destruct (Hm s1 e').
Qed.
Lemma modify_no_throw i f (s s' : sys) e : (forall o e, f o <> Throw e) -> modify i f s <> (s', Throw e).
Proof.
  intros Hf. unfold modify. unfold mbind, io_bind, object, pure. destruct (s.1 !! i) as [o|]; [|done].
  destruct (f o) eqn:Ef; [done| |done]. by destruct (Hf o e0).
Qed.
Lemma cassert_no_throw {A} b (k : outcome A) e : (forall e, k <> Throw e) -> (_ ← cassert b; k) <> Throw e.
Proof. intros Hk. destruct b; [apply Hk|done]. Qed.
Lemma edit_no_throw i f (s s' : sys) e : edit i f s <> (s', Throw e).
Proof. apply modify_no_throw. intros o e'. by apply cassert_no_throw. Qed.

Lemma throws_db_update fuel j t s s' b d e : current s = Some t -> view s t = Some (b, d) ->
  db_update fuel j s = (s', Throw e) -> is_odb e = true.
Proof.
  revert j s b d. induction fuel as [|fuel IH]; intros j s b d Hc Hv; [done|]. cbn [db_update]. unfold mbind, io_bind, object.
  destruct (s.1 !! j) as [o|]; [|done].
  destruct (statement_run (update_entry o) s t b d Hc Hv) as (s1 & r & d' & Hs & _ & Hc1 & Hv1 & _ & Hres). rewrite Hs.
  destruct Hres as [(o' & -> & _)|[(e' & -> & [He|He])|(f & -> & _)]]; [| |by intros [= <- <-]|done].
  - unfold set_object, odb_callback. destruct (parent o') as [p|]; [|done]. cbn [fst].
    destruct (<[id o' := o']> s1.1 !! p) as [po|]; [|done]. unfold mbind, io_bind, pure.
    destruct (cassert _) as [u|e'|f] eqn:Ea; [|unfold cassert in Ea; destruct (negb _); done|done].
    apply (IH p (<[id o' := o']> s1.1, s1.2) b d' Hc1 Hv1).
  - intros [= <- <-]. by eapply update_throws.
Qed.

Lemma throws_optional_update i s s' e : current s = None -> optional (update i) s = (s', Throw e) -> is_odb e = true.
Proof.
  intros Hc Hr. pose proof (optional_transaction _ s (stays_update i)) as Hb. rewrite Hc, Hr in Hb.
  destruct Hb as ((_ & [(v & s0 & t & s1 & d & r & _ & _ & Hc0 & Hv0 & _ & Hm & _ & _ & [Hr' _])|(v & s0 & e' & _ & _ & [= _ ->] & He & _)]) & _); [|done].
  destruct Hr' as [->|[_ He]]; [|done]. by eapply throws_db_update.
Qed.

Lemma process_throws i user endpoint payload parsed handler (s s' : sys) e :
  current s = None -> (forall e, parsed <> Throw e) -> (forall s s' e, handler i s <> (s', Throw e)) ->
  WSServerAudit.process i user endpoint payload parsed handler s = (s', Throw e) -> is_odb e = true.
Proof.
  intros Hc Hp Hh. unfold WSServerAudit.process.
  intros (s1 & ? & E1 & (s2 & ? & E2 & (s3 & ? & E3 & (s4 & ? & E4 & (s5 & [x y] & E5 & (s6 & ? & E6 & (s7 & ? & E7 & R)%local_step)%local_step)%local_step)%local_step)%local_step)%local_step)%local_step;
    try first [apply local_modify | apply local_pure | intros; apply edit_no_throw | intros; apply modify_no_throw; intros; unfold AuditEntry.event_mask; by apply cassert_no_throw
      | intros ? ? ? [= _ ?]; by eapply Hp].
  - assert (Hc7 : current s7 = None) by (change (current s7.2 = None); by rewrite E7, E6, E5, E4, E3, E2, E1).
    revert R. unfold mbind, io_bind. destruct (optional (update i) s7) as [s8 [u|e'|f]] eqn:Eo; [|intros [= <- <-]|done].
    + intros R. by destruct (Hh _ _ _ R).
    + by eapply throws_optional_update.
  - intros s0 s0' e0. apply modify_no_throw. intros o e1. unfold AuditEntry.event_mask, cassert. by destruct (negb _).
Qed.

Lemma process_run i c user endpoint payload uuid type handler (s s' : sys) resp :
  current s = None -> in_heap i c s.1 -> c.1.2 = None -> (exists m u code str e q n, c.2 = WSAPICall m u code str e q "" n) ->
  quiet handler ->
  WSServerAudit.process i user endpoint payload (Ret (uuid, type)) handler s = (s', Ret resp) ->
  exists c' s1, pending user endpoint payload c' /\ current s1 = None /\ in_heap i c' s1.1 /\ in_rows i c' (committed s1) /\
    (forall j, j <> i -> find_entry j (committed s1) = find_entry j (committed s)) /\
    handler i s1 = (s', Ret resp) /\ current s' = None /\ in_heap i c' s'.1 /\ in_rows i c' (committed s').
Proof.
  destruct c as [[[[a0 m0] f0] p0] x0]. cbn [fst snd]. intros Hc Hh -> (m & u & code & str & e & q & n & ->) Hq. unfold WSServerAudit.process.
  intros (s1 & u1 & R1 & (s2 & u2 & R2 & (s3 & u3 & R3 & (s4 & u4 & R4 & (s5 & [uu tt'] & R5 & R6)%io_run)%io_run)%io_run)%io_run)%io_run.
  unfold pure in R5. injection R5 as <- <- <-.
  destruct (io_run _ _ _ _ _ R6) as (s6 & u6 & R7 & (s7 & u7 & R8 & (s8 & [] & R9 & R10)%io_run)%io_run).
  assert (E1 : in_heap i (a0, mask_of WSAPI_CALL, false, None, WSAPICall m u code str e q "" n) s1.1 /\ s1.2 = s.2).
  { refine (modify_run _ _ _ _ _ _ _ Hh _ R1). intros o o' Hco (e' & He & [= <-])%bind_Ret.
    unfold AuditEntry.event_mask in He. apply bind_Ret in He as (? & Hfin%cassert_Ret & [= <-]).
    unfold content in *. injection Hco as <- <- Hf <- <-. apply negb_true_iff in Hfin. unfold finalized, parent, id in *. cbn. by rewrite Hfin. }
  destruct E1 as [Hh1 E1].
  assert (E2 : in_heap i (user, mask_of WSAPI_CALL, false, None, WSAPICall m u code str e q "" n) s2.1 /\ s2.2 = s1.2).
  { refine (modify_run _ _ _ _ _ _ _ Hh1 _ R2). intros o o' Hco (? & _ & [= <-])%bind_Ret.
    unfold content in *. injection Hco as _ <- <- <- <-. done. }
  destruct E2 as [Hh2 E2].
  apply (edit_run _ _ _ _ _ _ _ _ _ _ Hh2) in R3 as (_ & Hh3 & E3). apply (edit_run _ _ _ _ _ _ _ _ _ _ Hh3) in R4 as (_ & Hh4 & E4).
  apply (edit_run _ _ _ _ _ _ _ _ _ _ Hh4) in R7 as (_ & Hh6 & E6). apply (edit_run _ _ _ _ _ _ _ _ _ _ Hh6) in R8 as (_ & Hh7 & E7).
  assert (E : s7.2 = s.2) by congruence.
  assert (Hc7 : current s7 = None) by (change (current s7.2 = None); rewrite E; exact Hc).
  assert (Hd7 : committed s7 = committed s) by (change (committed s7.2 = committed s.2); by rewrite E).
  destruct (plain_ran _ _ _ _ (stays_update i) Hc7 R9) as [Hb Hc8].
  destruct (block_ran _ _ _ _ Hb) as (s0 & t & s9 & Hs0 & Hc0 & Hv0 & Rm & Hv9 & Hs8).
  rewrite <- Hs0 in Hh7. destruct (update_root i _ s0 s9 t _ _ Hc0 Hv0 Hh7 eq_refl Rm) as (Hh9 & d' & Hvd & Hr9 & Hother).
  rewrite Hv9 in Hvd. injection Hvd as <-. rewrite <- Hs8 in Hh9.
  eexists _, s8. split; [by exists type, uuid, code, str, n|]. split_and!; try done.
  - intros j Hj. by rewrite Hother, Hd7.
  - by destruct (proj2 Hq i _ s8 s' resp Hc8 Hh9 Hr9 R10) as (? & ? & ?).
  - by destruct (proj2 Hq i _ s8 s' resp Hc8 Hh9 Hr9 R10) as (? & ? & ?).
  - by destruct (proj2 Hq i _ s8 s' resp Hc8 Hh9 Hr9 R10) as (? & ? & ?).
Qed.

Section messages.
Context `{ExceptionText}.
Import WSServerAudit.

Lemma finalize_audit_run i co cr elapsed msg user endpoint payload (s s' : sys) msg' :
  in_heap i co s.1 -> in_rows i cr (committed s) -> pending user endpoint payload co -> pending user endpoint payload cr ->
  finalize_audit elapsed i msg s = (s', Ret msg') ->
  (msg' = msg /\ (exists c, in_rows i c (committed s') /\ final user endpoint payload msg c) /\
     forall j, j <> i -> find_entry j (committed s') = find_entry j (committed s)) \/
  (exists text, msg' = set_status DATABASE_ERROR text msg /\ committed s' = committed s).
Proof.
  intros Hh Hr Hpo Hpr. unfold finalize_audit.
  pose proof (multiplexed_transaction _ s (stays_final_values elapsed i msg)) as Hm.
  destruct (multiplexed (final_values elapsed i msg) s) as [s1 [u|e|f]]; [| |done].
  - intros [= <- <-]. left. destruct Hm as [Hb _].
    destruct (block_ran _ _ _ _ Hb) as (s0 & t & s2 & Hs0 & Hc0 & Hv0 & Rm & Hv2 & _). rewrite <- Hs0 in Hh.
    destruct (final_values_run i co cr elapsed msg user endpoint payload s0 s2 t _ _ u Hc0 Hv0 Hh Hr Hpo Hpr Rm) as (d' & c & Hv & Hrow & Hfin & Ho).
    rewrite Hv2 in Hv. injection Hv as <-. split; [done|split; [by eauto|done]].
  - destruct (is_odb e); [|done]. intros [= <- <-]. right. exists (what e). split; [done|].
    by eapply block_throws, Hm.
Qed.

(** What a request does, around the run of its handler. *)
Lemma on_message_run user endpoint payload uuid type operations elapsed handler (s s' : sys) out :
  current s = None -> keyed s.1 -> quiet handler ->
  on_message true user endpoint payload (Ret (uuid, type)) operations elapsed handler s = (s', Ret out) ->
  (exists text, out = Some (set_status DATABASE_ERROR text (mk_message UNKNOWN "" "" "")) /\ committed s' = committed s) \/
  exists i c s1 s2 resp, find_entry i (committed s) = None /\ pending user endpoint payload c /\
    current s1 = None /\ in_heap i c s1.1 /\ in_rows i c (committed s1) /\
    (forall j, j <> i -> find_entry j (committed s1) = find_entry j (committed s)) /\
    handler i s1 = (s2, Ret resp) /\ in_rows i c (committed s2) /\
    match resp with
    | None => out = None /\ s' = s2
    | Some msg => exists msg', out = Some msg' /\
        ((msg' = msg /\ (exists c', in_rows i c' (committed s') /\ final user endpoint payload msg c') /\
            forall j, j <> i -> find_entry j (committed s') = find_entry j (committed s2)) \/
         (exists text, msg' = set_status DATABASE_ERROR text msg /\ committed s' = committed s2))
    end.
Proof.
  intros Hc Hk Hq. unfold on_message. destruct (Factory.WSAPICall true s) as [sc [i|e|f]] eqn:Ec; [| |done]; cycle 1.
  { destruct (is_odb e); [|done]. intros [= <- <-]. left. exists (what e). split; [done|].
    revert Ec. unfold Factory.WSAPICall. unfold mbind, io_bind. cbn [pure cassert].
    pose proof (multiplexed_transaction _ s (stays_persist (fresh (WSAPICall "" "" 0x0A "" "" "" "" 0) false))) as Hm.
    destruct (multiplexed _ s) as [sm [a|e'|f]]; [|intros [= <- <-]; by eapply block_throws, Hm|done].
    unfold modify. unfold mbind, io_bind, object, pure. destruct (sm.1 !! a); done. }
  destruct (create_call s sc i Hk Ec) as (Hcc & Hhc & Hrc & Hnew & Hoc). rewrite Hc in Hcc.
  destruct (process i user endpoint payload (Ret (uuid, type)) handler sc) as [sp [resp|e|f]] eqn:Ep; [| |done]; cycle 1.
  { pose proof (process_throws i user endpoint payload (Ret (uuid, type)) handler sc sp e Hcc ltac:(done) (proj1 Hq i) Ep) as He.
    destruct e; done. }
  - destruct (process_run i new_call user endpoint payload uuid type handler sc sp resp Hcc Hhc eq_refl ltac:(by repeat eexists) Hq Ep)
      as (c & s1 & Hp & Hc1 & Hh1 & Hr1 & Ho1 & Hhand & Hc2 & Hh2 & Hr2).
    intros Ha. right. exists i, c, s1, sp, resp. split_and!; try done; [by intros j Hj; rewrite Ho1, Hoc|].
    destruct resp as [msg|]; [|injection Ha as <- <-; done].
    destruct (io_run _ _ _ _ _ Ha) as (s3 & u & R1 & (s4 & msg' & R2 & R3)%io_run). injection R3 as <- <-.
    destruct Hp as (m & u' & code & str & n & Hceq). rewrite Hceq in Hh2, Hr2.
    apply (edit_run _ _ _ _ _ _ _ _ _ _ Hh2) in R1 as (_ & Hh3 & E3).
    assert (Ed : committed s3 = committed sp) by (change (committed s3.2 = committed sp.2); by rewrite E3). rewrite <- Ed in Hr2.
    destruct (finalize_audit_run i _ _ elapsed msg user endpoint payload s3 s4 msg' Hh3 Hr2) with (3 := R2) as [(-> & Hfin & Ho)|(text & -> & Hd)].
    + by exists m, u', code, str, (operations mod 2 ^ 16).
    + by exists m, u', code, str, n.
    + exists msg. split; [done|left]. split_and!; [done|done|]. intros j Hj. by rewrite Ho, Ed.
    + eexists. split; [done|right]. exists text. by rewrite Hd, Ed.
Qed.
(** ** Properties *)

(** C21: (safety) every request the server answers leaves an entry in the log. Whatever
    the handler does with the database, in transactions of its own that commit or
    not, the entry that was opened for the request is there afterwards with the
    user, the remote end and the text of the request; it is final and has the
    method, the uuid and the status of the reply, or the reply says that the
    database failed, as it does when the entry could not be opened. A request
    that is not answered yet is logged and not final. *)
Theorem request_is_logged user endpoint payload uuid type operations elapsed handler (s s' : sys) out :
  current s = None -> keyed s.1 -> quiet handler ->
  on_message true user endpoint payload (Ret (uuid, type)) operations elapsed handler s = (s', Ret out) ->
  (exists text, out = Some (set_status DATABASE_ERROR text (mk_message UNKNOWN "" "" "")) /\ committed s' = committed s) \/
  exists i row, find_entry i (committed s) = None /\ find_entry i (committed s') = Some row /\
    match out with
    | Some msg => final user endpoint payload msg (content row) \/
        (pending user endpoint payload (content row) /\ status_code msg = DATABASE_ERROR)
    | None => pending user endpoint payload (content row)
    end.
Proof.
  intros Hc Hk Hq Hr. destruct (on_message_run _ _ _ _ _ _ _ _ _ _ _ Hc Hk Hq Hr) as
    [Hfail|(i & c & s1 & s2 & resp & Hnew & Hp & _ & _ & _ & _ & _ & (row & Hrow & <-) & Hout)]; [by left|right].
  exists i. destruct resp as [msg|]; [|destruct Hout as [-> ->]; by exists row].
  destruct Hout as (msg' & -> & [(-> & (c' & (row' & Hrow' & <-) & Hfin) & _)|(text & -> & Hd)]).
  - exists row'. split_and!; [done|done|by left].
  - exists row. rewrite Hd. split_and!; [done|done|by right].
Qed.

(** A handler that does its work in one transaction and answers an exception
    with a status, as [handle_request] does: what creates, updates and deletes groups, users, doors
    and the other resources works so. The change of a password does not: it commits the event of
    a wrong password and throws after that. *)
Definition guarded (body : Z -> io sys unit) (ok : ServerMessage) (fail : exn -> ServerMessage)
  : Z -> io sys (option ServerMessage) := fun i s =>
  match plain (body i) s with
  | (s', Ret _) => (s', Ret (Some ok))
  | (s', Throw e) => (s', Ret (Some (fail e)))
  | (s', Fault f) => (s', Fault f)
  end.

Lemma guarded_quiet body ok fail : (forall i, stays_leaking (body i)) -> (forall i c, keeps i c (body i) (fun _ => True)) ->
  quiet (guarded body ok fail).
Proof.
  intros Hs Hk. split.
  { intros i s s' e. unfold guarded. by destruct (plain (body i) s) as [s1 [u|e'|f]]. }
  intros i c s s' msg Hc Hh Hr. unfold guarded. pose proof (plain_first (body i) s (Hs i) Hc) as Hb.
  destruct (plain (body i) s) as [s1 [u|e|f]]; [..|done]; intros [= <- _]; destruct Hb as [Hb Hcur]; cbn in Hcur; (split; [exact Hcur|]).
  - destruct (block_ran _ _ _ _ Hb) as (s0 & t & s2 & Hs0 & Hc0 & Hv0 & Rm & Hv2 & Hs1). rewrite <- Hs0 in Hh.
    specialize (Hk i c s0 t _ _ Hc0 Hv0 Hh Hr). rewrite Rm in Hk. destruct Hk as (_ & (d' & Hv' & Hr') & Hh' & _).
    rewrite Hv2 in Hv'. injection Hv' as <-. by rewrite Hs1.
  - split; [|by rewrite (block_throws _ _ _ _ Hb)].
    destruct Hb as (_ & [(v & s0 & t & s2 & d & r & Ho & Hcon & Hc0 & Hv0 & _ & Rm & _ & Hl & [Hr' _])|(v & s0 & e' & Ho & Hcon & [= -> _] & _)]).
    + apply leaves_objects in Hl. cbn in Hl. rewrite Hl. rewrite <- (opening_objects _ _ _ _ Ho Hcon) in Hh.
      specialize (Hk i c s0 t _ _ Hc0 Hv0 Hh Hr). rewrite Rm in Hk.
      destruct Hr' as [->|[[a ->] _]]; [exact Hk|apply Hk].
    + assert (Hv : v.1 = s.1) by (destruct Ho as [->| ->]; done). rewrite <- Hv in Hh. revert Hcon. cbn. unfold beside.
      destruct (construct v.2) as [w r]. intros [= <- _]. exact Hh.
Qed.

(** C20: (safety) a request whose handler works in one transaction, and fails in it, takes its
    events with it and not its entry: the log has the final entry of the request with
    the status of the failure, and no other entry than before, whatever the
    handler had recorded and linked to the entry before the exception. *)
Theorem failed_request_is_logged user endpoint payload uuid type operations elapsed body ok fail (s s' : sys) msg :
  current s = None -> keyed s.1 -> (forall i, stays_leaking (body i)) -> (forall i c, keeps i c (body i) (fun _ => True)) ->
  on_message true user endpoint payload (Ret (uuid, type)) operations elapsed (guarded body ok fail) s = (s', Ret (Some msg)) ->
  status_code msg <> status_code ok -> status_code msg <> DATABASE_ERROR ->
  exists i row, find_entry i (committed s') = Some row /\ final user endpoint payload msg (content row) /\
    forall j, j <> i -> find_entry j (committed s') = find_entry j (committed s).
Proof.
  intros Hc Hk Hs Hb Hr Hmsg Hdb.
  destruct (on_message_run _ _ _ _ _ _ _ _ _ _ _ Hc Hk (guarded_quiet body ok fail Hs Hb) Hr) as
    [(text & [= ->] & _)|(i & c & s1 & s2 & resp & _ & _ & Hc1 & _ & _ & Ho1 & Hhand & _ & Hout)]; [done|].
  destruct resp as [m|]; [|by destruct Hout].
  destruct Hout as (msg' & [= <-] & [(-> & (c' & (row & Hrow & <-) & Hfin) & Ho)|(text & -> & _)]); [|done].
  exists i, row. split_and!; [done|done|]. intros j Hj. rewrite Ho, <- Ho1 by done. f_equal.
  revert Hhand. unfold guarded. pose proof (plain_first (body i) s1 (Hs i) Hc1) as Hbl.
  destruct (plain (body i) s1) as [s3 [u|e|f]]; [by intros [= _ <-]| |done]. intros [= <- _]. by eapply block_throws, Hbl.
Qed.

(** (error) with a database, every access that auth-file decides ends the program:
    the entry of the attempt is asked for without a parent, that the factory
    requires, and also without a door when the file is for the default target. *)
Theorem auth_event_aborts success elapsed credential target_name (s : sys) :
  AuthFileAudit.record success elapsed credential target_name s = (s, Fault AssertFailed).
Proof.
  unfold AuthFileAudit.record, Factory.AuthEvent. unfold mbind, io_bind, pure. cbn.
  by destruct (negb (str_empty target_name)).
Qed.

(** Were it recorded, its finalization would abort next: it is outside the
    transaction that created the entry. *)
Lemma finalize_needs_transaction elapsed i (s : sys) : current s = None -> finalize elapsed i s = (s, Fault AssertFailed).
Proof. intros Hc. unfold finalize, in_transaction. unfold mbind, io_bind. by rewrite Hc. Qed.

(** (functional) an event is recorded: under a request's entry, that has no parent,
    its row has the event, not final, the entry for parent and its author for
    author; the row of the entry has the event as its last child and says what
    it said; no other row changes. *)
Theorem event_recorded d p po (s s' : sys) t b rows j : current s = Some t -> view s t = Some (b, rows) -> keyed s.1 ->
  s.1 !! p = Some po -> parent po = None -> is_Some (find_entry p rows) ->
  create d (Some p) s = (s', Ret j) ->
  exists rows' r q, view s' t = Some (b, rows') /\ find_entry j rows = None /\
    find_entry j rows' = Some r /\ details_ r = d /\ parent r = Some p /\ finalized r = false /\
      AuditEntry.author_ (entry r) = AuditEntry.author_ (entry po) /\
    find_entry p rows' = Some q /\ children q = children po ++ [j] /\ content q = content po /\
    forall k, k <> j -> k <> p -> find_entry k rows' = find_entry k rows.
Proof.
  intros Hc Hv Hk Hpo Hroot [r0 Hr0] Hrun. unfold create in Hrun. rewrite (optional_inside _ s t Hc) in Hrun.
  destruct (begin_same s) as (_ & Hcb & Hvb). rewrite <- Hcb in Hc. rewrite <- (Hvb t) in Hv.
  change (s.1) with ((begin s).1) in Hk, Hpo. revert Hc Hv Hk Hpo Hrun. generalize (begin s). clear s Hcb Hvb. intros s Hc Hv Hk Hpo Hrun.
  destruct (io_run _ _ _ _ _ Hrun) as (s1 & j' & R1 & (s2 & [] & R2 & (s3 & [] & R3 & R4)%io_run)%io_run). injection R4 as <- <-.
  destruct (io_run _ _ _ _ _ R1) as (s4 & o & R5 & (s5 & [] & R6 & (s6 & [] & R7 & R8)%io_run)%io_run).
  destruct (statement_run (persist_entry (fresh d true)) s t b rows Hc Hv) as (s7 & r & d1 & Hs & Hs7 & Hc7 & Hv7 & _ & Hres).
  rewrite Hs in R5. injection R5 as -> ->. destruct Hres as [(a & [= <-] & Hp)|[(e & [=] & _)|(f & [=] & _)]].
  destruct (persist_row _ _ _ _ Hp) as (Hnz & Hnew & Ho & Hf1). unfold set_object in R6. injection R6 as <-.
  assert (Hpar : parent o = None) by by rewrite Ho. unfold odb_callback in R7. rewrite Hpar in R7. injection R7 as <-. injection R8 as <- <-.
  assert (Hne : id o <> p) by (intros E; rewrite E in Hnew; congruence).
  assert (Hk4 : keyed (<[id o := o]> s4.1)) by (apply keyed_set; by rewrite Hs7).
  assert (Hl4 : <[id o := o]> s4.1 !! p = Some po) by (rewrite lookup_insert_ne, Hs7; done).
  destruct (set_parent_run (id o) p o po (<[id o := o]> s4.1, s4.2) s2 tt ltac:(by cbn; rewrite lookup_insert_eq) Hl4 Hk4 R2)
    as (o2 & po2 & E2 & Hh2 & Hi2 & Hip2 & Hcp & Hch & Hdet & Hfin & Hpar2 & Hau).
  assert (Hc2 : current s2 = Some t) by (change (current s2.2 = Some t); rewrite E2; exact Hc7).
  assert (Hv2 : view s2 t = Some (b, d1)) by (change (view s2.2 t = Some (b, d1)); rewrite E2; exact Hv7).
  unfold update in R3. destruct (db_update_run _ (id o) o2 s2 s3 t b d1 tt Hc2 Hv2 ltac:(by rewrite Hh2, lookup_insert_eq) R3)
    as (fuel & s8 & o3 & d2 & _ & Hu1 & Hc8 & Hv8 & Hh8 & Hcb).
  destruct (update_row _ _ _ _ Hu1) as (_ & Ho3 & Hf2).
  assert (Hi3 : id o3 = id o) by (rewrite Ho3; exact Hi2). assert (Hp3 : parent o3 = Some p) by (rewrite Ho3; exact Hpar2).
  assert (Hl8 : s8.1 !! p = Some po2).
  { rewrite Hh8, Hi3, lookup_insert_ne, Hh2, lookup_insert_ne, lookup_insert_eq; done. }
  unfold odb_callback in Hcb. rewrite Hp3, Hl8 in Hcb. destruct (io_run _ _ _ _ _ Hcb) as (s9 & [] & R9 & R10).
  unfold pure in R9. injection R9 as <- _.
  destruct (db_update_run _ p po2 s8 s3 t b d2 tt Hc8 Hv8 Hl8 R10) as (fuel' & s10 & o4 & d3 & _ & Hu2 & Hc10 & Hv10 & _ & Hcb').
  destruct (update_row _ _ _ _ Hu2) as (_ & Ho4 & Hf3).
  assert (Hp4 : parent o4 = None). { rewrite Ho4. unfold content in Hcp. injection Hcp as _ _ _ Hpp _. unfold parent in *. cbn. by rewrite Hpp. }
  unfold odb_callback in Hcb'. rewrite Hp4 in Hcb'. injection Hcb' as <-.
  rewrite Hi2 in Hf2. rewrite Hip2 in Hf3.
  exists d3, o3, o4. split_and!.
  - exact Hv10.
  - exact Hnew.
  - by rewrite Hf3, decide_False, Hf2, decide_True.
  - rewrite Ho3. cbn. by rewrite Hdet, Ho.
  - exact Hp3.
  - rewrite Ho3. unfold finalized. cbn. change (finalized o2 = false). by rewrite Hfin, Ho.
  - rewrite Ho3. cbn. by rewrite Hau, Ho.
  - by rewrite Hf3, decide_True.
  - rewrite Ho4. exact Hch.
  - rewrite Ho4. exact Hcp.
  - intros k Hkj Hkp. by rewrite Hf3, decide_False, Hf2, decide_False, Hf1, decide_False.
Qed.

(** (termination) writing an entry writes its parents up to the first that has
    none, and ends: as long as no entry is among its own parents, which holds of
    entries that get their parent when they are created, the objects that exist
    are enough steps. *)
Theorem update_terminates i l (s s' : sys) t b d : current s = Some t -> view s t = Some (b, d) -> keyed s.1 ->
  lineage s.1 i l -> update i s <> (s', Fault OutOfFuel).
Proof.
  intros Hc Hv Hk Hl. apply (db_update_fuel _ i l s s' t b d Hc Hv Hk Hl). pose proof (lineage_length _ _ _ Hl). lia.
Qed.

End messages.

End trail.

(** ** Witnesses *)

(** Rows in a map, in the database in memory of [Transactions]. *)
Module Demo.
Import Transactions.Demo WSServerAudit.

Abbreviation F := (list Z).
Abbreviation rows_map := (gmap Z (obj F)).
Definition row_at (i : Z) (d : rows_map) : option (obj F) :=
  match d !! i with Some r => if id r =? i then Some r else None | None => None end.
Definition next_id (d : rows_map) : Z := base.fresh ({[0]} ∪ dom d : gset Z).
Definition stored (o : obj F) (i version : Z) : obj F :=
  mk_obj (AuditEntry.mk i (AuditEntry.event_mask_ (entry o)) (AuditEntry.author_ (entry o)) (parent o)
            (children o) (AuditEntry.duration_ (entry o)) (finalized o)) version (details_ o) (database_ o).

#[export] Instance map_rows : AuditDb rows_map F := {|
  find_entry := row_at;
  persist_entry o d := let o' := stored o (next_id d) 1 in Ret (<[next_id d := o']> d, o');
  update_entry o d :=
    match row_at (id o) d with
    | None => Throw ObjectChanged
    | Some r =>
        if negb (version_ r =? version_ o) then Throw ObjectChanged
        else if forallb (fun c => bool_decide (is_Some (row_at c d))) (children o) then
          let o' := mk_obj (entry o) (version_ o + 1) (details_ o) (database_ o) in Ret (<[id o := o']> d, o')
        else Throw (OdbException "foreign key")
    end;
  reload_entry o d :=
    match row_at (id o) d with
    | None => Throw ObjectNotPersistent
    | Some r => Ret (if version_ r =? version_ o then o else with_database (database_ o) r)
    end;
|}.

Lemma row_at_insert i j o (d : rows_map) : id o = i -> row_at j (<[i := o]> d) = if decide (j = i) then Some o else row_at j d.
Proof.
  intros <-. unfold row_at. case_decide as Hj; [subst; by rewrite lookup_insert_eq, Z.eqb_refl|by rewrite lookup_insert_ne].
Qed.

#[export] Instance map_rows_laws : AuditDbLaws rows_map F.
Proof.
  split; cbn.
  - intros i d r. unfold row_at. destruct (d !! i) as [x|]; [|done]. destruct (Z.eqb_spec (id x) i); [by intros [= <-]|done].
  - intros o d d' o' [= <- <-]. pose proof (is_fresh ({[0]} ∪ dom d : gset Z)) as Hf. fold (next_id d) in Hf.
    apply not_elem_of_union in Hf as [Hz%not_elem_of_singleton Hd%not_elem_of_dom].
    split_and!; [done| |done|].
    + unfold row_at. change (id (stored o (next_id d) 1)) with (next_id d). by rewrite Hd.
    + intros j. by apply row_at_insert.
  - intros o d d' o'. destruct (row_at (id o) d) as [r|]; [|done]. destruct (Z.eqb_spec (version_ r) (version_ o)); [|done].
    cbn. destruct (forallb _ _); [|done]. intros [= <- <-]. split_and!; [by eauto|done|]. intros j. by apply row_at_insert.
  - intros o d r -> -> Hch. rewrite Z.eqb_refl. cbn. replace (forallb _ (children o)) with true; [by eauto|].
    symmetry. apply forallb_forall. intros c Hc. apply bool_decide_eq_true. rewrite List.Forall_forall in Hch. by apply Hch.
  - intros o d r -> Hv. by destruct (Z.eqb_spec (version_ r) (version_ o)).
  - intros o d c Hin Hc. destruct (row_at (id o) d) as [r|]; [|by eexists]. destruct (negb _); [by eexists|].
    replace (forallb _ (children o)) with false; [by eexists|]. symmetry. apply not_true_is_false. intros Hall.
    rewrite forallb_forall in Hall. specialize (Hall c Hin). apply bool_decide_eq_true in Hall. rewrite Hc in Hall. by destruct Hall.
  - intros o d e. destruct (row_at (id o) d) as [r|]; [|by intros [= <-]]. destruct (negb _); [by intros [= <-]|].
    destruct (forallb _ _); [done|by intros [= <-]].
  - intros o d f. destruct (row_at (id o) d) as [r|]; [|done]. destruct (negb _); [done|]. by destruct (forallb _ _).
  - intros o d r ->. done.
  - intros o d ->. done.
Qed.

#[export] Instance no_text : ExceptionText := {| what := fun _ => "error" |}.

Definition start : gmap Z (obj F) * db rows_map := (∅, mk ∅ [] None 0 false).

(** A request that records the change of a user and then fails. *)
Definition body (i : Z) : io (gmap Z (obj F) * db rows_map) unit :=
  _ ← create (Changed USER_EVENT 7 "" "" 0 0) (Some i); pure (Throw PermissionDenied).
Definition ok : ServerMessage := mk_message 0 "" "u1" "user_update".
Definition fail (e : exn) : ServerMessage := mk_message 2 "" "u1" "user_update".

Lemma body_stays i : stays_leaking (body i).
Proof. apply stays_bind; [apply stays_create|intros _; by apply local_stays]. Qed.
Lemma body_keeps i j c : keeps j c (body i) (fun _ => True).
Proof. eapply audit_bind; [apply keeps_create|]. intros _ _. by intros s t b d Hc Hv Hh Hr. Qed.

Lemma start_keyed : keyed start.1.
Proof. intros i o. cbn. by rewrite lookup_empty. Qed.

Definition request : io (gmap Z (obj F) * db rows_map) (option ServerMessage) :=
  on_message true (Some 7) "1.2.3.4" "{}" (Ret ("u1", "user_update")) 3 12 (guarded body ok fail).

Lemma request_answer : exists s', request start = (s', Ret (Some (fail PermissionDenied))).
Proof. eexists. vm_compute. reflexivity. Qed.

Lemma request_is_logged_witness : exists i row, find_entry i (committed (request start).1) = Some row /\ finalized row = true.
Proof.
  destruct request_answer as [s' Hr]. unfold request in *. rewrite Hr.
  pose proof (request_is_logged (Some 7) "1.2.3.4" "{}" "u1" "user_update" 3 12 (guarded body ok fail) start s'
    (Some (fail PermissionDenied))) as T.
  destruct (T eq_refl start_keyed (guarded_quiet body ok fail body_stays (fun i c => body_keeps i i c)) Hr) as [(text & [=] & _)|(i & row & _ & Hrow & [Hf|(_ & [=])])].
  exists i, row. split; [exact Hrow|]. destruct Hf as (n & Hf). unfold content in Hf. by injection Hf.
Defined.

Lemma failed_request_witness : exists i row, find_entry i (committed (request start).1) = Some row /\
  final (Some 7) "1.2.3.4" "{}" (fail PermissionDenied) (content row) /\
  forall j, j <> i -> find_entry j (committed (request start).1) = None.
Proof.
  destruct request_answer as [s' Hr]. unfold request in *. rewrite Hr.
  pose proof (failed_request_is_logged (Some 7) "1.2.3.4" "{}" "u1" "user_update" 3 12 body ok fail start s'
    (fail PermissionDenied)) as T.
  destruct (T eq_refl start_keyed body_stays (fun i c => body_keeps i i c) Hr) as (i & row & Hrow & Hf & Ho); [discriminate..|].
  exists i, row. split_and!; [exact Hrow|exact Hf|]. intros j Hj. exact (Ho j Hj).
Defined.

(** The count of operations [on_message] sets before the entry is finalized is
    read over when the handler's transaction was rolled back. *)
Lemma operations_lost : exists row, find_entry 1 (committed (request start).1) = Some row /\
  details_ row = WSAPICall "user_update" "u1" 2 "" "1.2.3.4" "{}" "" 0.
Proof. eexists. vm_compute. by split. Qed.

(** In a transaction, with the entry of a request. *)
Definition inside : gmap Z (obj F) * db rows_map := ((_ ← Factory.WSAPICall true; construct) start).1.

Lemma keyed_decided (h : gmap Z (obj F)) : bool_decide (map_Forall (fun i o => id o = i) h) = true -> keyed h.
Proof. intros Hb. apply bool_decide_eq_true in Hb. exact Hb. Qed.

Lemma event_recorded_witness : exists rows' q, find_entry 1 rows' = Some q /\ children q = [2].
Proof.
  destruct (create (Changed USER_EVENT 7 "" "" 0 0) (Some 1) inside) as [s' [j|e|f]] eqn:E; [|vm_compute in E; discriminate E..].
  assert (Hj : j = 2) by (vm_compute in E; by injection E). subst j.
  destruct (event_recorded (Changed USER_EVENT 7 "" "" 0 0) 1 (default (fresh (Membership 0 0) false) (inside.1 !! 1)) inside s' 1
    (rows inside.2) (rows inside.2) 2) as (rows' & r & q & _ & _ & _ & _ & _ & _ & _ & Hq & Hch & _).
  - vm_compute; reflexivity.
  - vm_compute; reflexivity.
  - apply keyed_decided. vm_compute; reflexivity.
  - vm_compute; reflexivity.
  - vm_compute; reflexivity.
  - exists (default (fresh (Membership 0 0) false) (row_at 1 (rows inside.2))). vm_compute; reflexivity.
  - exact E.
  - exists rows', q. split; [exact Hq|]. rewrite Hch. vm_compute; reflexivity.
Defined.

(** The same after an event was recorded. *)
Definition recorded : gmap Z (obj F) * db rows_map := (create (Changed USER_EVENT 7 "" "" 0 0) (Some 1) inside).1.
Lemma update_terminates_witness : (update 2 recorded).2 <> Fault OutOfFuel.
Proof.
  pose proof (update_terminates 2 [2; 1] recorded (update 2 recorded).1 1 (rows inside.2)
    (default ∅ (snd <$> view recorded.2 1%nat))) as H.
  intros E. apply H.
  - vm_compute; reflexivity.
  - vm_compute; reflexivity.
  - apply keyed_decided. vm_compute; reflexivity.
  - eapply lineage_step; [vm_compute; reflexivity..|]. eapply lineage_root; vm_compute; reflexivity.
  - destruct (update 2 recorded) as [s r]. cbn in *. by subst r.
Defined.

End Demo.
