(* ===== verification/Handlers.v ===== *)
(** Who serves which request: the four tables of handlers of
    [src/modules/websock-api/WSServer.cpp] and the service through which other
    modules change them ([Service.cpp], [Service.hpp]).

    What a handler does is in Api.v and the files of the resources; here a
    handler is known by its factory, and the code behind it is a parameter. *)
From Stdlib Require Import ZArith Lia Ascii String.
From stdpp Require Import base tactics numbers list strings gmap.
From S2P Require Import Prelude Json AuditLog Users Trees Security Session Store Api ApiSafety.

Open Scope Z_scope.

(** * The tables *)

(** The methods of [APISession] that are handlers. *)
Inductive session_method :=
  | get_leosac_version | create_auth_token | authenticate_with_token | logout | system_overview.

(** The factories of [MethodHandler]s. *)
Inductive method_factory :=
  | AuditGet | LogGet | PasswordChange | GroupSearch | DoorSearch | AccessPointSearch | ScheduleSearch
  | ZoneSearch | UserSearch | CredentialSearch | HardwareSearch | AccessOverview | CheckUpdate | CreateUpdate
  | AckUpdate | CancelUpdate | UpdateHistory | PendingUpdateGet | UpdateGet | Restart.

(** The factories of [CRUDResourceHandler]s; those of other modules go by a name. *)
Inductive crud_factory :=
  | GroupCRUD | UserCRUD | MembershipCRUD | CredentialCRUD | ScheduleCRUD | DoorCRUD | AccessPointCRUD | ZoneCRUD
  | ModuleCRUD (instanciate : string).

#[export] Instance crud_factory_eq_dec : EqDecision crud_factory.
Proof. solve_decision. Defined.

Module Tables.

(** [handlers_], [individual_handlers_], [crud_handlers_] and [asio_handlers_], of
    handlers [H]. *)
Record t (H : Type) := mk {
  handlers_ : gmap string session_method;
  individual_handlers_ : gmap string method_factory;
  crud_handlers_ : gmap string crud_factory;
  asio_handlers_ : gmap string H;
}.
Arguments mk {H}.
Arguments handlers_ {H}. Arguments individual_handlers_ {H}. Arguments crud_handlers_ {H}. Arguments asio_handlers_ {H}.

Section tables.
Context {H : Type}.

Definition empty : t H := mk ∅ ∅ ∅ ∅.
Definition set_handlers (m : gmap string session_method) (s : t H) : t H :=
  mk m (individual_handlers_ s) (crud_handlers_ s) (asio_handlers_ s).
Definition set_individual (m : gmap string method_factory) (s : t H) : t H :=
  mk (handlers_ s) m (crud_handlers_ s) (asio_handlers_ s).
Definition set_crud (m : gmap string crud_factory) (s : t H) : t H :=
  mk (handlers_ s) (individual_handlers_ s) m (asio_handlers_ s).
Definition set_asio (m : gmap string H) (s : t H) : t H :=
  mk (handlers_ s) (individual_handlers_ s) (crud_handlers_ s) m.

(** The four names of a resource. *)
Definition verbs : list string := [".read"; ".update"; ".create"; ".delete"].

(** [register_crud_handler]: what has the name is replaced. *)
Definition register_crud_handler (resource_name : string) (factory : crud_factory) (s : t H) : t H :=
  set_crud (foldl (fun m v => <[resource_name +:+ v := factory]> m) (crud_handlers_ s) verbs) s.

Definition builtin_sessions : list (string * session_method) :=
  [("get_leosac_version", get_leosac_version); ("create_auth_token", create_auth_token);
   ("authenticate_with_token", authenticate_with_token); ("logout", logout); ("system_overview", system_overview)].

Definition builtin_methods : list (string * method_factory) :=
  [("audit.get", AuditGet); ("get_logs", LogGet); ("password_change", PasswordChange);
   ("search.group_name", GroupSearch); ("search.door_alias", DoorSearch);
   ("search.access_point_alias", AccessPointSearch); ("search.schedule_name", ScheduleSearch);
   ("search.zone_alias", ZoneSearch); ("search.user_username", UserSearch);
   ("search.credential_alias", CredentialSearch); ("search.hardware_name", HardwareSearch);
   ("access_overview", AccessOverview); ("check_update", CheckUpdate); ("create_update", CreateUpdate);
   ("ack_update", AckUpdate); ("cancel_update", CancelUpdate); ("get_update_history", UpdateHistory);
   ("get_pending_update", PendingUpdateGet); ("get_update", UpdateGet); ("restart", Restart)].

Definition builtin_resources : list (string * crud_factory) :=
  [("group", GroupCRUD); ("user", UserCRUD); ("user-group-membership", MembershipCRUD);
   ("credential", CredentialCRUD); ("schedule", ScheduleCRUD); ("door", DoorCRUD);
   ("access_point", AccessPointCRUD); ("zone", ZoneCRUD)].

Definition assign {A} (m : gmap string A) (l : list (string * A)) : gmap string A :=
  foldl (fun m kv => <[fst kv := snd kv]> m) m l.

(** The constructor of [WSServer]. *)
Definition WSServer : t H :=
  foldl (fun s rf => register_crud_handler rf.1 rf.2 s)
    (mk (assign ∅ builtin_sessions) (assign ∅ builtin_methods) ∅ ∅) builtin_resources.

Definition has_handler (name : string) (s : t H) : bool :=
  bool_decide (is_Some (handlers_ s !! name)) || bool_decide (is_Some (individual_handlers_ s !! name)) ||
  bool_decide (is_Some (crud_handlers_ s !! name)) || bool_decide (is_Some (asio_handlers_ s !! name)).

(** What [register_asio_handler] has the server's thread do. *)
Definition register_asio_handler (handler : H) (name : string) (s : t H) : t H * bool :=
  if has_handler name s then (s, false) else (set_asio (<[name := handler]> (asio_handlers_ s)) s, true).

(** [unregister_handler]: whoever registered it. *)
Definition unregister_handler (name : string) (s : t H) : t H :=
  mk (delete name (handlers_ s)) (delete name (individual_handlers_ s)) (delete name (crud_handlers_ s))
     (delete name (asio_handlers_ s)).

(** What is found for a name, in the order of [dispatch_request]. *)
Inductive found :=
  | Asio (h : H)
  | Individual (f : method_factory)
  | OfSession (m : session_method)
  | Crud (f : crud_factory)
  | Nothing.

Definition find_handler (type : string) (s : t H) : found :=
  match asio_handlers_ s !! type with
  | Some h => Asio h
  | None =>
      match individual_handlers_ s !! type with
      | Some f => Individual f
      | None =>
          match handlers_ s !! type with
          | Some m => OfSession m
          | None => match crud_handlers_ s !! type with Some f => Crud f | None => Nothing end
          end
      end
  end.

(** What other modules ask for, and what they are answered. *)
Inductive op :=
  | RegisterAsio (name : string) (h : H)
  | RegisterCrud (resource_name : string) (factory : crud_factory)
  | Unregister (name : string).

Definition apply (o : op) (s : t H) : t H * bool :=
  match o with
  | RegisterAsio name h => register_asio_handler h name s
  | RegisterCrud r f => (register_crud_handler r f s, true)
  | Unregister name => (unregister_handler name s, true)
  end.
Definition apply_all (l : list op) (s : t H) : t H := foldl (fun s o => (apply o s).1) s l.

(** ** What a name is served by, without the tables *)

(** The resource handler the server itself has for a name, and the names the server itself serves. *)
Definition own_crud (type : string) : option crud_factory :=
  r ← Dispatch.resource_of type; snd <$> List.find (fun rf => String.eqb rf.1 r) builtin_resources.
Definition served (type : string) : bool :=
  existsb (String.eqb type) (map fst builtin_sessions) || existsb (String.eqb type) (map fst builtin_methods) ||
  bool_decide (is_Some (own_crud type)).

(** [Service.hpp]: "We assume everyone is nice and module won't remove each-other
    handler." A request that leaves alone what the server itself serves. *)
Definition nice (o : op) : bool :=
  match o with
  | RegisterAsio _ _ => true
  | RegisterCrud r (ModuleCRUD _) => forallb (fun v => negb (served (r +:+ v))) verbs
  | RegisterCrud _ _ => false
  | Unregister name => negb (served name)
  end.

(** What one request makes of the handlers that modules have for a name: the first
    one to register a posted handler keeps the name until it is removed, the last one to register a
    resource has it. *)
Definition claim (type : string) (ac : option H * option crud_factory) (o : op) : option H * option crud_factory :=
  match o with
  | RegisterAsio name h =>
      if String.eqb name type then match ac with (None, None) => (Some h, None) | _ => ac end else ac
  | RegisterCrud r f => if bool_decide (Dispatch.resource_of type = Some r) then (ac.1, Some f) else ac
  | Unregister name => if String.eqb name type then (None, None) else ac
  end.

(** The handlers of a name after the requests [l]. What the server serves is its own for ever. *)
Definition registered (type : string) (l : list op) : option H * option crud_factory :=
  if served type then (None, own_crud type) else foldl (claim type) (None, None) l.

End tables.
Arguments op : clear implicits.
Arguments found : clear implicits.
End Tables.

(** The tables of the constructor. *)
Lemma WSServer_registers {H} : Tables.WSServer (H := H) =
  foldl (fun s rf => Tables.register_crud_handler rf.1 rf.2 s)
    (Tables.mk (Tables.assign ∅ Tables.builtin_sessions) (Tables.assign ∅ Tables.builtin_methods) ∅ ∅)
    Tables.builtin_resources.
Proof. reflexivity. Qed.
Lemma WSServer_sessions {H} : Tables.handlers_ (Tables.WSServer (H := H)) = Tables.assign ∅ Tables.builtin_sessions.
Proof. reflexivity. Qed.
Lemma WSServer_methods {H} :
  Tables.individual_handlers_ (Tables.WSServer (H := H)) = Tables.assign ∅ Tables.builtin_methods.
Proof. reflexivity. Qed.

#[local] Opaque Tables.WSServer.

(** * Dispatch through the tables *)

Module TableDispatch.
Import Tables.
Section dispatch.
Context {D : Type} `{Odb D} {J : Type} `{Json J}.
Context (libscrypt_scrypt : list Z -> list Z -> ScryptParam -> option (list Z)).
Context (parse_date : string -> option Z).
Context (addr_lt : UserGroupMembership.t -> UserGroupMembership.t -> bool).
Context (timestamp : UserGroupMembership.t -> Z).

(** A [Service::WSHandler]: what another module does with a request. *)
Abbreviation handler := (Z -> J -> api D (option J)).

(** [register_asio_handler_permission]: the handler after its permission. *)
Definition with_permission (permission : Api.permission) (h : handler) : handler := fun hdl content =>
  _ ← enforce_permission hdl [permission]; h hdl content.

(** The code behind the factories that Api.v takes as an argument; the one of
    other modules' resources. *)
Context (ext : others D J) (crud_code : crud_factory -> Z -> crud D J).

(** [required_permission] of each factory but [PasswordChange], whose permission
    depends on the request. *)
Definition factory_action (f : method_factory) : SecurityContext.Action :=
  match f with
  | AuditGet => SecurityContext.AUDIT_READ
  | LogGet => SecurityContext.LOG_READ
  | GroupSearch => SecurityContext.GROUP_SEARCH
  | DoorSearch => SecurityContext.DOOR_SEARCH
  | AccessPointSearch => SecurityContext.ACCESS_POINT_SEARCH
  | ScheduleSearch => SecurityContext.SCHEDULE_SEARCH
  | ZoneSearch => SecurityContext.ZONE_SEARCH
  | UserSearch => SecurityContext.USER_SEARCH
  | CredentialSearch => SecurityContext.DOOR_SEARCH
  | HardwareSearch => SecurityContext.HARDWARE_SEARCH
  | AccessOverview => SecurityContext.ACCESS_OVERVIEW
  | Restart => SecurityContext.RESTART_SERVER
  | PasswordChange | CheckUpdate | CreateUpdate | AckUpdate | CancelUpdate | UpdateHistory | PendingUpdateGet
  | UpdateGet => SecurityContext.IS_MANAGER
  end.

Definition method_of (f : method_factory) (hdl : Z) (e : entropy) (type : string) : method D J :=
  match f with
  | PasswordChange => PasswordChange.handler libscrypt_scrypt hdl (salt_bytes e)
  | _ => {| method_permission := fun _ => Ret [(factory_action f, SecurityContext.no_param)];
            process_impl := method_impl ext type hdl |}
  end.

Definition session_code (m : session_method) (hdl : Z) (e : entropy) : J -> api D J :=
  match m with
  | get_leosac_version => fun _ => mret (version_reply ext)
  | create_auth_token => APISession.create_auth_token libscrypt_scrypt hdl (clk e) (uuid e)
  | authenticate_with_token => APISession.authenticate_with_token hdl (clk e)
  | logout => fun _ => APISession.logout hdl
  | system_overview => fun _ => mret (overview_reply ext)
  end.

Definition crud_of (f : crud_factory) (hdl : Z) (e : entropy) : crud D J :=
  match f with
  | UserCRUD => UserCRUD.handler libscrypt_scrypt parse_date (read_user ext) (create_user ext) hdl (salt_bytes e)
  | MembershipCRUD => MembershipCRUD.handler addr_lt timestamp
  | f => crud_code f hdl
  end.

(** [dispatch_request]. A handler of another module runs before
    [hook_before_request]. *)
Definition dispatch_request (s : Tables.t handler) (hdl : Z) (e : entropy) (type : string) (content : J)
  : api D (option J) :=
  match find_handler type s with
  | Asio h => h hdl content
  | Individual f =>
      _ ← APISession.hook_before_request hdl (clk e);
      r ← process_method (method_of f hdl e type) hdl content; mret (Some r)
  | OfSession m =>
      _ ← APISession.hook_before_request hdl (clk e);
      x ← session hdl;
      if APISession.allowed type x then r ← session_code m hdl e content; mret (Some r)
      else throw PermissionDenied
  | Crud f =>
      _ ← APISession.hook_before_request hdl (clk e);
      r ← process_crud (crud_of f hdl e) hdl type content; mret (Some r)
  | Nothing => _ ← APISession.hook_before_request hdl (clk e); throw InvalidCall
  end.

(** What Api.v is to be given for a request of type [type] when other modules have
    asked for [ops]. *)
Definition others_for (ops : list (op handler)) (type : string) : others D J := {|
  asio_handler := fun name => (registered name ops).1;
  method_impl := method_impl ext;
  read_user := read_user ext;
  create_user := create_user ext;
  other_crud := fun _ => crud_code <$> (registered type ops).2;
  version_reply := version_reply ext;
  overview_reply := overview_reply ext;
|}.

End dispatch.
End TableDispatch.

(** * What the server reports of itself *)

Module Replies.
Section replies.
Context {J : Type} `{Json J}.

(** [APISession::get_leosac_version], of [Tools::Version]. *)
Definition get_leosac_version (full_version short_version : string) : J :=
  json_object [("version", json_string full_version); ("version_short", json_string short_version)].

(** [APISession::system_overview], of what [CoreAPI] gets from the main thread. *)
Definition system_overview (instance_name : string) (config_version uptime : Z) (modules_names : list string) : J :=
  json_object [("instance_name", json_string instance_name); ("config_version", json_number config_version);
               ("uptime", json_number uptime); ("modules", json_array (map json_string modules_names))].

End replies.
End Replies.

(** * Lemmas *)

(** ** Names of resources *)

Lemma ends_with_split s v : ends_with s v = true -> s = strip s (length (chars v)) +:+ v.
Proof.
  unfold ends_with, strip. intros [Hl Hd]%andb_true_iff. apply bool_decide_eq_true in Hd.
  rewrite <- (text_chars s) at 1. rewrite <- (text_chars (_ +:+ v)). f_equal.
  rewrite chars_app, chars_text. etransitivity; [symmetry; apply (take_drop (length (chars s) - length (chars v)))|].
  by rewrite Hd.
Qed.

Lemma ends_with_app r v w : (length (chars w) <= length (chars v))%nat -> ends_with (r +:+ v) w = ends_with v w.
Proof.
  intros Hl. unfold ends_with. rewrite chars_app, length_app.
  destruct (Nat.leb_spec (length (chars w)) (length (chars r) + length (chars v))); [|lia].
  destruct (Nat.leb_spec (length (chars w)) (length (chars v))); [|lia].
  rewrite drop_app_ge by lia. cbn [andb].
  by replace (length (chars r) + length (chars v) - length (chars w) - length (chars r))%nat
    with (length (chars v) - length (chars w))%nat by lia.
Qed.

Lemma strip_app r v : strip (r +:+ v) (length (chars v)) = r.
Proof.
  unfold strip. rewrite chars_app, length_app, Nat.add_sub, take_app_length. apply text_chars.
Qed.

(** The names of a resource are those that end in a verb. *)
Lemma resource_of_verb r v : v ∈ Tables.verbs -> Dispatch.resource_of (r +:+ v) = Some r.
Proof.
  intros Hv. unfold Dispatch.resource_of.
  repeat (apply elem_of_cons in Hv as [->|Hv]); [..|by apply elem_of_nil in Hv].
  all: rewrite ?ends_with_app by (vm_compute; lia); vm_compute (ends_with _ _); cbn [orb]; f_equal; apply strip_app.
Qed.

Lemma resource_of_name type r : Dispatch.resource_of type = Some r ->
  exists v, v ∈ Tables.verbs /\ type = r +:+ v.
Proof.
  unfold Dispatch.resource_of. intros Hr.
  destruct (ends_with type ".read") eqn:E1; [injection Hr as <-; exists ".read"; split; [set_solver|]; by apply (ends_with_split type ".read")|].
  destruct (ends_with type ".update") eqn:E2; [injection Hr as <-; exists ".update"; split; [set_solver|]; by apply (ends_with_split type ".update")|].
  destruct (ends_with type ".create") eqn:E3; [injection Hr as <-; exists ".create"; split; [set_solver|]; by apply (ends_with_split type ".create")|].
  destruct (ends_with type ".delete") eqn:E4; [|done]. injection Hr as <-; exists ".delete"; split; [set_solver|]; by apply (ends_with_split type ".delete").
Qed.

Lemma assign_find {A} (l : list (string * A)) (m : gmap string A) type : NoDup (map fst l) ->
  Tables.assign m l !! type =
  match List.find (fun kv => String.eqb type kv.1) l with Some kv => Some kv.2 | None => m !! type end.
Proof.
  revert m. induction l as [|[k a] l IH]; intros m Hnd; [done|]. apply NoDup_cons in Hnd as [Hk Hnd].
  unfold Tables.assign in *. cbn. rewrite IH by done. destruct (String.eqb_spec type k) as [->|Hn].
  - destruct (List.find _ l) as [kv|] eqn:E; [|by rewrite lookup_insert_eq].
    apply find_some in E as [Hin He%String.eqb_eq]. destruct Hk. rewrite He. apply list_elem_of_In. exact (in_map fst _ _ Hin).
  - destruct (List.find _ l); [done|]. by rewrite lookup_insert_ne by congruence.
Qed.

(** ** The tables after a change *)

Section tables.
Import Tables.
Context {H : Type}.
Implicit Types s : Tables.t H.

Lemma crud_registered r f s type :
  crud_handlers_ (register_crud_handler r f s) !! type =
  if bool_decide (Dispatch.resource_of type = Some r) then Some f else crud_handlers_ s !! type.
Proof.
  unfold register_crud_handler. cbn [crud_handlers_ set_crud].
  assert (Hl : forall l (m : gmap string crud_factory), foldl (fun m v => <[r +:+ v := f]> m) m l !! type =
    if existsb (fun v => String.eqb (r +:+ v) type) l then Some f else m !! type).
  { intros l. induction l as [|v l IH] using rev_ind; intros m; [done|].
    rewrite foldl_app, existsb_app. cbn [foldl existsb]. destruct (String.eqb_spec (r +:+ v) type) as [<-|Hn].
    - by rewrite lookup_insert_eq, !orb_true_r.
    - by rewrite lookup_insert_ne, IH, !orb_false_r. }
  rewrite Hl. destruct (existsb _ verbs) eqn:E.
  - apply existsb_exists in E as (v & Hv & <-%String.eqb_eq). rewrite bool_decide_eq_true_2; [done|].
    by apply resource_of_verb, list_elem_of_In.
  - rewrite bool_decide_eq_false_2; [done|]. intros (v & Hv & ->)%resource_of_name.
    apply not_true_iff_false in E. apply E, existsb_exists. exists v.
    split; [by apply list_elem_of_In|apply String.eqb_refl].
Qed.

Lemma has_handler_spec name s :
  has_handler name s = false <->
  handlers_ s !! name = None /\ individual_handlers_ s !! name = None /\ crud_handlers_ s !! name = None /\
  asio_handlers_ s !! name = None.
Proof.
  unfold has_handler. rewrite !orb_false_iff, !bool_decide_eq_false. rewrite !eq_None_not_Some. tauto.
Qed.

Lemma existsb_fst {A} (l : list (string * A)) type :
  existsb (String.eqb type) (map fst l) = match List.find (fun kv => String.eqb type kv.1) l with Some _ => true | None => false end.
Proof. induction l as [|[k a] l IH]; [done|]. cbn. by destruct (String.eqb type k). Qed.

(** The factories the server has code for. *)
Definition builtin_crud (f : crud_factory) : bool :=
  match f with UserCRUD | MembershipCRUD => true | _ => false end.

Lemma resources_registered (l : list (string * crud_factory)) s type : NoDup (map fst l) ->
  crud_handlers_ (foldl (fun s rf => register_crud_handler rf.1 rf.2 s) s l) !! type =
  match r ← Dispatch.resource_of type; List.find (fun rf => String.eqb rf.1 r) l with
  | Some rf => Some rf.2
  | None => crud_handlers_ s !! type
  end.
Proof.
  revert s. induction l as [|[c f] l IH]; intros s Hnd; [by destruct (Dispatch.resource_of type)|].
  apply NoDup_cons in Hnd as [Hc Hnd]. cbn [foldl fst snd]. rewrite IH, crud_registered by done.
  destruct (Dispatch.resource_of type) as [r|]; [|done]. cbn [mbind option_bind List.find fst].
  destruct (String.eqb_spec c r) as [<-|Hn].
  - rewrite bool_decide_eq_true_2 by done. destruct (List.find _ l) as [rf|] eqn:E; [|done].
    apply find_some in E as [Hin <-%String.eqb_eq]. destruct Hc. apply list_elem_of_In. exact (in_map fst _ _ Hin).
  - by rewrite bool_decide_eq_false_2 by congruence.
Qed.

Lemma WSServer_crud type :
  crud_handlers_ (WSServer (H := H)) !! type = own_crud type.
Proof.
  unfold own_crud.
  rewrite WSServer_registers, resources_registered by (apply (bool_decide_eq_true_1 _); vm_compute; reflexivity).
  destruct (Dispatch.resource_of type) as [r|]; [|apply lookup_empty]. cbn [mbind option_bind].
  destruct (List.find _ builtin_resources); [done|apply lookup_empty].
Qed.

(** A name is free in the tables of the constructor unless the server serves it. *)
Lemma served_false type : served type = false <->
  handlers_ (WSServer (H := H)) !! type = None /\ individual_handlers_ (WSServer (H := H)) !! type = None /\
  own_crud type = None.
Proof.
  unfold served. rewrite WSServer_sessions, WSServer_methods, !assign_find, !existsb_fst
    by (apply (bool_decide_eq_true_1 _); vm_compute; reflexivity).
  rewrite !orb_false_iff, bool_decide_eq_false, <- eq_None_not_Some, !lookup_empty.
  destruct (List.find _ builtin_sessions), (List.find _ builtin_methods); intuition congruence.
Qed.

(** The tables after the requests [l]: those of the server itself are as they were, and the
    others have what the requests made of each name. *)
Record tables_of (l : list (op H)) s : Prop := {
  tables_sessions : handlers_ s = handlers_ (WSServer (H := H));
  tables_methods : individual_handlers_ s = individual_handlers_ (WSServer (H := H));
  tables_asio type : asio_handlers_ s !! type = (registered type l).1;
  tables_crud type : crud_handlers_ s !! type = (registered type l).2;
}.

Lemma start_tables : tables_of [] WSServer.
Proof.
  split; [done|done|..]; intros type; unfold registered.
  - rewrite WSServer_registers. transitivity (@None H); [|by destruct (served type)].
    assert (Ha : forall rs (u : Tables.t H), asio_handlers_ (foldl (fun s rf => register_crud_handler rf.1 rf.2 s) u rs) = asio_handlers_ u)
      by (intros rs; induction rs as [|r rs IH]; intros u; [done|]; cbn [foldl]; by rewrite IH).
    rewrite Ha. apply lookup_empty.
  - rewrite WSServer_crud. destruct (served type) eqn:E; [done|]. by apply served_false in E as (_ & _ & ->).
Qed.

Lemma registered_app type l o : served type = false -> registered (H := H) type (l ++ [o]) = claim type (registered type l) o.
Proof. unfold registered. intros ->. by rewrite foldl_app. Qed.
Lemma registered_served type l : served type = true -> registered (H := H) type l = (None, own_crud type).
Proof. unfold registered. by intros ->. Qed.

Lemma free_name l s name : tables_of l s ->
  has_handler name s = false <-> served name = false /\ registered name l = (None, None).
Proof.
  intros [Hs Hm Ha Hc]. rewrite has_handler_spec, Hs, Hm, Ha, Hc, served_false.
  destruct (served name) eqn:E.
  - rewrite !(registered_served _ _ E). cbn. intuition congruence.
  - apply served_false in E. destruct (registered name l) as [a c]. cbn. intuition congruence.
Qed.

Lemma apply_tables l o s : nice o = true -> tables_of l s -> tables_of (l ++ [o]) (apply o s).1.
Proof.
  intros Ho Ht. pose proof Ht as [Hs Hm Ha Hc]. destruct o as [name h|r f|name]; cbn [apply fst].
  - unfold register_asio_handler. destruct (has_handler name s) eqn:E; cbn [fst].
    + assert (Hsame : forall type, registered type (l ++ [RegisterAsio name h]) = registered type l).
      { intros type. destruct (served type) eqn:Et; [by rewrite !registered_served|].
        rewrite registered_app by done. cbn. destruct (String.eqb_spec name type) as [->|]; [|done].
        destruct (registered type l) as [[] []] eqn:Er; try done.
        by rewrite (proj2 (free_name _ _ _ Ht) (conj Et Er)) in E. }
      split; [done|done|..]; intros type; by rewrite Hsame.
    + destruct (proj1 (free_name _ _ _ Ht) E) as [Hf Hr].
      split; [done|done|..]; intros type; cbn [set_asio asio_handlers_ crud_handlers_];
        (destruct (decide (name = type)) as [<-|Hne];
          [rewrite registered_app, Hr by done; cbn; rewrite String.eqb_refl|]).
      * by rewrite lookup_insert_eq.
      * rewrite lookup_insert_ne, Ha by done. destruct (served type) eqn:Et; [by rewrite !registered_served|].
        rewrite registered_app by done. cbn. by rewrite (proj2 (String.eqb_neq _ _)).
      * by rewrite Hc, Hr.
      * rewrite Hc. destruct (served type) eqn:Et; [by rewrite !registered_served|].
        rewrite registered_app by done. cbn. by rewrite (proj2 (String.eqb_neq _ _)).
  - destruct f; try discriminate Ho. cbn [nice] in Ho. rewrite forallb_forall in Ho.
    assert (Hfree : forall type, Dispatch.resource_of type = Some r -> served type = false).
    { intros type (v & Hv & ->)%resource_of_name. apply list_elem_of_In in Hv. by apply negb_true_iff, Ho. }
    split; [done|done|..]; intros type; [change (asio_handlers_ (register_crud_handler r (ModuleCRUD instanciate) s)) with (asio_handlers_ s); rewrite Ha|rewrite crud_registered, Hc];
      (destruct (served type) eqn:Et;
        [rewrite !registered_served by done; try (rewrite bool_decide_eq_false_2 by (intros E%Hfree; congruence)); done|]);
      rewrite registered_app by done; cbn; by case_bool_decide.
  - cbn [nice] in Ho. apply negb_true_iff in Ho. pose proof (proj1 (served_false _) Ho) as (H1 & H2 & _).
    split; cbn [unregister_handler handlers_ individual_handlers_ crud_handlers_ asio_handlers_].
    + rewrite delete_id; [done|]. by rewrite Hs.
    + rewrite delete_id; [done|]. by rewrite Hm.
    + intros type. destruct (served type) eqn:Et; [rewrite lookup_delete_ne, Ha, !registered_served by congruence; done|].
      rewrite registered_app by done. cbn. destruct (String.eqb_spec name type) as [->|]; [by rewrite lookup_delete_eq|].
      by rewrite lookup_delete_ne.
    + intros type. destruct (served type) eqn:Et; [rewrite lookup_delete_ne, Hc, !registered_served by congruence; done|].
      rewrite registered_app by done. cbn. destruct (String.eqb_spec name type) as [->|]; [by rewrite lookup_delete_eq|].
      by rewrite lookup_delete_ne.
Qed.

Lemma apply_all_tables l : forallb nice l = true -> tables_of l (apply_all l WSServer).
Proof.
  induction l as [|o l IH] using rev_ind; [intros _; apply start_tables|].
  rewrite forallb_app. intros [Hl Ho]%andb_true_iff. cbn in Ho. rewrite andb_true_r in Ho.
  unfold apply_all. rewrite foldl_app. apply apply_tables; [done|by apply IH].
Qed.

(** Every resource handler there is has a name of a resource, and is the server's own or
    another module's. *)
Lemma registered_crud l type f : forallb nice l = true -> (registered (H := H) type l).2 = Some f ->
  is_Some (Dispatch.resource_of type) /\ (own_crud type = Some f \/ own_crud type = None /\ builtin_crud f = false).
Proof.
  intros Hl. unfold registered. destruct (served type) eqn:E.
  { cbn. intros Ho. split; [|by left]. unfold own_crud in Ho. by destruct (Dispatch.resource_of type). }
  apply served_false in E as (_ & _ & Hown). revert f.
  induction l as [|o l IH] using rev_ind; [done|]. intros f. rewrite forallb_app in Hl. apply andb_true_iff in Hl as [Hl Ho].
  cbn in Ho. rewrite andb_true_r in Ho. specialize (IH Hl). rewrite foldl_app. cbn [foldl].
  set (ac := foldl _ _ l) in *. destruct o as [name h|r g|name]; cbn [claim].
  - destruct (String.eqb name type); [|apply IH]. destruct ac as [[] []]; apply IH || done.
  - destruct g; try discriminate Ho. case_bool_decide as Hr; [|apply IH]. intros [= <-]. rewrite Hr. split; [done|by right].
  - destruct (String.eqb name type); [done|apply IH].
Qed.

End tables.

(** ** What is found is what Api.v dispatches to *)

Section dispatched.
Import Tables TableDispatch.
Context {D : Type} `{Odb D} {J : Type} `{Json J}.
Context (libscrypt_scrypt : list Z -> list Z -> ScryptParam -> option (list Z)).
Context (parse_date : string -> option Z).
Context (addr_lt : UserGroupMembership.t -> UserGroupMembership.t -> bool).
Context (timestamp : UserGroupMembership.t -> Z).
Context (ext : others D J) (crud_code : crud_factory -> Z -> crud D J).
Abbreviation handler := (Z -> J -> api D (option J)).
Implicit Types s : Tables.t handler.

Lemma individual_found ext' hdl e type : method_impl ext' = method_impl ext ->
  Dispatch.individual_handler libscrypt_scrypt ext' hdl e type =
  (fun f => method_of libscrypt_scrypt ext f hdl e type) <$> individual_handlers_ (WSServer (H := handler)) !! type.
Proof.
  intros He. rewrite WSServer_methods, assign_find by (apply (bool_decide_eq_true_1 _); vm_compute; reflexivity).
  unfold Dispatch.individual_handler, Dispatch.method_action, builtin_methods. cbn [List.find fst]. rewrite He.
  repeat match goal with |- context [String.eqb type ?c] =>
    destruct (String.eqb_spec type c) as [->|]; [reflexivity|] end.
  by rewrite lookup_empty.
Qed.

Lemma session_found ext' hdl e type : version_reply ext' = version_reply ext -> overview_reply ext' = overview_reply ext ->
  Dispatch.session_handler libscrypt_scrypt ext' hdl e type =
  (fun m => session_code libscrypt_scrypt ext m hdl e) <$> handlers_ (WSServer (H := handler)) !! type.
Proof.
  intros Hv Ho. rewrite WSServer_sessions, assign_find by (apply (bool_decide_eq_true_1 _); vm_compute; reflexivity).
  unfold Dispatch.session_handler, builtin_sessions. cbn [List.find fst]. rewrite Hv, Ho.
  repeat match goal with |- context [String.eqb type ?c] =>
    destruct (String.eqb_spec type c) as [->|]; [reflexivity|] end.
  by rewrite lookup_empty.
Qed.

Lemma crud_found ops hdl e type : forallb nice ops = true ->
  Dispatch.crud_handler libscrypt_scrypt parse_date addr_lt timestamp (others_for ext crud_code ops type) hdl e type =
  (fun f => crud_of libscrypt_scrypt parse_date addr_lt timestamp ext crud_code f hdl e) <$> (registered type ops).2.
Proof.
  intros Hops. unfold Dispatch.crud_handler. pose proof (fun f => registered_crud ops type f Hops) as Hf.
  destruct (Dispatch.resource_of type) as [r|] eqn:Er.
  - assert (Hw : own_crud type = snd <$> List.find (fun rf => String.eqb rf.1 r) builtin_resources) by (unfold own_crud; by rewrite Er).
    assert (Hs : forall f, own_crud type = Some f -> (registered type ops).2 = Some f).
    { intros f Ho. unfold registered, served. by rewrite Ho, bool_decide_eq_true_2, orb_true_r. }
    destruct (String.eqb_spec r "user") as [->|Hu]; [by rewrite (Hs UserCRUD Hw)|].
    destruct (String.eqb_spec r "user-group-membership") as [->|Hm]; [by rewrite (Hs MembershipCRUD Hw)|].
    cbn [other_crud others_for]. destruct ((registered type ops).2) as [f|]; [|done]. cbn. f_equal.
    destruct (Hf f eq_refl) as [_ [Hb|[_ Hb]]]; [|by destruct f]. rewrite Hw in Hb.
    cbn [builtin_resources List.find fst] in Hb.
    repeat match type of Hb with context [String.eqb ?c r] =>
      destruct (String.eqb_spec c r) as [<-|]; [first [destruct Hu; reflexivity|destruct Hm; reflexivity|injection Hb as <-; reflexivity]|] end.
    discriminate Hb.
  - destruct ((registered type ops).2) as [f|]; [|done]. by destruct (Hf f eq_refl) as [[? [=]] _].
Qed.

(** C18: (refinement) Whatever other modules registered and removed, as long as they left alone
    what the server itself serves (no removal of it, no resource of its name; posted handlers of
    any name), a request is dispatched through the server's four tables as Api.v dispatches it. What the server serves
    is served by its own handlers as if no module had registered anything, a
    posted handler that asked for its name included. Another name is served by what the
    modules' requests make of it: the first posted handler to claim it while it is free, until it
    is removed, or else the last resource registered. *)
Theorem dispatch_through_tables ops hdl e type content srv :
  forallb nice ops = true ->
  TableDispatch.dispatch_request libscrypt_scrypt parse_date addr_lt timestamp ext crud_code
    (apply_all ops (WSServer (H := handler))) hdl e type content srv =
  Dispatch.dispatch_request libscrypt_scrypt parse_date addr_lt timestamp (others_for ext crud_code ops type)
    hdl e type content srv.
Proof.
  intros Hops. pose proof (apply_all_tables ops Hops) as [Hs Hm Ha Hc].
  unfold TableDispatch.dispatch_request, Dispatch.dispatch_request, find_handler.
  rewrite (individual_found (others_for ext crud_code ops type)) by done.
  rewrite (session_found (others_for ext crud_code ops type)) by done. rewrite crud_found by done.
  rewrite Ha, Hc, Hs, Hm. cbn [asio_handler others_for].
  destruct ((registered type ops).1); [done|].
  destruct (individual_handlers_ WSServer !! type); [done|]. cbn [fmap option_fmap option_map].
  destruct (handlers_ WSServer !! type); [done|]. cbn [fmap option_fmap option_map].
  by destruct ((registered type ops).2).
Qed.

End dispatched.

(** * Examples *)

Module Demo.
Import Tables.

(** A buzzer module whose handler for creation is gone, and two handlers of other modules, one under
    the name of a method of the server. *)
Definition changes_made : list (op (Z -> json -> api store (option json))) :=
  [RegisterCrud "buzzer" (ModuleCRUD "LedBuzzer::CRUDHandler<Buzzer>");
   RegisterAsio "pfdigital.is_degraded_mode" (fun _ _ => mret (Some (JBool true)));
   RegisterAsio "restart" (fun _ _ => mret (Some (JBool false)));
   Unregister "buzzer.create"].
Definition no_crud (f : crud_factory) (hdl : Z) : crud store json :=
  {| crud_permission := fun _ _ => Ret []; read_impl := fun _ => mret (JString "read"); create_impl := fun _ => mret JNull;
     update_impl := fun _ => mret JNull; delete_impl := fun _ => mret JNull |}.

Lemma dispatch_through_tables_witness :
  let t := apply_all changes_made WSServer in
  (TableDispatch.dispatch_request demo_kdf no_date no_address no_time demo_ext no_crud t 1 (demo_entropy "t2")
     "buzzer.read" JNull admin_server).2 = Ret (Some (JString "read")) /\
  (TableDispatch.dispatch_request demo_kdf no_date no_address no_time demo_ext no_crud t 1 (demo_entropy "t2")
     "buzzer.create" JNull admin_server).2 = Throw InvalidCall /\
  (TableDispatch.dispatch_request demo_kdf no_date no_address no_time demo_ext no_crud t 1 (demo_entropy "t2")
     "restart" JNull admin_server).2 = Ret (Some JNull).
Proof.
  intros t. unfold t.
  rewrite !(dispatch_through_tables demo_kdf no_date no_address no_time demo_ext no_crud changes_made) by (vm_compute; reflexivity).
  split_and!; vm_compute; reflexivity.
Defined.

End Demo.
