(* ===== verification/ServerThreads.v ===== *)
(** The threads behind the tables of handlers of Handlers.v: the server's thread and
    those of the modules, which wait for each other ([src/modules/websock-api/WSServer.cpp],
    [Service.hpp]), as a step relation; the helper thread of [WSHelperThread.hpp]; and how the
    server shuts down. *)
From Stdlib Require Import ZArith Lia Ascii String.
From stdpp Require Import base tactics numbers list strings gmap relations finite.
From S2P Require Import Prelude Services Handlers.

Open Scope Z_scope.

#[local] Opaque Tables.WSServer.

(** * The threads *)

(** The thread of the server runs what is posted to the [io_service] of [srv_]:
    requests of clients, and the changes to its tables that the threads of other
    modules ask for and wait for. A handler that was registered with an
    [io_service] is run by the thread of that [io_service], and the server waits. *)

Module Loops.

(** What [register_asio_handler] and [register_handler] of [Service.hpp] register:
    a handler to be posted to the thread [io], or run as it is. *)
Inductive ws_handler (M A : Type) :=
  | Posted (io : M) (handler : A)
  | Direct (handler : A).
Arguments Posted {M A}. Arguments Direct {M A}.

Record request (J : Type) := mk_request { hdl : Z; type_ : string; content : J }.
Arguments mk_request {J}. Arguments hdl {J}. Arguments type_ {J}. Arguments content {J}.

(** What is posted to a module's thread: to register its handlers, and to run one. *)
Inductive job (M A J : Type) :=
  | RegisterHandlers (ops : list (Tables.op (ws_handler M A)))
  | Handle (handler : A) (q : request J).
Arguments RegisterHandlers {M A J}. Arguments Handle {M A J}.

(** A module's thread: its queue, the rest of [register_ws_handlers], and whether it
    is in [future.get()]. *)
Record thread (M A J : Type) := mk_thread {
  jobs : list (job M A J);
  todo : list (Tables.op (ws_handler M A));
  waits : bool;
}.
Arguments mk_thread {M A J}. Arguments jobs {M A J}. Arguments todo {M A J}. Arguments waits {M A J}.

(** What is posted to the server. *)
Inductive task (M A J : Type) :=
  | Change (from : M) (o : Tables.op (ws_handler M A))
  | Incoming (q : request J).
Arguments Change {M A J}. Arguments Incoming {M A J}.

Record sys (M A J W R : Type) := mk_sys {
  tables : Tables.t (ws_handler M A);
  tasks : list (task M A J);
  (** the module whose future the server waits for, and the request *)
  serving : option (M * request J);
  threads : M -> thread M A J;
  world : W;
  sent : list (Z * R);
}.
Arguments mk_sys {M A J W R}. Arguments tables {M A J W R}. Arguments tasks {M A J W R}.
Arguments serving {M A J W R}. Arguments threads {M A J W R}. Arguments world {M A J W R}. Arguments sent {M A J W R}.

Section loops.
Context {M : Type} `{EqDecision M} {A J W R : Type}.
(** What the handler of a module does, and what the server does itself. *)
Context (run : A -> request J -> W -> W * R) (serve : Tables.found (ws_handler M A) -> request J -> W -> W * R).

Abbreviation state := (sys M A J W R).

Definition set_thread (m : M) (t : thread M A J) (f : M -> thread M A J) : M -> thread M A J :=
  fun m' => if decide (m' = m) then t else f m'.
Definition enqueue (j : job M A J) (t : thread M A J) : thread M A J := mk_thread (jobs t ++ [j]) (todo t) (waits t).
Definition resume (t : thread M A J) : thread M A J := mk_thread (jobs t) (todo t) false.

(** The server's thread takes the next task, unless it waits. *)
Definition server_step (s : state) : option state :=
  match serving s, tasks s with
  | None, Change m o :: l =>
      Some (mk_sys (Tables.apply o (tables s)).1 l None (set_thread m (resume (threads s m)) (threads s)) (world s) (sent s))
  | None, Incoming q :: l =>
      match Tables.find_handler (type_ q) (tables s) with
      | Tables.Asio (Posted m h) =>
          Some (mk_sys (tables s) l (Some (m, q)) (set_thread m (enqueue (Handle h q) (threads s m)) (threads s))
                  (world s) (sent s))
      | Tables.Asio (Direct h) =>
          let '(w, r) := run h q (world s) in
          Some (mk_sys (tables s) l None (threads s) w (sent s ++ [(hdl q, r)]))
      | f =>
          let '(w, r) := serve f q (world s) in
          Some (mk_sys (tables s) l None (threads s) w (sent s ++ [(hdl q, r)]))
      end
  | _, _ => None
  end.

(** A module's thread goes on registering, or takes the next job, unless it waits. *)
Definition thread_step (m : M) (s : state) : option state :=
  let t := threads s m in
  match waits t, todo t, jobs t with
  | false, o :: os, js =>
      Some (mk_sys (tables s) (tasks s ++ [Change m o]) (serving s)
              (set_thread m (mk_thread js os true) (threads s)) (world s) (sent s))
  | false, [], RegisterHandlers ops :: js =>
      Some (mk_sys (tables s) (tasks s) (serving s) (set_thread m (mk_thread js ops false) (threads s)) (world s) (sent s))
  | false, [], Handle h q :: js =>
      let '(w, r) := run h q (world s) in
      Some (mk_sys (tables s) (tasks s) None (set_thread m (mk_thread js [] false) (threads s)) w
              (sent s ++ [(hdl q, r)]))
  | _, _, _ => None
  end.

Definition arrive (q : request J) (s : state) : state :=
  mk_sys (tables s) (tasks s ++ [Incoming q]) (serving s) (threads s) (world s) (sent s).

(** What the threads do by themselves, and with clients that send requests. *)
Inductive internal : state -> state -> Prop :=
  | by_server s s' : server_step s = Some s' -> internal s s'
  | by_thread m s s' : thread_step m s = Some s' -> internal s s'.

Inductive step : state -> state -> Prop :=
  | step_internal s s' : internal s s' -> step s s'
  | step_arrive q s : step s (arrive q s).

(** The start: each module is about to register its handlers. *)
Definition start (ops : M -> list (Tables.op (ws_handler M A))) (w : W) : state :=
  mk_sys Tables.WSServer [] None (fun m => mk_thread [RegisterHandlers (ops m)] [] false) w [].

(** The server waits for a thread that waits for the server. *)
Definition stuck (s : state) : Prop := exists m q, serving s = Some (m, q) /\ waits (threads s m) = true.

(** The requests that have no answer yet. *)
Definition incoming (l : list (task M A J)) : list (request J) :=
  omap (fun k => match k with Incoming q => Some q | Change _ _ => None end) l.
Definition owed (s : state) : list (request J) :=
  match serving s with Some (_, q) => [q] | None => [] end ++ incoming (tasks s).

(** The handler of another thread that a name stands for. *)
Definition asio_handlers_posted (s : state) (name : string) : option (M * A) :=
  match Tables.asio_handlers_ (tables s) !! name with Some (Posted m h) => Some (m, h) | _ => None end.

(** A module that asks for one posted handler at most, its own, and for that last. *)
Definition posts (o : Tables.op (ws_handler M A)) : option M :=
  match o with Tables.RegisterAsio _ (Posted m _) => Some m | _ => None end.
Fixpoint careful (m : M) (ops : list (Tables.op (ws_handler M A))) : Prop :=
  match ops with
  | [] => True
  | o :: ops => match posts o with Some m' => m' = m /\ ops = [] | None => careful m ops end
  end.

(** ** Lemmas *)

Lemma set_thread_eq m t f : set_thread m t f m = t.
Proof. unfold set_thread. by rewrite decide_True. Qed.
Lemma set_thread_ne m m' t f : m' <> m -> set_thread m t f m' = f m'.
Proof. intros. unfold set_thread. by rewrite decide_False. Qed.

Lemma incoming_app l1 l2 : incoming (l1 ++ l2) = incoming l1 ++ incoming l2.
Proof. apply omap_app. Qed.

(** The cases of a step of the server, of the code it runs only the reply. *)
Lemma server_cases s s' : server_step s = Some s' ->
  serving s = None /\ exists k l, tasks s = k :: l /\ tasks s' = l /\
  match k with
  | Change m o =>
      tables s' = (Tables.apply o (tables s)).1 /\ serving s' = None /\ sent s' = sent s /\
      threads s' = set_thread m (resume (threads s m)) (threads s)
  | Incoming q =>
      tables s' = tables s /\
      ((exists m h, asio_handlers_posted s (type_ q) = Some (m, h) /\ serving s' = Some (m, q) /\ sent s' = sent s /\
          threads s' = set_thread m (enqueue (Handle h q) (threads s m)) (threads s)) \/
       (serving s' = None /\ threads s' = threads s /\ exists r, sent s' = sent s ++ [(hdl q, r)]))
  end.
Proof.
  unfold server_step, asio_handlers_posted. intros Hs.
  destruct (serving s); [done|]. destruct (tasks s) as [|[m o|q] l]; [done|..].
  - injection Hs as <-. split; [done|]. exists (Change m o), l. by cbn.
  - split; [done|]. exists (Incoming q), l. split; [done|]. unfold Tables.find_handler in Hs.
    destruct (Tables.asio_handlers_ (tables s) !! type_ q) as [[m h|h]|].
    + injection Hs as <-. cbn. do 2 (split; [done|]). left. by exists m, h.
    + destruct (run h q (world s)) as [w r]. injection Hs as <-. cbn. do 2 (split; [done|]). right. eauto.
    + assert (Hr : exists w r, s' = mk_sys (tables s) l None (threads s) w (sent s ++ [(hdl q, r)])).
      { repeat case_match; try done; injection Hs as <-; eauto. }
      destruct Hr as (w & r & ->). cbn. do 2 (split; [done|]). right. eauto.
Qed.

Lemma thread_cases m s s' : thread_step m s = Some s' ->
  waits (threads s m) = false /\ tables s' = tables s /\ exists t, threads s' = set_thread m t (threads s) /\
  ((exists o os, todo (threads s m) = o :: os /\ t = mk_thread (jobs (threads s m)) os true /\
      tasks s' = tasks s ++ [Change m o] /\ serving s' = serving s /\ sent s' = sent s) \/
   (exists ops js, todo (threads s m) = [] /\ jobs (threads s m) = RegisterHandlers ops :: js /\ t = mk_thread js ops false /\
      tasks s' = tasks s /\ serving s' = serving s /\ sent s' = sent s) \/
   (exists h q js r, todo (threads s m) = [] /\ jobs (threads s m) = Handle h q :: js /\ t = mk_thread js [] false /\
      tasks s' = tasks s /\ serving s' = None /\ sent s' = sent s ++ [(hdl q, r)])).
Proof.
  unfold thread_step. intros Hs. destruct (waits (threads s m)); [done|]. split; [done|].
  destruct (todo (threads s m)) as [|o os] eqn:Et.
  - destruct (jobs (threads s m)) as [|[ops|h q] js] eqn:Ej; [done|..].
    + injection Hs as <-. split; [done|]. eexists. split; [done|]. right. left. by exists ops, js.
    + destruct (run h q (world s)) as [w r]. injection Hs as <-. split; [done|]. eexists. split; [done|].
      right. right. by exists h, q, js, r.
  - injection Hs as <-. split; [done|]. eexists. split; [done|]. left. by exists o, os.
Qed.

(** ** The invariant of the queues *)

(** The jobs to register and to run a handler. *)
Definition handled (l : list (job M A J)) : list (request J) :=
  omap (fun j => match j with Handle _ q => Some q | RegisterHandlers _ => None end) l.
Definition asked (l : list (job M A J)) : list (list (Tables.op (ws_handler M A))) :=
  omap (fun j => match j with RegisterHandlers ops => Some ops | Handle _ _ => None end) l.
(** The changes a module waits for. *)
Definition changes (m : M) (l : list (task M A J)) : list (Tables.op (ws_handler M A)) :=
  omap (fun k => match k with Change m' o => if decide (m' = m) then Some o else None | Incoming _ => None end) l.

(** A module waits for one change, or for none; the server waits for a module that
    has its request, and no other module has one. *)
Record queues (s : state) : Prop := {
  queues_changes m : length (changes m (tasks s)) = if waits (threads s m) then 1%nat else O;
  queues_handled m : handled (jobs (threads s m)) =
    match serving s with Some (m', q) => if decide (m' = m) then [q] else [] | None => [] end;
}.

Lemma changes_app m l1 l2 : changes m (l1 ++ l2) = changes m l1 ++ changes m l2.
Proof. apply omap_app. Qed.
Lemma handled_app l1 l2 : handled (l1 ++ l2) = handled l1 ++ handled l2.
Proof. apply omap_app. Qed.
Lemma asked_app l1 l2 : asked (l1 ++ l2) = asked l1 ++ asked l2.
Proof. apply omap_app. Qed.

Lemma queues_start ops w : queues (start ops w).
Proof. by split. Qed.

Lemma queues_step s s' : queues s -> step s s' -> queues s'.
Proof.
  intros [Hc Hh] Hs. destruct Hs as [s s' [s1 s2 Hs|m s1 s2 Hs]|q s].
  - apply server_cases in Hs as (Hn & k & l & Hl & Hl' & Hk). rewrite Hn in Hh. destruct k as [m o|q].
    + destruct Hk as (_ & Hn' & _ & Ht). split; rewrite ?Hn', ?Ht, ?Hl'; intros m'.
      * specialize (Hc m'). rewrite Hl in Hc. cbn in Hc. unfold changes. destruct (decide (m = m')) as [<-|Hm].
        -- rewrite set_thread_eq. cbn. cbn in Hc. case_match; lia.
        -- by rewrite set_thread_ne by congruence.
      * destruct (decide (m' = m)) as [->|Hm]; [rewrite set_thread_eq|rewrite set_thread_ne by done]; apply Hh.
    + destruct Hk as (_ & [(m & h & _ & Hs' & _ & Ht)|(Hs' & Ht & _)]).
      * split; rewrite ?Hs', ?Ht, ?Hl'; intros m'.
        -- specialize (Hc m'). rewrite Hl in Hc. destruct (decide (m' = m)) as [->|Hm];
             [rewrite set_thread_eq|rewrite set_thread_ne by done]; exact Hc.
        -- destruct (decide (m = m')) as [<-|Hm].
           ++ rewrite set_thread_eq. cbn [jobs enqueue]. by rewrite handled_app, Hh.
           ++ by rewrite set_thread_ne by congruence.
      * split; rewrite ?Hs', ?Ht, ?Hl'; intros m'; [|done]. specialize (Hc m'). by rewrite Hl in Hc.
  - apply thread_cases in Hs as (Hw & _ & t & Ht & Hcase). pose proof (Hh m) as Hhm. pose proof (Hc m) as Hcm. rewrite Hw in Hcm.
    split; intros m'; rewrite Ht; (destruct (decide (m' = m)) as [->|Hm];
      [rewrite set_thread_eq|rewrite set_thread_ne by done; specialize (Hc m'); specialize (Hh m')]).
    all: destruct Hcase as [(o & os & _ & -> & Hl & Hs' & _)|[(ops & js & _ & Hj & -> & Hl & Hs' & _)|(h & q & js & r & _ & Hj & -> & Hl & Hs' & _)]].
    all: rewrite ?Hl, ?Hs', ?changes_app, ?length_app; try done.
    + rewrite Hcm. cbn. by rewrite decide_True.
    + cbn. rewrite decide_False by congruence. cbn. lia.
    + cbn [jobs]. by rewrite Hj in Hhm.
    + cbn [jobs]. rewrite Hj in Hhm. cbn in Hhm. destruct (serving s1) as [[m' q']|]; [|done]. case_decide; [|done].
      by injection Hhm.
    + rewrite Hh. rewrite Hj in Hhm. cbn in Hhm. destruct (serving s1) as [[m'' q']|]; [|done].
      destruct (decide (m'' = m)) as [->|]; [by rewrite decide_False by congruence|done].
  - split; intros m; [|apply Hh]. cbn [arrive tasks threads]. rewrite changes_app, app_nil_r. apply Hc.
Qed.

(** What is reachable from the start. *)
Abbreviation reachable ops w s := (rtc step (start ops w) s).

Lemma reachable_queues ops w s : reachable ops w s -> queues s.
Proof. revert s. apply rtc_ind_r; [apply queues_start|]. intros s1 s2 _ Hs Hq. by apply (queues_step s1). Qed.

(** ** A server that is stuck *)

Lemma stuck_step s s' : queues s -> step s s' -> stuck s -> stuck s' /\ sent s' = sent s.
Proof.
  intros Hq Hs (m & q & Hm & Hw). destruct Hs as [s s' [s1 s2 Hs|m' s1 s2 Hs]|q' s].
  - apply server_cases in Hs as [Hn _]. congruence.
  - apply thread_cases in Hs as (Hw' & _ & t & Ht & Hcase). assert (Hne : m <> m') by congruence.
    unfold stuck. rewrite Ht.
    destruct Hcase as [(o & os & _ & _ & _ & Hs' & Hr)|[(ops & js & _ & _ & _ & _ & Hs' & Hr)|(h & q' & js & r & _ & Hj & _)]].
    1,2: rewrite Hs'; split; [|done]; exists m, q; by rewrite set_thread_ne.
    pose proof (queues_handled _ Hq m') as Hh. rewrite Hm, decide_False, Hj in Hh by done. done.
  - split; [|done]. by exists m, q.
Qed.

(** ** Modules with one posted handler *)

(** A module that is done registering. *)
Definition settled (t : thread M A J) : Prop := todo t = [] /\ waits t = false /\ asked (jobs t) = [].

Record calm (s : state) : Prop := {
  calm_posted name m h : asio_handlers_posted s name = Some (m, h) -> settled (threads s m);
  calm_served m q : serving s = Some (m, q) -> settled (threads s m);
  calm_todo m : careful m (todo (threads s m));
  calm_change m o : o ∈ changes m (tasks s) -> posts o = None \/ (posts o = Some m /\ todo (threads s m) = []);
  calm_asked m : asked (jobs (threads s m)) = [] \/
    exists ops, asked (jobs (threads s m)) = [ops] /\ careful m ops /\ todo (threads s m) = [] /\
      waits (threads s m) = false;
}.

(** Only the change that posts a handler makes one appear. *)
Lemma apply_posted o (s s' : state) name m h : tables s' = (Tables.apply o (tables s)).1 ->
  asio_handlers_posted s' name = Some (m, h) -> asio_handlers_posted s name = Some (m, h) \/ posts o = Some m.
Proof.
  unfold asio_handlers_posted. intros ->. destruct o as [n h'|r f|n]; cbn.
  - unfold Tables.register_asio_handler. destruct (Tables.has_handler n (tables s)); [by left|]. cbn.
    destruct (decide (n = name)) as [->|Hn]; [|rewrite lookup_insert_ne by done; by left].
    rewrite lookup_insert_eq. destruct h'; [|done]. intros [= <- <-]. by right.
  - by left.
  - destruct (decide (n = name)) as [->|Hn]; [by rewrite lookup_delete_eq|rewrite lookup_delete_ne by done; by left].
Qed.

(** A thread that is done only runs handlers. *)
Lemma settled_thread s s' m : thread_step m s = Some s' -> settled (threads s m) -> settled (threads s' m).
Proof.
  intros Hs (Ht & Hw & Ha). apply thread_cases in Hs as (_ & _ & t & Hth & Hcase). rewrite Hth, set_thread_eq.
  destruct Hcase as [(o & os & Hto & _)|[(ops & js & _ & Hj & _)|(h & q & js & r & _ & Hj & -> & _)]].
  - by rewrite Ht in Hto.
  - by rewrite Hj in Ha.
  - rewrite Hj in Ha. by split_and!.
Qed.

Lemma calm_start ops w : (forall m, careful m (ops m)) -> calm (start ops w).
Proof.
  intros Hops. split; try done.
  - intros m o Ho. by apply elem_of_nil in Ho.
  - intros m. right. by exists (ops m).
Qed.

(** The invariant looks at no more than this of a state. *)
Lemma calm_same s s' : calm s ->
  (forall name, asio_handlers_posted s' name = asio_handlers_posted s name) ->
  (forall m, changes m (tasks s') = changes m (tasks s)) ->
  (forall m, todo (threads s' m) = todo (threads s m) /\ waits (threads s' m) = waits (threads s m) /\
     asked (jobs (threads s' m)) = asked (jobs (threads s m))) ->
  (forall m q, serving s' = Some (m, q) ->
     serving s = Some (m, q) \/ exists name h, asio_handlers_posted s name = Some (m, h)) ->
  calm s'.
Proof.
  intros [Hp Hv Ht Hc Ha] Hpo Hch Hth Hse.
  assert (Hset : forall m, settled (threads s m) -> settled (threads s' m)).
  { intros m (E1 & E2 & E3). destruct (Hth m) as (F1 & F2 & F3). unfold settled. by rewrite F1, F2, F3. }
  split.
  - intros name m h. rewrite Hpo. eauto.
  - intros m q [E|(name & h & E)]%Hse; eauto.
  - intros m. destruct (Hth m) as (-> & _). apply Ht.
  - intros m o. rewrite Hch. destruct (Hth m) as (-> & _). apply Hc.
  - intros m. destruct (Hth m) as (-> & -> & ->). apply Ha.
Qed.

(** The server carries out a change: the module that waited goes on. *)
Lemma calm_change_done s s' m o l : queues s -> calm s -> tasks s = Change m o :: l -> tasks s' = l ->
  tables s' = (Tables.apply o (tables s)).1 -> serving s = None -> serving s' = None ->
  threads s' = set_thread m (resume (threads s m)) (threads s) -> calm s'.
Proof.
  intros Hq [Hp Hv Ht Hc Ha] Hl Hl' Htab Hn Hn' Hth. pose proof (queues_changes _ Hq m) as Hw.
  assert (Hcm : changes m (tasks s) = o :: changes m l) by (rewrite Hl; unfold changes; cbn; by rewrite decide_True).
  assert (Hin : forall m' o', o' ∈ changes m' l -> o' ∈ changes m' (tasks s)).
  { intros m' o' Ho. rewrite Hl. unfold changes in *. cbn. case_decide; [by apply elem_of_cons; right|done]. }
  assert (Ho : posts o = None \/ (posts o = Some m /\ todo (threads s m) = [])).
  { apply Hc. rewrite Hcm. apply elem_of_cons. by left. }
  assert (Hwm : waits (threads s m) = true) by (rewrite Hcm in Hw; by destruct (waits _)).
  assert (Ham : asked (jobs (threads s m)) = []).
  { destruct (Ha m) as [E|(? & _ & _ & _ & E)]; [done|congruence]. }
  split; rewrite ?Hn', ?Hl'; try done.
  - intros name m' h Hpo. rewrite Hth. destruct (apply_posted _ _ _ _ _ _ Htab Hpo) as [Hold|Hnew].
    + apply Hp in Hold. destruct (decide (m' = m)) as [->|Hm]; [|by rewrite set_thread_ne].
      destruct Hold as (_ & Hf & _). congruence.
    + destruct Ho as [Ho|[Ho Hto]]; [congruence|]. rewrite Hnew in Ho. injection Ho as ->.
      rewrite set_thread_eq. by split_and!.
  - intros m'. rewrite Hth. destruct (decide (m' = m)) as [->|Hm]; [rewrite set_thread_eq|rewrite set_thread_ne by done]; apply Ht.
  - intros m' o' Ho'. apply Hin, Hc in Ho'. rewrite Hth.
    destruct (decide (m' = m)) as [->|Hm]; [rewrite set_thread_eq|rewrite set_thread_ne by done]; exact Ho'.
  - intros m'. rewrite Hth. destruct (decide (m' = m)) as [->|Hm]; [rewrite set_thread_eq|rewrite set_thread_ne by done; apply Ha].
    left. exact Ham.
Qed.

Lemma calm_server s s' : queues s -> server_step s = Some s' -> calm s -> calm s'.
Proof.
  intros Hq Hs Hcalm. apply server_cases in Hs as (Hn & k & l & Hl & Hl' & Hk). destruct k as [m o|q].
  - destruct Hk as (Htab & Hn' & _ & Hth). by eapply calm_change_done.
  - destruct Hk as (Htab & Hcase). apply (calm_same s); [done| | | |].
    + intros name. unfold asio_handlers_posted. by rewrite Htab.
    + intros m. by rewrite Hl, Hl'.
    + intros m'. destruct Hcase as [(m & h & _ & _ & _ & ->)|(_ & -> & _)]; [|done].
      destruct (decide (m' = m)) as [->|Hm]; [rewrite set_thread_eq|by rewrite set_thread_ne].
      cbn [enqueue todo waits jobs]. by rewrite asked_app, app_nil_r.
    + intros m' q'. destruct Hcase as [(m & h & Hpm & -> & _)|(-> & _)]; [|done]. intros [= <- <-]. right. by eauto.
Qed.

Lemma calm_thread m s s' : queues s -> thread_step m s = Some s' -> calm s -> calm s'.
Proof.
  intros Hq Hs Hcalm. pose proof Hcalm as [Hp Hv Ht Hc Ha].
  assert (Hset : forall m', settled (threads s m') -> settled (threads s' m')).
  { intros m' Hst. destruct (decide (m' = m)) as [->|Hm]; [by eapply settled_thread|].
    apply thread_cases in Hs as (_ & _ & t & -> & _). by rewrite set_thread_ne. }
  apply thread_cases in Hs as (Hw & Htab & t & Hth & Hcase).
  assert (Hpo : forall name, asio_handlers_posted s' name = asio_handlers_posted s name)
    by (intros; unfold asio_handlers_posted; by rewrite Htab).
  split.
  - intros name m' h. rewrite Hpo. eauto.
  - intros m' q Hs'. apply Hset, (Hv m' q).
    by destruct Hcase as [(o & os & _ & _ & _ & E & _)|[(ops & js & _ & _ & _ & _ & E & _)|(h & q' & js & r & _ & _ & _ & _ & E & _)]]; congruence.
  - intros m'. rewrite Hth. destruct (decide (m' = m)) as [->|Hm]; [rewrite set_thread_eq|rewrite set_thread_ne by done; apply Ht].
    destruct Hcase as [(o & os & Hto & -> & _)|[(ops & js & Hto & Hj & -> & _)|(h & q & js & r & _ & _ & -> & _)]]; [..|done].
    + specialize (Ht m). rewrite Hto in Ht. cbn in Ht |- *. by destruct (posts o) as [?|]; [destruct Ht as [_ ->]|].
    + destruct (Ha m) as [E|(ops' & E & Hcar & _)]; rewrite Hj in E; [done|]. by injection E as <- _.
  - assert (Hnone : changes m (tasks s) = []).
    { pose proof (queues_changes _ Hq m) as Hz. rewrite Hw in Hz. by destruct (changes m (tasks s)). }
    intros m' o'. rewrite Hth.
    destruct Hcase as [(o & os & Hto & -> & -> & _)|[(ops & js & Hto & Hj & -> & -> & _)|(h & q & js & r & Hto & _ & -> & -> & _)]];
      rewrite ?changes_app; (destruct (decide (m' = m)) as [->|Hm];
      [rewrite set_thread_eq, Hnone|rewrite set_thread_ne by done]); try by intros Ho%elem_of_nil.
    + cbn. rewrite decide_True by done. intros ->%list_elem_of_singleton. specialize (Ht m). rewrite Hto in Ht. cbn in Ht.
      destruct (posts o) as [?|]; [destruct Ht as [-> ->]; by right|by left].
    + cbn. rewrite decide_False, app_nil_r by congruence. apply Hc.
    + apply Hc.
    + apply Hc.
  - intros m'. rewrite Hth. destruct (decide (m' = m)) as [->|Hm]; [rewrite set_thread_eq|rewrite set_thread_ne by done; apply Ha].
    destruct Hcase as [(o & os & Hto & -> & _)|[(ops & js & Hto & Hj & -> & _)|(h & q & js & r & Hto & Hj & -> & _)]]; cbn.
    + left. destruct (Ha m) as [E|(? & _ & _ & E & _)]; [done|congruence].
    + left. destruct (Ha m) as [E|(ops' & E & _)]; rewrite Hj in E; [done|]. by injection E.
    + destruct (Ha m) as [E|(ops' & E & Hcar & _)]; rewrite Hj in E; [by left|right; by exists ops'].
Qed.

Lemma reachable_calm ops w s : (forall m, careful m (ops m)) -> reachable ops w s -> calm s.
Proof.
  intros Hops Hr. enough (Hqc : queues s /\ calm s) by apply Hqc. revert s Hr. apply rtc_ind_r.
  - split; [apply queues_start|by apply calm_start].
  - intros s1 s2 _ Hs [Hq Hc]. split; [by apply (queues_step s1)|].
    destruct Hs as [s s' [s1 s2 Hs|m s1 s2 Hs]|q s].
    + by apply (calm_server s1).
    + by apply (calm_thread m s1).
    + apply (calm_same s); [done|done| |done|intros; by left].
      intros m. cbn [arrive tasks]. by rewrite changes_app, app_nil_r.
Qed.

(** ** Answers come in the order of the requests *)

Lemma internal_step s s' : internal s s' -> step s s'.
Proof. apply step_internal. Qed.

(** Those that are answered and those that wait, in this order. *)
Definition asked_for (s : state) : list Z := map fst (sent s) ++ map hdl (owed s).

Lemma owed_step s s' : queues s -> internal s s' -> asked_for s' = asked_for s.
Proof.
  intros Hq Hs. unfold asked_for, owed. destruct Hs as [s s' Hs|m s s' Hs].
  - apply server_cases in Hs as (Hn & k & l & Hl & Hl' & Hk). rewrite Hn, Hl, Hl'. destruct k as [m o|q].
    + destruct Hk as (_ & -> & -> & _). done.
    + destruct Hk as (_ & [(m & h & _ & -> & -> & _)|(-> & _ & r & ->)]); [done|].
      by rewrite map_app, <- app_assoc.
  - apply thread_cases in Hs as (_ & _ & t & _ & [(o & os & _ & _ & Hl & -> & ->)|[(ops & js & _ & _ & _ & -> & -> & ->)
      |(h & q & js & r & _ & Hj & _ & -> & Hs & ->)]]); [by rewrite Hl, incoming_app, app_nil_r|done|].
    rewrite Hs. pose proof (queues_handled _ Hq m) as Hh. rewrite Hj in Hh. cbn in Hh.
    destruct (serving s) as [[m' q']|]; [|done]. case_decide; [|done]. injection Hh as <- _.
    by rewrite map_app, <- app_assoc.
Qed.

(** When no thread can go on, the server is stuck or everything is answered. *)
Lemma quiet_answered s : queues s -> (forall s', ~ internal s s') -> ~ stuck s -> owed s = [].
Proof.
  intros Hq Hquiet Hst. unfold owed. destruct (serving s) as [[m q]|] eqn:Hs.
  - exfalso. destruct (waits (threads s m)) eqn:Hw; [by destruct Hst; exists m, q|].
    pose proof (queues_handled _ Hq m) as Hh. rewrite Hs, decide_True in Hh by done.
    destruct (thread_step m s) as [s'|] eqn:E; [by apply (Hquiet s'), (by_thread m)|].
    unfold thread_step in E. rewrite Hw in E. destruct (todo (threads s m)); [|done].
    destruct (jobs (threads s m)) as [|[ops|h q'] js]; try done. by destruct (run h q' (world s)).
  - destruct (tasks s) as [|k l] eqn:Hl; [done|]. exfalso.
    destruct (server_step s) as [s'|] eqn:E; [by apply (Hquiet s'), by_server|].
    unfold server_step in E. rewrite Hs, Hl in E. repeat case_match; done.
Qed.

End loops.

(** ** How long it takes *)

Section weight.
Context {M : Type} `{EqDecision M} `{!Finite M} {A J W R : Type}.
Context (run : A -> request J -> W -> W * R) (serve : Tables.found (ws_handler M A) -> request J -> W -> W * R).
Abbreviation state := (sys M A J W R).

Definition task_weight (k : task M A J) : nat := match k with Change _ _ => 1 | Incoming _ => 3 end.
Definition job_weight (j : job M A J) : nat := match j with RegisterHandlers ops => 1 + 2 * length ops | Handle _ _ => 2 end.
Definition thread_weight (t : thread M A J) : nat := (sum_list_with job_weight (jobs t) + 2 * length (todo t))%nat.

(** The steps the threads can still make by themselves. *)
Definition weight (s : state) : nat :=
  (sum_list_with task_weight (tasks s) + sum_list_with (fun m => thread_weight (threads s m)) (enum M))%nat.

Lemma sum_thread m t (f : M -> thread M A J) l : NoDup l -> m ∈ l ->
  (sum_list_with (fun m' => thread_weight (set_thread m t f m')) l + thread_weight (f m) =
   sum_list_with (fun m => thread_weight (f m)) l + thread_weight t)%nat.
Proof.
  induction l as [|m' l IH]; intros Hnd Hin; [by apply elem_of_nil in Hin|].
  apply NoDup_cons in Hnd as [Hm Hnd]. cbn. apply elem_of_cons in Hin as [<-|Hin].
  - rewrite set_thread_eq. enough (sum_list_with (fun m' => thread_weight (set_thread m t f m')) l =
      sum_list_with (fun m => thread_weight (f m)) l) by lia.
    clear IH Hnd. induction l as [|m' l IH]; [done|]. cbn. apply not_elem_of_cons in Hm as [Hne Hm].
    rewrite set_thread_ne by congruence. by rewrite IH.
  - rewrite (set_thread_ne m m') by (intros ->; by apply Hm). specialize (IH Hnd Hin). lia.
Qed.

Lemma weight_server s s' : server_step run serve s = Some s' -> (weight s' < weight s)%nat.
Proof.
  intros Hs. apply server_cases in Hs as (_ & k & l & Hl & Hl' & Hk). unfold weight. rewrite Hl, Hl'. destruct k as [m o|q].
  - destruct Hk as (_ & _ & _ & ->).
    pose proof (sum_thread m (resume (threads s m)) (threads s) (enum M) (NoDup_enum M) (elem_of_enum m)) as Hw.
    unfold thread_weight in Hw at 2 4. cbn in Hw |- *. lia.
  - destruct Hk as (_ & [(m & h & _ & _ & _ & ->)|(_ & -> & _)]); [|cbn; lia].
    pose proof (sum_thread m (enqueue (Handle h q) (threads s m)) (threads s) (enum M) (NoDup_enum M) (elem_of_enum m)) as Hw.
    unfold thread_weight in Hw at 2 4. cbn in Hw |- *. rewrite sum_list_with_app in Hw. cbn in Hw. lia.
Qed.

Lemma weight_thread m s s' : thread_step run m s = Some s' -> (weight s' < weight s)%nat.
Proof.
  intros Hs. apply thread_cases in Hs as (_ & _ & t & Ht & Hcase). unfold weight. rewrite Ht.
  pose proof (sum_thread m t (threads s) (enum M) (NoDup_enum M) (elem_of_enum m)) as Hw.
  unfold thread_weight in Hw at 2 4.
  destruct Hcase as [(o & os & Hto & -> & -> & _)|[(ops & js & Hto & Hj & -> & -> & _)|(h & q & js & r & Hto & Hj & -> & -> & _)]];
    rewrite Hto, ?Hj in Hw; cbn in Hw |- *; rewrite ?sum_list_with_app; cbn; lia.
Qed.

Lemma weight_internal n s s' : nsteps (internal run serve) n s s' -> (n + weight s' <= weight s)%nat.
Proof.
  induction 1 as [s|n s s1 s' Hs _ IH]; [done|].
  assert (weight s1 < weight s)%nat by (destruct Hs; eauto using weight_server, weight_thread). lia.
Qed.

(** ** Properties *)

Abbreviation reachable ops w s := (rtc (step run serve) (start ops w) s).

(** (error) Once the server waits for a thread that waits for the server, no client is
    ever answered again, whatever it sends. *)
Theorem stuck_for_ever ops w (s s' : state) :
  reachable ops w s -> stuck s -> rtc (step run serve) s s' -> stuck s' /\ sent s' = sent s.
Proof.
  intros Hr Hst Hs. apply reachable_queues in Hr. induction Hs as [s|s1 s2 s3 Hs _ IH]; [done|].
  destruct (stuck_step _ _ _ _ Hr Hs Hst) as [Hst2 <-]. apply IH; [by eapply queues_step|done].
Qed.

(** C19: (liveness) When each module registers one handler of its own at most to be posted to it, and
    that last, the server is never stuck: from any state it reaches, with whatever
    requests clients sent, the threads stop of themselves within [weight] steps, and
    then every request has been answered, in the order in which they came. *)
Theorem requests_answered ops w (s : state) :
  (forall m, careful m (ops m)) -> reachable ops w s ->
  (forall n s', nsteps (internal run serve) n s s' -> (n <= weight s)%nat) /\
  forall s', rtc (internal run serve) s s' -> (forall s2, ~ internal run serve s' s2) ->
    map fst (sent s') = map fst (sent s) ++ map hdl (owed s).
Proof.
  intros Hops Hr. split.
  - intros n s' Hn. apply weight_internal in Hn. lia.
  - intros s' Hs Hquiet.
    assert (Hr' : reachable ops w s').
    { etransitivity; [exact Hr|]. eapply rtc_subrel; [|exact Hs]. intros a b. apply internal_step. }
    assert (Hfifo : asked_for s' = asked_for s).
    { clear Hquiet Hr'. apply reachable_queues in Hr. induction Hs as [s|s1 s2 s3 Hs _ IH]; [done|].
      rewrite IH; [by eapply owed_step|]. eapply queues_step; [done|]. by apply internal_step. }
    unfold asked_for in Hfifo. rewrite (quiet_answered run serve s'), app_nil_r in Hfifo; [done| |done|].
    + by eapply reachable_queues.
    + intros (m & q & Hse & Hw). apply reachable_calm in Hr'; [|done].
      destruct (calm_served _ Hr' _ _ Hse) as (_ & Hf & _). congruence.
Qed.

(** ** Runs *)

Inductive actor := TheServer | TheThread (m : M) | AClient (q : request J).
Definition act (a : actor) (s : state) : option state :=
  match a with
  | TheServer => server_step run serve s
  | TheThread m => thread_step run m s
  | AClient q => Some (arrive q s)
  end.
Fixpoint play (l : list actor) (s : state) : option state :=
  match l with [] => Some s | a :: l => s ← act a s; play l s end.

Lemma play_steps l s s' : play l s = Some s' -> rtc (step run serve) s s'.
Proof.
  revert s. induction l as [|a l IH]; intros s; cbn; [by intros [= ->]|].
  destruct (act a s) as [s1|] eqn:E; [|done]. intros Hp. apply (rtc_l _ s s1); [|by apply IH].
  destruct a as [|m|q]; cbn in E; [by apply step_internal, by_server|by apply step_internal, (by_thread _ _ m)|].
  injection E as <-. apply step_arrive.
Qed.

End weight.
End Loops.

(** * The handlers of the modules *)

Module Program.
Import Tables Loops.

(** The threads that register handlers, and the handlers that are not resources. *)
Inductive module := PIFACEDIGITAL | WIEGAND | LED_BUZZER | SMTP.
Inductive code := IsDegradedMode | TestOutputPin | SmtpGetConfig | SmtpSetConfig | SmtpSendMail.

#[export] Instance module_eq_dec : EqDecision module.
Proof. solve_decision. Defined.
#[export] Program Instance module_finite : Finite module := {| enum := [PIFACEDIGITAL; WIEGAND; LED_BUZZER; SMTP] |}.
Next Obligation. by apply (bool_decide_eq_true_1 _). Qed.
Next Obligation. intros []; set_solver. Qed.

Definition wshandler_getconfig : string := "module.smtp.getconfig".
Definition wshandler_setconfig : string := "module.smtp.setconfig".
Definition wshandler_sendmail : string := "module.smtp.sendmail".

(** [register_ws_handlers] of each module; the SMTP module's handlers go to its own
    [io_service_], after a check of their permission. *)
Definition register_ws_handlers (m : module) : list (op (ws_handler module code)) :=
  match m with
  | PIFACEDIGITAL =>
      [RegisterAsio "pfdigital.is_degraded_mode" (Direct IsDegradedMode);
       RegisterAsio "pfdigital.test_output_pin" (Direct TestOutputPin);
       RegisterCrud "pfdigital.gpio" (ModuleCRUD "Piface::CRUDHandler")]
  | WIEGAND => [RegisterCrud "wiegand-reader" (ModuleCRUD "Wiegand::CRUDHandler")]
  | LED_BUZZER =>
      [RegisterCrud "buzzer" (ModuleCRUD "LedBuzzer::CRUDHandler<Buzzer>");
       RegisterCrud "led" (ModuleCRUD "LedBuzzer::CRUDHandler<LED>")]
  | SMTP =>
      [RegisterAsio wshandler_getconfig (Posted SMTP SmtpGetConfig);
       RegisterAsio wshandler_setconfig (Posted SMTP SmtpSetConfig);
       RegisterAsio wshandler_sendmail (Posted SMTP SmtpSendMail)]
  end.

(** [unregister_ws_handlers]; the SMTP module has none. *)
Definition unregister_ws_handlers (m : module) : list (op (ws_handler module code)) :=
  match m with
  | PIFACEDIGITAL =>
      map Unregister ["pfdigital.is_degraded_mode"; "pfdigital.test_output_pin"; "pfdigital.gpio.create";
                      "pfdigital.gpio.read"; "pfdigital.gpio.update"; "pfdigital.gpio.delete"]
  | WIEGAND =>
      map Unregister ["wiegand-reader.create"; "wiegand-reader.read"; "wiegand-reader.update"; "wiegand-reader.delete"]
  | LED_BUZZER =>
      map Unregister ["buzzer.create"; "buzzer.read"; "buzzer.update"; "buzzer.delete";
                      "led.create"; "led.read"; "led.update"; "led.delete"]
  | SMTP => []
  end.

(** What the modules register where SMTP does not use the database. *)
Definition without_smtp (m : module) : list (op (ws_handler module code)) :=
  match m with SMTP => [] | m => register_ws_handlers m end.

Section program.
Context {J W R : Type}.
Context (run : code -> request J -> W -> W * R) (serve : found (ws_handler module code) -> request J -> W -> W * R).

(** (functional) A module that registers its handlers and removes them leaves the tables as
    they were, the SMTP module excepted: its handlers stay, and post to the
    [io_service] of a module that is gone. *)
Theorem handlers_removed m :
  forallb nice (register_ws_handlers m) = true /\
  (apply_all (unregister_ws_handlers m) (apply_all (register_ws_handlers m) WSServer) = WSServer <-> m <> SMTP) /\
  asio_handlers_ (apply_all (unregister_ws_handlers SMTP) (apply_all (register_ws_handlers SMTP) WSServer)) !!
    wshandler_sendmail = Some (Posted SMTP SmtpSendMail).
Proof.
  assert (Hleft : asio_handlers_ (apply_all (unregister_ws_handlers SMTP)
    (apply_all (register_ws_handlers SMTP) (WSServer (H := ws_handler module code)))) !! wshandler_sendmail =
    Some (Posted SMTP SmtpSendMail)) by (vm_compute; reflexivity).
  split_and!; [destruct m; vm_compute; reflexivity| |exact Hleft].
  destruct m; [(split; [intros _ [=]|intros _; vm_cast_no_check (eq_refl (WSServer (H := ws_handler module code)))])..|].
  split; [|intros Hne; by destruct Hne]. intros He. rewrite He in Hleft. clear He. vm_compute in Hleft. discriminate.
Qed.

Lemma smtp_found : find_handler wshandler_getconfig
  (apply (RegisterAsio wshandler_getconfig (Posted SMTP SmtpGetConfig)) WSServer).1 = Asio (Posted SMTP SmtpGetConfig).
Proof. vm_compute. reflexivity. Qed.

(** (error) A request for one handler of the SMTP module that comes while the module
    registers the next leaves the server and the module waiting for each other, for ever:
    no client of the API is answered any more. *)
Theorem smtp_deadlock (q : request J) w : type_ q = wshandler_getconfig ->
  exists s, rtc (step run serve) (start register_ws_handlers w) s /\ owed s = [q] /\
    forall s', rtc (step run serve) s s' -> stuck s' /\ sent s' = [].
Proof.
  intros Hq.
  assert (Hs : exists s, play run serve
      [TheThread SMTP; TheThread SMTP; TheServer; AClient q; TheThread SMTP; TheServer] (start register_ws_handlers w) = Some s /\
      owed s = [q] /\ stuck s /\ sent s = []).
  { eexists. split.
    - unfold play, act, thread_step, server_step.
      do 6 (cbn -[apply find_handler set_thread WSServer]; rewrite ?set_thread_eq).
      rewrite Hq, smtp_found. cbn -[apply find_handler set_thread WSServer]. reflexivity.
    - split; [reflexivity|]. split; [|reflexivity]. exists SMTP, q. by split. }
  destruct Hs as (s & Hp & Ho & Hst & Hse). apply play_steps in Hp. exists s. split_and!; [done..|].
  intros s' Hs'. rewrite <- Hse. by eapply stuck_for_ever.
Qed.

End program.
End Program.

(** * The helper thread of a module *)

(** [BaseModuleSupportThread]: the thread looks for the service, then asks to be told
    of services, and registers the module's handlers for what it found and for what it is
    told. The server puts its service into the registry and tells the
    listeners after it let go of the registry's lock. *)
Module HelperThread.

(** Where [run_io_service] is. *)
Inductive place := Fresh | Looked | Listening | Posted | Running | Finished.
Inductive phase := Absent | Inserted | Announced.

#[export] Instance place_eq_dec : EqDecision place.
Proof. solve_decision. Defined.
#[export] Instance phase_eq_dec : EqDecision phase.
Proof. solve_decision. Defined.

Record t := mk {
  pc : place;
  service : phase;
  ws_service : bool;
  service_event_listener_ : bool;
  (** the jobs of [io_], each to call [register_ws_handlers] *)
  io_ : nat;
  registered : nat;
  work_ : bool;
  destroyed : bool;
}.

Definition fresh : t := mk Fresh Absent false false 0 0 false false.

Inductive event := Look | Listen | Post | Work | Register | Return | Insert | Announce | Destroy.

(** What the event does, if it can happen. [Destroy] is the destructor up to
    [join()], which returns once the thread is [Finished]. *)
Definition act (e : event) (s : t) : option t :=
  let '(mk pc sv ws l io n w d) := s in
  match e with
  | Look => if decide (pc = Fresh) then Some (mk Looked sv (negb (bool_decide (sv = Absent))) l io n w d) else None
  | Listen => if decide (pc = Looked) then Some (mk Listening sv ws true io n w d) else None
  | Post => if decide (pc = Listening) then Some (mk Posted sv ws l (if ws then S io else io) n w d) else None
  | Work => if decide (pc = Posted) then Some (mk Running sv ws l io n true d) else None
  | Register =>
      if decide (pc = Running) then match io with S io => Some (mk pc sv ws l io (S n) w d) | O => None end else None
  | Return =>
      if decide (pc = Running) then match io, w with O, false => Some (mk Finished sv ws l O n w d) | _, _ => None end
      else None
  | Insert => if decide (sv = Absent) then Some (mk pc Inserted ws l io n w d) else None
  | Announce =>
      if decide (sv = Inserted) then Some (mk pc Announced ws l (if l then S io else io) n w d) else None
  | Destroy => if d then None else Some (mk pc sv ws l io n false true)
  end.

Fixpoint run (l : list event) (s : t) : option t :=
  match l with [] => Some s | e :: l => s ← act e s; run l s end.

#[export] Instance event_eq_dec : EqDecision event.
Proof. solve_decision. Defined.

(** What happened, and in which order. *)
Definition happened (e : event) (l : list event) : bool := existsb (fun e' => bool_decide (e = e')) l.
Fixpoint precedes (e1 e2 : event) (l : list event) : bool :=
  match l with
  | [] => false
  | e :: l => (bool_decide (e = e1) && happened e2 l) || precedes e1 e2 l
  end.

Lemma run_app l1 l2 s : run (l1 ++ l2) s = (s1 ← run l1 s; run l2 s1).
Proof. revert s. induction l1 as [|e l1 IH]; intros s; cbn; [done|]. destruct (act e s); cbn; [apply IH|done]. Qed.

Lemma happened_snoc e e' l : happened e (l ++ [e']) = happened e l || bool_decide (e = e').
Proof. unfold happened. rewrite existsb_app. cbn. by rewrite orb_false_r. Qed.

Lemma precedes_snoc e1 e2 e l :
  precedes e1 e2 (l ++ [e]) = precedes e1 e2 l || (bool_decide (e2 = e) && happened e1 l).
Proof.
  induction l as [|e' l IH]; cbn; [by rewrite !andb_false_r|]. rewrite IH, happened_snoc.
  fold (happened e1 l). rewrite (bool_decide_ext (e1 = e') (e' = e1)) by (split; congruence).
  by destruct (bool_decide (e' = e1)), (happened e2 l), (precedes e1 e2 l), (bool_decide (e2 = e)), (happened e1 l).
Qed.

Lemma precedes_happened e1 e2 l : precedes e1 e2 l = true -> happened e1 l = true /\ happened e2 l = true.
Proof.
  induction l as [|e l IH]; [done|]. cbn. fold (happened e1 l) (happened e2 l).
  intros [[<-%bool_decide_eq_true Hh]%andb_true_iff|[H1 H2]%IH]%orb_true_iff.
  - by rewrite Hh, bool_decide_eq_true_2, orb_true_r.
  - by rewrite H1, H2, !orb_true_r.
Qed.

Lemma precedes_new e1 e2 l : happened e1 l && happened e2 l = false -> precedes e1 e2 l = false.
Proof. intros Hn. apply not_true_iff_false. intros [H1 H2]%precedes_happened. by rewrite H1, H2 in Hn. Qed.

Lemma precedes_total e1 e2 l : e1 <> e2 -> happened e1 l = true -> happened e2 l = true ->
  precedes e1 e2 l || precedes e2 e1 l = true.
Proof.
  intros Hne. induction l as [|e l IH]; [done|]. cbn. fold (happened e1 l) (happened e2 l). intros H1 H2.
  destruct (decide (e = e1)) as [->|N1].
  - rewrite (bool_decide_eq_false_2 (e2 = e1)) in H2 by congruence. cbn in H2. by rewrite H2, bool_decide_eq_true_2.
  - rewrite (bool_decide_eq_false_2 (e1 = e)) in H1 by congruence. cbn in H1.
    destruct (decide (e = e2)) as [->|N2].
    + by rewrite H1, (bool_decide_eq_true_2 (e2 = e2)), orb_true_r by done.
    + rewrite (bool_decide_eq_false_2 (e2 = e)) in H2 by congruence. cbn in H2.
      rewrite (bool_decide_eq_false_2 (e = e1)), (bool_decide_eq_false_2 (e = e2)) by congruence. by apply IH.
Qed.

Definition b2n (b : bool) : nat := if b then 1 else 0.

(** What a run says of its end. *)
Record tells (l : list event) (s : t) : Prop := {
  tells_look : happened Look l = negb (bool_decide (pc s = Fresh));
  tells_listen : happened Listen l = service_event_listener_ s;
  tells_insert : happened Insert l = negb (bool_decide (service s = Absent));
  tells_announce : happened Announce l = bool_decide (service s = Announced);
  tells_early : service_event_listener_ s = negb (bool_decide (pc s = Fresh) || bool_decide (pc s = Looked));
  tells_found : ws_service s = precedes Insert Look l;
  tells_looked : precedes Insert Look l && precedes Look Insert l = false;
  tells_listened : precedes Listen Announce l && precedes Announce Listen l = false;
  tells_count : (registered s + io_ s)%nat =
    (b2n (precedes Listen Announce l) +
     b2n (ws_service s && negb (bool_decide (pc s = Fresh) || bool_decide (pc s = Looked) || bool_decide (pc s = Listening))))%nat;
}.

(** Computes the comparisons of constructors. *)
Ltac decide_constructors :=
  repeat match goal with
  | H : context [bool_decide (?a = ?b)] |- _ =>
      let v := eval vm_compute in (bool_decide (a = b)) in
      first [constr_eq v true | constr_eq v false]; change (bool_decide (a = b)) with v in H
  | |- context [bool_decide (?a = ?b)] =>
      let v := eval vm_compute in (bool_decide (a = b)) in
      first [constr_eq v true | constr_eq v false]; change (bool_decide (a = b)) with v
  end.

Lemma run_tells l s : run l fresh = Some s -> tells l s.
Proof.
  revert s. induction l as [|e l IH] using rev_ind; intros s Hs; [injection Hs as <-; by split|].
  rewrite run_app in Hs. destruct (run l fresh) as [s1|]; [|done]. specialize (IH _ eq_refl).
  cbn in Hs. destruct (act e s1) as [s2|] eqn:E; [|done]. injection Hs as <-. rename s2 into s.
  destruct IH as [Ha Hb Hc Hd He Hf Hu Hv Hn]. destruct s1 as [p sv ws li io n w d]. cbn in Ha, Hb, Hc, Hd, He, Hf, Hn.
  pose proof (precedes_new Insert Look l) as N1. pose proof (precedes_new Look Insert l) as N2.
  pose proof (precedes_new Listen Announce l) as N3. pose proof (precedes_new Announce Listen l) as N4.
  destruct e; cbn in E; repeat match type of E with context [match ?x with _ => _ end] => destruct x end;
    try discriminate E; injection E as <-; subst.
  all: split; cbn [pc service ws_service service_event_listener_ io_ registered]; rewrite ?happened_snoc, ?precedes_snoc, ?Ha, ?Hb, ?Hc, ?Hd.
  all: decide_constructors; cbn [negb andb orb] in *; rewrite ?orb_false_r, ?orb_true_r, ?andb_false_r in *.
  all: try congruence; try lia; cbn [b2n] in *; try lia.
  rewrite N3 in Hn by (by rewrite Hd, andb_false_r). cbn [b2n] in Hn. lia.
Qed.

(** (functional) When the thread has run what was posted to it and the server is done
    announcing its service, the handlers were registered once for a service that was
    there when the thread looked and once for one that was announced after it listened:
    so twice when the server was between its two steps, and never when both happened
    between the thread's. *)
Theorem registered_times l s :
  run l fresh = Some s -> pc s = Running -> io_ s = O -> service s = Announced ->
  registered s = (b2n (precedes Insert Look l) + b2n (precedes Listen Announce l))%nat /\
  (registered s = O <-> precedes Look Insert l = true /\ precedes Announce Listen l = true).
Proof.
  intros Hr Hpc Hio Hs. assert (Hc : registered s = (b2n (precedes Insert Look l) + b2n (precedes Listen Announce l))%nat).
  { destruct (run_tells _ _ Hr) as [_ _ _ _ _ Hf _ _ Hn]. rewrite Hio, Hpc, Hf in Hn. cbn in Hn. rewrite andb_true_r in Hn. lia. }
  split; [done|]. rewrite Hc. destruct (run_tells _ _ Hr) as [Ha Hb Hi Hd He _ Hu Hv _].
  rewrite Hpc in Ha, He. rewrite Hs in Hi, Hd. rewrite He in Hb.
  pose proof (precedes_total Look Insert l ltac:(done) Ha Hi) as T1.
  pose proof (precedes_total Listen Announce l ltac:(done) Hb Hd) as T2. revert Hu Hv T1 T2.
  destruct (precedes Insert Look l), (precedes Look Insert l), (precedes Listen Announce l), (precedes Announce Listen l);
    cbn; try done; split; try done; by intros [].
Qed.

(** [work_] is gone for good, or will be made again and then stay. *)
Lemma run_destroyed (keeps : t -> Prop) :
  (forall e s s', keeps s -> act e s = Some s' -> keeps s') ->
  forall l s s', keeps s -> run l s = Some s' -> keeps s'.
Proof.
  intros Hk l. induction l as [|e l IH]; intros s s' Hs; cbn; [by intros [= <-]|].
  destruct (act e s) as [s1|] eqn:E; [|done]. apply IH. by apply (Hk e s).
Qed.

Ltac act_cases s H :=
  let p := fresh "p" in
  destruct s as [p ? ? ? ? ? ? ?]; cbn in *;
  repeat match type of H with context [match ?x with _ => _ end] => destruct x end;
  try discriminate H; injection H as <-; subst; cbn in *.

Lemma run_work l s : run l fresh = Some s -> happened Work l = false ->
  work_ s = false /\ pc s <> Running /\ pc s <> Finished.
Proof.
  revert s. induction l as [|e l IH] using rev_ind; intros s Hs; [injection Hs as <-; by intros|].
  rewrite run_app in Hs. destruct (run l fresh) as [s1|]; [|done]. cbn in Hs.
  destruct (act e s1) as [s2|] eqn:E; [|done]. injection Hs as <-. rewrite happened_snoc. intros [Hl He]%orb_false_iff.
  destruct (IH _ eq_refl Hl) as (H1 & H2 & H3). destruct e; act_cases s1 E; by split_and!.
Qed.

Lemma run_worked l s : run l fresh = Some s -> happened Work l = true -> pc s = Running \/ pc s = Finished.
Proof.
  revert s. induction l as [|e l IH] using rev_ind; intros s Hs; [done|].
  rewrite run_app in Hs. destruct (run l fresh) as [s1|]; [|done]. cbn in Hs.
  destruct (act e s1) as [s2|] eqn:E; [|done]. injection Hs as <-. rewrite happened_snoc. intros Hl.
  destruct (happened Work l).
  - specialize (IH _ eq_refl eq_refl). destruct e; act_cases s1 E; naive_solver.
  - apply bool_decide_eq_true in Hl. subst e. act_cases s1 E. by left.
Qed.

(** A thread whose [work_] is gone runs what was posted and ends. *)
Lemma run_out s : pc s = Running -> work_ s = false ->
  exists s2, run (repeat Register (io_ s) ++ [Return]) s = Some s2 /\ pc s2 = Finished.
Proof.
  destruct s as [p sv ws li io n w d]. cbn [pc work_ io_]. intros -> ->.
  revert n. induction io as [|io IH]; intros n; cbn; [by eexists|]. apply IH.
Qed.

(** (error) The destructor returns when the thread had made [work_] before it was reset: the
    thread runs what is left and ends. When not, the thread makes [work_] afterwards and never
    ends, whatever happens: [join()] waits for ever. *)
Theorem destructor_joins l s : run (l ++ [Destroy]) fresh = Some s ->
  forall l2 s', run l2 s = Some s' ->
  (happened Work l = false -> pc s' <> Finished) /\
  (happened Work l = true -> pc s' = Finished \/
     exists s2, run (repeat Register (io_ s') ++ [Return]) s' = Some s2 /\ pc s2 = Finished).
Proof.
  rewrite run_app. destruct (run l fresh) as [s1|] eqn:E1; [|done]. cbn. intros Hd l2 s' Hl2.
  destruct (act Destroy s1) as [sd|] eqn:E; [|done]. injection Hd as <-. split; intros Hw.
  - apply (run_work _ _ E1) in Hw as (H1 & H2 & H3).
    assert (Hk : (pc s' <> Running /\ pc s' <> Finished \/ work_ s' = true /\ pc s' <> Finished) /\ destroyed s' = true).
    { refine (run_destroyed (fun s => (pc s <> Running /\ pc s <> Finished \/ work_ s = true /\ pc s <> Finished) /\ destroyed s = true) _ _ _ _ _ Hl2).
      - intros e s s2 [Hs Hd] Ha. destruct e; act_cases s Ha; naive_solver.
      - act_cases s1 E. naive_solver. }
    destruct Hk as [[[_ Hf]|[_ Hf]] _]; exact Hf.
  - apply (run_worked _ _ E1) in Hw.
    assert (Hk : (pc s' = Running \/ pc s' = Finished) /\ work_ s' = false /\ destroyed s' = true).
    { refine (run_destroyed (fun s => (pc s = Running \/ pc s = Finished) /\ work_ s = false /\ destroyed s = true) _ _ _ _ _ Hl2).
      - intros e s s2 Hs Ha. destruct e; act_cases s Ha; naive_solver.
      - act_cases s1 E. by split_and!. }
    destruct Hk as ([Hr|Hf] & Hw' & _); [right; by apply run_out|by left].
Qed.
End HelperThread.

(** * The end of the server *)

(** [WSServer::run], [start_shutdown] and [attempt_unregister_ws_service]: the loop of
    the server's thread ends when nothing is posted, [work_] is gone, and no socket
    listens or is open. Other threads have pointers to the service, through which they post
    changes and wait. *)
Module Shutdown.
Import ServiceRegistry.

Definition Service : string := "WebSockAPI::Service".

Inductive job := ShutDown | AttemptUnregister | ChangeTables.

Record t := mk {
  registry : ServiceRegistry.t;
  io_service : list job;
  work_ : bool;
  listening : bool;
  connection_session_ : nat;
  (** the threads in [get()] of a future that a [ChangeTables] will fulfil *)
  blocked : nat;
  ended : bool;
}.

Definition with_registry (r : ServiceRegistry.t) (s : t) : t :=
  mk r (io_service s) (work_ s) (listening s) (connection_session_ s) (blocked s) (ended s).
Definition with_io_service (l : list job) (s : t) : t :=
  mk (registry s) l (work_ s) (listening s) (connection_session_ s) (blocked s) (ended s).
Definition with_connections (n : nat) (s : t) : t :=
  mk (registry s) (io_service s) (work_ s) (listening s) n (blocked s) (ended s).
Definition with_blocked (n : nat) (s : t) : t :=
  mk (registry s) (io_service s) (work_ s) (listening s) (connection_session_ s) n (ended s).
Definition post (j : job) (s : t) : t := with_io_service (io_service s ++ [j]) s.

Definition attempt_unregister_ws_service (s : t) : t :=
  let '(r, ok) := unregister_service Service (registry s) in
  if ok then mk r (io_service s) false (listening s) (connection_session_ s) (blocked s) (ended s)
  else post AttemptUnregister s.

(** The end of what [start_shutdown] posts: the connections close later. *)
Definition stop_listening (s : t) : t :=
  mk (registry s) (io_service s) (work_ s) false (connection_session_ s) (blocked s) (ended s).

Definition perform (j : job) (s : t) : t :=
  match j with
  | ShutDown => stop_listening (attempt_unregister_ws_service s)
  | AttemptUnregister => attempt_unregister_ws_service s
  | ChangeTables => with_blocked (pred (blocked s)) s
  end.

Definition end_of_run (s : t) : t :=
  mk (registry s) (io_service s) (work_ s) (listening s) (connection_session_ s) (blocked s) true.

(** The server as [run] enters its loop, its service the registration [id]. *)
Definition entered (id : nat) (s : t) : Prop :=
  exists r r', ServiceRegistry.reachable r /\ register_service Service r = Ret (id, r') /\ s = mk r' [] true true 0 0 false.

(** What the server's thread, the threads with a pointer to the service, clients, and
    other services do. A thread that is blocked keeps its pointer. *)
Inductive step (id : nat) : t -> t -> Prop :=
  | step_get s : step id s (with_registry (get_service Service (registry s)).2 s)
  | step_release s : (blocked s < clients id (registry s))%nat -> step id s (with_registry (release id (registry s)) s)
  | step_ask s : (blocked s < clients id (registry s))%nat -> step id s (with_blocked (S (blocked s)) (post ChangeTables s))
  | step_other s r : ServiceRegistry.step (registry s) r -> services_ r !! Service = services_ (registry s) !! Service ->
      clients id r = clients id (registry s) -> step id s (with_registry r s)
  | step_start_shutdown s : step id s (post ShutDown s)
  | step_open s : listening s = true -> step id s (with_connections (S (connection_session_ s)) s)
  | step_close s : step id s (with_connections (pred (connection_session_ s)) s)
  | step_perform s j l : ended s = false -> io_service s = j :: l -> step id s (perform j (with_io_service l s))
  | step_end s : io_service s = [] -> work_ s = false -> listening s = false -> connection_session_ s = O ->
      step id s (end_of_run s).

Definition reachable (id : nat) (s : t) : Prop := exists s0, entered id s0 /\ rtc (step id) s0 s.

(** The service is registered as long as there is [work_]. *)
Record kept (id : nat) (s : t) : Prop := {
  kept_registry : good (registry s);
  kept_service : services_ (registry s) !! Service = if work_ s then Some id else None;
  kept_ended : ended s = true -> work_ s = false;
}.

Lemma kept_attempt id s : kept id s -> kept id (attempt_unregister_ws_service s).
Proof.
  intros [Hg Hs He]. unfold attempt_unregister_ws_service, unregister_service. rewrite Hs.
  destruct (work_ s) eqn:Hw; [|by split; cbn; rewrite ?Hw].
  destruct (_ <? _)%nat; [by split; cbn; rewrite ?Hw|]. split; cbn; [|by rewrite lookup_delete_eq|done].
  apply good_drop; [done|]. by rewrite Hs.
Qed.

Lemma kept_step id s s' : kept id s -> step id s s' -> kept id s'.
Proof.
  intros Hk Hs. pose proof Hk as [Hg Hsv He]. destruct Hs as [s|s Hc|s Hc|s r Hr Hrs Hrc|s|s Hl|s|s j l Hn Hj|s H1 H2 H3 H4].
  - split; cbn; [|..|done].
    + eapply good_step; [exact Hg|]. apply ServiceRegistry.step_get.
    + unfold get_service. by destruct (services_ (registry s) !! Service) eqn:E; cbn; rewrite E.
  - split; cbn; [|done..]. eapply good_step; [exact Hg|]. apply ServiceRegistry.step_release. lia.
  - by split.
  - split; cbn; [by eapply good_step|by rewrite Hrs|done].
  - by split.
  - by split.
  - by split.
  - assert (Hk' : kept id (with_io_service l s)) by (by split). destruct j; cbn.
    + apply kept_attempt in Hk' as [? ? ?]. by split.
    + by apply kept_attempt.
    + by split.
  - by split.
Qed.

Lemma entered_kept id s : entered id s -> kept id s.
Proof.
  intros (r & r' & Hr & Hreg & ->). split; cbn; [|..|done].
  - eapply good_step; [by apply reachable_good|]. by eapply step_register.
  - unfold register_service in Hreg. bind_inv Hreg. injection Hreg as <- <-. cbn. by rewrite lookup_insert_eq.
Qed.

Lemma reachable_kept id s : reachable id s -> kept id s.
Proof.
  intros (s0 & H0 & Hs). apply entered_kept in H0. induction Hs as [|s1 s2 s3 Hs _ IH]; [done|].
  by apply IH, (kept_step id s1).
Qed.

(** (safety) When [run] is past its loop, the service is not registered any more, so the
    assertions there and in the destructor hold; and as long as two pointers to the service are
    about, it stays registered and the loop goes on, whatever the shutdown does. *)
Theorem service_gone_at_end id s s' :
  reachable id s -> step id s s' ->
  (ended s' = true -> (get_service Service (registry s')).1 = None /\ use_count Service (registry s') = Ret (-1)) /\
  ((get_service Service (registry s)).1 = Some id -> (1 < clients id (registry s))%nat ->
     (get_service Service (registry s')).1 = Some id /\ ended s' = false).
Proof.
  intros Hr Hs. apply reachable_kept in Hr. pose proof (kept_step _ _ _ Hr Hs) as Hk.
  assert (Hget : forall s, kept id s -> (get_service Service (registry s)).1 = if work_ s then Some id else None).
  { intros s1 [_ Hs1 _]. unfold get_service. rewrite Hs1. by destruct (work_ s1). }
  split.
  - intros He. apply (kept_ended _ _ Hk) in He. unfold use_count. by rewrite (Hget _ Hk), He.
  - rewrite (Hget _ Hr), (Hget _ Hk). destruct (work_ s) eqn:Hw; [|done]. intros _ Hc.
    enough (Hw' : work_ s' = true).
    { rewrite Hw'. split; [done|]. apply not_true_iff_false. intros He. apply (kept_ended _ _ Hk) in He. congruence. }
    assert (Hat : forall s1, work_ s1 = true -> registry s1 = registry s -> work_ (attempt_unregister_ws_service s1) = true).
    { intros s1 H1 H2. unfold attempt_unregister_ws_service, unregister_service. rewrite H2, (kept_service _ _ Hr), Hw.
      unfold pointers. rewrite (stored_of Service _ _ (kept_registry _ _ Hr)) by (by rewrite (kept_service _ _ Hr), Hw).
      destruct (Nat.ltb_spec 3 (1 + clients id (registry s) + 1)); [done|lia]. }
    destruct Hs as [s|s _|s _|s r _ _ _|s|s _|s|s j l _ _|s _ H2 _ _]; try done; try congruence.
    destruct j; cbn; [by apply Hat|by apply Hat|done].
Qed.

(** A thread that waits when the loop has ended waits for ever. *)
Lemma stranded id s s' : ended s = true -> (0 < blocked s)%nat -> rtc (step id) s s' ->
  ended s' = true /\ (0 < blocked s')%nat.
Proof.
  intros He Hb Hs. induction Hs as [|s1 s2 s3 Hs _ IH]; [done|].
  destruct Hs; cbn in *; try (by apply IH); [apply IH; [done|lia]|congruence].
Qed.

(** (error) One pointer does not keep the service: a module that holds it and is about to
    change the tables when the server shuts down finds the loop ended, and waits for
    ever for the answer to what it then posts. *)
Theorem single_user_stranded id s :
  reachable id s -> work_ s = true -> clients id (registry s) = 1%nat -> blocked s = O -> io_service s = [] ->
  exists s', rtc (step id) s s' /\ forall s2, rtc (step id) s' s2 -> ended s2 = true /\ (0 < blocked s2)%nat.
Proof.
  intros Hr Hw Hc Hb Hio. apply reachable_kept in Hr. destruct s as [r io w li n b e]. cbn in *. subst w b io.
  destruct Hr as [Hg Hsv He]. cbn in Hsv, He, Hg.
  assert (Hf : e = false) by (destruct e; [by specialize (He eq_refl)|done]). subst e. clear He.
  set (r2 := drop Service r).
  assert (Hun : unregister_service Service r = (r2, true)).
  { unfold unregister_service, pointers. rewrite Hsv, (stored_of Service _ _ Hg Hsv), Hc. done. }
  exists (with_blocked 1 (post ChangeTables (mk r2 [] false false 0 0 true))). split.
  - eapply (rtc_l _ _ (mk r [ShutDown] true li n O false)); [apply (step_start_shutdown id (mk r [] true li n O false))|].
    eapply (rtc_l _ _ (mk r2 [] false false n O false)).
    { pose proof (step_perform id (mk r [ShutDown] true li n O false) ShutDown [] eq_refl eq_refl) as Hp.
      cbn in Hp. unfold attempt_unregister_ws_service in Hp. cbn in Hp. rewrite Hun in Hp. exact Hp. }
    etransitivity; [|eapply rtc_l; [apply (step_end id (mk r2 [] false false O O false)); done|]].
    + induction n as [|n IH]; [done|]. eapply rtc_l; [apply (step_close id (mk r2 [] false false (S n) O false))|exact IH].
    + apply rtc_once. apply (step_ask id (mk r2 [] false false 0 0 true)). cbn.
      change (clients id r2) with (clients id r). lia.
  - intros s2 Hs2. by eapply stranded; [..|exact Hs2]; cbn; [|lia].
Qed.

End Shutdown.

(** * Examples *)

Module Demo.
Import Tables Loops Program.

(** The handlers write down what they were asked. *)
Definition echo (h : code) (q : request Z) (w : list Z) : list Z * Z := (content q :: w, content q).
Definition own (f : found (ws_handler module code)) (q : request Z) (w : list Z) : list Z * Z := (content q :: w, 200).

Definition ask_pin : request Z := mk_request 1 "pfdigital.is_degraded_mode" 5.
Definition ask_log : request Z := mk_request 2 "get_logs" 6.
Definition ask_mail : request Z := mk_request 3 wshandler_getconfig 7.

Lemma without_smtp_careful m : careful m (without_smtp m).
Proof. by destruct m. Qed.

Lemma two_requests : rtc (step echo own) (start without_smtp []) (arrive ask_log (arrive ask_pin (start without_smtp []))).
Proof. eapply rtc_l; [apply step_arrive|]. apply rtc_once, step_arrive. Qed.

(** The threads run until none of them can. *)
Definition next (s : sys module code Z (list Z) Z) : option (sys module code Z (list Z) Z) :=
  match server_step echo own s with
  | Some s' => Some s'
  | None => foldr (fun m r => match thread_step echo m s with Some s' => Some s' | None => r end) None
              [PIFACEDIGITAL; WIEGAND; LED_BUZZER; SMTP]
  end.
Fixpoint drive (n : nat) (s : sys module code Z (list Z) Z) : sys module code Z (list Z) Z :=
  match n with O => s | S n => match next s with Some s' => drive n s' | None => s end end.

Lemma next_internal s s' : next s = Some s' -> internal echo own s s'.
Proof.
  unfold next. destruct (server_step echo own s) eqn:E; [intros [= <-]; by apply by_server|]. cbn.
  destruct (thread_step echo PIFACEDIGITAL s) eqn:E1; [intros [= <-]; by apply (by_thread _ _ PIFACEDIGITAL)|].
  destruct (thread_step echo WIEGAND s) eqn:E2; [intros [= <-]; by apply (by_thread _ _ WIEGAND)|].
  destruct (thread_step echo LED_BUZZER s) eqn:E3; [intros [= <-]; by apply (by_thread _ _ LED_BUZZER)|].
  destruct (thread_step echo SMTP s) eqn:E4; [intros [= <-]; by apply (by_thread _ _ SMTP)|done].
Qed.

Lemma next_quiet s : next s = None -> forall s', ~ internal echo own s s'.
Proof.
  unfold next. destruct (server_step echo own s) eqn:E; [done|]. cbn.
  destruct (thread_step echo PIFACEDIGITAL s) eqn:E1; [done|]. destruct (thread_step echo WIEGAND s) eqn:E2; [done|].
  destruct (thread_step echo LED_BUZZER s) eqn:E3; [done|]. destruct (thread_step echo SMTP s) eqn:E4; [done|].
  intros _ s' Hs. destruct Hs as [s s' Hs|[] s s' Hs]; congruence.
Qed.
Lemma drive_internal n s : rtc (internal echo own) s (drive n s).
Proof.
  revert s; induction n as [|n IH]; intros s; cbn; [done|]. destruct (next s) as [s'|] eqn:E; [|done].
  eapply rtc_l; [by apply next_internal|apply IH].
Qed.

Definition two_asked : sys module code Z (list Z) Z := arrive ask_log (arrive ask_pin (start without_smtp [])).

Lemma requests_answered_witness : next (drive 100 two_asked) = None /\ map fst (sent (drive 100 two_asked)) = [1; 2].
Proof.
  assert (Hq : next (drive 100 two_asked) = None) by (vm_compute; reflexivity). split; [exact Hq|].
  exact (proj2 (requests_answered echo own without_smtp [] _ without_smtp_careful two_requests) _
    (drive_internal 100 two_asked) (next_quiet _ Hq)).
Defined.

Lemma smtp_deadlock_witness : exists s, rtc (step echo own) (start register_ws_handlers []) s /\ owed s = [ask_mail] /\
  forall s', rtc (step echo own) s s' -> stuck s' /\ sent s' = [].
Proof. exact (smtp_deadlock echo own ask_mail [] eq_refl). Defined.

Lemma stuck_for_ever_witness : exists s, rtc (step echo own) (start register_ws_handlers []) s /\
  sent (arrive ask_log s) = sent s /\ stuck (arrive ask_log s).
Proof.
  pose (T := play echo own [TheThread SMTP; TheThread SMTP; TheServer; AClient ask_mail; TheThread SMTP; TheServer]
    (start register_ws_handlers [])).
  destruct T as [s|] eqn:E; [|vm_compute in E; discriminate E]. exists s.
  assert (Hr : rtc (step echo own) (start register_ws_handlers []) s) by (eapply play_steps; exact E).
  assert (Hst : stuck s).
  { exists SMTP, ask_mail. unfold T in E. vm_compute in E. injection E as <-. split; vm_compute; reflexivity. }
  split; [exact Hr|].
  destruct (stuck_for_ever echo own register_ws_handlers [] s (arrive ask_log s) Hr Hst (rtc_once _ _ (step_arrive _ _ _ _)))
    as [H1 H2].
  split; [exact H2|exact H1].
Defined.

(** ** The helper thread *)

Import HelperThread.

(** The server is between its steps when the thread looks; it takes both while the
    thread is between its own. *)
Definition twice : list event := [Insert; Look; Listen; Announce; Post; Work; Register; Register].
Definition missed : list event := [Look; Insert; Announce; Listen; Post; Work].

Lemma registered_times_witness :
  (exists s, run twice fresh = Some s /\ registered s = 2%nat) /\ exists s, run missed fresh = Some s /\ registered s = O.
Proof.
  split; eexists; (split; [vm_compute; reflexivity|]).
  - destruct (registered_times twice _ eq_refl eq_refl eq_refl eq_refl) as [-> _]. vm_compute. reflexivity.
  - destruct (registered_times missed _ eq_refl eq_refl eq_refl eq_refl) as [-> _]. vm_compute. reflexivity.
Defined.

Lemma destructor_joins_witness : exists s s', run ([Look; Listen] ++ [Destroy]) fresh = Some s /\
  run [Post; Work] s = Some s' /\ pc s' <> Finished.
Proof.
  eexists _, _. split; [vm_compute; reflexivity|]. split; [vm_compute; reflexivity|].
  refine (proj1 (destructor_joins [Look; Listen] _ eq_refl [Post; Work] _ eq_refl) eq_refl).
Defined.

(** ** The shutdown *)

Import Shutdown.

Definition serving_with (n : nat) : Shutdown.t :=
  Shutdown.mk (Nat.iter n (fun r => (ServiceRegistry.get_service Service r).2)
    (ServiceRegistry.mk {[ Service := O ]} {[ O := Service ]} ∅ [REGISTERED Service])) [] true true 0 0 false.

Lemma serving_reachable n : Shutdown.reachable 0 (serving_with n).
Proof.
  exists (serving_with 0). split.
  - exists ServiceRegistry.empty. eexists. split; [constructor|]. split; [reflexivity|]. reflexivity.
  - induction n as [|n IH]; [done|]. eapply rtc_r; [exact IH|]. apply (step_get 0 (serving_with n)).
Qed.

Lemma single_user_stranded_witness :
  exists s', rtc (Shutdown.step 0) (serving_with 1) s' /\
    forall s2, rtc (Shutdown.step 0) s' s2 -> ended s2 = true /\ (0 < blocked s2)%nat.
Proof. exact (single_user_stranded 0 (serving_with 1) (serving_reachable 1) eq_refl eq_refl eq_refl eq_refl). Defined.

Lemma service_gone_at_end_witness : ended (perform ShutDown (serving_with 2)) = false.
Proof.
  assert (Hr : Shutdown.reachable 0 (post ShutDown (serving_with 2))).
  { destruct (serving_reachable 2) as (s0 & H0 & Hs). exists s0. split; [exact H0|].
    eapply rtc_r; [exact Hs|]. apply step_start_shutdown. }
  refine (proj2 (proj2 (service_gone_at_end 0 (post ShutDown (serving_with 2)) _ Hr
    (step_perform 0 (post ShutDown (serving_with 2)) ShutDown [] eq_refl eq_refl)) _ _)).
  - vm_compute. reflexivity.
  - vm_compute. lia.
Defined.

End Demo.
