(* ===== verification/PifaceApi.v ===== *)
(** The handlers the piface module adds to the API, besides its devices
    ([src/modules/pifacedigital/PFDigitalModule.cpp], [WSHelperThread]): whether the
    module found its card, and the test of an output pin. They run on the server's
    thread, before the check of the session's token. *)
From Stdlib Require Import ZArith Lia Ascii String.
From stdpp Require Import base tactics numbers list strings gmap.
From S2P Require Import Prelude Json Facades Wiegand Security Session Resources Devices.

Open Scope Z_scope.

(** [GPIO::Direction::Out]. *)
Definition Out : Z := 1.

(** The parameters of the helper thread. *)
Record ModuleParameters := mk_parameters { degraded_mode : bool }.

Section piface.
Context {D : Type} `{!Table D device} {W : Type} `{!Peers W} {J : Type} `{Json J} `{UuidText}.

Definition is_degraded_mode (parameters : ModuleParameters) : J :=
  json_object [("mode", json_bool (degraded_mode parameters))].

Definition find_pfgpio (gpio_id : Z) (d : D) : option PfGpioRow.t :=
  match find_row gpio_id d with Some (PfGpioD g) => Some g | _ => None end.

(** Eight times, at 750 ms; what [toggle] returns is not looked at. The clock is read
    for each. *)
Definition blink (clock : nat -> Z) (name : string) : io W unit :=
  _ ← foldIO (fun g i => r ← FGPIO.toggle (clock i) g; mret (snd r)) (FGPIO.make name) (seq 0 8); mret tt.

Definition test_output_pin (parameters : ModuleParameters) (d : D) (checker : ConfigChecker.t) (clock : nat -> Z)
    (gpio_id : Z) : io W unit :=
  _ ← pure (enforce (negb (degraded_mode parameters))
              (LEOSACException "Cannot test Piface Digital GPIO when running in degraded mode."));
  match find_pfgpio gpio_id d with
  | None => pure (Throw EntityNotFound)
  | Some row =>
      let gpio := PfGpioRow.gpio row in
      let name := Device.name_ (GpioRow.device gpio) in
      _ ← pure (enforce (GpioRow.direction_ gpio =? Out) (ModelException "" "GPIO is not an output GPIO."));
      _ ← pure (enforce (ConfigChecker.has_object name GPIO checker)
                  (ModelException "" "GPIO doesn't exist in the runtime configuration checker. This probably means that you need to restart Leosac to load the new configuration"));
      blink clock name
  end.

(** The handler: [is_admin] is what the security context of the request answers to
    [IS_ADMIN]. *)
Definition test_output_pin_handler (is_admin : bool) (parameters : ModuleParameters) (d : D) (checker : ConfigChecker.t)
    (clock : nat -> Z) (content : J) : io W J :=
  _ ← pure (enforce is_admin PermissionDenied);
  gpio_id ← pure (j ← at_ content "gpio_id"; get_uuid j);
  _ ← test_output_pin parameters d checker clock gpio_id;
  mret json_null.

(** ** Properties *)

Lemma blinks `{!GpioCommands W} (clock : nat -> Z) g l w b : pin (FGPIO.gpio_name_ g) w = Some b ->
  exists w' g', foldIO (fun g i => r ← FGPIO.toggle (clock i) g; mret (snd r)) g l w = (w', Ret g') /\
    FGPIO.gpio_name_ g' = FGPIO.gpio_name_ g /\
    pin (FGPIO.gpio_name_ g) w' = Some (if Nat.even (length l) then b else negb b) /\
    forall h, h <> FGPIO.gpio_name_ g -> pin h w' = pin h w.
Proof.
  revert g w b. induction l as [|i l IH]; intros g w b Hp; [by exists w, g|].
  destruct (fgpio_runs (clock i) CmdToggle g w b I Hp) as (w1 & g1 & Hr & Hn & Hp1 & Ho). cbn [spec_run facade_run] in Hr, Hp1.
  rewrite <- Hn in Hp1. destruct (IH g1 w1 (negb b) Hp1) as (w2 & g2 & Hr2 & Hn2 & Hp2 & Ho2).
  exists w2, g2. cbn [foldIO]. erewrite io_bind_ret.
  2:{ erewrite io_bind_ret by exact Hr. reflexivity. }
  split; [exact Hr2|]. rewrite <- Hn. split; [done|]. split.
  - rewrite Hp2. f_equal. change (length (i :: l)) with (S (length l)). rewrite Nat.even_succ, <- Nat.negb_even.
    destruct (Nat.even (length l)), b; done.
  - intros h Hh. rewrite Ho2 by done. apply Ho. by rewrite <- Hn.
Qed.

(** (functional) The test answers each request as it should: without the rights of an
    administrator, without the card, for a device that does not exist, is an
    input, or is not known to the running program, with the error for it and no pin
    touched; and otherwise the pin blinks, no other does, and it is left as it was. *)
Theorem pin_test `{!GpioCommands W} is_admin parameters (d : D) checker clock content gpio_id (w : W) :
  (j ← at_ content "gpio_id"; get_uuid (J := J) j) = Ret gpio_id ->
  let row := PfGpioRow.gpio <$> find_pfgpio gpio_id d in
  let refused e := test_output_pin_handler is_admin parameters d checker clock content w = (w, Throw e) in
  if negb is_admin then refused PermissionDenied
  else if degraded_mode parameters
  then refused (LEOSACException "Cannot test Piface Digital GPIO when running in degraded mode.")
  else match row with
  | None => refused EntityNotFound
  | Some g =>
      if negb (GpioRow.direction_ g =? Out) then refused (ModelException "" "GPIO is not an output GPIO.")
      else if negb (ConfigChecker.has_object (Device.name_ (GpioRow.device g)) GPIO checker) then exists m, refused (ModelException "" m)
      else forall b, pin (Device.name_ (GpioRow.device g)) w = Some b ->
        exists w', test_output_pin_handler is_admin parameters d checker clock content w = (w', Ret json_null) /\
          forall h, pin h w' = pin h w
  end.
Proof.
  intros Hid row refused. unfold refused, row, test_output_pin_handler, test_output_pin.
  destruct is_admin; [|done]. cbn [negb enforce]. rewrite pure_bind, Hid, pure_bind.
  destruct (degraded_mode parameters); [done|]. cbn [negb enforce].
  destruct (find_pfgpio gpio_id d) as [r|]; [|done]. cbn [fmap option_fmap option_map].
  destruct (GpioRow.direction_ (PfGpioRow.gpio r) =? Out); [|done]. cbn [negb enforce].
  destruct (ConfigChecker.has_object _ _ _); [|by eexists]. cbn [negb enforce].
  intros b Hb. destruct (blinks clock (FGPIO.make (Device.name_ (GpioRow.device (PfGpioRow.gpio r)))) (seq 0 8) w b Hb)
    as (w' & g' & Hr & _ & Hp & Ho).
  exists w'. split.
  - erewrite io_bind_ret; [reflexivity|].
    assert (Hbl : blink clock (Device.name_ (GpioRow.device (PfGpioRow.gpio r))) w = (w', Ret tt))
      by (unfold blink; by rewrite (io_bind_ret _ _ _ _ _ Hr)).
    exact Hbl.
  - intros h. destruct (decide (h = Device.name_ (GpioRow.device (PfGpioRow.gpio r)))) as [->|Hh]; [rewrite Hb; exact Hp|by apply Ho].
Qed.

End piface.

(** ** Example *)

Module Demo.

Record store := mk_rows { stored : list device }.
#[export] Instance stored_table : Table store device := {|
  row_id := uuid_of;
  rows := stored;
  find_row i d := List.find (fun x => uuid_of x =? i) (stored d);
  persist_row x d := Ret (x, d);
  update_row _ d := Ret d;
  erase_row _ d := Ret d;
|}.
#[export] Instance decimal_uuid : UuidText := {| parse_uuid _ := Ret 7; print_uuid := to_string |}.

Definition door_pin : device :=
  PfGpioD (PfGpioRow.mk (GpioRow.mk (Device.mk 7 "relay" GPIO true) 0 Out false) 0).

Definition one_relay : gmap string bool := {[ "relay" := true ]}.

Lemma pin_test_witness : exists w',
  test_output_pin_handler true (mk_parameters false) (mk_rows [door_pin]) {[ "relay" := GPIO ]} (fun _ => 0)
    (JObject [("gpio_id", JString "7")]) one_relay = (w', Ret JNull) /\ pin "relay" w' = Some true.
Proof.
  pose proof (pin_test true (mk_parameters false) (mk_rows [door_pin]) {[ "relay" := GPIO ]} (fun _ => 0)
    (JObject [("gpio_id", JString "7")]) 7 one_relay eq_refl) as T.
  destruct (T true eq_refl) as (w' & Hw & Hh). exists w'. split; [exact Hw|exact (Hh "relay")].
Defined.

End Demo.
