(* ===== verification/Tools.v ===== *)
(** Tools: versions ([src/tools/version.cpp]), the log ([log.cpp],
    [DatabaseLogSink.cpp]), files ([unixfs.cpp], [unixfilewatcher.cpp]), scripts
    ([unixshellscript.cpp]) with the network configuration that runs them
    ([src/core/netconfig/networkconfig.cpp]), signals ([signalhandler.cpp]) and the
    options of the program ([runtimeoptions.cpp]).

    What the operating system answers is a parameter. *)
From Stdlib Require Import ZArith Lia Ascii String Sorting.Sorted.
From stdpp Require Import base tactics numbers list strings gmap.
From S2P Require Import Prelude Ptree Trees Facades Transactions.

Open Scope Z_scope.

(** * Versions *)

Module Version.

Definition buildVersionString (major minor patch : Z) (git_sha1 : string) : string :=
  to_string major +:+ "." +:+ to_string minor +:+ "." +:+ to_string patch +:+
  (if str_empty git_sha1 then "" else "-" +:+ git_sha1).

(** Up to the first dash; dots become spaces. *)
Fixpoint before_dash (l : list ascii) : list ascii :=
  match l with [] => [] | c :: l => if ascii_dec c "-" then [] else c :: before_dash l end.
Definition dot_to_space (c : ascii) : ascii := if ascii_dec c "." then " "%char else c.
Definition cleanVersionString (v : string) : list ascii := map dot_to_space (before_dash (chars v)).

(** [stream >> value] for an [int]: [None] is a stream that failed. At the end of the
    text the value stays as it was; without digits it becomes 0, and out of range the
    nearest number, and the stream fails. *)
Definition INT_MAX : Z := 2 ^ 31 - 1.
Definition signed (l : list ascii) : Z * list ascii :=
  match l with "-"%char :: l => (-1, l) | "+"%char :: l => (1, l) | l => (1, l) end.
Definition extract (st : option (list ascii)) (value : option Z) : option (list ascii) * option Z :=
  match st with
  | None => (None, value)
  | Some l =>
      let l := drop_spaces l in
      let '(sign, l') := signed l in
      match l with
      | [] => (None, value)
      | _ =>
          match take_digits l' with
          | [] => (None, Some 0)
          | ds =>
              let v := sign * foldl (fun a c => 10 * a + (code c - 48)) 0 ds in
              if v <? - 2 ^ 31 then (None, Some (- 2 ^ 31))
              else if INT_MAX <? v then (None, Some INT_MAX)
              else (Some (drop (length ds) l'), Some v)
          end
      end
  end.

(** The loop; comparing a value that was never read is undefined. *)
Fixpoint compare (n : nat) (sa sb : option (list ascii)) (va vb : option Z) : outcome Z :=
  match n with
  | O => Ret 0
  | S n =>
      let '(sa, va) := extract sa va in
      let '(sb, vb) := extract sb vb in
      match va, vb with
      | Some a, Some b => if b <? a then Ret 1 else if a <? b then Ret (-1) else compare n sa sb va vb
      | _, _ => Fault Uninitialised
      end
  end.

Definition versionCompare (a b : string) : outcome Z :=
  compare 3 (Some (cleanVersionString a)) (Some (cleanVersionString b)) None None.

(** The regular expression [[0-9]+\.[0-9]+\.[0-9]+($|\-[a-f0-9]{40}$)], which has one way to match. *)
Definition is_hex (c : ascii) : bool := isdigit c || in_range "a" c "f".
Definition number_then (k : list ascii -> bool) (l : list ascii) : bool :=
  match take_digits l with [] => false | ds => k (drop (length ds) l) end.
Definition dot_then (k : list ascii -> bool) (l : list ascii) : bool :=
  match l with "."%char :: l => k l | _ => false end.
Definition sha1_or_end (l : list ascii) : bool :=
  match l with
  | [] => true
  | "-"%char :: l => (length l =? 40)%nat && forallb is_hex l
  | _ => false
  end.
Definition isVersionValid (v : string) : bool :=
  number_then (dot_then (number_then (dot_then (number_then sha1_or_end)))) (chars v).

(** ** Lemmas *)

(** A number in front of what is no digit. *)
Lemma digits_then z rest : 0 <= z -> match rest with c :: _ => isdigit c = false | [] => True end ->
  take_digits (chars (to_string z) ++ rest) = chars (to_string z) /\
  drop (length (chars (to_string z))) (chars (to_string z) ++ rest) = rest /\ chars (to_string z) <> [] /\
  foldl (fun a c => 10 * a + (code c - 48)) 0 (chars (to_string z)) = z.
Proof.
  intros Hz Hr. pose proof (digits_to_string z Hz) as Hv. unfold digits_val in Hv. rewrite (digits_of z Hz) in Hv.
  destruct (decide (chars (to_string z) = [])) as [E|Hne]; [by rewrite E in Hv|].
  rewrite bool_decide_eq_false_2 in Hv by done. injection Hv as Hv.
  split_and!; [by apply take_digits_app, Hr; apply digits_of|by rewrite drop_app_length|done|done].
Qed.

Lemma first_digit z : 0 <= z -> exists c l, chars (to_string z) = c :: l /\ isdigit c = true.
Proof.
  intros Hz. destruct (digits_then z [] Hz I) as (_ & _ & Hne & _). pose proof (digits_of z Hz) as Hd.
  destruct (chars (to_string z)) as [|c l]; [done|]. exists c, l. split; [done|]. by apply andb_true_iff in Hd as [Hd _].
Qed.

Lemma digit_class c : isdigit c = true -> isspace c = false /\ c <> "-"%char /\ c <> "+"%char /\ c <> "."%char.
Proof.
  intros Hc. unfold isdigit, in_range in Hc. apply andb_true_iff in Hc as [H1%Z.leb_le H2%Z.leb_le].
  change (code "0") with 48 in H1. change (code "9") with 57 in H2. split.
  - unfold isspace. destruct (Z.eqb_spec (code c) 32); [lia|]. destruct (Z.leb_spec 9 (code c)); [|done].
    destruct (Z.leb_spec (code c) 13); [lia|done].
  - repeat split; intros ->; vm_compute in H1, H2; congruence.
Qed.

Lemma extract_number z (spaced : bool) rest value : 0 <= z <= INT_MAX ->
  match rest with c :: _ => isdigit c = false | [] => True end ->
  extract (Some ((if spaced then [" "%char] else []) ++ chars (to_string z) ++ rest)) value = (Some rest, Some z).
Proof.
  intros [Hz Hmax] Hr. destruct (digits_then z rest Hz Hr) as (Ht & Hd & Hne & Hv).
  destruct (first_digit z Hz) as (c & l & Hc & Hcd). pose proof (digit_class c Hcd) as (Hs & Hm & Hp & _).
  unfold extract. cbv zeta.
  assert (Hdrop : drop_spaces ((if spaced then [" "%char] else []) ++ chars (to_string z) ++ rest) = chars (to_string z) ++ rest).
  { rewrite Hc. destruct spaced; cbn; by rewrite Hs. }
  rewrite Hdrop. clear Hdrop.
  assert (Hsign : signed (chars (to_string z) ++ rest) = (1, chars (to_string z) ++ rest)).
  { rewrite Hc. unfold signed. cbn [app]. repeat case_match; congruence. }
  rewrite Hsign, Ht. clear Hsign Ht Hc.
  destruct (chars (to_string z)) as [|c2 l2]; [done|]. cbn [app]. cbn [app] in Hd. rewrite Hd, Hv, Z.mul_1_l.
  destruct (Z.ltb_spec z (- 2 ^ 31)); [lia|]. destruct (Z.ltb_spec INT_MAX z); [lia|]. done.
Qed.

Lemma extract_first z rest value : 0 <= z <= INT_MAX -> match rest with c :: _ => isdigit c = false | [] => True end ->
  extract (Some (chars (to_string z) ++ rest)) value = (Some rest, Some z).
Proof. exact (extract_number z false rest value). Qed.
Lemma extract_next z rest value : 0 <= z <= INT_MAX -> match rest with c :: _ => isdigit c = false | [] => True end ->
  extract (Some (" "%char :: chars (to_string z) ++ rest)) value = (Some rest, Some z).
Proof. exact (extract_number z true rest value). Qed.

Lemma before_dash_app l r : forallb (fun c => negb (bool_decide (c = "-"%char))) l = true ->
  before_dash (l ++ r) = l ++ before_dash r.
Proof.
  induction l as [|c l IH]; [done|]. cbn. intros [Hc%negb_true_iff Hl]%andb_true_iff. apply bool_decide_eq_false in Hc.
  destruct (ascii_dec c "-"); [done|]. by rewrite IH.
Qed.

Lemma digits_kept z : 0 <= z ->
  forallb (fun c => negb (bool_decide (c = "-"%char))) (chars (to_string z)) = true /\
  map dot_to_space (chars (to_string z)) = chars (to_string z).
Proof.
  intros Hz. pose proof (digits_of z Hz) as Hd. rewrite forallb_forall in Hd. split.
  - apply forallb_forall. intros c Hc%Hd%digit_class. apply negb_true_iff, bool_decide_eq_false. tauto.
  - rewrite <- (map_id (chars (to_string z))) at 2. apply map_ext_in. intros c Hc%Hd%digit_class.
    unfold dot_to_space. destruct (ascii_dec c "."); [tauto|done].
Qed.

Lemma clean_built major minor patch sha : 0 <= major -> 0 <= minor -> 0 <= patch ->
  cleanVersionString (buildVersionString major minor patch sha) =
  chars (to_string major) ++ " "%char :: chars (to_string minor) ++ " "%char :: chars (to_string patch).
Proof.
  intros H1 H2 H3. destruct (digits_kept major H1) as [N1 M1], (digits_kept minor H2) as [N2 M2], (digits_kept patch H3) as [N3 M3].
  unfold cleanVersionString, buildVersionString. rewrite !chars_app.
  rewrite before_dash_app by done. change (chars ".") with ["."%char]. cbn [app before_dash].
  destruct (ascii_dec "." "-"); [done|]. rewrite before_dash_app by done. cbn [before_dash].
  destruct (ascii_dec "." "-"); [done|]. rewrite before_dash_app by done.
  assert (Hend : before_dash (chars (if str_empty sha then "" else "-" +:+ sha)) = []) by (by destruct (str_empty sha)).
  rewrite Hend, app_nil_r, !map_app. cbn [map]. rewrite !map_app. cbn [map]. rewrite M1, M2, M3. done.
Qed.

(** The order of three numbers. *)
Definition order (a b : Z * Z * Z) : Z :=
  let '(a1, a2, a3) := a in
  let '(b1, b2, b3) := b in
  if b1 <? a1 then 1 else if a1 <? b1 then -1
  else if b2 <? a2 then 1 else if a2 <? b2 then -1
  else if b3 <? a3 then 1 else if a3 <? b3 then -1 else 0.

(** (equivalence) Comparing the texts of two versions is comparing their numbers, whatever
    commits they were built from; the text of a version is valid exactly when the
    commit is missing or a hash. *)
Theorem compare_built (a1 a2 a3 b1 b2 b3 : Z) sha_a sha_b :
  0 <= a1 <= INT_MAX -> 0 <= a2 <= INT_MAX -> 0 <= a3 <= INT_MAX ->
  0 <= b1 <= INT_MAX -> 0 <= b2 <= INT_MAX -> 0 <= b3 <= INT_MAX ->
  versionCompare (buildVersionString a1 a2 a3 sha_a) (buildVersionString b1 b2 b3 sha_b) =
    Ret (order (a1, a2, a3) (b1, b2, b3)) /\
  isVersionValid (buildVersionString a1 a2 a3 sha_a) =
    str_empty sha_a || ((length (chars sha_a) =? 40)%nat && forallb is_hex (chars sha_a)).
Proof.
  intros A1 A2 A3 B1 B2 B3. split.
  - unfold versionCompare. rewrite !clean_built by lia. cbn [compare].
    rewrite !extract_first by (done || lia). cbn [order].
    destruct (b1 <? a1); [done|]. destruct (a1 <? b1); [done|]. cbn [compare]. rewrite !extract_next by (done || lia).
    destruct (b2 <? a2); [done|]. destruct (a2 <? b2); [done|]. cbn [compare].
    rewrite <- (app_nil_r (chars (to_string a3))), <- (app_nil_r (chars (to_string b3))), !extract_next by (done || lia).
    destruct (b3 <? a3); [done|]. by destruct (a3 <? b3).
  - assert (Hn : forall z k rest, 0 <= z -> match rest with c :: _ => isdigit c = false | [] => True end ->
      number_then k (chars (to_string z) ++ rest) = k rest).
    { intros z k rest Hz Hr. destruct (digits_then z rest Hz Hr) as (Ht & Hd & Hne & _). unfold number_then.
      rewrite Ht. destruct (chars (to_string z)) as [|c l] eqn:E; [done|]. by rewrite Hd. }
    unfold isVersionValid, buildVersionString. rewrite !chars_app. change (chars ".") with ["."%char]. cbn [app].
    rewrite Hn by (done || lia). cbn [dot_then]. rewrite Hn by (done || lia). cbn [dot_then].
    rewrite Hn; [|lia|by destruct (str_empty sha_a)].
    destruct sha_a as [|c sha]; [done|]. cbn [str_empty orb]. done.
Qed.

End Version.

(** * The log *)

Module LogHelper.

Inductive LogLevel := DEBUG | INFO | WARN | ERROR | CRIT.

Definition log_level_from_string (level : string) : outcome LogLevel :=
  if String.eqb level "DEBUG" then Ret DEBUG
  else if String.eqb level "INFO" then Ret INFO
  else if String.eqb level "WARNING" then Ret WARN
  else if String.eqb level "ERROR" then Ret ERROR
  else if String.eqb level "CRIT" then Ret CRIT
  else Throw (StdRuntimeError ("Invalid log level: " +:+ level)).

(** The escape character, and the text that ends a format. *)
Definition ESC : ascii := chr 27.
Definition reset : list ascii := [ESC; "["; "0"; "m"]%char.

(** The regular expression at the start of a text, as Boost matches it: [ESC] and a
    bracket, one character or more up to an [m], a group of any characters, and [reset]. Each
    repetition takes as much as it can, and a dot is any character, the end of a line too.
    What is found is the group and what follows the match. *)
Fixpoint group_then_reset (l : list ascii) : option (list ascii * list ascii) :=
  let here := if bool_decide (take 4 l = reset) then Some ([], drop 4 l) else None in
  match l with
  | [] => here
  | c :: l' => match group_then_reset l' with Some (g, r) => Some (c :: g, r) | None => here end
  end.
Fixpoint up_to_m (l : list ascii) : option (list ascii * list ascii) :=
  match l with
  | [] => None
  | c :: l' =>
      match up_to_m l' with
      | Some r => Some r
      | None => if bool_decide (c = "m"%char) then group_then_reset l' else None
      end
  end.
Definition match_format (l : list ascii) : option (list ascii * list ascii) :=
  match l with
  | c :: b :: _ :: l' => if bool_decide (c = ESC) && bool_decide (b = "["%char) then up_to_m l' else None
  | _ => None
  end.

(** [regex_replace]: from the left, each match by its group; the search goes on behind it. *)
Fixpoint replace_formats (fuel : nat) (l : list ascii) : list ascii :=
  match fuel with
  | O => l
  | S fuel =>
      match l with
      | [] => []
      | c :: l' =>
          match match_format l with
          | Some (g, r) => g ++ replace_formats fuel r
          | None => c :: replace_formats fuel l'
          end
      end
  end.
Definition remove_ascii_format (l : list ascii) : list ascii := replace_formats (length l) l.

(** [log]: what each logger that is set up is given; without any, the message goes to the
    standard error. *)
Inductive line := Console (level : LogLevel) (msg : string) | Syslog (level : LogLevel) (msg : string) | Stderr (msg : string).

Definition log (console syslog : bool) (gettid : Z) (log_msg : string) (level : LogLevel) : list line :=
  if negb console && negb syslog
  then [Stderr "Logger not set-up yet ! Will display log message as is."; Stderr log_msg]
  else
    let msg := "[" +:+ to_string gettid +:+ "] " +:+ log_msg in
    (if console then [Console level msg] else []) ++
    (if syslog then [Syslog level (text (remove_ascii_format (chars msg)))] else []).

(** [Colorize::detail::format]. *)
Definition format (escape_code in_ : string) : string :=
  text (ESC :: "["%char :: chars escape_code ++ "m"%char :: chars in_ ++ reset).
Definition bold := format "1".
Definition underline := format "4".
Definition red := format "31".
Definition bright_red := format "31;1".
Definition green := format "32".
Definition bright_green := format "32;2".
Definition cyan := format "36".
Definition bright_cyan := format "36;6".

(** ** What the syslog is told *)

Definition has_esc (l : list ascii) : bool := existsb (fun c => bool_decide (c = ESC)) l.

Lemma no_format l : has_esc l = false -> match_format l = None.
Proof.
  destruct l as [|c [|b [|x l]]]; try done. cbn. intros [Hc _]%orb_false_iff. by rewrite Hc.
Qed.

Lemma replace_plain fuel l : has_esc l = false -> replace_formats fuel l = l.
Proof.
  revert l. induction fuel as [|fuel IH]; intros l Hl; [done|]. destruct l as [|c l]; [done|].
  cbn [replace_formats]. rewrite no_format by done. cbn in Hl. apply orb_false_iff in Hl as [_ Hl]. by rewrite IH.
Qed.

Lemma no_group l : has_esc l = false -> group_then_reset l = None.
Proof.
  induction l as [|c l IH]; [done|]. cbn. intros [Hc Hl]%orb_false_iff. rewrite IH by done.
  rewrite bool_decide_eq_false_2; [done|]. intros [=]. by apply bool_decide_eq_false in Hc.
Qed.

Lemma group_cons c l : group_then_reset (c :: l) =
  match group_then_reset l with
  | Some (g, r) => Some (c :: g, r)
  | None => if bool_decide (take 4 (c :: l) = reset) then Some ([], drop 4 (c :: l)) else None
  end.
Proof. done. Qed.

(** No format is left in what has no escape character but a last reset. *)
Lemma group_found g rest : has_esc g = false -> has_esc rest = false -> group_then_reset (g ++ reset ++ rest) = Some (g, rest).
Proof.
  intros Hg Hr. induction g as [|c g IH].
  - assert (Hs : forall c l, c <> ESC -> group_then_reset l = None -> group_then_reset (c :: l) = None).
    { intros c l Hc Hl. cbn. rewrite Hl. rewrite bool_decide_eq_false_2; [done|]. intros [=]. done. }
    change ([] ++ reset ++ rest) with (ESC :: ("["%char :: "0"%char :: "m"%char :: rest)). rewrite group_cons.
    rewrite !Hs by (done || by apply no_group). by rewrite bool_decide_eq_true_2.
  - cbn in Hg. apply orb_false_iff in Hg as [_ Hg]. cbn [app group_then_reset]. by rewrite IH.
Qed.

Lemma no_m l : has_esc l = false -> up_to_m l = None.
Proof.
  induction l as [|c l IH]; [done|]. cbn. intros [_ Hl]%orb_false_iff. rewrite IH, no_group by done. by case_match.
Qed.

(** The last [m] before the last reset is taken. *)
Lemma last_m x b rest : existsb (fun c => bool_decide (c = "m"%char)) b = false ->
  has_esc b = false -> has_esc rest = false ->
  up_to_m (x ++ "m"%char :: b ++ reset ++ rest) = Some (b, rest).
Proof.
  intros Hm Hb Hr.
  assert (Hreset : up_to_m (reset ++ rest) = None).
  { change (reset ++ rest) with (ESC :: "["%char :: "0"%char :: "m"%char :: rest). cbn [up_to_m].
    by rewrite no_m, no_group, bool_decide_eq_true_2 by done. }
  assert (Hnone : up_to_m (b ++ reset ++ rest) = None).
  { clear Hb. induction b as [|c b IH]; [done|]. cbn in Hm. apply orb_false_iff in Hm as [Hc Hm].
    cbn [app up_to_m]. by rewrite IH, Hc. }
  induction x as [|c x IH]; cbn [app up_to_m]; [|by rewrite IH].
  rewrite Hnone, bool_decide_eq_true_2 by done. by apply group_found.
Qed.

(** (error) The syslog gets a message without formats as it is. Of one with formats, all from
    the first to the last [m] before the last reset is lost, the words of the message
    between included, where only the formats should be: the word "alarm" in green
    is an empty text. *)
Theorem syslog_text pre x c b rest :
  has_esc pre = false -> has_esc b = false -> has_esc rest = false ->
  existsb (fun c => bool_decide (c = "m"%char)) b = false ->
  remove_ascii_format pre = pre /\
  remove_ascii_format (pre ++ ESC :: "["%char :: c :: x ++ "m"%char :: b ++ reset ++ rest) = pre ++ b ++ rest.
Proof.
  intros Hp Hb Hr Hm. split; [by apply replace_plain|]. unfold remove_ascii_format.
  set (tail := ESC :: _). assert (Hlen : exists n, length (pre ++ tail) = S (length pre + n)).
  { exists (pred (length tail)). rewrite length_app. unfold tail. cbn [length pred]. lia. }
  destruct Hlen as [n ->]. revert n.
  assert (Htail : match_format tail = Some (b, rest)).
  { unfold tail, match_format. rewrite !bool_decide_eq_true_2 by done. cbn [andb]. by apply last_m. }
  induction pre as [|p pre IH]; intros n.
  - cbn [app length Nat.add]. unfold tail at 1. cbn [replace_formats]. fold tail. rewrite Htail. f_equal. by apply replace_plain.
  - cbn [length Nat.add app]. cbn in Hp. apply orb_false_iff in Hp as [Hc Hp].
    change (replace_formats (S (S (length pre + n))) (p :: pre ++ tail)) with
      (match match_format (p :: pre ++ tail) with
       | Some (g, r) => g ++ replace_formats (S (length pre + n)) r
       | None => p :: replace_formats (S (length pre + n)) (pre ++ tail) end).
    assert (Hn : match_format (p :: pre ++ tail) = None).
    { unfold match_format. destruct (pre ++ tail) as [|b' [|x' l]]; try done. apply bool_decide_eq_false in Hc.
      by rewrite bool_decide_eq_false_2 by exact Hc. }
    rewrite Hn. cbn [app]. f_equal. by apply IH.
Qed.

End LogHelper.

(** * Files *)

(** What the system answers: the entries of a directory, with whether each is a regular
    file, and the error that ended the reading, if one did; what [access] and [close]
    say; what a file holds. An error is its number. *)
Class FileSystem (W : Type) := {
  opendir : W -> string -> Z + list (string * bool) * Z;
  closedir : W -> string -> Z;
  access : W -> string -> Z;
  contents : W -> string -> option (list ascii);
  getcwd : W -> option string;
}.

(** [strerror]. *)
Class ErrorText := { strerror : Z -> string }.

Definition ENOENT : Z := 2.

Section unix.
Context `{ErrorText}.

Definition getErrorString (func : string) (errNo : Z) : string := func +:+ "() failed (" +:+ strerror errNo +:+ ")".
Definition fs_error {A} (func : string) (errNo : Z) : outcome A := Throw (FsException (getErrorString func errNo)).
End unix.

Module UnixFs.
Section unixfs.
Context {W : Type} `{FileSystem W} `{ErrorText}.

Definition getCWD (w : W) : string := match getcwd w with Some path => path | None => "." end.

(** [std::equal] of the texts from their ends. *)
Definition has_suffix (extension filename : list ascii) : bool :=
  (length extension <=? length filename)%nat &&
  bool_decide (take (length extension) (rev filename) = rev extension).

Definition last_char (l : list ascii) : option ascii := match rev l with c :: _ => Some c | [] => None end.

Definition listFiles (w : W) (folder extension : string) : outcome (list string) :=
  if str_empty folder then Throw (FsException "empty folder")
  else
    let path := if bool_decide (last_char (chars folder) = Some "/"%char) then folder else folder +:+ "/" in
    match opendir w path with
    | inl e => fs_error "opendir" e
    | inr (entries, e) =>
        let l := omap (fun '(filename, regular) =>
          if (regular : bool) && has_suffix (chars extension) (chars filename) then Some (path +:+ filename) else None) entries in
        if e =? 0 then if closedir w path =? 0 then Ret l else fs_error "closedir" (closedir w path)
        else fs_error "readdir" e
    end.

(** [substr] behind the last slash. *)
Fixpoint until_slash (l : list ascii) : list ascii :=
  match l with [] => [] | c :: l => if ascii_dec c "/" then [] else c :: until_slash l end.
Definition stripPath (filename : string) : string := text (rev (until_slash (rev (chars filename)))).

Definition readAll (w : W) (path : string) : outcome (list ascii) :=
  match contents w path with
  | Some l => Ret l
  | None => Throw (FsException ("could not open " +:+ path +:+ "'"))
  end.

Definition fileExists (w : W) (path : string) : outcome bool :=
  let e := access w path in
  if e =? 0 then Ret true else if e =? ENOENT then Ret false else fs_error "access" e.

(** ** Properties *)

(** [s] is some text and then [suffix]. *)
Definition ends_in (suffix s : list ascii) : Prop := exists p, s = p ++ suffix.

Lemma has_suffix_spec extension filename : has_suffix extension filename = true <-> ends_in extension filename.
Proof.
  unfold has_suffix, ends_in. rewrite andb_true_iff, bool_decide_eq_true, Nat.leb_le. split.
  - intros [_ Ht]. exists (rev (drop (length extension) (rev filename))).
    transitivity (rev (rev filename)); [symmetry; apply rev_involutive|].
    rewrite <- (take_drop (length extension) (rev filename)) at 1. by rewrite rev_app_distr, Ht, rev_involutive.
  - intros [p ->]. rewrite length_app, rev_app_distr. split; [lia|].
    rewrite <- (length_rev extension). apply take_app_length.
Qed.

Lemma until_slash_spec l : ~ List.In "/"%char (until_slash l) /\
  (until_slash l = l \/ exists r, l = until_slash l ++ "/"%char :: r).
Proof.
  induction l as [|c l [IH1 IH2]]; [split; [by intros []|by left]|]. cbn. destruct (ascii_dec c "/") as [->|Hc].
  - split; [by intros []|]. right. by exists l.
  - split; [intros [E|E]; [congruence|done]|]. destruct IH2 as [E|[r E]]; [left; by rewrite E|].
    right. exists r. cbn. by rewrite <- E.
Qed.

(** (functional) The files of a directory that are listed are its regular files whose names
    end in the extension, in the order the system gives, each with the path of the
    directory in front and one slash between; taking the path away again gives the name. *)
Theorem files_listed w folder extension l :
  listFiles w folder extension = Ret l ->
  exists path entries, (path = folder \/ path = folder +:+ "/") /\ last_char (chars path) = Some "/"%char /\
    opendir w path = inr (entries, 0) /\
    (forall f, List.In f l <-> exists name, f = path +:+ name /\ List.In (name, true) entries /\
       ends_in (chars extension) (chars name)) /\
    (forall name, ~ List.In "/"%char (chars name) -> stripPath (path +:+ name) = name).
Proof.
  unfold listFiles. destruct (str_empty folder); [done|]. set (path := if bool_decide _ then _ else _).
  assert (Hlast : last_char (chars path) = Some "/"%char).
  { unfold path. destruct (bool_decide _) eqn:E; [by apply bool_decide_eq_true in E|].
    unfold last_char. rewrite chars_app, rev_app_distr. done. }
  destruct (opendir w path) as [e|[entries e]] eqn:Ho; [done|].
  destruct (Z.eqb_spec e 0) as [->|]; [|done]. destruct (closedir w path =? 0); [|done]. intros [= <-].
  exists path, entries. split_and!; try done.
  - unfold path. destruct (bool_decide _); auto.
  - intros f. rewrite <- list_elem_of_In, list_elem_of_omap. split.
    + intros ([name regular] & Hin & Hf). destruct regular; cbn in Hf; [|done].
      destruct (has_suffix (chars extension) (chars name)) eqn:Hs; [|done]. injection Hf as <-. exists name.
      split_and!; [done|by apply list_elem_of_In|by apply has_suffix_spec].
    + intros (name & -> & Hin & Hs). exists (name, true). split; [by apply list_elem_of_In|].
      apply has_suffix_spec in Hs. by rewrite Hs.
  - intros name Hname. unfold stripPath. rewrite chars_app, rev_app_distr.
    assert (Hu : forall l r, ~ List.In "/"%char l -> until_slash (l ++ "/"%char :: r) = l).
    { clear. induction l as [|c l IH]; intros r Hl; cbn; [done|]. destruct (ascii_dec c "/") as [->|]; [by destruct Hl; left|].
      rewrite IH; [done|]. intros Hin. apply Hl. by right. }
    unfold last_char in Hlast. destruct (rev (chars path)) as [|c r]; [done|]. injection Hlast as ->.
    rewrite Hu by (by rewrite <- in_rev). by rewrite rev_involutive, text_chars.
Qed.

End unixfs.
End UnixFs.

(** * The options of the program *)

Module RuntimeOptions.

Record t := mk { params : gmap string string; strict_ : bool }.
Definition make : t := mk ∅ false.
Definition DefaultEmptyParam : string := "undef".

Definition set_param (key value : string) (o : t) : t := mk (<[key := value]> (params o)) (strict_ o).
Definition get_param (key : string) (o : t) : outcome string :=
  match params o !! key with
  | Some v => Ret v
  | None => Throw (StdRuntimeError ("RuntimeOptions::get_param [key = " +:+ key +:+ "] [value = " +:+ DefaultEmptyParam +:+ "]"))
  end.
Definition has_param (key : string) (o : t) : bool := bool_decide (is_Some (params o !! key)).
Definition is_strict (o : t) : bool := strict_ o.
Definition set_strict (v : bool) (o : t) : t := mk (params o) v.

(** [set_working_directory] of [main.cpp]: where to go, if anywhere. *)
Definition working_directory (o : t) : outcome (option string) :=
  if has_param "working_directory" o
  then d ← get_param "working_directory" o; Ret (if str_empty d then None else Some d)
  else Ret None.

End RuntimeOptions.

(** * Signals *)

Module SignalHandler.
Section signals.
(** The callbacks, and what [sigemptyset] and [sigaction] answer: an error or 0. *)
Context {F : Type} `{ErrorText} (sigemptyset : Z) (sigaction : Z -> Z).

Definition num_signals : Z := 65.

Inductive Signal := SigHup | SigInt | SigQuit | SigKill | SigSegv | SigPipe | SigTerm | SigUsr1 | SigUsr2 | SigStop.
Definition value (s : Signal) : Z :=
  match s with
  | SigHup => 1 | SigInt => 2 | SigQuit => 3 | SigKill => 9 | SigUsr1 => 10 | SigSegv => 11 | SigUsr2 => 12
  | SigPipe => 13 | SigTerm => 15 | SigStop => 19
  end.

(** [sigCallback], and the signals the system delivers to [fesser_e]. *)
Record t := mk { sigCallback : gmap Z F; handled : gset Z }.

Definition sig_error {A} (func : string) (e : Z) : outcome A := Throw (SignalException (getErrorString func e)).

Definition registerCallback (signal : Signal) (callback : F) (s : t) : t * outcome unit :=
  let n := value signal in
  if negb (sigemptyset =? 0) then (s, sig_error "sigemptyset" sigemptyset)
  else if negb (sigaction n =? 0) then (s, sig_error "sigaction" (sigaction n))
  else (mk (<[n := callback]> (sigCallback s)) ({[n]} ∪ handled s),
        cassert ((0 <? n) && (n <? num_signals))).

(** A signal is delivered: what is called. *)
Definition fesser_e (signal : Z) (s : t) : outcome (option F) :=
  _ ← cassert ((0 <? signal) && (signal <? num_signals)); Ret (sigCallback s !! signal).

(** (functional) Once a callback is registered it is what the signal calls, and other signals call
    what they did; the signals that the system lets no program handle are refused and
    change nothing. *)
Theorem signal_calls signal callback s s' r :
  registerCallback signal callback s = (s', r) ->
  (r = Ret tt -> value signal ∈ handled s' /\ fesser_e (value signal) s' = Ret (Some callback) /\
     forall n, n <> value signal -> fesser_e n s' = fesser_e n s) /\
  (r <> Ret tt -> s' = s /\ exists e, r = Throw (SignalException e)) /\
  (sigaction (value signal) <> 0 -> r <> Ret tt).
Proof.
  unfold registerCallback. destruct (Z.eqb_spec sigemptyset 0) as [_|Hs]; cbn [negb].
  2:{ intros [= <- <-]. split_and!; [done| |done]. intros _. split; [done|]. by eexists. }
  destruct (Z.eqb_spec (sigaction (value signal)) 0) as [Ha|Ha]; cbn [negb].
  2:{ intros [= <- <-]. split_and!; [done| |done]. intros _. split; [done|]. by eexists. }
  assert (Hc : cassert ((0 <? value signal) && (value signal <? num_signals)) = Ret tt) by (by destruct signal).
  rewrite Hc. intros [= <- <-]. split_and!; [|done|done]. intros _. split; [set_solver|]. split.
  - unfold fesser_e. rewrite Hc. cbn. by rewrite lookup_insert_eq.
  - intros n Hn. unfold fesser_e. cbn. by rewrite lookup_insert_ne.
Qed.

End signals.
End SignalHandler.

(** * Watched files *)

(** The inotify instance: a watch belongs to the file a path leads to; adding one for the
    same file again gives the same descriptor. An error is its number. *)
Class Inotify (W : Type) := {
  inotify_add_watch : string -> W -> W * (Z + Z);
  inotify_rm_watch : Z -> W -> W * Z;
}.

Module UnixFileWatcher.
Section watcher.
Context {W : Type} `{Inotify W} `{ErrorText}.

Definition IN_CLOSE_WRITE : Z := 8.

Record WatchParams := mk_params { path : string; mask : Z }.

(** [_watches]: a map by descriptors, in their order. *)
Definition Watches : Type := list (Z * WatchParams).

Fixpoint assign (wd : Z) (p : WatchParams) (l : Watches) : Watches :=
  match l with
  | [] => [(wd, p)]
  | (k, q) :: l => if wd =? k then (wd, p) :: l else if wd <? k then (wd, p) :: (k, q) :: l else (k, q) :: assign wd p l
  end.

Definition watchFile (file : string) (s : Watches) : io W Watches := fun w =>
  match inotify_add_watch file w with
  | (w, inl e) => (w, fs_error "inotify_add_watch" e)
  | (w, inr watch) => (w, Ret (assign watch (mk_params file 0) s))
  end.

Definition no_watch (file : string) : exn := FsException ("no registered watch for path:" +:+ file).

Fixpoint fileHasChanged (file : string) (s : Watches) : outcome bool :=
  match s with
  | [] => Throw (no_watch file)
  | (_, p) :: s =>
      if String.eqb (path p) file then Ret (0 <? Z.land (mask p) IN_CLOSE_WRITE) else fileHasChanged file s
  end.

Fixpoint fileReset (file : string) (s : Watches) : outcome Watches :=
  match s with
  | [] => Throw (no_watch file)
  | (k, p) :: s =>
      if String.eqb (path p) file then Ret ((k, mk_params (path p) 0) :: s)
      else s ← fileReset file s; Ret ((k, p) :: s)
  end.

Definition size (s : Watches) : Z := Z.of_nat (length s).

(** An event of the kernel in the buffer that [read] filled: [_watches.at(wd)] throws, in
    the watcher's thread, where nothing catches it. *)
Definition at_wd (wd : Z) (s : Watches) : option WatchParams := snd <$> List.find (fun kp => kp.1 =? wd) s.
Definition on_event (s : Watches) (ev : Z * Z) : outcome Watches :=
  match at_wd ev.1 s with
  | Some p => Ret (assign ev.1 (mk_params (path p) (Z.lor (mask p) ev.2)) s)
  | None => Fault Terminated
  end.
Definition run (s : Watches) (events : list (Z * Z)) : outcome Watches := foldM on_event s events.

(** [stop], after the thread has ended. *)
Definition stop (s : Watches) : io W Watches := fun w =>
  (_ ← foldIO (fun _ kp => fun w => match inotify_rm_watch kp.1 w with
                                      | (w, 0) => (w, Ret tt)
                                      | (w, e) => (w, fs_error "inotify_rm_watch" e)
                                      end) tt s; mret []) w.

(** ** Properties *)

Definition sorted (s : Watches) : Prop := Sorted.StronglySorted Z.lt (map fst s).

Lemma watch_found wd p s k : sorted s -> at_wd k (assign wd p s) = if k =? wd then Some p else at_wd k s.
Proof.
  unfold sorted, at_wd. induction s as [|[k' q] s IH]; cbn [map assign]; intros Hs.
  - cbn. rewrite Z.eqb_sym. by destruct (k =? wd).
  - apply Sorted.StronglySorted_inv in Hs as [Hs Hk]. destruct (Z.eqb_spec wd k') as [->|Hne].
    + cbn. rewrite (Z.eqb_sym k' k). by destruct (k =? k').
    + destruct (Z.ltb_spec wd k').
      * cbn. rewrite (Z.eqb_sym wd k). by destruct (k =? wd).
      * cbn. destruct (Z.eqb_spec k' k) as [<-|]; [|by apply IH]. by destruct (Z.eqb_spec k' wd) as [->|].
Qed.

Lemma assign_sorted wd p s : sorted s -> sorted (assign wd p s).
Proof.
  unfold sorted. induction s as [|[k q] s IH]; cbn [map assign]; intros Hs; [by repeat constructor|].
  pose proof Hs as Hs'. apply Sorted.StronglySorted_inv in Hs as [Hs Hk]. destruct (Z.eqb_spec wd k) as [->|Hne]; [done|].
  destruct (Z.ltb_spec wd k).
  - cbn. constructor; [done|]. constructor; [lia|]. eapply List.Forall_impl; [|exact Hk]. cbn. lia.
  - cbn. constructor; [by apply IH|]. assert (Hin : forall x, List.In x (map fst (assign wd p s)) -> x = wd \/ List.In x (map fst s)).
    { clear. induction s as [|[k q] s IH]; cbn; [intros x [->|[]]; by left|]. intros x.
      destruct (wd =? k) eqn:E; [apply Z.eqb_eq in E as ->; cbn; intuition|]. destruct (wd <? k); cbn; [intuition|].
      intros [->|Hx%IH]; intuition. }
    rewrite List.Forall_forall in Hk |- *. intros x [->|Hx]%Hin; [lia|by apply Hk].
Qed.

(** The paths of the watches are different. *)
Definition distinct (s : Watches) : Prop := NoDup (map (fun kp => path kp.2) s).

Lemma changed_at s wd p : distinct s -> at_wd wd s = Some p ->
  fileHasChanged (path p) s = Ret (0 <? Z.land (mask p) IN_CLOSE_WRITE).
Proof.
  unfold distinct, at_wd. induction s as [|[k q] s IH]; [done|]. cbn [map]. intros [Hq Hs]%NoDup_cons. cbn.
  destruct (k =? wd); cbn; [intros [= ->]; by rewrite String.eqb_refl|]. intros Hp.
  destruct (String.eqb_spec (path q) (path p)) as [E|]; [|by apply IH].
  destruct Hq. destruct (List.find _ s) as [[k' p']|] eqn:Ef; [|done]. injection Hp as ->. apply find_some in Ef as [Hin _].
  apply list_elem_of_In. cbn. rewrite E. exact (in_map (fun kp => path kp.2) _ _ Hin).
Qed.

Lemma assign_paths wd p q s : sorted s -> at_wd wd s = Some q -> path p = path q ->
  map (fun kp => path kp.2) (assign wd p s) = map (fun kp => path kp.2) s.
Proof.
  unfold sorted, at_wd. induction s as [|[k r] s IH]; [done|]. cbn [map assign]. intros Hs.
  apply Sorted.StronglySorted_inv in Hs as [Hs Hk]. cbn. rewrite Z.eqb_sym. destruct (Z.eqb_spec wd k) as [->|Hne].
  - intros [= ->] Hp. cbn. by rewrite Hp.
  - intros Hf Hp. destruct (Z.ltb_spec wd k); [|cbn; f_equal; by apply IH].
    exfalso. destruct (List.find _ s) as [[k' p']|] eqn:Ef; [|done]. apply find_some in Ef as [Hin He%Z.eqb_eq]. cbn in He.
    rewrite List.Forall_forall in Hk. specialize (Hk _ (in_map fst _ _ Hin)). cbn in Hk. lia.
Qed.

Definition closes (wd : Z) (events : list (Z * Z)) : bool :=
  existsb (fun ev => (ev.1 =? wd) && (0 <? Z.land ev.2 IN_CLOSE_WRITE)) events.

Lemma land_lor a b : 0 <= a -> 0 <= b ->
  (0 <? Z.land (Z.lor a b) IN_CLOSE_WRITE) = (0 <? Z.land a IN_CLOSE_WRITE) || (0 <? Z.land b IN_CLOSE_WRITE).
Proof.
  intros Ha Hb. rewrite Z.land_lor_distr_l.
  assert (Hl : forall x, 0 <= x -> Z.land x IN_CLOSE_WRITE = if Z.testbit x 3 then 8 else 0).
  { intros x Hx. apply Z.bits_inj'. intros n Hn. rewrite Z.land_spec. change IN_CLOSE_WRITE with (2 ^ 3).
    rewrite Z.pow2_bits_eqb by lia. destruct (Z.eqb_spec 3 n) as [<-|Hne].
    - destruct (Z.testbit x 3); done.
    - rewrite andb_false_r. destruct (Z.testbit x 3); [|by rewrite Z.bits_0].
      change 8 with (2 ^ 3). rewrite Z.pow2_bits_eqb by lia. by destruct (Z.eqb_spec 3 n). }
  rewrite (Hl a), (Hl b) by lia. by destruct (Z.testbit a 3), (Z.testbit b 3).
Qed.

(** (functional) A file that is watched has changed when, and only when, an event told so since it was
    watched or reset, as long as each watch has a path of its own and the events are of watches;
    an event of no watch, such as the one of a queue that overflowed, ends the program. *)
Theorem watch_tells events : forall s wd p,
  sorted s -> distinct s -> at_wd wd s = Some p -> 0 <= mask p -> Forall (fun ev => 0 <= ev.2) events ->
  (forall k q, at_wd k s = Some q -> 0 <= mask q) ->
  match run s events with
  | Ret s' => fileHasChanged (path p) s' = Ret ((0 <? Z.land (mask p) IN_CLOSE_WRITE) || closes wd events)
  | Throw _ => False
  | Fault f => f = Terminated /\ exists ev, List.In ev events /\ at_wd ev.1 s = None
  end.
Proof.
  unfold run. induction events as [|[k m] events IH]; intros s wd p Hs Hd Hp Hm Hev Hall.
  - cbn. rewrite orb_false_r. by apply (changed_at _ wd).
  - apply Forall_cons in Hev as [Hk Hev]. cbn in Hk. cbn [foldM].
    change (on_event s (k, m)) with (match at_wd k s with
      | Some p => Ret (assign k (mk_params (path p) (Z.lor (mask p) m)) s) | None => Fault Terminated end).
    destruct (at_wd k s) as [q|] eqn:Hq; [|cbn; split; [done|]; exists (k, m); split; [by left|done]].
    cbn [mbind outcome_bind]. set (q' := mk_params (path q) (Z.lor (mask q) m)). set (s' := assign k q' s).
    assert (Hmq : 0 <= mask q) by eauto.
    assert (Hq' : 0 <= mask q') by (apply Z.lor_nonneg; lia).
    assert (Hs' : sorted s') by (by apply assign_sorted).
    assert (Hd' : distinct s') by (unfold distinct, s'; by rewrite (assign_paths _ _ q)).
    assert (Hall' : forall k2 q2, at_wd k2 s' = Some q2 -> 0 <= mask q2).
    { intros k2 q2. unfold s'. rewrite watch_found by done. destruct (k2 =? k); [by intros [= <-]|apply Hall]. }
    assert (Hnone : forall k2, at_wd k2 s' = None -> at_wd k2 s = None).
    { intros k2. unfold s'. rewrite watch_found by done. by destruct (k2 =? k). }
    assert (Hp' : at_wd wd s' = Some (if wd =? k then q' else p)).
    { unfold s'. rewrite watch_found by done. by destruct (wd =? k). }
    specialize (IH s' wd _ Hs' Hd' Hp'). cbn [closes existsb fst snd] in *. destruct (Z.eqb_spec wd k) as [->|Hne].
    + rewrite Hp in Hq. injection Hq as <-. rewrite Z.eqb_refl. specialize (IH Hq' Hev Hall').
      destruct (foldM on_event s' events); [|done|].
      * cbn [path q'] in IH. rewrite IH. unfold q'. cbn [mask]. rewrite land_lor by lia. by rewrite <- orb_assoc.
      * destruct IH as [-> (ev & Hin & He)]. split; [done|]. exists ev. split; [by right|by apply Hnone].
    + rewrite (proj2 (Z.eqb_neq k wd)) by congruence. cbn [andb orb]. specialize (IH Hm Hev Hall').
      destruct (foldM on_event s' events); [done|done|].
      destruct IH as [-> (ev & Hin & He)]. split; [done|]. exists ev. split; [by right|by apply Hnone].
Qed.

(** (error) A file that is reached by two paths is watched under the second alone: the first is
    not known any more. *)
Theorem second_path_replaces file1 file2 wd (w w1 w2 : W) s1 s2 :
  file1 <> file2 -> inotify_add_watch file1 w = (w1, inr wd) -> inotify_add_watch file2 w1 = (w2, inr wd) ->
  watchFile file1 [] w = (w1, Ret s1) -> watchFile file2 s1 w1 = (w2, Ret s2) ->
  fileHasChanged file1 s1 = Ret false /\ fileHasChanged file1 s2 = Throw (no_watch file1) /\ size s2 = 1.
Proof.
  intros Hne H1 H2. unfold watchFile. rewrite H1, H2. intros [= <-]. cbn. rewrite Z.eqb_refl. intros [= <-]. cbn.
  rewrite String.eqb_refl. by rewrite (proj2 (String.eqb_neq _ _)).
Qed.

End watcher.
End UnixFileWatcher.

(** * Scripts *)

(** The shell: the error of [popen], or what the command printed with what [pclose]
    returned and the error number it left. *)
Class Shell (W : Type) := { popen : string -> W -> W * (Z + string * Z * Z) }.

Module UnixShellScript.
Section script.
Context {W : Type} `{Shell W} `{ErrorText}.

(** [toCmdLine]. *)
Fixpoint toCmdLine (args : list string) : string :=
  match args with [] => "" | [a] => a | a :: args => a +:+ " " +:+ toCmdLine args end.

(** [run]: what the script printed, and its result. *)
Definition run (script args : string) : io W (string * Z) := fun w =>
  let line := script +:+ " " +:+ args in
  match popen line w with
  | (w, inl e) => (w, Throw (ScriptException (getErrorString "popen" e +:+ " command: '" +:+ line +:+ "'")))
  | (w, inr (output, ret, e)) =>
      if (ret =? -1) && negb (e =? 0) then (w, Throw (ScriptException (getErrorString "pclose" e)))
      else (w, Ret (output, ret))
  end.

End script.
End UnixShellScript.

Module NetworkConfig.
Import UnixShellScript.

Record t := mk { enabled : bool; interface : string; dhcpEnabled : bool; netmask : string; ip : string;
                 defaultIp : string; gateway : string }.

Section network.
Context {T : Type} `{PropertyTree T} {W : Type} `{Shell W} `{ErrorText} (script_directory : string).

Definition make (cfg : T) : outcome t :=
  if get_default as_bool cfg "enabled" false then
    interface ← get as_string cfg "interface";
    dhcp ← get as_bool cfg "dhcp";
    netmask ← get as_string cfg "netmask";
    default_ip ← get as_string cfg "default_ip";
    let ip := get_default as_string cfg "ip" default_ip in
    gateway ← get as_string cfg "gateway";
    Ret (mk true interface dhcp netmask ip default_ip gateway)
  else Ret (mk false "" false "" "" "" "").

Definition NetCfgFile : string := "interfaces".

Definition build_line (c : t) : string :=
  toCmdLine [if dhcpEnabled c then "1" else "0"; NetCfgFile; interface c; ip c; netmask c; gateway c; "1&>/dev/null"].
Definition apply_line (c : t) : string := toCmdLine [NetCfgFile; interface c; "1&>/dev/null"].

Definition reload (c : t) : io W unit :=
  if negb (enabled c) then mret tt
  else
    '(output, _) ← run (script_directory +:+ "build_ipconfig.sh") (build_line c);
    if negb (str_empty output) then pure (Throw (ScriptException output))
    else _ ← run (script_directory +:+ "load_ipconfig.sh") (apply_line c); mret tt.

Definition setEnabled (state : bool) (c : t) : t :=
  mk state (interface c) (dhcpEnabled c) (netmask c) (ip c) (defaultIp c) (gateway c).

(** The new state, kept when [reload] throws. *)
Definition setDHCP (state : bool) (c : t) : io W (t * outcome unit) := fun w =>
  if Bool.eqb (dhcpEnabled c) state then (w, Ret (c, Ret tt))
  else
    let c := mk (enabled c) (interface c) state (netmask c) (ip c) (defaultIp c) (gateway c) in
    let '(w, r) := reload c w in (w, Ret (c, r)).

(** The argument is not used. *)
Definition setCustomIP (state : bool) (c : t) : t :=
  mk (enabled c) (interface c) (dhcpEnabled c) (netmask c) (defaultIp c) (defaultIp c) (gateway c).

(** (functional) Loading the configuration runs nothing when it is disabled; otherwise it
    builds the file of the interface and loads it when, and only when, building printed
    nothing. *)
Theorem network_loaded c w : 
  let built := popen ((script_directory +:+ "build_ipconfig.sh") +:+ " " +:+ build_line c) w in
  reload c w =
  if negb (enabled c) then (w, Ret tt)
  else match built with
  | (w1, inl e) => (w1, Throw (ScriptException (getErrorString "popen" e +:+ " command: '" +:+
                          ((script_directory +:+ "build_ipconfig.sh") +:+ " " +:+ build_line c) +:+ "'")))
  | (w1, inr (output, ret, e)) =>
      if (ret =? -1) && negb (e =? 0) then (w1, Throw (ScriptException (getErrorString "pclose" e)))
      else if negb (str_empty output) then (w1, Throw (ScriptException output))
      else (_ ← run (script_directory +:+ "load_ipconfig.sh") (apply_line c); mret tt) w1
  end.
Proof.
  intros built. unfold reload. destruct (enabled c); [|done]. cbn [negb]. unfold mbind at 1, io_bind at 1, run at 1.
  fold built. destruct built as [w1 [e|[[output ret] e]]]; [done|].
  destruct ((ret =? -1) && negb (e =? 0)); [done|]. by destruct (negb (str_empty output)).
Qed.

(** (error) An address that was configured is lost by [setCustomIP], whether the custom address is
    enabled or disabled. *)
Theorem custom_ip_lost cfg c a state : make cfg = Ret c -> enabled c = true ->
  get_child_optional cfg "ip" ≫= (fun x => as_string (data x)) = Some a ->
  ip c = a /\ ip (setCustomIP state c) = defaultIp c /\ setCustomIP true c = setCustomIP false c.
Proof.
  unfold make. destruct (get_default as_bool cfg "enabled" false); [|by intros [= <-]].
  intros Hm _ Hip. repeat (match type of Hm with context [mbind _ ?x] => destruct x; [|discriminate Hm..] end; cbn [mbind outcome_bind] in Hm).
  injection Hm as <-. cbn. unfold get_default. by rewrite Hip.
Qed.

End network.
End NetworkConfig.

(** * The log of the database *)

Module DatabaseLogSink.
Section sink.
Context {W D : Type} `{TransactionalDbLaws W D}.

(** [LogEntry], of which the run is the sink's; the time with the microseconds that
    [time_point_ptime] keeps. *)
Record LogEntry := mk_entry { level_ : Z; msg_ : string; thread_id_ : Z; timestamp_ : Z; run_id_ : string }.

(** [time_point_ptime], from nanoseconds. *)
Definition time_point_ptime (ns : Z) : Z := Z.quot ns 1000000000 * 1000000 + Z.quot (Z.rem ns 1000000000 + 500) 1000.

Context (persist : LogEntry -> D -> outcome (D * unit)) (run_id : string).

(** [log]: an [odb::exception] is printed. *)
Definition log (level : Z) (formatted : string) (thread_id time : Z) : io W unit := fun w =>
  match multiplexed (statement (persist (mk_entry level formatted thread_id (time_point_ptime time) run_id))) w with
  | (w', Throw e) => if is_odb e then (w', Ret tt) else (w', Throw e)
  | r => r
  end.

Lemma multiplexed_faults {A} (m : io W A) w w' f : multiplexed m w = (w', Fault f) -> stays_leaking m ->
  exists w0 t, current w0 = Some t /\ view w0 t = Some (committed w, committed w) /\ (m w0).2 = Fault f.
Proof.
  destruct (begin_same w) as (Hdb & _ & _). unfold multiplexed, scope, MultiplexedTransaction.make.
  unfold mbind at 1. unfold io_bind at 1. set (v := set_current None (begin w)). intros Hs Hm.
  assert (Hc : current v = None) by apply set_current_current.
  assert (Hdv : committed v = committed w) by (subst v; rewrite set_current_committed; done).
  destruct (construct_first v Hc) as [(w0 & t & Hk & _ & Hv & _ & _ & Hct & _)|(w0 & e & Hk & _)]; rewrite Hk in Hs; [|done].
  cbn [mret io_ret] in Hs. rewrite Hdv in Hv. exists w0, t. split; [done|]. split; [done|].
  unfold mbind, io_bind in Hs. specialize (Hm w0 t _ _ Hct Hv). destruct (m w0) as [w1 [a|e|f']]; cbn; [|done|congruence].
  destruct Hm as (_ & (d' & Hv1) & _). unfold MultiplexedTransaction.commit in Hs. cbn in Hs.
  destruct (commit_open w1 t _ _ Hv1) as (w2 & r & Hco & _ & _ & _ & _ & [[-> _]|(e & -> & _)]); by rewrite Hco in Hs.
Qed.

(** (safety) Whatever transaction the thread that logs is in: its writes are not touched by the
    message, which is committed at once or not at all; no exception of the database gets
    out; and the transaction is current again, unless the database refused to start the one of
    the message: then the caller goes on without its transaction. *)
Theorem sink_transparent level formatted thread_id time w :
  (forall x d f, persist x d <> Fault f) -> (forall x d e, persist x d = Throw e -> is_odb e = true) ->
  exists w', log level formatted thread_id time w = (w', Ret tt) /\
    (forall u, is_Some (view w u) -> view w' u = view w u) /\
    (committed w' = committed w \/
     exists d, persist (mk_entry level formatted thread_id (time_point_ptime time) run_id) (committed w) = Ret (d, tt) /\
       committed w' = d) /\
    (current w' = current w \/ exists e, construct (set_current None (begin w)) = (w', Throw e)).
Proof.
  intros Hf He. unfold log. set (q := persist _).
  pose proof (multiplexed_transaction (statement q) w (stays_leaks _ (stays_statement q))) as Hm.
  assert (Hrun : forall w0 t, current w0 = Some t -> view w0 t = Some (committed w, committed w) -> forall w1 r,
    statement q w0 = (w1, r) -> (forall f, r <> Fault f) /\ (forall e, r = Throw e -> is_odb e = true) /\
    forall d, r = Ret tt -> view w1 t = Some (committed w, d) -> q (committed w) = Ret (d, tt)).
  { intros w0 t Hc Hv w1 r Hs. destruct (statement_current unit q w0 t _ _ Hc Hv) as (w1' & r' & d' & Hs' & Hv' & _ & _ & _ & _ & Hr).
    rewrite Hs in Hs'. injection Hs' as <- <-. split_and!.
    - intros f ->. destruct Hr as [(a & [=] & _)|[(e & [=] & _)|(f' & _ & Hq)]]. by eapply Hf.
    - intros e ->. destruct Hr as [(a & [=] & _)|[(e' & [= <-] & [Hq|Ho])|(f' & [=] & _)]]; [by eapply He|done].
    - intros d -> Hd. rewrite Hv' in Hd. injection Hd as <-.
      destruct Hr as [([] & _ & Hq)|[(e & [=] & _)|(f & [=] & _)]]. exact Hq. }
  destruct (multiplexed (statement q) w) as [w' [[]|e|f]] eqn:E.
  - destruct Hm as [[Hv Hb] Hc]. exists w'. split; [done|]. split; [exact Hv|]. split.
    + right. destruct Hb as [(v & w0 & t & w1 & d & r & _ & _ & Hcw & Hvw & _ & Hs & Hvd & _ & Hr & Hd)|(? & ? & ? & _ & _ & [=] & _)].
      destruct (Hrun _ _ Hcw Hvw _ _ Hs) as (_ & _ & Hq). exists d. split; [by apply Hq|exact Hd].
    + destruct Hc as [Hc|(e & w0 & _ & [=])]. by left.
  - destruct Hm as [[Hv Hb] Hc]. assert (He' : is_odb e = true /\ committed w' = committed w).
    { destruct Hb as [(v & w0 & t & w1 & d & r & _ & _ & Hcw & Hvw & _ & Hs & Hvd & _ & Hr & Hd)|(? & ? & ? & _ & _ & [= -> ->] & Ho & Hd)]; [|done].
      destruct (Hrun _ _ Hcw Hvw _ _ Hs) as (_ & Ho & _). split; [|exact Hd]. destruct Hr as [Hr|[_ Hr]]; [by apply Ho|done]. }
    destruct He' as [-> Hd]. exists w'. split; [done|]. split; [exact Hv|]. split; [by left|].
    destruct Hc as [Hc|(e' & w0 & Hk & [= -> ->])]; [by left|right; by exists e'].
  - exfalso. apply multiplexed_faults in E as (w0 & t & Hc & Hv & Hs); [|apply stays_leaks, stays_statement]. destruct (statement q w0) as [w1 r] eqn:Es.
    destruct (Hrun _ _ Hc Hv _ _ Es) as (Hn & _). by apply (Hn f).
Qed.
End sink.
End DatabaseLogSink.

(** * Examples *)

Module Demo.

Lemma compare_built_witness :
  Version.versionCompare "1.2.42" "1.10.0-c1953908880a88d8131b6782ae8ff4da89826959" = Ret (-1) /\
  Version.isVersionValid "42.200.11.00" = false.
Proof.
  split; [|vm_compute; reflexivity].
  refine (proj1 (Version.compare_built 1 2 42 1 10 0 "" "c1953908880a88d8131b6782ae8ff4da89826959" _ _ _ _ _ _));
    unfold Version.INT_MAX; lia.
Defined.

(** A text that was never a number. *)
Example compare_nothing : Version.versionCompare "" "1.0.0" = Fault Uninitialised.
Proof. vm_compute. reflexivity. Qed.

Import LogHelper.

(** What the syslog is told of a module by that name, in green, and of a name in green
    and underlined, as the modules print them. *)
Lemma syslog_text_witness :
  text (remove_ascii_format (chars ("Starting " +:+ green "alarm" +:+ " now"))) = "Starting  now" /\
  remove_ascii_format (chars "Starting alarm now") = chars "Starting alarm now".
Proof.
  split.
  - refine (eq_trans (f_equal text (proj2 (syslog_text (chars "Starting ") (chars "2malar") "3"%char [] (chars " now")
      eq_refl eq_refl eq_refl eq_refl))) eq_refl).
  - exact (proj1 (syslog_text (chars "Starting alarm now") (chars "2malar") "3"%char [] [] eq_refl eq_refl eq_refl eq_refl)).
Defined.

Example nested_formats : text (remove_ascii_format (chars (green (underline "door")))) = "" /\
  text (remove_ascii_format (chars (red "a" +:+ " and " +:+ red "b"))) = "b" /\
  text (remove_ascii_format (chars (green "door"))) = "door".
Proof. vm_compute. auto. Qed.

(** A system of one directory, one file, and one watch. *)
#[export] Instance no_text : ErrorText := {| strerror e := to_string e |}.
#[export] Instance one_directory : FileSystem unit := {|
  opendir _ path := if String.eqb path "/etc/leosac/" then inr ([("kernel.xml", true); ("old.d", false); ("notes", true)], 0) else inl 2;
  closedir _ _ := 0;
  access _ path := if String.eqb path "/etc/leosac/kernel.xml" then 0 else 2;
  contents _ _ := None;
  getcwd _ := None;
|}.

Lemma files_listed_witness : exists path, path = "/etc/leosac/" /\
  UnixFs.listFiles tt "/etc/leosac" "xml" = Ret [path +:+ "kernel.xml"] /\ UnixFs.stripPath (path +:+ "kernel.xml") = "kernel.xml".
Proof.
  assert (H : UnixFs.listFiles tt "/etc/leosac" "xml" = Ret ["/etc/leosac/kernel.xml"]) by (vm_compute; reflexivity).
  destruct (UnixFs.files_listed tt "/etc/leosac" "xml" _ H) as (path & entries & [->| ->] & Hl & Ho & _ & Hstrip).
  - vm_compute in Ho. discriminate Ho.
  - exists "/etc/leosac/". split; [reflexivity|]. split; [exact H|]. apply Hstrip. vm_compute. intuition discriminate.
Defined.

Lemma signal_calls_witness : exists s',
  SignalHandler.registerCallback 0 (fun _ => 0) SignalHandler.SigTerm 7 (SignalHandler.mk ∅ ∅) = (s', Ret tt) /\
  SignalHandler.fesser_e 15 s' = Ret (Some 7).
Proof.
  eexists. split; [reflexivity|].
  exact (proj1 (proj2 (proj1 (SignalHandler.signal_calls 0 (fun _ => 0) SignalHandler.SigTerm 7 (SignalHandler.mk ∅ ∅) _ _ eq_refl) eq_refl))).
Defined.

Import UnixFileWatcher.

Definition two_watches : Watches := [(1, mk_params "a" 0); (2, mk_params "b" 0)].

Lemma watch_tells_witness :
  match run two_watches [(2, 8); (1, 2)] with
  | Ret s => fileHasChanged "b" s = Ret true
  | _ => False
  end.
Proof.
  pose proof (watch_tells [(2, 8); (1, 2)] two_watches 2 (mk_params "b" 0)) as T.
  refine (T _ _ eq_refl _ _ _).
  - repeat constructor; cbn; lia.
  - apply (bool_decide_eq_true_1 _). vm_compute. reflexivity.
  - cbn. lia.
  - repeat constructor; cbn; lia.
  - intros k q Hq. unfold at_wd, two_watches in Hq. cbn [List.find fst] in Hq.
    destruct (1 =? k); [|destruct (2 =? k); [|discriminate Hq]]; injection Hq as <-; cbn; lia.
Defined.

#[export] Instance one_file : Inotify unit := {| inotify_add_watch _ w := (w, inr 1); inotify_rm_watch _ w := (w, 0) |}.

Lemma second_path_witness : fileHasChanged "a" [(1, mk_params "b" 0)] = Throw (no_watch "a").
Proof.
  exact (proj1 (proj2 (second_path_replaces "a" "b" 1 tt tt tt _ _ ltac:(discriminate) eq_refl eq_refl eq_refl eq_refl))).
Defined.

Definition network : xml :=
  Node "" [("enabled", leaf "true"); ("interface", leaf "eth0"); ("dhcp", leaf "false"); ("netmask", leaf "255.255.255.0");
           ("default_ip", leaf "192.168.0.2"); ("ip", leaf "10.0.0.5"); ("gateway", leaf "10.0.0.1")].

Lemma custom_ip_witness : exists c, NetworkConfig.make network = Ret c /\ NetworkConfig.ip c = "10.0.0.5" /\
  NetworkConfig.ip (NetworkConfig.setCustomIP true c) = "192.168.0.2".
Proof.
  eexists. split; [vm_compute; reflexivity|].
  match goal with |- NetworkConfig.ip ?c = _ /\ _ =>
    assert (H : NetworkConfig.make network = Ret c) by (vm_compute; reflexivity) end.
  destruct (NetworkConfig.custom_ip_lost network _ "10.0.0.5" true H eq_refl eq_refl) as (H1 & H2 & _).
  split; [exact H1|exact H2].
Defined.

(** A message logged inside the transaction that wrote 1. *)
Import Transactions.Demo.

Definition write_time (x : DatabaseLogSink.LogEntry) (d : list Z) : outcome (list Z * unit) :=
  Ret ((d ++ [DatabaseLogSink.timestamp_ x])%list, tt).

Lemma sink_transparent_witness : exists w',
  DatabaseLogSink.log (W := W) (D := list Z) write_time "run" 1 "hello" 42 1500 outer = (w', Ret tt) /\
  current (D := list Z) w' = Some 0%nat.
Proof.
  destruct (DatabaseLogSink.sink_transparent (W := W) (D := list Z) write_time "run" 1 "hello" 42 1500 outer) as (w' & Hl & _ & _ & Hc).
  - intros x d f. discriminate.
  - intros x d e. discriminate.
  - exists w'. split; [exact Hl|]. destruct Hc as [Hc|(e & Hk)]; [exact Hc|vm_compute in Hk; discriminate Hk].
Defined.

End Demo.
