(* ===== verification/ModuleLife.v ===== *)
(** The life of a module: [src/modules/BaseModule.hpp], [BaseModule.cpp] and
    [AsioModule.cpp]. A module is built in a thread of its own, tells the manager that it is
    ready, and handles what its sockets receive until the manager stops it.

    What a module adds - its constructor, the handlers of its sockets, the files of its
    configuration - is a parameter, over the state [W] it keeps. *)
From Stdlib Require Import ZArith Lia Ascii String.
From stdpp Require Import base tactics numbers list strings gmap.
From S2P Require Import Prelude Facades Ptree Trees Config Modules Remote.

Open Scope Z_scope.

(** [zmqpp::signal]. *)
Inductive signal := Test | Ok | Ko | Stop | Header.
#[export] Instance signal_eq_dec : EqDecision signal.
Proof. solve_decision. Defined.

(** What the reactor finds ready: a message on the pipe of the manager, [None] when it is no
    signal; a request to the control socket; a socket that the module registered. *)
Inductive ready := Pipe (m : option signal) | Control (m : message) | Socket (n : nat).

Module BaseModule.

(** The module; [control_] is what was sent on the control socket. *)
Record t (T W : Type) := mk { name_ : string; config_ : T; is_running_ : bool; control_ : list message; user : W }.
Arguments mk {T W}. Arguments name_ {T W}. Arguments config_ {T W}. Arguments is_running_ {T W}.
Arguments control_ {T W}. Arguments user {T W}.

Section base.
Context {T W : Type} `{MutableTree T} (xml : T -> string).
(** [bind], of ZeroMQ, and what the module adds. [dump_additional_config] is the frames it
    added, and how it ended. *)
Context (bind : string -> outcome unit) (construct : T -> io W unit) (handler : nat -> io W unit).
Context (dump_additional_config : W -> message * outcome unit).
Abbreviation t := (t T W).

Definition make (cfg : T) (w : W) : outcome t :=
  name ← get as_string cfg "name";
  _ ← bind ("inproc://module-" +:+ name);
  Ret (mk name cfg true [] w).

Definition stopped (s : t) : t := mk (name_ s) (config_ s) false (control_ s) (user s).
Definition send_control (m : message) (s : t) : t := mk (name_ s) (config_ s) (is_running_ s) (control_ s ++ [m]) (user s).
Definition set_user (w : W) (s : t) : t := mk (name_ s) (config_ s) (is_running_ s) (control_ s) w.

Definition handle_pipe (m : option signal) : io t unit := fun s =>
  match m with
  | Some Stop => (stopped s, Ret tt)
  | _ => (s, Fault AssertFailed)
  end.

(** [dump_config]: an exception while adding files is logged. *)
Definition dump_config (format : Z) (s : t) : outcome message :=
  let config := FStr (if format =? BOOST_ARCHIVE then text_archive (config_ s) else xml (config_ s)) in
  match dump_additional_config (user s) with
  | (files, Fault f) => Fault f
  | (files, _) => Ret (config :: files)
  end.

Definition response (msg : message) (s : t) : outcome message :=
  '(frame1, msg) ← pop_str msg;
  if String.eqb frame1 "DUMP_CONFIG" then
    _ ← cassert (length msg =? 1)%nat;
    '(format, _) ← pop_u8 msg;
    dump_config format s
  else Fault AssertFailed.
Definition handle_control (msg : message) : io t unit := fun s =>
  match response msg s with
  | Ret m => (send_control m s, Ret tt)
  | Throw e => (s, Throw e)
  | Fault f => (s, Fault f)
  end.

(** The handlers of the reactor. *)
Definition handle (r : ready) : io t unit := fun s =>
  match r with
  | Pipe m => handle_pipe m s
  | Control m => handle_control m s
  | Socket n => let '(w, r) := handler n (user s) in (set_user w s, r)
  end.

(** [reactor_.poll()]: the sockets that are ready are handled one after the other. *)
Definition poll (l : list ready) : io t unit := foldIO (fun _ => handle) tt l.

(** [run], over what each [poll] finds: whether it has returned. *)
Fixpoint run (turns : list (list ready)) : io t bool := fun s =>
  if is_running_ s then
    match turns with
    | [] => (s, Ret false)
    | l :: turns => (_ ← poll l; run turns) s
    end
  else (s, Ret true).

(** [start_module_helper]: the module, the signals sent to the manager, and the result. An
    exception ends the program. *)
Definition ending {A} (r : outcome A) : outcome A := match r with Throw _ => Fault Terminated | r => r end.
Definition start_module_helper (cfg : T) (turns : list (list ready)) (w : W) : option t * list signal * outcome bool :=
  match make cfg w with
  | Ret m =>
      match construct cfg w with
      | (w, Ret tt) => let '(m, r) := run turns (set_user w m) in (Some m, [Ok], ending r)
      | (_, r) => (None, [], ending (_ ← r; Ret false))
      end
  | r => (None, [], ending (_ ← r; Ret false))
  end.

(** ** Properties *)

Definition stops (l : list ready) : bool :=
  existsb (fun r => match r with Pipe (Some Stop) => true | _ => false end) l.

(** The turns up to the one that stops the module. *)
Fixpoint until_stop (turns : list (list ready)) : list (list ready) :=
  match turns with [] => [] | l :: turns => if stops l then [l] else l :: until_stop turns end.

(** A request for the configuration, with its format. *)
Definition request (m : message) : option Z :=
  match m with [FStr s; FU8 z] => if String.eqb s "DUMP_CONFIG" then Some z else None | _ => None end.

(** What others may send: stop to the pipe, such requests to the control socket. *)
Definition well_formed (r : ready) : bool :=
  match r with
  | Pipe m => bool_decide (m = Some Stop)
  | Control m => bool_decide (is_Some (request m))
  | Socket _ => true
  end.

(** The answers, and the state of the module in the end. *)
Fixpoint answers (c : T) (l : list ready) (w : W) : list message :=
  match l with
  | [] => []
  | Control m :: l =>
      match request m with
      | Some format =>
          [FStr (if format =? BOOST_ARCHIVE then text_archive c else xml c) :: (dump_additional_config w).1]
      | None => []
      end ++ answers c l w
  | Socket n :: l => answers c l (handler n w).1
  | _ :: l => answers c l w
  end.
Fixpoint after (l : list ready) (w : W) : W :=
  match l with [] => w | Socket n :: l => after l (handler n w).1 | _ :: l => after l w end.

Lemma answers_app c l1 l2 w : answers c (l1 ++ l2) w = answers c l1 w ++ answers c l2 (after l1 w).
Proof.
  revert w; induction l1 as [|[m|m|n] l1 IH]; intros w; cbn; [done|apply IH| |apply IH].
  by rewrite IH, <- app_assoc.
Qed.
Lemma after_app l1 l2 w : after (l1 ++ l2) w = after l2 (after l1 w).
Proof. revert w; induction l1 as [|[] l1 IH]; intros w; cbn; auto. Qed.

Section served.
Hypothesis handlers_return : forall n w, (handler n w).2 = Ret tt.
Hypothesis files_listed : forall w f, (dump_additional_config w).2 <> Fault f.

Lemma dumped m s z : request m = Some z -> response m s =
  Ret (FStr (if z =? BOOST_ARCHIVE then text_archive (config_ s) else xml (config_ s)) :: (dump_additional_config (user s)).1).
Proof.
  destruct m as [|[str| | | |] [|[|z'| | |] [|]]]; try done. cbn. unfold response, dump_config. cbn.
  destruct (String.eqb str "DUMP_CONFIG"); [|done]. intros [= ->]. specialize (files_listed (user s)). cbn.
  destruct (dump_additional_config (user s)) as [files r]. cbn in *.
  destruct r; [done|done|]. by destruct (files_listed f).
Qed.

Lemma poll_served l s : Forall (fun r => well_formed r = true) l ->
  poll l s = (mk (name_ s) (config_ s) (is_running_ s && negb (stops l)) (control_ s ++ answers (config_ s) l (user s))
                 (after l (user s)), Ret tt).
Proof.
  revert s; induction l as [|r l IH]; intros s Hl.
  - cbn. rewrite andb_true_r, app_nil_r. by destruct s.
  - apply Forall_cons in Hl as [Hr Hl]. unfold poll. cbn [foldIO]. fold (poll l).
    unfold mbind, io_bind. destruct r as [m|m|n]; cbn [well_formed handle] in *.
    + apply bool_decide_eq_true in Hr as ->. cbn [handle_pipe]. etrans; [by apply IH|].
      cbn. by rewrite !andb_false_r.
    + apply bool_decide_eq_true in Hr as [z Hz]. unfold handle_control. rewrite (dumped m s z Hz). etrans; [by apply IH|]. cbn. by rewrite Hz, <- app_assoc.
    + specialize (handlers_return n (user s)). destruct (handler n (user s)) as [w r] eqn:Eh. cbn in handlers_return. subst r.
      etrans; [by apply IH|]. cbn. by rewrite Eh.
Qed.

(** (liveness) A module returns when it is told to stop and not before; until then, and in the
    turn in which it is told to, it answers each request in order, with its
    configuration and the files of the moment; what comes later is not looked at. *)
Theorem module_serves turns s :
  is_running_ s = true -> Forall (Forall (fun r => well_formed r = true)) (until_stop turns) ->
  exists s', run turns s = (s', Ret (existsb stops turns)) /\
    control_ s' = control_ s ++ answers (config_ s) (concat (until_stop turns)) (user s) /\
    user s' = after (concat (until_stop turns)) (user s) /\
    is_running_ s' = negb (existsb stops turns) /\ config_ s' = config_ s.
Proof.
  revert s; induction turns as [|l turns IH]; intros s Hs Hw; cbn.
  - rewrite Hs. exists s. by rewrite app_nil_r.
  - rewrite Hs. unfold mbind, io_bind. cbn in Hw. destruct (stops l) eqn:El.
    + apply Forall_cons in Hw as [Hw _]. rewrite poll_served by done. rewrite El, Hs. cbn [andb negb orb concat].
      destruct turns; cbn; eexists; (split; [reflexivity|]); cbn; by rewrite app_nil_r.
    + apply Forall_cons in Hw as [Hl Hw]. rewrite poll_served by done. rewrite El, Hs. cbn [andb negb orb].
      destruct (IH (mk (name_ s) (config_ s) true (control_ s ++ answers (config_ s) l (user s)) (after l (user s))) eq_refl Hw)
        as (s' & Hr & Hc & Hu & Hrun & Hcfg).
      exists s'. split; [done|]. cbn [concat]. rewrite answers_app, after_app.
      cbn in Hc, Hu, Hcfg. rewrite Hc, app_assoc. by split_and!.
Qed.
End served.

(** A turn that returns leaves the module running unless it was told to stop. *)
Lemma poll_running l s s' : poll l s = (s', Ret tt) -> is_running_ s' = is_running_ s && negb (stops l).
Proof.
  revert s; induction l as [|r l IH]; intros s; cbn.
  - intros [= <-]. by rewrite andb_true_r.
  - unfold mbind, io_bind. destruct (handle r s) as [s1 [[]|e|f]] eqn:Eh; [|done..].
    intros Hp. rewrite (IH _ Hp). destruct r as [[[]|]|m|n]; cbn in Eh; try done.
    + injection Eh as <-. cbn. by rewrite andb_false_r.
    + unfold handle_control in Eh. destruct (response m s); [|done..]. by injection Eh as <-.
    + destruct (handler n (user s)) as [w r]. by injection Eh as <- _.
Qed.

Lemma run_stopped turns s s' : is_running_ s = true -> run turns s = (s', Ret true) -> existsb stops turns = true.
Proof.
  revert s; induction turns as [|l turns IH]; intros s Hs; cbn; rewrite Hs; [done|].
  unfold mbind, io_bind. destruct (poll l s) as [s1 [[]|e|f]] eqn:Ep; [|done..]. intros Hr.
  apply poll_running in Ep. rewrite Hs in Ep. destruct (stops l); [done|]. by apply (IH s1).
Qed.

(** (error) The manager is told that a module is ready when, and only when, it was built; one that
    was not ends the program before the manager hears of it, and so does an exception
    of a handler; [start_module] returns only when the manager stopped the module. *)
Theorem program_ends cfg turns w m sent r : start_module_helper cfg turns w = (m, sent, r) ->
  (forall e, r <> Throw e) /\
  (sent = [Ok] /\ (exists b w', make cfg w = Ret b /\ construct cfg w = (w', Ret tt)) \/
   sent = [] /\ (exists f, r = Fault f) /\ forall b w', make cfg w = Ret b -> construct cfg w <> (w', Ret tt)) /\
  (r = Ret true -> existsb stops turns = true) /\
  (forall b w' m' e, make cfg w = Ret b -> construct cfg w = (w', Ret tt) -> run turns (set_user w' b) = (m', Throw e) ->
     r = Fault Terminated).
Proof.
  unfold start_module_helper. destruct (make cfg w) as [b|e|f] eqn:Em; cbn.
  - destruct (construct cfg w) as [w' [[]|e|f]] eqn:Ec.
    + destruct (run turns (set_user w' b)) as [m' r'] eqn:Er. intros [= <- <- <-]. split_and!.
      * by destruct r'.
      * left. eauto.
      * destruct r' as [[]|e|f]; try done. intros _. apply run_stopped in Er; [done|].
        unfold make in Em. destruct (get as_string cfg "name"); [|done..]. cbn in Em.
        destruct (bind _); [|done..]. by injection Em as <-.
      * intros ? ? ? e [= <-] [= <-]. rewrite Er. by intros [= _ ->].
    + intros [= <- <- <-]. split_and!; try done. right. split_and!; [done|by eexists|by intros ? ? _].
    + intros [= <- <- <-]. split_and!; try done. right. split_and!; [done|by eexists|by intros ? ? _].
  - intros [= <- <- <-]. split_and!; try done. right. split_and!; [done|by eexists|done].
  - intros [= <- <- <-]. split_and!; try done. right. split_and!; [done|by eexists|done].
Qed.

End base.
End BaseModule.

(** What RemoteControl is told of a module is what the module answers: the configurations that
    [Running] assumes are those of the modules. *)
Section remote.
Context {W T U : Type} `{Plugins W T, !Running W T} `{MutableTree T} (dump_additional_config : U -> message * outcome unit).

(** (refinement) The handler of the module's socket answers with the frames that [module_config]
    puts behind "OK" and the name. *)
Theorem module_answers_remote (k : kernel W T) module format (s : BaseModule.t T U) files :
  module ∈ modules_names k -> runs_with module (outside k) = Some (BaseModule.config_ s, files) ->
  dump_additional_config (BaseModule.user s) = (file_frames files, Ret tt) ->
  exists reply s',
    BaseModule.handle_control tree_xml dump_additional_config [FStr "DUMP_CONFIG"; FU8 format] s = (s', Ret tt) /\
    BaseModule.control_ s' = BaseModule.control_ s ++ [reply] /\ BaseModule.user s' = BaseModule.user s /\
    RemoteControl.module_config module format k = (k, Ret (FStr "OK" :: FStr module :: reply)).
Proof.
  intros Hin Hr Hd. eexists _, _. unfold BaseModule.handle_control, BaseModule.response, BaseModule.dump_config. cbn.
  rewrite Hd. split; [reflexivity|]. split; [reflexivity|]. split; [reflexivity|].
  unfold RemoteControl.module_config, get_kernel, mbind, io_bind. case_bool_decide; [|done]. by rewrite Hr.
Qed.
End remote.

(** * AsioModule *)

(** Its loop is the one of an [io_service]: a timer that polls the reactor, one that looks
    whether the module was stopped, and what is posted, by any thread, to run in the
    module's. [J] is what can be posted. *)
Module AsioModule.

Record t (T W J : Type) := mk {
  base : BaseModule.t T W;
  work_ : bool;               (* the io_service is kept running *)
  poller : bool;              (* [AsyncReactorPoller] waits for its timer *)
  watcher : bool;             (* [StopWatcher] waits for its timer *)
  posted : list J;
  returned : bool;
}.
Arguments mk {T W J}. Arguments base {T W J}. Arguments work_ {T W J}. Arguments poller {T W J}.
Arguments watcher {T W J}. Arguments posted {T W J}. Arguments returned {T W J}.

Section asio.
Context {T W J : Type} `{MutableTree T} (xml : T -> string) (handler : nat -> io W unit).
Context (dump_additional_config : W -> message * outcome unit) (call : J -> io W unit).
Abbreviation t := (t T W J).
Abbreviation running s := (BaseModule.is_running_ (base s)).

(** [run] until [io_service_.run()]. *)
Definition install_async_handlers (m : BaseModule.t T W) (before : list J) : t := mk m true true true before false.

(** What can happen: the timer of the poller, with what the reactor finds ready, the one of the
    watcher, a call that was posted, a call being posted, and the end of [io_service_.run()],
    which has nothing left to wait for. *)
Inductive act := Poll (l : list ready) | Watch | Call | Post (j : J) | Return.

(** An exception of a handler leaves [run], which ends the program. *)
Definition step (a : act) (s : t) : option (outcome t) :=
  if returned s then None
  else match a with
  | Poll l =>
      if poller s then
        Some (match BaseModule.poll xml handler dump_additional_config l (base s) with
              | (m, Ret tt) => Ret (mk m (work_ s) (BaseModule.is_running_ m) (watcher s) (posted s) false)
              | (_, r) => BaseModule.ending (_ ← r; Ret s)
              end)
      else None
  | Watch =>
      if watcher s then
        Some (Ret (if running s then s else mk (base s) false (poller s) false (posted s) false))
      else None
  | Call =>
      match posted s with
      | [] => None
      | j :: l =>
          let '(w, r) := call j (BaseModule.user (base s)) in
          Some (_ ← BaseModule.ending r;
                Ret (mk (BaseModule.set_user w (base s)) (work_ s) (poller s) (watcher s) l false))
      end
  | Post j => Some (Ret (mk (base s) (work_ s) (poller s) (watcher s) (posted s ++ [j]) false))
  | Return =>
      if work_ s || poller s || watcher s || negb (bool_decide (length (posted s) = 0%nat)) then None
      else Some (Ret (mk (base s) false false false [] true))
  end.

(** Any number of steps. *)
Inductive steps : t -> list act -> t -> Prop :=
  | steps_nil s : steps s [] s
  | steps_cons s a s1 l s2 : step a s = Some (Ret s1) -> steps s1 l s2 -> steps s (a :: l) s2.

(** ** Invariant *)

Record asio_ok (s : t) : Prop := {
  ok_running : running s = true -> returned s = false /\ work_ s = true /\ poller s = true /\ watcher s = true;
  ok_work : work_ s = watcher s;
  ok_returned : returned s = true -> poller s = false /\ watcher s = false /\ posted s = [];
}.

Lemma poll_keeps_stopped l (m m' : BaseModule.t T W) :
  BaseModule.poll xml handler dump_additional_config l m = (m', Ret tt) ->
  BaseModule.is_running_ m' = BaseModule.is_running_ m && negb (BaseModule.stops l).
Proof. apply BaseModule.poll_running. Qed.

Lemma step_ok a s s' : asio_ok s -> step a s = Some (Ret s') -> asio_ok s'.
Proof.
  intros Hok. pose proof Hok as [Hr Hw Hret]. unfold step. destruct (returned s) eqn:Er; [done|]. destruct a as [l| | |j|].
  - destruct (poller s) eqn:Ep; [|done].
    destruct (BaseModule.poll xml handler dump_additional_config l (base s)) as [m [[]|e|f]] eqn:El; cbn; [|done..].
    intros [= <-]. pose proof (poll_keeps_stopped _ _ _ El) as Hm. split; cbn; [|done..].
    intros Hrun. pose proof Hrun as Hs. rewrite Hm in Hs. apply andb_prop in Hs as [Hs _]. by destruct (Hr Hs) as (_ & ? & _ & ?).
  - destruct (watcher s) eqn:Ewt; [|done]. destruct (running s) eqn:Es; intros [= <-]; [done|]. split; cbn; [by rewrite Es|done..].
  - destruct (posted s) as [|j l] eqn:Epo; [done|]. destruct (call j _) as [w [[]|e|f]]; cbn; [|done..].
    intros [= <-]. split; cbn; [|done..]. intros Hs. by destruct (Hr Hs) as (_ & ? & ? & ?).
  - intros [= <-]. split; cbn; [|done..]. intros Hs. by destruct (Hr Hs) as (_ & ? & ? & ?).
  - destruct (work_ s) eqn:Ew; [done|]. destruct (poller s) eqn:Ep; [done|].
    destruct (watcher s) eqn:Ewt; [done|]. cbn. destruct (bool_decide _); [|done].
    intros [= <-]. split; cbn; [|done..]. intros Hs. by destruct (Hr Hs) as (_ & ? & _).
Qed.

Lemma steps_ok s l s' : steps s l s' -> asio_ok s -> asio_ok s'.
Proof. induction 1; eauto using step_ok. Qed.

(** What is left to do once the module is stopped. *)
Definition weight (s : t) : nat :=
  if returned s then 0
  else S (length (posted s) + (if poller s then 1 else 0) + (if watcher s then 1 else 0)).

Definition is_post (a : act) : bool := match a with Post _ => true | _ => false end.

Lemma step_weight a s s' : asio_ok s -> running s = false -> is_post a = false -> step a s = Some (Ret s') ->
  weight s = S (weight s') /\ running s' = false.
Proof.
  intros [_ Hw _] Hs Ha. unfold step, weight. destruct (returned s) eqn:Er; [done|]. destruct a as [l| | |j|]; [..|done|].
  - destruct (poller s) eqn:Ep; [|done].
    destruct (BaseModule.poll xml handler dump_additional_config l (base s)) as [m [[]|e|f]] eqn:El; cbn; [|done..].
    intros [= <-]. apply poll_keeps_stopped in El. rewrite Hs in El. cbn in *. rewrite El. cbn. split; [lia|done].
  - destruct (watcher s); [|done]. rewrite Hs. intros [= <-]. cbn. split; [lia|done].
  - destruct (posted s) as [|j l]; [done|]. destruct (call j _) as [w [[]|e|f]]; cbn; [|done..].
    intros [= <-]. cbn. split; [lia|done].
  - destruct (work_ s); [done|]. destruct (poller s); [done|]. destruct (watcher s); [done|]. cbn.
    case_bool_decide as Hl; [|done]. rewrite Hl. intros [= <-]. by cbn.
Qed.

(** While there is something left, something can happen: it is done, or its exception or fault
    ends the program. *)
Lemma step_enabled s : asio_ok s -> returned s = false ->
  exists a, is_post a = false /\ is_Some (step a s).
Proof.
  intros [_ Hw _] Hr. unfold step. rewrite Hr. destruct (poller s) eqn:Ep; [exists (Poll []); split; [done|]; cbn; by eexists|].
  destruct (watcher s) eqn:Ewt; [exists Watch; split; [done|]; by eexists|].
  destruct (posted s) as [|j l] eqn:Epo.
  - exists Return. split; [done|]. rewrite Hw. cbn. by eexists.
  - exists Call. split; [done|]. destruct (call j _). by eexists.
Qed.

(** (liveness) From its start, with whatever the sockets receive and the threads post: while it is
    not stopped, the module does not return and both timers are set; once it is, each
    step that is not a post by another thread leaves one thing less to do, until nothing is left but to have
    returned, and it does not stop on the way; everything that was posted has then been called. *)
Theorem asio_ends m before l s : BaseModule.is_running_ m = true -> steps (install_async_handlers m before) l s ->
  (running s = true -> returned s = false /\ poller s = true /\ watcher s = true) /\
  (returned s = true -> running s = false /\ posted s = []) /\
  (running s = false -> (returned s = true <-> weight s = 0%nat) /\
     (returned s = false -> exists a, is_post a = false /\ is_Some (step a s)) /\
     forall a s', is_post a = false -> step a s = Some (Ret s') -> weight s = S (weight s')).
Proof.
  intros Hm Hst. assert (Hok : asio_ok s).
  { eapply steps_ok; [done|]. by split. }
  pose proof Hok as [Hr Hw Hret]. split_and!.
  - intros Hs. by destruct (Hr Hs) as (? & _ & ? & ?).
  - intros Hs. split; [|by apply Hret]. destruct (running s) eqn:Es; [|done]. destruct (Hr eq_refl) as [? _]. congruence.
  - intros Hs. split_and!.
    + unfold weight. by destruct (returned s).
    + intros Hn. by apply step_enabled.
    + intros a s' Ha Hstep. by apply (step_weight a).
Qed.

End asio.
End AsioModule.

(** * Examples *)

Module Demo.

(** A module that counts the messages of its one socket, with a file; its socket 9 fails. *)
Definition tree_text (c : xml) : string := "<module/>".
Definition free (endpoint : string) : outcome unit := Ret tt.
Definition count (n : nat) (w : Z) : Z * outcome unit := (w + 1, Ret tt).
Definition count_or_fail (n : nat) (w : Z) : Z * outcome unit := if (n =? 9)%nat then (w, Throw StdOutOfRange) else (w + 1, Ret tt).
Definition files (w : Z) : message * outcome unit := (file_frames [("counter", to_string w)], Ret tt).
Definition idle (cfg : xml) : io Z unit := mret tt.
Definition counter : xml := Node "" [("name", leaf "COUNTER")].
Definition built : BaseModule.t xml Z := BaseModule.mk "COUNTER" counter true [] 0.

Definition turns : list (list ready) :=
  [[Socket 0]; [Control [FStr "DUMP_CONFIG"; FU8 1]; Socket 0]; [Pipe (Some Stop); Socket 0]; [Socket 0]].

Lemma module_serves_witness :
  exists s', BaseModule.run tree_text count files turns built = (s', Ret true) /\
    BaseModule.control_ s' = [[FStr "<module/>"; FStr "counter"; FStr "1"]] /\ BaseModule.user s' = 3.
Proof.
  destruct (BaseModule.module_serves tree_text count files ltac:(reflexivity) ltac:(discriminate) turns built eq_refl)
    as (s' & Hr & Hc & Hu & _).
  - repeat constructor.
  - exists s'. split; [exact Hr|]. split; [exact (eq_trans Hc ltac:(vm_compute; reflexivity))|exact Hu].
Defined.

Lemma program_ends_witness :
  let r := BaseModule.start_module_helper tree_text free idle count_or_fail files counter [[Socket 9]] 0 in
  r.1.2 = [Ok] /\ r.2 = Fault Terminated.
Proof.
  intros r.
  assert (E : BaseModule.start_module_helper tree_text free idle count_or_fail files counter [[Socket 9]] 0 =
    (r.1.1, r.1.2, r.2)) by (vm_compute; reflexivity).
  destruct (BaseModule.program_ends _ _ _ _ _ _ _ _ _ _ _ E) as (_ & _ & _ & He).
  split; [vm_compute; reflexivity|]. apply (He built 0 built StdOutOfRange); vm_compute; reflexivity.
Defined.

(** A module whose configuration has no name never starts. *)
Example unnamed : BaseModule.start_module_helper tree_text free idle count files (Node "" []) turns 0 =
  (None, [], Fault Terminated).
Proof. vm_compute. reflexivity. Qed.

#[local] Instance counter_runs : Running (list string) xml := {|
  runs_with name _ := if String.eqb name "COUNTER" then Some (counter, [("counter", "0")]) else None;
|}.
Definition with_counter : kernel (list string) xml :=
  set_modules [mk_info "COUNTER" "lib/COUNTER" true] (demo_start []).

Lemma module_answers_remote_witness :
  RemoteControl.module_config "COUNTER" 1 with_counter =
    (with_counter, Ret [FStr "OK"; FStr "COUNTER"; FStr "<kernel/>"; FStr "counter"; FStr "0"]).
Proof.
  destruct (module_answers_remote files with_counter "COUNTER" 1 built [("counter", "0")]) as (reply & s' & Hh & Hc & _ & Hm).
  - cbn. apply list_elem_of_here.
  - reflexivity.
  - vm_compute. reflexivity.
  - rewrite Hm. cbn in Hc. vm_compute in Hh. injection Hh as <-. vm_compute in Hc. by injection Hc as <-.
Defined.

Import AsioModule.

(** Two calls are posted, one while the module stops. *)
Definition add (j w : Z) : Z * outcome unit := (w + j, Ret tt).
Definition a_life : list act := [Call; Watch; Poll [Socket 0]; Poll [Pipe (Some Stop)]; Post 5; Watch; Call; Return].

Fixpoint play (l : list act) (s : t xml Z Z) : option (t xml Z Z) :=
  match l with
  | [] => Some s
  | a :: l => match step tree_text count files add a s with Some (Ret s) => play l s | _ => None end
  end.
Lemma asio_play_steps l s s' : play l s = Some s' -> steps tree_text count files add s l s'.
Proof.
  revert s; induction l as [|a l IH]; intros s; cbn; [intros [= ->]; constructor|].
  destruct (step _ _ _ _ a s) as [[s1|e|f]|] eqn:E; try done. intros Hp. econstructor; [exact E|by apply IH].
Qed.

Definition a_start : t xml Z Z := install_async_handlers built [7].
Definition an_end : t xml Z Z := mk (BaseModule.mk "COUNTER" counter false [] 13) false false false [] true.

Lemma asio_ends_witness : play a_life a_start = Some an_end /\ BaseModule.is_running_ (base an_end) = false /\ posted an_end = [].
Proof.
  assert (E : play a_life a_start = Some an_end) by (vm_compute; reflexivity). split; [exact E|].
  destruct (asio_ends tree_text count files add built [7] a_life an_end eq_refl (asio_play_steps _ _ _ E)) as (_ & Hr & _).
  exact (Hr eq_refl).
Defined.

End Demo.
