(* ===== verification/SideModules.v ===== *)
(** Modules that help testing, and the database of modules:
    [src/modules/stdin-controller/], [src/modules/instrumentation/] and
    [src/modules/bench-toggle/]; [setup_database], which
    [src/modules/auth/auth-db/AuthDBModule.cpp] and [PFDigitalModule.cpp] share. *)
From Stdlib Require Import ZArith Lia Ascii String.
From stdpp Require Import base tactics numbers list strings gmap.
From S2P Require Import Prelude Facades Ptree Trees Reader ModuleLife.

Open Scope Z_scope.

(** * The standard input *)

Module StdinController.

(** What is left of [std::cin], whether it is good, and the endpoints that are connected. *)
Record t := mk { input : list ascii; good : bool; endpoints_ : gset string }.

Definition newline : ascii := chr 10.

(** [std::cin.getline] of at most 4095 characters: the line, up to the end of the text if no
    newline ends it. A longer one and the end of the text leave a stream that is not good,
    which reads nothing. *)
Fixpoint break_line (l : list ascii) : list ascii * option (list ascii) :=
  match l with
  | [] => ([], None)
  | c :: l => if ascii_dec c newline then ([], Some l) else let '(a, r) := break_line l in (c :: a, r)
  end.
Definition limit : nat := Z.to_nat 4095.
Definition getline (s : t) : list ascii * t :=
  if good s then
    let '(line, rest) := break_line (input s) in
    if bool_decide (length line <= limit)%nat then
      match rest with
      | Some l => (line, mk l true (endpoints_ s))
      | None => (line, mk [] false (endpoints_ s))
      end
    else (take limit (input s), mk (drop limit (input s)) false (endpoints_ s))
  else ([], s).

(** The text up to a character 0. *)
Fixpoint c_str (l : list ascii) : list ascii :=
  match l with [] => [] | c :: l => if ascii_dec c (chr 0) then [] else c :: c_str l end.

(** [stream >> text], again and again. *)
Fixpoint split_words (l : list ascii) (word : list ascii) : list (list ascii) :=
  match l with
  | [] => match word with [] => [] | _ => [rev word] end
  | c :: l =>
      if isspace c then match word with [] => split_words l [] | _ => rev word :: split_words l [] end
      else split_words l (c :: word)
  end.
Definition words (l : list ascii) : list string := map text (split_words l []).

Definition is_number (s : string) : bool := negb (str_empty s) && forallb isdigit (chars s).

(** [stream >> nbr] of digits: the nearest [int64_t]. *)
Definition INT64_MAX : Z := 2 ^ 63 - 1.
Definition number (s : string) : Z := Z.min INT64_MAX (foldl (fun a c => 10 * a + (code c - 48)) 0 (chars s)).

Definition to_frame (s : string) : frame := if is_number s then FInt64 (number s) else FStr s.

Section controller.
Context {W : Type} `{Peers W}.
(** What zmqpp answers when it is to send no frame at all. *)
Context (send_nothing : outcome unit).

(** Whether the target answered, within a second. *)
Definition send_request (target : string) (cmds : list string) : io W bool := fun w =>
  match map to_frame cmds with
  | [] => (w, _ ← send_nothing; Ret false)
  | msg =>
      match exchange target msg w with
      | (w, None) => (w, Ret false)
      | (w, Some rep) => (w, '(_, _) ← pop_str rep; Ret true)
      end
  end.

(** The rest of [handleStdin], with the line: the endpoints. *)
Definition obey (line : list ascii) (endpoints : gset string) : io W (gset string) :=
  match words (c_str line) with
  | [] => mret endpoints
  | target :: cmds =>
      answered ← send_request target cmds;
      mret (if (answered : bool) then {[target]} ∪ endpoints else endpoints ∖ {[target]})
  end.

Definition handleStdin (s : t) : io W t :=
  let '(line, s) := getline s in
  e ← obey line (endpoints_ s);
  mret (mk (input s) (good s) e).

(** The reactor calls it [n] times. *)
Fixpoint handle_times (n : nat) (s : t) : io W t :=
  match n with O => mret s | S n => s ← handleStdin s; handle_times n s end.

(** ** Properties *)

Definition is_line (l : list ascii) : Prop := (length l <= limit)%nat /\ Forall (fun c => c <> newline) l.
Definition typed (lines : list (list ascii)) : list ascii := concat (map (fun l => l ++ [newline]) lines).

Lemma break_typed l rest : Forall (fun c => c <> newline) l -> break_line (l ++ newline :: rest) = (l, Some rest).
Proof.
  induction l as [|c l IH]; intros Hl; cbn [app break_line]; [by destruct (ascii_dec newline newline)|].
  apply Forall_cons in Hl as [Hc Hl]. destruct (ascii_dec c newline); [done|]. by rewrite IH.
Qed.

Lemma break_unended l : Forall (fun c => c <> newline) l -> break_line l = (l, None).
Proof.
  induction l as [|c l IH]; intros Hl; cbn [break_line]; [done|]. apply Forall_cons in Hl as [Hc Hl].
  destruct (ascii_dec c newline); [done|]. by rewrite IH.
Qed.

Lemma handle_deaf n s : good s = false -> forall w, handle_times n s w = (w, Ret s).
Proof.
  intros Hg. induction n as [|n IH]; intros w; cbn; [done|]. unfold handleStdin, getline. rewrite Hg. cbn.
  unfold mbind, io_bind. cbn. destruct s. by apply IH.
Qed.

(** (functional) The lines that are typed are obeyed one after the other, and nothing of them is lost or
    joined; the end of the text ends the obedience, but not the calls of the reactor. *)
Theorem lines_obeyed lines e more w : Forall is_line lines ->
  handle_times (length lines + more) (mk (typed lines) true e) w =
  (e' ← foldIO (fun e line => obey line e) e lines; handle_times more (mk [] true e')) w /\
  forall e', handle_times (S more) (mk [] true e') w = (w, Ret (mk [] false e')).
Proof.
  intros Hl. split.
  - revert e w; induction lines as [|l lines IH]; intros e w; [done|]. apply Forall_cons in Hl as [[Hlen Hne] Hl].
    cbn [length Nat.add handle_times foldIO]. unfold handleStdin, getline. cbn [good input endpoints_ typed map concat].
    fold (typed lines). rewrite <- app_assoc. cbn [app]. rewrite break_typed by done.
    rewrite bool_decide_eq_true_2 by done. cbn [endpoints_]. unfold mbind, io_bind.
    destruct (obey l e w) as [w1 [e1|ex|f]]; cbn; [|done..]. by rewrite IH.
  - intros e'. cbn [handle_times]. unfold handleStdin, getline. cbn. unfold mbind, io_bind. cbn. by apply handle_deaf.
Qed.

(** (error) The first 4095 characters of a line that is longer are obeyed as if they were the line;
    the module then never obeys again. *)
Theorem long_line_deafens line rest e n w : Forall (fun c => c <> newline) line -> (limit < length line)%nat ->
  (rest = [] \/ exists r, rest = newline :: r) ->
  handle_times (S n) (mk (line ++ rest) true e) w =
  (e' ← obey (take limit line) e; mret (mk (drop limit line ++ rest) false e')) w.
Proof.
  intros Hne Hlen Hrest. cbn [handle_times]. unfold handleStdin, getline. cbn [good input endpoints_].
  assert (Hb : exists r, break_line (line ++ rest) = (line, r)).
  { destruct Hrest as [-> | [r ->]]; [rewrite app_nil_r, break_unended by done|rewrite break_typed by done]; by eexists. }
  destruct Hb as [r ->]. rewrite bool_decide_eq_false_2 by lia. rewrite take_app_le, drop_app_le by lia.
  unfold mbind, io_bind. cbn. destruct (obey (take limit line) e w) as [w1 [e1|ex|f]]; cbn; [|done..].
  by apply handle_deaf.
Qed.

End controller.
End StdinController.

(** * Instrumentation *)

Module Instrumentation.
Import WiegandReaderImpl.

Definition endpoint {T} `{PropertyTree T} (config : T) : outcome string :=
  mc ← get_child config "module_config"; e ← get as_string mc "ipc_endpoint"; Ret ("ipc://" +:+ e).

(** The messages pushed to the bus. *)
Definition handle_gpio_command (msg : message) : outcome (list message) :=
  '(gpio_name, msg) ← pop_str msg;
  '(cmd, _) ← pop_str msg;
  Ret (if String.eqb cmd "ON" then [[FStr ("S_" +:+ gpio_name); FStr "ON"]]
       else if String.eqb cmd "OFF" then [[FStr ("S_" +:+ gpio_name); FStr "OFF"]]
       else if String.eqb cmd "INT" then [[FStr ("S_INT:" +:+ gpio_name)]]
       else []).

Definition handle_command (msg : message) : outcome (list message) :=
  '(_, msg) ← pop_str msg;
  '(str, msg) ← pop_str msg;
  if String.eqb str "GPIO" then handle_gpio_command msg else Fault AssertFailed.

(** What a sequence of commands pushes. *)
Definition handle_commands (l : list message) : outcome (list message) :=
  foldM (fun sent m => s ← handle_command m; Ret (sent ++ s)) [] l.

(** The commands that play a card to a reader of two pins. *)
Definition play (identity high low : string) (bits : list bool) : list message :=
  map (fun b : bool => [FStr identity; FStr "GPIO"; FStr (if b then high else low); FStr "INT"]) bits.

Lemma commands_from l sent : foldM (fun sent m => s ← handle_command m; Ret (sent ++ s)) sent l =
  (s ← handle_commands l; Ret (sent ++ s)).
Proof.
  unfold handle_commands. revert sent; induction l as [|m l IH]; intros sent; cbn; [by rewrite app_nil_r|].
  destruct (handle_command m) as [s|e|f]; cbn; [|done..]. rewrite IH, (IH s).
  destruct (foldM _ [] l); cbn; [|done..]. by rewrite app_assoc.
Qed.

(** (functional) The commands of a card reach a reader of these pins as the interrupts of its wires would:
    it has received its bits. *)
Theorem card_played identity high low bits r :
  reader_ok r -> clean r -> high <> low -> topic_high r = "S_INT:" +:+ high -> topic_low r = "S_INT:" +:+ low ->
  counter r + Z.of_nat (length bits) <= 128 ->
  exists sent r', handle_commands (play identity high low bits) = Ret sent /\
    handle_bus_msgs r (flat_map (fun m => match m with FStr s :: _ => [s] | _ => [] end) sent) = Ret r' /\
    received r' = received r ++ bits.
Proof.
  intros Hok Hc Hp Hh Hl Hlen.
  assert (Hs : handle_commands (play identity high low bits) =
    Ret (map (fun b : bool => [FStr (if b then topic_high r else topic_low r)]) bits)).
  { clear Hlen. induction bits as [|b bits IH]; [done|]. unfold handle_commands. cbn [play map foldM].
    assert (Hb : handle_command [FStr identity; FStr "GPIO"; FStr (if b then high else low); FStr "INT"] =
      Ret [[FStr (if b then topic_high r else topic_low r)]]) by (rewrite Hh, Hl; by destruct b).
    rewrite Hb. cbn [mbind outcome_bind]. fold (play identity high low bits). rewrite commands_from, IH. done. }
  destruct (receive_frame r bits) as (r' & Hr & _ & _ & _ & _ & Hrec); try done.
  { unfold distinct_pins. rewrite Hh, Hl. intros E. apply Hp.
    assert (chars ("S_INT:" +:+ high) = chars ("S_INT:" +:+ low)) as Ec by (by rewrite E). rewrite !chars_app in Ec.
    apply app_inv_head in Ec. by rewrite <- (text_chars high), Ec, text_chars. }
  eexists _, r'. split; [exact Hs|]. split; [|done]. rewrite <- Hr. f_equal. unfold interrupts.
  clear. induction bits as [|b bits IH]; [done|]. cbn. by rewrite <- IH.
Qed.

End Instrumentation.

(** * Bench-Toggle *)

Module BenchToggle.
Section bench.
Context {T W : Type} `{PropertyTree T} `{Peers W}.

(** [itr * wait_for], which is printed. *)
Definition product (a b : Z) : outcome Z :=
  if (- 2 ^ 31 <=? a * b) && (a * b <? 2 ^ 31) then Ret (a * b) else Fault Overflow.

(** [start_module], with the time of each iteration. *)
Definition start_module (now : nat -> Z) (cfg : T) : io W bool :=
  '(target, itr) ← pure (
    mc ← get_child cfg "module_config";
    target ← get_child mc "target";
    itr ← get as_int mc "iterations";
    wait_for ← get as_int mc "pause";
    _ ← product itr wait_for;
    Ret (data target, itr));
  _ ← foldIO (fun g i => '(_, g) ← FGPIO.toggle (now i) g; mret g) (FGPIO.make target) (seq 0 (Z.to_nat itr));
  mret true.

Lemma toggle_many `{!GpioCommands W} (now : nat -> Z) l : forall g w b, pin (FGPIO.gpio_name_ g) w = Some b ->
  exists g' w', foldIO (fun g i => '(_, g) ← FGPIO.toggle (now i) g; mret g) g l w = (w', Ret g') /\
    FGPIO.gpio_name_ g' = FGPIO.gpio_name_ g /\
    pin (FGPIO.gpio_name_ g) w' = Some (xorb b (Nat.odd (length l))) /\
    forall h, h <> FGPIO.gpio_name_ g -> pin h w' = pin h w.
Proof.
  induction l as [|i l IH]; intros g w b Hp.
  - exists g, w. cbn. by rewrite xorb_false_r.
  - destruct (gpio_toggle _ _ _ Hp) as (w1 & He & Hp1 & Ho1).
    destruct (IH (FGPIO.mk (FGPIO.gpio_name_ g) (now i)) w1 (negb b) Hp1) as (g' & w' & Hf & Hn & Hp' & Ho').
    exists g', w'. split_and!.
    + cbn [foldIO]. unfold FGPIO.toggle, FGPIO.command, ask_within, text_of, pure, mbind, io_bind, mret, io_ret in *.
      rewrite He. cbn. exact Hf.
    + exact Hn.
    + cbn [FGPIO.gpio_name_] in Hp'. rewrite Hp'. cbn [length]. rewrite Nat.odd_succ, <- Nat.negb_odd.
      destruct b, (Nat.odd (length l)); done.
    + intros h Hh. rewrite Ho', Ho1; done.
Qed.

(** (functional) The module toggles the pin that is configured as many times as it is told, and leaves it
    changed when, and only when, the number is odd; no other pin changes. *)
Theorem toggled `{!GpioCommands W} now cfg mc target itr pause w b :
  get_child cfg "module_config" = Ret mc -> get_child mc "target" = Ret target ->
  get as_int mc "iterations" = Ret itr -> get as_int mc "pause" = Ret pause ->
  0 <= itr -> - 2 ^ 31 <= itr * pause < 2 ^ 31 -> pin (data target) w = Some b ->
  exists w', start_module now cfg w = (w', Ret true) /\ pin (data target) w' = Some (xorb b (Z.odd itr)) /\
    forall h, h <> data target -> pin h w' = pin h w.
Proof.
  intros Hmc Ht Hi Hw Hpos Hb Hp. destruct (toggle_many now (seq 0 (Z.to_nat itr)) (FGPIO.make (data target)) w b Hp)
    as (g' & w' & Hf & _ & Hp' & Ho). exists w'. split_and!; [| |exact Ho].
  - unfold start_module, pure, mbind, io_bind. rewrite Hmc. cbn [outcome_bind]. rewrite Ht. cbn [outcome_bind].
    rewrite Hi. cbn [outcome_bind]. rewrite Hw. cbn [outcome_bind]. unfold product.
    rewrite (proj2 (Z.leb_le _ _)), (proj2 (Z.ltb_lt _ _)) by lia. cbn [andb outcome_bind].
    unfold mbind, io_bind in Hf. by rewrite Hf.
  - cbn [FGPIO.gpio_name_ FGPIO.make] in Hp'. rewrite Hp', length_seq. do 2 f_equal. apply eq_true_iff_eq.
    rewrite Nat.odd_spec, Z.odd_spec. split; intros [k Hk]; [exists (Z.of_nat k)|exists (Z.to_nat k)]; lia.
Qed.

End bench.
End BenchToggle.

(** * The database of a module *)

(** Of the database: the version of a named schema in it and in the program's catalogue, creating
    and migrating it, and transactions. *)
Class SchemaDb (W : Type) := {
  schema_version : string -> W -> W * outcome Z;
  current_version : string -> outcome Z;
  db_begin : W -> W * outcome unit;
  db_commit : W -> W * outcome unit;
  db_rollback : W -> W;
  create_schema : string -> W -> W * outcome unit;
  migrate : Z -> string -> W -> W * outcome unit;
}.

(** What they do, by the version each schema has, 0 when it is not there, and the versions when the
    transaction began. What fails leaves the transaction open. *)
Class SchemaDbLaws (W : Type) `{!SchemaDb W} := {
  version : string -> W -> Z;
  saved : W -> option (string -> Z);
  schema_asked n w : saved w = None -> (forall m, version m (schema_version n w).1 = version m w) /\
    saved (schema_version n w).1 = None /\
    ((schema_version n w).2 = Ret (version n w) \/ exists e, (schema_version n w).2 = Throw e);
  begin_saves w : saved w = None -> (forall m, version m (db_begin w).1 = version m w) /\
    ((db_begin w).2 = Ret tt /\ (exists v, saved (db_begin w).1 = Some v /\ forall m, v m = version m w) \/
     exists e, (db_begin w).2 = Throw e);
  create_creates n w v : saved w = Some v -> saved (create_schema n w).1 = Some v /\
    ((create_schema n w).2 = Ret tt /\ current_version n = Ret (version n (create_schema n w).1) /\
       (forall m, m <> n -> version m (create_schema n w).1 = version m w) \/
     exists e, (create_schema n w).2 = Throw e);
  migrate_migrates cv n w v : saved w = Some v -> saved (migrate cv n w).1 = Some v /\
    ((migrate cv n w).2 = Ret tt /\ version n (migrate cv n w).1 = cv /\
       (forall m, m <> n -> version m (migrate cv n w).1 = version m w) \/
     exists e, (migrate cv n w).2 = Throw e);
  commit_keeps w v : saved w = Some v ->
    ((db_commit w).2 = Ret tt /\ saved (db_commit w).1 = None /\ forall m, version m (db_commit w).1 = version m w) \/
    (exists e, (db_commit w).2 = Throw e) /\ saved (db_commit w).1 = Some v;
  rollback_restores w v m : saved w = Some v -> version m (db_rollback w) = v m;
}.

Module ModuleSchema.
Section schema.
Context {W : Type} `{SchemaDbLaws W}.

(** [transaction t(db->begin())], a body, [t.commit()]; the destructor rolls back. *)
Definition in_transaction (body : io W unit) : io W unit := fun w =>
  match db_begin w with
  | (w, Ret tt) =>
      match (_ ← body; act db_commit) w with
      | (w, Ret tt) => (w, Ret tt)
      | (w, r) => (db_rollback w, r)
      end
  | r => r
  end.

Definition setup_database (name : string) : io W unit :=
  v ← act (schema_version name);
  cv ← pure (current_version name);
  if v =? 0 then in_transaction (act (create_schema name))
  else if v <? cv then in_transaction (act (migrate cv name))
  else mret tt.

Lemma transaction_all (body : io W unit) w : saved w = None ->
  (forall w1 v, saved w1 = Some v -> saved (body w1).1 = Some v /\ ((body w1).2 = Ret tt \/ exists e, (body w1).2 = Throw e)) ->
  exists w' r, in_transaction body w = (w', r) /\
    ((exists w1, r = Ret tt /\ saved w1 <> None /\ (forall m, version m w1 = version m w) /\ (body w1).2 = Ret tt /\
        saved w' = None /\ forall m, version m w' = version m (body w1).1) \/
     (exists e, r = Throw e) /\ forall m, version m w' = version m w).
Proof.
  intros Hs Hb. unfold in_transaction. destruct (begin_saves w Hs) as [Hv Hbeg].
  destruct (db_begin w) as [w1 r1]. cbn in *. destruct Hbeg as [(-> & v & Hsv & Hvv)|[e ->]]; [|eexists _, _; split; [done|right; eauto]].
  destruct (Hb w1 v Hsv) as [Hs2 Hr2]. unfold mbind, io_bind, act. destruct (body w1) as [w2 r2] eqn:Eb. cbn in *.
  destruct Hr2 as [-> |[e ->]].
  - pose proof (commit_keeps w2 v Hs2) as Hc. destruct (db_commit w2) as [w3 r3]. cbn in *.
    destruct Hc as [(-> & Hs3 & Hv3)|[[e ->] Hs3]].
    + eexists _, _. split; [done|]. left. exists w1. rewrite Eb, Hsv. by split_and!.
    + eexists _, _. split; [done|]. right. split; [eauto|]. intros m. by rewrite (rollback_restores _ v), Hvv.
  - eexists _, _. split; [done|]. right. split; [eauto|]. intros m. by rewrite (rollback_restores _ v), Hvv.
Qed.

(** (invariant) When the set up of a module's database returns, its schema is there in the version of the
    program, or the newer one it had; when it throws, whatever failed, every schema is as
    it was; those of other modules are, either way. *)
Theorem schema_ready name cv w : saved w = None -> current_version name = Ret cv ->
  exists w' r, setup_database name w = (w', r) /\
    (forall m, m <> name -> version m w' = version m w) /\
    (r = Ret tt /\ version name w' = (if version name w =? 0 then cv else Z.max cv (version name w)) \/
     (exists e, r = Throw e) /\ version name w' = version name w).
Proof.
  intros Hs Hcv. unfold setup_database, mbind, io_bind, act, pure. destruct (schema_asked name w Hs) as (Hv & Hs1 & Hr).
  destruct (schema_version name w) as [w1 r1]. cbn in *.
  destruct Hr as [-> |[e ->]]; [|eexists _, _; split; [done|]; split; [done|right; eauto]]. rewrite Hcv.
  assert (Hbody : forall body : io W unit, (forall w2 v, saved w2 = Some v -> saved (body w2).1 = Some v /\
      ((body w2).2 = Ret tt /\ version name (body w2).1 = cv /\ (forall m, m <> name -> version m (body w2).1 = version m w2) \/
       exists e, (body w2).2 = Throw e)) ->
    exists w' r, in_transaction body w1 = (w', r) /\ (forall m, m <> name -> version m w' = version m w) /\
      (r = Ret tt /\ version name w' = cv \/ (exists e, r = Throw e) /\ version name w' = version name w)).
  { intros body Hb. destruct (transaction_all body w1 Hs1) as (w' & r & Hi & Hc).
    { intros w2 v Hw2. destruct (Hb w2 v Hw2) as [? [(? & _)|?]]; eauto. }
    exists w', r. split; [done|]. destruct Hc as [(w2 & -> & Hw2 & Hvw & Hr2 & _ & Hv')|[Hr Hv']].
    - destruct (saved w2) as [v|] eqn:Es; [|done]. destruct (Hb w2 v Es) as [_ [(_ & Hn & Ho)|[e He]]]; [|congruence].
      split; [intros m Hm; by rewrite Hv', Ho, Hvw|]. left. by rewrite Hv', Hn.
    - split; [intros m Hm; by rewrite Hv'|]. right. by rewrite Hv'. }
  destruct (Z.eqb_spec (version name w) 0) as [E0|E0].
  - apply Hbody. intros w2 v Hw2. destruct (create_creates name w2 v Hw2) as [? [(Hc & Hn & Ho)|[e He]]]; [|eauto].
    rewrite Hcv in Hn. injection Hn as Hn. split; [done|]. left. by split_and!.
  - destruct (Z.ltb_spec (version name w) cv) as [Hlt|Hge].
    + destruct (Hbody (migrate cv name) ltac:(intros; by apply migrate_migrates)) as (w' & r & Hi & Ho & [[-> Hn]|Hn]).
      * exists w', (Ret tt). split; [done|]. split; [done|]. left. split; [done|]. lia.
      * exists w', r. split; [done|]. split; [done|]. by right.
    + eexists _, _. split; [done|]. split; [done|]. left. split; [done|]. rewrite Hv. lia.
Qed.

End schema.

(** [AuthDBModule], and [PFDigitalModule] when it uses the database. *)
Section modules.
Context {W : Type} `{SchemaDb W}.
Definition auth_db_setup : io W unit := setup_database "module_auth-db".
Definition piface_setup : io W unit := setup_database "module_pifacedigital".
End modules.
End ModuleSchema.

(** * Examples *)

Module Demo.
Import StdinController.

(** Peers that answer "OK" to what they are asked, except one that does not answer; what was asked is
    kept. *)
Definition log : Type := list (string * message).
#[export] Instance log_peers : Peers log := {|
  exchange name m w := ((w ++ [(name, m)])%list, if String.eqb name "dead" then None else Some [FStr "OK"]);
|}.

Definition two_lines : list (list ascii) := [chars "GPIO_1 ON 500"; chars "  dead STATE"].

Lemma two_are_lines : Forall is_line two_lines.
Proof. repeat apply Forall_cons_2; try apply Forall_nil_2; (split; [apply Nat.leb_le; vm_compute; reflexivity|repeat constructor; discriminate]). Qed.

Lemma lines_obeyed_witness :
  let run := handle_times (Throw StdInvalidArgument) (2 + 1) (mk (typed two_lines) true {["dead"]}) ([] : log) in
  run.1 = [("GPIO_1", [FStr "ON"; FInt64 500]); ("dead", [FStr "STATE"])] /\
  match run.2 with Ret s => good s = false /\ endpoints_ s = {["GPIO_1"]} | _ => False end.
Proof.
  intros run. unfold run.
  rewrite (proj1 (lines_obeyed (Throw StdInvalidArgument) two_lines {["dead"]} 1 ([] : log)
    two_are_lines)).
  split; [vm_compute; reflexivity|]. vm_compute. split; reflexivity.
Defined.

(** A line of the name of a peer alone, which makes zmqpp throw; and digits beyond [int64_t]. *)
Example name_alone : (handleStdin (Throw StdInvalidArgument) (mk (typed [chars "GPIO_1"]) true ∅) ([] : log)).2 =
  Throw StdInvalidArgument /\ to_frame "99999999999999999999" = FInt64 (2 ^ 63 - 1) /\ to_frame "-5" = FStr "-5".
Proof. vm_compute. auto. Qed.

Definition long : list ascii := replicate (Z.to_nat 4095) "x"%char ++ chars " ON".

Lemma long_line_witness :
  handle_times (Ret tt) 5 (mk (long ++ newline :: typed [chars "GPIO_1 ON"]) true ∅) ([] : log) =
  (e' ← obey (Ret tt) (take limit long) ∅; mret (mk (drop limit long ++ newline :: typed [chars "GPIO_1 ON"]) false e')) ([] : log).
Proof.
  apply (long_line_deafens (Ret tt) long (newline :: typed [chars "GPIO_1 ON"]) ∅ 4 ([] : log)).
  - unfold long. apply Forall_app. split; [by apply Forall_replicate|repeat constructor; discriminate].
  - unfold long, limit. rewrite length_app, length_replicate. cbn. lia.
  - right. eexists. reflexivity.
Defined.

Import Instrumentation WiegandReaderImpl.

Lemma card_played_witness : exists sent r',
  handle_commands (play "tester" "GPIO_HIGH" "GPIO_LOW" [true; false; true; true]) = Ret sent /\
  handle_bus_msgs demo_reader (flat_map (fun m => match m with FStr s :: _ => [s] | _ => [] end) sent) = Ret r' /\
  received r' = [true; false; true; true].
Proof.
  exact (card_played "tester" "GPIO_HIGH" "GPIO_LOW" [true; false; true; true] demo_reader
    demo_reader_ok demo_reader_clean ltac:(discriminate) eq_refl eq_refl ltac:(vm_compute; discriminate)).
Defined.

(** A bench of one pin. *)
#[local] Instance one_pin : Peers bool := {|
  exchange name m w :=
    if String.eqb name "GPIO_1" then
      match m with
      | [FStr "TOGGLE"] => (negb w, Some [FStr "OK"])
      | FStr "ON" :: _ => (true, Some [FStr "OK"])
      | [FStr "OFF"] => (false, Some [FStr "OK"])
      | _ => (w, Some [FStr "KO"])
      end
    else (w, None);
|}.
#[local] Instance one_pin_gpio : GpioCommands bool.
Proof.
  refine {| pin g w := if String.eqb g "GPIO_1" then Some w else None |}; intros g w b; cbn.
  all: destruct (String.eqb_spec g "GPIO_1") as [->|]; [|discriminate]; intros; cbn; eexists; repeat split;
    try reflexivity; try congruence; intros h Hh; by rewrite (proj2 (String.eqb_neq _ _) Hh).
Defined.

Definition bench_config : xml := Node "" [("target", leaf "GPIO_1"); ("iterations", leaf "7"); ("pause", leaf "100")].
Definition bench : xml := Node "" [("module_config", bench_config)].

Lemma toggled_witness : exists w', BenchToggle.start_module (fun _ => 0) bench false = (w', Ret true) /\ w' = true.
Proof.
  assert (Hmc : get_child bench "module_config" = Ret bench_config) by reflexivity.
  assert (Ht : get_child bench_config "target" = Ret (leaf "GPIO_1")) by reflexivity.
  assert (Hi : get as_int bench_config "iterations" = Ret 7) by (vm_compute; reflexivity).
  assert (Hw : get as_int bench_config "pause" = Ret 100) by (vm_compute; reflexivity).
  assert (H0 : pin (data (leaf "GPIO_1")) false = Some false) by (vm_compute; reflexivity).
  destruct (BenchToggle.toggled (fun _ => 0) bench _ _ 7 100 false false Hmc Ht Hi Hw ltac:(lia) ltac:(lia) H0)
    as (w' & Hs & Hp & _).
  exists w'. split; [exact Hs|]. cbn in Hp. by injection Hp.
Defined.

(** A database of one module's schema: its version, and the one from before the transaction. Its
    catalogue is at version 3; migrating to it fails for the versions below 2. *)
Definition db : Type := Z * option Z.
Definition ours (m : string) : bool := String.eqb m "module_auth-db".
#[local] Instance one_schema : SchemaDb db := {|
  schema_version m w := (w, Ret (if ours m then w.1 else 0));
  current_version _ := Ret 3;
  db_begin w := ((w.1, Some w.1), Ret tt);
  db_commit w := ((w.1, None), Ret tt);
  db_rollback w := match w.2 with Some v => (v, None) | None => w end;
  create_schema m w := if ours m then ((3, w.2), Ret tt) else (w, Throw UnknownSchema);
  migrate cv m w := if ours m && (2 <=? w.1) then ((cv, w.2), Ret tt) else (w, Throw (OdbException "migration"));
|}.
#[local] Instance one_schema_laws : SchemaDbLaws db.
Proof.
  refine {| version m w := if ours m then w.1 else 0; saved w := (fun v m => if ours m then v else 0) <$> w.2 |}.
  - intros n [v s] Hs. cbn in *. eauto.
  - intros [v s] Hs. cbn in *. split; [done|]. left. split; [done|]. eexists. by split.
  - intros n [v s] sv Hs. unfold create_schema, one_schema, ours in *. destruct (String.eqb_spec n "module_auth-db") as [->|Hn]; cbn in *.
    + split; [done|]. left. split_and!; [done|done|]. intros m Hm. by rewrite (proj2 (String.eqb_neq _ _) Hm).
    + split; [done|]. right. by eexists.
  - intros cv n [v s] sv Hs. unfold migrate, one_schema, ours in *. destruct (String.eqb_spec n "module_auth-db") as [->|Hn]; cbn in *.
    + destruct (2 <=? v); cbn; (split; [done|]); [left|right; by eexists]. split_and!; [done|done|].
      intros m Hm. by rewrite (proj2 (String.eqb_neq _ _) Hm).
    + split; [done|]. right. by eexists.
  - intros [v [s|]] sv Hs; [|done]. by left.
  - intros [v [s|]] sv m Hs; [|done]. cbn in *. by injection Hs as <-.
Defined.

(** A schema that is not there is created; one whose migration fails stays. *)
Lemma schema_ready_witness :
  (exists w', ModuleSchema.auth_db_setup ((0, None) : db) = (w', Ret tt) /\ w'.1 = 3) /\
  (exists w' e, ModuleSchema.auth_db_setup ((1, None) : db) = (w', Throw e) /\ w'.1 = 1).
Proof.
  assert (Hcv : current_version (W := db) "module_auth-db" = Ret 3) by reflexivity.
  assert (Hn : forall v, saved ((v, None) : db) = None) by reflexivity.
  split.
  - destruct (ModuleSchema.schema_ready "module_auth-db" 3 (0, None) (Hn 0) Hcv) as (w' & r & Hs & _ & [[-> Hv]|[[e ->] Hv]]).
    + exists w'. split; [exact Hs|exact Hv].
    + vm_compute in Hs. discriminate Hs.
  - destruct (ModuleSchema.schema_ready "module_auth-db" 3 (1, None) (Hn 1) Hcv) as (w' & r & Hs & _ & [[-> Hv]|[[e ->] Hv]]).
    + vm_compute in Hs. discriminate Hs.
    + exists w', e. split; [exact Hs|exact Hv].
Defined.

End Demo.
